(* ===== verification/_CoqProject ===== *)
-Q . S2P
Prelude.v
Storage.v
Json.v
Db.v
GoStrings.v
Utf8.v
Runs.v
Paging.v
Sql.v
Tasks.v
Ids.v
Sha.v
Pipelines.v
Gates.v
Memories.v
Config.v
Fetch.v
Graph.v
Schedules.v
Server.v
Admission.v
Passed.v
Execution.v
Drain.v
Validate.v
Procs.v
Secrets.v
Webhooks.v
Steps.v
StepProps.v
Jobs.v
Runner.v
Paths.v
Trees.v
Tokens.v
Encoding.v
Encryption.v
SecretStore.v
Auth.v
ResourceStore.v
ResourceRunner.v
JsonCodec.v
Redaction.v
Shares.v
PipelinesApi.v
RunsApi.v
Shell.v
Schema.v
TaskLookup.v
TerminalViews.v
PipelineViews.v
Metrics.v
Routing.v
AgentLoop.v
Containers.v
TaskRunner.v
AgentTools.v
BuildImage.v
CacheTasks.v
NotifyStep.v
Agent.v
AgentStep.v
Resources.v
ResumeState.v
Resume.v
