(* ===== verification/Prelude.v ===== *)
(** * PocketCI: a verification library

    PocketCI is a CI server: it stores pipelines, starts runs of them (by hand,
    by webhook, on a schedule, after another job), executes the jobs and steps
    of a run in containers, and keeps rows, logs and versions in SQLite. This
    library models the Go code of that server, without its container back
    ends, and proves what each part promises to the others.

    ** Parts and files

    Shared notions.
    - [Prelude]: Go errors as values, the result type, the oracle of failing
      statements, generic lemmas and tactics, the classes [OrderBy] (a sort of
      the engine that is a permutation and sorted), [MapOrder] (iteration over
      a Go map, any order) and [UniqueIDs] (an injective supply of names).
    - [GoStrings], [Utf8], [Json], [Sql], [Sha], [Encoding]: what the code uses
      of Go's standard library and of SQLite: [strings] and [path], the code
      points of a string and the JSON text of one, JSON values with the merge
      patch of RFC 7396, GLOB and LIKE, SHA-256 with HMAC, and base64 with the
      escaping of path segments. All are executable.

    Storage (storage/, storage/sqlite/).
    - [Storage], [Db]: the structs and rows, and the database: a record of
      finite maps, one per table, with cascades and triggers on deletion.
      A method of the driver is one definition, statement by statement, in
      explicit state passing; every statement may fail ([db_faults]), and under
      a cancelled context the first one does ([with_ctx]).
    - [Runs], [Tasks], [Pipelines], [Gates], [Schedules], [Memories],
      [Paging]: a file of storage/sqlite/ each; [Paths] builds and reads the
      keys of the task store, [Trees] folds the rows of a run into a tree
      (storage/tree.go). [Gates] holds also the API of the gates
      and the loop a gated job polls in, [Schedules] the scheduler
      (scheduler/scheduler.go) and the synchronisation on upsert.
    - [Encryption], [SecretStore]: the encryptor and the two stores of
      secrets (secrets/sqlite, secrets/s3), refining one abstract map. A call
      of S3 fails with an error of its client, by type or by text, which
      decides whether it counts as a missing object;
      [Secrets] the references to secrets in a configuration.

    The server (server/).
    - [Server], [Admission], [Passed], [Execution]: the execution service. The
      state [svc] holds the database, the in-flight counter, the stop registry,
      the goroutines of the runs and the requests that execute a run themselves
      ([RunByNameSync]), each a record with a phase; every atomic step of a
      goroutine, of such a request, of the queue processor, of a trigger or of
      the recovery is a function on [svc], and an interleaving is a sequence of
      such steps.
    - [Webhooks]: the providers (webhooks/) and the endpoint.
    - [Tokens], [Auth]: share tokens, user tokens and their audiences,
      sessions, the middleware, and the two logins (MCP clients, command line)
      as a state machine over requests.
    - [Shares]: the signing secret of share links and what a shared page hides.
    - [PipelinesApi]: saving, listing, pausing, triggering, seeding and deleting
      pipelines over HTTP, with the access expression of each pipeline.
    - [RunsApi]: reading, stopping and resuming a run, and the upload of a
      synchronous run with its cap.
    - [TerminalViews], [PipelineViews], [Metrics]: the pages of the runs and of
      share links, of the pipelines, and of the metrics: the data their
      templates are given (web_*_controller.go, terminal.go).
    - [Routing]: the table of routes with the middleware of each group, the
      recovery at start (router.go), and the tools for MCP clients.
    - [Drain]: when no new work arrives, no job is triggered by a job of
      another run and every step that can happen happens in the end, the
      service becomes idle.

    Running a pipeline (backwards/, runtime/).
    - [Config], [Graph], [Validate]: the configuration and its validation.
    - [Runner], [Jobs], [Procs], [Steps], [StepProps]: the order of jobs, one
      job, and its steps. A step is a process ([Procs]): a tree of atomic
      actions on the job's state in which groups of goroutines interleave, so
      that a theorem about a handler speaks of every schedule. A group has the
      permits its handler gave the semaphore; [StepProps.permits] says which
      they must be. The context of the job is never cancelled there.
    - [ResourceStore], [Resources]: resource versions and the get and put
      steps. The store functions are written once against a class of store
      calls and used with two instances.
    - [ResourceRunner]: native resources called from JavaScript, and the
      references to secrets inside their maps (runtime/runner/resource.go).
    - [Containers], [TaskRunner], [Redaction]: one task: its container, its
      logs, its secrets. The context of the run may end at any moment
      ([Cancellation]); from then on the writes of the task fail.
    - [JsonCodec], [ResumeState], [Resume]: the runner that resumes a run from
      its stored state.
    - [Fetch]: the call fetch() of a pipeline and the addresses it refuses
      (runtime/jsapi/fetch.go).
    - [Shell]: what a POSIX shell makes of the quoting functions and of the
      commands the program writes: a tokenizer, and the words that come back.
    - [BuildImage], [CacheTasks], [NotifyStep]: building an image, moving the
      caches of a job, and notifications, each with the container script or the
      message it makes (runtime/runner/, runtime/jsapi/notify.go) and with its
      handler.

    Agents (runtime/agent/).
    - [Schema]: the notation for output schemas, its expansion and the checker
      (schema/); [TaskLookup]: finding the output of an earlier task by an
      approximate name; [AgentTools]: the tools, each a command in the sandbox.
    - [AgentLoop]: one conversation: events, usage, audit log, limits. The
      runner of the agents' framework is the class [AgentHost].
    - [Agent]: a run, from the sandbox to the result, and sub-agents; what else
      it calls is the class [AgentEnv]. An [Observer] is a host that keeps track
      of what its callbacks are told.
    - [AgentStep]: the step of a pipeline (agent_handler.go): an instance of
      these classes over the state of a job, whose callbacks write to the store
      as long as the context is live; what else happens while the agent runs,
      sub-agents that write their own rows included, is [SteadyWorld].

    ** What the theorems show

    Safety of the service: slots and registry agree with the goroutines and
    the synchronous runs under every interleaving ([Execution.service_accounting]), concurrency rules
    ([Admission], [Execution.processQueueTick_dispatches]), run states are
    final ([Runs.UpdateRunStatus_terminal_frozen]), gates
    ([Gates.runGate_passed_approved], [Gates.gate_decision_final]).
    Liveness: under fair scheduling a service without new work and without
    triggers between its jobs becomes idle ([Drain.service_becomes_idle]). Authentication: a webhook starts a run only under its provider's
    documented scheme ([Webhooks]); a pipeline's access expression guards
    the handlers that [RunsApi.denied_changes_nothing] names, and not those
    of the schedules, RunsSection and the MCP tools ([PipelineViews.runs_section_unguarded],
    [Routing.search_pipelines_unguarded]); a token handed out presupposes a login
    ([Auth]); tokens of one audience are refused by the other ([Tokens]).
    Execution: running ends, order and completeness of jobs ([Runner]); every
    schedule of a step's goroutines ends and runs as many members at once as
    the configuration grants ([StepProps]); the status recorded on every path ([Jobs], [TaskRunner],
    [Resources]). Data: resource versions refine an append-only list
    ([ResourceStore]), as long as no two texts share their 32-bit hash, the
    stores of secrets refine a map ([SecretStore]), a
    saved run state is read back and replayed ([Resume]), output is complete
    and redacted ([TaskRunner], [Redaction]). Validators accept exactly the
    graphs they should ([Validate]). Agents: the loop ends within its limits
    ([AgentLoop]); the result is what the audit log says and conforms to the
    output schema, or the agent was asked once more ([Agent]); the checker
    accepts the answers the notation describes ([Schema]); the trail of a run is
    complete in the store ([AgentStep]). Pages: the leaves of the tree are the
    rows, in order ([Trees.AsTree_leaves]); a shared page shows its run without
    the secrets ([TerminalViews.shared_page_redacted]); what a page says of a
    job's triggers is what the service does ([PipelineViews.ready_to_fire_fires]);
    without a login only the public paths answer ([Routing.anonymous_sees_public]).
    Fetching: no connection to a private address ([Fetch.Dial_never_private]).
    Commands: whatever the parameters
    contain, a shell reads each of them as one argument
    ([BuildImage.build_command_reads], [CacheTasks.cache_commands_read]). Names that begin with ex_ or end in
    _witness are concrete instances. Lemmas with concrete inputs that exhibit
    a defect ([attempts_keep_earlier_error], [overlapping_runs_leak],
    [device_code_twice] and the like) state what the code does there.

    ** Fuel and bounds

    Every recursion of the code that is not structural is shown to end or to
    have enough fuel: the runner's recursion over dependents runs on the
    number of jobs plus two and [Runner.Run_respects_passed] shows that this is
    enough; the search for cycles on the number of white nodes
    ([Graph.visit_fuel]); the polling of a gate with a deadline ends
    ([Gates.poll_loop_terminates]), one without a deadline may poll for ever,
    as in the code; polling a container ends when the container does
    ([EndingContainers]). The loop of an agent runs on the number of events,
    and [AgentLoop.executeAgentLoop_stops] gives the fuel that is enough when
    every model request is answered. Go's 64-bit [int] wraps where the page arithmetic
    and byte sizes can overflow ([Paging], [Config]). The digest's constants
    are cube roots with 40 fractional bits of which 32 are used ([Sha]).

    ** Parameters

    Code outside this repository is a class or an argument: container back
    ends ([Driver], [ContainerDriver], [Cancellation]), the template engine
    ([TemplateEngine], [PipelineLibraries]), expression languages
    ([ExprLang], [AccessLang]), the agents' framework with its sandbox
    ([AgentHost], [AgentEnv], [AgentWorld]), notification services
    ([NotifyServices]), JWT signing ([JWT]), authenticated encryption
    and key derivation (in [SecretStore]), JSON and YAML text
    ([JsonText], [JsonSyntax], [ResourceText], [ResumeText]),
    rendered terminal output, name resolution and HTTP clients,
    formatted messages and times ([Format], [Stamp], [SentinelText],
    [VersionText], [Clockwork]), and the full-text search. Their laws are the documented
    ones, each is instantiated where a theorem has a witness.

    ** Not modelled

    The container back ends (orchestra/: docker, kubernetes, fly, hetzner,
    digitalocean, vz, qemu and others) translate the driver's interface to
    external services; the JavaScript runtime binds an engine; commands/,
    client/ and executor/ are command line and HTTP glue; observability records
    metrics. Within the modelled parts, logging and metrics are left out, and so
    are the matching of paths to routes and the templates. The step interpreter
    takes the agent, notify, build_image, get and put handlers as a parameter,
    with the hypothesis that they keep the store working and start no groups;
    their own files model them. A JSON string is in the model the bytes it was
    made from: encoding/json replaces bytes that are not UTF-8, which only
    [ResourceStore] models. An agent step is one transition of its job: what the siblings of a
    parallel group do meanwhile is left out. *)

From stdpp Require Export base gmap strings list pretty sorting.
From Stdlib Require Export ZArith Lia.

Declare Scope go_scope.
Delimit Scope go_scope with go.

(** ** Errors

    Go errors are values: a sentinel compared by identity ([errors.Is]), a
    message made by [fmt.Errorf] or [errors.New], or a message that wraps
    another error with [%w]. *)
Inductive sentinel : Type :=
  | SNotFound            (* storage.ErrNotFound *)
  | SPipelinePaused      (* storage.ErrPipelinePaused *)
  | SRunNotInFlight      (* server.ErrRunNotInFlight *)
  | SQueueFull           (* server.ErrQueueFull *)
  | SNoRows              (* sql.ErrNoRows *)
  | SSqlite              (* any other error of the SQL driver *)
  | SUnauthorized        (* webhooks.ErrUnauthorized *)
  | SNoMatch             (* webhooks.ErrNoMatch *)
  | SSecretNotFound      (* secrets.ErrNotFound *)
  | SCanceled            (* context.Canceled *)
  | SDeadlineExceeded    (* context.DeadlineExceeded *)
  | SContainerNotFound   (* orchestra.ErrContainerNotFound *)
  | SInvalidKey          (* secrets.ErrInvalidKey *)
  | SUnsupported         (* errors.ErrUnsupported *)
  | SKeyNotFound         (* s3config.errKeyNotFound *)
  | SNoSuchKey           (* types.NoSuchKey of the S3 client *)
  | SS3NotFound          (* types.NotFound of the S3 client *)
  | SPanic.              (* a run-time panic: no caller in the model recovers it *)

#[export] Instance sentinel_eq_dec : EqDecision sentinel.
Proof. solve_decision. Defined.

Inductive err : Type :=
  | ESentinel (s : sentinel)
  | EMsg (msg : string)
  | EWrap (msg : string) (e : err).

#[export] Instance err_eq_dec : EqDecision err.
Proof. solve_decision. Defined.

(** [errors.Is]: walk the [Unwrap] chain. *)
Fixpoint errors_Is (e : err) (s : sentinel) : bool :=
  match e with
  | ESentinel s' => bool_decide (s' = s)
  | EMsg _ => false
  | EWrap _ e' => errors_Is e' s
  end.

Inductive result (A : Type) : Type :=
  | Ok (a : A)
  | Err (e : err).
Arguments Ok {A} a.
Arguments Err {A} e.

Definition is_ok {A} (r : result A) : bool :=
  match r with Ok _ => true | Err _ => false end.

Definition result_bind {A B} (r : result A) (f : A -> result B) : result B :=
  match r with Ok a => f a | Err e => Err e end.

(** ** A state-and-error monad

    A Go method that reads and writes shared state and returns
    [(value, error)] is a function from the state to a result and the new
    state. An error keeps the state changes made before it. *)
Definition ST (S A : Type) : Type := S -> result A * S.

Definition ret {S A} (a : A) : ST S A := fun s => (Ok a, s).
Definition fail {S A} (e : err) : ST S A := fun s => (Err e, s).
Definition bind {S A B} (m : ST S A) (f : A -> ST S B) : ST S B :=
  fun s => match m s with
           | (Ok a, s') => f a s'
           | (Err e, s') => (Err e, s')
           end.

(** [x, err := m]: the error becomes a value that the caller inspects. *)
Definition attempt {S A} (m : ST S A) : ST S (result A) :=
  fun s => match m s with (r, s') => (Ok r, s') end.

(** [_ = m]: the error is discarded. *)
Definition ignore {S A} (m : ST S A) : ST S unit :=
  fun s => match m s with (_, s') => (Ok tt, s') end.

(** [fmt.Errorf("msg: %w", err)] around the error of [m]. *)
Definition wrap {S A} (msg : string) (m : ST S A) : ST S A :=
  fun s => match m s with
           | (Err e, s') => (Err (EWrap msg e), s')
           | r => r
           end.

Definition gets {S A} (f : S -> A) : ST S A := fun s => (Ok (f s), s).
Definition modify {S} (f : S -> S) : ST S unit := fun s => (Ok tt, f s).

Notation "'let!' x ':=' m 'in' k" := (bind m (fun x => k))
  (at level 10, x binder, m at level 100, k at level 200,
   format "'[hv' 'let!'  x  ':='  m  'in' '//' k ']'") : go_scope.
Notation "m ;;; k" := (bind m (fun _ => k))
  (at level 100, k at level 200, right associativity) : go_scope.
Open Scope go_scope.

(** [for _, x := range l { body }] where the body cannot return early. *)
Fixpoint for_each {S A} (f : A -> ST S unit) (l : list A) : ST S unit :=
  match l with
  | [] => ret tt
  | x :: l' => f x ;;; for_each f l'
  end.

(** Rewriting rules of the monad, collected in a database so that proofs
    about handlers start by unfolding the plumbing. *)
Create HintDb go_monad.
#[export] Hint Unfold bind ret fail attempt ignore wrap gets modify : go_monad.

Lemma bind_ok {S A B} (m : ST S A) (f : A -> ST S B) s a s' :
  m s = (Ok a, s') -> bind m f s = f a s'.
Proof. intros H. unfold bind. by rewrite H. Qed.

Lemma attempt_eq {S A} (m : ST S A) s r s' : m s = (r, s') -> attempt m s = (Ok r, s').
Proof. intros H. unfold attempt. by rewrite H. Qed.

Lemma bind_err {S A B} (m : ST S A) (f : A -> ST S B) s e s' :
  m s = (Err e, s') -> bind m f s = (Err e, s').
Proof. intros H. unfold bind. by rewrite H. Qed.

Lemma bind_bind {S A B C} (m : ST S A) (f : A -> ST S B) (g : B -> ST S C) s :
  bind (bind m f) g s = bind m (fun a => bind (f a) g) s.
Proof. unfold bind. by destruct (m s) as [[] ?]. Qed.

(** [m] keeps the relation [R] between the states before and after it,
    whatever its result. *)
Definition preserves {S A} (R : S -> S -> Prop) (m : ST S A) : Prop :=
  forall s, R s (m s).2.

Section preserves.
Context {S : Type} (R : S -> S -> Prop) `{!PreOrder R}.

Lemma preserves_ret {A} (a : A) : preserves R (ret a).
Proof. intros s. reflexivity. Qed.
Lemma preserves_fail {A} e : preserves R (@fail S A e).
Proof. intros s. reflexivity. Qed.
Lemma preserves_gets {A} (f : S -> A) : preserves R (gets f).
Proof. intros s. reflexivity. Qed.

Lemma preserves_bind {A B} (m : ST S A) (f : A -> ST S B) :
    preserves R m -> (forall a, preserves R (f a)) -> preserves R (bind m f).
Proof.
    intros Hm Hf s. specialize (Hm s). unfold bind.
    destruct (m s) as [[a|e] s'] eqn:E; simpl in *; [|done].
    etrans; [exact Hm | apply Hf].
Qed.

Lemma preserves_attempt {A} (m : ST S A) :
    preserves R m -> preserves R (attempt m).
Proof. intros Hm s. specialize (Hm s). unfold attempt. by destruct (m s). Qed.
Lemma preserves_ignore {A} (m : ST S A) :
    preserves R m -> preserves R (ignore m).
Proof. intros Hm s. specialize (Hm s). unfold ignore. by destruct (m s). Qed.
Lemma preserves_wrap {A} msg (m : ST S A) :
    preserves R m -> preserves R (wrap msg m).
Proof.
    intros Hm s. specialize (Hm s). unfold wrap. by destruct (m s) as [[] ?].
Qed.
Lemma preserves_for_each {A} (f : A -> ST S unit) l :
    (forall a, a ∈ l -> preserves R (f a)) -> preserves R (for_each f l).
Proof.
    induction l as [|x l IH]; intros Hf; simpl; [apply preserves_ret|].
    apply preserves_bind; [apply Hf; set_solver|].
    intros _. apply IH. set_solver.
Qed.
End preserves.

Create HintDb preserves.
Arguments preserves_ret {S R _ A} a.
Arguments preserves_fail {S R _ A} e.
Arguments preserves_gets {S R _ A} f.
#[export] Hint Resolve preserves_ret preserves_fail preserves_gets
  preserves_bind preserves_attempt preserves_ignore preserves_wrap
  preserves_for_each : preserves.

(** [post m s Q]: run from [s], [m] ends with a result and a state in [Q]. *)
Definition post {S A} (m : ST S A) (s : S) (Q : result A -> S -> Prop) : Prop :=
  Q (m s).1 (m s).2.

Section post.
Context {S : Type}.

Lemma post_bind {A B} (m : ST S A) (f : A -> ST S B) s Q :
  post m s (fun r s' => match r with Ok a => post (f a) s' Q | Err e => Q (Err e) s' end) ->
  post (bind m f) s Q.
Proof. unfold post, bind. by destruct (m s) as [[a|e] s']. Qed.

Lemma post_attempt {A} (m : ST S A) s Q :
  post m s (fun r s' => Q (Ok r) s') -> post (attempt m) s Q.
Proof. unfold post, attempt. by destruct (m s). Qed.

Lemma post_ignore {A} (m : ST S A) s Q :
  post m s (fun _ s' => Q (Ok tt) s') -> post (ignore m) s Q.
Proof. unfold post, ignore. by destruct (m s). Qed.

Lemma returns_bind {A B} (m : ST S A) (f : A -> ST S B) (P : B -> Prop) :
  (forall a s b s', f a s = (Ok b, s') -> P b) -> forall s b s', bind m f s = (Ok b, s') -> P b.
Proof. intros Hf s b s'. unfold bind. destruct (m s) as [[a|e] s1]; [apply Hf|done]. Qed.

Lemma post_mono {A} (m : ST S A) s (Q Q' : result A -> S -> Prop) :
  post m s Q -> (forall r s', Q r s' -> Q' r s') -> post m s Q'.
Proof. intros Hm HQ. by apply HQ. Qed.
End post.

(** ** Time

    [time.Time] is a count of nanoseconds since the Unix epoch; [Unix()]
    truncates it to whole seconds, rounding down. *)
Abbreviation time := Z (only parsing).
Definition nanosPerSecond : Z := 1000000000.
Definition Unix (t : time) : Z := (t / nanosPerSecond)%Z.
Definition time_Unix (sec : Z) : time := (sec * nanosPerSecond)%Z.
(** [time.Time{}] is January 1 of year 1. *)
Definition time_Zero : time := time_Unix (-62135596800).

Lemma Unix_time_Unix s : Unix (time_Unix s) = s.
Proof. unfold Unix, time_Unix, nanosPerSecond. apply Z.div_mul. lia. Qed.

Lemma Unix_mono t1 t2 : (t1 <= t2)%Z -> (Unix t1 <= Unix t2)%Z.
Proof. intros. apply Z.div_le_mono; [done|unfold nanosPerSecond; lia]. Qed.

(** ** Ordered reads

    [ORDER BY key] fixes the order of rows with distinct keys only; the order
    of ties is the engine's choice. The class states what SQL documents. *)
Class OrderBy : Type := {
  order_by : forall {A : Type}, (A -> Z) -> list A -> list A;
  order_by_perm : forall A (key : A -> Z) l, Permutation (order_by key l) l;
  order_by_sorted : forall A (key : A -> Z) l,
    StronglySorted (fun x y => (key x <= key y)%Z) (order_by key l) }.

Section insertion.
Context {A : Type} (key : A -> Z).
Fixpoint insert_by (x : A) (l : list A) : list A :=
    match l with
    | [] => [x]
    | y :: l' => if (key x <=? key y)%Z then x :: l else y :: insert_by x l'
    end.
Definition sort_by (l : list A) : list A := foldr insert_by [] l.

Lemma insert_by_perm x l : Permutation (insert_by x l) (x :: l).
Proof.
    induction l as [|y l IH]; simpl; [done|].
    destruct (Z.leb_spec (key x) (key y)); [done|]. rewrite IH. constructor.
Qed.
Lemma sort_by_perm l : Permutation (sort_by l) l.
Proof. induction l as [|x l IH]; simpl; [done|]. by rewrite insert_by_perm, IH. Qed.

Lemma insert_by_sorted x l :
    StronglySorted (fun x y => (key x <= key y)%Z) l ->
    StronglySorted (fun x y => (key x <= key y)%Z) (insert_by x l).
Proof.
    induction 1 as [|y l Hs IH Hall]; simpl; [repeat constructor|].
    destruct (Z.leb_spec (key x) (key y)) as [Hle|Hgt].
    - constructor; [by constructor|]. constructor; [done|].
      eapply Forall_impl; [exact Hall|]. simpl. lia.
    - constructor; [done|]. rewrite insert_by_perm. constructor; [lia|done].
Qed.
Lemma sort_by_sorted l :
    StronglySorted (fun x y => (key x <= key y)%Z) (sort_by l).
Proof. induction l; simpl; [constructor|by apply insert_by_sorted]. Qed.
End insertion.

(** The instance the witnesses compute with: a stable insertion sort. *)
Definition stable_order : OrderBy := {|
  order_by := @sort_by;
  order_by_perm := @sort_by_perm;
  order_by_sorted := @sort_by_sorted |}.

(** ** Generic list facts *)
Lemma fmap_mjoin {A B} (f : A -> B) (ls : list (list A)) :
  f <$> mjoin ls = mjoin (fmap f <$> ls).
Proof.
  induction ls as [|l ls IH]; simpl; [done|]. by rewrite fmap_app, IH.
Qed.

Lemma elem_of_order_by `{!OrderBy} {A} (key : A -> Z) x l :
  x ∈ order_by key l <-> x ∈ l.
Proof. by rewrite order_by_perm. Qed.

Lemma head_order_by_min `{!OrderBy} {A} (key : A -> Z) l x :
  head (order_by key l) = Some x ->
  x ∈ l /\ forall y, y ∈ l -> (key x <= key y)%Z.
Proof.
  intros Hh. pose proof (order_by_sorted A key l) as Hs.
  destruct (order_by key l) as [|z zs] eqn:E; simplify_eq/=.
  split; [rewrite <- (elem_of_order_by key), E; set_solver|].
  intros y Hy. rewrite <- (elem_of_order_by key), E in Hy.
  apply StronglySorted_inv in Hs as [_ Hall].
  apply elem_of_cons in Hy as [->|Hy]; [lia|].
  by eapply Forall_forall in Hall.
Qed.

Lemma head_order_by_None `{!OrderBy} {A} (key : A -> Z) l :
  head (order_by key l) = None <-> l = [].
Proof.
  pose proof (order_by_perm A key l) as Hp.
  destruct (order_by key l) eqn:E; simpl.
  - split; [|done]. by apply Permutation_nil in Hp.
  - split; [done|]. intros ->. by apply Permutation_sym, Permutation_nil in Hp.
Qed.

Lemma length_order_by `{!OrderBy} {A} (key : A -> Z) l :
  length (order_by key l) = length l.
Proof. by rewrite order_by_perm. Qed.

Lemma NoDup_order_by `{!OrderBy} {A} (key : A -> Z) l :
  NoDup l -> NoDup (order_by key l).
Proof. by rewrite order_by_perm. Qed.

(** [for k, v := range m] over a map visits every entry once, in an order the
    language leaves open. *)
Class MapOrder : Type := {
  map_range : forall {A : Type}, gmap string A -> list (string * A);
  map_range_perm : forall A (m : gmap string A), Permutation (map_range m) (map_to_list m) }.

Definition some_map_order : MapOrder := {|
  map_range := fun A m => map_to_list m; map_range_perm := fun A m => reflexivity _ |}.

(** [support.UniqueID] wraps a random generator (gonanoid): the only fact the
    program relies on is that it never repeats. [uid n] is its [n]-th answer. *)
Class UniqueIDs : Type := {
  uid : nat -> string;
  uid_inj : Inj (=) (=) uid }.
#[export] Existing Instance uid_inj.

Definition counter_ids : UniqueIDs := {| uid := pretty; uid_inj := _ |}.
