(* ===== verification/Storage.v ===== *)
(** * The storage data model (storage/storage.go, storage/sqlite/schema.sql)

    The API types of [storage.go], one module per struct, and the rows of the
    SQLite tables with their conversion [toStorage]. A Go string that the code
    compares with "" stays a [string]; a pointer is an [option]; a slice whose
    nil-ness the code never tests separately from its length is a [list]. *)
From S2P Require Import Prelude.

(** ** Enumerations *)

Inductive RunStatus : Type :=
  | RunStatusQueued | RunStatusRunning | RunStatusSuccess | RunStatusFailed
  | RunStatusSkipped.
#[export] Instance RunStatus_eq_dec : EqDecision RunStatus.
Proof. solve_decision. Defined.

Definition RunStatus_string (s : RunStatus) : string :=
  match s with
  | RunStatusQueued => "queued" | RunStatusRunning => "running"
  | RunStatusSuccess => "success" | RunStatusFailed => "failed"
  | RunStatusSkipped => "skipped"
  end.

Definition IsTerminal (s : RunStatus) : bool :=
  bool_decide (s = RunStatusSuccess) || bool_decide (s = RunStatusFailed)
  || bool_decide (s = RunStatusSkipped).

(** [status IN ('queued', 'running')] *)
Definition IsActive (s : RunStatus) : bool :=
  bool_decide (s = RunStatusQueued) || bool_decide (s = RunStatusRunning).

(** [TriggerTypeSeed] is the literal "seed" of the seed-passed endpoint. *)
Inductive TriggerType : Type :=
  | TriggerTypeManual | TriggerTypeWebhook | TriggerTypeCLI | TriggerTypeResume
  | TriggerTypeSchedule | TriggerTypePassed | TriggerTypeOther (s : string).
#[export] Instance TriggerType_eq_dec : EqDecision TriggerType.
Proof. solve_decision. Defined.

Definition TriggerType_string (t : TriggerType) : string :=
  match t with
  | TriggerTypeManual => "manual" | TriggerTypeWebhook => "webhook"
  | TriggerTypeCLI => "cli" | TriggerTypeResume => "resume"
  | TriggerTypeSchedule => "schedule" | TriggerTypePassed => "passed"
  | TriggerTypeOther s => s
  end.

Inductive ScheduleType : Type :=
  | ScheduleTypeCron | ScheduleTypeInterval | ScheduleTypeOther (s : string).
#[export] Instance ScheduleType_eq_dec : EqDecision ScheduleType.
Proof. solve_decision. Defined.

Inductive GateStatus : Type :=
  | GateStatusPending | GateStatusApproved | GateStatusRejected
  | GateStatusTimedOut.
#[export] Instance GateStatus_eq_dec : EqDecision GateStatus.
Proof. solve_decision. Defined.

(** ConcurrencyMode and ContentType are plain strings in the source, and the
    code has a default branch for the values it does not know. *)
Definition ConcurrencyModeNone : string := "".
Definition ConcurrencyModeSerial : string := "serial".
Definition ConcurrencyModeGroup : string := "group".
Definition ConcurrencyModeSkipIfRunning : string := "skip-if-running".
Definition ContentTypeYAML : string := "yaml".
Definition ContentTypeTypeScript : string := "ts".
Definition ContentTypeJavaScript : string := "js".

(** ** API structs *)

Module Pipeline.
Record t := mk {
    ID : string; Name : string; Content : string; ContentType : string;
    Driver : string; ResumeEnabled : bool; Paused : bool;
    RBACExpression : string; ConcurrencyMode : string;
    ConcurrencyGroupTemplate : string; ConcurrencyCancelRunning : bool;
    CreatedAt : time; UpdatedAt : time }.
End Pipeline.

Module PipelineUpdate.
Record t := mk {
    ResumeEnabled : option bool; Paused : option bool;
    RBACExpression : option string; ConcurrencyMode : option string;
    ConcurrencyGroupTemplate : option string;
    ConcurrencyCancelRunning : option bool }.
End PipelineUpdate.

Module TriggerWebhookInput.
Record t := mk {
    Provider : string; EventType : string; Method : string; URL : string;
    Headers : gmap string string; Body : string; Query : gmap string string }.
End TriggerWebhookInput.

Module TriggerInput.
Record t := mk {
    Args : list string; Webhook : option TriggerWebhookInput.t;
    Jobs : list string; UpstreamRunIDs : list string }.
Definition empty : t := mk [] None [] [].
End TriggerInput.

Module Gate.
Record t := mk {
    ID : string; RunID : string; PipelineID : string; Name : string;
    Status : GateStatus; Message : string; ApprovedBy : string;
    CreatedAt : time; ResolvedAt : option time }.
End Gate.

Module Schedule.
Record t := mk {
    ID : string; PipelineID : string; Name : string;
    Type_ : ScheduleType; Expr : string; JobName : string; Enabled : bool;
    LastRunAt : option time; NextRunAt : option time;
    CreatedAt : time; UpdatedAt : time }.
End Schedule.

Module PipelineRun.
Record t := mk {
    ID : string; PipelineID : string; Status : RunStatus;
    Trigger : TriggerType; TriggeredBy : string; Input : TriggerInput.t;
    ConcurrencyGroup : string; StartedAt : option time;
    CompletedAt : option time; ErrorMessage : string; CreatedAt : time }.
End PipelineRun.

Module AgentMemory.
Record t := mk {
    ID : Z; PipelineID : string; AgentName : string; ContentHash : string;
    Tags : list string; Content : string; RecallCount : Z;
    CreatedAt : time; LastRecalled : option time }.
End AgentMemory.

Module PaginationResult.
Record t (T : Type) := mk {
    Items : list T; Page : Z; PerPage : Z; TotalItems : Z; TotalPages : Z;
    HasNext : bool }.
End PaginationResult.
Arguments PaginationResult.mk {T}.
Arguments PaginationResult.Items {T}.
Arguments PaginationResult.Page {T}.
Arguments PaginationResult.PerPage {T}.
Arguments PaginationResult.TotalItems {T}.
Arguments PaginationResult.TotalPages {T}.
Arguments PaginationResult.HasNext {T}.

(** ** Rows: the [db]-tagged scan structs

    Timestamps are integer seconds, booleans are 0/1, a nullable column is an
    [option]. The [trigger_input] column holds the JSON text of the struct,
    which [json.Unmarshal] reads back unchanged; the rows keep the struct. *)

Module pipelineScan.
Record t := mk {
    ID : string; Name : string; Content : string; ContentType : string;
    Driver : string; ResumeEnabled : Z; Paused : Z; RBACExpression : string;
    ConcurrencyMode : string; ConcurrencyGroupTemplate : string;
    ConcurrencyCancelRunning : Z; CreatedAt : Z; UpdatedAt : Z }.
Definition toStorage (p : t) : Pipeline.t := {|
    Pipeline.ID := ID p; Pipeline.Name := Name p;
    Pipeline.Content := Content p; Pipeline.ContentType := ContentType p;
    Pipeline.Driver := Driver p;
    Pipeline.ResumeEnabled := negb (ResumeEnabled p =? 0)%Z;
    Pipeline.Paused := negb (Paused p =? 0)%Z;
    Pipeline.RBACExpression := RBACExpression p;
    Pipeline.ConcurrencyMode := ConcurrencyMode p;
    Pipeline.ConcurrencyGroupTemplate := ConcurrencyGroupTemplate p;
    Pipeline.ConcurrencyCancelRunning :=
      negb (ConcurrencyCancelRunning p =? 0)%Z;
    Pipeline.CreatedAt := time_Unix (CreatedAt p);
    Pipeline.UpdatedAt := time_Unix (UpdatedAt p) |}.
End pipelineScan.

Module pipelineRunScan.
Record t := mk {
    ID : string; PipelineID : string; Status : RunStatus;
    StartedAt : option Z; CompletedAt : option Z;
    ErrorMessage : option string; Trigger : TriggerType; TriggeredBy : string;
    Input : TriggerInput.t; ConcurrencyGroup : string; CreatedAt : Z }.
Definition toStorage (p : t) : PipelineRun.t := {|
    PipelineRun.ID := ID p; PipelineRun.PipelineID := PipelineID p;
    PipelineRun.Status := Status p; PipelineRun.Trigger := Trigger p;
    PipelineRun.TriggeredBy := TriggeredBy p; PipelineRun.Input := Input p;
    PipelineRun.ConcurrencyGroup := ConcurrencyGroup p;
    PipelineRun.StartedAt := time_Unix <$> StartedAt p;
    PipelineRun.CompletedAt := time_Unix <$> CompletedAt p;
    PipelineRun.ErrorMessage := default "" (ErrorMessage p);
    PipelineRun.CreatedAt := time_Unix (CreatedAt p) |}.
End pipelineRunScan.

Module gateScan.
Record t := mk {
    ID : string; RunID : string; PipelineID : string; Name : string;
    Status : GateStatus; Message : string; ApprovedBy : string;
    CreatedAt : Z; ResolvedAt : option Z }.
Definition toStorage (g : t) : Gate.t := {|
    Gate.ID := ID g; Gate.RunID := RunID g; Gate.PipelineID := PipelineID g;
    Gate.Name := Name g; Gate.Status := Status g; Gate.Message := Message g;
    Gate.ApprovedBy := ApprovedBy g; Gate.CreatedAt := time_Unix (CreatedAt g);
    Gate.ResolvedAt := time_Unix <$> ResolvedAt g |}.
End gateScan.

Module scheduleScan.
Record t := mk {
    ID : string; PipelineID : string; Name : string;
    Type_ : ScheduleType; Expr : string; JobName : string; Enabled : Z;
    LastRunAt : option Z; NextRunAt : option Z; CreatedAt : Z; UpdatedAt : Z }.
Definition toStorage (s : t) : Schedule.t := {|
    Schedule.ID := ID s; Schedule.PipelineID := PipelineID s;
    Schedule.Name := Name s; Schedule.Type_ := Type_ s;
    Schedule.Expr := Expr s; Schedule.JobName := JobName s;
    Schedule.Enabled := negb (Enabled s =? 0)%Z;
    Schedule.LastRunAt := time_Unix <$> LastRunAt s;
    Schedule.NextRunAt := time_Unix <$> NextRunAt s;
    Schedule.CreatedAt := time_Unix (CreatedAt s);
    Schedule.UpdatedAt := time_Unix (UpdatedAt s) |}.
End scheduleScan.

Definition boolToInt (b : bool) : Z := if b then 1%Z else 0%Z.

Lemma boolToInt_neq0 b : negb (boolToInt b =? 0)%Z = b.
Proof. by destruct b. Qed.
