(* ===== verification/Json.v ===== *)
(** * JSON payloads

    The [tasks] table stores a JSON object per path. The model keeps the value
    itself: [json_extract] reads a top-level field and [jsonb_patch] is the
    merge patch of RFC 7396, the two functions the SQL of
    storage/sqlite/tasks.go calls. *)
From S2P Require Import Prelude.

Inductive json : Type :=
  | JNull
  | JBool (b : bool)
  | JNum (n : Z)
  | JStr (s : string)
  | JArr (l : list json)
  | JObj (fs : list (string * json)).

(** Keys are unique in the objects that [json.Marshal] writes, and [set_field]
    keeps them unique. *)
Fixpoint get_field (k : string) (fs : list (string * json)) : option json :=
  match fs with
  | [] => None
  | (k', v) :: fs' => if decide (k = k') then Some v else get_field k fs'
  end.

Fixpoint set_field (k : string) (v : json) (fs : list (string * json))
    : list (string * json) :=
  match fs with
  | [] => [(k, v)]
  | (k', v') :: fs' =>
      if decide (k = k') then (k, v) :: fs' else (k', v') :: set_field k v fs'
  end.

Fixpoint del_field (k : string) (fs : list (string * json))
    : list (string * json) :=
  match fs with
  | [] => []
  | (k', v') :: fs' =>
      if decide (k = k') then del_field k fs' else (k', v') :: del_field k fs'
  end.

Definition fields (j : json) : list (string * json) :=
  match j with JObj fs => fs | _ => [] end.

(** [json_extract(j, '$.k')] as a SQL value: JSON null is SQL NULL. *)
Definition json_extract (k : string) (j : json) : option json :=
  match get_field k (fields j) with
  | Some JNull => None
  | r => r
  end.

(** [jsonb_patch(target, patch)]: fields of the patch replace or extend those
    of the target, a null removes, nested objects merge. *)
Fixpoint jsonb_patch (target patch : json) {struct patch} : json :=
  match patch with
  | JObj ps =>
      JObj ((fix go (ps : list (string * json)) (acc : list (string * json)) :=
               match ps with
               | [] => acc
               | (k, v) :: ps' =>
                   go ps'
                     match v with
                     | JNull => del_field k acc
                     | _ => set_field k (jsonb_patch
                               (default JNull (get_field k acc)) v) acc
                     end
               end) ps (fields target))
  | _ => patch
  end.

Lemma get_set_field_eq k v fs : get_field k (set_field k v fs) = Some v.
Proof.
  induction fs as [|[k' v'] fs IH]; simpl; [by case_decide|].
  repeat (case_decide; simpl; try congruence).
Qed.

Lemma get_set_field_ne k k' v fs :
  k <> k' -> get_field k (set_field k' v fs) = get_field k fs.
Proof.
  intros Hne. induction fs as [|[k2 v2] fs IH]; simpl.
  - by case_decide.
  - repeat (case_decide; simpl; try congruence).
Qed.

(** Setting one string field by a patch leaves the other fields alone. *)
Lemma get_patch_status k s j :
  k <> "status" ->
  get_field k (fields (jsonb_patch j (JObj [("status", JStr s)]))) =
  get_field k (fields j).
Proof. intros Hk. simpl. by apply get_set_field_ne. Qed.

Lemma extract_patch_status s j :
  json_extract "status" (jsonb_patch j (JObj [("status", JStr s)])) = Some (JStr s).
Proof. unfold json_extract. simpl. by rewrite get_set_field_eq. Qed.

Lemma get_del_field_eq k fs : get_field k (del_field k fs) = None.
Proof.
  induction fs as [|[k' v'] fs IH]; simpl; [done|].
  case_decide; simpl; [done|]. by rewrite decide_False.
Qed.

Lemma get_del_field_ne k k' fs :
  k <> k' -> get_field k (del_field k' fs) = get_field k fs.
Proof.
  intros Hne. induction fs as [|[k2 v2] fs IH]; simpl; [done|].
  repeat (case_decide; simpl; try congruence).
Qed.

(** The merge of an object, field by field. *)
Definition patch_value (acc : option json) (v : json) : option json :=
  match v with
  | JNull => None
  | _ => Some (jsonb_patch (default JNull acc) v)
  end.

Fixpoint patch_fields (ps acc : list (string * json)) : list (string * json) :=
  match ps with
  | [] => acc
  | (k, v) :: ps' =>
      patch_fields ps'
        match patch_value (get_field k acc) v with
        | None => del_field k acc
        | Some v' => set_field k v' acc
        end
  end.

Lemma jsonb_patch_obj target ps :
  jsonb_patch target (JObj ps) = JObj (patch_fields ps (fields target)).
Proof.
  simpl. f_equal. generalize (fields target). clear target.
  induction ps as [|[k v] ps IH]; intros acc; simpl; [done|].
  rewrite <- IH. by destruct v.
Qed.

Lemma get_patch_fields k ps acc :
  NoDup ps.*1 ->
  get_field k (patch_fields ps acc) =
    match get_field k ps with
    | None => get_field k acc
    | Some v => patch_value (get_field k acc) v
    end.
Proof.
  revert acc. induction ps as [|[k' v'] ps IH]; intros acc Hnd; simpl; [done|].
  apply NoDup_cons in Hnd as [Hni Hnd]. rewrite IH by done. simpl in Hni.
  assert (Hnone : get_field k' ps = None).
  { clear -Hni. induction ps as [|[k2 v2] ps IH]; simpl; [done|].
    simpl in Hni. apply not_elem_of_cons in Hni as [? ?].
    rewrite decide_False by done. by apply IH. }
  case_decide as Hk.
  - subst k'. rewrite Hnone.
    destruct (patch_value (get_field k acc) v');
      [apply get_set_field_eq|apply get_del_field_eq].
  - assert (Hsame : get_field k match patch_value (get_field k' acc) v' with
        | None => del_field k' acc | Some w => set_field k' w acc end
        = get_field k acc).
    { destruct (patch_value (get_field k' acc) v');
        [by apply get_set_field_ne|by apply get_del_field_ne]. }
    by rewrite Hsame.
Qed.

(** A patch that changes nothing. *)
Lemma set_field_same k v fs : get_field k fs = Some v -> set_field k v fs = fs.
Proof.
  induction fs as [|[k' v'] fs IH]; simpl; [done|].
  case_decide; intros Hk; [congruence|by rewrite IH].
Qed.

Lemma get_field_elem k v fs : NoDup fs.*1 -> (k, v) ∈ fs -> get_field k fs = Some v.
Proof.
  induction fs as [|[k' v'] fs IH]; intros Hnd; [by intros ?%elem_of_nil|].
  apply NoDup_cons in Hnd as [Hni Hnd]. simpl in Hni.
  intros [Heq|Hin]%elem_of_cons; simpl; [simplify_eq; by rewrite decide_True|].
  rewrite decide_False; [by apply IH|]. intros ->.
  apply Hni, list_elem_of_fmap. by exists (k', v).
Qed.

Lemma get_field_not_in k fs : k ∉ fs.*1 -> get_field k fs = None.
Proof.
  induction fs as [|[k' v'] fs IH]; simpl; [done|]. intros [Hne Hni]%not_elem_of_cons.
  rewrite decide_False by done. by apply IH.
Qed.

Lemma get_field_in k v fs : get_field k fs = Some v -> (k, v) ∈ fs.
Proof.
  induction fs as [|[k' v'] fs IH]; simpl; [done|].
  case_decide; [intros [= ->]; subst; left|intros Hk; right; by apply IH].
Qed.

(** Keys stay unique. *)
Lemma keys_set_field k v fs k' : k' ∈ (set_field k v fs).*1 <-> k' = k \/ k' ∈ fs.*1.
Proof.
  induction fs as [|[k2 v2] fs IH]; simpl; [set_solver|].
  case_decide; simpl; rewrite !elem_of_cons; [subst; set_solver|]. rewrite IH. set_solver.
Qed.

Lemma NoDup_set_field k v fs : NoDup fs.*1 -> NoDup (set_field k v fs).*1.
Proof.
  induction fs as [|[k2 v2] fs IH]; simpl; [by constructor; [set_solver|constructor]|].
  intros [Hni Hnd]%NoDup_cons. case_decide; simpl; constructor; [by subst|done| |by apply IH].
  rewrite keys_set_field. set_solver.
Qed.

Lemma keys_del_field k fs k' : k' ∈ (del_field k fs).*1 -> k' ∈ fs.*1.
Proof.
  induction fs as [|[k2 v2] fs IH]; simpl; [done|].
  case_decide; simpl; rewrite ?elem_of_cons; [by right; apply IH|]. intros [?|?]; [by left|right; by apply IH].
Qed.

Lemma NoDup_del_field k fs : NoDup fs.*1 -> NoDup (del_field k fs).*1.
Proof.
  induction fs as [|[k2 v2] fs IH]; simpl; [done|].
  intros [Hni Hnd]%NoDup_cons. case_decide; simpl; [by apply IH|].
  constructor; [by intros ?%keys_del_field|by apply IH].
Qed.

Lemma NoDup_patch_fields ps : forall acc, NoDup acc.*1 -> NoDup (patch_fields ps acc).*1.
Proof.
  induction ps as [|[k v] ps IH]; intros acc Hnd; simpl; [done|]. apply IH.
  case_match; [by apply NoDup_set_field|by apply NoDup_del_field].
Qed.
