(* ===== verification/Db.v ===== *)
(** * The database (storage/sqlite/driver.go, schema.sql)

    One record per database: a finite map per table, keyed by the primary key
    (or the unique key), with the cascades and triggers of [schema.sql] on
    deletion. The full-text indexes mirror the tables and answer only the
    search endpoints; they are not part of the state.

    Every SQL statement may fail for a reason outside the program (disk,
    timeout, closed connection). [db_faults] is the oracle of these failures:
    each statement consumes one entry, [true] makes it fail without effect and
    an empty list means that no further statement fails. *)
From S2P Require Import Prelude Storage Json.

Module taskRow.
  (** [run_id] is kept beside the path for the delete trigger. The promoted
      columns are TEXT, [None] is NULL. *)
Record t := mk {
    ID : Z; run_id : option string; status : option string;
    started_at : option string; elapsed : option string;
    error_message : option string; error_type : option string;
    payload : json }.
End taskRow.

Module memoryRow.
Record t := mk {
    ID : Z; Tags : list string; Content : string; RecallCount : Z;
    CreatedAt : Z; LastRecalled : option Z }.
End memoryRow.

Record db : Type := mkDb {
  db_pipelines : gmap string pipelineScan.t;
  db_runs : gmap string pipelineRunScan.t;
  db_gates : gmap string gateScan.t;
  db_schedules : gmap string scheduleScan.t;
  db_dedup : gmap (string * string) Z;        (* (pipeline_id, key_hash) *)
  db_tasks : gmap string taskRow.t;           (* by path *)
  db_tasks_seq : Z;                           (* AUTOINCREMENT *)
  db_memories : gmap (string * string * string) memoryRow.t;
  db_memories_seq : Z;
  db_now : time;                              (* the wall clock *)
  db_uids : nat;                              (* ids drawn so far *)
  db_faults : list bool }.

Definition empty_db : db := mkDb ∅ ∅ ∅ ∅ ∅ ∅ 0 ∅ 0 0 0 [].

Definition set_pipelines f d := mkDb (f (db_pipelines d)) (db_runs d)
  (db_gates d) (db_schedules d) (db_dedup d) (db_tasks d) (db_tasks_seq d)
  (db_memories d) (db_memories_seq d) (db_now d) (db_uids d) (db_faults d).
Definition set_runs f d := mkDb (db_pipelines d) (f (db_runs d))
  (db_gates d) (db_schedules d) (db_dedup d) (db_tasks d) (db_tasks_seq d)
  (db_memories d) (db_memories_seq d) (db_now d) (db_uids d) (db_faults d).
Definition set_gates f d := mkDb (db_pipelines d) (db_runs d)
  (f (db_gates d)) (db_schedules d) (db_dedup d) (db_tasks d) (db_tasks_seq d)
  (db_memories d) (db_memories_seq d) (db_now d) (db_uids d) (db_faults d).
Definition set_schedules f d := mkDb (db_pipelines d) (db_runs d)
  (db_gates d) (f (db_schedules d)) (db_dedup d) (db_tasks d) (db_tasks_seq d)
  (db_memories d) (db_memories_seq d) (db_now d) (db_uids d) (db_faults d).
Definition set_dedup f d := mkDb (db_pipelines d) (db_runs d)
  (db_gates d) (db_schedules d) (f (db_dedup d)) (db_tasks d) (db_tasks_seq d)
  (db_memories d) (db_memories_seq d) (db_now d) (db_uids d) (db_faults d).
Definition set_tasks f d := mkDb (db_pipelines d) (db_runs d)
  (db_gates d) (db_schedules d) (db_dedup d) (f (db_tasks d)) (db_tasks_seq d)
  (db_memories d) (db_memories_seq d) (db_now d) (db_uids d) (db_faults d).
Definition set_tasks_seq n d := mkDb (db_pipelines d) (db_runs d)
  (db_gates d) (db_schedules d) (db_dedup d) (db_tasks d) n
  (db_memories d) (db_memories_seq d) (db_now d) (db_uids d) (db_faults d).
Definition set_memories f d := mkDb (db_pipelines d) (db_runs d)
  (db_gates d) (db_schedules d) (db_dedup d) (db_tasks d) (db_tasks_seq d)
  (f (db_memories d)) (db_memories_seq d) (db_now d) (db_uids d) (db_faults d).
Definition set_memories_seq n d := mkDb (db_pipelines d) (db_runs d)
  (db_gates d) (db_schedules d) (db_dedup d) (db_tasks d) (db_tasks_seq d)
  (db_memories d) n (db_now d) (db_uids d) (db_faults d).
Definition set_now t d := mkDb (db_pipelines d) (db_runs d)
  (db_gates d) (db_schedules d) (db_dedup d) (db_tasks d) (db_tasks_seq d)
  (db_memories d) (db_memories_seq d) t (db_uids d) (db_faults d).
Definition set_uids n d := mkDb (db_pipelines d) (db_runs d)
  (db_gates d) (db_schedules d) (db_dedup d) (db_tasks d) (db_tasks_seq d)
  (db_memories d) (db_memories_seq d) (db_now d) n (db_faults d).
Definition set_faults fs d := mkDb (db_pipelines d) (db_runs d)
  (db_gates d) (db_schedules d) (db_dedup d) (db_tasks d) (db_tasks_seq d)
  (db_memories d) (db_memories_seq d) (db_now d) (db_uids d) fs.

(** ** Statements *)

(** Run one SQL statement: consume an oracle entry, fail or run. *)
Definition exec {A} (f : ST db A) : ST db A := fun d =>
  match db_faults d with
  | true :: fs => (Err (ESentinel SSqlite), set_faults fs d)
  | false :: fs => f (set_faults fs d)
  | [] => f d
  end.

(** A read: the statement changes nothing. *)
Definition query {A} (f : db -> A) : ST db A := exec (gets f).
(** A write that always succeeds. *)
Definition update (f : db -> db) : ST db unit := exec (modify f).

(** Calls under a context: when it is cancelled, the first statement fails. *)
Definition with_ctx {A} (cancelled : bool) (m : ST db A) : ST db A := fun d =>
  if cancelled then
    let '(a, d') := m (set_faults (true :: db_faults d) d) in (a, set_faults (db_faults d) d')
  else m d.

Definition time_Now : ST db time := gets db_now.

(** support.UniqueID *)
Definition UniqueID `{!UniqueIDs} : ST db string := fun d =>
  (Ok (uid (db_uids d)), set_uids (S (db_uids d)) d).

(** ** Deletion with its cascades

    A run takes its gates (foreign key) and its task rows (trigger
    [pipeline_runs_tasks_delete]) with it; a pipeline takes its runs,
    schedules, gates, memories and dedup keys. *)
Definition delete_runs (P : pipelineRunScan.t -> bool) (d : db) : db :=
  let gone id := match db_runs d !! id with
                 | Some r => P r | None => false end in
  let d1 := set_runs (filter (fun '(_, r) => P r = false)) d in
  let d2 := set_gates (filter (fun '(_, g) => gone (gateScan.RunID g) = false)) d1 in
  set_tasks (filter (fun '(_, t) =>
    match taskRow.run_id t with Some id => gone id | None => false end = false)) d2.

Definition delete_pipeline (id : string) (d : db) : db :=
  let d1 := delete_runs (fun r => bool_decide (pipelineRunScan.PipelineID r = id)) d in
  let d2 := set_pipelines (delete id) d1 in
  let d3 := set_gates (filter (fun '(_, g) => gateScan.PipelineID g <> id)) d2 in
  let d4 := set_schedules (filter (fun '(_, s) => scheduleScan.PipelineID s <> id)) d3 in
  let d5 := set_dedup (filter (fun '(k, _) => k.1 <> id)) d4 in
  set_memories (filter (fun '(k, _) => k.1.1 <> id)) d5.

(** ** Facts about statements *)

(** [frame R] relations ignore the oracle. *)
Class FaultInsensitive (R : db -> db -> Prop) : Prop :=
  fault_insensitive : forall d fs, R d (set_faults fs d).

Lemma preserves_exec {A} (R : db -> db -> Prop) `{!PreOrder R, !FaultInsensitive R}
    (f : ST db A) : preserves R f -> preserves R (exec f).
Proof.
  intros Hf d. unfold exec. destruct (db_faults d) as [|[] fs]; simpl.
  - apply Hf.
  - apply (fault_insensitive d fs).
  - etrans; [apply (fault_insensitive d fs)|apply Hf].
Qed.

Lemma preserves_query {A} (R : db -> db -> Prop) `{!PreOrder R, !FaultInsensitive R}
    (f : db -> A) : preserves R (query f).
Proof. apply (preserves_exec R (gets f)). apply preserves_gets. Qed.

Lemma preserves_update (R : db -> db -> Prop) `{!PreOrder R, !FaultInsensitive R} f :
  (forall d, R d (f d)) -> preserves R (update f).
Proof. intros Hf. apply (preserves_exec R). intros d. apply Hf. Qed.

#[export] Hint Resolve preserves_exec preserves_query preserves_update : preserves.

Lemma exec_no_faults {A} (f : ST db A) d : db_faults d = [] -> exec f d = f d.
Proof. intros H. unfold exec. by rewrite H. Qed.

Lemma query_no_faults {A} (f : db -> A) d :
  db_faults d = [] -> query f d = (Ok (f d), d).
Proof. intros H. unfold query. by rewrite exec_no_faults. Qed.

Lemma update_no_faults f d :
  db_faults d = [] -> update f d = (Ok tt, f d).
Proof. intros H. unfold update. by rewrite exec_no_faults. Qed.

Lemma lookup_delete_runs P d id :
  db_runs (delete_runs P d) !! id =
  match db_runs d !! id with
  | Some r => if P r then None else Some r
  | None => None
  end.
Proof.
  simpl. destruct (db_runs d !! id) as [r|] eqn:E.
  - destruct (P r) eqn:HP.
    + apply map_lookup_filter_None. right. intros r' Hr'. simplify_eq. by rewrite HP.
    + apply map_lookup_filter_Some. by rewrite E.
  - apply map_lookup_filter_None. by left.
Qed.

(** Execute the statements of a method when no statement fails. *)
Ltac run_sql Hf :=
  autounfold with go_monad; unfold query, update, exec, gets, modify;
  repeat (rewrite Hf; simpl).

(** ** States that contain the database

    A component that keeps more state than the database (the scheduler's
    callback reaches the whole execution service) runs the statements on its
    database part. *)
Class HasDb (S : Type) : Type := {
  get_db : S -> db;
  put_db : db -> S -> S;
  get_put_db : forall d s, get_db (put_db d s) = d;
  put_get_db : forall s, put_db (get_db s) s = s;
  put_put_db : forall d d' s, put_db d (put_db d' s) = put_db d s }.

#[export] Instance db_has_db : HasDb db.
Proof. refine {| get_db := fun d => d; put_db := fun d _ => d |}; done. Defined.

Definition on_db {S A} `{!HasDb S} (m : ST db A) : ST S A := fun s =>
  match m (get_db s) with (r, d) => (r, put_db d s) end.
