(* ===== verification/GoStrings.v ===== *)
(** * The string functions of Go's standard library that the program uses

    [strings] and [path/filepath] on ASCII strings: prefix tests, splitting on
    a separator byte, joining, replacing a byte, and [filepath.Clean]. *)
From S2P Require Import Prelude.
From Stdlib Require Import Ascii.
Open Scope string_scope.
#[local] Arguments String.append !_ _ / : simpl nomatch.

Definition HasPrefix (s p : string) : bool := String.prefix p s.

Fixpoint drop_string (n : nat) (s : string) : string :=
  match n, s with
  | S n', String _ s' => drop_string n' s'
  | _, _ => s
  end.

Definition TrimPrefix (s p : string) : string :=
  if HasPrefix s p then drop_string (String.length p) s else s.

(** [strings.Contains] *)
Fixpoint Contains (s sub : string) : bool :=
  HasPrefix s sub
  || match s with EmptyString => false | String _ s' => Contains s' sub end.

(** [strings.Split] with a one-byte separator. *)
Fixpoint Split (s : string) (c : ascii) : list string :=
  match s with
  | EmptyString => [""]
  | String a s' =>
      if Ascii.eqb a c then "" :: Split s' c
      else match Split s' c with
           | w :: ws => String a w :: ws
           | [] => [String a ""]
           end
  end.

(** [strings.Join] *)
Definition Join (l : list string) (sep : string) : string := String.concat sep l.

(** [strings.ReplaceAll] of a one-byte string. *)
Fixpoint ReplaceByte (s : string) (c : ascii) (new : string) : string :=
  match s with
  | EmptyString => ""
  | String a s' =>
      (if Ascii.eqb a c then new else String a "") ++ ReplaceByte s' c new
  end.

Definition is_lower (a : ascii) : bool := ("a" <=? a)%char && (a <=? "z")%char.
Definition is_upper (a : ascii) : bool := ("A" <=? a)%char && (a <=? "Z")%char.
Definition is_digit (a : ascii) : bool := ("0" <=? a)%char && (a <=? "9")%char.

Definition to_lower_ascii (a : ascii) : ascii :=
  if is_upper a then ascii_of_nat (nat_of_ascii a + 32) else a.

Fixpoint ToLower (s : string) : string :=
  match s with
  | EmptyString => ""
  | String a s' => String (to_lower_ascii a) (ToLower s')
  end.

(** [strings.TrimSpace] on ASCII white space. *)
Definition is_space (a : ascii) : bool :=
  let n := nat_of_ascii a in ((9 <=? n) && (n <=? 13) || (n =? 32))%nat.

Fixpoint trim_left (f : ascii -> bool) (s : string) : string :=
  match s with
  | String a s' => if f a then trim_left f s' else s
  | EmptyString => ""
  end.

Fixpoint string_rev (s acc : string) : string :=
  match s with
  | EmptyString => acc
  | String a s' => string_rev s' (String a acc)
  end.

Definition trim_right (f : ascii -> bool) (s : string) : string :=
  string_rev (trim_left f (string_rev s "")) "".

Definition trim (f : ascii -> bool) (s : string) : string :=
  trim_right f (trim_left f s).

Definition TrimSpace : string -> string := trim is_space.

(** [strings.TrimSuffix], [strings.HasSuffix] *)
Definition TrimSuffix (s suffix : string) : string :=
  string_rev (TrimPrefix (string_rev s "") (string_rev suffix "")) "".
Definition HasSuffix (s suffix : string) : bool := HasPrefix (string_rev s "") (string_rev suffix "").

(** [filepath.Clean]: drop empty and "." elements, resolve ".." against the
    element before it, and keep the root. *)
Definition clean_step (rooted : bool) (stack : list string) (part : string)
    : list string :=
  if decide (part = "" \/ part = ".") then stack
  else if decide (part = "..") then
    match stack with
    | top :: rest => if decide (top = "..") then ".." :: stack else rest
    | [] => if rooted then [] else [".."]
    end
  else part :: stack.

Definition clean_parts (rooted : bool) (path : string) : list string :=
  reverse (foldl (clean_step rooted) [] (Split path "/")).

Definition Clean (path : string) : string :=
  if decide (path = "") then "."
  else
    let rooted := HasPrefix path "/" in
    let out := Join (clean_parts rooted path) "/" in
    if rooted then "/" ++ out
    else if decide (out = "") then "." else out.

(** [fmt.Sprintf("%0*d", width, n)] for a non-negative [n]. *)
Fixpoint zeros (n : nat) : string :=
  match n with 0 => "" | S n' => String "0" (zeros n') end.
Definition Itoa (n : Z) : string := pretty n.
Definition zero_pad (width : nat) (n : Z) : string :=
  let s := Itoa n in zeros (width - String.length s) ++ s.

(** ** Facts *)

Lemma append_nil_r s : s ++ "" = s.
Proof. induction s; simpl; congruence. Qed.

Lemma append_assoc s1 s2 s3 : (s1 ++ s2) ++ s3 = s1 ++ (s2 ++ s3).
Proof. induction s1; simpl; congruence. Qed.

Lemma HasPrefix_append p s : HasPrefix (p ++ s) p = true.
Proof.
  unfold HasPrefix. induction p as [|a p IH]; simpl; [by destruct s|].
  by destruct (ascii_dec a a).
Qed.

Lemma HasPrefix_inv s p : HasPrefix s p = true -> exists t, s = p ++ t.
Proof.
  unfold HasPrefix. revert s. induction p as [|a p IH]; intros s; simpl.
  - intros _. by exists s.
  - destruct s as [|b s]; [done|]. simpl. destruct (ascii_dec a b) as [->|]; [|done].
    intros (t & ->)%IH. by exists t.
Qed.

Lemma drop_string_append p s : drop_string (String.length p) (p ++ s) = s.
Proof. by induction p. Qed.

Lemma TrimPrefix_append p s : TrimPrefix (p ++ s) p = s.
Proof. unfold TrimPrefix. by rewrite HasPrefix_append, drop_string_append. Qed.

Lemma String_length_append s t : String.length (s ++ t) = String.length s + String.length t.
Proof. induction s; simpl; congruence. Qed.

Lemma Split_not_nil s c : Split s c <> [].
Proof. destruct s; simpl; [done|]. repeat case_match; done. Qed.

Lemma Join_Split s c : Join (Split s c) (String c "") = s.
Proof.
  induction s as [|a s IH]; simpl; [done|].
  pose proof (Split_not_nil s c) as Hn. destruct (Ascii.eqb_spec a c) as [->|].
  - unfold Join in *. simpl. destruct (Split s c); [done|].
    simpl in *. by rewrite IH.
  - destruct (Split s c) as [|w ws]; [done|]. unfold Join in *.
    destruct ws; simpl in *; by rewrite <- IH.
Qed.

Lemma append_inj_r s t1 t2 : s ++ t1 = s ++ t2 -> t1 = t2.
Proof. induction s; simpl; [done|]. intros [=]. by apply IHs. Qed.

Lemma append_inj_l s1 s2 t : s1 ++ t = s2 ++ t -> s1 = s2.
Proof.
  revert s2. induction s1 as [|a s1 IH]; intros [|b s2] He; [done| | |].
  - apply (f_equal String.length) in He. cbn in He. rewrite String_length_append in He. lia.
  - apply (f_equal String.length) in He. cbn in He. rewrite String_length_append in He. lia.
  - cbn in He. injection He as -> He. by rewrite (IH s2).
Qed.
