(* ===== verification/Utf8.v ===== *)
(** * UTF-8 and the text of a JSON string

    A Go string is a list of bytes. [for _, ch := range s] reads it as UTF-8:
    a byte that starts no character yields U+FFFD and is one byte wide
    (unicode/utf8). [quote_json] is how encoding/json writes a string: escaped
    for HTML, and with every such byte replaced by the escape of U+FFFD. *)
From S2P Require Import Prelude GoStrings.
From Stdlib Require Import Ascii String.
Open Scope string_scope.

Definition byte_of (a : ascii) : Z := Z.of_nat (nat_of_ascii a).
Definition RuneError : Z := 65533.

Definition between (lo hi : Z) (a : ascii) : bool := (lo <=? byte_of a)%Z && (byte_of a <=? hi)%Z.
Definition continues : ascii -> bool := between 128 191.
(** The low six bits of a byte that continues a character. *)
Definition low6 (a : ascii) : Z := Z.land (byte_of a) 63.

(** What may follow the first byte of a character of three and of four bytes:
    no overlong form, no surrogate, nothing above U+10FFFF. *)
Definition second_of_3 (a : ascii) : ascii -> bool :=
  if (byte_of a =? 224)%Z then between 160 191
  else if (byte_of a =? 237)%Z then between 128 159 else continues.
Definition second_of_4 (a : ascii) : ascii -> bool :=
  if (byte_of a =? 240)%Z then between 144 191
  else if (byte_of a =? 244)%Z then between 128 143 else continues.

Definition rune2 (a b : ascii) : Z := (Z.land (byte_of a) 31 * 64 + low6 b)%Z.
Definition rune3 (a b c : ascii) : Z := (Z.land (byte_of a) 15 * 4096 + low6 b * 64 + low6 c)%Z.
Definition rune4 (a b c d : ascii) : Z :=
  (Z.land (byte_of a) 7 * 262144 + low6 b * 4096 + low6 c * 64 + low6 d)%Z.

(** The characters of a string: each with the bytes it is written with. *)
Fixpoint chunks (s : string) : list (Z * string) :=
  match s with
  | EmptyString => []
  | String a s1 =>
      if (byte_of a <? 128)%Z then (byte_of a, String a "") :: chunks s1
      else if between 194 223 a then
        match s1 with
        | String b s2 =>
            if continues b then (rune2 a b, String a (String b "")) :: chunks s2
            else (RuneError, String a "") :: chunks s1
        | _ => (RuneError, String a "") :: chunks s1
        end
      else if between 224 239 a then
        match s1 with
        | String b (String c s3) =>
            if second_of_3 a b && continues c
            then (rune3 a b c, String a (String b (String c ""))) :: chunks s3
            else (RuneError, String a "") :: chunks s1
        | _ => (RuneError, String a "") :: chunks s1
        end
      else if between 240 244 a then
        match s1 with
        | String b (String c (String d s4)) =>
            if second_of_4 a b && continues c && continues d
            then (rune4 a b c d, String a (String b (String c (String d "")))) :: chunks s4
            else (RuneError, String a "") :: chunks s1
        | _ => (RuneError, String a "") :: chunks s1
        end
      else (RuneError, String a "") :: chunks s1
  end.

(** [for _, ch := range s] *)
Definition runes (s : string) : list Z := (chunks s).*1.

(** U+FFFD itself takes three bytes: one byte is one that could not be read. *)
Definition unreadable (c : Z * string) : bool := (c.1 =? RuneError)%Z && (String.length c.2 =? 1)%nat.
Definition utf8_valid (s : string) : bool := forallb (fun c => negb (unreadable c)) (chunks s).

(** ** Strings in JSON *)
Definition hex_digit (n : Z) : ascii :=
  ascii_of_nat (Z.to_nat (if (n <? 10)%Z then 48 + n else 87 + n)).
Definition backslash : ascii := ascii_of_nat 92.
Definition escape (s : string) : string := String backslash s.
(** [\u00XX] *)
Definition escape_byte (n : Z) : string :=
  escape ("u00" ++ String (hex_digit (n / 16)) (String (hex_digit (n mod 16)) "")).

(** One character: ASCII by the table of encoding/json, with the control
    characters, [<], [>] and [&] escaped; U+2028 and U+2029 escaped; any other
    character as it is written. *)
Definition quote_chunk (c : Z * string) : string :=
  let '(ch, text) := c in
  if unreadable c then escape "ufffd"
  else if (ch =? 34)%Z || (ch =? 92)%Z then escape text
  else if (ch =? 8)%Z then escape "b"
  else if (ch =? 12)%Z then escape "f"
  else if (ch =? 10)%Z then escape "n"
  else if (ch =? 13)%Z then escape "r"
  else if (ch =? 9)%Z then escape "t"
  else if (ch <? 32)%Z || (ch =? 60)%Z || (ch =? 62)%Z || (ch =? 38)%Z then escape_byte ch
  else if (ch =? 8232)%Z || (ch =? 8233)%Z then
    escape ("u202" ++ String (hex_digit (ch mod 16)) "")
  else text.
Definition double_quote : string := String (ascii_of_nat 34) "".
Definition quote_json (s : string) : string :=
  double_quote ++ String.concat "" (map quote_chunk (chunks s)) ++ double_quote.

(** ** Facts *)

(** The characters make up the string. *)
Lemma chunks_concat s : String.concat "" (map snd (chunks s)) = s.
Proof.
  assert (Hc : forall t l, String.concat "" (t :: l) = t ++ String.concat "" l)
    by (intros t [|u l]; [by rewrite append_nil_r|done]).
  revert s. induction s as [s IH] using (induction_ltof1 _ String.length). unfold ltof in IH.
  destruct s as [|a s1]; [done|]. cbn [chunks].
  repeat case_match; cbn [map]; rewrite Hc; cbn [snd String.append];
    rewrite IH by (cbn [String.length]; lia); done.
Qed.

(** ASCII text is read byte by byte, and can be read. *)
Definition ascii_bytes (s : string) : bool :=
  forallb (fun a => (byte_of a <? 128)%Z) (list_ascii_of_string s).
Lemma utf8_valid_ascii s : ascii_bytes s = true -> utf8_valid s = true.
Proof.
  unfold ascii_bytes, utf8_valid.
  induction s as [|a s IH]; [done|]. cbn [list_ascii_of_string forallb chunks].
  intros [Ha Hs]%andb_true_iff. rewrite Ha. cbn [forallb]. rewrite IH by done.
  rewrite andb_true_r. unfold unreadable, RuneError. cbn [fst].
  apply Z.ltb_lt in Ha. by rewrite (proj2 (Z.eqb_neq _ _)) by lia.
Qed.

(** Two, three and four bytes; a truncated character; an overlong one; a
    surrogate; a byte that starts nothing. *)
Example runes_ex : runes "é€𝄞" = [233; 8364; 119070]%Z.
Proof. reflexivity. Qed.
Example runes_bad : runes (String (ascii_of_nat 226) (String (ascii_of_nat 130) "a")) =
  [RuneError; RuneError; 97%Z].
Proof. reflexivity. Qed.
Example overlong_bad : utf8_valid (String (ascii_of_nat 192) (String (ascii_of_nat 175) "")) = false.
Proof. reflexivity. Qed.
Example surrogate_bad :
  utf8_valid (String (ascii_of_nat 237) (String (ascii_of_nat 160) (String (ascii_of_nat 128) ""))) = false.
Proof. reflexivity. Qed.
Example quote_json_ex :
  quote_json "a<é" = double_quote ++ "a" ++ escape "u003c" ++ "é" ++ double_quote.
Proof. reflexivity. Qed.
