(* ===== verification/Runs.v ===== *)
(** * Pipeline runs in SQLite (storage/sqlite/runs.go)

    Each method of the driver is one definition, statement by statement. The
    run rows are [db_runs]; [run_rows] lists them in the engine's own order and
    every [ORDER BY] goes through the [OrderBy] interface. *)
From S2P Require Import Prelude Storage Json Db.
Import pipelineRunScan.

#[export] Instance RunStatus_countable : Countable RunStatus.
Proof.
  refine (inj_countable'
    (fun s => match s with RunStatusQueued => 0 | RunStatusRunning => 1
              | RunStatusSuccess => 2 | RunStatusFailed => 3
              | RunStatusSkipped => 4 end)
    (fun n => match n with 0 => RunStatusQueued | 1 => RunStatusRunning
              | 2 => RunStatusSuccess | 3 => RunStatusFailed
              | _ => RunStatusSkipped end) _).
  by intros [].
Defined.

Definition run_rows (d : db) : list pipelineRunScan.t :=
  (map_to_list (db_runs d)).*2.

(** Setting the status columns of a row; the other columns stay. *)
Definition with_status (st : RunStatus) (started completed : option Z)
    (msg : option string) (r : t) : t :=
  mk (ID r) (PipelineID r) st started completed msg (Trigger r)
     (TriggeredBy r) (Input r) (ConcurrencyGroup r) (CreatedAt r).

(** The CASE expressions of the UPDATE statement of [UpdateRunStatus]. *)
Definition apply_status (st : RunStatus) (now : Z) (msg : string) (r : t) : t :=
  with_status st
    (if bool_decide (st = RunStatusRunning) then Some now else StartedAt r)
    (if IsTerminal st then Some now else CompletedAt r)
    (if IsTerminal st then Some msg else ErrorMessage r) r.

(** Its WHERE clause: the state machine of a run. *)
Definition transition_allowed (new old : RunStatus) : bool :=
  bool_decide (new = RunStatusFailed) || bool_decide (new = RunStatusQueued)
  || IsActive old.

(** [EXISTS (SELECT 1 FROM json_each(trigger_input.jobs) WHERE value = job)] *)
Definition targets_job (job : string) (r : t) : bool :=
  bool_decide (job ∈ TriggerInput.Jobs (Input r)).

Section runs.
Context `{!UniqueIDs, !OrderBy}.

Definition insert_run (row : t) : ST db unit := exec (fun d =>
    if decide (is_Some (db_runs d !! ID row)) then
      (Err (ESentinel SSqlite), d)                       (* PRIMARY KEY *)
    else if decide (is_Some (db_pipelines d !! PipelineID row)) then
      (Ok tt, set_runs (insert (ID row) row) d)
    else (Err (ESentinel SSqlite), d)).                  (* FOREIGN KEY *)

Definition SaveRunWithStatus (pipelineID : string) (trigger : TriggerType)
      (triggeredBy : string) (input : TriggerInput.t) (group : string)
      (status : RunStatus) (errorMessage : string) : ST db PipelineRun.t :=
    let! id := UniqueID in
    let! now := time_Now in
    let unix := Unix now in
    let startedAtVal :=
      if bool_decide (status = RunStatusRunning) then Some unix else None in
    let completedVal := if IsTerminal status then Some unix else None in
    let storedError := if IsTerminal status then errorMessage else "" in
    let errorVal :=
      if IsTerminal status && negb (bool_decide (errorMessage = ""))
      then Some errorMessage else None in
    wrap "failed to save run"
      (insert_run (mk id pipelineID status startedAtVal completedVal errorVal
                      trigger triggeredBy input group unix)) ;;;
    ret {|
      PipelineRun.ID := id; PipelineRun.PipelineID := pipelineID;
      PipelineRun.Status := status; PipelineRun.Trigger := trigger;
      PipelineRun.TriggeredBy := triggeredBy; PipelineRun.Input := input;
      PipelineRun.ConcurrencyGroup := group;
      PipelineRun.StartedAt :=
        if bool_decide (status = RunStatusRunning) then Some now else None;
      PipelineRun.CompletedAt := if IsTerminal status then Some now else None;
      PipelineRun.ErrorMessage := storedError;
      PipelineRun.CreatedAt := now |}.

Definition SaveRun pipelineID trigger triggeredBy input group :=
    SaveRunWithStatus pipelineID trigger triggeredBy input group
      RunStatusQueued "".

Definition GetRun (runID : string) : ST db PipelineRun.t :=
    let! row := wrap "failed to get run" (query (fun d => db_runs d !! runID)) in
    match row with
    | Some r => ret (toStorage r)
    | None => fail (ESentinel SNotFound)
    end.

Definition newest_first (rows : list t) : list t :=
    order_by (fun r => (- CreatedAt r)%Z) rows.
Definition oldest_first (rows : list t) : list t := order_by CreatedAt rows.

Definition select_runs (P : t -> bool) (d : db) : list t :=
    List.filter P (run_rows d).

Definition GetRunsByStatus (status : RunStatus) (limit : Z)
      : ST db (list PipelineRun.t) :=
    wrap "failed to get runs by status" (query (fun d =>
      let rows := newest_first
        (select_runs (fun r => bool_decide (Status r = status)) d) in
      toStorage <$> (if (0 <? limit)%Z then take (Z.to_nat limit) rows else rows))).

Definition GetActiveRunsByGroup (group : string) : ST db (list PipelineRun.t) :=
    if decide (group = "") then ret []
    else wrap "failed to get active runs by group" (query (fun d =>
      toStorage <$> oldest_first (select_runs (fun r =>
        bool_decide (ConcurrencyGroup r = group) && IsActive (Status r)) d))).

Definition GetActiveRunsByPipeline (pipelineID : string)
      : ST db (list PipelineRun.t) :=
    wrap "failed to get active runs by pipeline" (query (fun d =>
      toStorage <$> oldest_first (select_runs (fun r =>
        bool_decide (PipelineID r = pipelineID) && IsActive (Status r)) d))).

Definition GetMostRecentJobRun (pipelineID jobName : string)
      : ST db (option PipelineRun.t) :=
    if decide (jobName = "") then ret None
    else wrap "get most recent job run" (query (fun d =>
      toStorage <$> head (newest_first (select_runs (fun r =>
        bool_decide (PipelineID r = pipelineID) && targets_job jobName r) d)))).

Definition GetSuccessfulJobRunSince (pipelineID jobName : string)
      (since : time) : ST db (option PipelineRun.t) :=
    if decide (jobName = "") then ret None
    else wrap "get successful job run since" (query (fun d =>
      toStorage <$> head (newest_first (select_runs (fun r =>
        bool_decide (PipelineID r = pipelineID)
        && bool_decide (Status r = RunStatusSuccess)
        && (Unix since <? CreatedAt r)%Z && targets_job jobName r) d)))).

  (** SELECT status, COUNT( * ) ... GROUP BY status *)
Definition GetRunStats : ST db (gmap RunStatus Z) :=
    wrap "failed to get run stats" (query (fun d =>
      foldr (fun r m => partial_alter (fun c => Some (default 0 c + 1)%Z)
                          (Status r) m) ∅ (run_rows d))).

Definition update_run_row (runID : string) (status : RunStatus) (now : Z)
      (errorMessage : string) (d : db) : result Z * db :=
    match db_runs d !! runID with
    | Some r =>
        if transition_allowed status (Status r)
        then (Ok 1%Z, set_runs (insert runID (apply_status status now errorMessage r)) d)
        else (Ok 0%Z, d)
    | None => (Ok 0%Z, d)
    end.

Definition UpdateRunStatus (runID : string) (status : RunStatus)
      (errorMessage : string) : ST db unit :=
    let! now := time_Now in
    let! rowsAffected := wrap "failed to update run status"
      (exec (update_run_row runID status (Unix now) errorMessage)) in
    if (rowsAffected =? 0)%Z then
      let! exists_ := attempt (query (fun d =>
        bool_decide (is_Some (db_runs d !! runID)))) in
      match exists_ with
      | Ok true => ret tt           (* transition blocked: silent no-op *)
      | _ => fail (ESentinel SNotFound)
      end
    else ret tt.

  (** The ids a count-based prune keeps. *)
Definition newest_ids (pipelineID : string) (n : Z) (d : db) : list string :=
    ID <$> take (Z.to_nat n) (newest_first (select_runs (fun r =>
      bool_decide (PipelineID r = pipelineID)) d)).

Definition PruneRunsByPipeline (pipelineID : string) (keepBuilds : Z)
      (cutoffTime : option time) : ST db unit :=
    (if (0 <? keepBuilds)%Z then
       wrap "failed to prune runs by count" (update (fun d =>
         let keep := newest_ids pipelineID keepBuilds d in
         delete_runs (fun r => bool_decide (PipelineID r = pipelineID)
           && negb (bool_decide (ID r ∈ keep))) d))
     else ret tt) ;;;
    match cutoffTime with
    | Some cutoff =>
        wrap "failed to prune runs by age" (update
          (delete_runs (fun r => bool_decide (PipelineID r = pipelineID)
             && (CreatedAt r <? Unix cutoff)%Z)))
    | None => ret tt
    end.
End runs.

(** ** The key of a row is its id *)
Definition ids_ok (d : db) : Prop :=
  map_Forall (fun id r => ID r = id) (db_runs d).

(** ** Reads *)

Lemma elem_of_run_rows r d : r ∈ run_rows d <-> exists id, db_runs d !! id = Some r.
Proof.
  unfold run_rows. rewrite list_elem_of_fmap. split.
  - intros ([id r'] & -> & H%elem_of_map_to_list). by exists id.
  - intros [id H]. exists (id, r). split; [done|]. by apply elem_of_map_to_list.
Qed.

Lemma elem_of_select_runs P r d :
  r ∈ select_runs P d <-> P r = true /\ exists id, db_runs d !! id = Some r.
Proof.
  unfold select_runs. rewrite list_elem_of_In, filter_In, <- list_elem_of_In.
  rewrite elem_of_run_rows. naive_solver.
Qed.

Lemma NoDup_run_ids d : ids_ok d -> NoDup (ID <$> run_rows d).
Proof.
  intros Hids. unfold run_rows. rewrite <- list_fmap_compose.
  rewrite (list_fmap_ext _ fst).
  - apply NoDup_fst_map_to_list.
  - intros i [id r] Hlk. simpl. apply (Hids id).
    apply elem_of_map_to_list. by eapply list_elem_of_lookup_2.
Qed.

Lemma NoDup_select_ids P d : ids_ok d -> NoDup (ID <$> select_runs P d).
Proof.
  intros Hids%NoDup_run_ids. unfold select_runs.
  induction (run_rows d) as [|r l IH]; simpl in *; [constructor|].
  apply NoDup_cons in Hids as [Hni Hnd].
  destruct (P r); [|by apply IH]. simpl. constructor; [|by apply IH].
  intros (r' & Heq & Hin)%list_elem_of_fmap. apply Hni.
  rewrite Heq. apply list_elem_of_fmap_2.
  by apply list_elem_of_In, filter_In in Hin as [?%list_elem_of_In _].
Qed.

(** ** The state machine of a run *)

(** What a well-formed row looks like: a started run has its start time, a
    finished run its completion time, and the key is the id. *)
Definition run_wf (id : string) (r : t) : Prop :=
  ID r = id /\
  (Status r = RunStatusRunning -> is_Some (StartedAt r)) /\
  (IsTerminal (Status r) = true -> is_Some (CompletedAt r)).

Definition runs_wf (d : db) : Prop := map_Forall run_wf (db_runs d).

Lemma runs_wf_ids d : runs_wf d -> ids_ok d.
Proof. intros H id r Hr. by apply (H id r). Qed.

Lemma apply_status_wf id st now msg r :
  run_wf id r -> run_wf id (apply_status st now msg r).
Proof.
  intros (Hid & Hs & Hc). split; [done|]. simpl. split.
  - intros ->. rewrite bool_decide_true by done. by eexists.
  - intros ->. by eexists.
Qed.

(** The relation "well-formedness is kept" and its closure properties. *)
Definition keeps_wf (d d' : db) : Prop := runs_wf d -> runs_wf d'.
#[export] Instance keeps_wf_preorder : PreOrder keeps_wf.
Proof. split; [by intros d H|intros ? ? ? H1 H2 H; by apply H2, H1]. Qed.
#[export] Instance keeps_wf_faults : FaultInsensitive keeps_wf.
Proof. by intros d fs H. Qed.

(** One status update either leaves the table alone or moves one run along
    an allowed transition. *)
Definition one_transition (runID : string) (st : RunStatus) (msg : string)
    (d d' : db) : Prop :=
  db_runs d' = db_runs d \/
  exists r, db_runs d !! runID = Some r /\
    transition_allowed st (Status r) = true /\
    db_runs d' = <[runID := apply_status st (Unix (db_now d)) msg r]> (db_runs d).

Section runs_facts.
Context `{!UniqueIDs, !OrderBy}.

Lemma UpdateRunStatus_cases runID st msg d :
    one_transition runID st msg d (UpdateRunStatus runID st msg d).2.
Proof.
    unfold UpdateRunStatus, time_Now, wrap, attempt, query, exec, update_run_row.
    autounfold with go_monad.
    destruct (db_faults d) as [|[] fs]; simpl; [| by left |].
    all: destruct (db_runs d !! runID) as [r|] eqn:Hr; simpl;
      [destruct (transition_allowed st (Status r)) eqn:Ht; simpl|].
    all: try (right; by exists r).
    all: repeat case_match; simplify_eq/=; by left.
Qed.

Lemma UpdateRunStatus_exact runID st msg d :
    db_faults d = [] ->
    UpdateRunStatus runID st msg d =
    match db_runs d !! runID with
    | None => (Err (ESentinel SNotFound), d)
    | Some r =>
        (Ok tt, if transition_allowed st (Status r)
                then set_runs (insert runID
                       (apply_status st (Unix (db_now d)) msg r)) d
                else d)
    end.
Proof.
    intros Hf. unfold UpdateRunStatus, time_Now, wrap, attempt, query, exec,
      update_run_row. autounfold with go_monad. rewrite Hf. simpl.
    destruct (db_runs d !! runID) as [r|] eqn:Hr; simpl.
    - destruct (transition_allowed st (Status r)) eqn:Ht; simpl; [done|].
      rewrite Hf, Hr. simpl. done.
    - by rewrite Hf, Hr.
Qed.

(** The row a new run is stored as. *)
Definition new_run_row (id p : string) trigger by_ input group st msg (now : Z) : t :=
  mk id p st (if bool_decide (st = RunStatusRunning) then Some now else None)
     (if IsTerminal st then Some now else None)
     (if IsTerminal st && negb (bool_decide (msg = "")) then Some msg else None)
     trigger by_ input group now.

Lemma SaveRunWithStatus_exact p trigger by_ input group st msg d :
  db_faults d = [] -> is_Some (db_pipelines d !! p) ->
  db_runs d !! uid (db_uids d) = None ->
  exists run, SaveRunWithStatus p trigger by_ input group st msg d =
    (Ok run, set_runs (insert (uid (db_uids d))
       (new_run_row (uid (db_uids d)) p trigger by_ input group st msg (Unix (db_now d))))
       (set_uids (S (db_uids d)) d)) /\
    PipelineRun.ID run = uid (db_uids d) /\ PipelineRun.Status run = st /\
    PipelineRun.ConcurrencyGroup run = group.
Proof.
  intros Hf Hp Hn. unfold SaveRunWithStatus, UniqueID, time_Now, wrap, insert_run, exec.
  autounfold with go_monad. simpl. rewrite Hf. simpl.
  rewrite decide_False by (by rewrite Hn; intros [? ?]).
  rewrite decide_True by done. eexists. split; [reflexivity|done].
Qed.

Lemma GetActiveRunsByPipeline_exact p d :
  db_faults d = [] ->
  GetActiveRunsByPipeline p d = (Ok (toStorage <$> oldest_first (select_runs (fun r =>
    bool_decide (PipelineID r = p) && IsActive (Status r)) d)), d).
Proof. intros Hf. unfold GetActiveRunsByPipeline, wrap. by rewrite query_no_faults. Qed.

Lemma GetActiveRunsByGroup_exact g d :
  db_faults d = [] -> g <> "" ->
  GetActiveRunsByGroup g d = (Ok (toStorage <$> oldest_first (select_runs (fun r =>
    bool_decide (ConcurrencyGroup r = g) && IsActive (Status r)) d)), d).
Proof.
  intros Hf Hg. unfold GetActiveRunsByGroup, wrap. rewrite decide_False by done.
  by rewrite query_no_faults.
Qed.

Lemma GetRunsByStatus_exact st d :
  db_faults d = [] ->
  GetRunsByStatus st 0 d = (Ok (toStorage <$> newest_first
    (select_runs (fun r => bool_decide (Status r = st)) d)), d).
Proof. intros Hf. unfold GetRunsByStatus, wrap. by rewrite query_no_faults. Qed.

Lemma UpdateRunStatus_keeps_wf runID st msg :
    preserves keeps_wf (UpdateRunStatus runID st msg).
Proof.
    intros d Hwf. unfold runs_wf.
    destruct (UpdateRunStatus_cases runID st msg d) as [->|(r & Hr & _ & ->)];
      [done|].
    apply map_Forall_insert_2; [|done]. apply apply_status_wf. by apply Hwf.
Qed.

Lemma insert_run_keeps_wf row :
    run_wf (ID row) row -> preserves keeps_wf (insert_run row).
Proof.
    intros Hrow. apply preserves_exec; [apply _..|]. intros d Hwf.
    repeat case_decide; simpl; [done| |done].
    by apply map_Forall_insert_2.
Qed.

Lemma SaveRunWithStatus_keeps_wf p tt' tb ti g st msg :
    preserves keeps_wf (SaveRunWithStatus p tt' tb ti g st msg).
Proof.
    apply preserves_bind; [apply _| by intros d Hd|]. intros id.
    apply preserves_bind; [apply _| by intros d Hd|]. intros now. simpl.
    apply preserves_bind; [apply _| |intros; by apply preserves_ret].
    apply preserves_wrap, insert_run_keeps_wf. split; [done|]. simpl. split.
    - intros ->. by eexists.
    - intros ->. by eexists.
Qed.

Lemma delete_runs_keeps_wf P d : keeps_wf d (delete_runs P d).
Proof.
    intros Hwf id r Hr. rewrite lookup_delete_runs in Hr.
    destruct (db_runs d !! id) eqn:E; [|done].
    case_match; simplify_eq. by apply Hwf.
Qed.

Lemma PruneRunsByPipeline_keeps_wf p n c :
    preserves keeps_wf (PruneRunsByPipeline p n c).
Proof.
    apply preserves_bind; [apply _| |intros _].
    - case_match; [|by apply preserves_ret]. apply preserves_wrap.
      apply preserves_update; [apply _..|]. intros d. apply delete_runs_keeps_wf.
    - destruct c; [|by apply preserves_ret]. apply preserves_wrap.
      apply preserves_update; [apply _..|]. apply delete_runs_keeps_wf.
Qed.
End runs_facts.

(** ** Retention *)

Lemma delete_runs_other P d :
  db_pipelines (delete_runs P d) = db_pipelines d /\
  db_schedules (delete_runs P d) = db_schedules d /\
  db_dedup (delete_runs P d) = db_dedup d /\
  db_memories (delete_runs P d) = db_memories d.
Proof. done. Qed.

Lemma NoDup_subset_length (l k : list string) :
  NoDup l -> (forall x, x ∈ l -> x ∈ k) -> length l <= length k.
Proof.
  intros Hl Hsub. apply submseteq_length, NoDup_submseteq; [done|done].
Qed.

Lemma elem_of_take_ordered `{!OrderBy} {A} (key : A -> Z) n l x y :
  x ∈ take n (order_by key l) -> y ∈ order_by key l ->
  y ∉ take n (order_by key l) -> (key x <= key y)%Z.
Proof.
  intros Hx Hy Hn. pose proof (order_by_sorted A key l) as Hs.
  rewrite <- (take_drop n (order_by key l)) in Hs, Hy.
  apply elem_of_app in Hy as [Hy|Hy]; [done|]. clear Hn.
  induction (take n (order_by key l)) as [|z zs IH]; [set_solver|].
  simpl in Hs. apply StronglySorted_inv in Hs as [Hs Hall].
  apply elem_of_cons in Hx as [->|Hx]; [|by apply IH].
  eapply Forall_forall in Hall; [exact Hall|]. set_solver.
Qed.

Section retention.
Context `{!UniqueIDs, !OrderBy}.

Lemma PruneRunsByPipeline_no_faults p n c d :
  db_faults d = [] ->
  PruneRunsByPipeline p n c d =
  (Ok tt,
   let d1 := if (0 <? n)%Z then
               delete_runs (fun r => bool_decide (PipelineID r = p)
                 && negb (bool_decide (ID r ∈ newest_ids p n d))) d
             else d in
   match c with
   | Some t => delete_runs (fun r => bool_decide (PipelineID r = p)
                 && (CreatedAt r <? Unix t)%Z) d1
   | None => d1
   end).
Proof.
  intros Hf. unfold PruneRunsByPipeline, wrap, update, exec.
  autounfold with go_monad.
  destruct (0 <? n)%Z, c; simpl; rewrite ?Hf; simpl; rewrite ?Hf; done.
Qed.

Lemma elem_of_newest_ids p n d id :
  id ∈ newest_ids p n d ->
  exists r, ID r = id /\ PipelineID r = p /\ exists k, db_runs d !! k = Some r.
Proof.
  unfold newest_ids. intros (r & -> & Hin)%list_elem_of_fmap.
  exists r. split; [done|].
  apply (subseteq_take _ _) in Hin. unfold newest_first in Hin.
  rewrite elem_of_order_by, elem_of_select_runs in Hin.
  destruct Hin as [Hp Hk]. by rewrite bool_decide_eq_true in Hp.
Qed.

Lemma newest_ids_newest p n d r r' k k' :
  ids_ok d -> db_runs d !! k = Some r -> db_runs d !! k' = Some r' ->
  PipelineID r = p -> PipelineID r' = p ->
  k ∈ newest_ids p n d -> k' ∉ newest_ids p n d ->
  (CreatedAt r' <= CreatedAt r)%Z.
Proof.
  intros Hids Hr Hr' Hp Hp' Hin Hni.
  set (rows := select_runs (fun r => bool_decide (PipelineID r = p)) d).
  assert (Hmem : forall k0 r0, db_runs d !! k0 = Some r0 -> PipelineID r0 = p ->
            r0 ∈ newest_first rows).
  { intros k0 r0 H1 H2. unfold newest_first. rewrite elem_of_order_by.
    apply elem_of_select_runs. split; [by apply bool_decide_true|by exists k0]. }
  assert (Ht : r ∈ take (Z.to_nat n) (newest_first rows)).
  { unfold newest_ids in Hin.
    apply list_elem_of_fmap in Hin as (r0 & Hk0 & Hin).
    assert (r0 = r) as <-; [|done].
    pose proof (subseteq_take _ _ _ Hin) as Hin'. unfold newest_first in Hin'.
    rewrite elem_of_order_by, elem_of_select_runs in Hin'.
    destruct Hin' as [_ [k0 Hk]]. pose proof (Hids _ _ Hk) as E1.
    simpl in E1. congruence. }
  assert (Ht' : r' ∉ take (Z.to_nat n) (newest_first rows)).
  { intros Hin'. apply Hni. unfold newest_ids.
    rewrite <- (Hids _ _ Hr'). by apply list_elem_of_fmap_2. }
  pose proof (elem_of_take_ordered (fun r => (- CreatedAt r)%Z) _ rows r r' Ht
    (Hmem _ _ Hr' Hp') Ht') as Hle. cbn in Hle. lia.
Qed.
End retention.

(** ** Properties *)

(** The example database of the witnesses: one pipeline and its runs. *)
Definition ex_pipeline (mode : string) : pipelineScan.t :=
  pipelineScan.mk "p" "p" "" "yaml" "docker" 0 0 "" mode "" 0 0 0.
Definition ex_run (id : string) (st : RunStatus) (group : string)
    (jobs : list string) (created : Z) : t :=
  mk id "p" st
    (if bool_decide (st = RunStatusQueued) then None else Some created)
    (if IsTerminal st then Some created else None) None TriggerTypeManual ""
    (TriggerInput.mk [] None jobs []) group created.
Definition ex_db (mode : string) (runs : list t) : db :=
  mkDb {["p" := ex_pipeline mode]} (list_to_map ((fun r => (ID r, r)) <$> runs))
    ∅ ∅ ∅ ∅ 0 ∅ 0 (time_Unix 1000) 0 [].

Section properties.
Context `{!UniqueIDs, !OrderBy}.

(** C36: the state machine of a run. [UpdateRunStatus] changes at most the
    one run it names, and that run only along a transition the WHERE clause
    allows; so a run recorded as success, skipped or failed keeps its row under
    every update other than one to failed or queued, whatever statements
    fail. *)
Theorem UpdateRunStatus_terminal_frozen (d : db) runID st msg id r :
  db_runs d !! id = Some r -> IsTerminal (Status r) = true ->
  st <> RunStatusFailed -> st <> RunStatusQueued ->
  db_runs (UpdateRunStatus runID st msg d).2 !! id = Some r.
Proof.
  intros Hr Ht Hf Hq.
  destruct (UpdateRunStatus_cases runID st msg d) as [->|(r0 & Hr0 & Hok & ->)];
    [done|].
  destruct (decide (runID = id)) as [->|Hne]; [|by rewrite lookup_insert_ne].
  simplify_eq. unfold transition_allowed in Hok.
  rewrite !bool_decide_false in Hok by done. simpl in Hok.
  by destruct (Status r).
Qed.

(** the functional behaviour of [UpdateRunStatus] when no statement fails:
    [ErrNotFound] exactly for an unknown run, a silent no-op for a transition
    the state machine blocks, and otherwise the row with its status, its
    start or completion time and its message set and nothing else changed. *)
Theorem UpdateRunStatus_functional (d : db) runID st msg :
  db_faults d = [] ->
  match db_runs d !! runID with
  | None => UpdateRunStatus runID st msg d = (Err (ESentinel SNotFound), d)
  | Some r =>
      (UpdateRunStatus runID st msg d).1 = Ok tt /\
      db_runs (UpdateRunStatus runID st msg d).2 =
        (if bool_decide (st = RunStatusFailed) || bool_decide (st = RunStatusQueued)
            || IsActive (Status r)
         then <[runID := apply_status st (Unix (db_now d)) msg r]> (db_runs d)
         else db_runs d)
  end.
Proof.
  intros Hf. rewrite UpdateRunStatus_exact by done.
  destruct (db_runs d !! runID) as [r|]; [|done].
  unfold transition_allowed. by case_match.
Qed.

(** the well-formedness of the runs table (a run's key is its id, a
    running run has a start time, a finished run a completion time) is an
    invariant of every method that writes the table, with or without failing
    statements. *)
Theorem runs_table_invariant (d : db) p trigger by_ input group st msg id n cutoff :
  runs_wf d ->
  runs_wf (SaveRunWithStatus p trigger by_ input group st msg d).2 /\
  runs_wf (UpdateRunStatus id st msg d).2 /\
  runs_wf (PruneRunsByPipeline p n cutoff d).2.
Proof.
  intros Hwf. split_and!.
  - by apply SaveRunWithStatus_keeps_wf.
  - by apply UpdateRunStatus_keeps_wf.
  - by apply PruneRunsByPipeline_keeps_wf.
Qed.

(** count-based retention. Pruning pipeline [p] to [n > 0] builds leaves
    at most [n] runs of [p], never removes a run that is strictly newer than a
    run it keeps, leaves every other pipeline's runs alone, and removes the
    gates of the runs it removes. *)
Theorem PruneRunsByPipeline_retention (d : db) p n :
  db_faults d = [] -> ids_ok d -> (0 < n)%Z ->
  let d' := (PruneRunsByPipeline p n None d).2 in
  length (select_runs (fun r => bool_decide (PipelineID r = p)) d') <= Z.to_nat n /\
  (forall id r, db_runs d !! id = Some r -> PipelineID r <> p ->
     db_runs d' !! id = Some r) /\
  (forall id r id' r', db_runs d' !! id = Some r -> PipelineID r = p ->
     db_runs d !! id' = Some r' -> PipelineID r' = p -> db_runs d' !! id' = None ->
     (CreatedAt r' <= CreatedAt r)%Z) /\
  (forall g gr r, db_gates d !! g = Some gr ->
     db_runs d !! gateScan.RunID gr = Some r ->
     db_runs d' !! gateScan.RunID gr = None -> db_gates d' !! g = None).
Proof.
  intros Hf Hids Hn. rewrite PruneRunsByPipeline_no_faults by done.
  rewrite (proj2 (Z.ltb_lt _ _) Hn). cbn zeta. cbn [snd].
  set (P := fun r => bool_decide (PipelineID r = p)
                     && negb (bool_decide (ID r ∈ newest_ids p n d))).
  assert (Hkeep : forall id r, db_runs (delete_runs P d) !! id = Some r ->
            db_runs d !! id = Some r /\ P r = false).
  { intros id r. rewrite lookup_delete_runs. destruct (db_runs d !! id) eqn:E; [|done].
    destruct (P t0) eqn:HP; [done|]. intros. by simplify_eq. }
  assert (Hids' : ids_ok (delete_runs P d)).
  { intros id r Hr. by apply (Hids id), Hkeep. }
  assert (Hnew : forall id r, db_runs (delete_runs P d) !! id = Some r ->
            PipelineID r = p -> id ∈ newest_ids p n d).
  { intros id r [Hr HP]%Hkeep Hp. unfold P in HP.
    rewrite bool_decide_true in HP by done. simpl in HP.
    rewrite <- (Hids _ _ Hr). by case_bool_decide. }
  split_and!.
  - rewrite <- (length_fmap ID). etrans.
    + apply (NoDup_subset_length _ (newest_ids p n d)); [by apply NoDup_select_ids|].
      intros id (r & -> & [Hp [k Hk]]%elem_of_select_runs)%list_elem_of_fmap.
      apply bool_decide_eq_true in Hp. rewrite (Hids' _ _ Hk). eauto.
    + unfold newest_ids. rewrite length_fmap, length_take. lia.
  - intros id r Hr Hp. rewrite lookup_delete_runs, Hr. unfold P.
    by rewrite bool_decide_false.
  - intros id r id' r' Hr Hp Hr' Hp' Hgone.
    eapply (newest_ids_newest p n d r r' id id'); eauto; [by apply Hkeep|].
    intros Hin. rewrite lookup_delete_runs, Hr' in Hgone. unfold P in Hgone.
    rewrite (Hids _ _ Hr'), (bool_decide_true (id' ∈ _)), andb_false_r in Hgone by done.
    done.
  - intros g gr r Hg Hr Hgone. rewrite lookup_delete_runs, Hr in Hgone.
    simpl. apply map_lookup_filter_None. right. intros gr' Hg'. simplify_eq.
    rewrite Hr. by destruct (P r).
Qed.

(** [GetMostRecentJobRun] finds a newest run of the pipeline among those
    that target the job, in any status, and finds none only when there is
    none. *)
Theorem GetMostRecentJobRun_newest (d : db) p job :
  db_faults d = [] -> job <> "" ->
  exists res, GetMostRecentJobRun p job d = (Ok res, d) /\
  match res with
  | Some run =>
      exists id r, db_runs d !! id = Some r /\ run = toStorage r /\
        PipelineID r = p /\ job ∈ TriggerInput.Jobs (Input r) /\
        (forall id' r', db_runs d !! id' = Some r' -> PipelineID r' = p ->
           job ∈ TriggerInput.Jobs (Input r') -> (CreatedAt r' <= CreatedAt r)%Z)
  | None =>
      forall id r, db_runs d !! id = Some r -> PipelineID r = p ->
        job ∉ TriggerInput.Jobs (Input r)
  end.
Proof.
  intros Hf Hj. unfold GetMostRecentJobRun. rewrite decide_False by done.
  unfold wrap. rewrite query_no_faults by done. eexists. split; [done|].
  set (P := fun r => bool_decide (PipelineID r = p) && targets_job job r).
  assert (HP : forall r, P r = true <->
            PipelineID r = p /\ job ∈ TriggerInput.Jobs (Input r)).
  { intros r. unfold P, targets_job. by rewrite andb_true_iff, !bool_decide_eq_true. }
  destruct (head (newest_first (select_runs P d))) as [r|] eqn:Eh; simpl.
  - apply head_order_by_min in Eh as [Hin Hmin].
    apply elem_of_select_runs in Hin as [[Hp Ht]%HP [id Hid]].
    exists id, r. split_and!; [done..|]. intros id' r' Hr' Hp' Hj'.
    specialize (Hmin r'). cbn in Hmin. enough (- CreatedAt r <= - CreatedAt r')%Z by lia.
    apply Hmin, elem_of_select_runs. split; [by apply HP|by exists id'].
  - apply head_order_by_None in Eh. intros id r Hr Hp Hj'.
    assert (Hin : r ∈ select_runs P d).
    { apply elem_of_select_runs. split; [by apply HP|by exists id]. }
    rewrite Eh in Hin. set_solver.
Qed.
End properties.

(** ** Witnesses *)
Lemma UpdateRunStatus_terminal_frozen_witness :
  let d := ex_db "" [ex_run "a" RunStatusSuccess "" [] 5] in
  db_runs (UpdateRunStatus "a" RunStatusRunning "" d).2 !! "a" =
  Some (ex_run "a" RunStatusSuccess "" [] 5).
Proof.
  apply UpdateRunStatus_terminal_frozen;
    [vm_compute; reflexivity|reflexivity|discriminate|discriminate].
Defined.

Lemma UpdateRunStatus_functional_witness :
  let d := ex_db "" [ex_run "a" RunStatusQueued "" [] 5] in
  (UpdateRunStatus "a" RunStatusRunning "" d).1 = Ok tt /\
  db_runs (UpdateRunStatus "a" RunStatusRunning "" d).2 =
    <["a" := apply_status RunStatusRunning 1000 "" (ex_run "a" RunStatusQueued "" [] 5)]>
      (db_runs d).
Proof.
  exact (UpdateRunStatus_functional (ex_db "" [ex_run "a" RunStatusQueued "" [] 5])
           "a" RunStatusRunning "" eq_refl).
Defined.

Lemma runs_table_invariant_witness :
  let d := ex_db "" [ex_run "a" RunStatusQueued "" [] 5] in
  runs_wf (@SaveRunWithStatus counter_ids "p" TriggerTypeManual "" TriggerInput.empty
             "" RunStatusRunning "" d).2.
Proof.
  eapply (@runs_table_invariant counter_ids stable_order _ "p" TriggerTypeManual ""
           TriggerInput.empty "" RunStatusRunning "" "a" 1 None).
  apply map_Forall_singleton. split; [done|]. by split.
Defined.

Lemma PruneRunsByPipeline_retention_witness :
  let d := ex_db "" [ex_run "a" RunStatusSuccess "" [] 5;
                     ex_run "b" RunStatusSuccess "" [] 7] in
  length (select_runs (fun r => bool_decide (PipelineID r = "p"))
    (@PruneRunsByPipeline stable_order "p" 1 None d).2) <= 1 /\
  db_runs (@PruneRunsByPipeline stable_order "p" 1 None d).2 !! "a" = None.
Proof.
  split; [|vm_compute; reflexivity].
  eapply (@PruneRunsByPipeline_retention stable_order
    (ex_db "" [ex_run "a" RunStatusSuccess "" [] 5;
               ex_run "b" RunStatusSuccess "" [] 7]) "p" 1); [done| |lia].
  repeat (apply map_Forall_insert_2; [done|]). apply map_Forall_empty.
Defined.

Lemma GetMostRecentJobRun_newest_witness :
  exists res, @GetMostRecentJobRun stable_order "p" "build"
    (ex_db "" [ex_run "a" RunStatusSuccess "" ["build"] 5;
               ex_run "b" RunStatusFailed "" ["build"] 7]) =
    (Ok (Some res), ex_db "" [ex_run "a" RunStatusSuccess "" ["build"] 5;
               ex_run "b" RunStatusFailed "" ["build"] 7]) /\
    PipelineRun.ID res = "b".
Proof.
  destruct (@GetMostRecentJobRun_newest stable_order
    (ex_db "" [ex_run "a" RunStatusSuccess "" ["build"] 5;
               ex_run "b" RunStatusFailed "" ["build"] 7]) "p" "build" eq_refl
    ltac:(discriminate)) as (res & Hres & _).
  revert Hres. vm_compute. intros _. eexists. by split.
Defined.
