(* ===== verification/Paging.v ===== *)
(** * Pagination and search queries (storage/sqlite/driver.go)

    [paginatedSearch] and [GetAllPaginated] of tasks.go share the same page
    arithmetic on Go's 64-bit [int]; it is defined once here, with its
    wrap-around, and the pages are shown to tile the result set. *)
From S2P Require Import Prelude Storage Json Db GoStrings.
From Stdlib Require Import Ascii.
#[local] Open Scope Z_scope.

(** ** 64-bit integers *)
Definition int64_wrap (z : Z) : Z := (z + 2 ^ 63) `mod` 2 ^ 64 - 2 ^ 63.

Definition int64_ok (z : Z) : Prop := - 2 ^ 63 <= z < 2 ^ 63.

Lemma int64_wrap_id z : int64_ok z -> int64_wrap z = z.
Proof. unfold int64_wrap, int64_ok. intros. rewrite Z.mod_small; lia. Qed.

Lemma int64_wrap_range z : int64_ok (int64_wrap z).
Proof.
  unfold int64_wrap, int64_ok.
  pose proof (Z.mod_pos_bound (z + 2 ^ 63) (2 ^ 64)). lia.
Qed.

(** ** The page arithmetic *)
Definition clamp_page (page : Z) : Z := if page <? 1 then 1 else page.
Definition clamp_perPage (perPage : Z) : Z := if perPage <? 1 then 20 else perPage.
Definition page_offset (page perPage : Z) : Z :=
  int64_wrap (int64_wrap (page - 1) * perPage).
(** Go's [/] truncates towards zero. *)
Definition total_pages (totalItems perPage : Z) : Z :=
  Z.quot (int64_wrap (int64_wrap (totalItems + perPage) - 1)) perPage.

(** [LIMIT limit OFFSET offset] with a positive limit: a negative offset
    counts as zero. *)
Definition limit_offset {A} (limit offset : Z) (rows : list A) : list A :=
  take (Z.to_nat limit) (drop (Z.to_nat offset) rows).

Definition page_result {A} (page perPage total : Z) (items : list A)
    : PaginationResult.t A :=
  let totalPages := total_pages total perPage in
  PaginationResult.mk items page perPage total totalPages (page <? totalPages).

(** [sanitizeFTSQuery]: every white-space separated token becomes a quoted
    prefix term. The quote character is code 34. *)
Definition quote : ascii := ascii_of_nat 34.
Fixpoint Fields_aux (s : string) (cur : string) : list string :=
  match s with
  | EmptyString => if decide (cur = "") then [] else [cur]
  | String a s' =>
      if is_space a
      then (if decide (cur = "") then [] else [cur]) ++ Fields_aux s' ""
      else Fields_aux s' (cur +:+ String a "")
  end.
(** [strings.Fields] *)
Definition Fields (s : string) : list string := Fields_aux s "".

Definition sanitizeFTSQuery (q : string) : string :=
  Join ((fun w => String quote ""
                  +:+ ReplaceByte w quote (String quote (String quote ""))
                  +:+ String quote "*") <$> Fields q) " ".

(** The select and count statements are the two queries; the FTS variants
    restrict them to the rows that match the sanitised query. [fts] is the
    engine's MATCH operator. *)
Definition paginatedSearch {S T} (fts : string -> S -> bool)
    (select : db -> list S) (convert : S -> T) (page perPage : Z)
    (query_ : string) : ST db (PaginationResult.t T) :=
  let page := clamp_page page in
  let perPage := clamp_perPage perPage in
  let offset := page_offset page perPage in
  let sel d :=
    if decide (query_ = "") then select d
    else List.filter (fts (sanitizeFTSQuery query_)) (select d) in
  let! totalItems := wrap "failed to count results"
    (query (fun d => Z.of_nat (length (sel d)))) in
  let! rows := wrap "failed to query results"
    (query (fun d => limit_offset perPage offset (sel d))) in
  ret (page_result page perPage totalItems (convert <$> rows)).

(** ** Pages tile the rows *)
Definition page_of {A} (rows : list A) (perPage page : Z) : list A :=
  limit_offset perPage (page_offset page perPage) rows.

Lemma page_offset_exact page perPage :
  1 <= page -> 1 <= perPage -> page * perPage < 2 ^ 63 ->
  page_offset page perPage = (page - 1) * perPage.
Proof.
  intros. unfold page_offset. rewrite (int64_wrap_id (page - 1)).
  - apply int64_wrap_id. unfold int64_ok. nia.
  - unfold int64_ok. nia.
Qed.

Lemma total_pages_exact total perPage :
  0 <= total -> 1 <= perPage -> total + perPage < 2 ^ 63 ->
  total_pages total perPage = (total + perPage - 1) / perPage.
Proof.
  intros. unfold total_pages. rewrite (int64_wrap_id (total + perPage)) by (unfold int64_ok; lia).
  rewrite int64_wrap_id by (unfold int64_ok; lia). apply Z.quot_div_nonneg; lia.
Qed.

Lemma total_pages_bounds total perPage :
  0 <= total -> 1 <= perPage -> total + perPage < 2 ^ 63 ->
  let n := total_pages total perPage in
  0 <= n /\ total <= n * perPage < total + perPage.
Proof.
  cbv zeta. intros. rewrite total_pages_exact by done.
  pose proof (Z.div_mod (total + perPage - 1) perPage ltac:(lia)).
  pose proof (Z.mod_pos_bound (total + perPage - 1) perPage ltac:(lia)).
  pose proof (Z.div_pos (total + perPage - 1) perPage ltac:(lia) ltac:(lia)). nia.
Qed.

(** The first [n] pages are the first [n * perPage] rows. *)
Lemma pages_prefix {A} (rows : list A) perPage (n : nat) :
  1 <= perPage -> Z.of_nat n * perPage < 2 ^ 63 ->
  mjoin ((fun p => page_of rows perPage (Z.of_nat p)) <$> seq 1 n)
  = take (n * Z.to_nat perPage)%nat rows.
Proof.
  intros Hp. induction n as [|n IH]; intros Hn; [done|].
  rewrite seq_S, fmap_app, join_app, IH by lia. simpl. rewrite app_nil_r.
  unfold page_of, limit_offset. rewrite page_offset_exact by lia.
  replace (Z.to_nat ((Z.of_nat (S n) - 1) * perPage)) with (n * Z.to_nat perPage)%nat by nia.
  replace (Z.to_nat perPage + n * Z.to_nat perPage)%nat
    with (n * Z.to_nat perPage + Z.to_nat perPage)%nat by lia.
  by rewrite take_take_drop.
Qed.
