(* ===== verification/Sql.v ===== *)
(** * The SQL pattern operators used by the task queries

    [GLOB] and [LIKE ... ESCAPE '\'] as the SQL dialect documents them: a
    pattern is a list of wildcards and character tests, matched by one
    backtracking function. GLOB is case-sensitive and has character classes,
    LIKE folds ASCII case. *)
From S2P Require Import Prelude GoStrings.
From Stdlib Require Import Ascii String.
Open Scope string_scope.
#[local] Arguments String.append !_ _ / : simpl nomatch.

Inductive wild : Type :=
  | Star
  | Char (f : ascii -> bool).

Fixpoint wmatch (p : list wild) : string -> bool :=
  match p with
  | [] => fun s => match s with EmptyString => true | _ => false end
  | Char f :: p' => fun s =>
      match s with String a s' => f a && wmatch p' s' | EmptyString => false end
  | Star :: p' =>
      fix star (s : string) : bool :=
        wmatch p' s
        || match s with String _ s' => star s' | EmptyString => false end
  end.

Definition is_char (c a : ascii) : bool := Ascii.eqb c a.

(** ** GLOB *)
Inductive gmode : Type :=
  | GTop
  | GOpen (invert : bool)
  | GBody (invert : bool) (prior : option ascii) (f : ascii -> bool).

Definition either (f g : ascii -> bool) : ascii -> bool := fun a => f a || g a.
Definition in_range (lo hi : ascii) : ascii -> bool := fun a =>
  (lo <=? a)%char && (a <=? hi)%char.
Definition any_char : ascii -> bool := fun _ => true.
Definition no_char : ascii -> bool := fun _ => false.

(** An unterminated class matches nothing. *)
Fixpoint glob_tokens (m : gmode) (p : string) : option (list wild) :=
  match p with
  | EmptyString => match m with GTop => Some [] | _ => None end
  | String c p' =>
      match m with
      | GTop =>
          if Ascii.eqb c "*" then List.cons Star <$> glob_tokens GTop p'
          else if Ascii.eqb c "?" then List.cons (Char any_char) <$> glob_tokens GTop p'
          else if Ascii.eqb c "[" then glob_tokens (GOpen false) p'
          else List.cons (Char (is_char c)) <$> glob_tokens GTop p'
      | GOpen inv =>
          if Ascii.eqb c "^" && negb inv then glob_tokens (GOpen true) p'
          else if Ascii.eqb c "]" then glob_tokens (GBody inv None (is_char c)) p'
          else glob_tokens (GBody inv (Some c) (is_char c)) p'
      | GBody inv prior f =>
          if Ascii.eqb c "]" then
            List.cons (Char (fun a => xorb inv (f a))) <$> glob_tokens GTop p'
          else
            match prior, p' with
            | Some lo, String hi p'' =>
                if Ascii.eqb c "-" && negb (Ascii.eqb hi "]")
                then glob_tokens (GBody inv None (either f (in_range lo hi))) p''
                else glob_tokens (GBody inv (Some c) (either f (is_char c))) p'
            | _, _ => glob_tokens (GBody inv (Some c) (either f (is_char c))) p'
            end
      end
  end.

Definition GLOB (pattern s : string) : bool :=
  match glob_tokens GTop pattern with Some p => wmatch p s | None => false end.

(** ** LIKE with escape character [\] *)
Definition is_char_nocase (c a : ascii) : bool :=
  Ascii.eqb (to_lower_ascii c) (to_lower_ascii a).

Fixpoint like_tokens (p : string) : option (list wild) :=
  match p with
  | EmptyString => Some []
  | String c p' =>
      if Ascii.eqb c "\" then
        match p' with
        | String e p'' => List.cons (Char (is_char_nocase e)) <$> like_tokens p''
        | EmptyString => None
        end
      else if Ascii.eqb c "%" then List.cons Star <$> like_tokens p'
      else if Ascii.eqb c "_" then List.cons (Char any_char) <$> like_tokens p'
      else List.cons (Char (is_char_nocase c)) <$> like_tokens p'
  end.

Definition LIKE (s pattern : string) : bool :=
  match like_tokens pattern with Some p => wmatch p s | None => false end.

(** ** Facts *)
Definition glob_meta (c : ascii) : bool :=
  Ascii.eqb c "*" || Ascii.eqb c "?" || Ascii.eqb c "[".

Fixpoint all_chars (f : ascii -> bool) (s : string) : bool :=
  match s with
  | EmptyString => true
  | String a s' => f a && all_chars f s'
  end.

Definition glob_literal (s : string) : bool := all_chars (fun c => negb (glob_meta c)) s.

Lemma wmatch_star_nil s : wmatch [Star] s = true.
Proof. induction s as [|a s IH]; simpl in *; [done|]. by rewrite IH. Qed.

Lemma wmatch_star_iff p s :
  wmatch (Star :: p) s = true <-> exists a b, s = a ++ b /\ wmatch p b = true.
Proof.
  split.
  - induction s as [|c s IH]; simpl; rewrite orb_true_iff; intros [H|H]; try done.
    + by exists "", "".
    + by exists "", (String c s).
    + destruct IH as (a & b & -> & Hb); [exact H|]. by exists (String c a), b.
  - intros (a & b & -> & Hb). induction a as [|c a IH]; simpl.
    + destruct b; simpl; by rewrite Hb.
    + rewrite orb_true_iff. right. exact IH.
Qed.

Lemma glob_tokens_prefix p :
  glob_literal p = true ->
  glob_tokens GTop (p ++ "*") = Some (map (fun c => Char (is_char c)) (list_ascii_of_string p) ++ [Star])%list.
Proof.
  induction p as [|c p IH]; [done|]. unfold glob_literal in *. simpl.
  unfold glob_meta. rewrite !negb_orb, !andb_true_iff, !negb_true_iff.
  intros [[[-> ->] ->] Hp]. by rewrite IH.
Qed.

(** A literal prefix followed by a star is a prefix test. *)
Lemma GLOB_prefix p s :
  glob_literal p = true -> GLOB (p ++ "*") s = HasPrefix s p.
Proof.
  intros Hp. unfold GLOB. rewrite glob_tokens_prefix by done. clear Hp.
  unfold HasPrefix. revert s. induction p as [|c p IH]; intros s; simpl.
  - pose proof (wmatch_star_nil s) as Hs. simpl in Hs. rewrite Hs. by destruct s.
  - destruct s as [|a s]; [done|]. unfold is_char at 1. simpl.
    destruct (Ascii.eqb_spec c a) as [->|Hne]; simpl.
    + rewrite IH. by destruct (ascii_dec a a).
    + by destruct (ascii_dec c a).
Qed.

Fixpoint same_nocase (s t : string) : bool :=
  match s, t with
  | EmptyString, EmptyString => true
  | String a s', String b t' => is_char_nocase a b && same_nocase s' t'
  | _, _ => false
  end.

Lemma same_nocase_ToLower s t : same_nocase s t = true <-> ToLower s = ToLower t.
Proof.
  revert t. induction s as [|a s IH]; intros [|b t]; simpl; try done.
  rewrite andb_true_iff, IH. unfold is_char_nocase. rewrite Ascii.eqb_eq.
  split; [intros [-> ->]; done|by intros [= -> ->]].
Qed.

Lemma wmatch_nocase l s :
  wmatch (map (fun c => Char (is_char_nocase c)) (list_ascii_of_string l)) s
  = same_nocase l s.
Proof.
  revert s. induction l as [|a l IH]; intros [|b s]; simpl; try done.
  by rewrite IH.
Qed.
