(* ===== verification/Tasks.v ===== *)
(** * Task rows (storage/sqlite/tasks.go)

    The [tasks] table holds one JSON payload per path, with five fields
    promoted to columns. The namespace of the driver prefixes every path: it is
    empty for the server and the pipeline's name for the CLI. *)
From S2P Require Import Prelude Storage Json Db GoStrings Sql Paging.
From Stdlib Require Import Ascii.
Open Scope string_scope.
#[local] Arguments String.append !_ _ / : simpl nomatch.

(** The text SQLite stores when a JSON value that is not a string goes to a
    TEXT column. *)
Class JsonText : Type := json_text : json -> string.

Definition knownSQLiteColumns : list string :=
  ["elapsed"; "error_message"; "error_type"; "started_at"; "status"].

(** [sort.SearchStrings]: the smallest index whose element is not below the
    one searched, by bisection between [lo] and [hi]. *)
Fixpoint SearchStrings (fuel : nat) (a : list string) (x : string) (lo hi : nat)
    : nat :=
  match fuel with
  | O => lo
  | S fuel' =>
      if (lo <? hi)%nat then
        let h := ((lo + hi) / 2)%nat in
        if bool_decide (String.compare (default "" (a !! h)) x = Lt)
        then SearchStrings fuel' a x (S h) hi
        else SearchStrings fuel' a x lo h
      else lo
  end.

Definition isKnownColumn (field : string) : bool :=
  let n := length knownSQLiteColumns in
  let i := SearchStrings (S n) knownSQLiteColumns field 0 n in
  (i <? n)%nat && bool_decide (knownSQLiteColumns !! i = Some field).

Fixpoint runID_of_parts (parts : list string) : string :=
  match parts with
  | [] => ""
  | p :: rest =>
      match rest with
      | next :: _ => if decide (p = "pipeline") then next else runID_of_parts rest
      | [] => ""
      end
  end.
Definition extractRunID (path : string) : string :=
  runID_of_parts (Split path "/").

Definition escapeLike (s : string) : string :=
  let s := ReplaceByte s "\" "\\" in
  let s := ReplaceByte s "%" "\%" in
  ReplaceByte s "_" "\_".

Module Result.
Record t := mk { ID : Z; Path : string; Payload : list (string * json) }.
End Result.

(** [s.namespace] *)
Class Namespace : Type := namespace : string.

Section tasks.
Context `{!Namespace, !OrderBy, !JsonText}.

(** [json_extract(payload, '$.k')] stored in a TEXT column. *)
Definition column (k : string) (payload : json) : option string :=
  match json_extract k payload with
  | Some (JStr s) => Some s
  | Some v => Some (json_text v)
  | None => None
  end.

Definition task_path (prefix : string) : string :=
  Clean ("/" ++ namespace ++ "/" ++ prefix).

Definition insert_task (path runID : string) (contents : json) (d : db) : db :=
  let id := (db_tasks_seq d + 1)%Z in
  set_tasks_seq id (set_tasks (insert path (taskRow.mk id
    (if decide (runID = "") then None else Some runID)
    (column "status" contents) (column "started_at" contents)
    (column "elapsed" contents) (column "error_message" contents)
    (column "error_type" contents) contents)) d).

(** [COALESCE(excluded, tasks)] *)
Definition coalesce (a b : option string) : option string :=
  match a with Some _ => a | None => b end.

Definition merge_task (contents : json) (t : taskRow.t) : taskRow.t :=
  taskRow.mk (taskRow.ID t) (taskRow.run_id t)
    (coalesce (column "status" contents) (taskRow.status t))
    (coalesce (column "started_at" contents) (taskRow.started_at t))
    (coalesce (column "elapsed" contents) (taskRow.elapsed t))
    (coalesce (column "error_message" contents) (taskRow.error_message t))
    (coalesce (column "error_type" contents) (taskRow.error_type t))
    (jsonb_patch (taskRow.payload t) contents).

Definition upsert_task (path runID : string) (contents : json) (d : db) : db :=
  match db_tasks d !! path with
  | Some t => set_tasks (insert path (merge_task contents t)) d
  | None => insert_task path runID contents d
  end.

(** The last two statements refresh the full-text index. *)
Definition Set_ (prefix : string) (contents : json) : ST db unit :=
  let path := task_path prefix in
  let runID := extractRunID path in
  wrap "failed to insert task" (update (upsert_task path runID contents)) ;;;
  wrap "failed to clear data_fts" (update id) ;;;
  wrap "failed to index data_fts" (update id).

Definition Get (prefix : string) : ST db json :=
  let path := task_path prefix in
  let! row := wrap "failed to get task" (query (fun d => db_tasks d !! path)) in
  match row with
  | Some t => ret (taskRow.payload t)
  | None => fail (ESentinel SNotFound)
  end.

(** The select list: the whole payload for ["*"], else one column per field.
    The field names the program passes are plain identifiers. *)
Definition known_column_value (field : string) (t : taskRow.t) : option string :=
  if decide (field = "elapsed") then taskRow.elapsed t
  else if decide (field = "error_message") then taskRow.error_message t
  else if decide (field = "error_type") then taskRow.error_type t
  else if decide (field = "started_at") then taskRow.started_at t
  else taskRow.status t.

Definition select_field (t : taskRow.t) (field : string) : string * json :=
  (field,
   if isKnownColumn field
   then match known_column_value field t with Some s => JStr s | None => JNull end
   else default JNull (json_extract field (taskRow.payload t))).

Definition default_fields (fs : list string) : list string :=
  if decide (fs = []) then ["status"] else fs.

Definition select_payload (fs : list string) (t : taskRow.t)
    : list (string * json) :=
  if decide (fs = ["*"]) then fields (taskRow.payload t)
  else select_field t <$> fs.

Definition to_result (fs : list string) (row : string * taskRow.t) : Result.t :=
  Result.mk (taskRow.ID row.2) row.1 (select_payload fs row.2).

(** [FROM tasks WHERE path GLOB pattern ORDER BY id ASC] *)
Definition glob_rows (pattern : string) (d : db) : list (string * taskRow.t) :=
  order_by (fun row => taskRow.ID row.2)
    (List.filter (fun row => GLOB pattern row.1) (map_to_list (db_tasks d))).

Definition GetAll (prefix : string) (fs : list string)
    : ST db (list Result.t) :=
  let fs := default_fields fs in
  let path := task_path prefix in
  wrap "could not select"
    (query (fun d => to_result fs <$> glob_rows (path ++ "*") d)).

Definition GetAllPaginated (prefix : string) (fs : list string)
    (page perPage : Z) : ST db (PaginationResult.t Result.t) :=
  let page := clamp_page page in
  let perPage := clamp_perPage perPage in
  let fs := default_fields fs in
  let globPath := task_path prefix ++ "*" in
  let offset := page_offset page perPage in
  let! totalItems := wrap "could not count tasks"
    (query (fun d => Z.of_nat (length (glob_rows globPath d)))) in
  let! results := wrap "could not select tasks"
    (query (fun d => to_result fs <$> limit_offset perPage offset (glob_rows globPath d))) in
  ret (page_result page perPage totalItems results).

(** [status IN (...)]: NULL is in no list. *)
Definition status_in (l : list string) (t : taskRow.t) : bool :=
  match taskRow.status t with Some s => bool_decide (s ∈ l) | None => false end.

Definition with_task_status (s : string) (t : taskRow.t) : taskRow.t :=
  taskRow.mk (taskRow.ID t) (taskRow.run_id t) (Some s) (taskRow.started_at t)
    (taskRow.elapsed t) (taskRow.error_message t) (taskRow.error_type t)
    (jsonb_patch (taskRow.payload t) (JObj [("status", JStr s)])).

Definition UpdateStatusForPrefix (prefix : string) (matchStatuses : list string)
    (newStatus : string) : ST db unit :=
  if decide (matchStatuses = []) then ret tt
  else
    let path := task_path prefix in
    wrap "failed to update task statuses for prefix"
      (update (set_tasks (map_imap (fun p t => Some
        (if status_in matchStatuses t && GLOB (path ++ "*") p
         then with_task_status newStatus t else t))))).

(** [status NOT IN ('skipped', 'pending')]: NULL is excluded too. *)
Definition finished_status (t : taskRow.t) : bool :=
  match taskRow.status t with
  | Some s => negb (bool_decide (s ∈ ["skipped"; "pending"]))
  | None => false
  end.

Definition of_pipeline (pipelineID : string) (d : db) (t : taskRow.t) : bool :=
  match taskRow.run_id t ≫= (fun id => db_runs d !! id) with
  | Some r => bool_decide (pipelineRunScan.PipelineID r = pipelineID)
  | None => false
  end.

Definition job_row_matches (pipelineID jobName : string) (d : db)
    (row : string * taskRow.t) : bool :=
  let escaped := escapeLike jobName in
  (if bool_decide (namespace = "") then
     of_pipeline pipelineID d row.2 && LIKE row.1 ("%/jobs/" ++ escaped)
   else LIKE row.1 ("/" ++ namespace ++ "/pipeline/%/jobs/" ++ escaped))
  && finished_status row.2.

Definition latest_first (rows : list (string * taskRow.t))
    : list (string * taskRow.t) :=
  order_by (fun row => (- taskRow.ID row.2)%Z) rows.

Definition GetMostRecentJobStatus (pipelineID jobName : string) : ST db string :=
  wrap "failed to get most recent job status" (query (fun d =>
    match head (latest_first (List.filter (job_row_matches pipelineID jobName d)
                   (map_to_list (db_tasks d)))) with
    | Some row => default "" (taskRow.status row.2)
    | None => ""
    end)).
End tasks.

(** ** Facts *)

Lemma isKnownColumn_spec field :
  isKnownColumn field = true <-> field ∈ knownSQLiteColumns.
Proof.
  unfold isKnownColumn. rewrite andb_true_iff, bool_decide_eq_true. split.
  - intros [_ H]. by eapply list_elem_of_lookup_2.
  - intros Hin. unfold knownSQLiteColumns in Hin.
    repeat (apply elem_of_cons in Hin as [->|Hin]; [by vm_compute|]).
    by apply elem_of_nil in Hin.
Qed.

Section tasks_facts.
Context `{!Namespace, !OrderBy, !JsonText}.

Lemma Set_no_faults prefix contents d :
  db_faults d = [] ->
  Set_ prefix contents d =
    (Ok tt, upsert_task (task_path prefix) (extractRunID (task_path prefix)) contents d).
Proof.
  intros Hf. unfold Set_. autounfold with go_monad.
  assert (Hu : forall f d, db_faults d = [] -> update f d = (Ok tt, f d)) by apply update_no_faults.
  rewrite Hu by done. rewrite Hu; [rewrite Hu; [done|]|];
    unfold upsert_task; by case_match.
Qed.

Lemma lookup_upsert_task path runID contents d :
  exists t, db_tasks (upsert_task path runID contents d) !! path = Some t /\
    taskRow.payload t =
      match db_tasks d !! path with
      | Some old => jsonb_patch (taskRow.payload old) contents
      | None => contents
      end.
Proof.
  unfold upsert_task. destruct (db_tasks d !! path) eqn:E; simpl;
    eexists; by rewrite lookup_insert_eq.
Qed.

Lemma lookup_upsert_task_ne path path' runID contents d :
  path' <> path ->
  db_tasks (upsert_task path runID contents d) !! path' = db_tasks d !! path'.
Proof.
  intros Hne. unfold upsert_task. case_match; simpl; by rewrite lookup_insert_ne.
Qed.

Lemma Get_no_faults prefix d :
  db_faults d = [] ->
  Get prefix d =
    (match db_tasks d !! task_path prefix with
     | Some t => Ok (taskRow.payload t) | None => Err (ESentinel SNotFound) end, d).
Proof.
  intros Hf. unfold Get. autounfold with go_monad. rewrite query_no_faults by done.
  by case_match.
Qed.

Lemma upsert_task_faults path runID contents d :
  db_faults (upsert_task path runID contents d) = db_faults d.
Proof. unfold upsert_task. by case_match. Qed.

(** ** Updating by prefix *)
Lemma lookup_UpdateStatusForPrefix prefix l s d path :
  db_faults d = [] ->
  db_tasks (UpdateStatusForPrefix prefix l s d).2 !! path =
  (fun t => if status_in l t && GLOB (task_path prefix ++ "*") path
            then with_task_status s t else t) <$> db_tasks d !! path.
Proof.
  intros Hf. unfold UpdateStatusForPrefix. case_decide as Hl.
  - subst l. simpl. destruct (db_tasks d !! path) as [t|]; simpl; [|done].
    unfold status_in. destruct (taskRow.status t); [|done].
    rewrite bool_decide_false by set_solver. done.
  - unfold wrap. rewrite update_no_faults by done. simpl. rewrite map_lookup_imap.
    by destruct (db_tasks d !! path).
Qed.
End tasks_facts.

(** ** Paths of a run *)

(** Path components as the program builds them: not empty, no separator, not a
    dot element, no pattern character. *)
Definition plain_char (c : ascii) : bool :=
  negb (Ascii.eqb c "/") && negb (Ascii.eqb c ".") && negb (glob_meta c).
Definition plain (s : string) : bool :=
  negb (bool_decide (s = "")) && all_chars plain_char s.

Lemma Split_plain s t :
  all_chars plain_char s = true -> Split (s ++ String "/" t) "/" = s :: Split t "/".
Proof.
  induction s as [|a s IH]; [done|]. simpl. intros [Ha Hs]%andb_true_iff.
  unfold plain_char in Ha. rewrite !andb_true_iff, !negb_true_iff in Ha.
  destruct Ha as [[-> _] _]. by rewrite IH.
Qed.

Lemma Split_plain_end s : all_chars plain_char s = true -> Split s "/" = [s].
Proof.
  induction s as [|a s IH]; [done|]. simpl. intros [Ha Hs]%andb_true_iff.
  unfold plain_char in Ha. rewrite !andb_true_iff, !negb_true_iff in Ha.
  destruct Ha as [[-> _] _]. by rewrite IH.
Qed.

Lemma plain_not_special s : plain s = true -> s <> "" /\ s <> "." /\ s <> "..".
Proof.
  unfold plain. rewrite andb_true_iff, negb_true_iff, bool_decide_eq_false.
  intros [? H]. split; [done|]. split; intros ->; discriminate.
Qed.

Lemma clean_step_plain rooted stack s :
  plain s = true -> clean_step rooted stack s = s :: stack.
Proof.
  intros (?&?&?)%plain_not_special. unfold clean_step.
  by rewrite decide_False by naive_solver; rewrite decide_False.
Qed.

Section run_paths.
Context `{!Namespace, !OrderBy, !JsonText}.
Context (Hns : namespace = "").

Lemma task_path_run runID :
  plain runID = true -> task_path ("/pipeline/" ++ runID ++ "/") = "/pipeline/" ++ runID.
Proof.
  intros Hp. assert (Hall : all_chars plain_char runID = true)
    by (by apply andb_true_iff in Hp as [_ ?]).
  unfold task_path, Clean. rewrite Hns. rewrite decide_False by discriminate. simpl.
  unfold clean_parts. simpl. rewrite (Split_plain runID "" Hall). simpl.
  rewrite (clean_step_plain true _ runID Hp).  done.
Qed.

Lemma pipeline_prefix_literal runID :
  plain runID = true -> glob_literal ("/pipeline/" ++ runID) = true.
Proof.
  intros [_ Hp]%andb_true_iff. unfold glob_literal. simpl.
  induction runID as [|a s IH]; [done|]. simpl in *.
  apply andb_true_iff in Hp as [Ha Hs]. rewrite IH by done.
  unfold plain_char in Ha. rewrite !andb_true_iff in Ha. by destruct Ha as [_ ->].
Qed.
End run_paths.

(** Every task row is the row of one run under that run's directory, and run
    ids have one length (nanoid draws a fixed number of characters). *)
Definition run_row (n : nat) (path : string) (t : taskRow.t) : Prop :=
  exists id rest, taskRow.run_id t = Some id /\ String.length id = n /\
    path = "/pipeline/" ++ id ++ rest.
Definition run_rows_ok (n : nat) (d : db) : Prop := map_Forall (run_row n) (db_tasks d).

Lemma append_same_length s1 t1 s2 t2 :
  String.length s1 = String.length s2 -> s1 ++ t1 = s2 ++ t2 -> s1 = s2.
Proof.
  revert s2. induction s1 as [|a s1 IH]; intros [|b s2]; simpl; try done.
  intros [= Hl] [= -> Ht]. f_equal. by eapply IH.
Qed.

Lemma run_row_prefix n path t runID :
  run_row n path t -> String.length runID = n ->
  HasPrefix path ("/pipeline/" ++ runID) = bool_decide (taskRow.run_id t = Some runID).
Proof.
  intros (id & rest & Hid & Hlen & ->) Hn. rewrite Hid. case_bool_decide as He.
  - simplify_eq. change ("/pipeline/" ++ runID ++ rest) with (("/pipeline/" ++ runID) ++ rest).
    apply HasPrefix_append.
  - apply not_true_is_false. intros (t' & Ht')%HasPrefix_inv.
    change (("/pipeline/" ++ runID) ++ t') with ("/pipeline/" ++ (runID ++ t')) in Ht'.
    apply append_inj_r, append_same_length in Ht'; [|congruence]. congruence.
Qed.

(** ** Job names in LIKE patterns *)
Lemma ReplaceByte_append s1 s2 c new :
  ReplaceByte (s1 ++ s2) c new = ReplaceByte s1 c new ++ ReplaceByte s2 c new.
Proof.
  induction s1 as [|a s1 IH]; simpl; [done|]. by rewrite IH, append_assoc.
Qed.

Lemma like_tokens_escape s :
  like_tokens (escapeLike s)
  = Some (map (fun c => Char (is_char_nocase c)) (String.list_ascii_of_string s)).
Proof.
  unfold escapeLike. induction s as [|a s IH]; [done|].
  change (String a s) with (String a "" ++ s). rewrite !ReplaceByte_append.
  simpl (ReplaceByte (String a "") _ _).
  destruct (Ascii.eqb_spec a "\") as [->|H1]; [simpl; by rewrite IH|].
  destruct (Ascii.eqb_spec a "%") as [->|H2]; [simpl; by rewrite IH|].
  destruct (Ascii.eqb_spec a "_") as [->|H3]; [simpl; by rewrite IH|].
  simpl. apply Ascii.eqb_neq in H1, H2, H3. rewrite ?H1, ?H2, ?H3. simpl.
  rewrite ?H1, ?H2, ?H3. simpl. rewrite ?H1, ?H2, ?H3. by rewrite IH.
Qed.

(** [path] ends with [/jobs/<job>], up to ASCII case. *)
Definition job_path (job path : string) : Prop :=
  exists pre suf, path = pre ++ suf /\ ToLower suf = ToLower ("/jobs/" ++ job).

Lemma LIKE_job_path job path :
  LIKE path ("%/jobs/" ++ escapeLike job) = true <-> job_path job path.
Proof.
  unfold LIKE. assert (Ht : like_tokens ("%/jobs/" ++ escapeLike job) =
    Some (Star :: map (fun c => Char (is_char_nocase c))
            (String.list_ascii_of_string ("/jobs/" ++ job)))).
  { simpl. by rewrite like_tokens_escape. }
  rewrite Ht, wmatch_star_iff. unfold job_path.
  split; intros (pre & suf & -> & H); exists pre, suf; split; try done.
  - rewrite wmatch_nocase in H. symmetry. by apply same_nocase_ToLower.
  - rewrite wmatch_nocase. by apply same_nocase_ToLower.
Qed.

(** ** Columns agree with payloads *)

(** A promoted field of a written payload is absent or a scalar. *)
Definition scalar (v : json) : Prop :=
  match v with JBool _ | JNum _ | JStr _ => True | _ => False end.
Definition promoted_ok (contents : json) : Prop :=
  exists ps, contents = JObj ps /\ NoDup ps.*1 /\
    forall k v, k ∈ knownSQLiteColumns -> get_field k ps = Some v -> scalar v.

Section coherent.
Context `{!Namespace, !OrderBy, !JsonText}.

Definition task_coherent (t : taskRow.t) : Prop :=
  forall k, k ∈ knownSQLiteColumns ->
    known_column_value k t = column k (taskRow.payload t).
Definition tasks_coherent (d : db) : Prop :=
  map_Forall (fun _ => task_coherent) (db_tasks d).

Lemma column_patch k contents j :
  promoted_ok contents -> k ∈ knownSQLiteColumns ->
  column k (jsonb_patch j contents) = coalesce (column k contents) (column k j).
Proof.
  intros (ps & -> & Hnd & Hsc) Hk. rewrite jsonb_patch_obj.
  unfold column, json_extract. simpl. rewrite get_patch_fields by done.
  destruct (get_field k ps) as [v|] eqn:E; [|done].
  specialize (Hsc k v Hk E). by destruct v.
Qed.

Lemma known_columns_cases (P : string -> Prop) :
  P "elapsed" -> P "error_message" -> P "error_type" -> P "started_at" ->
  P "status" -> forall k, k ∈ knownSQLiteColumns -> P k.
Proof.
  intros ????? k Hk. unfold knownSQLiteColumns in Hk.
  repeat (apply elem_of_cons in Hk as [->|Hk]; [done|]).
  by apply elem_of_nil in Hk.
Qed.

Lemma merge_task_coherent contents t :
  promoted_ok contents -> task_coherent t -> task_coherent (merge_task contents t).
Proof.
  intros Hok Ht k Hk. simpl taskRow.payload.
  rewrite column_patch by done. rewrite <- (Ht k Hk).
  revert k Hk. by apply (known_columns_cases (fun k => _ = _)).
Qed.

Lemma upsert_task_coherent path runID contents d :
  promoted_ok contents -> tasks_coherent d ->
  tasks_coherent (upsert_task path runID contents d).
Proof.
  intros Hok Hd. unfold upsert_task. destruct (db_tasks d !! path) as [t|] eqn:E; simpl.
  - apply map_Forall_insert_2; [|done]. apply merge_task_coherent; [done|]. by apply (Hd path).
  - apply map_Forall_insert_2; [|done]. unfold task_coherent.
    by apply (known_columns_cases (fun k => _ = _)).
Qed.

Lemma with_task_status_coherent s t :
  task_coherent t -> task_coherent (with_task_status s t).
Proof.
  intros Ht k Hk. change (taskRow.payload (with_task_status s t))
    with (jsonb_patch (taskRow.payload t) (JObj [("status", JStr s)])).
  destruct (decide (k = "status")) as [->|Hne]; unfold column.
  - by rewrite extract_patch_status.
  - unfold json_extract.
    rewrite get_patch_status by done. specialize (Ht k Hk).
    unfold column, json_extract in Ht. rewrite <- Ht.
    clear Ht. revert k Hk Hne.
    by apply (known_columns_cases (fun k => k <> "status" -> _ = _)).
Qed.

Definition keeps_coherent (d d' : db) : Prop := tasks_coherent d -> tasks_coherent d'.
#[export] Instance keeps_coherent_preorder : PreOrder keeps_coherent.
Proof. split; unfold keeps_coherent, Reflexive, Transitive; eauto. Qed.
#[export] Instance keeps_coherent_faults : FaultInsensitive keeps_coherent.
Proof. intros d fs Hc. exact Hc. Qed.

Lemma Set_keeps_coherent prefix contents :
  promoted_ok contents -> preserves keeps_coherent (Set_ prefix contents).
Proof.
  intros Hok. unfold Set_.
  assert (Hid : preserves keeps_coherent (update id)) by (by apply preserves_update; [apply _..|]).
  apply preserves_bind; [apply _| |intros _; apply preserves_bind; [apply _| |intros _]];
    apply preserves_wrap; try exact Hid.
  apply preserves_update; [apply _..|]. intros d Hd. by apply upsert_task_coherent.
Qed.

Lemma UpdateStatus_keeps_coherent prefix l s :
  preserves keeps_coherent (UpdateStatusForPrefix prefix l s).
Proof.
  unfold UpdateStatusForPrefix. case_decide; [by apply preserves_ret|].
  apply preserves_wrap, preserves_update; [apply _..|].
  intros d Hd path t. simpl. rewrite map_lookup_imap.
  destruct (db_tasks d !! path) as [t0|] eqn:E; simpl; [|done]. intros [= <-].
  specialize (Hd path t0 E). case_match; [by apply with_task_status_coherent|done].
Qed.
End coherent.

Lemma status_in_iff a b t :
  status_in [a; b] t = bool_decide (taskRow.status t = Some a \/ taskRow.status t = Some b).
Proof.
  unfold status_in. destruct (taskRow.status t) as [s|].
  - apply bool_decide_ext. set_solver.
  - by rewrite bool_decide_false by naive_solver.
Qed.

(** ** Pages *)
Section pages.
Context `{!Namespace, !OrderBy, !JsonText}.

Lemma GetAllPaginated_no_faults prefix fs page perPage d :
  db_faults d = [] -> (1 <= page)%Z -> (1 <= perPage)%Z ->
  GetAllPaginated prefix fs page perPage d =
    (let rows := glob_rows (task_path prefix ++ "*") d in
     Ok (page_result page perPage (Z.of_nat (length rows))
           (to_result (default_fields fs) <$> page_of rows perPage page)), d).
Proof.
  intros Hf Hp Hpp. unfold GetAllPaginated, clamp_page, clamp_perPage.
  destruct (Z.ltb_spec page 1); [lia|]. destruct (Z.ltb_spec perPage 1); [lia|].
  autounfold with go_monad. rewrite query_no_faults by done.
  by rewrite query_no_faults.
Qed.

Lemma GetAll_no_faults prefix fs d :
  db_faults d = [] ->
  GetAll prefix fs d =
    (Ok (to_result (default_fields fs) <$> glob_rows (task_path prefix ++ "*") d), d).
Proof. intros Hf. unfold GetAll, wrap. by rewrite query_no_faults. Qed.

(** The items of one answered page. *)
Definition page_items (r : result (PaginationResult.t Result.t)) : list Result.t :=
  match r with Ok p => PaginationResult.Items p | Err _ => [] end.
End pages.

(** ** Properties *)

(** without a failing statement, writing a payload and reading the same
    path back gives the payload itself at a new path, and the merge patch of
    the old payload with the new one at a known path; every other path reads
    as before. *)
Theorem Set_Get_roundtrip `{!Namespace, !OrderBy, !JsonText}
    (d : db) prefix contents :
  db_faults d = [] ->
  let d' := (Set_ prefix contents d).2 in
  (Set_ prefix contents d).1 = Ok tt /\
  (Get prefix d').1 =
    Ok (match db_tasks d !! task_path prefix with
        | Some old => jsonb_patch (taskRow.payload old) contents
        | None => contents end) /\
  (forall other, task_path other <> task_path prefix ->
     (Get other d').1 = (Get other d).1).
Proof.
  intros Hf. rewrite Set_no_faults by done. simpl.
  assert (Hf' : db_faults (upsert_task (task_path prefix)
    (extractRunID (task_path prefix)) contents d) = []) by (by rewrite upsert_task_faults).
  split; [done|]. rewrite Get_no_faults by done. simpl.
  destruct (lookup_upsert_task (task_path prefix)
    (extractRunID (task_path prefix)) contents d) as (t & -> & Ht).
  split; [by rewrite Ht|]. intros other Hne. rewrite !Get_no_faults by done. simpl.
  by rewrite lookup_upsert_task_ne.
Qed.

(** aborting the tasks of a run, as the server does when it stops or
    recovers a run, sets the status of exactly the pending and running tasks
    of that run, in the column and in the payload, and touches no task of
    another run. *)
Theorem UpdateStatusForPrefix_own_run `{!Namespace, !OrderBy, !JsonText}
    (d : db) runID path t :
  namespace = "" -> db_faults d = [] -> plain runID = true ->
  run_rows_ok (String.length runID) d -> db_tasks d !! path = Some t ->
  let d' := (UpdateStatusForPrefix ("/pipeline/" ++ runID ++ "/")
               ["pending"; "running"] "aborted" d).2 in
  db_tasks d' !! path =
    Some (if bool_decide (taskRow.run_id t = Some runID)
             && bool_decide (taskRow.status t = Some "pending"
                             \/ taskRow.status t = Some "running")
          then with_task_status "aborted" t else t).
Proof.
  intros Hns Hf Hp Hrows Ht. cbv zeta.
  rewrite lookup_UpdateStatusForPrefix, Ht by done. cbn [fmap option_fmap option_map]. f_equal.
  rewrite (task_path_run Hns runID Hp).
  rewrite GLOB_prefix by (by apply pipeline_prefix_literal).
  rewrite (run_row_prefix _ _ _ _ (Hrows _ _ Ht) eq_refl), status_in_iff.
  by destruct (bool_decide (taskRow.run_id t = _)), (bool_decide (_ \/ _)).
Qed.

(** in server mode the last status of a job is that of the newest task
    row whose run belongs to the pipeline, whose path ends in [/jobs/<job>]
    up to ASCII case, and whose status is neither skipped nor pending; it is
    empty exactly when no row qualifies. *)
Theorem GetMostRecentJobStatus_newest `{!Namespace, !OrderBy, !JsonText}
    (d : db) pipelineID jobName :
  namespace = "" -> db_faults d = [] ->
  let qualifies path t :=
    db_tasks d !! path = Some t /\ job_path jobName path /\
    (exists run r, taskRow.run_id t = Some run /\ db_runs d !! run = Some r /\
       pipelineRunScan.PipelineID r = pipelineID) /\
    (exists s, taskRow.status t = Some s /\ s <> "skipped" /\ s <> "pending") in
  ((forall path t, ~ qualifies path t) /\
     GetMostRecentJobStatus pipelineID jobName d = (Ok "", d)) \/
  (exists path t s, qualifies path t /\ taskRow.status t = Some s /\
     GetMostRecentJobStatus pipelineID jobName d = (Ok s, d) /\
     forall path' t', qualifies path' t' -> (taskRow.ID t' <= taskRow.ID t)%Z).
Proof.
  intros Hns Hf q. unfold GetMostRecentJobStatus, wrap. rewrite query_no_faults by done.
  assert (Hq : forall path t,
    (path, t) ∈ List.filter (job_row_matches pipelineID jobName d)
                  (map_to_list (db_tasks d)) <-> q path t).
  { intros path t. rewrite list_elem_of_In, filter_In, <- list_elem_of_In.
    rewrite elem_of_map_to_list. unfold q, job_row_matches, of_pipeline, finished_status.
    rewrite Hns, bool_decide_true by done. cbn [fst snd].
    rewrite !andb_true_iff, LIKE_job_path.
    split.
    - intros (Ht & (Hp & Hj) & Hs). repeat split; try done.
      + destruct (taskRow.run_id t) as [run|]; simpl in Hp; [|done].
        destruct (db_runs d !! run) as [r|] eqn:E; [|done]. apply bool_decide_eq_true in Hp. eauto.
      + destruct (taskRow.status t) as [s|]; [|done]. exists s.
        rewrite negb_true_iff, bool_decide_eq_false in Hs. set_solver.
    - intros (Ht & Hj & (run & r & -> & Hr & Hp) & (s & -> & Hs)). simpl. rewrite Hr.
      rewrite bool_decide_true by done. rewrite bool_decide_false by set_solver. done. }
  unfold latest_first. set (rows := List.filter _ _) in *.
  destruct (head _) as [[path t]|] eqn:Hh.
  - right. apply head_order_by_min in Hh as [Hin Hmin].
    pose proof (proj1 (Hq path t) Hin) as Hqt.
    destruct Hqt as (Ht & Hj & Hr & (s & Hs & Hne)). exists path, t, s.
    split; [unfold q; eauto 10|]. split; [done|]. simpl. rewrite Hs. split; [done|].
    intros path' t' Hq'. apply Hq, Hmin in Hq'. simpl in Hq'. lia.
  - left. apply head_order_by_None in Hh. split; [|done].
    intros path t Hqt%Hq. rewrite Hh in Hqt. by apply elem_of_nil in Hqt.
Qed.

(** the promoted columns always agree with the payload: writing payloads
    whose promoted fields are absent or scalars and updating statuses by
    prefix both keep it, whichever statement fails. *)
Theorem tasks_columns_invariant `{!Namespace, !OrderBy, !JsonText}
    (d : db) prefix contents prefix' statuses newStatus :
  promoted_ok contents -> tasks_coherent d ->
  tasks_coherent (Set_ prefix contents d).2 /\
  tasks_coherent (UpdateStatusForPrefix prefix' statuses newStatus d).2.
Proof.
  intros Hok Hd. split.
  - by apply (Set_keeps_coherent prefix contents Hok d).
  - by apply (UpdateStatus_keeps_coherent prefix' statuses newStatus d).
Qed.

(** the pages of [GetAllPaginated] tile the answer of [GetAll]: with
    every page number up to TotalPages inside the 64-bit range, the items of
    pages 1 to TotalPages are, in order, all the rows, and HasNext holds
    exactly before the last page. *)
Theorem GetAllPaginated_tiles `{!Namespace, !OrderBy, !JsonText}
    (d : db) prefix fs perPage :
  db_faults d = [] -> (1 <= perPage)%Z ->
  let rows := glob_rows (task_path prefix ++ "*") d in
  let n := total_pages (Z.of_nat (length rows)) perPage in
  (Z.of_nat (length rows) + perPage < 2 ^ 63)%Z ->
  (GetAll prefix fs d).1 = Ok (mjoin ((fun p =>
     page_items (GetAllPaginated prefix fs (Z.of_nat p) perPage d).1)
       <$> seq 1 (Z.to_nat n))) /\
  forall p, (1 <= p)%Z -> exists r,
    (GetAllPaginated prefix fs p perPage d).1 = Ok r /\
    PaginationResult.TotalPages r = n /\
    PaginationResult.HasNext r = (p <? n)%Z.
Proof.
  intros Hf Hpp rows n Hlen.
  pose proof (total_pages_bounds (Z.of_nat (length rows)) perPage ltac:(lia) Hpp Hlen)
    as [Hn0 [Hn1 Hn2]]. fold n in Hn0, Hn1, Hn2.
  split.
  - rewrite GetAll_no_faults by done. simpl. f_equal. fold rows.
    transitivity (to_result (default_fields fs) <$>
      mjoin ((fun p => page_of rows perPage (Z.of_nat p)) <$> seq 1 (Z.to_nat n))).
    { rewrite pages_prefix; [|done|lia]. rewrite take_ge; [done|nia]. }
    rewrite fmap_mjoin, <- list_fmap_compose. f_equal.
    apply list_fmap_ext. intros i p Hp%lookup_seq.
    rewrite GetAllPaginated_no_faults by (done || lia). done.
  - intros p Hp. rewrite GetAllPaginated_no_faults by done. by eexists.
Qed.

(** ** Witnesses *)
Definition ex_ns : Namespace := "".
Definition ex_text : JsonText := fun _ => "".
Definition ex_payload (st : string) : json :=
  JObj [("status", JStr st); ("elapsed", JStr "1s")].
Definition ex_task (id : Z) (run st : string) : taskRow.t :=
  taskRow.mk id (Some run) (Some st) None (Some "1s") None None (ex_payload st).
Definition ex_tasks : gmap string taskRow.t :=
  <["/pipeline/r1/jobs/build" := ex_task 1 "r1" "success"]>
    (<["/pipeline/r1/jobs/build/0/tasks/t" := ex_task 2 "r1" "running"]>
      {["/pipeline/r2/jobs/build" := ex_task 3 "r2" "running"]}).
Definition ex_run_of (id pid : string) : pipelineRunScan.t :=
  pipelineRunScan.mk id pid RunStatusRunning (Some 5%Z) None None TriggerTypeManual
    "" TriggerInput.empty "" 4%Z.
Definition ex_tasks_db : db :=
  set_runs (fun _ => list_to_map [("r1", ex_run_of "r1" "p1"); ("r2", ex_run_of "r2" "p2")])
    (set_tasks (fun _ => ex_tasks) (set_tasks_seq 3 empty_db)).
#[local] Existing Instances ex_ns ex_text stable_order.

Lemma Set_Get_roundtrip_witness :
  (Get "pipeline/r1/jobs/build/"
    (Set_ "/pipeline/r1/jobs/build" (JObj [("status", JStr "failure")]) ex_tasks_db).2).1
  = Ok (JObj [("status", JStr "failure"); ("elapsed", JStr "1s")]).
Proof.
  destruct (Set_Get_roundtrip ex_tasks_db "/pipeline/r1/jobs/build"
    (JObj [("status", JStr "failure")]) eq_refl) as (_ & H & _). exact H.
Defined.

Lemma ex_run_rows_ok : run_rows_ok 2 ex_tasks_db.
Proof.
  change (map_Forall (run_row 2) ex_tasks).
  apply map_Forall_insert_2; [|apply map_Forall_insert_2; [|apply map_Forall_singleton]];
    eexists _, _; (split; [reflexivity|]); (split; [reflexivity|]); reflexivity.
Qed.

Lemma UpdateStatusForPrefix_own_run_witness :
  let d' := (UpdateStatusForPrefix "/pipeline/r1/" ["pending"; "running"] "aborted"
               ex_tasks_db).2 in
  db_tasks d' !! "/pipeline/r1/jobs/build/0/tasks/t"
    = Some (with_task_status "aborted" (ex_task 2 "r1" "running")) /\
  db_tasks d' !! "/pipeline/r2/jobs/build" = Some (ex_task 3 "r2" "running").
Proof.
  split.
  - apply (UpdateStatusForPrefix_own_run ex_tasks_db "r1"
      "/pipeline/r1/jobs/build/0/tasks/t" (ex_task 2 "r1" "running"));
      [reflexivity..|exact ex_run_rows_ok|reflexivity].
  - apply (UpdateStatusForPrefix_own_run ex_tasks_db "r1"
      "/pipeline/r2/jobs/build" (ex_task 3 "r2" "running"));
      [reflexivity..|exact ex_run_rows_ok|reflexivity].
Defined.

Lemma GetMostRecentJobStatus_newest_witness :
  GetMostRecentJobStatus "p2" "Build" ex_tasks_db = (Ok "running", ex_tasks_db).
Proof.
  destruct (GetMostRecentJobStatus_newest ex_tasks_db "p2" "Build" eq_refl eq_refl)
    as [[_ H]|(path & t & s & _ & _ & H & _)].
  - exfalso. vm_compute in H. discriminate.
  - pose proof H as Hs. vm_compute in Hs. injection Hs as <-. exact H.
Defined.

Lemma ex_tasks_coherent : tasks_coherent ex_tasks_db.
Proof.
  change (map_Forall (fun _ => task_coherent) ex_tasks).
  apply map_Forall_insert_2; [|apply map_Forall_insert_2; [|apply map_Forall_singleton]];
    intros k Hk; revert k Hk;
    apply (known_columns_cases (fun k => _ = _)); reflexivity.
Qed.

Lemma ex_promoted_ok : promoted_ok (JObj [("status", JStr "failure")]).
Proof.
  eexists. split; [reflexivity|]. split; [apply NoDup_singleton|].
  intros k v _. simpl. case_decide; [|done]. by intros [= <-].
Qed.

Lemma tasks_columns_invariant_witness :
  tasks_coherent
    (Set_ "/pipeline/r1/jobs/build" (JObj [("status", JStr "failure")]) ex_tasks_db).2.
Proof.
  exact (proj1 (tasks_columns_invariant ex_tasks_db "/pipeline/r1/jobs/build"
    (JObj [("status", JStr "failure")]) "" [] "" ex_promoted_ok ex_tasks_coherent)).
Defined.

Lemma GetAllPaginated_tiles_witness :
  let n := total_pages (Z.of_nat (length
             (glob_rows (task_path "/pipeline" ++ "*") ex_tasks_db))) 2 in
  n = 2%Z /\
  (GetAll "/pipeline" ["*"] ex_tasks_db).1 = Ok (mjoin ((fun p => page_items
     (GetAllPaginated "/pipeline" ["*"] (Z.of_nat p) 2 ex_tasks_db).1)
       <$> seq 1 (Z.to_nat n))).
Proof.
  split; [vm_compute; reflexivity|].
  apply (GetAllPaginated_tiles ex_tasks_db "/pipeline" ["*"] 2);
    [reflexivity|lia|vm_compute; reflexivity].
Defined.
