(* ===== verification/Ids.v ===== *)
(** * Identifiers (runtime/support/ids.go)

    The deterministic identifiers are truncated SHA-256 digests of a printed
    context. The digest is a parameter: [sha256_hex] is the lower-case
    hexadecimal text of the digest, 64 characters long. *)
From S2P Require Import Prelude GoStrings.
Open Scope string_scope.

Class Sha256 : Type := {
  sha256_hex : string -> string;
  sha256_hex_length : forall s, String.length (sha256_hex s) = 64 }.

Fixpoint take_string (n : nat) (s : string) : string :=
  match n, s with
  | S n', String a s' => String a (take_string n' s')
  | _, _ => ""
  end.

Lemma length_take_string n s :
  n <= String.length s -> String.length (take_string n s) = n.
Proof.
  revert s. induction n as [|n IH]; intros [|a s]; simpl; intros; try lia.
  rewrite IH; lia.
Qed.

Section ids.
Context `{!Sha256}.

(** [hex.EncodeToString(hash[:n])] *)
Definition digest_prefix (n : nat) (input : string) : string :=
  take_string (2 * n) (sha256_hex input).

Definition DeterministicTaskID (namespace runID stepID taskName : string) : string :=
  digest_prefix 4 (namespace ++ ":" ++ runID ++ ":" ++ stepID ++ ":" ++ taskName).

Definition PipelineID (name content : string) : string :=
  digest_prefix 16 (name ++ ":" ++ content).

Definition DeterministicVolumeID (namespace context : string) : string :=
  digest_prefix 4 (namespace ++ ":" ++ context).

Lemma PipelineID_length name content : String.length (PipelineID name content) = 32.
Proof.
  apply length_take_string. rewrite sha256_hex_length. lia.
Qed.
End ids.

(** An instance to compute with: the text itself, padded or cut. *)
Definition toy_sha_hex (s : string) : string := take_string 64 (s ++ zeros 64).

Lemma length_append_ s t : String.length (s ++ t) = String.length s + String.length t.
Proof. by induction s as [|a s IH]; simpl; [|f_equal]. Qed.

Lemma length_zeros n : String.length (zeros n) = n.
Proof. by induction n as [|n IH]; simpl; [|f_equal]. Qed.

Lemma toy_sha_length s : String.length (toy_sha_hex s) = 64.
Proof.
  apply length_take_string. rewrite length_append_, length_zeros. lia.
Qed.
Definition toy_sha : Sha256 :=
  {| sha256_hex := toy_sha_hex; sha256_hex_length := toy_sha_length |}.
