(* ===== verification/Sha.v ===== *)
(** * SHA-256 and HMAC (crypto/sha256, crypto/hmac)

    The two digests of Go's standard library the program calls, executable on
    byte strings: FIPS 180-4 on 32-bit words kept in [Z], and RFC 2104 over
    it. The round constants are computed from their definition, the first bits
    of the fractional parts of the roots of the first primes. [sha256] is an
    implementation of the class [Sha256] that [Ids] is stated against. *)
From S2P Require Import Prelude GoStrings Ids.
From Stdlib Require Import Ascii.
Open Scope string_scope.
#[local] Arguments String.append !_ _ / : simpl nomatch.

(** ** Words *)
Definition word (n : Z) : Z := Z.land n (Z.ones 32).
Definition rotr (n x : Z) : Z := Z.lor (Z.shiftr x n) (word (Z.shiftl x (32 - n))).
Definition add32 (l : list Z) : Z := word (foldr Z.add 0%Z l).
Definition xor3 (a b c : Z) : Z := Z.lxor a (Z.lxor b c).

Definition Sigma0 (x : Z) : Z := xor3 (rotr 2 x) (rotr 13 x) (rotr 22 x).
Definition Sigma1 (x : Z) : Z := xor3 (rotr 6 x) (rotr 11 x) (rotr 25 x).
Definition sigma0 (x : Z) : Z := xor3 (rotr 7 x) (rotr 18 x) (Z.shiftr x 3).
Definition sigma1 (x : Z) : Z := xor3 (rotr 17 x) (rotr 19 x) (Z.shiftr x 10).
(** The choice of [y] where [x] has a one, of [z] elsewhere. *)
Definition choose (x y z : Z) : Z := Z.lxor z (Z.land x (Z.lxor y z)).
Definition majority (x y z : Z) : Z := Z.lor (Z.land x y) (Z.land z (Z.lor x y)).

(** ** Constants *)
Definition is_prime (n : nat) : bool :=
  forallb (fun d => negb (n mod d =? 0)%nat) (seq 2 (n - 2)).
Definition primes : list Z :=
  Eval vm_compute in Z.of_nat <$> List.filter is_prime (seq 2 310).

(** The integer cube root, one bit at a time. *)
Fixpoint cube_root (bits : nat) (root n : Z) : Z :=
  match bits with
  | O => root
  | S bits =>
      let next := (root + 2 ^ Z.of_nat bits)%Z in
      cube_root bits (if (next * next * next <=? n)%Z then next else root) n
  end.

Definition round_constants : list Z :=
  Eval vm_compute in (fun p => word (cube_root 40 0 (p * 2 ^ 96))) <$> take 64 primes.
Definition initial_hash : list Z :=
  Eval vm_compute in (fun p => word (Z.sqrt (p * 2 ^ 64))) <$> take 8 primes.

(** ** Padding *)
Fixpoint bytes (s : string) : list Z :=
  match s with
  | EmptyString => []
  | String a s => Z.of_nat (nat_of_ascii a) :: bytes s
  end.

(** The low [n] bytes of [x], most significant first. *)
Fixpoint big_endian (n : nat) (x : Z) : list Z :=
  match n with
  | O => []
  | S n => Z.land (Z.shiftr x (8 * Z.of_nat n)) 255 :: big_endian n x
  end.

Definition pad (msg : list Z) : list Z :=
  let n := length msg in
  let zeros := (64 - (n + 9) mod 64) mod 64 in
  (msg ++ 128%Z :: replicate zeros 0%Z ++ big_endian 8 (8 * Z.of_nat n))%list.

Fixpoint words (l : list Z) : list Z :=
  match l with
  | a :: b :: c :: d :: l =>
      Z.lor (Z.shiftl a 24) (Z.lor (Z.shiftl b 16) (Z.lor (Z.shiftl c 8) d)) :: words l
  | _ => []
  end.

(** ** Compression *)

(** The schedule is kept newest word first. *)
Fixpoint extend_schedule (n : nat) (recent : list Z) : list Z :=
  match n with
  | O => recent
  | S n =>
      let at_ i := nth (i - 1) recent 0%Z in
      extend_schedule n
        (add32 [sigma1 (at_ 2); at_ 7; sigma0 (at_ 15); at_ 16] :: recent)
  end.
Definition schedule (block : list Z) : list Z :=
  reverse (extend_schedule 48 (reverse block)).

Definition sha_round (state : list Z) (kw : Z * Z) : list Z :=
  match state with
  | [a; b; c; d; e; f; g; h] =>
      let t1 := add32 [h; Sigma1 e; choose e f g; kw.1; kw.2] in
      let t2 := add32 [Sigma0 a; majority a b c] in
      [add32 [t1; t2]; a; b; c; add32 [d; t1]; e; f; g]
  | _ => state
  end.

Definition compress (hash block : list Z) : list Z :=
  zip_with (fun x y => add32 [x; y]) hash
    (foldl sha_round hash (zip round_constants (schedule block))).

Fixpoint blocks (fuel : nat) (hash ws : list Z) : list Z :=
  match fuel with
  | O => hash
  | S fuel => blocks fuel (compress hash (take 16 ws)) (drop 16 ws)
  end.

(** [sha256.Sum256]: a block is 64 bytes. *)
Definition sha256_bytes (msg : list Z) : list Z :=
  let padded := pad msg in
  concat (big_endian 4 <$> blocks (length padded / 64) initial_hash (words padded)).

(** [hmac.New(sha256.New, key)] over one message. *)
Definition hmac_key (key : list Z) : list Z :=
  let key := if (64 <? length key)%nat then sha256_bytes key else key in
  (key ++ replicate (64 - length key) 0%Z)%list.
Definition hmac_bytes (key msg : list Z) : list Z :=
  let key := hmac_key key in
  sha256_bytes ((Z.lxor 92 <$> key) ++ sha256_bytes ((Z.lxor 54 <$> key) ++ msg))%list.

(** [hex.EncodeToString]: lower case, two digits a byte. *)
Definition hex_char (n : Z) : ascii :=
  ascii_of_nat (Z.to_nat (if (n <? 10)%Z then 48 + n else 87 + n)).
Fixpoint hex (l : list Z) : string :=
  match l with
  | [] => ""
  | b :: l => String (hex_char (Z.shiftr b 4)) (String (hex_char (Z.land b 15)) (hex l))
  end.

Definition sha256_text (s : string) : string := hex (sha256_bytes (bytes s)).

(** ** Facts *)
Lemma length_hex l : String.length (hex l) = 2 * length l.
Proof. induction l as [|b l IH]; simpl; [done|]. rewrite IH. lia. Qed.

Lemma length_big_endian n x : length (big_endian n x) = n.
Proof. induction n; simpl; congruence. Qed.

Lemma length_sha_round state kw : length (sha_round state kw) = length state.
Proof. by do 9 (destruct state as [|? state]; [done|]). Qed.

Lemma length_compress hash block : length (compress hash block) = length hash.
Proof.
  unfold compress. rewrite length_zip_with.
  assert (Hr : forall kws st, length (foldl sha_round st kws) = length st).
  { induction kws as [|kw kws IH]; intros st; simpl; [done|]. by rewrite IH, length_sha_round. }
  rewrite Hr. lia.
Qed.

Lemma length_blocks fuel : forall hash ws, length (blocks fuel hash ws) = length hash.
Proof.
  induction fuel as [|fuel IH]; intros hash ws; simpl; [done|]. by rewrite IH, length_compress.
Qed.

Lemma length_sha256_bytes msg : length (sha256_bytes msg) = 32.
Proof.
  unfold sha256_bytes.
  assert (Hc : forall l, length (concat (big_endian 4 <$> l)) = 4 * length l).
  { induction l as [|x l IH]; [done|].
    rewrite fmap_cons, concat_cons, length_app, length_big_endian, IH. simpl. lia. }
  by rewrite Hc, length_blocks.
Qed.

Lemma sha256_text_length s : String.length (sha256_text s) = 64.
Proof. unfold sha256_text. by rewrite length_hex, length_sha256_bytes. Qed.

Definition sha256 : Sha256 :=
  {| sha256_hex := sha256_text; sha256_hex_length := sha256_text_length |}.

(** The test vectors of FIPS 180-4 (a message of two blocks) and of RFC 4231
    (cases 2 and 6, a key longer than a block). *)
Example sha256_two_blocks :
  sha256_text "abcdbcdecdefdefgefghfghighijhijkijkljklmklmnlmnomnopnopq" =
    "248d6a61d20638b8e5c026930c3e6039a33ce45964ff2167f6ecedd419db06c1".
Proof. vm_compute. reflexivity. Qed.

Example hmac_short_key :
  hex (hmac_bytes (bytes "Jefe") (bytes "what do ya want for nothing?")) =
    "5bdcc146bf60754e6a042426089575c75a003f089d2739839dec58b964ec3843".
Proof. vm_compute. reflexivity. Qed.

Example hmac_long_key :
  hex (hmac_bytes (replicate 131 170%Z)
    (bytes "Test Using Larger Than Block-Size Key - Hash Key First")) =
    "60e431591ee0b67f0d8a26aacbf5b77f8e0bc6213728c5140546040f0ee37f54".
Proof. vm_compute. reflexivity. Qed.

(** ** Bytes *)
Definition byte_list (l : list Z) : Prop := Forall (fun b => 0 <= b < 256)%Z l.

Lemma big_endian_bytes n x : byte_list (big_endian n x).
Proof.
  induction n as [|n IH]; simpl; constructor; [|done].
  change 255%Z with (Z.ones 8). rewrite Z.land_ones by lia. apply Z.mod_pos_bound. lia.
Qed.

Lemma sha256_bytes_range msg : byte_list (sha256_bytes msg).
Proof.
  unfold sha256_bytes. generalize (blocks (length (pad msg) / 64) initial_hash (words (pad msg))) as out.
  induction out as [|x out IH]; [by constructor|]. rewrite fmap_cons, concat_cons.
  apply Forall_app. split; [apply big_endian_bytes|done].
Qed.

Lemma hmac_bytes_range key msg : byte_list (hmac_bytes key msg).
Proof. apply sha256_bytes_range. Qed.
