(* ===== verification/Pipelines.v ===== *)
(** * Stored pipelines (storage/sqlite/pipelines.go)

    A pipeline's name is unique in the table. Saving under a known name
    rewrites the content and keeps the identifier, so that the runs, schedules
    and gates that refer to the pipeline stay valid. *)
From S2P Require Import Prelude Storage Json Db GoStrings Paging Ids.
Import pipelineScan.
Open Scope string_scope.

Definition pipeline_rows (d : db) : list t := (map_to_list (db_pipelines d)).*2.

(** The rows a [WHERE name = ?] selects. *)
Definition rows_named (name : string) (d : db) : list t :=
  List.filter (fun p => bool_decide (Name p = name)) (pipeline_rows d).

Section pipelines.
Context `{!OrderBy, !Sha256}.

(** [ON CONFLICT(name) DO UPDATE SET ...] *)
Definition resave (content contentType driver : string) (now : Z) (p : t) : t :=
  mk (ID p) (Name p) content contentType driver (ResumeEnabled p) (Paused p)
     (RBACExpression p) (ConcurrencyMode p) (ConcurrencyGroupTemplate p)
     (ConcurrencyCancelRunning p) (CreatedAt p) now.

(** The columns the INSERT leaves out take the schema's defaults. *)
Definition new_row (id name content contentType driver : string) (now : Z) : t :=
  mk id name content contentType driver 0 0 "" "" "" 0 now now.

Definition upsert_pipeline (id name content contentType driver : string)
    (now : Z) : ST db unit := exec (fun d =>
  match rows_named name d with
  | p :: _ => (Ok tt, set_pipelines
                 (insert (ID p) (resave content contentType driver now p)) d)
  | [] =>
      if decide (is_Some (db_pipelines d !! id)) then
        (Err (ESentinel SSqlite), d)                     (* PRIMARY KEY *)
      else (Ok tt, set_pipelines
              (insert id (new_row id name content contentType driver now)) d)
  end).

Definition SavePipeline (name content driver contentType : string)
    : ST db Pipeline.t :=
  let newID := PipelineID name content in
  let! now := time_Now in
  let! found := attempt (query (fun d => ID <$> head (rows_named name d))) in
  let existingID := match found with Ok (Some id) => id | _ => "" end in
  wrap "failed to save pipeline"
    (upsert_pipeline newID name content contentType driver (Unix now)) ;;;
  let storedID := if decide (existingID = "") then newID else existingID in
  wrap "failed to clear pipelines_fts" (update id) ;;;
  wrap "failed to index pipeline" (update id) ;;;
  ret {|
    Pipeline.ID := storedID; Pipeline.Name := name; Pipeline.Content := content;
    Pipeline.ContentType := contentType; Pipeline.Driver := driver;
    Pipeline.ResumeEnabled := false; Pipeline.Paused := false;
    Pipeline.RBACExpression := ""; Pipeline.ConcurrencyMode := "";
    Pipeline.ConcurrencyGroupTemplate := "";
    Pipeline.ConcurrencyCancelRunning := false;
    Pipeline.CreatedAt := now; Pipeline.UpdatedAt := now |}.

Definition GetPipeline (id : string) : ST db Pipeline.t :=
  let! row := wrap "failed to get pipeline" (query (fun d => db_pipelines d !! id)) in
  match row with
  | Some p => ret (toStorage p)
  | None => fail (ESentinel SNotFound)
  end.

Definition GetPipelineByName (name : string) : ST db Pipeline.t :=
  let! row := wrap "failed to get pipeline by name" (query (fun d =>
    head (order_by (fun p => (- UpdatedAt p)%Z) (rows_named name d)))) in
  match row with
  | Some p => ret (toStorage p)
  | None => fail (ESentinel SNotFound)
  end.

(** The DELETE reports how many rows it removed; five maintenance statements
    follow. *)
Definition DeletePipeline (id : string) : ST db unit :=
  let! rowsAffected := wrap "failed to delete pipeline" (exec (fun d =>
    if decide (is_Some (db_pipelines d !! id))
    then (Ok 1%Z, delete_pipeline id d) else (Ok 0%Z, d))) in
  if (rowsAffected =? 0)%Z then fail (ESentinel SNotFound)
  else
    wrap "failed to delete pipelines_fts entry" (update Datatypes.id) ;;;
    wrap "failed to optimize pipelines_fts" (update Datatypes.id) ;;;
    wrap "failed to optimize data_fts" (update Datatypes.id) ;;;
    wrap "failed to run PRAGMA optimize" (update Datatypes.id) ;;;
    wrap "failed to vacuum after delete" (update Datatypes.id).

(** The SET clauses: one per non-nil field. *)
Definition apply_update (u : PipelineUpdate.t) (p : t) : t :=
  mk (ID p) (Name p) (Content p) (ContentType p) (Driver p)
    (default (ResumeEnabled p) (boolToInt <$> PipelineUpdate.ResumeEnabled u))
    (default (Paused p) (boolToInt <$> PipelineUpdate.Paused u))
    (default (RBACExpression p) (PipelineUpdate.RBACExpression u))
    (default (ConcurrencyMode p) (PipelineUpdate.ConcurrencyMode u))
    (default (ConcurrencyGroupTemplate p) (PipelineUpdate.ConcurrencyGroupTemplate u))
    (default (ConcurrencyCancelRunning p)
       (boolToInt <$> PipelineUpdate.ConcurrencyCancelRunning u))
    (CreatedAt p) (UpdatedAt p).

Definition no_update (u : PipelineUpdate.t) : bool :=
  match u with
  | PipelineUpdate.mk None None None None None None => true
  | _ => false
  end.

Definition UpdatePipeline (pipelineID : string) (u : PipelineUpdate.t)
    : ST db unit :=
  if no_update u then ret tt
  else
    let! rowsAffected := wrap "failed to update pipeline" (exec (fun d =>
      match db_pipelines d !! pipelineID with
      | Some p => (Ok 1%Z, set_pipelines (insert pipelineID (apply_update u p)) d)
      | None => (Ok 0%Z, d)
      end)) in
    if (rowsAffected =? 0)%Z then fail (ESentinel SNotFound) else ret tt.

Definition SearchPipelines (fts : string -> t -> bool) (q : string)
    (page perPage : Z) : ST db (PaginationResult.t Pipeline.t) :=
  paginatedSearch fts
    (fun d => order_by (fun p => (- CreatedAt p)%Z) (pipeline_rows d))
    toStorage page perPage q.
End pipelines.

(** ** The table invariant *)
Definition pipelines_wf (d : db) : Prop :=
  map_Forall (fun id p => ID p = id /\ id <> "") (db_pipelines d) /\
  forall id1 p1 id2 p2, db_pipelines d !! id1 = Some p1 ->
    db_pipelines d !! id2 = Some p2 -> Name p1 = Name p2 -> id1 = id2.

Lemma elem_of_rows_named name p d :
  p ∈ rows_named name d <-> Name p = name /\ exists id, db_pipelines d !! id = Some p.
Proof.
  unfold rows_named, pipeline_rows.
  rewrite list_elem_of_In, filter_In, <- list_elem_of_In, bool_decide_eq_true.
  rewrite list_elem_of_fmap. split.
  - intros [([id p'] & -> & H%elem_of_map_to_list) Hn]. eauto.
  - intros [Hn [id H]]. split; [|done]. exists (id, p). split; [done|].
    by apply elem_of_map_to_list.
Qed.

Lemma rows_named_nil name d :
  rows_named name d = [] <-> forall id p, db_pipelines d !! id = Some p -> Name p <> name.
Proof.
  split.
  - intros Hn id p Hp <-. assert (p ∈ rows_named (Name p) d) as Hin
      by (apply elem_of_rows_named; eauto).
    rewrite Hn in Hin. by apply elem_of_nil in Hin.
  - intros Hn. destruct (rows_named name d) as [|p l] eqn:E; [done|].
    assert (p ∈ rows_named name d) as [? [id ?]]%elem_of_rows_named
      by (rewrite E; left). by destruct (Hn id p).
Qed.

(** Under the invariant the rows of a name are the one row of its id. *)
Lemma rows_named_unique name id p d :
  pipelines_wf d -> db_pipelines d !! id = Some p -> Name p = name ->
  rows_named name d = [p].
Proof.
  intros [Hids Hu] Hp <-. unfold rows_named, pipeline_rows.
  assert (Hnd : NoDup (map_to_list (db_pipelines d)).*1) by apply NoDup_fst_map_to_list.
  assert (Hin : (id, p) ∈ map_to_list (db_pipelines d)) by (by apply elem_of_map_to_list).
  assert (Hall : forall kv, kv ∈ map_to_list (db_pipelines d) ->
    Name kv.2 = Name p -> kv.1 = id).
  { intros [k v] Hkv%elem_of_map_to_list Hn. by eapply Hu. }
  revert Hnd Hin Hall. generalize (map_to_list (db_pipelines d)).
  intros l. induction l as [|[k v] l IH]; intros Hnd Hin Hall; [by apply elem_of_nil in Hin|].
  apply NoDup_cons in Hnd as [Hni Hnd]. simpl.
  apply elem_of_cons in Hin as [[= <- <-]|Hin].
  - rewrite bool_decide_true by done. f_equal. clear IH.
    induction l as [|[k2 v2] l IH]; [done|]. simpl in *.
    apply not_elem_of_cons in Hni as [Hne Hni].
    rewrite bool_decide_false.
    + apply IH; [done|by apply NoDup_cons in Hnd as [_ ?]|]. set_solver.
    + intros Hn. apply Hne. symmetry. apply (Hall (k2, v2)); [set_solver|done].
  - rewrite bool_decide_false; [apply IH; [done|done|set_solver]|].
    intros Hn. assert (k = id) as -> by (apply (Hall (k, v)); [set_solver|done]).
    apply Hni. by apply (list_elem_of_fmap_2 fst _ (id, p)).
Qed.

Lemma pipelines_wf_insert_same d id p p' :
  pipelines_wf d -> db_pipelines d !! id = Some p -> ID p' = ID p -> Name p' = Name p ->
  pipelines_wf (set_pipelines (insert id p') d).
Proof.
  intros [Hids Hu] Hp Hid Hn. split; simpl.
  - apply map_Forall_insert_2; [|done]. rewrite Hid. by apply Hids.
  - assert (Hlk : forall k q, <[id:=p']> (db_pipelines d) !! k = Some q ->
      exists q0, db_pipelines d !! k = Some q0 /\ Name q0 = Name q).
    { intros k q. destruct (decide (k = id)) as [->|Hne].
      - rewrite lookup_insert_eq. intros [= <-]. eauto.
      - rewrite lookup_insert_ne by done. eauto. }
    intros id1 p1 id2 p2 (q1 & H1 & E1)%Hlk (q2 & H2 & E2)%Hlk Heq.
    apply (Hu id1 q1 id2 q2); congruence.
Qed.

Lemma pipelines_wf_insert_new d p :
  pipelines_wf d -> ID p <> "" -> rows_named (Name p) d = [] ->
  pipelines_wf (set_pipelines (insert (ID p) p) d).
Proof.
  intros [Hids Hu] Hne Hn. rewrite rows_named_nil in Hn. split; simpl.
  - by apply map_Forall_insert_2.
  - intros id1 p1 id2 p2. rewrite !lookup_insert_Some.
    intros [[<- <-]|[? H1]] [[<- <-]|[? H2]] Heq; try done.
    + by destruct (Hn id2 p2).
    + by destruct (Hn id1 p1).
    + by eapply Hu.
Qed.

Lemma pipelines_wf_sub d d' :
  db_pipelines d' ⊆ db_pipelines d -> pipelines_wf d -> pipelines_wf d'.
Proof.
  intros Hsub [Hids Hu]. split.
  - intros id p Hp. apply Hids. by eapply lookup_weaken.
  - intros id1 p1 id2 p2 H1 H2. apply Hu; by eapply lookup_weaken.
Qed.

Definition keeps_pipelines (d d' : db) : Prop := pipelines_wf d -> pipelines_wf d'.
#[export] Instance keeps_pipelines_preorder : PreOrder keeps_pipelines.
Proof. split; unfold keeps_pipelines, Reflexive, Transitive; eauto. Qed.
#[export] Instance keeps_pipelines_faults : FaultInsensitive keeps_pipelines.
Proof. intros d fs Hd. exact Hd. Qed.

Lemma delete_pipeline_pipelines id d :
  db_pipelines (delete_pipeline id d) = delete id (db_pipelines d).
Proof. done. Qed.

Section pipelines_facts.
Context `{!OrderBy, !Sha256}.

Lemma PipelineID_not_empty name content : PipelineID name content <> "".
Proof.
  intros He. pose proof (PipelineID_length name content) as Hl. by rewrite He in Hl.
Qed.

Lemma upsert_pipeline_keeps name content contentType driver now :
  preserves keeps_pipelines
    (upsert_pipeline (PipelineID name content) name content contentType driver now).
Proof.
  apply preserves_exec; [apply _..|]. intros d Hwf.
  destruct (rows_named name d) as [|p l] eqn:E; simpl.
  - case_decide; simpl; [done|].
    apply (pipelines_wf_insert_new d
      (new_row (PipelineID name content) name content contentType driver now));
      [done|apply PipelineID_not_empty|done].
  - assert (p ∈ rows_named name d) as [Hn [id Hp]]%elem_of_rows_named by (rewrite E; left).
    destruct (proj1 Hwf id p Hp) as [Hid _]. rewrite Hid.
    by eapply pipelines_wf_insert_same.
Qed.

Lemma update_id_keeps : preserves keeps_pipelines (update id).
Proof. by apply preserves_update; [apply _..|]. Qed.

Lemma SavePipeline_keeps name content driver contentType :
  preserves keeps_pipelines (SavePipeline name content driver contentType).
Proof.
  unfold SavePipeline.
  repeat first
    [ apply preserves_bind; [apply _| |intros ?]
    | apply preserves_wrap; apply upsert_pipeline_keeps
    | apply preserves_wrap; apply update_id_keeps
    | apply preserves_attempt, preserves_query; apply _
    | apply preserves_gets; apply _
    | apply preserves_ret; apply _ ].
Qed.

Lemma UpdatePipeline_keeps id u : preserves keeps_pipelines (UpdatePipeline id u).
Proof.
  unfold UpdatePipeline. case_match; [by apply preserves_ret|].
  apply preserves_bind; [apply _| |].
  - apply preserves_wrap, preserves_exec; [apply _..|]. intros d Hwf.
    destruct (db_pipelines d !! id) as [p|] eqn:E; simpl; [|done].
    by eapply pipelines_wf_insert_same.
  - intros n. case_match; [by apply preserves_fail|by apply preserves_ret].
Qed.

Lemma DeletePipeline_keeps id : preserves keeps_pipelines (DeletePipeline id).
Proof.
  unfold DeletePipeline. apply preserves_bind; [apply _| |].
  - apply preserves_wrap, preserves_exec; [apply _..|]. intros d. case_decide; simpl; [|done].
    intros Hwf. eapply pipelines_wf_sub; [|exact Hwf]. rewrite delete_pipeline_pipelines. apply delete_subseteq.
  - intros n. case_match; [by apply preserves_fail|].
    repeat first [ apply preserves_bind; [apply _| |intros ?]
                 | apply preserves_wrap; apply update_id_keeps ].
Qed.

(** What [SavePipeline] does when no statement fails. *)
Lemma SavePipeline_no_faults name content driver contentType d :
  db_faults d = [] ->
  SavePipeline name content driver contentType d =
    let newID := PipelineID name content in
    let now := Unix (db_now d) in
    let answer id := {|
      Pipeline.ID := id; Pipeline.Name := name; Pipeline.Content := content;
      Pipeline.ContentType := contentType; Pipeline.Driver := driver;
      Pipeline.ResumeEnabled := false; Pipeline.Paused := false;
      Pipeline.RBACExpression := ""; Pipeline.ConcurrencyMode := "";
      Pipeline.ConcurrencyGroupTemplate := "";
      Pipeline.ConcurrencyCancelRunning := false;
      Pipeline.CreatedAt := db_now d; Pipeline.UpdatedAt := db_now d |} in
    match rows_named name d with
    | p :: _ =>
        (Ok (answer (if decide (ID p = "") then newID else ID p)),
         set_pipelines (insert (ID p) (resave content contentType driver now p)) d)
    | [] =>
        if decide (is_Some (db_pipelines d !! newID)) then
          (Err (EWrap "failed to save pipeline" (ESentinel SSqlite)), d)
        else (Ok (answer newID), set_pipelines
                (insert newID (new_row newID name content contentType driver now)) d)
    end.
Proof.
  intros Hf. unfold SavePipeline, upsert_pipeline. autounfold with go_monad.
  unfold time_Now, gets, query, update, exec. rewrite Hf. simpl.
  destruct (rows_named name d) as [|p l]; simpl.
  - rewrite Hf. simpl. case_decide; simpl; [done|]. by run_sql Hf.
  - by run_sql Hf.
Qed.

Lemma GetPipelineByName_no_faults name d :
  db_faults d = [] ->
  GetPipelineByName name d =
    (match head (order_by (fun p => (- UpdatedAt p)%Z) (rows_named name d)) with
     | Some p => Ok (toStorage p) | None => Err (ESentinel SNotFound) end, d).
Proof.
  intros Hf. unfold GetPipelineByName. autounfold with go_monad.
  rewrite query_no_faults by done. by destruct (head _).
Qed.

Lemma order_by_singleton {A} (key : A -> Z) x : order_by key [x] = [x].
Proof.
  apply Permutation_singleton_r. apply order_by_perm.
Qed.
End pipelines_facts.

(** ** Properties *)

(** saving a pipeline when no statement fails. The call succeeds unless
    the name is new and the digest of its name and content is already the id
    of another pipeline; on success the name reads back as the one pipeline
    with the saved content, driver and content type, whose id is the old one
    when the name was known (its pause flag, access rule and concurrency
    settings survive) and the digest otherwise, and no other row changes. *)
Theorem SavePipeline_roundtrip `{!OrderBy, !Sha256}
    (d : db) name content driver contentType :
  db_faults d = [] -> pipelines_wf d ->
  let newID := PipelineID name content in
  let '(r, d') := SavePipeline name content driver contentType d in
  (rows_named name d = [] -> is_Some (db_pipelines d !! newID) ->
     is_ok r = false /\ d' = d) /\
  ((rows_named name d <> [] \/ db_pipelines d !! newID = None) ->
   exists saved p, r = Ok saved /\ (GetPipelineByName name d').1 = Ok p /\
     Pipeline.ID saved = Pipeline.ID p /\ Pipeline.Content p = content /\
     Pipeline.Driver p = driver /\ Pipeline.ContentType p = contentType /\
     match head (rows_named name d) with
     | Some old => Pipeline.ID p = ID old /\
         Pipeline.Paused p = Pipeline.Paused (toStorage old) /\
         Pipeline.RBACExpression p = RBACExpression old /\
         Pipeline.ConcurrencyMode p = ConcurrencyMode old /\
         Pipeline.CreatedAt p = time_Unix (CreatedAt old)
     | None => Pipeline.ID p = newID
     end /\
     forall id, id <> Pipeline.ID p -> db_pipelines d' !! id = db_pipelines d !! id).
Proof.
  intros Hf Hwf newID.
  pose proof (SavePipeline_keeps name content driver contentType d Hwf) as Hwf'.
  rewrite SavePipeline_no_faults in Hwf' |- * by done. cbv zeta in *. fold newID in Hwf' |- *.
  destruct (rows_named name d) as [|old l] eqn:E.
  - case_decide as Hid; simpl in Hwf' |- *.
    + split; [done|]. intros [?|Hn]; [done|]. rewrite Hn in Hid. by destruct Hid.
    + split; [by intros _ ?|]. intros _. eexists _, _. split; [done|].
      rewrite GetPipelineByName_no_faults by done. simpl.
      rewrite (rows_named_unique name newID _ _ Hwf' (lookup_insert_eq _ _ _)) by done.
      rewrite order_by_singleton. simpl. do 6 (split; [done|]).
      intros id Hne. by rewrite lookup_insert_ne.
  - split; [done|]. intros _.
    assert (old ∈ rows_named name d) as [Hn [id Hp]]%elem_of_rows_named by (rewrite E; left).
    destruct (proj1 Hwf id old Hp) as [Hid Hne]. simpl in Hwf' |- *.
    rewrite decide_False by congruence. eexists _, _. split; [done|].
    rewrite GetPipelineByName_no_faults by done. simpl.
    rewrite (rows_named_unique name (ID old) _ _ Hwf' (lookup_insert_eq _ _ _)) by done.
    rewrite order_by_singleton. simpl. split; [done|]. do 5 (split; [done|]).
    intros id' Hne'. by rewrite lookup_insert_ne.
Qed.

(** unique names and non-empty ids equal to the keys are an invariant of
    every method that writes the pipelines table, whichever statement fails. *)
Theorem pipelines_table_invariant `{!OrderBy, !Sha256}
    (d : db) name content driver contentType id u :
  pipelines_wf d ->
  pipelines_wf (SavePipeline name content driver contentType d).2 /\
  pipelines_wf (UpdatePipeline id u d).2 /\
  pipelines_wf (DeletePipeline id d).2.
Proof.
  intros Hwf. split_and!.
  - exact (SavePipeline_keeps _ _ _ _ d Hwf).
  - exact (UpdatePipeline_keeps _ _ d Hwf).
  - exact (DeletePipeline_keeps _ d Hwf).
Qed.

(** deleting a pipeline removes everything that hangs off it: its runs,
    their gates and task rows, its schedules, dedup keys and memories; no
    pipeline, run or schedule of another pipeline is touched, and an unknown
    id answers ErrNotFound and changes nothing. *)
Theorem DeletePipeline_cascade (d : db) id :
  db_faults d = [] ->
  let '(r, d') := DeletePipeline id d in
  match db_pipelines d !! id with
  | None => r = Err (ESentinel SNotFound) /\ d' = d
  | Some _ =>
      r = Ok tt /\ db_pipelines d' = delete id (db_pipelines d) /\
      (forall k run, db_runs d !! k = Some run ->
         db_runs d' !! k =
           if decide (pipelineRunScan.PipelineID run = id) then None else Some run) /\
      (forall k s, db_schedules d !! k = Some s ->
         db_schedules d' !! k =
           if decide (scheduleScan.PipelineID s = id) then None else Some s) /\
      (forall k g, db_gates d' !! k = Some g -> gateScan.PipelineID g <> id /\
         forall run, db_runs d !! gateScan.RunID g = Some run ->
           pipelineRunScan.PipelineID run <> id) /\
      (forall path t run row, db_tasks d' !! path = Some t ->
         taskRow.run_id t = Some run -> db_runs d !! run = Some row ->
         pipelineRunScan.PipelineID row <> id) /\
      (forall k v, db_dedup d' !! k = Some v -> k.1 <> id) /\
      (forall k v, db_memories d' !! k = Some v -> k.1.1 <> id)
  end.
Proof.
  intros Hf. unfold DeletePipeline. run_sql Hf.
  destruct (db_pipelines d !! id) as [p|] eqn:E; simpl.
  2: done.
  run_sql Hf.
  split_and!; try done.
  - intros k run Hk. etransitivity; [apply (lookup_delete_runs
      (fun r => bool_decide (pipelineRunScan.PipelineID r = id)) d k)|].
    rewrite Hk. by destruct (decide (pipelineRunScan.PipelineID run = id)) as [Hp|Hp];
      [rewrite bool_decide_true|rewrite bool_decide_false].
  - intros k s Hk. case_decide as He.
    + apply map_lookup_filter_None. right. intros s' Hs'. naive_solver.
    + by apply map_lookup_filter_Some.
  - intros k g [[Hg Hgone]%map_lookup_filter_Some Hp]%map_lookup_filter_Some.
    split; [done|]. intros run Hrun. simpl in Hgone. rewrite Hrun in Hgone.
    by apply bool_decide_eq_false in Hgone.
  - intros path t run row [Ht Hgone]%map_lookup_filter_Some Hrun Hrow.
    simpl in Hgone. rewrite Hrun, Hrow in Hgone. by apply bool_decide_eq_false in Hgone.
  - intros k v [_ Hk]%map_lookup_filter_Some. done.
  - intros k v [_ Hk]%map_lookup_filter_Some. done.
Qed.

(** ** Witnesses *)
#[local] Existing Instances stable_order toy_sha.
Definition ex_row (id name : string) : t :=
  mk id name "old" ContentTypeYAML "docker" 1 1 "rbac" "serial" "" 0 10 10.
Definition ex_pipelines_db : db :=
  set_pipelines (fun _ => <["p1" := ex_row "p1" "build"]> {["p2" := ex_row "p2" "deploy"]})
    empty_db.

Lemma ex_pipelines_wf : pipelines_wf ex_pipelines_db.
Proof.
  split; simpl.
  - apply map_Forall_insert_2; [|apply map_Forall_singleton]; done.
  - intros id1 p1 id2 p2. rewrite !lookup_insert_Some, !lookup_singleton_Some.
    naive_solver.
Qed.

Lemma SavePipeline_roundtrip_witness :
  let d' := (SavePipeline "build" "new" "native" "ts" ex_pipelines_db).2 in
  exists p, (GetPipelineByName "build" d').1 = Ok p /\ Pipeline.ID p = "p1" /\
    Pipeline.Content p = "new" /\ Pipeline.Paused p = true.
Proof.
  pose proof (SavePipeline_roundtrip ex_pipelines_db "build" "new" "native" "ts"
    (eq_refl _) ex_pipelines_wf) as Ht.
  cbv zeta. destruct (SavePipeline "build" "new" "native" "ts" ex_pipelines_db) as [r d'].
  destruct Ht as [_ Ht]. destruct Ht as (s & p & _ & Hp & _ & Hc & _ & _ & Hhead & _).
  - left. by vm_compute.
  - exists p. split; [exact Hp|].
    change (head (rows_named "build" ex_pipelines_db)) with (Some (ex_row "p1" "build")) in Hhead.
    destruct Hhead as (Hid & Hpa & _). by rewrite Hid, Hpa.
Defined.

Lemma pipelines_table_invariant_witness :
  pipelines_wf (SavePipeline "build" "new" "native" "ts" ex_pipelines_db).2.
Proof.
  exact (proj1 (pipelines_table_invariant ex_pipelines_db "build" "new" "native" "ts"
    "" (PipelineUpdate.mk None None None None None None) ex_pipelines_wf)).
Defined.

Definition ex_cascade_db : db :=
  set_runs (fun _ => {["r1" := pipelineRunScan.mk "r1" "p1" RunStatusRunning None None None
     TriggerTypeManual "" TriggerInput.empty "" 4]}) ex_pipelines_db.

Lemma DeletePipeline_cascade_witness :
  db_runs (DeletePipeline "p1" ex_cascade_db).2 !! "r1" = None.
Proof.
  pose proof (DeletePipeline_cascade ex_cascade_db "p1" (eq_refl _)) as Ht.
  destruct (DeletePipeline "p1" ex_cascade_db) as [r d'].
  change (db_pipelines ex_cascade_db !! "p1") with (Some (ex_row "p1" "build")) in Ht.
  destruct Ht as (_ & _ & Hruns & _). exact (Hruns "r1" _ (eq_refl _)).
Defined.
