(* ===== verification/Gates.v ===== *)
(** * Approval gates

    The gates table (storage/sqlite/gates.go), the approve and reject handlers
    (server/api_gates_controller.go) and the polling loop of a gated job
    (runGate and pollGate of runtime/backwards/job.go). *)
From S2P Require Import Prelude Storage Json Db GoStrings Pipelines.
Import gateScan.
Open Scope string_scope.

(** ** The table *)
Section gates.
Context `{!OrderBy}.

Definition insert_gate (g : t) : ST db unit := exec (fun d =>
  if decide (is_Some (db_gates d !! ID g)) then
    (Err (ESentinel SSqlite), d)                         (* PRIMARY KEY *)
  else if decide (is_Some (db_pipelines d !! PipelineID g)
                  /\ is_Some (db_runs d !! RunID g)) then
    (Ok tt, set_gates (insert (ID g) g) d)
  else (Err (ESentinel SSqlite), d)).                    (* FOREIGN KEYs *)

Definition SaveGate (gate : Gate.t) : ST db unit :=
  let! now := time_Now in
  wrap "failed to save gate"
    (insert_gate (mk (Gate.ID gate) (Gate.RunID gate) (Gate.PipelineID gate)
       (Gate.Name gate) (Gate.Status gate) (Gate.Message gate)
       (Gate.ApprovedBy gate) (Unix now) None)).

(** A missing row is an error of the scan library, wrapped like any other. *)
Definition GetGate (gateID : string) : ST db Gate.t :=
  let! row := wrap "failed to get gate" (query (fun d => db_gates d !! gateID)) in
  match row with
  | Some g => ret (toStorage g)
  | None => fail (EWrap "failed to get gate" (ESentinel SNoRows))
  end.

Definition resolve_row (status : GateStatus) (approvedBy : string) (now : Z)
    (g : t) : t :=
  mk (ID g) (RunID g) (PipelineID g) (Name g) status (Message g) approvedBy
     (CreatedAt g) (Some now).

Definition resolve_gate_rows (gateID : string) (status : GateStatus)
    (approvedBy : string) (now : Z) (d : db) : result Z * db :=
  match db_gates d !! gateID with
  | Some g =>
      if decide (Status g = GateStatusPending)
      then (Ok 1%Z, set_gates (insert gateID (resolve_row status approvedBy now g)) d)
      else (Ok 0%Z, d)
  | None => (Ok 0%Z, d)
  end.

Definition ResolveGate (gateID : string) (status : GateStatus)
    (approvedBy : string) : ST db unit :=
  let! now := time_Now in
  let! rows := wrap "failed to resolve gate"
    (exec (resolve_gate_rows gateID status approvedBy (Unix now))) in
  if (rows =? 0)%Z
  then fail (EWrap ("gate " ++ gateID) (ESentinel SNotFound)) else ret tt.

Definition GetGatesByRunID (runID : string) : ST db (list Gate.t) :=
  wrap "failed to get gates by run ID" (query (fun d =>
    toStorage <$> order_by CreatedAt
      (List.filter (fun g => bool_decide (RunID g = runID)) (map_to_list (db_gates d)).*2))).

(** ** The HTTP handlers *)
Inductive response : Type :=
  | RError (code : Z) (error : string)
  | RGate (g : Gate.t)                       (* 200 with the gate *)
  | RGates (l : list Gate.t)                 (* 200 with the gates of a run *)
  | RMinimal (gateID : string) (status : GateStatus)
  | RToast (action : string).                (* 200 without body, htmx *)

Definition GateStatus_string (s : GateStatus) : string :=
  match s with
  | GateStatusPending => "pending" | GateStatusApproved => "approved"
  | GateStatusRejected => "rejected" | GateStatusTimedOut => "timed_out"
  end.

(** [checkPipelineRBAC] evaluates the pipeline's access expression for the
    caller and answers the denial itself. *)
Context (checkPipelineRBAC : Pipeline.t -> option response).

(** [None]: access granted. *)
Definition checkGateRBAC (pipelineID : string) : ST db (option response) :=
  let! p := attempt (GetPipeline pipelineID) in
  match p with
  | Err e => ret (Some (if errors_Is e SNotFound then RError 404 "pipeline not found"
                        else RError 500 "internal server error"))
  | Ok p => ret (checkPipelineRBAC p)
  end.

Definition resolveGateNotFound (gateID : string) : ST db response :=
  let! g := attempt (GetGate gateID) in
  match g with
  | Err _ => ret (RError 404 "gate not found")
  | Ok g => ret (RError 409 ("gate is already " ++ GateStatus_string (Gate.Status g)))
  end.

Definition resolveGate (isHtmx : bool) (actor gateID : string)
    (status : GateStatus) : ST db response :=
  let! g := attempt (GetGate gateID) in
  match g with
  | Err e =>
      if errors_Is e SNotFound then resolveGateNotFound gateID
      else ret (RError 500 "internal server error")
  | Ok gate =>
      let! denied := checkGateRBAC (Gate.PipelineID gate) in
      match denied with
      | Some r => ret r
      | None =>
          let! resolved := attempt (ResolveGate gateID status actor) in
          match resolved with
          | Err e =>
              if errors_Is e SNotFound then resolveGateNotFound gateID
              else ret (RError 500 "internal server error")
          | Ok _ =>
              if isHtmx then
                ret (RToast (if decide (status = GateStatusRejected)
                             then "rejected" else "approved"))
              else
                let! g := attempt (GetGate gateID) in
                match g with
                | Ok gate => ret (RGate gate)
                | Err _ => ret (RMinimal gateID status)
                end
          end
      end
  end.

Definition Approve isHtmx actor gateID :=
  resolveGate isHtmx actor gateID GateStatusApproved.
Definition Reject isHtmx actor gateID :=
  resolveGate isHtmx actor gateID GateStatusRejected.

(** [run] is the answer of [store.GetRun]. *)
Definition ListByRun (GetRun : string -> ST db PipelineRun.t) (runID : string)
    : ST db response :=
  let! run := attempt (GetRun runID) in
  match run with
  | Err e => ret (if errors_Is e SNotFound then RError 404 "run not found"
                  else RError 500 "internal server error")
  | Ok run =>
      let! denied := checkGateRBAC (PipelineRun.PipelineID run) in
      match denied with
      | Some r => ret r
      | None =>
          let! gates := attempt (GetGatesByRunID runID) in
          match gates with
          | Ok l => ret (RGates l)
          | Err _ => ret (RError 500 "internal server error")
          end
      end
  end.

(** ** The polling loop of a gated job

    Between two polls the rest of the system runs: [env n] is what it does to
    the database before the [n]-th next poll, [cancelled n] whether the job's
    context is done by then. The loop waits [gatePollInterval] each time. *)
Definition gatePollInterval : Z := (2 * nanosPerSecond)%Z.

Inductive gate_outcome : Type :=
  | GatePassed
  | GateError (e : err).

Section poll.
Context (jobName gateID : string) (deadline : time).
Context (env : nat -> db -> db) (cancelled : nat -> bool).

(** The quotes that [%q] puts around the name are left out of the message. *)
Definition gate_msg (m : string) : string := "gate " ++ jobName ++ ": " ++ m.

(** One iteration: [Some] outcome ends the loop. *)
Definition poll_once : ST db (option gate_outcome) :=
  let! now := time_Now in
  if negb (deadline =? time_Zero)%Z && (deadline <? now)%Z then
    ignore (ResolveGate gateID GateStatusTimedOut "timeout") ;;;
    ret (Some (GateError (EMsg (gate_msg "timed out"))))
  else
    let! gate := attempt (GetGate gateID) in
    match gate with
    | Err e => ret (Some (GateError (EWrap (gate_msg "poll failed") e)))
    | Ok gate =>
        match Gate.Status gate with
        | GateStatusApproved => ret (Some GatePassed)
        | GateStatusRejected =>
            ret (Some (GateError (EMsg (gate_msg ("rejected by " ++ Gate.ApprovedBy gate)))))
        | GateStatusTimedOut => ret (Some (GateError (EMsg (gate_msg "timed out"))))
        | GateStatusPending => ret None
        end
    end.

(** [n] counts the iterations, [None] is out of fuel. *)
Fixpoint poll_loop (fuel n : nat) (d : db) : option (gate_outcome * db) :=
  match fuel with
  | O => None
  | S fuel' =>
      match poll_once d with
      | (Ok (Some o), d') => Some (o, d')
      | (Err e, d') => Some (GateError e, d')
      | (Ok None, d') =>
          if cancelled n
          then Some (GateError (EWrap "wait for gate" (ESentinel SCanceled)), d')
          else poll_loop fuel' (S n) (env n (set_now (db_now d' + gatePollInterval)%Z d'))
      end
  end.
End poll.

(** The gate of a job: its message and the text of its timeout.
    [ParseDuration] is Go's, an error for a malformed text. *)
Definition runGate (ParseDuration : string -> result Z)
    (env : nat -> db -> db) (cancelled : nat -> bool) (fuel : nat)
    (gateID runID pipelineID jobName message timeout : string) (d : db)
    : option (gate_outcome * db) :=
  let gate := Gate.mk gateID runID pipelineID jobName GateStatusPending message
                "" time_Zero None in
  let createdAt := db_now d in
  match SaveGate gate d with
  | (Err e, d') => Some (GateError (EWrap "save gate" e), d')
  | (Ok _, d') =>
      if decide (timeout = "") then
        poll_loop jobName gateID time_Zero env cancelled fuel 0 d'
      else
        match ParseDuration timeout with
        | Err e => Some (GateError (EWrap ("invalid timeout " ++ timeout) e), d')
        | Ok dur =>
            poll_loop jobName gateID (createdAt + dur)%Z env cancelled fuel 0 d'
        end
  end.
End gates.

(** ** Facts *)
Section gates_facts.
Context `{!OrderBy}.

Lemma ResolveGate_no_faults gateID status by_ d :
  db_faults d = [] ->
  ResolveGate gateID status by_ d =
    match db_gates d !! gateID with
    | Some g =>
        if decide (Status g = GateStatusPending)
        then (Ok tt, set_gates (insert gateID
                (resolve_row status by_ (Unix (db_now d)) g)) d)
        else (Err (EWrap ("gate " ++ gateID) (ESentinel SNotFound)), d)
    | None => (Err (EWrap ("gate " ++ gateID) (ESentinel SNotFound)), d)
    end.
Proof.
  intros Hf. unfold ResolveGate, resolve_gate_rows, time_Now. run_sql Hf.
  repeat (case_match; simplify_eq/=; try done).
Qed.

Lemma GetGate_no_faults gateID d :
  db_faults d = [] ->
  GetGate gateID d =
    (match db_gates d !! gateID with
     | Some g => Ok (toStorage g)
     | None => Err (EWrap "failed to get gate" (ESentinel SNoRows)) end, d).
Proof. intros Hf. unfold GetGate. run_sql Hf. by case_match. Qed.

Lemma checkGateRBAC_no_faults rbac pipelineID d :
  db_faults d = [] ->
  checkGateRBAC rbac pipelineID d =
    (Ok match db_pipelines d !! pipelineID with
        | Some p => rbac (pipelineScan.toStorage p)
        | None => Some (RError 404 "pipeline not found")
        end, d).
Proof.
  intros Hf. unfold checkGateRBAC, GetPipeline. run_sql Hf.
  by destruct (db_pipelines d !! pipelineID).
Qed.

(** A gate changes only while it is pending, under any failure. *)
Definition gates_frozen (d d' : db) : Prop :=
  forall id g, db_gates d !! id = Some g -> Status g <> GateStatusPending ->
    db_gates d' !! id = Some g.
#[export] Instance gates_frozen_preorder : PreOrder gates_frozen.
Proof. split; unfold gates_frozen, Reflexive, Transitive; eauto. Qed.
#[export] Instance gates_frozen_faults : FaultInsensitive gates_frozen.
Proof. intros d fs id g Hg _. exact Hg. Qed.

Lemma ResolveGate_frozen gateID status by_ :
  preserves gates_frozen (ResolveGate gateID status by_).
Proof.
  unfold ResolveGate. apply preserves_bind; [apply _|by apply preserves_gets|intros now].
  apply preserves_bind; [apply _| |intros n].
  - apply preserves_wrap, preserves_exec; [apply _..|].
    intros d id g Hg Hs. unfold resolve_gate_rows.
    destruct (db_gates d !! gateID) as [g0|] eqn:E; [|done].
    case_decide as Hp; [|done]. simpl.
    destruct (decide (id = gateID)) as [->|Hne]; [congruence|]. by rewrite lookup_insert_ne.
  - case_match; [by apply preserves_fail|by apply preserves_ret].
Qed.

Lemma poll_once_frozen jobName gateID deadline :
  preserves gates_frozen (poll_once jobName gateID deadline).
Proof.
  unfold poll_once. apply preserves_bind; [apply _|by apply preserves_gets|intros now].
  case_match.
  - apply preserves_bind; [apply _| |intros; by apply preserves_ret].
    apply preserves_ignore, ResolveGate_frozen.
  - apply preserves_bind; [apply _| |].
    + apply preserves_attempt. unfold GetGate.
      apply preserves_bind; [apply _| |intros a; case_match;
        [by apply preserves_ret|by apply preserves_fail]].
      apply preserves_wrap, preserves_query; apply _.
    + intros r. repeat case_match; by apply preserves_ret.
Qed.

Lemma GetGate_ok gateID d gate d' :
  GetGate gateID d = (Ok gate, d') ->
  exists g, db_gates d' !! gateID = Some g /\ gate = toStorage g.
Proof.
  unfold GetGate, query, exec. autounfold with go_monad.
  destruct (db_faults d) as [|[] fs]; [|by intros [=]|];
    destruct (db_gates _ !! gateID) as [g|] eqn:E; intros [=]; subst; eauto.
Qed.

(** What an iteration that lets the job pass saw. *)
Lemma poll_once_passed jobName gateID deadline d d' :
  poll_once jobName gateID deadline d = (Ok (Some GatePassed), d') ->
  exists g, db_gates d' !! gateID = Some g /\ Status g = GateStatusApproved.
Proof.
  unfold poll_once, bind, attempt, ignore, ret, time_Now, gets.
  destruct (_ && _); [by destruct (ResolveGate _ _ _ d) as [[] ?]|].
  destruct (GetGate gateID d) as [[gate|e] d1] eqn:E; [|by intros [=]].
  apply GetGate_ok in E as (g & Hg & ->). simpl.
  destruct (Status g) eqn:Es; intros [=]; subst. eauto.
Qed.
End gates_facts.

Section gates_clock.
Context `{!OrderBy}.

(** Statements do not move the clock. *)
Definition same_now (d d' : db) : Prop := db_now d' = db_now d.
#[export] Instance same_now_preorder : PreOrder same_now.
Proof. split; unfold same_now, Reflexive, Transitive; congruence. Qed.
#[export] Instance same_now_faults : FaultInsensitive same_now.
Proof. by intros d fs. Qed.

Lemma ResolveGate_same_now gateID status by_ :
  preserves same_now (ResolveGate gateID status by_).
Proof.
  unfold ResolveGate. apply preserves_bind; [apply _|by apply preserves_gets|intros now].
  apply preserves_bind; [apply _| |intros n].
  - apply preserves_wrap, preserves_exec; [apply _..|].
    intros d. unfold resolve_gate_rows, same_now. by repeat case_match.
  - case_match; [by apply preserves_fail|by apply preserves_ret].
Qed.

Lemma GetGate_same_now gateID : preserves same_now (GetGate gateID).
Proof.
  unfold GetGate. apply preserves_bind; [apply _| |intros a; case_match;
    [by apply preserves_ret|by apply preserves_fail]].
  apply preserves_wrap, preserves_query; apply _.
Qed.

Lemma poll_once_same_now jobName gateID deadline :
  preserves same_now (poll_once jobName gateID deadline).
Proof.
  unfold poll_once. apply preserves_bind; [apply _|by apply preserves_gets|intros now].
  case_match.
  - apply preserves_bind; [apply _| |intros; by apply preserves_ret].
    apply preserves_ignore, ResolveGate_same_now.
  - apply preserves_bind; [apply _|apply preserves_attempt, GetGate_same_now|].
    intros r. repeat case_match; by apply preserves_ret.
Qed.

Lemma poll_once_continues jobName gateID deadline d d' :
  deadline <> time_Zero -> poll_once jobName gateID deadline d = (Ok None, d') ->
  (db_now d <= deadline)%Z.
Proof.
  intros Hz. unfold poll_once, bind, time_Now, gets. rewrite (proj2 (Z.eqb_neq _ _) Hz).
  simpl. destruct (Z.ltb_spec deadline (db_now d)); [|lia].
  unfold ignore, ret. by destruct (ResolveGate _ _ _ d).
Qed.

Lemma poll_loop_terminates jobName gateID deadline env cancelled fuel n d :
  deadline <> time_Zero -> (forall k d, (db_now d <= db_now (env k d))%Z) ->
  (deadline < db_now d + Z.of_nat fuel * gatePollInterval - gatePollInterval)%Z ->
  0 < fuel ->
  is_Some (poll_loop jobName gateID deadline env cancelled fuel n d).
Proof.
  intros Hz Henv. revert n d. induction fuel as [|fuel IH]; intros n d Hb Hpos; [lia|].
  simpl. pose proof (poll_once_same_now jobName gateID deadline d) as Hnow.
  destruct (poll_once jobName gateID deadline d) as [[[o|]|e] d'] eqn:E; [done| |done].
  simpl in Hnow. unfold same_now in Hnow.
  apply poll_once_continues in E; [|done].
  destruct (cancelled n); [done|].
  specialize (Henv n (set_now (db_now d' + gatePollInterval)%Z d')). simpl in Henv.
  unfold gatePollInterval in *.
  apply IH; [lia|]. destruct fuel; [|lia]. exfalso. lia.
Qed.
End gates_clock.

(** ** Properties *)

(** every answer of the approve and reject endpoints when no statement
    fails: 500 for an unknown gate, 404 when its pipeline is gone, the access
    check's denial, 200 with the resolved gate when it was pending (the row
    then carries the decision, the actor and the time), and 409 with the
    earlier decision otherwise; only the 200 answer changes the database. *)
Theorem resolveGate_outcomes `{!OrderBy} rbac actor gateID status (d : db) :
  db_faults d = [] ->
  resolveGate rbac false actor gateID status d =
    match db_gates d !! gateID with
    | None => (Ok (RError 500 "internal server error"), d)
    | Some g =>
        match db_pipelines d !! PipelineID g with
        | None => (Ok (RError 404 "pipeline not found"), d)
        | Some p =>
            match rbac (pipelineScan.toStorage p) with
            | Some denial => (Ok denial, d)
            | None =>
                if decide (Status g = GateStatusPending) then
                  let g' := mk (ID g) (RunID g) (PipelineID g) (Name g) status
                              (Message g) actor (CreatedAt g) (Some (Unix (db_now d))) in
                  (Ok (RGate (toStorage g')), set_gates (insert gateID g') d)
                else (Ok (RError 409 ("gate is already " ++ GateStatus_string (Status g))), d)
            end
        end
    end.
Proof.
  intros Hf. unfold resolveGate, resolveGateNotFound, bind, attempt, ret.
  rewrite GetGate_no_faults by done.
  destruct (db_gates d !! gateID) as [g|] eqn:E; [|done].
  rewrite checkGateRBAC_no_faults by done. cbn [toStorage Gate.PipelineID].
  destruct (db_pipelines d !! PipelineID g) as [p|]; [|done].
  destruct (rbac _); [done|]. rewrite ResolveGate_no_faults, E by done.
  case_decide as Hs.
  - rewrite GetGate_no_faults by done. simpl. by rewrite lookup_insert_eq.
  - simpl. rewrite GetGate_no_faults, E by done. done.
Qed.

(** A decision is final. Whatever statements fail and whoever asks, the
    row of a gate that is approved, rejected or timed out is the same after an
    approve or reject request, after a poll of a waiting job, and after saving
    another gate. *)
Theorem gate_decision_final `{!OrderBy} rbac isHtmx actor gateID status
    jobName deadline gate (d : db) id g :
  db_gates d !! id = Some g -> Status g <> GateStatusPending ->
  db_gates (resolveGate rbac isHtmx actor gateID status d).2 !! id = Some g /\
  db_gates (poll_once jobName gateID deadline d).2 !! id = Some g /\
  db_gates (SaveGate gate d).2 !! id = Some g.
Proof.
  intros Hg Hs.
  assert (Hget : preserves gates_frozen (GetGate gateID)).
  { unfold GetGate. apply preserves_bind; [apply _| |intros a; case_match;
      [by apply preserves_ret|by apply preserves_fail]].
    apply preserves_wrap, preserves_query; apply _. }
  assert (Hnf : preserves gates_frozen (resolveGateNotFound gateID)).
  { unfold resolveGateNotFound. apply preserves_bind; [apply _|by apply preserves_attempt|].
    intros a. case_match; by apply preserves_ret. }
  split_and!.
  - assert (Hp : preserves gates_frozen (resolveGate rbac isHtmx actor gateID status)); [|by eapply Hp].
    unfold resolveGate. apply preserves_bind; [apply _|by apply preserves_attempt|].
    intros [gate'|e]; [|case_match; [done|by apply preserves_ret]].
    apply preserves_bind; [apply _| |intros [r|]; [by apply preserves_ret|]].
    { unfold checkGateRBAC, GetPipeline. apply preserves_bind; [apply _| |intros [?|?];
        by apply preserves_ret]. apply preserves_attempt, preserves_bind; [apply _| |].
      - apply preserves_wrap, preserves_query; apply _.
      - intros a. case_match; [by apply preserves_ret|by apply preserves_fail]. }
    apply preserves_bind; [apply _|apply preserves_attempt, ResolveGate_frozen|].
    intros [u|e]; [|case_match; [done|by apply preserves_ret]].
    case_match; [by apply preserves_ret|].
    apply preserves_bind; [apply _|by apply preserves_attempt|].
    intros [?|?]; by apply preserves_ret.
  - by eapply poll_once_frozen.
  - assert (Hp : preserves gates_frozen (SaveGate gate)); [|by eapply Hp].
    unfold SaveGate. apply preserves_bind; [apply _|by apply preserves_gets|intros now].
    apply preserves_wrap, preserves_exec; [apply _..|]. intros d0 id0 g0 Hg0 Hs0.
    case_decide as Hin; [done|]. case_decide; [|done]. simpl.
    rewrite lookup_insert_ne; [done|]. intros He. apply Hin. simpl. rewrite He. eauto.
Qed.

(** C38: the gate blocks. Whatever the rest of the system does between polls
    and whatever statements fail, a gated job goes on to its plan only if at
    that moment its gate's row is approved. *)
Theorem runGate_passed_approved `{!OrderBy} ParseDuration env cancelled fuel
    gateID runID pipelineID jobName message timeout (d d' : db) :
  runGate ParseDuration env cancelled fuel gateID runID pipelineID jobName
    message timeout d = Some (GatePassed, d') ->
  exists g, db_gates d' !! gateID = Some g /\ Status g = GateStatusApproved.
Proof.
  unfold runGate. destruct (SaveGate _ d) as [[[]|e] d1]; [|by intros [=]].
  assert (Hloop : forall deadline fuel n d1,
    poll_loop jobName gateID deadline env cancelled fuel n d1 = Some (GatePassed, d') ->
    exists g, db_gates d' !! gateID = Some g /\ Status g = GateStatusApproved).
  { intros deadline. clear. induction fuel as [|fuel IH]; intros n d1; simpl; [done|].
    destruct (poll_once jobName gateID deadline d1) as [[[o|]|e] d2] eqn:E; [|
      destruct (cancelled n); [by intros [=]|apply IH]|by intros [=]].
    intros [= -> ->]. by eapply poll_once_passed. }
  repeat case_match; try (intros [=]; fail); apply Hloop.
Qed.

(** a gate with a timeout does not wait for ever: if the clock never goes
    back, the loop ends within one poll per [gatePollInterval] of the timeout
    and two more, whatever else happens. *)
Theorem runGate_terminates `{!OrderBy} ParseDuration env cancelled
    gateID runID pipelineID jobName message timeout dur (d : db) :
  timeout <> "" -> ParseDuration timeout = Ok dur -> (0 <= dur)%Z ->
  (time_Zero < db_now d)%Z -> (forall k d, (db_now d <= db_now (env k d))%Z) ->
  is_Some (runGate ParseDuration env cancelled
    (Z.to_nat (dur / gatePollInterval) + 3) gateID runID pipelineID jobName
    message timeout d).
Proof.
  intros Ht Hd Hdur Hnow Henv. unfold runGate.
  assert (Hs : preserves same_now (SaveGate (Gate.mk gateID runID pipelineID jobName
    GateStatusPending message "" time_Zero None))).
  { unfold SaveGate. apply preserves_bind; [apply _|by apply preserves_gets|intros now].
    apply preserves_wrap, preserves_exec; [apply _..|].
    intros d0. unfold same_now. by repeat case_decide. }
  specialize (Hs d). destruct (SaveGate _ d) as [[[]|e] d1]; [|done].
  unfold same_now in Hs. simpl in Hs.
  rewrite decide_False, Hd by done. apply poll_loop_terminates; [lia|done| |lia].
  rewrite Hs. unfold gatePollInterval, nanosPerSecond.
  pose proof (Z.div_mod dur (2 * 1000000000) ltac:(lia)).
  pose proof (Z.mod_pos_bound dur (2 * 1000000000) ltac:(lia)).
  pose proof (Z.div_pos dur (2 * 1000000000) ltac:(lia) ltac:(lia)). lia.
Qed.

(** ** Witnesses *)
#[local] Existing Instance stable_order.
Definition ex_gate (st : GateStatus) : t := mk "g1" "r1" "p1" "deploy" st "" "" 4 None.
Definition ex_gate_db (st : GateStatus) : db :=
  set_gates (fun _ => {["g1" := ex_gate st]})
    (set_pipelines (fun _ => {["p1" := ex_row "p1" "deploy"]}) ex_cascade_db).
Definition ex_env (k : nat) (d : db) : db :=
  if decide (k = 1) then (resolveGate (fun _ => None) false "ann" "g2" GateStatusApproved d).2
  else d.

Lemma resolveGate_outcomes_witness :
  (resolveGate (fun _ => None) false "bob" "g1" GateStatusRejected
     (ex_gate_db GateStatusApproved)).1 = Ok (RError 409 "gate is already approved").
Proof.
  rewrite (resolveGate_outcomes (fun _ => None) "bob" "g1" GateStatusRejected
    (ex_gate_db GateStatusApproved) (eq_refl _)). vm_compute. reflexivity.
Defined.

Lemma gate_decision_final_witness :
  db_gates (resolveGate (fun _ => None) false "bob" "g1" GateStatusRejected
    (ex_gate_db GateStatusApproved)).2 !! "g1" = Some (ex_gate GateStatusApproved).
Proof.
  refine (proj1 (gate_decision_final (fun _ => None) false "bob" "g1" GateStatusRejected
    "deploy" 0%Z (Gate.mk "g3" "r1" "p1" "deploy" GateStatusPending "" "" 0%Z None)
    (ex_gate_db GateStatusApproved) "g1" (ex_gate GateStatusApproved) (eq_refl _) _)).
  discriminate.
Defined.

Definition ex_gate_run (fuel : nat) : option (gate_outcome * db) :=
  runGate (fun _ => Ok 10%Z) ex_env (fun _ => false) fuel "g2" "r1" "p1" "deploy" ""
    "" (ex_gate_db GateStatusPending).

Lemma runGate_passed_approved_witness :
  exists d' g, ex_gate_run 5 = Some (GatePassed, d') /\
    db_gates d' !! "g2" = Some g /\ Status g = GateStatusApproved.
Proof.
  destruct (ex_gate_run 5) as [[[|e] d']|] eqn:E; [|vm_compute in E; discriminate..].
  destruct (runGate_passed_approved (fun _ => Ok 10%Z) ex_env (fun _ => false) 5 "g2" "r1"
    "p1" "deploy" "" "" (ex_gate_db GateStatusPending) d' E) as (g & Hg & Hs).
  exists d', g. auto.
Defined.

Lemma runGate_terminates_witness :
  is_Some (runGate (fun _ => Ok 10%Z) (fun _ d => d) (fun _ => false)
    (Z.to_nat (10 / gatePollInterval) + 3) "g2" "r1" "p1" "deploy" "" "10ns"
    (ex_gate_db GateStatusPending)).
Proof.
  apply runGate_terminates; try reflexivity; try discriminate.
Defined.
