(* ===== verification/Memories.v ===== *)
(** * Webhook deduplication and agent memories
    (storage/sqlite/webhook_dedup.go, storage/sqlite/memory.go)

    Two insert-or-ignore tables. The full-text MATCH of the memory recall and
    its ranking are parameters. *)
From S2P Require Import Prelude Storage Json Db GoStrings Paging Ids.
From Stdlib Require Import Ascii.
Open Scope string_scope.

(** ** Deduplication keys *)

(** INSERT OR IGNORE: the primary key is ignored, the foreign key is not. *)
Definition insert_dedup (pipelineID keyHash : string) : ST db Z := exec (fun d =>
  if decide (is_Some (db_dedup d !! (pipelineID, keyHash))) then (Ok 0%Z, d)
  else if decide (is_Some (db_pipelines d !! pipelineID)) then
    (Ok 1%Z, set_dedup (insert (pipelineID, keyHash) (Unix (db_now d))) d)
  else (Err (ESentinel SSqlite), d)).

Definition RecordWebhookDedup (pipelineID keyHash : string) : ST db bool :=
  let! rows := wrap "record webhook dedup" (insert_dedup pipelineID keyHash) in
  ret (rows =? 0)%Z.

Definition PruneWebhookDedup (olderThan : time) : ST db Z :=
  wrap "prune webhook dedup" (exec (fun d =>
    let kept := filter (fun '(_, c) => ~ (c < Unix olderThan)%Z) (db_dedup d) in
    (Ok (Z.of_nat (size (db_dedup d)) - Z.of_nat (size kept))%Z,
     set_dedup (fun _ => kept) d))).

(** ** Agent memories *)
Definition memoryKey : Type := string * string * string.

Definition memory_toStorage (k : memoryKey) (r : memoryRow.t) : AgentMemory.t := {|
  AgentMemory.ID := memoryRow.ID r; AgentMemory.PipelineID := k.1.1;
  AgentMemory.AgentName := k.1.2; AgentMemory.ContentHash := k.2;
  AgentMemory.Tags := memoryRow.Tags r; AgentMemory.Content := memoryRow.Content r;
  AgentMemory.RecallCount := memoryRow.RecallCount r;
  AgentMemory.CreatedAt := time_Unix (memoryRow.CreatedAt r);
  AgentMemory.LastRecalled := time_Unix <$> memoryRow.LastRecalled r |}.

Definition quoteFTSPhrase (term : string) : string :=
  String quote "" ++ ReplaceByte term quote (String quote (String quote ""))
  ++ String quote "".

Section memories.
Context `{!Sha256, !OrderBy}.

Definition hashMemoryContent (content : string) : string := sha256_hex content.

Definition insert_memory (k : memoryKey) (tags : list string) (content : string)
    : ST db Z := exec (fun d =>
  if decide (is_Some (db_memories d !! k)) then (Ok 0%Z, d)
  else if decide (is_Some (db_pipelines d !! k.1.1)) then
    let id := (db_memories_seq d + 1)%Z in
    (Ok 1%Z, set_memories_seq id (set_memories
       (insert k (memoryRow.mk id tags content 0 (Unix (db_now d)) None)) d))
  else (Err (ESentinel SSqlite), d)).

Definition SaveAgentMemory (pipelineID agentName content : string)
    (tags : list string) : ST db (AgentMemory.t * bool) :=
  if decide (pipelineID = "") then fail (EMsg "pipelineID is required")
  else if decide (agentName = "") then fail (EMsg "agentName is required")
  else if decide (content = "") then fail (EMsg "content is required")
  else
    let k := (pipelineID, agentName, hashMemoryContent content) in
    let! rows := wrap "save agent memory" (insert_memory k tags content) in
    let deduped := (rows =? 0)%Z in
    let! row := wrap "fetch saved memory" (query (fun d => db_memories d !! k)) in
    match row with
    | Some r => ret (memory_toStorage k r, deduped)
    | None => fail (EWrap "fetch saved memory" (ESentinel SNoRows))
    end.

(** [created_at DESC, id DESC]; both are 64-bit and the id is positive. *)
Definition recency (kr : memoryKey * memoryRow.t) : Z :=
  (- (memoryRow.CreatedAt kr.2 * 2 ^ 64 + memoryRow.ID kr.2))%Z.

Definition scope_rows (pipelineID agentName : string) (d : db)
    : list (memoryKey * memoryRow.t) :=
  List.filter (fun kr => bool_decide (kr.1.1.1 = pipelineID)
                         && bool_decide (kr.1.1.2 = agentName))
    (map_to_list (db_memories d)).

Definition match_terms (q : string) (tags : list string) : list string :=
  ((if decide (TrimSpace q = "") then [] else [quoteFTSPhrase q])
   ++ ((fun tag => ("tags:" ++ quoteFTSPhrase tag)%string) <$>
        List.filter (fun tag => negb (bool_decide (TrimSpace tag = ""))) tags))%list.

(** [fts match row] and its rank. *)
Context (fts : string -> memoryRow.t -> bool) (rank : string -> memoryRow.t -> Z).

Definition recall_rows (pipelineID agentName q : string) (tags : list string)
    (limit : Z) (d : db) : list (memoryKey * memoryRow.t) :=
  let terms := match_terms q tags in
  take (Z.to_nat limit)
    (if decide (terms = []) then order_by recency (scope_rows pipelineID agentName d)
     else
       let m := Join terms " " in
       order_by (fun kr => rank m kr.2)
         (List.filter (fun kr => fts m kr.2) (scope_rows pipelineID agentName d))).

Definition bump (now : Z) (r : memoryRow.t) : memoryRow.t :=
  memoryRow.mk (memoryRow.ID r) (memoryRow.Tags r) (memoryRow.Content r)
    (memoryRow.RecallCount r + 1) (memoryRow.CreatedAt r) (Some now).

Definition RecallAgentMemories (pipelineID agentName q : string)
    (tags : list string) (limit : Z) : ST db (list AgentMemory.t) :=
  if decide (pipelineID = "") then fail (EMsg "pipelineID is required")
  else if decide (agentName = "") then fail (EMsg "agentName is required")
  else
    let limit := if (limit <=? 0)%Z then 5%Z else limit in
    let! rows := wrap "recall agent memories"
      (query (recall_rows pipelineID agentName q tags limit)) in
    if decide (rows = []) then ret []
    else
      let! now := time_Now in
      let ids := (fun kr => memoryRow.ID kr.2) <$> rows in
      wrap "bump recall_count" (update (set_memories (fmap (fun r =>
        if bool_decide (memoryRow.ID r ∈ ids) then bump (Unix now) r else r)))) ;;;
      ret ((fun kr => memory_toStorage kr.1 (bump (Unix now) kr.2)) <$> rows).
End memories.

(** ** Facts *)
Lemma RecordWebhookDedup_no_faults pipelineID keyHash d :
  db_faults d = [] -> is_Some (db_pipelines d !! pipelineID) ->
  RecordWebhookDedup pipelineID keyHash d =
    (Ok (bool_decide (is_Some (db_dedup d !! (pipelineID, keyHash)))),
     if decide (is_Some (db_dedup d !! (pipelineID, keyHash))) then d
     else set_dedup (insert (pipelineID, keyHash) (Unix (db_now d))) d).
Proof.
  intros Hf Hp. unfold RecordWebhookDedup, insert_dedup. run_sql Hf.
  case_decide as Hk; simpl.
  - by rewrite bool_decide_true.
  - rewrite decide_True by done. simpl. by rewrite bool_decide_false.
Qed.

(** a delivery is a duplicate exactly while its key is remembered. On a
    known pipeline and without failing statements, the first delivery of a key
    is not a duplicate, every later one is until a prune whose cutoff lies
    after the second it was recorded in, and then the key is new again; other
    keys are not affected. *)
Theorem RecordWebhookDedup_window (d : db) pipelineID key key' cutoff :
  db_faults d = [] -> is_Some (db_pipelines d !! pipelineID) ->
  db_dedup d !! (pipelineID, key) = None ->
  exists d1, RecordWebhookDedup pipelineID key d = (Ok false, d1) /\
    RecordWebhookDedup pipelineID key d1 = (Ok true, d1) /\
    (key' <> key -> (RecordWebhookDedup pipelineID key' d1).1
                    = (RecordWebhookDedup pipelineID key' d).1) /\
    (RecordWebhookDedup pipelineID key (PruneWebhookDedup cutoff d1).2).1
      = Ok (bool_decide (Unix cutoff <= Unix (db_now d))%Z).
Proof.
  intros Hf Hp Hnew. eexists. rewrite RecordWebhookDedup_no_faults by done.
  rewrite Hnew. rewrite bool_decide_false by (by intros [? ?]).
  rewrite decide_False by (by intros [? ?]). split; [done|].
  set (d1 := set_dedup _ d).
  assert (Hk : db_dedup d1 !! (pipelineID, key) = Some (Unix (db_now d)))
    by apply lookup_insert_eq.
  split_and!.
  - rewrite RecordWebhookDedup_no_faults by done. rewrite Hk.
    rewrite bool_decide_true by eauto. by rewrite decide_True by eauto.
  - intros Hne. rewrite !RecordWebhookDedup_no_faults by done. simpl.
    by rewrite lookup_insert_ne by congruence.
  - unfold PruneWebhookDedup, wrap, exec. change (db_faults d1) with (db_faults d).
    rewrite Hf. simpl. rewrite RecordWebhookDedup_no_faults by done. simpl. f_equal.
    apply bool_decide_ext. unfold is_Some. setoid_rewrite map_lookup_filter_Some.
    rewrite lookup_insert_eq. split.
    + intros (c & [= <-] & Hc). lia.
    + intros Hc. eexists. split; [done|lia].
Qed.

Definition ex_dedup_db : db :=
  set_pipelines (fun _ => {["p1" := pipelineScan.mk "p1" "build" "" "" "" 0 0 "" "" "" 0 0 0]})
    (set_now (time_Unix 100) empty_db).

Lemma RecordWebhookDedup_window_witness :
  exists d1, RecordWebhookDedup "p1" "k" ex_dedup_db = (Ok false, d1) /\
    RecordWebhookDedup "p1" "k" d1 = (Ok true, d1).
Proof.
  destruct (RecordWebhookDedup_window ex_dedup_db "p1" "k" "k2" (time_Unix 100))
    as (d1 & H1 & H2 & _); [reflexivity|by eexists|reflexivity|].
  exists d1. split; [exact H1|exact H2].
Defined.
