(* ===== verification/Config.v ===== *)
(** * The pipeline configuration (backwards/config.go, backwards/schedules.go)

    The structs the YAML unmarshals to. A pointer to a struct is an [option],
    a map from strings a [gmap]. The fields of an agent step that only the
    agent runtime reads (LLM parameters, prompts' limits, memory, output
    schema) are left out; so is the Icon of a resource. A [map[string]any] is a
    map to JSON values. *)
From S2P Require Import Prelude Storage Json GoStrings Paging.
From Stdlib Require Import Ascii.
Open Scope string_scope.

(** [%q] of a text without special characters. *)
Definition q (s : string) : string := String quote "" ++ s ++ String quote "".

Module ContainerLimits.
Record t := mk { CPU : Z; CPUKind : string; Memory : Z }.
Definition zero : t := mk 0 "" 0.
End ContainerLimits.

Module TaskConfigRun.
Record t := mk { Args : list string; Dir : string; Path : string; User : string }.
End TaskConfigRun.

Module Input.
Record t := mk { Name : string; SizeGB : Z }.
End Input.
Module Output.
Record t := mk { Name : string; SizeGB : Z }.
End Output.
Module Cache.
Record t := mk { Path : string; Scope_ : string; SizeGB : Z }.
End Cache.

Module ImageResource.
(** The repository and tag of [source], when they are strings. *)
Record t := mk { Source : gmap string string; Type_ : string }.
End ImageResource.

Module TaskConfig.
Record t := mk {
    Caches : list Cache.t; ContainerLimits : ContainerLimits.t;
    Limits : ContainerLimits.t; Env : gmap string string; Image : string;
    ImageResource : ImageResource.t; Inputs : list Input.t;
    Outputs : list Output.t; Platform : string; Run : option TaskConfigRun.t }.
End TaskConfig.

Definition limits_set (l : ContainerLimits.t) : bool :=
  negb (ContainerLimits.Memory l =? 0)%Z || negb (ContainerLimits.CPU l =? 0)%Z
  || negb (bool_decide (ContainerLimits.CPUKind l = "")).

Definition EffectiveLimits (t : TaskConfig.t) : ContainerLimits.t :=
  if limits_set (TaskConfig.Limits t) then TaskConfig.Limits t
  else TaskConfig.ContainerLimits t.

(** The [any] of a version field: absent, a string, a map, something else. *)
Inductive version : Type :=
  | VNil
  | VString (s : string)
  | VMap (m : gmap string (option string))      (* None: not a string *)
  | VOther.

Module GetConfig.
Record t := mk {
    Resource : string; Passed : list string; Trigger : bool; Version : version }.
End GetConfig.

Definition GetVersionMode (g : GetConfig.t) : string :=
  match GetConfig.Version g with
  | VNil => "latest"
  | VString s => if decide (s = "every") then "every" else "latest"
  | VMap _ | VOther => "pinned"
  end.

Definition GetPinnedVersion (g : GetConfig.t) : option (gmap string string) :=
  match GetConfig.Version g with
  | VMap m => Some (omap id m)
  | _ => None
  end.

Module PutConfig.
Record t := mk { GetParams : gmap string string; Inputs : list string; NoGet : bool }.
End PutConfig.

Module AcrossVar.
Record t := mk { Var : string; Values : list string; MaxInFlight : Z }.
End AcrossVar.

Module StepAssert.
Record t := mk { Code : option Z; Stderr : string; Stdout : string }.
End StepAssert.

Module BuildImageConfig.
Record t := mk { Name : string; Context_ : string; Tag : string; Push : bool }.
End BuildImageConfig.

(** The [any] of a notify field. *)
Inductive notify : Type :=
  | NNil
  | NString (s : string)
  | NList (l : list (option string)).           (* None: not a string *)

Inductive Step : Type := mkStep {
  Assert_ : option StepAssert.t;
  Task : string; Parallelism : Z; TaskConfig_ : option TaskConfig.t;
  ContainerLimits_ : option ContainerLimits.t; File_ : string; URI : string;
  Image : string; Privileged : bool;
  Agent : string; Prompt : string; PromptFile : string;
  BuildImage : option BuildImageConfig.t;
  Get_ : string; GetConfig_ : GetConfig.t;
  Put_ : string; PutConfig_ : option PutConfig.t;
  Params : option (gmap string string);
  Notify : notify; Message : string; Async : bool;
  Do : list Step;
  Ensure : option Step; OnAbort : option Step; OnError : option Step;
  OnSuccess : option Step; OnFailure : option Step;
  Try_ : list Step;
  InParallel_Steps : list Step; InParallel_Limit : Z; InParallel_FailFast : bool;
  Across : list AcrossVar.t; AcrossFailFast : bool;
  Attempts : Z; Timeout_ : Z }.

Definition NotifyNames (s : Step) : list string :=
  match Notify s with
  | NString v => if decide (v = "") then [] else [v]
  | NList l => omap id l
  | NNil => []
  end.

Module WebhookTriggerConfig.
Record t := mk { Filter : string; DedupKey : string; Params : gmap string string }.
End WebhookTriggerConfig.
Module ScheduleTriggerConfig.
Record t := mk { Cron : string; Every : string }.
End ScheduleTriggerConfig.
Module Triggers.
Record t := mk {
    Webhook : option WebhookTriggerConfig.t;
    Schedule : option ScheduleTriggerConfig.t; Passed : list string }.
End Triggers.
Module GateConfig.
Record t := mk { Message : string; Timeout : string }.
End GateConfig.
Module BuildLogRetention.
Record t := mk { Builds : Z; Days : Z }.
End BuildLogRetention.

Module Job.
Record t := mk {
    (* assert, and in it the execution list, which may be absent *)
    Assert_ : option (option (list string));
    BuildLogRetention : option BuildLogRetention.t;
    Name : string; Plan : list Step; DependsOn : list string;
    Gate : option GateConfig.t; MaxInFlight : Z; Public : bool;
    Ensure : option Step; OnAbort : option Step; OnError : option Step;
    OnSuccess : option Step; OnFailure : option Step; Timeout : Z;
    Triggers : option Triggers.t; WebhookTrigger : string }.
End Job.

Module ResourceType.
Record t := mk { Name : string; Source : option (gmap string json); Type_ : string }.
End ResourceType.
Module Resource.
Record t := mk { Name : string; Source : option (gmap string json); Type_ : string }.
End Resource.

Module Config.
Record t := mk {
    Assert_ : option (list string); MaxInFlight : Z; Jobs : list Job.t;
    Resources : list Resource.t; ResourceTypes : list ResourceType.t }.
End Config.

(** ** Byte sizes *)

(** [strconv.ParseInt(s, 10, 64)] for a text that does end in a digit or is
    empty: an optional sign and decimal digits, in range. *)
Fixpoint parse_digits (s : string) (acc : Z) : option Z :=
  match s with
  | EmptyString => Some acc
  | String a s' =>
      if is_digit a
      then parse_digits s' (acc * 10 + Z.of_nat (nat_of_ascii a - 48))%Z
      else None
  end.
Definition ParseInt64 (s : string) : option Z :=
  let n := match s with
           | String "-" (String _ _ as s') => Z.opp <$> parse_digits s' 0
           | String "+" (String _ _ as s') => parse_digits s' 0
           | EmptyString => None
           | _ => parse_digits s 0
           end in
  match n with
  | Some z => if bool_decide (int64_ok z) then Some z else None
  | None => None
  end.

#[export] Instance int64_ok_dec z : Decision (int64_ok z).
Proof. unfold int64_ok. apply _. Defined.

Definition multipliers (unit : string) : option Z :=
  if decide (unit = "") then Some 1%Z
  else if decide (unit = "b") then Some 1%Z
  else if decide (unit = "kb") then Some 1000%Z
  else if decide (unit = "kib") then Some 1024%Z
  else if decide (unit = "mb") then Some (1000 * 1000)%Z
  else if decide (unit = "mib") then Some (1024 * 1024)%Z
  else if decide (unit = "gb") then Some (1000 * 1000 * 1000)%Z
  else if decide (unit = "gib") then Some (1024 * 1024 * 1024)%Z
  else if decide (unit = "tb") then Some (1000 * 1000 * 1000 * 1000)%Z
  else if decide (unit = "tib") then Some (1024 * 1024 * 1024 * 1024)%Z
  else None.

(** The index after the last digit: the number is what is before it. *)
Fixpoint last_digit_end (s : string) (i best : nat) : nat :=
  match s with
  | EmptyString => best
  | String a s' => last_digit_end s' (S i) (if is_digit a then S i else best)
  end.

Fixpoint prefix_string (n : nat) (s : string) : string :=
  match n, s with
  | S n', String a s' => String a (prefix_string n' s')
  | _, _ => ""
  end.

(** What the YAML scalar is: an integer, a string, or neither. *)
Inductive yaml_scalar : Type :=
  | YInt (n : Z)
  | YString (s : string)
  | YOther.

Definition ByteSize_UnmarshalYAML (v : yaml_scalar) : result Z :=
  match v with
  | YInt n => Ok n
  | YOther => Err (EMsg "bytesize: expected integer or string")
  | YString s =>
      let s := TrimSpace s in
      if decide (s = "") then Ok 0%Z
      else
        let i := last_digit_end s 0 0 in
        let numStr := prefix_string i s in
        let unit := ToLower (TrimSpace (drop_string i s)) in
        match ParseInt64 numStr with
        | None => Err (EMsg ("bytesize: cannot parse " ++ q s))
        | Some val =>
            match multipliers unit with
            | None => Err (EMsg ("bytesize: unknown unit " ++ q unit ++ " in " ++ q s))
            | Some mult => Ok (int64_wrap (val * mult))
            end
        end
  end.

(** ** Schedules *)
Module ScheduleFromJob.
Record t := mk { JobName : string; Type_ : ScheduleType; Expr : string }.
End ScheduleFromJob.

(** [cron.Parser.Parse(expr).Next] and [time.ParseDuration]. *)
Class Clockwork : Type := {
  cron_next : string -> option (time -> time);
  ParseDuration : string -> result Z }.

Section schedules.
Context `{!Clockwork}.

(** scheduler/scheduler.go *)
Definition ComputeNextRun (schedType : ScheduleType) (expr : string)
    (from : time) : result time :=
  match schedType with
  | ScheduleTypeCron =>
      match cron_next expr with
      | Some next => Ok (next from)
      | None => Err (EMsg ("invalid cron expression " ++ q expr))
      end
  | ScheduleTypeInterval =>
      match ParseDuration expr with
      | Ok d => Ok (from + d)%Z
      | Err e => Err (EWrap ("invalid interval " ++ q expr) e)
      end
  | ScheduleTypeOther s => Err (EMsg ("unknown schedule type " ++ q s))
  end.

(** The body of [ExtractSchedules] after the YAML is parsed. *)
Fixpoint ExtractSchedules (jobs : list Job.t) : result (list ScheduleFromJob.t) :=
  match jobs with
  | [] => Ok []
  | job :: rest =>
      match Job.Triggers job ≫= Triggers.Schedule with
      | None => ExtractSchedules rest
      | Some sched =>
          let kind :=
            if negb (bool_decide (ScheduleTriggerConfig.Cron sched = ""))
            then Some (ScheduleTypeCron, ScheduleTriggerConfig.Cron sched)
            else if negb (bool_decide (ScheduleTriggerConfig.Every sched = ""))
            then Some (ScheduleTypeInterval, ScheduleTriggerConfig.Every sched)
            else None in
          match kind with
          | None => Err (EMsg ("job " ++ q (Job.Name job)
                      ++ ": schedule trigger must specify either cron or every"))
          | Some (ty, expr) =>
              match ComputeNextRun ty expr (time_Unix 0) with
              | Err e => Err (EWrap ("job " ++ q (Job.Name job)) e)
              | Ok _ =>
                  match ExtractSchedules rest with
                  | Err e => Err e
                  | Ok l => Ok (ScheduleFromJob.mk (Job.Name job) ty expr :: l)
                  end
              end
          end
      end
  end.
End schedules.

(** The data of a webhook request (runtime/jsapi). *)
Module WebhookData.
Record t := mk {
    Provider : string; EventType : string; Method : string; URL : string;
    Headers : gmap string string; Body : string; Query : gmap string string }.
End WebhookData.

(** ** Induction on steps *)

(** The steps a step holds directly. *)
Definition option_list {A} (o : option A) : list A := match o with Some a => [a] | None => [] end.
Definition hooks (s : Step) : list Step :=
  (option_list (Ensure s) ++ option_list (OnAbort s) ++ option_list (OnError s)
    ++ option_list (OnSuccess s) ++ option_list (OnFailure s))%list.

Definition Forall_all {A} (P : A -> Prop) (f : forall a, P a) : forall l, Forall P l :=
  fix go l := match l with
              | [] => @List.Forall_nil A P
              | a :: l => @List.Forall_cons A P a l (f a) (go l)
              end.

Definition Forall_option {A} (P : A -> Prop) (f : forall a, P a) (o : option A)
    : Forall P (option_list o) :=
  match o with
  | Some a => @List.Forall_cons A P a [] (f a) (@List.Forall_nil A P)
  | None => @List.Forall_nil A P
  end.

Fixpoint Step_nested_ind (P : Step -> Prop)
    (H : forall s, Forall P (Do s) -> Forall P (Try_ s) -> Forall P (InParallel_Steps s) ->
       Forall P (hooks s) -> P s) (s : Step) {struct s} : P s :=
  let rec := Step_nested_ind P H in
  H s (Forall_all P rec (Do s)) (Forall_all P rec (Try_ s))
    (Forall_all P rec (InParallel_Steps s))
    (Forall_app_2 P _ _ (Forall_option P rec (Ensure s))
      (Forall_app_2 P _ _ (Forall_option P rec (OnAbort s))
        (Forall_app_2 P _ _ (Forall_option P rec (OnError s))
          (Forall_app_2 P _ _ (Forall_option P rec (OnSuccess s))
            (Forall_option P rec (OnFailure s)))))).
