(* ===== verification/Fetch.v ===== *)
(** * fetch() and its guard (runtime/jsapi/fetch.go)

    What a pipeline may fetch: the addresses that are refused, the dialer that
    refuses them, and the call with its limits. An address is its 128-bit
    number, as [net.IP] keeps it; name resolution, the connection and the HTTP
    client are parameters. [isPrivateIP_exact]: the refused addresses as
    intervals; [Dial_never_private]: what the dialer connects to. *)
From S2P Require Import Prelude Storage Json GoStrings Paging Config.
From Stdlib Require Import Ascii.
Open Scope string_scope.
#[local] Open Scope Z_scope.

(** ** Addresses ([net.ParseIP], [net.ParseCIDR]) *)
Definition digit_value (a : ascii) : Z := Z.of_nat (nat_of_ascii a) - 48.
Definition hex_value (a : ascii) : option Z :=
  let n := Z.of_nat (nat_of_ascii (to_lower_ascii a)) in
  if is_digit a then Some (digit_value a)
  else if decide (97 <= n <= 102) then Some (n - 87) else None.
Fixpoint read_base (base : Z) (value : ascii -> option Z) (acc : Z) (s : string) : option Z :=
  match s with
  | EmptyString => Some acc
  | String a s => match value a with Some d => read_base base value (acc * base + d) s | None => None end
  end.
Definition dec_value (a : ascii) : option Z := if is_digit a then Some (digit_value a) else None.

(** A byte without leading zeros. *)
Definition read_octet (s : string) : option Z :=
  if decide ((String.length s = 0)%nat \/ (3 < String.length s)%nat \/ ((1 < String.length s)%nat /\ HasPrefix s "0" = true)) then None
  else match read_base 10 dec_value 0 s with
       | Some n => if decide (n <= 255) then Some n else None
       | None => None
       end.
Definition parseIPv4 (s : string) : option Z :=
  match read_octet <$> Split s "." with
  | [Some a; Some b; Some c; Some d] => Some (((a * 256 + b) * 256 + c) * 256 + d)
  | _ => None
  end.

Definition read_word (s : string) : option Z :=
  if decide ((String.length s = 0)%nat \/ (4 < String.length s)%nat) then None
  else read_base 16 hex_value 0 s.
(** Words separated by colons; the last two may be an IPv4 address. *)
Fixpoint read_words (tail : bool) (fields : list string) : option (list Z) :=
  match fields with
  | [] => Some []
  | [s] =>
      match read_word s with
      | Some w => Some [w]
      | None => if tail then (fun a => [Z.shiftr a 16; Z.land a 65535]) <$> parseIPv4 s else None
      end
  | s :: fields =>
      match read_word s with Some w => cons w <$> read_words tail fields | None => None end
  end.
Definition read_side (tail : bool) (s : string) : option (list Z) :=
  if decide (s = ""%string) then Some [] else read_words tail (Split s ":").
Definition of_words (ws : list Z) : Z := foldl (fun acc w => acc * 65536 + w) 0 ws.

Fixpoint cut_ellipsis (s : string) : option (string * string) :=
  if HasPrefix s "::" then Some (""%string, drop_string 2 s)
  else match s with
       | EmptyString => None
       | String a s => prod_map (String a) id <$> cut_ellipsis s
       end.
Definition parseIPv6 (s : string) : option Z :=
  match cut_ellipsis s with
  | Some (l, r) =>
      match read_side false l, read_side true r with
      | Some l, Some r =>
          if decide ((length l + length r < 8)%nat)
          then Some (of_words (l ++ replicate (8 - length l - length r) 0 ++ r)) else None
      | _, _ => None
      end
  | None =>
      match read_words true (Split s ":") with
      | Some ws => if decide (length ws = 8%nat) then Some (of_words ws) else None
      | None => None
      end
  end.

(** An IPv4 address is kept as the IPv6 address it is mapped to. *)
Definition v4_mapped : Z := 65535 * 2 ^ 32.
Definition has_colon (s : string) : bool := Contains s ":".
Definition ParseIP (s : string) : option Z :=
  if has_colon s then parseIPv6 s else (fun a => v4_mapped + a) <$> parseIPv4 s.

(** [IP.To4]: the width and the number. *)
Definition To4 (ip : Z) : Z * Z :=
  if decide (Z.shiftr ip 32 = 65535) then (32, Z.land ip (2 ^ 32 - 1)) else (128, ip).

Module IPNet.
Record t := mk { Width : Z; Base : Z; Prefix : Z }.
Definition Contains (n : t) (ip : Z) : bool :=
  let '(width, a) := To4 ip in
  bool_decide (width = Width n)
  && bool_decide (Z.shiftr a (Width n - Prefix n) = Z.shiftr (Base n) (Width n - Prefix n)).
End IPNet.

Definition ParseCIDR (s : string) : option IPNet.t :=
  match Split s "/" with
  | [addr; len] =>
      match ParseIP addr, read_base 10 dec_value 0 len with
      | Some ip, Some prefix =>
          let '(width, a) := if has_colon addr then (128, ip) else To4 ip in
          if decide (len <> ""%string /\ prefix <= width) then Some (IPNet.mk width a prefix) else None
      | _, _ => None
      end
  | _ => None
  end.

(** ** The guard *)
Definition private_blocks : list string :=
  ["127.0.0.0/8"; "10.0.0.0/8"; "172.16.0.0/12"; "192.168.0.0/16"; "169.254.0.0/16"; "100.64.0.0/10";
   "::1/128"; "fc00::/7"; "fe80::/10"]%string.
Definition privateIPRanges : list IPNet.t := omap ParseCIDR private_blocks.
Definition isPrivateIP (ip : Z) : bool := existsb (fun network => IPNet.Contains network ip) privateIPRanges.

(** The intervals of the refused addresses: four bytes, and sixteen. *)
Definition private_v4 (a : Z) : Prop :=
  127 * 2 ^ 24 <= a < 128 * 2 ^ 24                                   (* 127.* *)
  \/ 10 * 2 ^ 24 <= a < 11 * 2 ^ 24                                  (* 10.* *)
  \/ (172 * 256 + 16) * 2 ^ 16 <= a < (172 * 256 + 32) * 2 ^ 16      (* 172.16.* to 172.31.* *)
  \/ (192 * 256 + 168) * 2 ^ 16 <= a < (192 * 256 + 169) * 2 ^ 16    (* 192.168.* *)
  \/ (169 * 256 + 254) * 2 ^ 16 <= a < (169 * 256 + 255) * 2 ^ 16    (* 169.254.* *)
  \/ (100 * 256 + 64) * 2 ^ 16 <= a < (100 * 256 + 128) * 2 ^ 16.    (* 100.64.* to 100.127.* *)
Definition private_v6 (a : Z) : Prop :=
  a = 1                                                              (* ::1 *)
  \/ 252 * 2 ^ 120 <= a < 254 * 2 ^ 120                              (* fc and fd *)
  \/ 65152 * 2 ^ 112 <= a < 65216 * 2 ^ 112.                         (* fe80 to febf *)
Definition private_address (ip : Z) : Prop :=
  (v4_mapped <= ip < v4_mapped + 2 ^ 32 /\ private_v4 (ip - v4_mapped)) \/
  (~ (v4_mapped <= ip < v4_mapped + 2 ^ 32) /\ private_v6 ip).

Lemma shiftr_interval a n c : 0 <= n -> Z.shiftr a n = c <-> c * 2 ^ n <= a < (c + 1) * 2 ^ n.
Proof.
  intros Hn. rewrite Z.shiftr_div_pow2 by done. assert (0 < 2 ^ n) by (apply Z.pow_pos_nonneg; lia).
  split.
  - intros <-. pose proof (Z.mul_div_le a (2 ^ n) ltac:(lia)). pose proof (Z.mul_succ_div_gt a (2 ^ n) ltac:(lia)). lia.
  - intros Hc. symmetry. apply (Z.div_unique_pos a (2 ^ n) c (a - c * 2 ^ n)); lia.
Qed.
Lemma contains_interval ip width base prefix :
  prefix <= width ->
  IPNet.Contains (IPNet.mk width base prefix) ip = true <->
  (To4 ip).1 = width /\
  Z.shiftr base (width - prefix) * 2 ^ (width - prefix) <= (To4 ip).2 < (Z.shiftr base (width - prefix) + 1) * 2 ^ (width - prefix).
Proof.
  intros Hp. unfold IPNet.Contains. destruct (To4 ip) as [w a]. cbn.
  rewrite andb_true_iff, !bool_decide_eq_true, shiftr_interval by lia. done.
Qed.
Lemma To4_spec ip :
  (v4_mapped <= ip < v4_mapped + 2 ^ 32 /\ To4 ip = (32, ip - v4_mapped)) \/
  (~ (v4_mapped <= ip < v4_mapped + 2 ^ 32) /\ To4 ip = (128, ip)).
Proof.
  unfold To4. destruct (decide (Z.shiftr ip 32 = 65535)) as [He|Hne].
  - apply shiftr_interval in He; [|done]. left. unfold v4_mapped. split; [lia|]. f_equal.
    change (2 ^ 32 - 1) with (Z.ones 32). rewrite Z.land_ones by done.
    symmetry. apply (Z.mod_unique_pos ip (2 ^ 32) 65535); lia.
  - right. split; [|done]. unfold v4_mapped. rewrite shiftr_interval in Hne by done. lia.
Qed.

(** The addresses that are refused, exactly: the loopback, private, shared
    and link-local intervals of IPv4, also as mapped addresses of IPv6, and
    those of IPv6. *)
Theorem isPrivateIP_exact ip : isPrivateIP ip = true <-> private_address ip.
Proof.
  unfold isPrivateIP.
  assert (Hl : existsb (fun network => IPNet.Contains network ip) privateIPRanges = true <->
    Exists (fun network => IPNet.Contains network ip = true) privateIPRanges).
  { rewrite existsb_exists, Exists_exists. setoid_rewrite list_elem_of_In. done. }
  rewrite Hl. clear Hl.
  assert (Hr : privateIPRanges =
    [IPNet.mk 32 (127 * 2 ^ 24) 8; IPNet.mk 32 (10 * 2 ^ 24) 8; IPNet.mk 32 ((172 * 256 + 16) * 2 ^ 16) 12;
     IPNet.mk 32 ((192 * 256 + 168) * 2 ^ 16) 16; IPNet.mk 32 ((169 * 256 + 254) * 2 ^ 16) 16;
     IPNet.mk 32 ((100 * 256 + 64) * 2 ^ 16) 10; IPNet.mk 128 1 128; IPNet.mk 128 (252 * 2 ^ 120) 7;
     IPNet.mk 128 (65152 * 2 ^ 112) 10]) by (vm_compute; reflexivity).
  rewrite Hr. clear Hr. rewrite !Exists_cons, Exists_nil, !contains_interval by lia.
  unfold private_address, private_v4, private_v6.
  destruct (To4_spec ip) as [[Hip ->]|[Hip ->]]; cbn [fst snd];
    repeat match goal with |- context [Z.shiftr ?x ?y] =>
      let v := eval vm_compute in (Z.shiftr x y) in change (Z.shiftr x y) with v end;
    repeat match goal with |- context [2 ^ ?y] =>
      let v := eval vm_compute in (2 ^ y) in change (2 ^ y) with v end;
    change v4_mapped with 281470681743360 in *; lia.
Qed.

(** ** The dialer and the call *)
Module FetchResponse.
Record t := mk { Status : Z; StatusText : string; OK : bool; Headers : gmap string string; bodyText : string }.
Definition Text (r : t) : string := bodyText r.
End FetchResponse.
(** [Json] parses the text. *)
Definition FetchResponse_Json {V} (unmarshal : string -> result V) (r : FetchResponse.t) : result V :=
  match unmarshal (FetchResponse.bodyText r) with
  | Err e => Err (EWrap "could not parse JSON" e)
  | Ok v => Ok v
  end.

Definition defaultFetchTimeout : Z := 30 * nanosPerSecond.
Definition defaultFetchMaxResponseBytes : Z := 10 * 1024 * 1024.

Module FetchRuntime.
Record t := mk { Disabled : bool; BlockPrivateIPs : bool; timeout : Z; maxResponseBytes : Z }.
End FetchRuntime.
Definition NewFetchRuntime (timeout maxResponseBytes : Z) : FetchRuntime.t :=
  FetchRuntime.mk false true
    (if decide (timeout <= 0) then defaultFetchTimeout else timeout)
    (if decide (maxResponseBytes <= 0) then defaultFetchMaxResponseBytes else maxResponseBytes).

(** The options object of a call, by key. *)
Module fetchOpts.
Record t := mk {
  method : option string; headers : option (result (gmap string string)); body : option string; timeout : option Z }.
End fetchOpts.
Module fetchRequest.
Record t := mk { url : string; method : string; headers : gmap string string; body : string; timeout : Z }.
End fetchRequest.

(** What a server answers: its status, its headers, the body until it ends or
    breaks off. *)
Module rawResponse.
Record t := mk { StatusCode : Z; Header : gmap string (list string); Body : string; BodyErr : option err }.
End rawResponse.

Lemma length_substring n s : String.length (String.substring 0 n s) = Nat.min n (String.length s).
Proof. revert n. induction s as [|a s IH]; intros [|n]; cbn; [done..|]. by rewrite IH. Qed.

Section fetch.
Context {W Conn : Type}.
Context (SplitHostPort : string -> result (string * string)) (JoinHostPort : string -> string -> string).
Context (LookupHost : string -> W -> result (list string) * W).
Context (DialContext : string -> string -> W -> result Conn * W).
Context (Execute : (string -> string -> ST W Conn) -> fetchRequest.t -> ST W rawResponse.t).
Context (http_StatusText : Z -> string) (ToUpper : string -> string).

Definition private_text (a : string) : bool :=
  match ParseIP a with Some ip => isPrivateIP ip | None => false end.

Definition ssrfSafeDialer (network addr : string) : ST W Conn :=
  match SplitHostPort addr with
  | Err e => fail (EWrap ("invalid address " ++ q addr) e)
  | Ok (host, port) =>
      let! addrs := wrap ("could not resolve " ++ q host) (LookupHost host) in
      match List.find private_text addrs with
      | Some a => fail (EMsg ("fetch blocked: " ++ q host ++ " resolves to private address " ++ a))
      | None =>
          match addrs with
          | [] => fail (ESentinel SPanic)
          | a :: _ => DialContext network (JoinHostPort a port)
          end
      end
  end.

(** Go's [int64]; a limit below zero reads nothing. *)
Definition read_limited (limit : Z) (r : rawResponse.t) : result string :=
  let body := rawResponse.Body r in
  if decide (limit <= 0) then Ok ""%string
  else if decide (limit <= Z.of_nat (String.length body)) then Ok (String.substring 0 (Z.to_nat limit) body)
  else match rawResponse.BodyErr r with Some e => Err e | None => Ok body end.

(** The first value of each header; names that differ in case only cannot
    occur in an [http.Header]. *)
Definition first_headers (h : gmap string (list string)) : gmap string string :=
  map_fold (fun k v acc => match v with x :: _ => <[ToLower k := x]> acc | [] => acc end) ∅ h.

Definition doFetch (f : FetchRuntime.t) (r : fetchRequest.t) : ST W FetchResponse.t :=
  let! resp := wrap "fetch failed"
    (Execute (if FetchRuntime.BlockPrivateIPs f then ssrfSafeDialer else DialContext) r) in
  match read_limited (int64_wrap (FetchRuntime.maxResponseBytes f + 1)) resp with
  | Err e => fail (EWrap "could not read response body" e)
  | Ok body =>
      if decide (FetchRuntime.maxResponseBytes f < Z.of_nat (String.length body)) then
        fail (EMsg ("response body exceeds maximum size of " ++ Itoa (FetchRuntime.maxResponseBytes f) ++ " bytes"))
      else
        let statusCode := rawResponse.StatusCode resp in
        ret (FetchResponse.mk statusCode (http_StatusText statusCode)
          (bool_decide (200 <= statusCode < 300)) (first_headers (rawResponse.Header resp)) body)
  end.

Definition parseOpts (opts : fetchOpts.t) (r : fetchRequest.t) : result fetchRequest.t :=
  let method := match fetchOpts.method opts with Some m => ToUpper m | None => fetchRequest.method r end in
  match fetchOpts.headers opts with
  | Some (Err e) => Err (EWrap "invalid headers" e)
  | h =>
      Ok (fetchRequest.mk (fetchRequest.url r) method
        (match h with Some (Ok h) => h | _ => fetchRequest.headers r end)
        (default (fetchRequest.body r) (fetchOpts.body opts))
        (match fetchOpts.timeout opts with
         | Some ms => if decide (ms > 0) then int64_wrap (ms * 1000000) else fetchRequest.timeout r
         | None => fetchRequest.timeout r
         end))
  end.

(** What the promise of a call settles with; no arguments, or a URL with or
    without options. *)
Definition Fetch (f : FetchRuntime.t) (args : option (string * option fetchOpts.t)) : ST W FetchResponse.t :=
  if FetchRuntime.Disabled f then fail (EMsg "fetch feature is not enabled")
  else
    match args with
    | None => fail (EMsg "fetch requires a URL argument")
    | Some (url, opts) =>
        let r := fetchRequest.mk url "GET" ∅ "" (FetchRuntime.timeout f) in
        match match opts with Some opts => parseOpts opts r | None => Ok r end with
        | Err e => fail e
        | Ok r => doFetch f r
        end
    end.

(** ** What is dialed *)

(** C34: the dialer refuses, or connects to the first address the name resolves
    to; then no address it resolves to is one of the refused intervals, as far
    as it reads as an address. *)
Theorem Dial_never_private network addr (w w' : W) conn :
  ssrfSafeDialer network addr w = (Ok conn, w') ->
  exists host port a rest w1,
    SplitHostPort addr = Ok (host, port) /\ LookupHost host w = (Ok (a :: rest), w1) /\
    DialContext network (JoinHostPort a port) w1 = (Ok conn, w') /\
    forall b ip, b ∈ a :: rest -> ParseIP b = Some ip -> ~ private_address ip.
Proof.
  unfold ssrfSafeDialer. destruct (SplitHostPort addr) as [[host port]|e]; [|done].
  unfold bind, wrap. destruct (LookupHost host w) as [[addrs|e] w1] eqn:Hl; [|done].
  destruct (List.find private_text addrs) as [b|] eqn:Hf; [done|].
  destruct addrs as [|a rest]; [done|]. intros Hd. exists host, port, a, rest, w1. split_and!; [done..|].
  intros b ip Hb Hip Hp. apply isPrivateIP_exact in Hp.
  pose proof (find_none private_text _ Hf b) as Hn. unfold private_text in Hn. rewrite Hip in Hn.
  rewrite Hn in Hp; [done|]. by apply list_elem_of_In.
Qed.

(** The body of an answer is the whole body and no longer than the limit, for
    limits below the largest integer. *)
Lemma doFetch_bounded f r (w w' : W) resp :
  0 < FetchRuntime.maxResponseBytes f < 2 ^ 63 - 1 -> doFetch f r w = (Ok resp, w') ->
  exists raw w1, Execute (if FetchRuntime.BlockPrivateIPs f then ssrfSafeDialer else DialContext) r w = (Ok raw, w1) /\
    FetchResponse.bodyText resp = rawResponse.Body raw /\ rawResponse.BodyErr raw = None /\
    Z.of_nat (String.length (FetchResponse.bodyText resp)) <= FetchRuntime.maxResponseBytes f.
Proof.
  intros Hmax. unfold doFetch, bind, wrap. destruct (Execute _ r w) as [[raw|e] w1]; [|done].
  rewrite int64_wrap_id by (unfold int64_ok; lia). unfold read_limited. rewrite decide_False by lia.
  destruct (decide (FetchRuntime.maxResponseBytes f + 1 <= Z.of_nat (String.length (rawResponse.Body raw)))) as [Hlong|Hshort].
  - rewrite decide_True; [done|]. rewrite length_substring. lia.
  - destruct (rawResponse.BodyErr raw) eqn:He; [done|]. rewrite decide_False by lia. intros [= <- <-].
    exists raw, w1. cbn. split_and!; [done..|lia].
Qed.
End fetch.

(** ** Witnesses *)
Definition ex_split (addr : string) : result (string * string) :=
  match Split addr "#" with [host; port] => Ok (host, port) | _ => Err (EMsg "missing port in address") end.
Definition ex_join (host port : string) : string := host ++ "#" ++ port.
(** Literals resolve to themselves. *)
Definition ex_lookup (host : string) (w : list string) : result (list string) * list string :=
  (if decide (host = "ci.example"%string) then Ok ["93.184.216.34"; "2606:2800::1"]%string else Ok [host], w).
Definition ex_dial (network addr : string) (w : list string) : result unit * list string := (Ok tt, (addr :: w)%list).
Definition ex_connect (addr : string) := ssrfSafeDialer ex_split ex_join ex_lookup ex_dial "tcp" addr [].

Lemma Dial_never_private_witness :
  ex_connect "ci.example#443" = (Ok tt, ["93.184.216.34#443"%string]) /\
  forall b ip, b ∈ ["93.184.216.34"; "2606:2800::1"]%string -> ParseIP b = Some ip -> ~ private_address ip.
Proof.
  assert (Hd : ex_connect "ci.example#443" = (Ok tt, ["93.184.216.34#443"%string])) by (vm_compute; reflexivity).
  split; [exact Hd|].
  destruct (Dial_never_private ex_split ex_join ex_lookup ex_dial "tcp" "ci.example#443" [] _ tt Hd)
    as (host & port & a & rest & w1 & Hs & Hl & _ & Hsafe).
  vm_compute in Hs. injection Hs as <- <-. vm_compute in Hl. injection Hl as <- <- _. exact Hsafe.
Defined.

(** The unspecified addresses, which reach the host itself, an address with a
    zone, which does not read as one, and an address of the host translated to
    IPv6 are dialed. *)
Lemma local_addresses_dialed :
  ex_connect "0.0.0.0#80" = (Ok tt, ["0.0.0.0#80"%string]) /\
  ex_connect "::#80" = (Ok tt, ["::#80"%string]) /\
  ex_connect "fe80::1%eth0#80" = (Ok tt, ["fe80::1%eth0#80"%string]) /\
  (exists e, ex_connect "127.0.0.1#80" = (Err e, [])).
Proof. split_and!; [vm_compute; reflexivity..|]. eexists. vm_compute. reflexivity. Qed.

(** With the largest limit the body is not read at all. *)
Lemma largest_limit_reads_nothing :
  let f := NewFetchRuntime 0 (2 ^ 63 - 1) in
  (doFetch ex_split ex_join ex_lookup ex_dial
     (fun _ _ w => (Ok (rawResponse.mk 200 ∅ "hello" None), w)) (fun _ => "OK"%string) f
     (fetchRequest.mk "http://ci.example" "GET" ∅ "" 0) []).1 = Ok (FetchResponse.mk 200 "OK" true ∅ "").
Proof. vm_compute. reflexivity. Qed.
