(* ===== verification/Graph.v ===== *)
(** * Depth-first search for cycles

    The three-colour search that [validateDependsOn] (backwards/pipeline.go)
    and [validateNoCycles] (runtime/backwards/runner.go) both contain. A node
    without a colour is white. The recursion runs on fuel; [visit_fuel] shows
    that one unit per white node is enough. *)
From S2P Require Import Prelude.
From stdpp Require Import relations.
Open Scope string_scope.

Inductive Color : Type := Gray | Black.

(** A search ends with the colours it has set, or at an edge into the current
    path. [WFuel] is no answer of the program's. *)
Inductive walk : Type :=
  | WOk (color : gmap string Color)
  | WCycle (from to : string)
  | WFuel.

Section search.
Context (adj : gmap string (list string)).

Definition deps_of (name : string) : list string := default [] (adj !! name).

Fixpoint visit (fuel : nat) (name : string) (color : gmap string Color) : walk :=
  match fuel with
  | 0 => WFuel
  | S fuel =>
      match
        (fix visit_deps (deps : list string) (color : gmap string Color) : walk :=
           match deps with
           | [] => WOk color
           | dep :: deps =>
               match color !! dep with
               | Some Gray => WCycle name dep
               | Some Black => visit_deps deps color
               | None =>
                   match visit fuel dep color with
                   | WOk color => visit_deps deps color
                   | w => w
                   end
               end
           end) (deps_of name) (<[name := Gray]> color)
      with
      | WOk color => WOk (<[name := Black]> color)
      | w => w
      end
  end.

(** The inner loop by itself. *)
Fixpoint visit_deps (fuel : nat) (name : string) (deps : list string)
    (color : gmap string Color) : walk :=
  match deps with
  | [] => WOk color
  | dep :: deps =>
      match color !! dep with
      | Some Gray => WCycle name dep
      | Some Black => visit_deps fuel name deps color
      | None =>
          match visit fuel dep color with
          | WOk color => visit_deps fuel name deps color
          | w => w
          end
      end
  end.

Lemma visit_S fuel name color :
  visit (S fuel) name color =
    match visit_deps fuel name (deps_of name) (<[name := Gray]> color) with
    | WOk color => WOk (<[name := Black]> color)
    | w => w
    end.
Proof.
  cbn [visit]. generalize (deps_of name) (<[name := Gray]> color). intros deps c.
  assert (He : forall deps c,
    (fix visit_deps (deps : list string) (color : gmap string Color) : walk :=
       match deps with
       | [] => WOk color
       | dep :: deps =>
           match color !! dep with
           | Some Gray => WCycle name dep
           | Some Black => visit_deps deps color
           | None =>
               match visit fuel dep color with
               | WOk color => visit_deps deps color
               | w => w
               end
           end
       end) deps c = visit_deps fuel name deps c); [|by rewrite He].
  clear deps c. induction deps as [|dep deps IH]; intros c; [done|].
  cbn [visit_deps]. destruct (c !! dep) as [[]|]; [done|apply IH|].
  by destruct (visit fuel dep c).
Qed.

(** The loop over the roots. *)
Fixpoint search (fuel : nat) (names : list string) (color : gmap string Color) : walk :=
  match names with
  | [] => WOk color
  | name :: names =>
      match color !! name with
      | None =>
          match visit fuel name color with
          | WOk color => search fuel names color
          | w => w
          end
      | Some _ => search fuel names color
      end
  end.

(** ** Correctness *)
Definition edge (a b : string) : Prop := b ∈ deps_of a.
Definition acyclic : Prop := forall n, ~ tc edge n n.
(** No path from [n] is infinite. *)
Definition grounded (n : string) : Prop := Acc (flip edge) n.

Lemma grounded_no_cycle n : grounded n -> ~ tc edge n n.
Proof.
  induction 1 as [n _ IH]. intros Hc.
  assert (Hs : exists m, edge n m /\ rtc edge m n).
  { inversion Hc as [? ? He|? m ? He Hm]; subst; [exists n|exists m];
      eauto using rtc_refl, tc_rtc. }
  destruct Hs as (m & He & Hm). apply (IH m He). eapply tc_rtc_l; [exact Hm|by constructor].
Qed.

Definition blacks_grounded (c : gmap string Color) : Prop :=
  forall m, c !! m = Some Black -> grounded m.

(** What a search that ends keeps: colours stay, and no path is left open. *)
Definition extends (c c' : gmap string Color) : Prop :=
  (forall m col, c !! m = Some col -> c' !! m = Some col) /\
  (forall m, c' !! m = Some Gray -> c !! m = Some Gray).

Lemma extends_refl c : extends c c.
Proof. by split. Qed.
Lemma extends_trans c1 c2 c3 : extends c1 c2 -> extends c2 c3 -> extends c1 c3.
Proof. intros [A B] [C D]. split; eauto. Qed.

Definition visit_ok_spec fuel : Prop := forall name c c',
  visit fuel name c = WOk c' -> c !! name = None -> blacks_grounded c ->
  extends c c' /\ blacks_grounded c' /\ c' !! name = Some Black.

Lemma visit_deps_ok fuel name deps c c' :
  visit_ok_spec fuel -> visit_deps fuel name deps c = WOk c' -> blacks_grounded c ->
  extends c c' /\ blacks_grounded c' /\ forall d, d ∈ deps -> c' !! d = Some Black.
Proof.
  intros Hv. revert c. induction deps as [|d deps IH]; intros c; cbn [visit_deps].
  - intros [= ->] Hb. split; [apply extends_refl|]. split; [done|]. by intros d ?%not_elem_of_nil.
  - intros He Hb. assert (Hstep : exists c1, extends c c1 /\ blacks_grounded c1 /\
      c1 !! d = Some Black /\ visit_deps fuel name deps c1 = WOk c').
    { destruct (c !! d) as [[]|] eqn:Hd; [done| |].
      - exists c. split; [apply extends_refl|done].
      - destruct (visit fuel d c) as [c1| |] eqn:Hvd; try done.
        destruct (Hv _ _ _ Hvd Hd Hb) as (? & ? & ?). by exists c1. }
    destruct Hstep as (c1 & Hx1 & Hb1 & Hd1 & He1).
    destruct (IH c1 He1 Hb1) as (Hx2 & Hb2 & Hall).
    split; [by eapply extends_trans|]. split; [done|].
    intros x [->|Hx]%elem_of_cons; [|by apply Hall]. by apply Hx2.
Qed.

Lemma visit_ok fuel : visit_ok_spec fuel.
Proof.
  induction fuel as [|fuel IH]; intros name c c'; [done|]. rewrite visit_S.
  destruct (visit_deps _ _ _ _) as [c1| |] eqn:Hd; [|discriminate|discriminate].
  intros [= <-] Hn Hb.
  destruct (visit_deps_ok _ _ _ _ _ IH Hd) as ([Hk Hg] & Hb1 & Hall).
  { intros m [[_ ?]|[_ Hm]]%lookup_insert_Some; [done|by apply Hb]. }
  assert (Hgr : grounded name) by (constructor; intros d Hin; by apply Hb1, Hall).
  split; [split|split].
  - intros m col Hm. assert (m <> name) by congruence. rewrite lookup_insert_ne by done.
    apply Hk. by rewrite lookup_insert_ne.
  - intros m [[_ ?]|[Hne Hm]]%lookup_insert_Some; [done|].
    apply Hg, lookup_insert_Some in Hm. by destruct Hm as [[? _]|[_ ?]].
  - intros m [[<- _]|[_ Hm]]%lookup_insert_Some; [done|by apply Hb1].
  - apply lookup_insert_eq.
Qed.

(** An edge into the current path closes a cycle. *)
Definition grays_reach (c : gmap string Color) (n : string) : Prop :=
  forall m, c !! m = Some Gray -> rtc edge m n.

Definition visit_cycle_spec fuel : Prop := forall name c a b,
  visit fuel name c = WCycle a b -> c !! name = None -> blacks_grounded c ->
  grays_reach c name -> exists n, tc edge n n.

Lemma visit_deps_cycle fuel name deps c a b :
  visit_cycle_spec fuel -> visit_deps fuel name deps c = WCycle a b ->
  (forall d, d ∈ deps -> edge name d) -> blacks_grounded c -> grays_reach c name ->
  exists n, tc edge n n.
Proof.
  intros Hv. revert c. induction deps as [|d deps IH]; intros c; cbn [visit_deps]; [discriminate|].
  intros He Hin Hb Hg. assert (Hd : edge name d) by (apply Hin, elem_of_cons; by left).
  assert (Hin' : forall x, x ∈ deps -> edge name x)
    by (intros x Hx; apply Hin, elem_of_cons; by right).
  destruct (c !! d) as [[]|] eqn:Hcd.
  - exists name. eapply tc_rtc_r; [by apply tc_once|by apply Hg].
  - by apply (IH c).
  - destruct (visit fuel d c) as [c1|a' b'|] eqn:Hvd; [| |discriminate].
    + destruct (visit_ok fuel _ _ _ Hvd Hcd Hb) as ([_ Hgr] & Hb1 & _).
      apply (IH c1); [done..|]. intros m Hm. by apply Hg, Hgr.
    + eapply Hv; [exact Hvd|done|done|]. intros m Hm. eapply rtc_r; [by apply Hg|done].
Qed.

Lemma visit_cycle fuel : visit_cycle_spec fuel.
Proof.
  induction fuel as [|fuel IH]; intros name c a b; [discriminate|]. rewrite visit_S.
  destruct (visit_deps _ _ _ _) as [c1|a' b'|] eqn:Hd; [discriminate| |discriminate].
  intros _ Hn Hb Hg. eapply (visit_deps_cycle fuel name); [exact IH|exact Hd|done| |].
  - intros m [[_ ?]|[_ Hm]]%lookup_insert_Some; [done|by apply Hb].
  - intros m [[<- _]|[_ Hm]]%lookup_insert_Some; [apply rtc_refl|by apply Hg].
Qed.

(** ** Fuel *)
Definition closed (U : gset string) : Prop := forall n d, n ∈ U -> edge n d -> d ∈ U.
Definition whites (U : gset string) (c : gmap string Color) : nat := size (U ∖ dom c).

Lemma whites_extends U c c' : extends c c' -> whites U c' <= whites U c.
Proof.
  intros [Hk _]. apply subseteq_size. intros m.
  rewrite !elem_of_difference, !not_elem_of_dom. intros [? Hm]. split; [done|].
  destruct (c !! m) eqn:E; [|done]. apply Hk in E. congruence.
Qed.

Lemma whites_insert U c n col : n ∈ U -> c !! n = None -> whites U (<[n := col]> c) < whites U c.
Proof.
  intros Hn Hc. apply subset_size. rewrite dom_insert_L. split; [set_solver|].
  intros Hs. apply not_elem_of_dom in Hc. specialize (Hs n). set_solver.
Qed.

Definition visit_fuel_spec U fuel : Prop := forall name c,
  name ∈ U -> c !! name = None -> blacks_grounded c -> whites U c <= fuel ->
  visit fuel name c <> WFuel.

Lemma visit_deps_fuel U fuel name deps c :
  visit_fuel_spec U fuel -> (forall d, d ∈ deps -> d ∈ U) -> blacks_grounded c ->
  whites U c <= fuel -> visit_deps fuel name deps c <> WFuel.
Proof.
  intros Hv. revert c. induction deps as [|d deps IH]; intros c Hin Hb Hw; cbn [visit_deps];
    [discriminate|].
  assert (Hd : d ∈ U) by (apply Hin, elem_of_cons; by left).
  assert (Hin' : forall x, x ∈ deps -> x ∈ U) by (intros x Hx; apply Hin, elem_of_cons; by right).
  destruct (c !! d) as [[]|] eqn:Hcd; [discriminate|by apply IH|].
  destruct (visit fuel d c) as [c1| |] eqn:Hvd; [|discriminate|by apply Hv in Hvd].
  destruct (visit_ok fuel _ _ _ Hvd Hcd Hb) as (Hx & Hb1 & _).
  apply IH; [done..|]. pose proof (whites_extends U _ _ Hx). lia.
Qed.

Lemma visit_fuel U fuel : closed U -> visit_fuel_spec U fuel.
Proof.
  intros HU. induction fuel as [|fuel IH]; intros name c Hn Hc Hb Hw.
  { pose proof (whites_insert U c name Gray Hn Hc). lia. }
  rewrite visit_S. pose proof (whites_insert U c name Gray Hn Hc).
  destruct (visit_deps _ _ _ _) as [c1| |] eqn:Hd; [discriminate|discriminate|].
  exfalso. revert Hd. apply (visit_deps_fuel U).
  - exact IH.
  - intros d Hd. by apply (HU name).
  - intros m [[_ ?]|[_ Hm]]%lookup_insert_Some; [done|by apply Hb].
  - lia.
Qed.

(** ** The whole search *)
Definition no_gray (c : gmap string Color) : Prop := forall m, c !! m <> Some Gray.

Lemma search_outcome U fuel names c :
  closed U -> (forall n, n ∈ names -> n ∈ U) -> whites U c <= fuel ->
  blacks_grounded c -> no_gray c ->
  (exists c', search fuel names c = WOk c' /\ (forall n, n ∈ names -> grounded n)) \/
  (exists a b, search fuel names c = WCycle a b /\ exists n, tc edge n n).
Proof.
  intros HU. revert c. induction names as [|name names IH]; intros c Hin Hw Hb Hg;
    cbn [search].
  { left. exists c. split; [done|]. by intros n ?%not_elem_of_nil. }
  assert (Hn : name ∈ U) by (apply Hin, elem_of_cons; by left).
  assert (Hin' : forall x, x ∈ names -> x ∈ U) by (intros x Hx; apply Hin, elem_of_cons; by right).
  assert (Hstep : forall c1, whites U c1 <= fuel -> blacks_grounded c1 -> no_gray c1 ->
    c1 !! name = Some Black ->
    (exists c', search fuel names c1 = WOk c' /\ (forall n, n ∈ name :: names -> grounded n)) \/
    (exists a b, search fuel names c1 = WCycle a b /\ exists n, tc edge n n)).
  { intros c1 Hw1 Hb1 Hg1 Hn1.
    destruct (IH c1 Hin' Hw1 Hb1 Hg1) as [(c' & He & Hgr)|Hc]; [left|by right].
    exists c'. split; [done|]. intros n [->|Hx]%elem_of_cons; [by apply Hb1|by apply Hgr]. }
  destruct (c !! name) as [[]|] eqn:Hc; [by apply Hg in Hc|by apply Hstep|].
  destruct (visit fuel name c) as [c1|a b|] eqn:Hv.
  - destruct (visit_ok fuel _ _ _ Hv Hc Hb) as (Hx & Hb1 & Hn1).
    apply Hstep; [pose proof (whites_extends U _ _ Hx); lia|done| |done].
    intros m Hm. by apply Hx, Hg in Hm.
  - right. exists a, b. split; [done|].
    eapply visit_cycle; [exact Hv|done|done|]. intros m Hm. by apply Hg in Hm.
  - exfalso. by eapply (visit_fuel U).
Qed.

(** The names that occur in the graph. *)
Definition nodes (names : list string) : gset string :=
  list_to_set names ∪ list_to_set (mjoin (snd <$> map_to_list adj)).

Lemma nodes_closed names : closed (nodes names).
Proof.
  intros n d _ Hd. unfold edge, deps_of in Hd.
  destruct (adj !! n) as [l|] eqn:Hl; [|by apply not_elem_of_nil in Hd].
  apply elem_of_union_r, elem_of_list_to_set, list_elem_of_join. exists l. split; [done|].
  apply list_elem_of_fmap. exists (n, l). split; [done|]. by apply elem_of_map_to_list.
Qed.

Definition find_cycle (names : list string) : walk :=
  search (size (nodes names)) names ∅.

(** With every node that has an edge among the roots, the search answers, and
    it reports a cycle exactly when there is one. *)
Lemma find_cycle_spec names :
  (forall n d, edge n d -> n ∈ names) ->
  (exists c, find_cycle names = WOk c /\ acyclic) \/
  (exists a b, find_cycle names = WCycle a b /\ ~ acyclic).
Proof.
  intros Hroots.
  destruct (search_outcome (nodes names) (size (nodes names)) names ∅)
    as [(c & He & Hgr)|(a & b & He & n & Hn)].
  - apply nodes_closed.
  - intros n Hn. by apply elem_of_union_l, elem_of_list_to_set.
  - unfold whites. rewrite dom_empty_L. apply subseteq_size. set_solver.
  - intros m. by rewrite lookup_empty.
  - intros m. by rewrite lookup_empty.
  - left. exists c. split; [done|]. intros n Hn. apply (grounded_no_cycle n); [|done].
    apply Hgr. inversion Hn; subst; by eapply Hroots.
  - right. exists a, b. split; [done|]. intros Hac. by apply (Hac n).
Qed.
End search.
