(* ===== verification/Schedules.v ===== *)
(** * Schedules

    The schedules table (storage/sqlite/schedules.go), the polling scheduler
    (scheduler/scheduler.go) and the synchronisation with the configuration on
    upsert (syncSchedules of server/api_pipelines_upsert.go). *)
From S2P Require Import Prelude Storage Json Db GoStrings Config.
Import scheduleScan.
Open Scope string_scope.

(** ** The table *)
Definition schedule_rows (d : db) : list t := (map_to_list (db_schedules d)).*2.

Definition same_key (pipelineID name : string) (s : t) : bool :=
  bool_decide (PipelineID s = pipelineID) && bool_decide (Name s = name).

Definition rows_keyed (pipelineID name : string) (d : db) : list t :=
  List.filter (same_key pipelineID name) (schedule_rows d).

(** [ON CONFLICT(pipeline_id, name) DO UPDATE SET ...] *)
Definition resave_schedule (s : Schedule.t) (next : option Z) (now : Z) (r : t) : t :=
  mk (ID r) (PipelineID r) (Name r) (Schedule.Type_ s) (Schedule.Expr s)
     (Schedule.JobName s) (Enabled r) (LastRunAt r) next (CreatedAt r) now.

Definition new_schedule (s : Schedule.t) (next : option Z) (now : Z) : t :=
  mk (Schedule.ID s) (Schedule.PipelineID s) (Schedule.Name s) (Schedule.Type_ s)
     (Schedule.Expr s) (Schedule.JobName s) (boolToInt (Schedule.Enabled s))
     None next now now.

Definition upsert_schedule (s : Schedule.t) (next : option Z) (now : Z)
    : ST db unit := exec (fun d =>
  match rows_keyed (Schedule.PipelineID s) (Schedule.Name s) d with
  | r :: _ => (Ok tt, set_schedules (insert (ID r) (resave_schedule s next now r)) d)
  | [] =>
      if decide (is_Some (db_schedules d !! Schedule.ID s)) then
        (Err (ESentinel SSqlite), d)                     (* PRIMARY KEY *)
      else if decide (is_Some (db_pipelines d !! Schedule.PipelineID s)) then
        (Ok tt, set_schedules (insert (Schedule.ID s) (new_schedule s next now)) d)
      else (Err (ESentinel SSqlite), d)                  (* FOREIGN KEY *)
  end).

Definition SaveSchedule (s : Schedule.t) : ST db unit :=
  let! now := time_Now in
  let nextRunAt := Unix <$> Schedule.NextRunAt s in
  wrap "failed to save schedule" (upsert_schedule s nextRunAt (Unix now)).

(** [ORDER BY name ASC] orders by text; the names of a pipeline's schedules are
    unique, so the order is fixed by [String.compare]. *)
Fixpoint insert_by_name (s : t) (l : list t) : list t :=
  match l with
  | [] => [s]
  | s' :: l' =>
      match String.compare (Name s) (Name s') with
      | Gt => s' :: insert_by_name s l'
      | _ => s :: l
      end
  end.
Definition sort_by_name (l : list t) : list t := foldr insert_by_name [] l.

Definition GetSchedulesByPipeline (pipelineID : string) : ST db (list Schedule.t) :=
  wrap "failed to get schedules by pipeline" (query (fun d =>
    toStorage <$> sort_by_name
      (List.filter (fun s => bool_decide (PipelineID s = pipelineID)) (schedule_rows d)))).

Definition deleteAllSchedules (pipelineID : string) : ST db unit :=
  wrap "failed to delete schedules by pipeline"
    (update (set_schedules (filter (fun '(_, s) => PipelineID s <> pipelineID)))).

Definition PruneSchedulesByPipeline (pipelineID : string) (keepNames : list string)
    : ST db unit :=
  if decide (keepNames = []) then deleteAllSchedules pipelineID
  else wrap "failed to delete stale schedules"
    (update (set_schedules (filter (fun '(_, s) =>
       ~ (PipelineID s = pipelineID /\ Name s ∉ keepNames))))).

Definition UpdateScheduleEnabled (id : string) (enabled : bool) : ST db unit :=
  let! now := time_Now in
  let! rowsAffected := wrap "failed to update schedule enabled" (exec (fun d =>
    match db_schedules d !! id with
    | Some s => (Ok 1%Z, set_schedules (insert id
        (mk (ID s) (PipelineID s) (Name s) (Type_ s) (Expr s) (JobName s)
            (boolToInt enabled) (LastRunAt s) (NextRunAt s) (CreatedAt s) (Unix now))) d)
    | None => (Ok 0%Z, d)
    end)) in
  if (rowsAffected =? 0)%Z then fail (ESentinel SNotFound) else ret tt.

(** [enabled = 1 AND next_run_at IS NOT NULL AND next_run_at <= ?] *)
Definition due (now : Z) (s : t) : bool :=
  (Enabled s =? 1)%Z &&
  match NextRunAt s with Some n => (n <=? now)%Z | None => false end.

Definition claim (now : Z) (s : t) : t :=
  mk (ID s) (PipelineID s) (Name s) (Type_ s) (Expr s) (JobName s) (Enabled s)
     (Some now) None (CreatedAt s) (UpdatedAt s).

(** UPDATE ... RETURNING: one statement; the rows come in the engine's order. *)
Definition ClaimDueSchedules (now : time) : ST db (list Schedule.t) :=
  wrap "failed to claim due schedules" (exec (fun d =>
    (Ok (toStorage ∘ claim (Unix now) <$> List.filter (due (Unix now)) (schedule_rows d)),
     set_schedules (fmap (fun s => if due (Unix now) s then claim (Unix now) s else s)) d))).

Definition UpdateScheduleAfterRun (id : string) (lastRunAt nextRunAt : time)
    : ST db unit :=
  let! now := time_Now in
  wrap "failed to update schedule after run" (update (set_schedules (alter (fun s =>
    mk (ID s) (PipelineID s) (Name s) (Type_ s) (Expr s) (JobName s) (Enabled s)
       (Some (Unix lastRunAt)) (Some (Unix nextRunAt)) (CreatedAt s) (Unix now)) id))).

(** ** The scheduler *)
Section scheduler.
Context `{!Clockwork} {St : Type} `{!HasDb St}.
Context (trigger : Schedule.t -> ST St unit).

Definition processSchedule (now : time) (sched : Schedule.t) : ST St unit :=
  ignore (trigger sched) ;;;
  match ComputeNextRun (Schedule.Type_ sched) (Schedule.Expr sched) now with
  | Err _ => ret tt
  | Ok nextRunAt =>
      ignore (on_db (UpdateScheduleAfterRun (Schedule.ID sched) now nextRunAt))
  end.

Definition tick : ST St unit :=
  let! now := on_db time_Now in
  let! schedules := attempt (on_db (ClaimDueSchedules now)) in
  match schedules with
  | Err _ => ret tt
  | Ok l => for_each (processSchedule now) l
  end.
End scheduler.

(** ** Synchronisation on upsert *)
Section sync.
Context `{!Clockwork, !UniqueIDs}.

Fixpoint sync_each (pipelineID : string) (now : time)
    (l : list ScheduleFromJob.t) : ST db unit :=
  match l with
  | [] => ret tt
  | s :: rest =>
      match ComputeNextRun (ScheduleFromJob.Type_ s) (ScheduleFromJob.Expr s) now with
      | Err e => fail (EWrap ("compute next run for job " ++ q (ScheduleFromJob.JobName s)) e)
      | Ok nextRunAt =>
          let! id := UniqueID in
          wrap ("save schedule for job " ++ q (ScheduleFromJob.JobName s))
            (SaveSchedule (Schedule.mk id pipelineID (ScheduleFromJob.JobName s)
               (ScheduleFromJob.Type_ s) (ScheduleFromJob.Expr s)
               (ScheduleFromJob.JobName s) true None (Some nextRunAt) 0%Z 0%Z)) ;;;
          sync_each pipelineID now rest
      end
  end.

(** [parse] is [yaml.Unmarshal] of the content. *)
Definition syncSchedules (parse : string -> result (list Job.t))
    (pipeline : Pipeline.t) : ST db unit :=
  if negb (bool_decide (Pipeline.ContentType pipeline = ContentTypeYAML)) then ret tt
  else
    match result_bind (parse (Pipeline.Content pipeline)) ExtractSchedules with
    | Err e => fail (EWrap "extract schedules" e)
    | Ok extracted =>
        let! now := time_Now in
        sync_each (Pipeline.ID pipeline) now extracted ;;;
        wrap "prune stale schedules"
          (PruneSchedulesByPipeline (Pipeline.ID pipeline)
             (ScheduleFromJob.JobName <$> extracted))
    end.
End sync.

(** ** Facts *)
Definition schedules_ids_ok (d : db) : Prop :=
  map_Forall (fun id s => ID s = id) (db_schedules d).

Lemma elem_of_schedule_rows s d :
  schedules_ids_ok d -> s ∈ schedule_rows d <-> db_schedules d !! ID s = Some s.
Proof.
  intros Hids. unfold schedule_rows. rewrite list_elem_of_fmap. split.
  - intros ([id s'] & -> & Hs%elem_of_map_to_list). simpl. by rewrite (Hids _ _ Hs).
  - intros Hs. exists (ID s, s). split; [done|]. by apply elem_of_map_to_list.
Qed.

Lemma NoDup_schedule_ids d :
  schedules_ids_ok d -> NoDup (ID <$> schedule_rows d).
Proof.
  intros Hids. unfold schedule_rows. rewrite <- list_fmap_compose.
  rewrite (list_fmap_ext _ fst).
  - apply NoDup_fst_map_to_list.
  - intros i [id s] Hlk. simpl. apply (Hids id).
    apply elem_of_map_to_list. by eapply list_elem_of_lookup_2.
Qed.

Lemma ClaimDueSchedules_no_faults now d :
  db_faults d = [] ->
  ClaimDueSchedules now d =
    (Ok (toStorage ∘ claim (Unix now) <$> List.filter (due (Unix now)) (schedule_rows d)),
     set_schedules (fmap (fun s => if due (Unix now) s then claim (Unix now) s else s)) d).
Proof. intros Hf. unfold ClaimDueSchedules, wrap. by run_sql Hf. Qed.

Lemma NoDup_due_ids P d :
  schedules_ids_ok d -> NoDup (ID <$> List.filter P (schedule_rows d)).
Proof.
  intros Hnd%NoDup_schedule_ids. revert Hnd.
  induction (schedule_rows d) as [|s l IH]; [done|]. rewrite fmap_cons.
  intros [Hni Hnd]%NoDup_cons. simpl. destruct (P s); [|by apply IH].
  rewrite fmap_cons. apply NoDup_cons. split; [|by apply IH].
  intros (s' & He & Hs)%list_elem_of_fmap. apply Hni. rewrite He. apply list_elem_of_fmap_2.
  by apply list_elem_of_In, filter_In in Hs as [?%list_elem_of_In _].
Qed.

Lemma elem_of_due_rows P s d :
  schedules_ids_ok d ->
  s ∈ List.filter P (schedule_rows d) <-> db_schedules d !! ID s = Some s /\ P s = true.
Proof.
  intros Hids. rewrite list_elem_of_In, filter_In, <- list_elem_of_In.
  by rewrite elem_of_schedule_rows.
Qed.

Lemma claim_not_due now now' s : due now' (claim now s) = false.
Proof. unfold due. simpl. apply andb_false_r. Qed.

Lemma UpdateScheduleAfterRun_no_faults id last next d :
  db_faults d = [] ->
  UpdateScheduleAfterRun id last next d =
    (Ok tt, set_schedules (alter (fun s =>
      mk (ID s) (PipelineID s) (Name s) (Type_ s) (Expr s) (JobName s) (Enabled s)
         (Some (Unix last)) (Some (Unix next)) (CreatedAt s) (Unix (db_now d))) id) d).
Proof. intros Hf. unfold UpdateScheduleAfterRun, time_Now. by run_sql Hf. Qed.

Section tick_facts.
Context `{!Clockwork}.
Context {St : Type} `{!HasDb St} (trigger : Schedule.t -> ST St unit).

(** The callback starts runs; it writes no schedule, and in this section no
    statement fails and the clock stands still while it runs. *)
Definition leaves_schedules : Prop := forall sched s,
  db_faults (get_db s) = [] ->
  let s' := (trigger sched s).2 in
  db_schedules (get_db s') = db_schedules (get_db s) /\
  db_faults (get_db s') = [] /\ db_now (get_db s') = db_now (get_db s).

(** What firing does to one row: the next time when the expression gives one. *)
Definition fired (now : time) (updated : Z) (s : t) : t :=
  match ComputeNextRun (Type_ s) (Expr s) now with
  | Ok next => mk (ID s) (PipelineID s) (Name s) (Type_ s) (Expr s) (JobName s)
                 (Enabled s) (Some (Unix now)) (Some (Unix next)) (CreatedAt s) updated
  | Err _ => s
  end.

Lemma processSchedule_ok now sched s :
  exists s', processSchedule trigger now sched s = (Ok tt, s').
Proof.
  unfold processSchedule, bind, ignore, ret. destruct (trigger sched s) as [r s1].
  destruct (ComputeNextRun _ _ _) as [next|e]; [|by eexists].
  destruct (on_db _ s1) as [r' s2]. by eexists.
Qed.

Lemma processSchedule_effect now row s :
  leaves_schedules -> db_faults (get_db s) = [] ->
  let s' := (processSchedule trigger now (toStorage row) s).2 in
  db_schedules (get_db s') =
    alter (fun r => match ComputeNextRun (Type_ row) (Expr row) now with
                    | Ok next => mk (ID r) (PipelineID r) (Name r) (Type_ r) (Expr r)
                        (JobName r) (Enabled r) (Some (Unix now)) (Some (Unix next))
                        (CreatedAt r) (Unix (db_now (get_db s)))
                    | Err _ => r end) (ID row) (db_schedules (get_db s)) /\
  db_faults (get_db s') = [] /\ db_now (get_db s') = db_now (get_db s).
Proof.
  intros Hl Hf. unfold processSchedule, bind, ignore.
  specialize (Hl (toStorage row) s Hf) as (Hs & Hf' & Hn).
  destruct (trigger (toStorage row) s) as [r s1]. cbn [snd] in Hs, Hf', Hn. simpl.
  destruct (ComputeNextRun _ _ _) as [next|e]; simpl.
  - unfold on_db. rewrite UpdateScheduleAfterRun_no_faults by done. simpl.
    rewrite get_put_db. simpl. by rewrite Hs, Hn.
  - split; [|done]. rewrite Hs. apply map_eq. intros i.
    destruct (decide (i = ID row)) as [->|Hne];
      [rewrite lookup_alter_eq; by destruct (_ !! _)|by rewrite lookup_alter_ne].
Qed.

Lemma process_all_effect now rows s :
  leaves_schedules -> db_faults (get_db s) = [] -> NoDup (ID <$> rows) ->
  (forall r, r ∈ rows -> db_schedules (get_db s) !! ID r = Some r) ->
  let s' := (for_each (processSchedule trigger now) (toStorage <$> rows) s).2 in
  forall id r, db_schedules (get_db s) !! id = Some r -> ID r = id ->
    db_schedules (get_db s') !! id =
      Some (if bool_decide (id ∈ ID <$> rows)
            then fired now (Unix (db_now (get_db s))) r else r).
Proof.
  intros Hl. revert s. induction rows as [|row rows IH]; intros s Hf Hnd Hrows s' id r Hr Hid.
  - exact Hr.
  - rewrite fmap_cons in Hnd. apply NoDup_cons in Hnd as [Hni Hnd].
    destruct (processSchedule_effect now row s Hl Hf) as (Hs1 & Hf1 & Hn1).
    subst s'. rewrite fmap_cons. cbn [for_each]. unfold bind at 1.
    destruct (processSchedule trigger now (toStorage row) s) as [r1 s1] eqn:E.
    assert (r1 = Ok tt) as -> by (destruct (processSchedule_ok now (toStorage row) s); congruence).
    cbn [snd] in Hs1, Hf1, Hn1.
    assert (Hrow : db_schedules (get_db s) !! ID row = Some row) by (apply Hrows; left).
    assert (Hr1 : db_schedules (get_db s1) !! id =
      Some (if decide (id = ID row) then fired now (Unix (db_now (get_db s))) r else r)).
    { rewrite Hs1. case_decide as Hi.
      - subst id. rewrite Hi in Hr. rewrite Hi, lookup_alter_eq, Hr. simpl.
        assert (r = row) as -> by congruence. unfold fired. by case_match.
      - by rewrite lookup_alter_ne. }
    assert (Hrest : forall r0, r0 ∈ rows -> db_schedules (get_db s1) !! ID r0 = Some r0).
    { intros r0 Hr0. rewrite Hs1, lookup_alter_ne; [apply Hrows; by right|].
      intros He. apply Hni. rewrite He. by apply list_elem_of_fmap_2. }
    specialize (IH s1 Hf1 Hnd Hrest id _ Hr1).
    rewrite IH by (unfold fired; repeat case_match; exact Hid). rewrite Hn1. f_equal.
    rewrite fmap_cons. destruct (decide (id = ID row)) as [Hi|Hi].
    + rewrite Hi, bool_decide_false, bool_decide_true by (done || left). done.
    + erewrite (bool_decide_ext (id ∈ ID <$> rows)); [done|].
      rewrite elem_of_cons. naive_solver.
Qed.
End tick_facts.

(** ** Properties *)

(** a due schedule is claimed once. The statement returns exactly the
    enabled rows whose next run time has come, each once, and whatever the time
    of a second claim, it returns none of them until a next run time is set. *)
Theorem ClaimDueSchedules_once (d : db) now now2 :
  db_faults d = [] -> schedules_ids_ok d ->
  exists l1 d1, ClaimDueSchedules now d = (Ok l1, d1) /\
    NoDup (Schedule.ID <$> l1) /\
    (forall id, id ∈ Schedule.ID <$> l1 <-> exists s, db_schedules d !! id = Some s /\
       Enabled s = 1%Z /\ exists n, NextRunAt s = Some n /\ (n <= Unix now)%Z) /\
    exists l2 d2, ClaimDueSchedules now2 d1 = (Ok l2, d2) /\
      forall id, id ∈ Schedule.ID <$> l1 -> id ∉ Schedule.ID <$> l2.
Proof.
  intros Hf Hids. rewrite ClaimDueSchedules_no_faults by done. eexists _, _.
  split; [done|].
  assert (Hl : forall t d0, Schedule.ID <$> (toStorage ∘ claim t <$>
      List.filter (due t) (schedule_rows d0)) = ID <$> List.filter (due t) (schedule_rows d0)).
  { intros t0 d0. by rewrite <- list_fmap_compose. }
  assert (Hin : forall t d0 id, schedules_ids_ok d0 ->
    id ∈ ID <$> List.filter (due t) (schedule_rows d0) <->
    exists s, db_schedules d0 !! id = Some s /\ due t s = true).
  { intros t0 d0 id Hok. rewrite list_elem_of_fmap. split.
    - intros (s & -> & [Hs Hd]%elem_of_due_rows); eauto.
    - intros (s & Hs & Hd). pose proof (Hok _ _ Hs) as Hid. simpl in Hid.
      exists s. split; [done|]. apply elem_of_due_rows; [done|]. by rewrite Hid. }
  rewrite Hl. split_and!.
  - by apply NoDup_due_ids.
  - intros id. rewrite Hin by done. apply exist_proper. intros s.
    unfold due. rewrite andb_true_iff, Z.eqb_eq.
    split; intros (? & ? & Hn); (split; [done|split; [done|]]).
    + destruct (NextRunAt s) as [n|]; [|done]. exists n. split; [done|lia].
    + destruct Hn as (n & -> & ?). lia.
  - rewrite ClaimDueSchedules_no_faults by done. eexists _, _. split; [done|].
    intros id (s & Hs & Hd)%Hin; [|done]. rewrite Hl, Hin.
    + intros (s' & Hs' & Hd').
      simpl in Hs'. rewrite lookup_fmap, Hs in Hs'. simpl in Hs'. rewrite Hd in Hs'.
      injection Hs' as <-. by rewrite claim_not_due in Hd'.
    + intros i s' Hs'. simpl in Hs'. rewrite lookup_fmap in Hs'.
      destruct (db_schedules d !! i) as [s0|] eqn:E; [|done]. simpl in Hs'.
      injection Hs' as <-. pose proof (Hids _ _ E) as Hid0. simpl in Hid0.
      by destruct (due (Unix now) s0).
Qed.

(** a tick of the scheduler. With a callback that writes no schedule and
    no failing statement, every due schedule gets the tick's time as its last
    run and the time its expression gives as the next one, or no next run at
    all when the expression no longer parses; every other schedule stays. *)
Theorem tick_fires `{!Clockwork} {St : Type} `{!HasDb St}
    (trigger : Schedule.t -> ST St unit) (s : St) id r :
  leaves_schedules trigger -> db_faults (get_db s) = [] ->
  schedules_ids_ok (get_db s) -> db_schedules (get_db s) !! id = Some r ->
  let now := db_now (get_db s) in
  exists r', db_schedules (get_db (tick trigger s).2) !! id = Some r' /\
    if due (Unix now) r then
      LastRunAt r' = Some (Unix now) /\ ID r' = id /\
      Type_ r' = Type_ r /\ Expr r' = Expr r /\
      NextRunAt r' = match ComputeNextRun (Type_ r) (Expr r) now with
                     | Ok next => Some (Unix next) | Err _ => None end
    else r' = r.
Proof.
  intros Hl Hf Hids Hr now. pose proof (Hids _ _ Hr) as Hid. simpl in Hid.
  unfold tick, bind, attempt, on_db, time_Now, gets. rewrite put_get_db.
  rewrite ClaimDueSchedules_no_faults by done.
  set (d1 := set_schedules _ _). fold now in d1 |- *.
  set (due_rows := List.filter _ _).
  assert (Hd1 : db_schedules d1 !! id =
    Some (if due (Unix now) r then claim (Unix now) r else r)).
  { simpl. rewrite lookup_fmap, Hr. done. }
  rewrite list_fmap_compose. rewrite (process_all_effect trigger now (claim (Unix now) <$> due_rows)
    (put_db d1 s) Hl) with (r := if due (Unix now) r then claim (Unix now) r else r);
    rewrite ?get_put_db; try done; [| | |by case_match].
  - eexists. split; [done|].
    assert (Hmem : id ∈ ID <$> (claim (Unix now) <$> due_rows) <-> due (Unix now) r = true).
    { rewrite <- list_fmap_compose. rewrite list_elem_of_fmap. split.
      - intros (s0 & He & [Hs0 Hd0]%elem_of_due_rows); [|done].
        simpl in He. rewrite <- He in Hs0. congruence.
      - intros Hd0. exists r. split; [by rewrite <- Hid|].
        apply elem_of_due_rows; [done|]. by rewrite Hid. }
    destruct (due (Unix now) r) eqn:Ed.
    + rewrite bool_decide_true by (by apply Hmem). unfold fired. simpl.
      by destruct (ComputeNextRun _ _ _).
    + rewrite bool_decide_false; [done|]. by rewrite Hmem.
  - rewrite <- list_fmap_compose. by apply (NoDup_due_ids (due (Unix now))).
  - intros r0 (s0 & -> & [Hs0 Hd0]%elem_of_due_rows)%list_elem_of_fmap; [|done].
    simpl. rewrite lookup_fmap, Hs0. simpl. by rewrite Hd0.
Qed.

(** ** Synchronisation keeps the user's settings *)
Definition has_key (pid name : string) (d : db) : Prop :=
  exists id s, db_schedules d !! id = Some s /\ PipelineID s = pid /\ Name s = name.

(** Every row is still there with its key, its switch and its last run. *)
Definition refreshed (d d' : db) : Prop := forall id s,
  db_schedules d !! id = Some s -> exists s', db_schedules d' !! id = Some s' /\
    PipelineID s' = PipelineID s /\ Name s' = Name s /\ Enabled s' = Enabled s /\
    LastRunAt s' = LastRunAt s.
#[export] Instance refreshed_preorder : PreOrder refreshed.
Proof.
  split.
  - intros d id s Hs. eauto 10.
  - intros d1 d2 d3 H1 H2 id s (s1 & Hs1 & ? & ? & ? & ?)%H1.
    apply H2 in Hs1 as (s2 & ? & ? & ? & ? & ?). exists s2. repeat split; congruence.
Qed.

Lemma refreshed_has_key d d' pid name :
  refreshed d d' -> has_key pid name d -> has_key pid name d'.
Proof.
  intros Hr (id & s & Hs & <- & <-). destruct (Hr id s Hs) as (s' & ? & ? & ? & _).
  by exists id, s'.
Qed.

Lemma upsert_schedule_ok s next now d d' :
  schedules_ids_ok d -> upsert_schedule s next now d = (Ok tt, d') ->
  schedules_ids_ok d' /\ refreshed d d' /\
  has_key (Schedule.PipelineID s) (Schedule.Name s) d'.
Proof.
  intros Hids. unfold upsert_schedule, exec.
  assert (Hgo : forall d0, db_schedules d0 = db_schedules d ->
    match rows_keyed (Schedule.PipelineID s) (Schedule.Name s) d0 with
    | r :: _ => (Ok tt, set_schedules (insert (ID r) (resave_schedule s next now r)) d0)
    | [] =>
        if decide (is_Some (db_schedules d0 !! Schedule.ID s)) then
          (Err (ESentinel SSqlite), d0)
        else if decide (is_Some (db_pipelines d0 !! Schedule.PipelineID s)) then
          (Ok tt, set_schedules (insert (Schedule.ID s) (new_schedule s next now)) d0)
        else (Err (ESentinel SSqlite), d0)
    end = (Ok tt, d') ->
    schedules_ids_ok d' /\ refreshed d d' /\
    has_key (Schedule.PipelineID s) (Schedule.Name s) d'); [|
    destruct (db_faults d) as [|[] fs]; [by apply Hgo|by intros [=]|by apply Hgo]].
  intros d0 Hd0. destruct (rows_keyed _ _ d0) as [|r l] eqn:E.
  - case_decide as Hn; [by intros [=]|]. case_decide; [|by intros [=]]. intros [= <-].
    rewrite Hd0 in Hn. split; [|split].
    + unfold schedules_ids_ok. simpl. rewrite Hd0. by apply map_Forall_insert_2.
    + intros id s0 Hs0. simpl. rewrite Hd0. exists s0. split; [|done].
      rewrite lookup_insert_ne; [done|]. intros <-. apply Hn. eauto.
    + eexists _, _. simpl. split; [apply lookup_insert_eq|done].
  - intros [= <-]. assert (Hr : r ∈ rows_keyed (Schedule.PipelineID s) (Schedule.Name s) d0)
      by (rewrite E; left).
    unfold rows_keyed, same_key in Hr. apply elem_of_due_rows in Hr as [Hr Hk].
    2: { intros id s0. rewrite Hd0. apply Hids. }
    rewrite andb_true_iff, !bool_decide_eq_true in Hk. destruct Hk as [Hp Hn].
    rewrite Hd0 in Hr. split; [|split].
    + unfold schedules_ids_ok. simpl. rewrite Hd0. by apply map_Forall_insert_2.
    + intros id s0 Hs0. simpl. rewrite Hd0. destruct (decide (ID r = id)) as [<-|Hne].
      * rewrite lookup_insert_eq. eexists. split; [done|]. simpl. by simplify_eq.
      * rewrite lookup_insert_ne by done. eauto 10.
    + eexists _, _. simpl. split; [apply lookup_insert_eq|done].
Qed.

Section sync_facts.
Context `{!Clockwork, !UniqueIDs}.

Lemma sync_each_ok pid now l d d' :
  schedules_ids_ok d -> sync_each pid now l d = (Ok tt, d') ->
  schedules_ids_ok d' /\ refreshed d d' /\
  forall name, name ∈ ScheduleFromJob.JobName <$> l -> has_key pid name d'.
Proof.
  revert d. induction l as [|s l IH]; intros d Hids; cbn [sync_each].
  - intros [= <-]. split_and!; [done|done|]. intros name Hn. by apply elem_of_nil in Hn.
  - destruct (ComputeNextRun _ _ _) as [next|e]; [|by intros [=]].
    unfold bind at 1, UniqueID. unfold bind at 1, wrap.
    destruct (SaveSchedule _ _) as [[[]|e] d1] eqn:E; [|by intros [=]].
    unfold SaveSchedule, bind, time_Now, gets, wrap in E.
    destruct (upsert_schedule _ _ _ _) as [[[]|e] d2] eqn:E2; [|done]. injection E as ->.
    apply upsert_schedule_ok in E2 as (Hids1 & Hr1 & Hk1); [|exact Hids].
    intros (Hids' & Hr' & Hk')%IH; [|done]. split; [done|]. split.
    + etrans; [exact Hr1|exact Hr'].
    + intros name. rewrite fmap_cons. intros [->|Hn]%elem_of_cons; [|by apply Hk'].
      eapply refreshed_has_key; [exact Hr'|exact Hk1].
Qed.

Lemma PruneSchedules_ok pid keep d d' :
  PruneSchedulesByPipeline pid keep d = (Ok tt, d') ->
  forall id s, db_schedules d' !! id = Some s <->
    db_schedules d !! id = Some s /\ (PipelineID s = pid -> Name s ∈ keep).
Proof.
  unfold PruneSchedulesByPipeline, deleteAllSchedules, wrap, update, exec, modify.
  case_decide as Hk.
  - subst keep. destruct (db_faults d) as [|[] fs]; intros [= <-] id s; simpl;
      rewrite map_lookup_filter_Some; split; intros [? Hp]; split; try done;
      try (by intros ?); intros He; apply Hp in He; by apply elem_of_nil in He.
  - destruct (db_faults d) as [|[] fs]; intros [= <-] id s; simpl;
      rewrite map_lookup_filter_Some; split; intros [? Hp]; (split; [done|]).
    all: try (intros He; destruct (decide (Name s ∈ keep)); [done|]; by destruct Hp).
    all: intros [He Hn]; by apply Hn, Hp.
Qed.
End sync_facts.

(** after a successful synchronisation on upsert the schedules of the
    pipeline are exactly the jobs whose configuration declares one, each row
    that was there before for such a job is still there with the user's
    switch and its last run, and the rows of other pipelines stay. *)
Theorem syncSchedules_exact `{!Clockwork, !UniqueIDs}
    parse pipeline jobs l (d d' : db) :
  schedules_ids_ok d -> Pipeline.ContentType pipeline = ContentTypeYAML ->
  parse (Pipeline.Content pipeline) = Ok jobs -> ExtractSchedules jobs = Ok l ->
  syncSchedules parse pipeline d = (Ok tt, d') ->
  let pid := Pipeline.ID pipeline in
  (forall name, has_key pid name d' <-> name ∈ ScheduleFromJob.JobName <$> l) /\
  (forall id s, db_schedules d !! id = Some s ->
     (PipelineID s = pid -> Name s ∈ ScheduleFromJob.JobName <$> l) ->
     exists s', db_schedules d' !! id = Some s' /\ Name s' = Name s /\
       Enabled s' = Enabled s /\ LastRunAt s' = LastRunAt s).
Proof.
  intros Hids Hty Hparse Hex. unfold syncSchedules. rewrite Hty, Hparse. simpl.
  rewrite Hex.
  unfold bind, time_Now, gets, wrap.
  destruct (sync_each _ _ _ _) as [[[]|e] d1] eqn:E1; [|by intros [=]].
  destruct (PruneSchedulesByPipeline _ _ d1) as [[[]|e] d2] eqn:E2; [|by intros [=]].
  intros [= <-]. apply sync_each_ok in E1 as (_ & Hr & Hk); [|done].
  pose proof (PruneSchedules_ok _ _ _ _ E2) as Hp. split.
  - intros name. split.
    + intros (id & s & [_ Hs]%Hp & He & <-). by apply Hs.
    + intros Hn. destruct (Hk name Hn) as (id & s & Hs & He & Hnm).
      exists id, s. split; [|done]. apply Hp. split; [done|]. by rewrite Hnm.
  - intros id s Hs Hin. destruct (Hr id s Hs) as (s' & Hs' & He & Hn & ? & ?).
    exists s'. split; [|done]. apply Hp. split; [done|]. rewrite He, Hn. exact Hin.
Qed.

(** ** Witnesses *)
Definition ex_clock : Clockwork := {|
  cron_next := fun _ => None;
  ParseDuration := fun s => if decide (s = "10s") then Ok (10 * nanosPerSecond)%Z
                            else Err (EMsg s) |}.
#[local] Existing Instances ex_clock counter_ids.
Definition ex_sched (id name expr : string) (next : option Z) : t :=
  mk id "p1" name ScheduleTypeInterval expr name 1 None next 0 0.
Definition ex_sched_db : db :=
  set_schedules (fun _ => <["s1" := ex_sched "s1" "build" "10s" (Some 5%Z)]>
    {["s2" := ex_sched "s2" "nightly" "bad" (Some 5%Z)]}) 
    (set_now (time_Unix 7) empty_db).

Lemma ex_sched_ids : schedules_ids_ok ex_sched_db.
Proof. apply map_Forall_insert_2; [done|]. by apply map_Forall_singleton. Qed.

Lemma ClaimDueSchedules_once_witness :
  exists l1 d1, ClaimDueSchedules (time_Unix 7) ex_sched_db = (Ok l1, d1) /\
    "s1" ∈ Schedule.ID <$> l1 /\
    exists l2 d2, ClaimDueSchedules (time_Unix 9) d1 = (Ok l2, d2) /\
      "s1" ∉ Schedule.ID <$> l2.
Proof.
  destruct (ClaimDueSchedules_once ex_sched_db (time_Unix 7) (time_Unix 9) (eq_refl _)
    ex_sched_ids) as (l1 & d1 & H1 & _ & Hin & l2 & d2 & H2 & Hout).
  assert (Hs1 : "s1" ∈ Schedule.ID <$> l1).
  { apply Hin. exists (ex_sched "s1" "build" "10s" (Some 5%Z)). split; [reflexivity|].
    split; [reflexivity|]. exists 5%Z. split; [reflexivity|]. vm_compute. discriminate. }
  exists l1, d1. split; [exact H1|]. split; [exact Hs1|]. exists l2, d2.
  split; [exact H2|]. exact (Hout _ Hs1).
Defined.

Lemma tick_fires_witness :
  exists r', db_schedules (tick (St := db) (fun _ => ret tt) ex_sched_db).2 !! "s1" = Some r' /\
    NextRunAt r' = Some 17%Z.
Proof.
  destruct (tick_fires (St := db) (fun _ => ret tt) ex_sched_db "s1"
    (ex_sched "s1" "build" "10s" (Some 5%Z)))
    as (r' & Hr & Hd); [by intros ??|reflexivity|exact ex_sched_ids|reflexivity|].
  exists r'. split; [exact Hr|]. destruct Hd as (_ & _ & _ & _ & Hn). exact Hn.
Defined.

Definition ex_job (name expr : string) : Job.t :=
  Job.mk None None name [] [] None 0 false None None None None None 0
    (Some (Triggers.mk None (Some (ScheduleTriggerConfig.mk "" expr)) [])) "".
Definition ex_pipeline : Pipeline.t :=
  Pipeline.mk "p1" "demo" "" ContentTypeYAML "" false false "" "" "" false 0%Z 0%Z.

Lemma syncSchedules_exact_witness :
  let d' := (syncSchedules (fun _ => Ok [ex_job "build" "10s"]) ex_pipeline ex_sched_db).2 in
  has_key "p1" "build" d' /\ ~ has_key "p1" "nightly" d'.
Proof.
  destruct (syncSchedules (fun _ => Ok [ex_job "build" "10s"]) ex_pipeline ex_sched_db)
    as [[[]|e] d'] eqn:E; [|vm_compute in E; discriminate].
  destruct (@syncSchedules_exact ex_clock counter_ids (fun _ => Ok [ex_job "build" "10s"]) ex_pipeline
    [ex_job "build" "10s"] [ScheduleFromJob.mk "build" ScheduleTypeInterval "10s"]
    ex_sched_db d' ex_sched_ids (eq_refl _) (eq_refl _) ltac:(vm_compute; reflexivity) E) as [Hk _].
  split; [apply Hk; left|]. intros Hn%Hk.
  apply elem_of_cons in Hn as [Hn|Hn]; [discriminate|by apply elem_of_nil in Hn].
Defined.
