(* ===== verification/Server.v ===== *)
(** * The execution service: state and slots (server/execution.go, features.go)

    [svc] is the [ExecutionService] with the database behind its store and
    with the goroutines it has started. A goroutine of [executePipeline] is a
    record with a phase; the context it runs under is its number, cancelled
    when the number is in [sv_cancelled]. A request that executes its run itself
    ([RunByNameSync]) is a record of [sv_syncs] in the same way. The channel a
    webhook waits on is a number too. *)
From S2P Require Import Prelude Storage Json Db GoStrings Paging Runs Tasks Pipelines.
From S2P Require Import Config.
From Stdlib Require Import Ascii.
Open Scope string_scope.

(** ** Features (server/features.go) *)
Inductive Feature : Type :=
  | FeatureWebhooks | FeatureSecrets | FeatureNotifications | FeatureFetch
  | FeatureResume | FeatureSchedules | FeatureGates.
#[export] Instance Feature_eq_dec : EqDecision Feature.
Proof. solve_decision. Defined.

Definition Feature_string (f : Feature) : string :=
  match f with
  | FeatureWebhooks => "webhooks" | FeatureSecrets => "secrets"
  | FeatureNotifications => "notifications" | FeatureFetch => "fetch"
  | FeatureResume => "resume" | FeatureSchedules => "schedules"
  | FeatureGates => "gates"
  end.

Definition AllFeatures : list Feature :=
  [FeatureWebhooks; FeatureSecrets; FeatureNotifications; FeatureFetch; FeatureResume].
Definition knownFeatures : list Feature := FeatureSchedules :: FeatureGates :: AllFeatures.

Definition IsFeatureEnabled (feature : Feature) (allowed : list Feature) : bool :=
  existsb (fun f => bool_decide (f = feature)) allowed.

Fixpoint parse_features (parts : list string) : result (list Feature) :=
  match parts with
  | [] => Ok []
  | part :: rest =>
      let trimmed := TrimSpace part in
      if decide (trimmed = "") then parse_features rest
      else
        match List.find (fun f => bool_decide (Feature_string f = trimmed)) knownFeatures with
        | None => Err (EMsg ("unknown feature " ++ q trimmed))
        | Some f =>
            match parse_features rest with
            | Ok l => Ok (f :: l)
            | Err e => Err e
            end
        end
  end.

Definition ParseAllowedFeatures (input : string) : result (list Feature) :=
  if decide (input = "" \/ input = "*") then Ok AllFeatures
  else
    match parse_features (Split input ",") with
    | Err e => Err e
    | Ok [] => Ok AllFeatures
    | Ok l => Ok l
    end.

(** ** Options of an execution *)
Definition toTriggerWebhookInput (data : option WebhookData.t)
    : option TriggerWebhookInput.t :=
  match data with
  | None => None
  | Some w => Some (TriggerWebhookInput.mk (WebhookData.Provider w)
      (WebhookData.EventType w) (WebhookData.Method w) (WebhookData.URL w)
      (WebhookData.Headers w) (WebhookData.Body w) (WebhookData.Query w))
  end.

Module webhookExecData.
Record t := mk { webhookData : WebhookData.t; responseChan : option nat }.
End webhookExecData.

Module execOptions.
Record t := mk {
    webhook : option webhookExecData.t; args : list string; jobs : list string;
    resume : bool; requestID : string; authProvider : string; user : string }.
Definition empty : t := mk None [] [] false "" "" "".
End execOptions.

Module RequestActor.
Record t := mk { Provider : string; User : string }.
End RequestActor.

Definition formatTriggeredBy (actor : RequestActor.t) : string :=
  if decide (RequestActor.Provider actor <> "" /\ RequestActor.User actor <> "")
  then RequestActor.Provider actor ++ ":" ++ RequestActor.User actor
  else if decide (RequestActor.User actor <> "") then RequestActor.User actor
  else "".

Definition formatWebhookTriggeredBy (data : option WebhookData.t) : string :=
  match data with
  | None => ""
  | Some w =>
      if decide (WebhookData.EventType w <> "")
      then WebhookData.Provider w ++ ":" ++ WebhookData.EventType w
      else WebhookData.Provider w
  end.

(** ** The service *)

(** Where a goroutine of [executePipeline] stands: about to register its
    cancel function, to mark the run running, to call the runtime, to finalize
    with the runtime's error, or to run its deferred calls. *)
Inductive phase : Type :=
  | PhStart
  | PhRegistered
  | PhRunning
  | PhExecuted (execErr : option err)
  | PhFinished.

Record goroutine : Type := mkGoroutine {
  g_pipeline : Pipeline.t; g_run : PipelineRun.t; g_opts : execOptions.t;
  g_phase : phase }.

(** Where a request of [RunByNameSync] stands, once its run is admitted: about to
    seed the volume and to register its cancel function, to call the runtime, to
    finalize, or to run its deferred calls. It takes no slot. *)
Inductive sync_phase : Type :=
  | SyAdmitted
  | SyRegistered
  | SyExecuted (execErr : option err)
  | SyFinished.
Record sync_run : Type := mkSync { y_pipeline : Pipeline.t; y_run : PipelineRun.t; y_phase : sync_phase }.

Record svc : Type := mkSvc {
  sv_db : db;
  sv_maxInFlight : Z;
  sv_maxQueueSize : Z;
  sv_inFlight : Z;                              (* atomic.Int32 *)
  sv_stopRegistry : gmap string nat;            (* run id -> its context *)
  sv_cancelled : gset nat;
  sv_pendingWebhooks : gmap string nat;
  sv_goroutines : gmap nat goroutine;
  sv_syncs : gmap nat sync_run;
  sv_next : nat;
  sv_features : list Feature }.

Definition set_db d s := mkSvc d (sv_maxInFlight s) (sv_maxQueueSize s)
  (sv_inFlight s) (sv_stopRegistry s) (sv_cancelled s) (sv_pendingWebhooks s)
  (sv_goroutines s) (sv_syncs s) (sv_next s) (sv_features s).
Definition set_inFlight n s := mkSvc (sv_db s) (sv_maxInFlight s) (sv_maxQueueSize s)
  n (sv_stopRegistry s) (sv_cancelled s) (sv_pendingWebhooks s)
  (sv_goroutines s) (sv_syncs s) (sv_next s) (sv_features s).
Definition set_stopRegistry r s := mkSvc (sv_db s) (sv_maxInFlight s) (sv_maxQueueSize s)
  (sv_inFlight s) r (sv_cancelled s) (sv_pendingWebhooks s)
  (sv_goroutines s) (sv_syncs s) (sv_next s) (sv_features s).
Definition set_cancelled c s := mkSvc (sv_db s) (sv_maxInFlight s) (sv_maxQueueSize s)
  (sv_inFlight s) (sv_stopRegistry s) c (sv_pendingWebhooks s)
  (sv_goroutines s) (sv_syncs s) (sv_next s) (sv_features s).
Definition set_pendingWebhooks p s := mkSvc (sv_db s) (sv_maxInFlight s) (sv_maxQueueSize s)
  (sv_inFlight s) (sv_stopRegistry s) (sv_cancelled s) p
  (sv_goroutines s) (sv_syncs s) (sv_next s) (sv_features s).
Definition set_goroutines g s := mkSvc (sv_db s) (sv_maxInFlight s) (sv_maxQueueSize s)
  (sv_inFlight s) (sv_stopRegistry s) (sv_cancelled s) (sv_pendingWebhooks s)
  g (sv_syncs s) (sv_next s) (sv_features s).
Definition set_syncs y s := mkSvc (sv_db s) (sv_maxInFlight s) (sv_maxQueueSize s)
  (sv_inFlight s) (sv_stopRegistry s) (sv_cancelled s) (sv_pendingWebhooks s)
  (sv_goroutines s) y (sv_next s) (sv_features s).
Definition set_next n s := mkSvc (sv_db s) (sv_maxInFlight s) (sv_maxQueueSize s)
  (sv_inFlight s) (sv_stopRegistry s) (sv_cancelled s) (sv_pendingWebhooks s)
  (sv_goroutines s) (sv_syncs s) n (sv_features s).

#[export] Instance svc_has_db : HasDb svc.
Proof.
  refine {| get_db := sv_db; put_db := set_db |}; try done. by intros [].
Defined.

(** NewExecutionService *)
Definition NewExecutionService (store : db) (maxInFlight maxQueueSize : Z)
    (features : list Feature) : svc :=
  mkSvc store (if (maxInFlight <=? 0)%Z then 10%Z else maxInFlight) maxQueueSize
    0 ∅ ∅ ∅ ∅ ∅ 0 features.

(** The server opens its store without a namespace (commands/server.go). *)
Definition server_namespace : Namespace := "".
#[export] Existing Instance server_namespace.

Section service.
Context `{!OrderBy, !JsonText}.

Definition CanExecute (s : svc) : bool := (sv_inFlight s <? sv_maxInFlight s)%Z.

Definition QueueLength : ST svc Z :=
  let! runs := attempt (on_db (GetRunsByStatus RunStatusQueued 0)) in
  match runs with
  | Ok l => ret (Z.of_nat (length l))
  | Err _ => ret 0%Z
  end.

Definition CanAccept : ST svc bool :=
  let! free := gets CanExecute in
  if free then ret true
  else
    let! maxQueue := gets sv_maxQueueSize in
    if (0 <? maxQueue)%Z then
      let! n := QueueLength in ret (n <? maxQueue)%Z
    else ret false.

(** [dispatchRun]: take a slot and start the goroutine. *)
Definition start_goroutine (pipeline : Pipeline.t) (run : PipelineRun.t)
    (opts : execOptions.t) (s : svc) : svc :=
  let g := sv_next s in
  set_next (S g)
    (set_goroutines (<[g := mkGoroutine pipeline run opts PhStart]> (sv_goroutines s))
      (set_inFlight (sv_inFlight s + 1)%Z s)).
Definition dispatchRun (pipeline : Pipeline.t) (run : PipelineRun.t)
    (opts : execOptions.t) : ST svc unit :=
  modify (start_goroutine pipeline run opts).

Definition run_prefix (runID : string) : string := "/pipeline/" ++ runID ++ "/".

Definition abort_tasks (runID : string) : ST svc unit :=
  ignore (on_db (UpdateStatusForPrefix (run_prefix runID) ["pending"; "running"] "aborted")).

Definition StopRun (runID : string) : ST svc unit :=
  let! cancel := gets (fun s => sv_stopRegistry s !! runID) in
  match cancel with
  | None => fail (ESentinel SRunNotInFlight)
  | Some g =>
      modify (fun s => set_cancelled ({[ g ]} ∪ sv_cancelled s) s) ;;;
      abort_tasks runID ;;;
      ignore (on_db (UpdateRunStatus runID RunStatusFailed "Run stopped by user"))
  end.

(** [cond.Broadcast] only wakes the queue processor. *)
Definition dispatchOrQueue (pipeline : Pipeline.t) (run : PipelineRun.t)
    (opts : execOptions.t) (queueOnly : bool) : ST svc bool :=
  let! free := gets CanExecute in
  if negb queueOnly && free then
    dispatchRun pipeline run opts ;;; ret true
  else ret false.
End service.

(** ** Atomic steps

    Handlers, the queue processor and the goroutines of [executePipeline] run
    concurrently, and so do the requests that execute a run themselves. What is atomic is a statement of the store, a locked update
    of a map, and an atomic add; [step] is one of these by whoever does it. A
    goroutine goes through its phases in order. *)
Definition set_phase (g : nat) (p : goroutine) (ph : phase) (s : svc) : svc :=
  set_goroutines (<[g := mkGoroutine (g_pipeline p) (g_run p) (g_opts p) ph]>
    (sv_goroutines s)) s.

Inductive phase_next : phase -> phase -> Prop :=
  | next_running : phase_next PhRegistered PhRunning
  | next_not_running : phase_next PhRegistered PhFinished
  | next_executed e : phase_next PhRunning (PhExecuted e)
  | next_finished e : phase_next (PhExecuted e) PhFinished.

(** stopRegistry[run.ID] = cancel *)
Definition register (g : nat) (p : goroutine) (s : svc) : svc :=
  set_phase g p PhRegistered
    (set_stopRegistry (<[PipelineRun.ID (g_run p) := g]> (sv_stopRegistry s)) s).

(** The deferred calls: leave the registry, cancel, free the slot. *)
Definition cleanup (g : nat) (p : goroutine) (s : svc) : svc :=
  set_goroutines (delete g (sv_goroutines s))
    (set_inFlight (sv_inFlight s - 1)%Z
      (set_cancelled ({[ g ]} ∪ sv_cancelled s)
        (set_stopRegistry (delete (PipelineRun.ID (g_run p)) (sv_stopRegistry s)) s))).

(** *** Synchronous runs: the request itself executes the run. *)
Definition start_sync (pipeline : Pipeline.t) (run : PipelineRun.t) (s : svc) : svc :=
  set_next (S (sv_next s))
    (set_syncs (<[sv_next s := mkSync pipeline run SyAdmitted]> (sv_syncs s)) s).
Definition set_sync_phase (g : nat) (y : sync_run) (ph : sync_phase) (s : svc) : svc :=
  set_syncs (<[g := mkSync (y_pipeline y) (y_run y) ph]> (sv_syncs s)) s.
(** The request fails before it has registered. *)
Definition abandon_sync (g : nat) (s : svc) : svc := set_syncs (delete g (sv_syncs s)) s.
Definition register_sync (g : nat) (y : sync_run) (s : svc) : svc :=
  set_sync_phase g y SyRegistered
    (set_stopRegistry (<[PipelineRun.ID (y_run y) := g]> (sv_stopRegistry s)) s).
(** The deferred calls: leave the registry, cancel. *)
Definition cleanup_sync (g : nat) (y : sync_run) (s : svc) : svc :=
  set_syncs (delete g (sv_syncs s))
    (set_cancelled ({[ g ]} ∪ sv_cancelled s)
      (set_stopRegistry (delete (PipelineRun.ID (y_run y)) (sv_stopRegistry s)) s)).

Inductive sync_next : sync_phase -> sync_phase -> Prop :=
  | sync_executed e : sync_next SyRegistered (SyExecuted e)
  | sync_finished e : sync_next (SyExecuted e) SyFinished.

Inductive call (s : svc) : svc -> Prop :=
  | call_store d : call s (set_db d s)
  | call_dispatch pipeline run opts : call s (start_goroutine pipeline run opts s)
  | call_cancel g : call s (set_cancelled ({[ g ]} ∪ sv_cancelled s) s)
  | call_pending m : call s (set_pendingWebhooks m s)
  | call_sync pipeline run : call s (start_sync pipeline run s).

Inductive step (s : svc) : svc -> Prop :=
  | step_call s' : call s s' -> step s s'
  | step_register g p :
      sv_goroutines s !! g = Some p -> g_phase p = PhStart -> step s (register g p s)
  | step_phase g p ph :
      sv_goroutines s !! g = Some p -> phase_next (g_phase p) ph ->
      step s (set_phase g p ph s)
  | step_cleanup g p :
      sv_goroutines s !! g = Some p -> g_phase p = PhFinished -> step s (cleanup g p s)
  | step_sync_abandon g y :
      sv_syncs s !! g = Some y -> y_phase y = SyAdmitted -> step s (abandon_sync g s)
  | step_sync_register g y :
      sv_syncs s !! g = Some y -> y_phase y = SyAdmitted -> step s (register_sync g y s)
  | step_sync_phase g y ph :
      sv_syncs s !! g = Some y -> sync_next (y_phase y) ph -> step s (set_sync_phase g y ph s)
  | step_sync_cleanup g y :
      sv_syncs s !! g = Some y -> y_phase y = SyFinished -> step s (cleanup_sync g y s).

(** [by_calls m]: whatever it returns, [m] is a sequence of atomic calls. *)
Definition calls : relation svc := rtc call.
Definition steps : relation svc := rtc step.
#[export] Instance calls_preorder : PreOrder calls.
Proof. unfold calls. split; apply _. Qed.
#[export] Instance steps_preorder : PreOrder steps.
Proof. unfold steps. split; apply _. Qed.
Notation by_calls m := (preserves calls m).

Lemma calls_steps s s' : calls s s' -> steps s s'.
Proof. apply rtc_subrel. intros s1 s2. apply step_call. Qed.

(** ** Facts *)

(** The context [g] belongs to a goroutine, or a synchronous request, that has
    registered it for the run. *)
Definition owns (s : svc) (g : nat) (run : string) : Prop :=
  (exists p, sv_goroutines s !! g = Some p /\ PipelineRun.ID (g_run p) = run /\ g_phase p <> PhStart) \/
  (exists y, sv_syncs s !! g = Some y /\ PipelineRun.ID (y_run y) = run /\ y_phase y <> SyAdmitted).

(** Every slot in use belongs to a goroutine, the numbers of contexts are fresh,
    and a registered context is that of a live goroutine or request of the run. *)
Record slots_ok (s : svc) : Prop := {
  slots_count : sv_inFlight s = Z.of_nat (size (sv_goroutines s));
  slots_fresh : forall g p, sv_goroutines s !! g = Some p -> g < sv_next s;
  slots_fresh_sync : forall g y, sv_syncs s !! g = Some y -> g < sv_next s;
  slots_registered : forall run g, sv_stopRegistry s !! run = Some g -> owns s g run }.

Lemma slots_ok_New d m k f : slots_ok (NewExecutionService d m k f).
Proof. split; simpl; try done. Qed.

Lemma owns_set_phase g p ph s g' run :
  sv_goroutines s !! g = Some p -> ph <> PhStart -> owns s g' run -> owns (set_phase g p ph s) g' run.
Proof.
  intros Hg Hph [(p' & Hp' & Hid & Hst)|Hy]; [left|by right]. simpl.
  destruct (decide (g = g')) as [<-|Hne].
  - rewrite lookup_insert_eq. eexists. split; [done|]. simpl. by simplify_eq.
  - rewrite lookup_insert_ne by done. eauto.
Qed.
Lemma set_phase_ok g p ph s :
  sv_goroutines s !! g = Some p -> ph <> PhStart -> slots_ok s ->
  slots_ok (set_phase g p ph s).
Proof.
  intros Hg Hph [Hc Hf Hy Hr]. split; simpl.
  - by rewrite map_size_insert_Some by eauto.
  - intros g' p'. rewrite lookup_insert_Some. intros [[<- _]|[_ ?]]; eauto.
  - exact Hy.
  - intros run g' Hreg. by apply owns_set_phase, Hr.
Qed.

Lemma register_ok g p s :
  sv_goroutines s !! g = Some p -> slots_ok s -> slots_ok (register g p s).
Proof.
  intros Hg Hok. pose proof (set_phase_ok g p PhRegistered s Hg ltac:(done) Hok) as [Hc Hf Hy Hr].
  split; [exact Hc|exact Hf|exact Hy|]. intros run g'. simpl in *.
  rewrite lookup_insert_Some. intros [[<- <-]|[Hne Hreg]].
  - left. simpl. rewrite lookup_insert_eq. by eexists.
  - by apply Hr.
Qed.

Lemma cleanup_ok g p s :
  sv_goroutines s !! g = Some p -> slots_ok s -> slots_ok (cleanup g p s).
Proof.
  intros Hg [Hc Hf Hy Hr]. split; simpl.
  - rewrite map_size_delete_Some by eauto.
    assert (size (sv_goroutines s) <> 0) by (apply (map_size_ne_0_lookup_2 _ g); eauto). lia.
  - intros g' p' [_ ?]%lookup_delete_Some. eauto.
  - exact Hy.
  - intros run g' [Hne Hreg]%lookup_delete_Some.
    destruct (Hr run g' Hreg) as [(p' & Hp' & Hid & Hst)|Hsync]; [left|by right]. exists p'. simpl.
    rewrite lookup_delete_ne; [done|]. intros <-. congruence.
Qed.

Lemma start_goroutine_ok pipeline run opts s :
  slots_ok s -> slots_ok (start_goroutine pipeline run opts s).
Proof.
  intros [Hc Hf Hy Hr].
  assert (Hn : sv_goroutines s !! sv_next s = None).
  { destruct (sv_goroutines s !! sv_next s) eqn:E; [|done]. apply Hf in E. lia. }
  split; simpl.
  - rewrite map_size_insert_None by done. lia.
  - intros g p. rewrite lookup_insert_Some. intros [[<- _]|[_ Hg]]; [lia|].
    apply Hf in Hg. lia.
  - intros g y Hg%Hy. lia.
  - intros rn g Hg. destruct (Hr rn g Hg) as [(p & Hp & ?)|Hsync]; [left|by right]. exists p. simpl.
    rewrite lookup_insert_ne; [done|]. intros <-. congruence.
Qed.

(** *** Synchronous runs *)
Lemma set_sync_phase_ok g y ph s :
  sv_syncs s !! g = Some y -> ph <> SyAdmitted -> slots_ok s -> slots_ok (set_sync_phase g y ph s).
Proof.
  intros Hg Hph [Hc Hf Hy Hr]. split; simpl; [done..| |].
  - intros g' y'. rewrite lookup_insert_Some. intros [[<- _]|[_ ?]]; eauto.
  - intros run g' Hreg. destruct (Hr run g' Hreg) as [Hp|(y' & Hy' & Hid & Hst)]; [by left|right]. simpl.
    destruct (decide (g = g')) as [<-|Hne].
    + rewrite lookup_insert_eq. eexists. split; [done|]. simpl. by simplify_eq.
    + rewrite lookup_insert_ne by done. eauto.
Qed.

Lemma register_sync_ok g y s :
  sv_syncs s !! g = Some y -> slots_ok s -> slots_ok (register_sync g y s).
Proof.
  intros Hg Hok. pose proof (set_sync_phase_ok g y SyRegistered s Hg ltac:(done) Hok) as [Hc Hf Hy Hr].
  split; [exact Hc|exact Hf|exact Hy|]. intros run g'. simpl in *.
  rewrite lookup_insert_Some. intros [[<- <-]|[Hne Hreg]].
  - right. simpl. rewrite lookup_insert_eq. by eexists.
  - by apply Hr.
Qed.

(** A request that ends, with its registration or without one. *)
Lemma delete_sync_ok g y (registry : gmap string nat) s :
  sv_syncs s !! g = Some y -> slots_ok s ->
  (forall run g', registry !! run = Some g' ->
     sv_stopRegistry s !! run = Some g' /\ (run <> PipelineRun.ID (y_run y) \/ y_phase y = SyAdmitted)) ->
  forall cancelled, slots_ok (set_syncs (delete g (sv_syncs s)) (set_cancelled cancelled (set_stopRegistry registry s))).
Proof.
  intros Hg [Hc Hf Hy Hr] Hreg cancelled. split; simpl; [done..| |].
  - intros g' y' [_ ?]%lookup_delete_Some. eauto.
  - intros run g' [Hrun Hne]%Hreg. destruct (Hr run g' Hrun) as [Hp|(y' & Hy' & Hid & Hst)]; [by left|right].
    exists y'. simpl. rewrite lookup_delete_ne; [done|]. intros <-. simplify_eq. by destruct Hne.
Qed.

Lemma start_sync_ok pipeline run s : slots_ok s -> slots_ok (start_sync pipeline run s).
Proof.
  intros [Hc Hf Hy Hr]. split; simpl; [done| | |].
  - intros g p Hg%Hf. lia.
  - intros g y. rewrite lookup_insert_Some. intros [[<- _]|[_ Hg%Hy]]; lia.
  - intros rn g Hg. destruct (Hr rn g Hg) as [Hp|(y & Hyg & ?)]; [by left|right]. exists y. simpl.
    rewrite lookup_insert_ne; [done|]. intros <-. apply Hy in Hyg. lia.
Qed.

Lemma call_ok s s' : call s s' -> slots_ok s -> slots_ok s'.
Proof.
  intros [] [Ho1 Ho2 Ho3 Ho4]; [by split|by apply start_goroutine_ok|by split|by split|by apply start_sync_ok].
Qed.

Lemma step_ok s s' : step s s' -> slots_ok s -> slots_ok s'.
Proof.
  intros [s2 Hc|g p|g p ph Hg Hph|g p|g y Hy Hph|g y|g y ph Hg Hph|g y Hy Hph] Hok.
  - by eapply call_ok.
  - by apply register_ok.
  - apply set_phase_ok; [done| |done]. intros ->. inversion Hph.
  - by apply cleanup_ok.
  - pose proof (delete_sync_ok g y (sv_stopRegistry s) s Hy Hok) as Hd.
    destruct s. apply Hd. intros run g' Hreg. split; [done|by right].
  - by apply register_sync_ok.
  - apply set_sync_phase_ok; [done| |done]. intros ->. inversion Hph.
  - apply (delete_sync_ok g y); [done..|]. intros run g' [Hne Hreg]%lookup_delete_Some. split; [done|]. left. congruence.
Qed.

Lemma steps_ok s s' : steps s s' -> slots_ok s -> slots_ok s'.
Proof. induction 1; eauto using step_ok. Qed.

Lemma calls_ok s s' : calls s s' -> slots_ok s -> slots_ok s'.
Proof. intros Hc. by apply steps_ok, calls_steps. Qed.

(** Calls leave the goroutines that are there alone. *)
Lemma call_goroutine s s' g p :
  call s s' -> slots_ok s -> sv_goroutines s !! g = Some p -> sv_goroutines s' !! g = Some p.
Proof.
  intros [] Hok Hg; try done. simpl. rewrite lookup_insert_ne; [done|].
  pose proof (slots_fresh s Hok g p Hg). lia.
Qed.

Lemma call_sync_run s s' g y :
  call s s' -> slots_ok s -> sv_syncs s !! g = Some y -> sv_syncs s' !! g = Some y.
Proof.
  intros [] Hok Hg; try done. simpl. rewrite lookup_insert_ne; [done|].
  pose proof (slots_fresh_sync s Hok g y Hg). lia.
Qed.
Lemma calls_sync_run s s' g y :
  calls s s' -> slots_ok s -> sv_syncs s !! g = Some y -> sv_syncs s' !! g = Some y.
Proof.
  induction 1 as [|s1 s2 s3 H1 _ IH]; [done|]. intros Hok Hg.
  apply IH; [by eapply call_ok|by eapply call_sync_run].
Qed.

Lemma calls_goroutine s s' g p :
  calls s s' -> slots_ok s -> sv_goroutines s !! g = Some p -> sv_goroutines s' !! g = Some p.
Proof.
  induction 1 as [|s1 s2 s3 H1 _ IH]; [done|]. intros Hok Hg.
  apply IH; [by eapply call_ok|by eapply call_goroutine].
Qed.

Lemma on_db_steps {A} (m : ST db A) : by_calls (on_db m).
Proof.
  intros s. unfold on_db. destruct (m (get_db s)) as [r d].
  apply rtc_once, (call_store s d).
Qed.

Lemma dispatchRun_steps pipeline run opts : by_calls (dispatchRun pipeline run opts).
Proof. intros s. apply rtc_once, (call_dispatch s). Qed.

Section service_facts.
Context `{!OrderBy, !JsonText}.

(** A stop request in one equation: the context is cancelled and the two
    writes run in order, their errors ignored. *)
Lemma StopRun_exact runID s :
  StopRun runID s =
    match sv_stopRegistry s !! runID with
    | None => (Err (ESentinel SRunNotInFlight), s)
    | Some g =>
        (Ok tt, set_db (UpdateRunStatus runID RunStatusFailed "Run stopped by user"
           (UpdateStatusForPrefix (run_prefix runID) ["pending"; "running"] "aborted"
              (sv_db s)).2).2 (set_cancelled ({[ g ]} ∪ sv_cancelled s) s))
    end.
Proof.
  unfold StopRun, bind, gets, modify, fail, abort_tasks, ignore, on_db.
  destruct (sv_stopRegistry s !! runID) as [g|]; [|done]. cbn [get_db svc_has_db].
  change (sv_db (set_cancelled ({[g]} ∪ sv_cancelled s) s)) with (sv_db s).
  destruct (UpdateStatusForPrefix _ _ _ (sv_db s)) as [r1 d1]. cbn [snd].
  change (sv_db (put_db d1 _)) with d1.
  by destruct (UpdateRunStatus _ _ _ d1) as [r2 d2].
Qed.

Lemma StopRun_steps runID : by_calls (StopRun runID).
Proof.
  unfold StopRun. apply preserves_bind; [apply _|by apply preserves_gets|].
  intros [g|]; [|by apply preserves_fail].
  apply preserves_bind; [apply _|by intros s; apply rtc_once, call_cancel|intros _].
  apply preserves_bind; [apply _|by apply preserves_ignore, on_db_steps|intros _].
  by apply preserves_ignore, on_db_steps.
Qed.

Lemma dispatchOrQueue_steps pipeline run opts queueOnly :
  by_calls (dispatchOrQueue pipeline run opts queueOnly).
Proof.
  unfold dispatchOrQueue. apply preserves_bind; [apply _|by apply preserves_gets|].
  intros free. case_match; [|by apply preserves_ret].
  apply preserves_bind; [apply _|apply dispatchRun_steps|].
  intros _. by apply preserves_ret.
Qed.

Lemma CanAccept_steps : by_calls CanAccept.
Proof.
  unfold CanAccept, QueueLength. apply preserves_bind; [apply _|by apply preserves_gets|].
  intros [|]; [by apply preserves_ret|].
  apply preserves_bind; [apply _|by apply preserves_gets|]. intros n.
  case_match; [|by apply preserves_ret].
  apply preserves_bind; [apply _| |intros; by apply preserves_ret].
  apply preserves_bind; [apply _|by apply preserves_attempt, on_db_steps|].
  intros [l|e]; by apply preserves_ret.
Qed.
End service_facts.
