(* ===== verification/Admission.v ===== *)
(** * Admission: concurrency rules of a trigger (server/execution_concurrency.go)

    A trigger is first matched against the pipeline's concurrency mode and the
    active runs it collides with, then recorded as a run that may start, must
    queue, is skipped, or fails for a bad configuration. The template engine
    is a parameter. *)
From S2P Require Import Prelude Storage Json Db GoStrings Paging Runs Tasks Pipelines.
From S2P Require Import Config Server.
Open Scope string_scope.

Inductive concurrencyAction : Type :=
  | concurrencyProceed | concurrencyQueueBehind | concurrencySkip
  | concurrencyCancelPeers.
#[export] Instance concurrencyAction_eq_dec : EqDecision concurrencyAction.
Proof. solve_decision. Defined.

Module concurrencyDecision.
Record t := mk {
    Action : concurrencyAction; Group : string; Peers : list PipelineRun.t;
    SkipReason : string }.
End concurrencyDecision.

Module concurrencyWebhookContext.
Record t := mk {
    Provider : string; EventType : string; Method : string; URL : string;
    Branch : string; Ref : string; Headers : gmap string string;
    Query : gmap string string }.
Definition zero : t := mk "" "" "" "" "" "" ∅ ∅.
End concurrencyWebhookContext.

Module concurrencyTemplateContext.
Record t := mk {
    Args : list string; Jobs : list string; Webhook : concurrencyWebhookContext.t }.
End concurrencyTemplateContext.

Definition concurrencyTemplateData (triggerInput : TriggerInput.t)
    : concurrencyTemplateContext.t :=
  concurrencyTemplateContext.mk (TriggerInput.Args triggerInput)
    (TriggerInput.Jobs triggerInput)
    match TriggerInput.Webhook triggerInput with
    | None => concurrencyWebhookContext.zero
    | Some w =>
        concurrencyWebhookContext.mk (TriggerWebhookInput.Provider w)
          (TriggerWebhookInput.EventType w) (TriggerWebhookInput.Method w)
          (TriggerWebhookInput.URL w)
          (default "" (TriggerWebhookInput.Headers w !! "X-Branch"))
          (default "" (TriggerWebhookInput.Headers w !! "X-Ref"))
          (TriggerWebhookInput.Headers w) (TriggerWebhookInput.Query w)
    end.

(** [text/template] with [missingkey=zero]. *)
Class TemplateEngine : Type := {
  template : Type;
  template_Parse : string -> result template;
  template_Execute : template -> concurrencyTemplateContext.t -> result string }.

Module admissionResult.
Record t := mk { Run : PipelineRun.t; Terminal : bool; QueueOnly : bool }.
End admissionResult.

(** [err.Error()]: the text of an error; the store's and the template
    engine's own texts are opaque. *)
Fixpoint Error (e : err) : string :=
  match e with
  | ESentinel SNotFound => "not found"
  | ESentinel SQueueFull => "execution queue is full"
  | ESentinel SRunNotInFlight => "run is not currently in flight"
  | ESentinel SUnauthorized => "webhook signature validation failed"
  | ESentinel SNoMatch => "no webhook provider matched the request"
  | ESentinel _ => "error"
  | EMsg m => m
  | EWrap m e => m ++ ": " ++ Error e
  end.

Section admission.
Context `{!UniqueIDs, !OrderBy, !JsonText, !TemplateEngine}.

Definition resolveConcurrencyGroup (pipeline : Pipeline.t)
    (triggerInput : TriggerInput.t) : result string :=
  let mode := Pipeline.ConcurrencyMode pipeline in
  if decide (mode = ConcurrencyModeNone) then Ok ""
  else if decide (mode = ConcurrencyModeSerial \/ mode = ConcurrencyModeSkipIfRunning) then
    Ok ("pipeline:" ++ Pipeline.ID pipeline)
  else if decide (mode = ConcurrencyModeGroup) then
    if decide (Pipeline.ConcurrencyGroupTemplate pipeline = "") then
      Err (EMsg "concurrency_mode=group requires concurrency_group_template")
    else
      match template_Parse (Pipeline.ConcurrencyGroupTemplate pipeline) with
      | Err e => Err (EWrap "parse concurrency_group_template" e)
      | Ok tmpl =>
          match template_Execute tmpl (concurrencyTemplateData triggerInput) with
          | Err e => Err (EWrap "execute concurrency_group_template" e)
          | Ok group =>
              if decide (group = "") then
                Err (EMsg "concurrency_group_template rendered to an empty string")
              else Ok group
          end
      end
  else Err (EMsg ("unknown concurrency_mode " ++ q mode)).

Definition resolveConcurrency (pipeline : Pipeline.t)
    (triggerInput : TriggerInput.t) : ST svc concurrencyDecision.t :=
  let mode := Pipeline.ConcurrencyMode pipeline in
  if decide (mode = ConcurrencyModeNone) then
    ret (concurrencyDecision.mk concurrencyProceed "" [] "")
  else
    match resolveConcurrencyGroup pipeline triggerInput with
    | Err e => fail (EWrap "resolve concurrency group" e)
    | Ok group =>
        let! peers :=
          if decide (mode = ConcurrencyModeSerial \/ mode = ConcurrencyModeSkipIfRunning)
          then wrap "lookup active runs"
                 (on_db (GetActiveRunsByPipeline (Pipeline.ID pipeline)))
          else if decide (mode = ConcurrencyModeGroup)
          then wrap "lookup active runs" (on_db (GetActiveRunsByGroup group))
          else fail (EMsg ("unknown concurrency_mode " ++ q mode)) in
        match peers with
        | [] => ret (concurrencyDecision.mk concurrencyProceed group [] "")
        | peer :: _ =>
            if decide (mode = ConcurrencyModeSkipIfRunning) then
              ret (concurrencyDecision.mk concurrencySkip group peers
                ("skipped: pipeline already running (peer run "
                 ++ PipelineRun.ID peer ++ ")"))
            else if decide (mode = ConcurrencyModeSerial) then
              ret (concurrencyDecision.mk concurrencyQueueBehind group peers "")
            else if decide (mode = ConcurrencyModeGroup) then
              if Pipeline.ConcurrencyCancelRunning pipeline
              then ret (concurrencyDecision.mk concurrencyCancelPeers group peers "")
              else ret (concurrencyDecision.mk concurrencyQueueBehind group peers "")
            else ret (concurrencyDecision.mk concurrencyProceed group [] "")
        end
    end.

Definition supersede_reason (supersedingRunID : string) : string :=
  "superseded by run " ++ supersedingRunID.

Definition supersede_peer (supersedingRunID : string) (peer : PipelineRun.t)
    : ST svc unit :=
  let reason := supersede_reason supersedingRunID in
  match PipelineRun.Status peer with
  | RunStatusRunning =>
      ignore (StopRun (PipelineRun.ID peer)) ;;;
      ignore (on_db (UpdateRunStatus (PipelineRun.ID peer) RunStatusFailed reason))
  | RunStatusQueued =>
      ignore (on_db (UpdateRunStatus (PipelineRun.ID peer) RunStatusSkipped reason))
  | _ => ret tt
  end.

Definition supersedePeers (peers : list PipelineRun.t) (supersedingRunID : string)
    : ST svc unit :=
  for_each (supersede_peer supersedingRunID) peers.

Definition admitRun (pipeline : Pipeline.t) (triggerType : TriggerType)
    (triggeredBy : string) (triggerInput : TriggerInput.t)
    : ST svc admissionResult.t :=
  let! decision := attempt (resolveConcurrency pipeline triggerInput) in
  match decision with
  | Err e =>
      let! failed := wrap "save failed run"
        (on_db (SaveRunWithStatus (Pipeline.ID pipeline) triggerType triggeredBy
                  triggerInput "" RunStatusFailed (Error e))) in
      ret (admissionResult.mk failed true false)
  | Ok d =>
      if decide (concurrencyDecision.Action d = concurrencySkip) then
        let! skipped := wrap "save skipped run"
          (on_db (SaveRunWithStatus (Pipeline.ID pipeline) triggerType triggeredBy
                    triggerInput (concurrencyDecision.Group d) RunStatusSkipped
                    (concurrencyDecision.SkipReason d))) in
        ret (admissionResult.mk skipped true false)
      else
        let! run := wrap "save run"
          (on_db (SaveRun (Pipeline.ID pipeline) triggerType triggeredBy
                    triggerInput (concurrencyDecision.Group d))) in
        (if decide (concurrencyDecision.Action d = concurrencyCancelPeers)
         then supersedePeers (concurrencyDecision.Peers d) (PipelineRun.ID run)
         else ret tt) ;;;
        ret (admissionResult.mk run false
               (bool_decide (concurrencyDecision.Action d = concurrencyQueueBehind)))
  end.

(** The set of the groups of the running runs. *)
Definition busyConcurrencyGroups : ST svc (gset string) :=
  let! running := wrap "list running runs"
    (on_db (GetRunsByStatus RunStatusRunning 0)) in
  ret (list_to_set (List.filter (fun g => negb (bool_decide (g = "")))
         (PipelineRun.ConcurrencyGroup <$> running))).

(** ** Steps of the service *)
Lemma resolveConcurrency_steps pipeline ti :
  by_calls (resolveConcurrency pipeline ti).
Proof.
  unfold resolveConcurrency. case_decide; [by apply preserves_ret|].
  case_match; [|by apply preserves_fail].
  apply preserves_bind; [apply _| |].
  - repeat case_decide; try (by apply preserves_fail);
      by apply preserves_wrap, on_db_steps.
  - intros [|peer peers]; repeat case_match; by apply preserves_ret.
Qed.

Lemma supersede_peer_steps id peer :
  by_calls (supersede_peer id peer).
Proof.
  unfold supersede_peer. case_match; try (by apply preserves_ret).
  - by apply preserves_ignore, on_db_steps.
  - apply preserves_bind; [apply _|apply preserves_ignore, StopRun_steps|].
    intros _. by apply preserves_ignore, on_db_steps.
Qed.

Lemma admitRun_steps pipeline trigger by_ ti :
  by_calls (admitRun pipeline trigger by_ ti).
Proof.
  unfold admitRun. apply preserves_bind; [apply _| |].
  { apply preserves_attempt, resolveConcurrency_steps. }
  assert (Hs : forall m A (st : ST db A), by_calls (wrap m (on_db st)))
    by (intros; by apply preserves_wrap, on_db_steps).
  intros [d|e]; [case_decide|];
    (apply preserves_bind; [apply _|by apply Hs|intros run]); try (by apply preserves_ret).
  apply preserves_bind; [apply _| |intros _; by apply preserves_ret].
  case_decide; [|by apply preserves_ret].
  apply preserves_for_each; [apply _|]. intros peer _. apply supersede_peer_steps.
Qed.
End admission.

(** ** Superseding *)
Section supersede.
Context `{!OrderBy, !JsonText}.

(** No statement fails: the oracle is empty and stays so. *)
Definition quiet (s : svc) : Prop := db_faults (sv_db s) = [].

Definition superseded (reason : string) (r : pipelineRunScan.t) : Prop :=
  IsActive (pipelineRunScan.Status r) = false /\
  pipelineRunScan.ErrorMessage r = Some reason.

Lemma UpdateRunStatus_rows runID st msg d :
  db_faults d = [] ->
  let d' := (UpdateRunStatus runID st msg d).2 in
  db_faults d' = [] /\
  forall k, db_runs d' !! k =
    (fun r => if bool_decide (k = runID) && transition_allowed st (pipelineRunScan.Status r)
              then apply_status st (Unix (db_now d)) msg r else r) <$> db_runs d !! k.
Proof.
  intros Hf. cbv zeta. rewrite UpdateRunStatus_exact by done.
  destruct (db_runs d !! runID) as [r0|] eqn:E; cbn [snd].
  - destruct (transition_allowed st (pipelineRunScan.Status r0)) eqn:Ht; (split; [done|]);
      intros k; destruct (decide (k = runID)) as [->|Hne].
    + rewrite E, fmap_Some_2 with (x := r0), bool_decide_true, Ht by done.
      apply lookup_insert_eq.
    + etransitivity; [by apply lookup_insert_ne|].
      destruct (db_runs d !! k); simpl; [|done]. by rewrite bool_decide_false.
    + rewrite E, fmap_Some_2 with (x := r0) by done. by rewrite Ht, andb_false_r.
    + destruct (db_runs d !! k); simpl; [|done]. by rewrite bool_decide_false.
  - split; [done|]. intros k. destruct (decide (k = runID)) as [->|Hne]; [by rewrite E|].
    destruct (db_runs d !! k); simpl; [|done]. by rewrite bool_decide_false.
Qed.

Lemma UpdateStatusForPrefix_runs prefix l st d :
  db_faults d = [] ->
  let d' := (UpdateStatusForPrefix prefix l st d).2 in
  db_faults d' = [] /\ db_runs d' = db_runs d.
Proof.
  intros Hf. cbv zeta. unfold UpdateStatusForPrefix. case_decide; [done|].
  unfold wrap. rewrite update_no_faults by done. done.
Qed.

(** One update of a run through the service. *)
Lemma ignore_update_rows runID st msg s :
  quiet s ->
  let s' := (ignore (on_db (UpdateRunStatus runID st msg)) s).2 in
  (ignore (on_db (UpdateRunStatus runID st msg)) s).1 = Ok tt /\ quiet s' /\
  forall k, db_runs (sv_db s') !! k =
    (fun r => if bool_decide (k = runID) && transition_allowed st (pipelineRunScan.Status r)
              then apply_status st (Unix (db_now (sv_db s))) msg r else r)
      <$> db_runs (sv_db s) !! k.
Proof.
  intros Hq. pose proof (UpdateRunStatus_rows runID st msg (sv_db s) Hq) as [Hf Hr].
  unfold ignore, on_db. simpl get_db. cbv zeta in *.
  destruct (UpdateRunStatus runID st msg (sv_db s)) as [r d]. done.
Qed.

Lemma transition_failed old : transition_allowed RunStatusFailed old = true.
Proof. done. Qed.

(** Stopping a run writes only that run, when anything at all. *)
Lemma StopRun_rows runID s :
  quiet s ->
  let s' := (ignore (StopRun runID) s).2 in
  quiet s' /\
  (forall k, k <> runID -> db_runs (sv_db s') !! k = db_runs (sv_db s) !! k) /\
  (is_Some (db_runs (sv_db s) !! runID) -> is_Some (db_runs (sv_db s') !! runID)).
Proof.
  intros Hq. cbv zeta. unfold ignore. rewrite StopRun_exact.
  destruct (sv_stopRegistry s !! runID) as [g|]; [|split; [done|by split]].
  pose proof (UpdateStatusForPrefix_runs (run_prefix runID) ["pending"; "running"]
    "aborted" (sv_db s) Hq) as [Hf2 Hr2]. cbv zeta in Hf2, Hr2.
  pose proof (UpdateRunStatus_rows runID RunStatusFailed "Run stopped by user" _ Hf2)
    as [Hf3 Hr3].
  split; [exact Hf3|]. cbn [snd sv_db set_db]. split.
  - intros k Hk. rewrite Hr3, Hr2.
    destruct (db_runs (sv_db s) !! k) as [r|]; simpl; [|done]. by rewrite bool_decide_false.
  - intros [r Hr]. rewrite Hr3, Hr2, Hr. by eexists.
Qed.

Lemma supersede_peer_effect new peer s :
  quiet s -> IsActive (PipelineRun.Status peer) = true ->
  is_Some (db_runs (sv_db s) !! PipelineRun.ID peer) ->
  (PipelineRun.Status peer = RunStatusQueued ->
     exists r, db_runs (sv_db s) !! PipelineRun.ID peer = Some r /\
       (IsActive (pipelineRunScan.Status r) = true \/ superseded (supersede_reason new) r)) ->
  let s' := (supersede_peer new peer s).2 in
  (supersede_peer new peer s).1 = Ok tt /\ quiet s' /\
  (forall k, k <> PipelineRun.ID peer -> db_runs (sv_db s') !! k = db_runs (sv_db s) !! k) /\
  exists r, db_runs (sv_db s') !! PipelineRun.ID peer = Some r /\
    superseded (supersede_reason new) r.
Proof.
  intros Hq Ha [r0 Hr0] Hqueued. unfold supersede_peer. cbv zeta.
  destruct (PipelineRun.Status peer) eqn:Es; try done.
  - destruct (Hqueued eq_refl) as (r & Hr & Hact).
    destruct (ignore_update_rows (PipelineRun.ID peer) RunStatusSkipped
      (supersede_reason new) s Hq) as (H1 & H2 & H3).
    split; [done|]. split; [done|]. split.
    + intros k Hk. rewrite H3. destruct (db_runs (sv_db s) !! k); simpl; [|done].
      by rewrite bool_decide_false.
    + rewrite H3, Hr, bool_decide_true by done. simpl. eexists. split; [done|].
      unfold transition_allowed. simpl.
      destruct Hact as [Hact|Hs]; [by rewrite Hact|].
      destruct Hs as [Hi Hm]. rewrite Hi. by split.
  - destruct (StopRun_rows (PipelineRun.ID peer) s Hq) as (Hq1 & Hr1 & Hsome).
    specialize (Hsome (ex_intro _ _ Hr0)).
    destruct (ignore (StopRun (PipelineRun.ID peer)) s) as [r1 s1] eqn:E1. cbn [snd] in *.
    assert (r1 = Ok tt) as -> by
      (revert E1; unfold ignore; destruct (StopRun _ s); by intros [=]).
    rewrite (bind_ok _ _ _ _ _ E1).
    destruct (ignore_update_rows (PipelineRun.ID peer) RunStatusFailed
      (supersede_reason new) s1 Hq1) as (H1 & H2 & H3).
    split; [done|]. split; [done|]. split.
    + intros k Hk. rewrite H3, Hr1 by done. destruct (db_runs (sv_db s) !! k); simpl; [|done].
      by rewrite bool_decide_false.
    + destruct Hsome as [r Hr]. rewrite H3, Hr, bool_decide_true by done. simpl.
      eexists. split; [done|]. by split.
Qed.
End supersede.

Section admission_facts.
Context `{!UniqueIDs, !OrderBy, !JsonText, !TemplateEngine}.

Definition peer_pending (reason : string) (s : svc) (peer : PipelineRun.t) : Prop :=
  IsActive (PipelineRun.Status peer) = true /\
  exists r, db_runs (sv_db s) !! PipelineRun.ID peer = Some r /\
    (IsActive (pipelineRunScan.Status r) = true \/ superseded reason r).

Lemma supersedePeers_effect new peers s :
  quiet s -> Forall (peer_pending (supersede_reason new) s) peers ->
  let s' := (supersedePeers peers new s).2 in
  (supersedePeers peers new s).1 = Ok tt /\ quiet s' /\
  (forall k, k ∉ PipelineRun.ID <$> peers ->
     db_runs (sv_db s') !! k = db_runs (sv_db s) !! k) /\
  (forall k, k ∈ PipelineRun.ID <$> peers ->
     exists r, db_runs (sv_db s') !! k = Some r /\ superseded (supersede_reason new) r).
Proof.
  unfold supersedePeers. revert s. induction peers as [|p peers IH]; intros s Hq Hall; cbv zeta.
  - cbn [for_each]. split_and!; [done|done|done|]. intros k Hk. by apply elem_of_nil in Hk.
  - apply Forall_cons in Hall as [(Hact & r & Hr & Hor) Hall]. cbn [for_each].
    destruct (supersede_peer_effect new p s Hq Hact) as (Hs1 & Hs2 & Hs3 & Hs4); [eauto|eauto|].
    destruct (supersede_peer new p s) as [r1 s1] eqn:E1. cbn [fst snd] in Hs1, Hs2, Hs3, Hs4.
    subst r1. rewrite (bind_ok _ _ _ _ _ E1).
    assert (Hall1 : Forall (peer_pending (supersede_reason new) s1) peers).
    { eapply Forall_impl; [exact Hall|]. intros p' (Ha' & r' & Hr' & Hor').
      split; [done|]. destruct (decide (PipelineRun.ID p' = PipelineRun.ID p)) as [->|Hne].
      - destruct Hs4 as (r4 & ? & ?). eauto.
      - rewrite Hs3 by done. eauto. }
    destruct (IH s1 Hs2 Hall1) as (I1 & I2 & I3 & I4). split; [done|]. split; [done|].
    rewrite fmap_cons. split.
    + intros k [Hk1 Hk2]%not_elem_of_cons. rewrite I3 by done. by apply Hs3.
    + intros k Hk. destruct (decide (k ∈ PipelineRun.ID <$> peers)) as [Hin|Hni]; [by apply I4|].
      rewrite I3 by done. apply elem_of_cons in Hk as [->|?]; [|done]. exact Hs4.
Qed.

Lemma resolveConcurrencyGroup_group pipeline ti group :
  Pipeline.ConcurrencyMode pipeline = ConcurrencyModeGroup ->
  resolveConcurrencyGroup pipeline ti = Ok group -> group <> "".
Proof.
  intros Hm. unfold resolveConcurrencyGroup. rewrite Hm. simpl.
  repeat case_match; try done; intros [= <-]; done.
Qed.

Lemma elem_of_oldest_peers P r d :
  ids_ok d ->
  (exists run, run ∈ pipelineRunScan.toStorage <$> oldest_first (select_runs P d) /\
     PipelineRun.ID run = r) <->
  exists row, db_runs d !! r = Some row /\ P row = true.
Proof.
  intros Hids. unfold oldest_first. split.
  - intros (run & (row & -> & Hrow)%list_elem_of_fmap & <-).
    rewrite elem_of_order_by, elem_of_select_runs in Hrow. destruct Hrow as (HP & id & Hid).
    simpl. pose proof (Hids _ _ Hid) as He. simpl in He. rewrite He. eauto.
  - intros (row & Hrow & HP). exists (pipelineRunScan.toStorage row). split.
    + apply list_elem_of_fmap_2. rewrite elem_of_order_by, elem_of_select_runs. eauto.
    + simpl. by apply (Hids r).
Qed.

Lemma toStorage_peers_active P d :
  (forall r, P r = true -> IsActive (pipelineRunScan.Status r) = true) ->
  forall run, run ∈ pipelineRunScan.toStorage <$> oldest_first (select_runs P d) ->
    IsActive (PipelineRun.Status run) = true.
Proof.
  intros HP run (row & -> & Hrow)%list_elem_of_fmap. unfold oldest_first in Hrow.
  rewrite elem_of_order_by, elem_of_select_runs in Hrow. destruct Hrow as [Hr _]. by apply HP.
Qed.
(** The runs of the pipeline that serial and skip-if-running collide with. *)
Definition pipeline_peers (pid : string) (d : db) : list PipelineRun.t :=
  pipelineRunScan.toStorage <$> oldest_first (select_runs (fun r =>
    bool_decide (pipelineRunScan.PipelineID r = pid)
    && IsActive (pipelineRunScan.Status r)) d).

Definition pipeline_busy (pid : string) (d : db) : Prop :=
  exists id r, db_runs d !! id = Some r /\ pipelineRunScan.PipelineID r = pid /\
    IsActive (pipelineRunScan.Status r) = true.

Lemma pipeline_peers_nil pid d :
  ids_ok d -> pipeline_busy pid d <-> pipeline_peers pid d <> [].
Proof.
  intros Hids. pose proof (fun id => elem_of_oldest_peers (fun r =>
    bool_decide (pipelineRunScan.PipelineID r = pid)
    && IsActive (pipelineRunScan.Status r)) id d Hids) as Hin. split.
  - intros (id & r & Hr & Hpid & Hact). destruct (proj2 (Hin id)) as (run & Hrun & _).
    { exists r. split; [done|]. by rewrite Hact, bool_decide_true by done. }
    intros He. fold (pipeline_peers pid d) in Hrun. rewrite He in Hrun.
    by apply elem_of_nil in Hrun.
  - intros Hne. destruct (pipeline_peers pid d) as [|run l] eqn:E; [done|].
    destruct (proj1 (Hin (PipelineRun.ID run))) as (row & Hrow & HP).
    { exists run. split; [|done]. fold (pipeline_peers pid d). rewrite E. left. }
    apply andb_true_iff in HP as [Hp1%bool_decide_eq_true Hp2]. by exists (PipelineRun.ID run), row.
Qed.

(** A new run is saved through the service. *)
Lemma save_run_on_db pid trigger by_ ti group st msg s :
  quiet s -> is_Some (db_pipelines (sv_db s) !! pid) ->
  db_runs (sv_db s) !! uid (db_uids (sv_db s)) = None ->
  exists run row s',
    on_db (SaveRunWithStatus pid trigger by_ ti group st msg) s = (Ok run, s') /\
    quiet s' /\ PipelineRun.ID run = uid (db_uids (sv_db s)) /\ PipelineRun.Status run = st /\
    db_runs (sv_db s') = <[PipelineRun.ID run := row]> (db_runs (sv_db s)) /\
    pipelineRunScan.Status row = st /\ pipelineRunScan.ConcurrencyGroup row = group /\
    sv_stopRegistry s' = sv_stopRegistry s /\ db_now (sv_db s') = db_now (sv_db s).
Proof.
  intros Hq Hp Hfresh. destruct (SaveRunWithStatus_exact pid trigger by_ ti group st msg
    (sv_db s) Hq Hp Hfresh) as (run & Hrun & Hid & Hst & _).
  exists run. eexists _, _. unfold on_db. simpl get_db. rewrite Hrun, Hid.
  split; [reflexivity|]. by split_and!.
Qed.

Definition exclusive_decision (pipeline : Pipeline.t) (peers : list PipelineRun.t)
    : concurrencyDecision.t :=
  let group := "pipeline:" ++ Pipeline.ID pipeline in
  match peers with
  | [] => concurrencyDecision.mk concurrencyProceed group [] ""
  | peer :: _ =>
      if decide (Pipeline.ConcurrencyMode pipeline = ConcurrencyModeSkipIfRunning) then
        concurrencyDecision.mk concurrencySkip group peers
          ("skipped: pipeline already running (peer run " ++ PipelineRun.ID peer ++ ")")
      else concurrencyDecision.mk concurrencyQueueBehind group peers ""
  end.

Lemma resolveConcurrency_exclusive pipeline ti s :
  quiet s ->
  Pipeline.ConcurrencyMode pipeline = ConcurrencyModeSerial \/
  Pipeline.ConcurrencyMode pipeline = ConcurrencyModeSkipIfRunning ->
  resolveConcurrency pipeline ti s =
    (Ok (exclusive_decision pipeline (pipeline_peers (Pipeline.ID pipeline) (sv_db s))), s).
Proof.
  intros Hq Hmode. unfold resolveConcurrency, resolveConcurrencyGroup, exclusive_decision.
  set (mode := Pipeline.ConcurrencyMode pipeline) in *.
  assert (Hne : mode <> ConcurrencyModeNone) by (destruct Hmode as [->| ->]; discriminate).
  rewrite !(decide_False (P := mode = ConcurrencyModeNone)) by done.
  rewrite !(decide_True (P := mode = _ \/ _)) by done.
  unfold bind, wrap, on_db. simpl get_db.
  rewrite GetActiveRunsByPipeline_exact by done. fold (pipeline_peers (Pipeline.ID pipeline) (sv_db s)).
  cbv iota beta. replace (put_db (sv_db s) s) with s by (by destruct s).
  destruct (pipeline_peers _ _) as [|peer l]; [done|].
  destruct (decide (mode = ConcurrencyModeSkipIfRunning)) as [Hm|Hm]; [done|].
  rewrite decide_True by (by destruct Hmode). done.
Qed.

(** The other runs of a concurrency group. *)
Definition in_group (group : string) (r : pipelineRunScan.t) : bool :=
  bool_decide (pipelineRunScan.ConcurrencyGroup r = group) && IsActive (pipelineRunScan.Status r).
Definition group_peers (group : string) (d : db) : list PipelineRun.t :=
  pipelineRunScan.toStorage <$> oldest_first (select_runs (in_group group) d).

Lemma group_peers_spec group d id :
  ids_ok d ->
  id ∈ PipelineRun.ID <$> group_peers group d <->
    exists r, db_runs d !! id = Some r /\ in_group group r = true.
Proof.
  intros Hids. rewrite <- (elem_of_oldest_peers (in_group group) id d Hids), list_elem_of_fmap.
  apply exist_proper. intros run. unfold group_peers. split; intros [? ?]; split; auto.
Qed.

Definition cancel_action (peers : list PipelineRun.t) : concurrencyAction :=
  match peers with [] => concurrencyProceed | _ => concurrencyCancelPeers end.

Lemma resolveConcurrency_group pipeline ti group s :
  quiet s -> Pipeline.ConcurrencyMode pipeline = ConcurrencyModeGroup ->
  Pipeline.ConcurrencyCancelRunning pipeline = true ->
  resolveConcurrencyGroup pipeline ti = Ok group ->
  resolveConcurrency pipeline ti s =
    (Ok (concurrencyDecision.mk (cancel_action (group_peers group (sv_db s))) group
           (group_peers group (sv_db s)) ""), s).
Proof.
  intros Hq Hmode Hcancel Hgroup. pose proof (resolveConcurrencyGroup_group _ _ _ Hmode Hgroup) as Hg.
  unfold resolveConcurrency. rewrite Hgroup, Hcancel.
  rewrite (decide_False (P := _ = ConcurrencyModeNone)) by (rewrite Hmode; discriminate).
  rewrite (decide_False (P := _ \/ _)) by (rewrite Hmode; by intros [?|?]).
  rewrite (decide_True (P := _ = ConcurrencyModeGroup)) by exact Hmode.
  unfold bind, wrap, on_db. simpl get_db. rewrite GetActiveRunsByGroup_exact by done.
  cbv iota beta. fold (in_group group). fold (group_peers group (sv_db s)).
  replace (put_db (sv_db s) s) with s by (by destruct s).
  destruct (group_peers group (sv_db s)); [done|].
  rewrite (decide_False (P := _ = ConcurrencyModeSkipIfRunning)) by (rewrite Hmode; discriminate).
  rewrite (decide_False (P := _ = ConcurrencyModeSerial)) by (rewrite Hmode; discriminate).
  by rewrite (decide_True (P := _ = ConcurrencyModeGroup)) by exact Hmode.
Qed.

(** Once the run is saved its peers are still active and may be superseded. *)
Lemma group_peers_pending group reason run row s s1 :
  ids_ok (sv_db s) -> db_runs (sv_db s) !! run = None ->
  db_runs (sv_db s1) = <[run := row]> (db_runs (sv_db s)) ->
  Forall (peer_pending reason s1) (group_peers group (sv_db s)).
Proof.
  intros Hids Hnone Hrows. apply Forall_forall. intros p Hpin. split.
  - eapply (toStorage_peers_active (in_group group)); [|exact Hpin].
    by intros r [_ ?]%andb_true_iff.
  - destruct (proj1 (group_peers_spec group (sv_db s) (PipelineRun.ID p) Hids)) as (r & Hr & HP);
      [by apply list_elem_of_fmap_2|].
    apply andb_true_iff in HP as [_ HP]. exists r. split; [|by left]. rewrite Hrows.
    rewrite lookup_insert_ne; [done|]. congruence.
Qed.

Lemma supersede_if peers run s :
  (supersedePeers peers run s).1 = Ok tt ->
  (if decide (cancel_action peers = concurrencyCancelPeers) then supersedePeers peers run
   else ret tt) s = (Ok tt, (supersedePeers peers run s).2).
Proof.
  intros Hok. destruct peers as [|p l]; [done|]. rewrite decide_True by done.
  destruct (supersedePeers (p :: l) run s). cbn [fst] in Hok. by subst.
Qed.
End admission_facts.

(** ** Properties *)

(** C14: mutual exclusion at admission. For a pipeline in serial or
    skip-if-running mode, admitted while no statement fails: with an active
    run of the pipeline the new run never gets the fast path (it is recorded
    as skipped, or must wait in the queue); without one it may start at once.
    Exactly one row is added and every other row stays. *)
Theorem admitRun_exclusive `{!UniqueIDs, !OrderBy, !JsonText, !TemplateEngine}
    (s : svc) pipeline trigger by_ ti :
  quiet s -> ids_ok (sv_db s) ->
  is_Some (db_pipelines (sv_db s) !! Pipeline.ID pipeline) ->
  db_runs (sv_db s) !! uid (db_uids (sv_db s)) = None ->
  let mode := Pipeline.ConcurrencyMode pipeline in
  mode = ConcurrencyModeSerial \/ mode = ConcurrencyModeSkipIfRunning ->
  let busy := pipeline_busy (Pipeline.ID pipeline) (sv_db s) in
  exists run terminal queueOnly s',
    admitRun pipeline trigger by_ ti s =
      (Ok (admissionResult.mk run terminal queueOnly), s') /\
    (busy -> if decide (mode = ConcurrencyModeSerial)
             then terminal = false /\ queueOnly = true /\
                  PipelineRun.Status run = RunStatusQueued
             else terminal = true /\ PipelineRun.Status run = RunStatusSkipped) /\
    (~ busy -> terminal = false /\ queueOnly = false /\
       PipelineRun.Status run = RunStatusQueued) /\
    exists row, db_runs (sv_db s') = <[PipelineRun.ID run := row]> (db_runs (sv_db s)) /\
      pipelineRunScan.Status row = PipelineRun.Status run /\
      db_runs (sv_db s) !! PipelineRun.ID run = None.
Proof.
  intros Hq Hids Hp Hfresh mode Hmode busy. unfold admitRun, attempt at 1.
  pose proof (pipeline_peers_nil (Pipeline.ID pipeline) (sv_db s) Hids) as Hbusy.
  unfold bind at 1. rewrite resolveConcurrency_exclusive by done. fold mode.
  unfold exclusive_decision. fold mode. fold busy in Hbusy.
  destruct (pipeline_peers _ _) as [|peer l].
  - rewrite decide_False by (simpl; discriminate). unfold wrap, SaveRun, bind.
    edestruct (save_run_on_db (Pipeline.ID pipeline) trigger by_ ti) as
      (run & row & s' & -> & _ & Hid & Hst & Hrows & Hrow & _); [done..|].
    rewrite decide_False by (simpl; discriminate). exists run, false, false, s'.
    split; [done|]. split; [by intros ?%Hbusy|]. split; [done|]. exists row.
    rewrite Hst. split; [done|]. split; [done|]. by rewrite Hid.
  - assert (Hyes : busy) by (by apply Hbusy).
    destruct (decide (mode = ConcurrencyModeSkipIfRunning)) as [Hm|Hm];
      [rewrite decide_True by done|rewrite decide_False by (simpl; discriminate)];
      unfold wrap, SaveRun, bind;
      edestruct (save_run_on_db (Pipeline.ID pipeline) trigger by_ ti) as
        (run & row & s' & -> & _ & Hid & Hst & Hrows & Hrow & _); try done.
    + exists run, true, false, s'. split; [done|]. split; [by rewrite Hm|]. split; [done|].
      exists row. rewrite Hst. split; [done|]. split; [done|]. by rewrite Hid.
    + rewrite decide_False by (simpl; discriminate). exists run, false, true, s'.
      split; [done|]. split; [|split; [done|]].
      * intros _. rewrite decide_True by (by destruct Hmode). done.
      * exists row. rewrite Hst. split; [done|]. split; [done|]. by rewrite Hid.
Qed.

(** C15: cancel-in-progress. In group mode with cancel_running, while no
    statement fails, admission records the new run as queued and leaves no
    other run of its group active: each run of the group that was active is
    now finished with the message naming the new run, and every other row is
    unchanged. *)
Theorem admitRun_supersedes `{!UniqueIDs, !OrderBy, !JsonText, !TemplateEngine}
    (s : svc) pipeline trigger by_ ti group :
  quiet s -> ids_ok (sv_db s) ->
  is_Some (db_pipelines (sv_db s) !! Pipeline.ID pipeline) ->
  db_runs (sv_db s) !! uid (db_uids (sv_db s)) = None ->
  Pipeline.ConcurrencyMode pipeline = ConcurrencyModeGroup ->
  Pipeline.ConcurrencyCancelRunning pipeline = true ->
  resolveConcurrencyGroup pipeline ti = Ok group ->
  exists run s', admitRun pipeline trigger by_ ti s =
      (Ok (admissionResult.mk run false false), s') /\
    (exists row, db_runs (sv_db s') !! PipelineRun.ID run = Some row /\
       pipelineRunScan.Status row = RunStatusQueued /\
       pipelineRunScan.ConcurrencyGroup row = group) /\
    forall id r, db_runs (sv_db s) !! id = Some r ->
      exists r', db_runs (sv_db s') !! id = Some r' /\
        if bool_decide (pipelineRunScan.ConcurrencyGroup r = group)
           && IsActive (pipelineRunScan.Status r)
        then superseded (supersede_reason (PipelineRun.ID run)) r' else r' = r.
Proof.
  intros Hq Hids Hp Hfresh Hmode Hcancel Hgroup.
  set (peers := group_peers group (sv_db s)).
  pose proof (fun id => group_peers_spec group (sv_db s) id Hids) as Hpeers. fold peers in Hpeers.
  unfold admitRun, attempt at 1. unfold bind at 1.
  rewrite (resolveConcurrency_group pipeline ti group s) by done. fold peers.
  cbn [concurrencyDecision.Action concurrencyDecision.Group concurrencyDecision.Peers].
  rewrite decide_False by (by destruct peers).
  unfold wrap, SaveRun, bind.
  destruct (save_run_on_db (Pipeline.ID pipeline) trigger by_ ti group RunStatusQueued ""
    s Hq Hp Hfresh) as (run & row & s1 & -> & Hq1 & Hid & Hst & Hrows & Hrow & Hgr & _).
  rewrite <- Hid in Hfresh.
  assert (Hnew : PipelineRun.ID run ∉ PipelineRun.ID <$> peers)
    by (rewrite Hpeers; intros (r & Hr & _); congruence).
  destruct (supersedePeers_effect (PipelineRun.ID run) peers s1 Hq1
    (group_peers_pending _ _ _ _ _ _ Hids Hfresh Hrows)) as (Hr2 & Hq2 & Hout & Hin).
  exists run, (supersedePeers peers (PipelineRun.ID run) s1).2.
  rewrite (supersede_if _ _ _ Hr2). split; [by destruct peers|]. split.
  - exists row. rewrite Hout by done. rewrite Hrows. by rewrite lookup_insert_eq.
  - intros id r Hr. fold (in_group group r). destruct (in_group group r) eqn:EP.
    + apply Hin, Hpeers. eauto.
    + exists r. split; [|done]. rewrite Hout, Hrows.
      * rewrite lookup_insert_ne; [done|]. congruence.
      * rewrite Hpeers. intros (r' & Hr' & HP). congruence.
Qed.

(** ** Witnesses *)
#[local] Existing Instances counter_ids stable_order.
Definition ex_json_text : JsonText := fun _ => "".
Definition ex_engine : TemplateEngine := {|
  template := string; template_Parse := @Ok string;
  template_Execute := fun t _ => Ok t |}.
#[local] Existing Instances ex_json_text ex_engine.

Definition ex_mode_pipeline (mode : string) : Pipeline.t :=
  Pipeline.mk "p1" "demo" "" ContentTypeYAML "" false false "" mode "main" true 0%Z 0%Z.
Definition ex_active (id : string) (st : RunStatus) : pipelineRunScan.t :=
  pipelineRunScan.mk id "p1" st (Some 1%Z) None None TriggerTypeManual "" TriggerInput.empty
    "main" 1%Z.
Definition ex_svc : svc :=
  set_stopRegistry {["a" := 0]}
    (NewExecutionService
      (set_pipelines (fun _ => {["p1" := pipelineScan.mk "p1" "demo" "" "" "" 0 0 "" "" "" 0 0 0]})
        (set_runs (fun _ => <["a" := ex_active "a" RunStatusRunning]>
            {["b" := ex_active "b" RunStatusQueued]}) empty_db)) 2 5 AllFeatures).

Lemma ex_svc_ids : ids_ok (sv_db ex_svc).
Proof. apply map_Forall_insert_2; [done|]. by apply map_Forall_singleton. Qed.

Lemma admitRun_exclusive_witness :
  exists run s', admitRun (ex_mode_pipeline "serial") TriggerTypeManual "" TriggerInput.empty
      ex_svc = (Ok (admissionResult.mk run false true), s') /\
    PipelineRun.Status run = RunStatusQueued.
Proof.
  destruct (admitRun_exclusive ex_svc (ex_mode_pipeline "serial") TriggerTypeManual ""
    TriggerInput.empty) as (run & terminal & queueOnly & s' & He & Hb & _ & _);
    [reflexivity|exact ex_svc_ids|by eexists|reflexivity|by left|].
  destruct Hb as (-> & -> & Hst).
  { exists "a", (ex_active "a" RunStatusRunning). split; [reflexivity|]. split; reflexivity. }
  exists run, s'. split; [exact He|exact Hst].
Defined.

Lemma admitRun_supersedes_witness :
  exists run s', admitRun (ex_mode_pipeline "group") TriggerTypeManual "" TriggerInput.empty
      ex_svc = (Ok (admissionResult.mk run false false), s') /\
    exists r, db_runs (sv_db s') !! "b" = Some r /\
      superseded (supersede_reason (PipelineRun.ID run)) r.
Proof.
  destruct (admitRun_supersedes ex_svc (ex_mode_pipeline "group") TriggerTypeManual ""
    TriggerInput.empty "main") as (run & s' & He & _ & Hall);
    [reflexivity|exact ex_svc_ids|by eexists|reflexivity..|].
  exists run, s'. split; [exact He|].
  exact (Hall "b" (ex_active "b" RunStatusQueued) (eq_refl _)).
Defined.
