(* ===== verification/Passed.v ===== *)
(** * Completion triggers: [triggers.passed] (server/execution_passed.go)

    After a run succeeds, every job that waits for one of its jobs is
    evaluated: it fires when each of its upstream jobs has a successful run
    newer than the job's own last run and no run of it is active. *)
From S2P Require Import Prelude Storage Json Db GoStrings Paging Runs Tasks Pipelines.
From S2P Require Import Config Server Admission.
Open Scope string_scope.

Section passed.
Context `{!UniqueIDs, !OrderBy, !JsonText, !TemplateEngine, !MapOrder}.
(** [backwards.ParseConfig] *)
Context (ParseConfig : string -> result Config.t).

Definition completedJobNames (run : PipelineRun.t) (cfg : Config.t) : list string :=
  if (0 <? length (TriggerInput.Jobs (PipelineRun.Input run)))%nat
  then TriggerInput.Jobs (PipelineRun.Input run)
  else Job.Name <$> Config.Jobs cfg.

Definition passed_of (job : Job.t) : list string :=
  match Job.Triggers job with Some t => Triggers.Passed t | None => [] end.

Definition add_dependent (job : Job.t) (m : gmap string (list Job.t)) (upstream : string)
    : gmap string (list Job.t) :=
  <[upstream := (default [] (m !! upstream) ++ [job])%list]> m.

Definition buildPassedDependents (cfg : Config.t) : gmap string (list Job.t) :=
  foldl (fun m job => foldl (add_dependent job) m (passed_of job)) ∅ (Config.Jobs cfg).

(** [completedRun.ID] of a nil pointer panics. *)
Definition firePassedDownstream (pipeline : Pipeline.t) (downstream : Job.t)
    (completedRun : option PipelineRun.t) (upstreamRunIDs : list string) : ST svc unit :=
  let! ok := CanAccept in
  if negb ok then ret tt
  else
    let triggerInput := TriggerInput.mk [] None [Job.Name downstream] upstreamRunIDs in
    match completedRun with
    | None => fail (ESentinel SPanic)
    | Some completedRun =>
        let triggeredBy := "passed:" ++ PipelineRun.ID completedRun in
        let! admission :=
          attempt (admitRun pipeline TriggerTypePassed triggeredBy triggerInput) in
        match admission with
        | Err _ => ret tt
        | Ok a =>
            if admissionResult.Terminal a then ret tt
            else
              let opts := execOptions.mk None [] [Job.Name downstream] false "" "" "" in
              dispatchOrQueue pipeline (admissionResult.Run a) opts
                (admissionResult.QueueOnly a) ;;;
              ret tt
        end
    end.

(** The loop over the upstreams: [None] when one is not fresh (or the store
    fails), else the ids of the fresh runs. *)
Fixpoint fresh_upstreams (pipelineID : string) (sinceTime : time)
    (upstreams : list string) : ST svc (option (list string)) :=
  match upstreams with
  | [] => ret (Some [])
  | upstream :: rest =>
      let! fresh := attempt (on_db (GetSuccessfulJobRunSince pipelineID upstream sinceTime)) in
      match fresh with
      | Err _ | Ok None => ret None
      | Ok (Some run) =>
          let! ids := fresh_upstreams pipelineID sinceTime rest in
          ret (cons (PipelineRun.ID run) <$> ids)
      end
  end.

Definition targets (job : string) (r : PipelineRun.t) : bool :=
  existsb (fun j => bool_decide (j = job)) (TriggerInput.Jobs (PipelineRun.Input r)).

Definition evaluatePassedDownstream (pipeline : Pipeline.t) (downstream : Job.t)
    (completedRun : option PipelineRun.t) : ST svc unit :=
  let! active := attempt (on_db (GetActiveRunsByPipeline (Pipeline.ID pipeline))) in
  match active with
  | Err _ => ret tt
  | Ok active =>
      if existsb (targets (Job.Name downstream)) active then ret tt
      else
        let! lastRun := attempt (on_db
          (GetMostRecentJobRun (Pipeline.ID pipeline) (Job.Name downstream))) in
        match lastRun with
        | Err _ => ret tt
        | Ok lastRun =>
            let sinceTime := match lastRun with
                             | Some r => PipelineRun.CreatedAt r | None => time_Zero end in
            let! ids := fresh_upstreams (Pipeline.ID pipeline) sinceTime (passed_of downstream) in
            match ids with
            | None => ret tt
            | Some ids => firePassedDownstream pipeline downstream completedRun ids
            end
        end
  end.

(** The candidate set: keyed by job name, the last job of a name wins. *)
Definition passed_candidates (completedJobs : list string)
    (downstreams : gmap string (list Job.t)) : gmap string Job.t :=
  foldl (fun c jobName =>
    foldl (fun c downstream => <[Job.Name downstream := downstream]> c) c
      (default [] (downstreams !! jobName))) ∅ completedJobs.

Definition scanPassedDownstreams (pipeline : Pipeline.t) (completedRun : PipelineRun.t)
    : ST svc unit :=
  if Pipeline.Paused pipeline then ret tt
  else
    match ParseConfig (Pipeline.Content pipeline) with
    | Err _ => ret tt
    | Ok cfg =>
        let completedJobs := completedJobNames completedRun cfg in
        if decide (completedJobs = []) then ret tt
        else
          let downstreams := buildPassedDependents cfg in
          if decide (downstreams = ∅) then ret tt
          else
            for_each (fun kv => evaluatePassedDownstream pipeline kv.2 (Some completedRun))
              (map_range (passed_candidates completedJobs downstreams))
    end.

Definition has_passed (job : Job.t) : bool := (0 <? length (passed_of job))%nat.

Definition recover_pipeline (pipeline : Pipeline.t) : ST svc unit :=
  if Pipeline.Paused pipeline then ret tt
  else
    match ParseConfig (Pipeline.Content pipeline) with
    | Err _ => ret tt
    | Ok cfg =>
        if negb (existsb has_passed (Config.Jobs cfg)) then ret tt
        else for_each (fun job => evaluatePassedDownstream pipeline job None)
               (List.filter has_passed (Config.Jobs cfg))
    end.

Definition recoverPassedTriggers (fts : string -> pipelineScan.t -> bool) : ST svc unit :=
  let! page := attempt (on_db (SearchPipelines fts "" 1 1000)) in
  match page with
  | Err _ => ret tt
  | Ok page => for_each recover_pipeline (PaginationResult.Items page)
  end.

(** ** Steps of the service *)
Lemma firePassedDownstream_steps pipeline job run ids :
  by_calls (firePassedDownstream pipeline job run ids).
Proof.
  unfold firePassedDownstream.
  apply preserves_bind; [apply _|apply CanAccept_steps|intros ok].
  case_match; [by apply preserves_ret|]. destruct run as [run|]; [|by apply preserves_fail].
  apply preserves_bind; [apply _|apply preserves_attempt, admitRun_steps|].
  intros [a|e]; [|by apply preserves_ret]. case_match; [by apply preserves_ret|].
  apply preserves_bind; [apply _|apply dispatchOrQueue_steps|].
  intros _. by apply preserves_ret.
Qed.

Lemma fresh_upstreams_steps pid since l :
  by_calls (fresh_upstreams pid since l).
Proof.
  induction l as [|u l IH]; simpl; [by apply preserves_ret|].
  apply preserves_bind; [apply _|by apply preserves_attempt, on_db_steps|].
  intros [[run|]|e]; try (by apply preserves_ret).
  apply preserves_bind; [apply _|exact IH|intros; by apply preserves_ret].
Qed.

Lemma evaluatePassedDownstream_steps pipeline job run :
  by_calls (evaluatePassedDownstream pipeline job run).
Proof.
  unfold evaluatePassedDownstream.
  apply preserves_bind; [apply _|by apply preserves_attempt, on_db_steps|].
  intros [active|e]; [|by apply preserves_ret]. case_match; [by apply preserves_ret|].
  apply preserves_bind; [apply _|by apply preserves_attempt, on_db_steps|].
  intros [last|e]; [|by apply preserves_ret].
  apply preserves_bind; [apply _|apply fresh_upstreams_steps|].
  intros [ids|]; [apply firePassedDownstream_steps|by apply preserves_ret].
Qed.

Lemma scanPassedDownstreams_steps pipeline run :
  by_calls (scanPassedDownstreams pipeline run).
Proof.
  unfold scanPassedDownstreams. repeat case_match; try (by apply preserves_ret).
  apply preserves_for_each; [apply _|]. intros kv _. apply evaluatePassedDownstream_steps.
Qed.
End passed.

(** ** When a downstream job is ready *)
Section ready.
Context `{!OrderBy}.

(** A run of the pipeline that targets the job. *)
Definition job_run (pid job : string) (d : db) (r : pipelineRunScan.t) : Prop :=
  (exists id, db_runs d !! id = Some r) /\ pipelineRunScan.PipelineID r = pid /\
  targets_job job r = true.

(** A success of the upstream that is newer than every run of the job. *)
Definition fresh_success (pid job upstream : string) (d : db) (r : pipelineRunScan.t) : Prop :=
  job_run pid upstream d r /\ pipelineRunScan.Status r = RunStatusSuccess /\
  forall r0, job_run pid job d r0 ->
    (pipelineRunScan.CreatedAt r0 < pipelineRunScan.CreatedAt r)%Z.

Definition passed_ready (pid : string) (job : Job.t) (d : db) : Prop :=
  (forall r, job_run pid (Job.Name job) d r -> IsActive (pipelineRunScan.Status r) = false) /\
  forall u, u ∈ passed_of job -> exists r, fresh_success pid (Job.Name job) u d r.

Lemma elem_of_job_runs pid job d r :
  r ∈ select_runs (fun r => bool_decide (pipelineRunScan.PipelineID r = pid)
                            && targets_job job r) d <-> job_run pid job d r.
Proof.
  rewrite elem_of_select_runs, andb_true_iff, bool_decide_eq_true. unfold job_run. naive_solver.
Qed.

Lemma GetMostRecentJobRun_exact pid job d :
  db_faults d = [] -> job <> "" ->
  GetMostRecentJobRun pid job d =
    (Ok (pipelineRunScan.toStorage <$> head (newest_first (select_runs (fun r =>
       bool_decide (pipelineRunScan.PipelineID r = pid) && targets_job job r) d))), d).
Proof.
  intros Hf Hj. unfold GetMostRecentJobRun, wrap. rewrite decide_False by done.
  by rewrite query_no_faults.
Qed.

(** The freshness reference: the creation second of the last run of the job. *)
Definition since_of (last : option pipelineRunScan.t) : time :=
  match last with
  | Some r => time_Unix (pipelineRunScan.CreatedAt r)
  | None => time_Zero
  end.

Definition created_ok (d : db) : Prop :=
  map_Forall (fun _ r => 0 <= pipelineRunScan.CreatedAt r)%Z (db_runs d).

Lemma since_iff pid job d r :
  created_ok d -> (exists id, db_runs d !! id = Some r) ->
  (Unix (since_of (head (newest_first (select_runs (fun r =>
     bool_decide (pipelineRunScan.PipelineID r = pid) && targets_job job r) d)))) <?
   pipelineRunScan.CreatedAt r)%Z = true <->
  forall r0, job_run pid job d r0 ->
    (pipelineRunScan.CreatedAt r0 < pipelineRunScan.CreatedAt r)%Z.
Proof.
  intros Hc [id Hid]. rewrite Z.ltb_lt. unfold newest_first.
  set (rows := select_runs _ d). destruct (head _) as [last|] eqn:Hh; unfold since_of.
  - rewrite Unix_time_Unix. apply head_order_by_min in Hh as [Hin Hmin]. split.
    + intros Hlt r0 Hr0%elem_of_job_runs. specialize (Hmin r0 Hr0). lia.
    + intros Hall. by apply Hall, elem_of_job_runs.
  - unfold time_Zero. rewrite Unix_time_Unix. apply head_order_by_None in Hh. split.
    + intros _ r0 Hr0%elem_of_job_runs. fold rows in Hr0. rewrite Hh in Hr0.
      by apply elem_of_nil in Hr0.
    + intros _. specialize (Hc _ _ Hid). simpl in Hc. lia.
Qed.

Lemma GetSuccessfulJobRunSince_exact pid u since d :
  db_faults d = [] -> u <> "" ->
  GetSuccessfulJobRunSince pid u since d =
    (Ok (pipelineRunScan.toStorage <$> head (newest_first (select_runs (fun r =>
        bool_decide (pipelineRunScan.PipelineID r = pid)
        && bool_decide (pipelineRunScan.Status r = RunStatusSuccess)
        && (Unix since <? pipelineRunScan.CreatedAt r)%Z && targets_job u r) d))), d).
Proof.
  intros Hf Hu. unfold GetSuccessfulJobRunSince, wrap. rewrite decide_False by done.
  by rewrite query_no_faults.
Qed.

Lemma set_db_same s : put_db (sv_db s) s = s.
Proof. by destruct s. Qed.

(** The row the query answers with, for a run created after [since]. *)
Definition successes_since (pid u : string) (since : time) (d : db) : list pipelineRunScan.t :=
  newest_first (select_runs (fun r =>
    bool_decide (pipelineRunScan.PipelineID r = pid)
    && bool_decide (pipelineRunScan.Status r = RunStatusSuccess)
    && (Unix since <? pipelineRunScan.CreatedAt r)%Z && targets_job u r) d).

Lemma elem_of_successes_since pid job u since d r :
  (forall r, (exists id, db_runs d !! id = Some r) ->
    (Unix since <? pipelineRunScan.CreatedAt r)%Z = true <->
    forall r0, job_run pid job d r0 ->
      (pipelineRunScan.CreatedAt r0 < pipelineRunScan.CreatedAt r)%Z) ->
  r ∈ successes_since pid u since d <-> fresh_success pid job u d r.
Proof.
  intros Hsi. unfold successes_since, newest_first.
  rewrite elem_of_order_by, elem_of_select_runs, !andb_true_iff, !bool_decide_eq_true.
  unfold fresh_success, job_run. split.
  - intros [(((Hpid & Hst) & Hlt) & Htg) Hid]. by repeat split; try apply Hsi.
  - intros ((Hid & Hpid & Htg) & Hst & Hall). by repeat split; try apply Hsi.
Qed.

Lemma fresh_upstreams_cons pid since u l s :
  quiet s -> u <> "" ->
  fresh_upstreams pid since (u :: l) s =
    match head (successes_since pid u since (sv_db s)) with
    | Some r => bind (fresh_upstreams pid since l) (fun ids =>
        ret (cons (pipelineRunScan.ID r) <$> ids)) s
    | None => (Ok None, s)
    end.
Proof.
  intros Hq Hu. cbn [fresh_upstreams]. unfold bind at 1, attempt, on_db. cbn [get_db svc_has_db].
  rewrite GetSuccessfulJobRunSince_exact by done. rewrite set_db_same.
  fold (successes_since pid u since (sv_db s)). by destruct (head _).
Qed.

(** The loop finds a fresh run for each upstream, or there is none. *)
Lemma fresh_upstreams_spec pid job l s :
  quiet s -> ids_ok (sv_db s) -> created_ok (sv_db s) -> Forall (fun u => u <> "") l ->
  let since := since_of (head (newest_first (select_runs (fun r =>
     bool_decide (pipelineRunScan.PipelineID r = pid) && targets_job job r) (sv_db s)))) in
  ((exists u, u ∈ l /\ forall r, ~ fresh_success pid job u (sv_db s) r) /\
     fresh_upstreams pid since l s = (Ok None, s)) \/
  exists ids, fresh_upstreams pid since l s = (Ok (Some ids), s) /\
    Forall2 (fun u id => exists r, db_runs (sv_db s) !! id = Some r /\
       fresh_success pid job u (sv_db s) r) l ids.
Proof.
  intros Hq Hids Hc Hne since.
  assert (Hsi : forall r, (exists id, db_runs (sv_db s) !! id = Some r) ->
    (Unix since <? pipelineRunScan.CreatedAt r)%Z = true <->
    forall r0, job_run pid job (sv_db s) r0 ->
      (pipelineRunScan.CreatedAt r0 < pipelineRunScan.CreatedAt r)%Z)
    by (intros r Hr; by apply since_iff).
  clearbody since. induction Hne as [|u l Hu Hne IH].
  { right. by exists []. }
  pose proof (fun r => elem_of_successes_since pid job u since (sv_db s) r Hsi) as Hin.
  rewrite !fresh_upstreams_cons by done.
  destruct (successes_since pid u since (sv_db s)) as [|r rows]; cbn [head].
  - left. split; [|done]. exists u. split; [left|]. intros r Hr%Hin. by apply elem_of_nil in Hr.
  - assert (Hfresh : fresh_success pid job u (sv_db s) r) by (apply Hin, elem_of_cons; by left).
    destruct (proj1 Hfresh) as [[id Hid] _]. pose proof (Hids _ _ Hid) as He. simpl in He.
    destruct IH as [[(u' & Hu' & Hno) Hf]|(ids & Hf & Hall)].
    + left. split; [exists u'; split; [by right|done]|]. exact (bind_ok _ _ _ _ _ Hf).
    + right. exists (id :: ids). split; [|].
      { etransitivity; [exact (bind_ok _ _ _ _ _ Hf)|]. by rewrite He. }
      constructor; [eauto|done].
Qed.

(** The coalescing test. *)
Definition active_runs (pid : string) (d : db) : list PipelineRun.t :=
  pipelineRunScan.toStorage <$> oldest_first (select_runs (fun r =>
    bool_decide (pipelineRunScan.PipelineID r = pid)
    && IsActive (pipelineRunScan.Status r)) d).

Lemma targets_toStorage job r : targets job (pipelineRunScan.toStorage r) = targets_job job r.
Proof.
  unfold targets, targets_job. simpl. apply eq_true_iff_eq.
  rewrite existsb_exists, bool_decide_eq_true. split.
  - intros (j & Hj & <-%bool_decide_eq_true). by apply list_elem_of_In.
  - intros Hj. exists job. rewrite bool_decide_eq_true. split; [by apply list_elem_of_In|done].
Qed.

Lemma active_target pid job d :
  existsb (targets job) (active_runs pid d) = true <->
  exists r, job_run pid job d r /\ IsActive (pipelineRunScan.Status r) = true.
Proof.
  unfold active_runs, oldest_first. rewrite existsb_exists. split.
  - intros (x & Hx & Ht). apply list_elem_of_In, list_elem_of_fmap in Hx as (r & -> & Hr).
    rewrite targets_toStorage in Ht.
    rewrite elem_of_order_by, elem_of_select_runs, andb_true_iff, bool_decide_eq_true in Hr.
    exists r. unfold job_run. naive_solver.
  - intros (r & (Hid & Hp & Ht) & Ha). exists (pipelineRunScan.toStorage r).
    rewrite targets_toStorage. split; [|done]. apply list_elem_of_In, list_elem_of_fmap_2.
    rewrite elem_of_order_by, elem_of_select_runs, Ha, bool_decide_true by done. by split.
Qed.
End ready.

(** ** Properties *)

(** fan-in. While no statement fails, evaluating a job with
    [triggers.passed] does nothing at all unless the job is ready: no run that
    targets it is active and each upstream has a successful run created in a
    later second than every run of the job. When it is ready the evaluation is
    exactly the firing of the job with one fresh run per upstream, in order. *)
Theorem evaluatePassedDownstream_ready
    `{!UniqueIDs, !OrderBy, !JsonText, !TemplateEngine}
    (s : svc) pipeline job completedRun :
  quiet s -> ids_ok (sv_db s) -> created_ok (sv_db s) ->
  Job.Name job <> "" -> Forall (fun u => u <> "") (passed_of job) ->
  let pid := Pipeline.ID pipeline in
  (~ passed_ready pid job (sv_db s) ->
     evaluatePassedDownstream pipeline job completedRun s = (Ok tt, s)) /\
  (passed_ready pid job (sv_db s) ->
     exists ids,
       evaluatePassedDownstream pipeline job completedRun s =
         firePassedDownstream pipeline job completedRun ids s /\
       Forall2 (fun u id => exists r, db_runs (sv_db s) !! id = Some r /\
         fresh_success pid (Job.Name job) u (sv_db s) r) (passed_of job) ids).
Proof.
  intros Hq Hids Hc Hname Hups pid.
  set (act := active_runs pid (sv_db s)).
  pose proof (active_target pid (Job.Name job) (sv_db s)) as Hact. fold act in Hact.
  pose proof (fresh_upstreams_spec pid (Job.Name job) (passed_of job) s Hq Hids Hc Hups) as Hfr.
  cbv zeta in Hfr. set (rest := fun since => bind (fresh_upstreams pid since (passed_of job))
    (fun ids => match ids with None => ret tt
                | Some ids => firePassedDownstream pipeline job completedRun ids end)).
  assert (Hstep : evaluatePassedDownstream pipeline job completedRun s =
    if existsb (targets (Job.Name job)) act then (Ok tt, s)
    else rest (since_of (head (newest_first (select_runs (fun r =>
      bool_decide (pipelineRunScan.PipelineID r = pid) && targets_job (Job.Name job) r)
      (sv_db s))))) s).
  { unfold evaluatePassedDownstream. unfold bind at 1, attempt at 1, on_db at 1.
    cbn [get_db svc_has_db]. rewrite GetActiveRunsByPipeline_exact by done.
    rewrite set_db_same. fold pid. fold (active_runs pid (sv_db s)). fold act.
    destruct (existsb _ act); [done|].
    unfold bind at 1, attempt, on_db. cbn [get_db svc_has_db].
    rewrite GetMostRecentJobRun_exact by done. rewrite set_db_same.
    by destruct (head _). }
  rewrite !Hstep. split.
  - intros Hno. destruct (existsb _ act) eqn:Ea; [done|]. unfold rest.
    destruct Hfr as [[_ Hf]|(ids & Hf & Hall)]; [exact (bind_ok _ _ _ _ _ Hf)|].
    exfalso. apply Hno. split.
    + intros r Hr. apply not_true_is_false. intros Ha.
      assert (false = true) as Hft by (apply Hact; eauto). discriminate.
    + intros u Hu. apply list_elem_of_lookup in Hu as [i Hi].
      destruct (Forall2_lookup_l _ _ _ _ _ Hall Hi) as (id & _ & r & _ & Hr). eauto.
  - intros [Hidle Hready]. destruct (existsb _ act) eqn:Ea.
    { destruct (proj1 Hact eq_refl) as (r & Hr & Ha). by rewrite Hidle in Ha. }
    unfold rest. destruct Hfr as [[(u & Hu & Hno) _]|(ids & Hf & Hall)].
    + destruct (Hready u Hu) as [r Hr]. by destruct (Hno r).
    + exists ids. split; [exact (bind_ok _ _ _ _ _ Hf)|done].
Qed.

(** The sweep at server start passes no completed run: a job that is ready and
    admissible makes it panic, so the server does not come up. *)
Lemma recover_ready_panics `{!UniqueIDs, !OrderBy, !JsonText, !TemplateEngine}
    (s : svc) pipeline job ids :
  CanExecute s = true ->
  firePassedDownstream pipeline job None ids s = (Err (ESentinel SPanic), s).
Proof.
  intros Hc. unfold firePassedDownstream, CanAccept, bind, gets. rewrite Hc. done.
Qed.

(** ** Witness *)
#[local] Existing Instances counter_ids stable_order ex_json_text ex_engine.
Definition ex_passed_job : Job.t :=
  Job.mk None None "deploy" [] [] None 0 false None None None None None 0
    (Some (Triggers.mk None None ["build"])) "".
Definition ex_done (id job : string) (created : Z) : pipelineRunScan.t :=
  pipelineRunScan.mk id "p1" RunStatusSuccess (Some created) (Some created) None
    TriggerTypeManual "" (TriggerInput.mk [] None [job] []) "" created.
Definition ex_passed_svc : svc :=
  NewExecutionService (set_runs (fun _ => <["r1" := ex_done "r1" "build" 9]>
    {["r2" := ex_done "r2" "deploy" 7]}) empty_db) 2 5 AllFeatures.

Lemma evaluatePassedDownstream_ready_witness :
  exists ids, evaluatePassedDownstream (ex_mode_pipeline "") ex_passed_job None ex_passed_svc
      = firePassedDownstream (ex_mode_pipeline "") ex_passed_job None ids ex_passed_svc /\
    length ids = 1.
Proof.
  destruct (evaluatePassedDownstream_ready ex_passed_svc (ex_mode_pipeline "") ex_passed_job
    None) as [_ Hr].
  - reflexivity.
  - apply map_Forall_insert_2; [done|]. by apply map_Forall_singleton.
  - apply map_Forall_insert_2; [done|]. by apply map_Forall_singleton.
  - discriminate.
  - repeat constructor. discriminate.
  - assert (Hrun : forall r, (exists id, db_runs (sv_db ex_passed_svc) !! id = Some r) ->
      r = ex_done "r1" "build" 9 \/ r = ex_done "r2" "deploy" 7).
    { intros r [id Hid]. simpl in Hid. rewrite lookup_insert_Some, lookup_singleton_Some in Hid.
      destruct Hid as [[_ <-]|[_ [_ <-]]]; auto. }
    destruct Hr as (ids & He & Hall).
    + split.
      * intros r (Hid%Hrun & _). by destruct Hid as [->| ->].
      * intros u Hu. apply elem_of_cons in Hu as [->|Hu]; [|by apply elem_of_nil in Hu].
        exists (ex_done "r1" "build" 9). split; [|split; [reflexivity|]].
        -- split; [by exists "r1"|]. split; reflexivity.
        -- intros r0 (Hid%Hrun & _ & Ht). destruct Hid as [->| ->]; [discriminate|simpl; lia].
    + exists ids. split; [exact He|]. by apply Forall2_length in Hall.
Defined.
