(* ===== verification/Execution.v ===== *)
(** * Executing runs (server/execution.go)

    The trigger entry points, the queue processor's pass, recovery at start,
    the goroutine of [executePipeline] and the request of [RunByNameSync] phase
    by phase, and the final status. *)
From S2P Require Import Prelude Storage Json Db GoStrings Paging Runs Tasks Pipelines.
From S2P Require Import Config Server Admission Passed.
Open Scope string_scope.

(** ** Options handed to the runtime

    The fields that decide what a run may do; the managers, registries and
    driver factories are handed on as they are. *)
Module ExecutorOptions.
Record t := mk {
    RunID : string; PipelineID : string; Resume : bool; RequestID : string;
    AuthProvider : string; User : string; Args : list string; ContentType : string;
    TriggerType_ : TriggerType; SecretsManager : bool; WebhookData_ : option WebhookData.t;
    ResponseChan : option nat; TargetJobs : list string;
    DisableNotifications : bool; DisableFetch : bool }.
End ExecutorOptions.

Section execution.
Context `{!UniqueIDs, !OrderBy, !JsonText, !TemplateEngine, !MapOrder}.
Context (ParseConfig : string -> result Config.t).

(** ** The queue processor *)

Definition buildQueuedExecOptions (run : PipelineRun.t) : ST svc execOptions.t :=
  let! parked := gets (fun s => sv_pendingWebhooks s !! PipelineRun.ID run) in
  modify (fun s => set_pendingWebhooks (delete (PipelineRun.ID run) (sv_pendingWebhooks s)) s) ;;;
  let input := PipelineRun.Input run in
  ret (execOptions.mk
    (match parked, TriggerInput.Webhook input with
     | Some responseChan, Some w => Some (webhookExecData.mk
         (WebhookData.mk (TriggerWebhookInput.Provider w) (TriggerWebhookInput.EventType w)
            (TriggerWebhookInput.Method w) (TriggerWebhookInput.URL w)
            (TriggerWebhookInput.Headers w) (TriggerWebhookInput.Body w)
            (TriggerWebhookInput.Query w)) (Some responseChan))
     | _, _ => None
     end)
    (TriggerInput.Args input) (TriggerInput.Jobs input)
    (bool_decide (PipelineRun.Trigger run = TriggerTypeResume)) "" "" "").

Definition dispatchQueuedRun (run : PipelineRun.t) : ST svc unit :=
  let! pipeline := attempt (on_db (GetPipeline (PipelineRun.PipelineID run))) in
  match pipeline with
  | Err _ => ignore (on_db (UpdateRunStatus (PipelineRun.ID run) RunStatusFailed
               "Pipeline not found during queue dispatch"))
  | Ok pipeline =>
      let! opts := buildQueuedExecOptions run in
      dispatchRun pipeline run opts
  end.

(** The loop over the queued runs; [busy] is updated as runs are dispatched.
    The answer counts them. *)
Fixpoint dispatchEligible (runs : list PipelineRun.t) (busy : gset string)
    : ST svc Z :=
  match runs with
  | [] => ret 0%Z
  | run :: rest =>
      let! free := gets CanExecute in
      if negb free then ret 0%Z
      else
        let group := PipelineRun.ConcurrencyGroup run in
        if negb (bool_decide (group = "")) && bool_decide (group ∈ busy) then
          dispatchEligible rest busy
        else
          dispatchQueuedRun run ;;;
          let! n := dispatchEligible rest
            (if decide (group = "") then busy else {[ group ]} ∪ busy) in
          ret (n + 1)%Z
  end.

(** What the processor does after a pass: nap, or go round again. *)
Inductive tick_result : Type :=
  | TickSleep (milliseconds : Z)
  | TickAgain.

Definition processQueueTick : ST svc tick_result :=
  let! runs := attempt (on_db (GetRunsByStatus RunStatusQueued 0)) in
  match runs with
  | Err _ => ret (TickSleep 500)
  | Ok [] => ret (TickSleep 50)
  | Ok runs =>
      let! busy := attempt busyConcurrencyGroups in
      let busy := match busy with Ok b => b | Err _ => ∅ end in
      let! dispatched := dispatchEligible runs busy in
      ret (if (dispatched =? 0)%Z then TickSleep 50 else TickAgain)
  end.

(** ** Triggers *)

(** The tail every trigger shares. *)
Definition admit_and_dispatch (pipeline : Pipeline.t) (trigger : TriggerType)
    (triggeredBy : string) (ti : TriggerInput.t) (opts : execOptions.t)
    : ST svc PipelineRun.t :=
  let! admission := admitRun pipeline trigger triggeredBy ti in
  if admissionResult.Terminal admission then ret (admissionResult.Run admission)
  else
    dispatchOrQueue pipeline (admissionResult.Run admission) opts
      (admissionResult.QueueOnly admission) ;;;
    ret (admissionResult.Run admission).

Definition TriggerPipelineWithJobs (requestID : string) (actor : RequestActor.t)
    (pipeline : Pipeline.t) (args jobs : list string) : ST svc PipelineRun.t :=
  let! ok := CanAccept in
  if negb ok then fail (ESentinel SQueueFull)
  else
    admit_and_dispatch pipeline TriggerTypeManual (formatTriggeredBy actor)
      (TriggerInput.mk args None jobs [])
      (execOptions.mk None args jobs false requestID (RequestActor.Provider actor)
         (RequestActor.User actor)).

Definition TriggerPipeline requestID actor pipeline args :=
  TriggerPipelineWithJobs requestID actor pipeline args [].

Definition TriggerWebhookPipeline (requestID : string) (actor : RequestActor.t)
    (pipeline : Pipeline.t) (webhookData : option WebhookData.t)
    (responseChan : option nat) : ST svc PipelineRun.t :=
  let! ok := CanAccept in
  if negb ok then fail (ESentinel SQueueFull)
  else
    let ti := TriggerInput.mk [] (toTriggerWebhookInput webhookData) [] [] in
    let! admission := admitRun pipeline TriggerTypeWebhook
      (formatWebhookTriggeredBy webhookData) ti in
    let run := admissionResult.Run admission in
    if admissionResult.Terminal admission then ret run
    else
      let opts := execOptions.mk
        ((fun w => webhookExecData.mk w responseChan) <$> webhookData) [] [] false requestID
        (RequestActor.Provider actor) (RequestActor.User actor) in
      (match responseChan with
       | Some c => modify (fun s => set_pendingWebhooks
                     (<[PipelineRun.ID run := c]> (sv_pendingWebhooks s)) s)
       | None => ret tt
       end) ;;;
      let! dispatched := dispatchOrQueue pipeline run opts (admissionResult.QueueOnly admission) in
      (if dispatched && bool_decide (is_Some responseChan)
       then modify (fun s => set_pendingWebhooks
              (delete (PipelineRun.ID run) (sv_pendingWebhooks s)) s)
       else ret tt) ;;;
      ret run.

Definition ResumePipeline (requestID : string) (actor : RequestActor.t)
    (pipeline : Pipeline.t) (run : PipelineRun.t) : ST svc unit :=
  let! ok := CanAccept in
  if negb ok then fail (ESentinel SQueueFull)
  else
    wrap "failed to reset run status"
      (on_db (UpdateRunStatus (PipelineRun.ID run) RunStatusQueued "")) ;;;
    let! free := gets CanExecute in
    if free then
      dispatchRun pipeline run (execOptions.mk None [] [] true requestID
        (RequestActor.Provider actor) (RequestActor.User actor))
    else ret tt.

Definition TriggerScheduledPipeline (pipeline : Pipeline.t)
    (scheduleName jobName : string) : ST svc PipelineRun.t :=
  let! ok := CanAccept in
  if negb ok then fail (ESentinel SQueueFull)
  else
    let jobs := if decide (jobName = "") then [] else [jobName] in
    admit_and_dispatch pipeline TriggerTypeSchedule ("schedule:" ++ scheduleName)
      (TriggerInput.mk [] None jobs []) (execOptions.mk None [] jobs false "" "" "").

(** The [triggerPipeline()] callback of buildExecutorOptions. *)
Definition TriggerCallback (pipelineName : string) (jobs args : list string)
    : ST svc string :=
  let! ok := CanAccept in
  if negb ok then fail (ESentinel SQueueFull)
  else
    let! pipeline := wrap ("pipeline " ++ q pipelineName ++ " not found")
      (on_db (GetPipelineByName pipelineName)) in
    let! admission := wrap "admit run"
      (admitRun pipeline TriggerTypeManual "triggerPipeline" (TriggerInput.mk args None jobs [])) in
    let run := admissionResult.Run admission in
    if admissionResult.Terminal admission then ret (PipelineRun.ID run)
    else
      dispatchOrQueue pipeline run (execOptions.mk None args jobs false "" "" "")
        (admissionResult.QueueOnly admission) ;;;
      ret (PipelineRun.ID run).

(** ** Recovery at start

    Releasing the containers of an orphaned run talks to the driver only. *)
Definition recover_run (resumeEnabled : bool) (run : PipelineRun.t) : ST svc unit :=
  let runID := PipelineRun.ID run in
  let! pipeline := attempt (on_db (GetPipeline (PipelineRun.PipelineID run))) in
  match pipeline with
  | Err _ => ignore (on_db (UpdateRunStatus runID RunStatusFailed
               "Server restarted; pipeline not found"))
  | Ok pipeline =>
      if resumeEnabled && Pipeline.ResumeEnabled pipeline then
        let! resumed := attempt (ResumePipeline "" (RequestActor.mk "" "") pipeline run) in
        match resumed with
        | Ok _ => ret tt
        | Err e => ignore (on_db (UpdateRunStatus runID RunStatusFailed
                     ("Server restarted; resume failed: " ++ Error e)))
        end
      else
        ignore (on_db (UpdateRunStatus runID RunStatusFailed
          "Server restarted during execution")) ;;;
        abort_tasks runID
  end.

Definition RecoverOrphanedRuns : ST svc unit :=
  let! runs := attempt (on_db (GetRunsByStatus RunStatusRunning 0)) in
  match runs with
  | Err _ => ret tt
  | Ok runs =>
      let! features := gets sv_features in
      for_each (recover_run (IsFeatureEnabled FeatureResume features)) runs
  end.

(** ** The final status *)
Definition payload_string (k : string) (r : Result.t) : option string :=
  match get_field k (Result.Payload r) with Some (JStr s) => Some s | _ => None end.

Definition failing_status (s : string) : bool :=
  bool_decide (s ∈ ["failure"; "error"; "abort"]).

(** The loop over the job rows: what it has seen so far, and its answer. *)
Fixpoint scan_statuses (results : list Result.t) (hasStatuses allSkipped : bool)
    : RunStatus * string :=
  match results with
  | [] => (if hasStatuses && allSkipped then RunStatusSkipped else RunStatusSuccess, "")
  | r :: rest =>
      match payload_string "status" r with
      | None => scan_statuses rest hasStatuses allSkipped
      | Some status =>
          if failing_status status
          then (RunStatusFailed, default "" (payload_string "errorMessage" r))
          else scan_statuses rest true
                 (allSkipped && bool_decide (status = RunStatus_string RunStatusSkipped))
      end
  end.

Definition determineRunStatus (runID : string) : ST db (RunStatus * string) :=
  let! results := attempt (GetAll ("/pipeline/" ++ runID ++ "/jobs") ["status"; "errorMessage"]) in
  match results with
  | Err _ => ret (RunStatusSuccess, "")
  | Ok results => ret (scan_statuses results false true)
  end.

(** ** Retention *)
Definition min_nonzero (current candidate : Z) : Z :=
  if (0 <? candidate)%Z
  then if (current =? 0)%Z || (candidate <? current)%Z then candidate else current
  else current.

Definition minRetentionLimits (jobs : list Job.t) : Z * Z :=
  foldl (fun acc job =>
    match Job.BuildLogRetention job with
    | None => acc
    | Some r => (min_nonzero acc.1 (BuildLogRetention.Builds r),
                 min_nonzero acc.2 (BuildLogRetention.Days r))
    end) (0%Z, 0%Z) jobs.

(** [t.AddDate(0, 0, -days)] in UTC. *)
Definition days_before (days : Z) (t : time) : time :=
  (t - days * 86400 * nanosPerSecond)%Z.

Definition pruneOldRuns (pipeline : Pipeline.t) : ST db unit :=
  if negb (bool_decide (Pipeline.ContentType pipeline = ContentTypeYAML)) then ret tt
  else
    match ParseConfig (Pipeline.Content pipeline) with
    | Err _ => ret tt
    | Ok cfg =>
        if decide (Config.Jobs cfg = []) then ret tt
        else
          let '(keepBuilds, keepDays) := minRetentionLimits (Config.Jobs cfg) in
          if (keepBuilds =? 0)%Z && (keepDays =? 0)%Z then ret tt
          else
            let! now := time_Now in
            let cutoff := if (0 <? keepDays)%Z then Some (days_before keepDays now) else None in
            ignore (PruneRunsByPipeline (Pipeline.ID pipeline) keepBuilds cutoff)
    end.

Definition buildExecutorOptions (allowed : list Feature) (pipeline : Pipeline.t)
    (run : PipelineRun.t) (opts : execOptions.t) : ExecutorOptions.t :=
  let webhook := if IsFeatureEnabled FeatureWebhooks allowed
                 then execOptions.webhook opts else None in
  ExecutorOptions.mk (PipelineRun.ID run) (Pipeline.ID pipeline)
    (IsFeatureEnabled FeatureResume allowed &&
       (execOptions.resume opts || Pipeline.ResumeEnabled pipeline))
    (execOptions.requestID opts) (execOptions.authProvider opts) (execOptions.user opts)
    (execOptions.args opts) (Pipeline.ContentType pipeline) (PipelineRun.Trigger run)
    (IsFeatureEnabled FeatureSecrets allowed)
    (webhookExecData.webhookData <$> webhook) (webhook ≫= webhookExecData.responseChan)
    (execOptions.jobs opts)
    (negb (IsFeatureEnabled FeatureNotifications allowed))
    (negb (IsFeatureEnabled FeatureFetch allowed)).

(** ** Synchronous runs

    [RunByNameSync] up to the point where it turns to the workdir volume; the
    answer is the run it goes on with. From there on the request is a record of
    its own, [RunByNameSync_phase] by phase. What the driver, the transpiler and
    the runtime answer is an argument; the response stream is left out. *)
Definition RunByNameSync_admit (actor : RequestActor.t) (name : string)
    (args : list string) : ST svc (Pipeline.t * PipelineRun.t) :=
  let! pipeline := wrap "get pipeline by name" (on_db (GetPipelineByName name)) in
  if Pipeline.Paused pipeline then fail (ESentinel SPipelinePaused)
  else
    let! admission := wrap "admit run"
      (admitRun pipeline TriggerTypeCLI (formatTriggeredBy actor) (TriggerInput.mk args None [] [])) in
    let run := admissionResult.Run admission in
    if admissionResult.Terminal admission then
      fail (EMsg ("run " ++ PipelineRun.ID run ++ " rejected by concurrency rules: " ++
                  PipelineRun.ErrorMessage run))
    else if admissionResult.QueueOnly admission then
      ignore (on_db (UpdateRunStatus (PipelineRun.ID run) RunStatusFailed
                       "sync run rejected: concurrency group busy")) ;;;
      fail (EMsg ("run " ++ PipelineRun.ID run ++ " rejected: concurrency group busy"))
    else
      ignore (on_db (UpdateRunStatus (PipelineRun.ID run) RunStatusRunning "")) ;;;
      modify (start_sync pipeline run) ;;;
      ret (pipeline, run).

(** The exit code and the message of the exit event. The store is called with
    the context of the run. *)
Definition finalizeSyncRun (ctxDone : bool) (run : PipelineRun.t) (pipeline : Pipeline.t)
    (execErr : option err) : ST db (Z * string) :=
  let! outcome :=
    match execErr with
    | Some e => ret (1%Z, RunStatusFailed, Error e)
    | None =>
        let! final := with_ctx ctxDone (determineRunStatus (PipelineRun.ID run)) in
        ret (if decide (final.1 = RunStatusFailed) then (1%Z, final.1, final.2)
             else (0%Z, final.1, ""))
    end in
  ignore (with_ctx ctxDone (UpdateRunStatus (PipelineRun.ID run) outcome.1.2 outcome.2)) ;;;
  with_ctx ctxDone (pruneOldRuns pipeline) ;;;
  ret (outcome.1.1, outcome.2).

(** One phase of request [g]. [outside] is the error of preparing the run (the
    volume, the executable content), and then that of the runtime. *)
Definition RunByNameSync_phase (g : nat) (outside : option err) : ST svc unit :=
  let! request := gets (fun s => sv_syncs s !! g) in
  match request with
  | None => ret tt
  | Some y =>
      match y_phase y with
      | SyAdmitted =>
          match outside with
          | Some _ => modify (abandon_sync g)
          | None => modify (register_sync g y)
          end
      | SyRegistered => modify (set_sync_phase g y (SyExecuted outside))
      | SyExecuted e =>
          let! ctxDone := gets (fun s => bool_decide (g ∈ sv_cancelled s)) in
          ignore (on_db (finalizeSyncRun ctxDone (y_run y) (y_pipeline y) e)) ;;;
          modify (set_sync_phase g y SyFinished)
      | SyFinished => modify (cleanup_sync g y)
      end
  end.

(** ** The goroutine of a run *)

(** [ctxDone] is [ctx.Err() != nil] when it is tested. *)
Definition finalizeExecRun (ctxDone : bool) (run : PipelineRun.t) (pipeline : Pipeline.t)
    (execErr : option err) : ST svc unit :=
  let runID := PipelineRun.ID run in
  if ctxDone then
    abort_tasks runID ;;;
    ignore (on_db (UpdateRunStatus runID RunStatusFailed "Run stopped by user"))
  else
    match execErr with
    | Some e => ignore (on_db (UpdateRunStatus runID RunStatusFailed (Error e)))
    | None =>
        let! final := on_db (determineRunStatus runID) in
        let! updated := attempt (on_db (UpdateRunStatus runID final.1 final.2)) in
        match updated with
        | Err _ => ret tt
        | Ok _ =>
            (if decide (final.1 = RunStatusSuccess)
             then scanPassedDownstreams ParseConfig pipeline run else ret tt) ;;;
            on_db (pruneOldRuns pipeline)
        end
    end.

(** One phase of goroutine [g]. [execErr] is the answer of
    runtime.ExecutePipeline, whose writes to the store are steps of their own. *)
Definition executePipeline_phase (g : nat) (execErr : option err) : ST svc unit :=
  let! goroutine := gets (fun s => sv_goroutines s !! g) in
  match goroutine with
  | None => ret tt
  | Some p =>
      match g_phase p with
      | PhStart => modify (register g p)
      | PhRegistered =>
          let! updated := attempt (on_db
            (UpdateRunStatus (PipelineRun.ID (g_run p)) RunStatusRunning "")) in
          modify (set_phase g p (match updated with
                                 | Ok _ => PhRunning | Err _ => PhFinished end))
      | PhRunning => modify (set_phase g p (PhExecuted execErr))
      | PhExecuted e =>
          let! ctxDone := gets (fun s => bool_decide (g ∈ sv_cancelled s)) in
          finalizeExecRun ctxDone (g_run p) (g_pipeline p) e ;;;
          modify (set_phase g p PhFinished)
      | PhFinished => modify (cleanup g p)
      end
  end.
End execution.

(** ** Handlers are sequences of atomic steps *)

(** Decompose a handler into its calls; what is left are named operations. *)
Ltac by_calls_tac :=
  repeat first
    [ apply on_db_steps | apply dispatchRun_steps | apply CanAccept_steps
    | apply admitRun_steps | apply dispatchOrQueue_steps
    | apply scanPassedDownstreams_steps
    | apply preserves_ret; apply _ | apply preserves_fail; apply _
    | apply preserves_gets; apply _
    | apply preserves_attempt | apply preserves_ignore | apply preserves_wrap
    | apply preserves_bind; [apply _| |intros ?]
    | progress intros; case_match | progress case_match ].

Section steps.
Context `{!UniqueIDs, !OrderBy, !JsonText, !TemplateEngine, !MapOrder}.
Context (ParseConfig : string -> result Config.t).

Lemma pending_steps f : by_calls (modify (fun s => set_pendingWebhooks (f s) s)).
Proof. intros s. apply rtc_once, call_pending. Qed.

Lemma dispatchQueuedRun_steps run : by_calls (dispatchQueuedRun run).
Proof. unfold dispatchQueuedRun, buildQueuedExecOptions. by_calls_tac; apply pending_steps. Qed.

Lemma dispatchEligible_steps runs busy : by_calls (dispatchEligible runs busy).
Proof.
  revert busy. induction runs as [|run rest IH]; intros busy; cbn [dispatchEligible].
  - by_calls_tac.
  - apply preserves_bind; [apply _|by apply preserves_gets|intros free].
    case_match; [by_calls_tac|]. case_match; [apply IH|].
    apply preserves_bind; [apply _|apply dispatchQueuedRun_steps|intros _].
    apply preserves_bind; [apply _|apply IH|intros n]. by_calls_tac.
Qed.

Lemma processQueueTick_steps : by_calls processQueueTick.
Proof.
  unfold processQueueTick, busyConcurrencyGroups.
  apply preserves_bind; [apply _|by_calls_tac|intros [[|run runs]|e]]; [by_calls_tac| |by_calls_tac].
  apply preserves_bind; [apply _|by_calls_tac|intros busy].
  apply preserves_bind; [apply _|apply dispatchEligible_steps|intros n]. by_calls_tac.
Qed.

Lemma admit_and_dispatch_steps pipeline trigger by_ ti opts :
  by_calls (admit_and_dispatch pipeline trigger by_ ti opts).
Proof. unfold admit_and_dispatch. by_calls_tac. Qed.

Lemma TriggerPipelineWithJobs_steps id actor pipeline args jobs :
  by_calls (TriggerPipelineWithJobs id actor pipeline args jobs).
Proof. unfold TriggerPipelineWithJobs. by_calls_tac; apply admit_and_dispatch_steps. Qed.

Lemma TriggerWebhookPipeline_steps id actor pipeline data chan :
  by_calls (TriggerWebhookPipeline id actor pipeline data chan).
Proof. unfold TriggerWebhookPipeline. by_calls_tac; apply pending_steps. Qed.

Lemma ResumePipeline_steps id actor pipeline run :
  by_calls (ResumePipeline id actor pipeline run).
Proof. unfold ResumePipeline. by_calls_tac. Qed.

Lemma TriggerScheduledPipeline_steps pipeline name job :
  by_calls (TriggerScheduledPipeline pipeline name job).
Proof. unfold TriggerScheduledPipeline. by_calls_tac; apply admit_and_dispatch_steps. Qed.

Lemma TriggerCallback_steps name jobs args : by_calls (TriggerCallback name jobs args).
Proof. unfold TriggerCallback. by_calls_tac. Qed.

Lemma recover_run_steps resume run : by_calls (recover_run resume run).
Proof.
  unfold recover_run, abort_tasks. by_calls_tac.
Qed.

Lemma RecoverOrphanedRuns_steps : by_calls RecoverOrphanedRuns.
Proof.
  unfold RecoverOrphanedRuns. by_calls_tac.
  apply preserves_for_each; [apply _|]. intros run _. apply recover_run_steps.
Qed.

Lemma start_sync_steps pipeline run : by_calls (modify (start_sync pipeline run)).
Proof. intros s. apply rtc_once, call_sync. Qed.
Lemma RunByNameSync_admit_steps actor name args : by_calls (RunByNameSync_admit actor name args).
Proof. unfold RunByNameSync_admit. by_calls_tac; apply start_sync_steps. Qed.

Lemma RunByNameSync_phase_steps g e s :
  slots_ok s -> steps s (RunByNameSync_phase ParseConfig g e s).2.
Proof.
  intros Hok. unfold RunByNameSync_phase, bind at 1, gets at 1.
  destruct (sv_syncs s !! g) as [y|] eqn:Hg; [|done].
  destruct (y_phase y) as [| |e'|] eqn:Hph.
  - destruct e as [e|]; apply rtc_once; [by eapply step_sync_abandon|by apply step_sync_register].
  - apply rtc_once, step_sync_phase; [done|]. rewrite Hph. constructor.
  - unfold bind, gets. set (m := ignore (on_db _)).
    assert (Hc : calls s (m s).2) by (apply preserves_ignore, on_db_steps).
    assert (Hm : (m s).1 = Ok tt) by (unfold m, ignore, on_db; by destruct (finalizeSyncRun _ _ _ _ _ _)).
    destruct (m s) as [r s1]. cbn [fst snd] in *. subst r. etrans; [by apply calls_steps|].
    apply rtc_once, step_sync_phase; [by eapply calls_sync_run|]. rewrite Hph. constructor.
  - apply rtc_once. by apply step_sync_cleanup.
Qed.

Lemma finalizeExecRun_steps done run pipeline e :
  by_calls (finalizeExecRun ParseConfig done run pipeline e).
Proof. unfold finalizeExecRun, abort_tasks. by_calls_tac. Qed.

Lemma executePipeline_phase_steps g e s :
  slots_ok s -> steps s (executePipeline_phase ParseConfig g e s).2.
Proof.
  intros Hok. unfold executePipeline_phase, bind at 1, gets at 1.
  destruct (sv_goroutines s !! g) as [p|] eqn:Hg; [|done].
  destruct (g_phase p) as [| | |e'|] eqn:Hph.
  - apply rtc_once. by apply step_register.
  - unfold bind, attempt, modify, on_db. simpl get_db.
    destruct (UpdateRunStatus _ _ _ (sv_db s)) as [r d]. cbn [snd].
    etrans; [apply rtc_once, step_call, (call_store s d)|].
    apply rtc_once, step_phase; [done|]. rewrite Hph. destruct r; constructor.
  - apply rtc_once, step_phase; [done|]. rewrite Hph. constructor.
  - unfold bind, gets, modify.
    pose proof (finalizeExecRun_steps (bool_decide (g ∈ sv_cancelled s)) (g_run p)
      (g_pipeline p) e' s) as Hc.
    destruct (finalizeExecRun _ _ _ _ _ s) as [[[]|e2] s1]; cbn [snd] in *;
      (etrans; [by apply calls_steps|]); [|done].
    apply rtc_once, step_phase; [by eapply calls_goroutine|]. rewrite Hph. constructor.
  - apply rtc_once. by apply step_cleanup.
Qed.
End steps.

(** ** Events *)
Section events.
Context `{!UniqueIDs, !OrderBy, !JsonText, !TemplateEngine, !MapOrder}.
Context (ParseConfig : string -> result Config.t).

(** What can happen to the service: a request, a pass of the queue processor,
    the next phase of a goroutine, the runtime or another process writing the
    store. *)
Inductive event : Type :=
  | EvTrigger (requestID : string) (actor : RequestActor.t) (pipeline : Pipeline.t)
      (args jobs : list string)
  | EvWebhook (requestID : string) (actor : RequestActor.t) (pipeline : Pipeline.t)
      (data : option WebhookData.t) (chan : option nat)
  | EvSchedule (pipeline : Pipeline.t) (scheduleName jobName : string)
  | EvCallback (pipelineName : string) (jobs args : list string)
  | EvResume (requestID : string) (actor : RequestActor.t) (pipeline : Pipeline.t)
      (run : PipelineRun.t)
  | EvStop (runID : string)
  | EvRecover
  | EvTick
  | EvPhase (g : nat) (execErr : option err)
  | EvSync (actor : RequestActor.t) (name : string) (args : list string)
  | EvSyncPhase (g : nat) (outside : option err)
  | EvStore (d : db).

Definition serve (ev : event) (s : svc) : svc :=
  match ev with
  | EvTrigger id actor p args jobs => (TriggerPipelineWithJobs id actor p args jobs s).2
  | EvWebhook id actor p data chan => (TriggerWebhookPipeline id actor p data chan s).2
  | EvSchedule p name job => (TriggerScheduledPipeline p name job s).2
  | EvCallback name jobs args => (TriggerCallback name jobs args s).2
  | EvResume id actor p run => (ResumePipeline id actor p run s).2
  | EvStop runID => (StopRun runID s).2
  | EvRecover => (RecoverOrphanedRuns s).2
  | EvTick => (processQueueTick s).2
  | EvPhase g e => (executePipeline_phase ParseConfig g e s).2
  | EvSync actor name args => (RunByNameSync_admit actor name args s).2
  | EvSyncPhase g e => (RunByNameSync_phase ParseConfig g e s).2
  | EvStore d => set_db d s
  end.

Lemma serve_steps ev s : slots_ok s -> steps s (serve ev s).
Proof.
  intros Hok. destruct ev; cbn [serve]; try (apply executePipeline_phase_steps, Hok);
    try (apply RunByNameSync_phase_steps, Hok); apply calls_steps.
  - apply TriggerPipelineWithJobs_steps.
  - apply TriggerWebhookPipeline_steps.
  - apply TriggerScheduledPipeline_steps.
  - apply TriggerCallback_steps.
  - apply ResumePipeline_steps.
  - apply StopRun_steps.
  - apply RecoverOrphanedRuns_steps.
  - apply processQueueTick_steps.
  - apply RunByNameSync_admit_steps.
  - apply rtc_once, (call_store s d).
Qed.
End events.

(** ** What a pass of the queue processor starts *)

(** [l] lists the runs whose goroutines were added, in order. *)
Record spawns (s s' : svc) (l : list PipelineRun.t) : Prop := {
  spawns_next : sv_next s' = sv_next s + length l;
  spawns_inFlight : sv_inFlight s' = (sv_inFlight s + Z.of_nat (length l))%Z;
  spawns_max : sv_maxInFlight s' = sv_maxInFlight s;
  spawns_old : forall g, g < sv_next s -> sv_goroutines s' !! g = sv_goroutines s !! g;
  spawns_new : forall i run, l !! i = Some run -> exists p,
    sv_goroutines s' !! (sv_next s + i) = Some p /\ g_run p = run /\ g_phase p = PhStart }.

Lemma spawns_refl s : spawns s s [].
Proof. split; simpl; try done; lia. Qed.

Lemma spawns_trans s1 s2 s3 l1 l2 :
  spawns s1 s2 l1 -> spawns s2 s3 l2 -> spawns s1 s3 (l1 ++ l2).
Proof.
  intros [A1 A2 A3 A4 A5] [B1 B2 B3 B4 B5]. split.
  - rewrite length_app. lia.
  - rewrite length_app. lia.
  - congruence.
  - intros g Hg. rewrite B4 by lia. by apply A4.
  - intros i run [Hi|[Hle Hi]]%lookup_app_Some.
    + rewrite B4 by (apply lookup_lt_Some in Hi; lia). by apply A5.
    + replace (sv_next s1 + i) with (sv_next s2 + (i - length l1)) by lia. by apply B5.
Qed.

Lemma spawns_on_db {A} (m : ST db A) s : spawns s (on_db m s).2 [].
Proof.
  unfold on_db. destruct (m (get_db s)) as [r d]. split; simpl; try done; lia.
Qed.

Section tick_facts.
Context `{!OrderBy, !JsonText}.

Lemma start_goroutine_spawns pipeline run opts s :
  spawns s (start_goroutine pipeline run opts s) [run].
Proof.
  split; simpl; try done; try lia.
  - intros g Hg. rewrite lookup_insert_ne; [done|lia].
  - intros [|i] run' Hi; [|done]. injection Hi as <-.
    rewrite Nat.add_0_r, lookup_insert_eq. by eexists.
Qed.

Lemma dispatchQueuedRun_spawns run s :
  exists l s', dispatchQueuedRun run s = (Ok tt, s') /\ spawns s s' l /\
    (l = [run] \/ l = []) /\
    (quiet s -> is_Some (db_pipelines (sv_db s) !! PipelineRun.PipelineID run) ->
     l = [run] /\ sv_db s' = sv_db s).
Proof.
  unfold dispatchQueuedRun, bind at 1, attempt, on_db. cbn [get_db svc_has_db].
  destruct (GetPipeline (PipelineRun.PipelineID run) (sv_db s)) as [[p|e] d] eqn:E.
  - unfold buildQueuedExecOptions, dispatchRun, bind, gets, modify, ret.
    exists [run]. eexists. split; [reflexivity|]. split; [|split; [by left|]].
    + refine (spawns_trans _ _ _ [] [run] _ (start_goroutine_spawns _ _ _ _)).
      split; simpl; try done; lia.
    + intros Hq Hp. split; [done|]. simpl. unfold GetPipeline, bind, wrap in E.
      rewrite query_no_faults in E by done. destruct (db_pipelines _ !! _); by injection E as _ <-.
  - exists []. unfold ignore, attempt, on_db. cbn [get_db put_db sv_db set_db svc_has_db].
    destruct (UpdateRunStatus _ _ _ _) as [r d'] eqn:Eu.
    eexists. split; [reflexivity|]. split; [|split; [by right|]].
    + split; simpl; try done; lia.
    + intros Hq [p Hp]. exfalso. unfold GetPipeline, bind, wrap in E.
      rewrite query_no_faults, Hp in E by done. by injection E.
Qed.

Definition blocked (busy : gset string) (run : PipelineRun.t) : Prop :=
  PipelineRun.ConcurrencyGroup run <> "" /\ PipelineRun.ConcurrencyGroup run ∈ busy.

(** The groups that a list of started runs makes busy. *)
Definition groups_of (l : list PipelineRun.t) : list string :=
  List.filter (fun g => negb (bool_decide (g = ""))) (PipelineRun.ConcurrencyGroup <$> l).

Lemma groups_of_cons run l :
  groups_of (run :: l) =
    if decide (PipelineRun.ConcurrencyGroup run = "") then groups_of l
    else PipelineRun.ConcurrencyGroup run :: groups_of l.
Proof.
  unfold groups_of. cbn [fmap list_fmap List.filter].
  destruct (decide _) as [Hg|Hg]; [by rewrite bool_decide_true by done|].
  by rewrite bool_decide_false by done.
Qed.

Lemma elem_of_groups_of g l :
  g ∈ groups_of l <-> g <> "" /\ exists run, run ∈ l /\ PipelineRun.ConcurrencyGroup run = g.
Proof.
  induction l as [|run l IH].
  - split; [by intros ?%not_elem_of_nil|]. by intros (_ & r & ?%not_elem_of_nil & _).
  - rewrite groups_of_cons. destruct (decide _) as [Hg|Hg].
    + rewrite IH. split.
      * intros (? & r & ? & ?). split; [done|]. exists r. by rewrite elem_of_cons; auto.
      * intros (? & r & [->|?]%elem_of_cons & ?); [congruence|eauto].
    + rewrite elem_of_cons, IH. split.
      * intros [->|(? & r & ? & ?)]; (split; [done|]).
        -- exists run. by rewrite elem_of_cons; auto.
        -- exists r. by rewrite elem_of_cons; auto.
      * intros (? & r & [->|?]%elem_of_cons & ?); [by left|right; eauto].
Qed.

Definition pipeline_present (s : svc) (run : PipelineRun.t) : Prop :=
  is_Some (db_pipelines (sv_db s) !! PipelineRun.PipelineID run).

(** What a pass over [runs] started, [l], with the groups in [busy] held. *)
Record dispatched (runs : list PipelineRun.t) (busy : gset string) (s s' : svc)
    (l : list PipelineRun.t) : Prop := {
  disp_spawns : spawns s s' l;
  disp_sub : l `sublist_of` runs;
  disp_cap : (sv_inFlight s <= sv_maxInFlight s -> sv_inFlight s' <= sv_maxInFlight s')%Z;
  disp_free : Forall (fun run => ~ blocked busy run) l;
  disp_distinct : NoDup (groups_of l);
  disp_all : quiet s -> Forall (pipeline_present s) runs -> CanExecute s' = true ->
    Forall (fun run => run ∈ l \/ blocked (busy ∪ list_to_set (groups_of l)) run) runs }.

Lemma blocked_mono (b1 b2 : gset string) run : b1 ⊆ b2 -> blocked b1 run -> blocked b2 run.
Proof. intros Hs [? ?]. split; [done|]. by apply Hs. Qed.

Lemma dispatched_nil runs busy s : CanExecute s = false \/ runs = [] -> dispatched runs busy s s [].
Proof.
  intros Hs. split; try done; [apply spawns_refl|apply sublist_nil_l|constructor|].
  intros _ _ Hc. destruct Hs as [Hs| ->]; [by rewrite Hs in Hc|done].
Qed.

Lemma negb_empty_in (busy : gset string) run :
  negb (bool_decide (PipelineRun.ConcurrencyGroup run = ""))
    && bool_decide (PipelineRun.ConcurrencyGroup run ∈ busy) = true <-> blocked busy run.
Proof. unfold blocked. by rewrite andb_true_iff, negb_true_iff, bool_decide_eq_false, bool_decide_eq_true. Qed.

(** A run whose group is busy is passed over. *)
Lemma dispatched_pass run rest busy s s' l :
  blocked busy run -> dispatched rest busy s s' l -> dispatched (run :: rest) busy s s' l.
Proof.
  intros Hb [D1 D2 D3 D4 D5 D6]. split; try done; [by constructor|].
  intros Hqs [Hp Hps]%Forall_cons Hc. constructor; [|by apply D6].
  right. apply (blocked_mono busy); [set_solver|done].
Qed.

Definition busy_after (run : PipelineRun.t) (busy : gset string) : gset string :=
  if decide (PipelineRun.ConcurrencyGroup run = "") then busy
  else {[PipelineRun.ConcurrencyGroup run]} ∪ busy.

Lemma present_after rest s s1 :
  sv_db s1 = sv_db s -> Forall (pipeline_present s) rest -> Forall (pipeline_present s1) rest.
Proof.
  intros Hdb Hps. eapply Forall_impl; [exact Hps|]. intros r. unfold pipeline_present. by rewrite Hdb.
Qed.

(** A run that is started takes its group for the rest of the pass. *)
Lemma dispatched_start run rest busy s s1 s' l :
  (sv_inFlight s < sv_maxInFlight s)%Z -> ~ blocked busy run -> spawns s s1 [run] ->
  (quiet s -> pipeline_present s run -> sv_db s1 = sv_db s) ->
  dispatched rest (busy_after run busy) s1 s' l -> dispatched (run :: rest) busy s s' (run :: l).
Proof.
  intros Hlt Hnb Hsp Hex [D1 D2 D3 D4 D5 D6].
  pose proof (spawns_inFlight _ _ _ Hsp) as Hin. pose proof (spawns_max _ _ _ Hsp) as Hmax.
  assert (Hsub : busy ⊆ busy_after run busy) by (unfold busy_after; case_decide; set_solver).
  simpl in Hin. split.
  - by eapply (spawns_trans _ _ _ [run]).
  - by apply sublist_skip.
  - intros _. apply D3. lia.
  - constructor; [done|]. eapply Forall_impl; [exact D4|]. intros r Hr Hb.
    by apply Hr, (blocked_mono busy).
  - rewrite groups_of_cons. destruct (decide _) as [Hg|Hg]; [done|].
    apply NoDup_cons. split; [|done]. intros (_ & r & Hr & Her)%elem_of_groups_of.
    rewrite Forall_forall in D4. apply (D4 r Hr). split; [by rewrite Her|].
    rewrite Her. unfold busy_after. case_decide; [done|]. set_solver.
  - intros Hqs [Hp Hps]%Forall_cons Hc. pose proof (Hex Hqs Hp) as Hdb.
    constructor; [left; by apply elem_of_cons; left|].
    eapply Forall_impl; [apply D6; [unfold quiet; by rewrite Hdb|by apply (present_after _ s)|done]|].
    intros r [Hr|Hr]; [left; by apply elem_of_cons; right|right].
    eapply blocked_mono; [|exact Hr]. rewrite groups_of_cons. unfold busy_after.
    case_decide; set_solver.
Qed.

(** One whose pipeline cannot be read starts nothing. *)
Lemma dispatched_lost run rest busy s s1 s' l :
  (sv_inFlight s <= sv_maxInFlight s)%Z -> spawns s s1 [] ->
  ~ (quiet s /\ pipeline_present s run) ->
  dispatched rest (busy_after run busy) s1 s' l -> dispatched (run :: rest) busy s s' l.
Proof.
  intros Hle Hsp Hno [D1 D2 D3 D4 D5 D6].
  pose proof (spawns_inFlight _ _ _ Hsp) as Hin. pose proof (spawns_max _ _ _ Hsp) as Hmax.
  simpl in Hin. split; try done.
  - by eapply (spawns_trans _ _ _ [] l).
  - by constructor.
  - intros _. apply D3. lia.
  - eapply Forall_impl; [exact D4|]. intros r Hr Hb. apply Hr, (blocked_mono busy); [|done].
    unfold busy_after. case_decide; set_solver.
  - intros Hqs [Hp Hps]%Forall_cons Hc. by destruct Hno.
Qed.

Lemma dispatchEligible_dispatched runs busy s :
  exists l n s', dispatchEligible runs busy s = (Ok n, s') /\
    dispatched runs busy s s' l /\ (Z.of_nat (length l) <= n)%Z /\
    (quiet s -> Forall (pipeline_present s) runs -> n = Z.of_nat (length l) /\ sv_db s' = sv_db s).
Proof.
  revert busy s. induction runs as [|run rest IH]; intros busy s; cbn [dispatchEligible].
  { exists [], 0%Z, s. split_and!; [done|apply dispatched_nil; by right|done|done]. }
  unfold bind at 1, gets at 1. destruct (CanExecute s) eqn:Hfree; cbn [negb].
  2: { exists [], 0%Z, s. split_and!; [done|apply dispatched_nil; by left|done|done]. }
  cbv zeta. destruct (negb _ && _) eqn:Hblk.
  { destruct (IH busy s) as (l & n & s' & He & HD & Hn & Hq). exists l, n, s'.
    split_and!; [done|apply dispatched_pass; [by apply negb_empty_in|done]|done|].
    intros Hqs [Hp Hps]%Forall_cons. by apply Hq. }
  assert (Hnb : ~ blocked busy run) by (rewrite <- negb_empty_in, Hblk; done).
  destruct (dispatchQueuedRun_spawns run s) as (l1 & s1 & He1 & Hsp1 & Hl1 & Hex1).
  fold (busy_after run busy).
  destruct (IH (busy_after run busy) s1) as (l & n & s' & He & HD & Hn & Hq).
  exists (l1 ++ l)%list, (n + 1)%Z, s'.
  assert (Hlt : (sv_inFlight s < sv_maxInFlight s)%Z) by (by apply Z.ltb_lt).
  split; [etransitivity; [exact (bind_ok _ _ _ _ _ He1)|exact (bind_ok _ _ _ _ _ He)]|].
  destruct Hl1 as [->| ->]; (split; [|split; [simpl; lia|]]).
  - eapply dispatched_start; [done|done|exact Hsp1|by intros ? ?; apply Hex1|done].
  - intros Hqs [Hp Hps]%Forall_cons. destruct (Hex1 Hqs Hp) as [_ Hdb].
    destruct Hq as [-> Hd]; [unfold quiet; by rewrite Hdb|by apply (present_after _ s)|].
    split; [cbn [app length]; lia|by rewrite Hd].
  - eapply dispatched_lost; [lia|exact Hsp1| |done]. intros [Hqs Hp]. by destruct (Hex1 Hqs Hp).
  - intros Hqs [Hp Hps]%Forall_cons. by destruct (Hex1 Hqs Hp).
Qed.
End tick_facts.

(** ** Recovery *)
Section recovery_facts.
Context `{!OrderBy, !JsonText}.

(** Reading the queue changes nothing. *)
Lemma CanAccept_quiet s : quiet s -> exists b, CanAccept s = (Ok b, s).
Proof.
  intros Hq. unfold CanAccept, QueueLength, bind, gets, attempt, on_db, ret.
  destruct (CanExecute s); [by eexists|]. case_match; [|by eexists].
  cbn [get_db svc_has_db]. rewrite GetRunsByStatus_exact by done. eexists.
  by destruct s.
Qed.

(** One run moved out of 'running', every other row left alone. *)
Definition moved (id : string) (P : RunStatus -> Prop) (s s' : svc) : Prop :=
  quiet s' /\ db_pipelines (sv_db s') = db_pipelines (sv_db s) /\
  sv_features s' = sv_features s /\
  forall k r, db_runs (sv_db s) !! k = Some r ->
    exists r', db_runs (sv_db s') !! k = Some r' /\
      (k <> id -> r' = r) /\ (k = id -> P (pipelineRunScan.Status r')).

Lemma UpdateRunStatus_pipelines runID st msg d :
  db_faults d = [] -> db_pipelines (UpdateRunStatus runID st msg d).2 = db_pipelines d.
Proof. intros Hf. rewrite UpdateRunStatus_exact by done. by repeat case_match. Qed.

Lemma update_moved runID st msg s :
  quiet s -> st = RunStatusFailed \/ st = RunStatusQueued ->
  moved runID (eq st) s (on_db (UpdateRunStatus runID st msg) s).2.
Proof.
  intros Hq Hst. pose proof (UpdateRunStatus_rows runID st msg (sv_db s) Hq) as [Hf Hr].
  pose proof (UpdateRunStatus_pipelines runID st msg (sv_db s) Hq) as Hp.
  unfold on_db. cbn [get_db svc_has_db]. destruct (UpdateRunStatus runID st msg (sv_db s)) as [o d].
  cbn [snd] in *. split; [done|]. split; [done|]. split; [done|].
  intros k r Hk. cbn [sv_db set_db put_db svc_has_db]. rewrite Hr, Hk. eexists. split; [reflexivity|].
  split; intros Hne.
  - by rewrite bool_decide_false.
  - rewrite bool_decide_true by done. by destruct Hst as [-> | ->].
Qed.

Lemma update_known runID st msg s :
  quiet s -> is_Some (db_runs (sv_db s) !! runID) ->
  (on_db (UpdateRunStatus runID st msg) s).1 = Ok tt.
Proof.
  intros Hq [r Hr]. unfold on_db. cbn [get_db svc_has_db].
  rewrite UpdateRunStatus_exact by done. by rewrite Hr.
Qed.

Lemma moved_weaken id (P Q : RunStatus -> Prop) s s' :
  (forall st, P st -> Q st) -> moved id P s s' -> moved id Q s s'.
Proof.
  intros HPQ (H1 & H2 & H3 & H4). split; [done|]. split; [done|]. split; [done|].
  intros k r Hk. destruct (H4 k r Hk) as (r' & ? & ? & ?). exists r'. eauto.
Qed.

Lemma moved_same id P s s1 s2 :
  db_runs (sv_db s2) = db_runs (sv_db s1) -> db_pipelines (sv_db s2) = db_pipelines (sv_db s1) ->
  sv_features s2 = sv_features s1 -> quiet s2 -> moved id P s s1 -> moved id P s s2.
Proof.
  intros Hr Hp Hf Hq (_ & H2 & H3 & H4). split; [done|]. split; [congruence|].
  split; [congruence|]. by rewrite Hr.
Qed.

Lemma abort_tasks_same runID s :
  quiet s ->
  let s' := (abort_tasks runID s).2 in
  (abort_tasks runID s).1 = Ok tt /\ quiet s' /\ db_runs (sv_db s') = db_runs (sv_db s) /\
  db_pipelines (sv_db s') = db_pipelines (sv_db s) /\ sv_features s' = sv_features s.
Proof.
  intros Hq. cbv zeta. unfold abort_tasks, ignore, on_db, UpdateStatusForPrefix.
  rewrite decide_False by done. cbn [get_db svc_has_db]. unfold wrap, bind.
  rewrite update_no_faults by done. done.
Qed.

Lemma ResumePipeline_moved id actor pipeline run s :
  quiet s -> is_Some (db_runs (sv_db s) !! PipelineRun.ID run) ->
  ((ResumePipeline id actor pipeline run s).1 = Ok tt /\
    moved (PipelineRun.ID run) (eq RunStatusQueued) s (ResumePipeline id actor pipeline run s).2) \/
  ResumePipeline id actor pipeline run s = (Err (ESentinel SQueueFull), s).
Proof.
  intros Hq Hr. unfold ResumePipeline.
  destruct (CanAccept_quiet s Hq) as [[|] Hb]; rewrite (bind_ok _ _ _ _ _ Hb); [left|by right].
  cbn [negb]. pose proof (update_moved (PipelineRun.ID run) RunStatusQueued "" s Hq
    (or_intror eq_refl)) as Hm.
  pose proof (update_known (PipelineRun.ID run) RunStatusQueued "" s Hq Hr) as Hok.
  unfold wrap, bind, gets. destruct (on_db _ s) as [r s1]. cbn [fst snd] in *. subst r.
  destruct (CanExecute s1); [|done]. split; [done|].
  by apply (moved_same _ _ _ s1); [..|apply Hm|].
Qed.
End recovery_facts.

Section recovery.
Context `{!OrderBy, !JsonText}.

(** Where recovery leaves a run of pipeline [pid]. *)
Definition recovered_to (s : svc) (pid : string) (st : RunStatus) : Prop :=
  st = RunStatusFailed \/
  st = RunStatusQueued /\ IsFeatureEnabled FeatureResume (sv_features s) = true /\
    exists p, db_pipelines (sv_db s) !! pid = Some p /\
      Pipeline.ResumeEnabled (pipelineScan.toStorage p) = true.

Lemma ignore_failed_moved run msg s :
  quiet s ->
  let m := ignore (on_db (UpdateRunStatus (PipelineRun.ID run) RunStatusFailed msg)) in
  (m s).1 = Ok tt /\
  moved (PipelineRun.ID run) (recovered_to s (PipelineRun.PipelineID run)) s (m s).2.
Proof.
  intros Hq. pose proof (update_moved (PipelineRun.ID run) RunStatusFailed msg s Hq
    (or_introl eq_refl)) as Hm.
  cbv zeta. unfold ignore. destruct (on_db _ s) as [r s']. split; [done|].
  eapply moved_weaken; [|exact Hm]. intros st <-. by left.
Qed.

Lemma GetPipeline_quiet pid s :
  quiet s ->
  on_db (GetPipeline pid) s =
    (match db_pipelines (sv_db s) !! pid with
     | Some p => Ok (pipelineScan.toStorage p)
     | None => (GetPipeline pid (sv_db s)).1
     end, s) /\
  (db_pipelines (sv_db s) !! pid = None -> exists e, (GetPipeline pid (sv_db s)).1 = Err e).
Proof.
  intros Hq. unfold on_db, GetPipeline, bind, wrap. cbn [get_db svc_has_db].
  rewrite query_no_faults by done. destruct (db_pipelines (sv_db s) !! pid) eqn:E.
  - split; [|done]. by destruct s.
  - split; [by destruct s|]. intros _. by eexists.
Qed.

Lemma recover_run_moved resume run s :
  resume = IsFeatureEnabled FeatureResume (sv_features s) ->
  quiet s -> is_Some (db_runs (sv_db s) !! PipelineRun.ID run) ->
  (recover_run resume run s).1 = Ok tt /\
  moved (PipelineRun.ID run) (recovered_to s (PipelineRun.PipelineID run)) s
    (recover_run resume run s).2.
Proof.
  intros -> Hq Hr. unfold recover_run.
  destruct (GetPipeline_quiet (PipelineRun.PipelineID run) s Hq) as [Hget Hnone].
  rewrite (bind_ok _ _ _ _ _ (attempt_eq _ _ _ _ Hget)).
  destruct (db_pipelines (sv_db s) !! PipelineRun.PipelineID run) as [p|] eqn:Ep.
  2: { destruct (Hnone eq_refl) as [e ->]. by apply ignore_failed_moved. }
  destruct (_ && _) eqn:Hres.
  - apply andb_true_iff in Hres as [Hfeat Hen].
    destruct (ResumePipeline_moved "" (RequestActor.mk "" "") (pipelineScan.toStorage p) run s
      Hq Hr) as [[Hok Hm]|Hfull].
    + destruct (ResumePipeline _ _ _ _ s) as [r s1] eqn:Er. cbn [fst snd] in *. subst r.
      rewrite (bind_ok _ _ _ _ _ (attempt_eq _ _ _ _ Er)). split; [done|]. eapply moved_weaken; [|exact Hm]. intros st <-. right. eauto.
    + rewrite (bind_ok _ _ _ _ _ (attempt_eq _ _ _ _ Hfull)). by apply ignore_failed_moved.
  - destruct (ignore_failed_moved run "Server restarted during execution" s Hq) as [Hok Hm].
    destruct (ignore _ s) as [r s1] eqn:Ei. cbn [fst snd] in *. subst r.
    rewrite (bind_ok _ _ _ _ _ Ei).
    destruct (abort_tasks_same (PipelineRun.ID run) s1 (proj1 Hm)) as (Ha & Hb & Hc & Hd & He).
    split; [done|]. by apply (moved_same _ _ _ s1).
Qed.

(** The loop: every listed run is moved, nothing else is. *)
Lemma recover_loop l s :
  quiet s -> (forall run, run ∈ l -> is_Some (db_runs (sv_db s) !! PipelineRun.ID run)) ->
  let m := for_each (recover_run (IsFeatureEnabled FeatureResume (sv_features s))) l in
  (m s).1 = Ok tt /\
  forall k r, db_runs (sv_db s) !! k = Some r -> exists r', db_runs (sv_db (m s).2) !! k = Some r' /\
    ((forall run, run ∈ l -> PipelineRun.ID run <> k) -> r' = r) /\
    ((exists run, run ∈ l /\ PipelineRun.ID run = k) -> exists run, run ∈ l /\
       PipelineRun.ID run = k /\
       recovered_to s (PipelineRun.PipelineID run) (pipelineRunScan.Status r')).
Proof.
  revert s. induction l as [|run l IH]; intros s Hq Hin; cbv zeta; cbn [for_each].
  { split; [done|]. intros k r Hk. exists r. split; [done|]. split; [done|].
    by intros (x & ?%not_elem_of_nil & _). }
  destruct (recover_run_moved _ run s eq_refl Hq) as [Hok (Hq1 & Hp1 & Hf1 & Hm1)].
  { apply Hin, elem_of_cons. by left. }
  destruct (recover_run _ run s) as [o s1] eqn:E. cbn [fst snd] in *. subst o.
  rewrite (bind_ok _ _ _ _ _ E).
  specialize (IH s1 Hq1). rewrite Hf1 in IH. destruct IH as [Hok2 Hm2].
  { intros x Hx. destruct (Hin x) as [r Hr]; [apply elem_of_cons; by right|].
    destruct (Hm1 _ _ Hr) as (r' & -> & _). by eexists. }
  split; [exact Hok2|]. intros k r Hk.
  destruct (Hm1 k r Hk) as (r1 & Hr1 & Hne1 & He1).
  destruct (Hm2 k r1 Hr1) as (r2 & Hr2 & Hne2 & He2).
  exists r2. split; [done|]. split.
  - intros Hall. rewrite Hne2, Hne1; [done| |].
    + intros ->. apply (Hall run); [apply elem_of_cons; by left|done].
    + intros x Hx. apply Hall, elem_of_cons. by right.
  - intros (x & Hx & Hxk).
    destruct (decide (k ∈ PipelineRun.ID <$> l)) as [(y & Hy & Hyl)%list_elem_of_fmap|Hnin].
    + destruct He2 as (z & Hz & Hzk & Hrec); [by exists y|]. exists z.
      split; [apply elem_of_cons; by right|]. split; [done|].
      destruct Hrec as [Hrec|(Ha & Hb & p & Hc & Hd)]; [by left|]. right.
      rewrite Hf1 in Hb. rewrite Hp1 in Hc. eauto.
    + apply elem_of_cons in Hx as [->|Hx];
        [|exfalso; apply Hnin, list_elem_of_fmap; by exists x].
      exists run. split; [apply elem_of_cons; by left|]. split; [done|].
      rewrite Hne2; [by apply He1|]. intros y Hy Hyk. apply Hnin, list_elem_of_fmap. by exists y.
Qed.
End recovery.

(** ** Properties *)

(** C1: in every state the service can reach by interleaved atomic steps of its
    handlers, goroutines and synchronous requests, the in-flight counter is the
    number of goroutines that have not freed their slot, so that a synchronous
    run takes none; a stop request finds the context of a live goroutine or a
    live synchronous request of that very run; when no goroutine is left no slot
    is held, and when no synchronous request is left either, nothing can be
    stopped; and whatever event is handled next leads to such a state again. *)
Theorem service_accounting `{!UniqueIDs, !OrderBy, !JsonText, !TemplateEngine, !MapOrder}
    (ParseConfig : string -> result Config.t) d maxInFlight maxQueue features s :
  steps (NewExecutionService d maxInFlight maxQueue features) s ->
  sv_inFlight s = Z.of_nat (size (sv_goroutines s)) /\
  (forall runID g, sv_stopRegistry s !! runID = Some g ->
     (exists p, sv_goroutines s !! g = Some p /\ PipelineRun.ID (g_run p) = runID) \/
     (exists y, sv_syncs s !! g = Some y /\ PipelineRun.ID (y_run y) = runID)) /\
  (sv_goroutines s = ∅ -> sv_inFlight s = 0%Z /\ (sv_syncs s = ∅ -> sv_stopRegistry s = ∅)) /\
  forall ev, steps (NewExecutionService d maxInFlight maxQueue features) (serve ParseConfig ev s).
Proof.
  intros Hs. pose proof (steps_ok _ _ Hs (slots_ok_New _ _ _ _)) as Hok.
  pose proof Hok as [Hc Hf Hy Hr]. split; [exact Hc|]. split; [|split].
  - intros runID g Hg. destruct (Hr _ _ Hg) as [(p & ? & ? & _)|(y & ? & ? & _)]; eauto.
  - intros He. split; [rewrite Hc, He; by vm_compute|]. intros Hsync. apply map_eq. intros runID.
    rewrite lookup_empty. destruct (sv_stopRegistry s !! runID) as [g|] eqn:Hg; [|done].
    destruct (Hr _ _ Hg) as [(p & Hp & _)|(y & Hp & _)]; [by rewrite He in Hp|by rewrite Hsync in Hp].
  - intros ev. etrans; [exact Hs|]. by apply serve_steps.
Qed.

(** C13: what one pass of the queue processor starts. The runs started are
    runs listed as queued, in the order listed; the in-flight limit holds
    after the pass if it held before; no started run's concurrency group is
    held by a running run, and no two started runs share a group. When a slot
    is still free after the pass, a queued run was left behind only because a
    running run or a run just started holds its group. *)
Theorem processQueueTick_dispatches `{!OrderBy, !JsonText} (s : svc) :
  quiet s ->
  let queued := pipelineRunScan.toStorage <$> newest_first (select_runs (fun r =>
    bool_decide (pipelineRunScan.Status r = RunStatusQueued)) (sv_db s)) in
  let running := pipelineRunScan.toStorage <$> newest_first (select_runs (fun r =>
    bool_decide (pipelineRunScan.Status r = RunStatusRunning)) (sv_db s)) in
  Forall (pipeline_present s) queued ->
  exists l s' answer, processQueueTick s = (Ok answer, s') /\ spawns s s' l /\
    l `sublist_of` queued /\ sv_db s' = sv_db s /\
    (sv_inFlight s <= sv_maxInFlight s -> sv_inFlight s' <= sv_maxInFlight s')%Z /\
    Forall (fun run => ~ blocked (list_to_set (groups_of running)) run) l /\
    NoDup (groups_of l) /\
    (CanExecute s' = true -> Forall (fun run => run ∈ l \/
       blocked (list_to_set (groups_of running) ∪ list_to_set (groups_of l)) run) queued) /\
    (answer = TickAgain <-> l <> []).
Proof.
  intros Hq queued running Hpres.
  assert (Hget : forall st, on_db (GetRunsByStatus st 0) s =
    (Ok (pipelineRunScan.toStorage <$> newest_first (select_runs (fun r =>
       bool_decide (pipelineRunScan.Status r = st)) (sv_db s))), s)).
  { intros st. unfold on_db. cbn [get_db svc_has_db].
    rewrite GetRunsByStatus_exact by done. by destruct s. }
  assert (Hbusy : attempt busyConcurrencyGroups s =
    (Ok (Ok (list_to_set (groups_of running))), s)).
  { apply attempt_eq. unfold busyConcurrencyGroups, wrap, bind. by rewrite Hget. }
  unfold processQueueTick.
  rewrite (bind_ok _ _ _ _ _ (attempt_eq _ _ _ _ (Hget RunStatusQueued))). fold queued.
  destruct queued as [|run rest] eqn:Eq.
  { exists [], s. eexists. split; [reflexivity|]. split; [apply spawns_refl|].
    split; [done|]. split; [done|]. split; [done|]. split; [done|]. split; [constructor|].
    split; [done|]. by split. }
  cbv beta iota.
  rewrite (bind_ok _ _ _ _ _ Hbusy). cbv zeta.
  destruct (dispatchEligible_dispatched (run :: rest) (list_to_set (groups_of running)) s)
    as (l & n & s' & He & [D1 D2 D3 D4 D5 D6] & _ & Hn).
  destruct (Hn Hq Hpres) as [-> Hdb]. exists l, s'. eexists.
  split; [exact (bind_ok _ _ _ _ _ He)|]. split; [done|]. split; [done|]. split; [done|].
  split; [done|]. split; [done|]. split; [done|]. split; [by apply D6|].
  destruct l; simpl; [by split|]. by split.
Qed.

(** after recovery at start no run is left running. A run that was
    running is failed, or queued again when the resume feature and its
    pipeline's resume flag are both on; every other run is untouched. *)
Theorem RecoverOrphanedRuns_none_running `{!OrderBy, !JsonText} (s : svc) :
  quiet s -> ids_ok (sv_db s) ->
  let s' := (RecoverOrphanedRuns s).2 in
  (RecoverOrphanedRuns s).1 = Ok tt /\
  forall id r, db_runs (sv_db s) !! id = Some r ->
    exists r', db_runs (sv_db s') !! id = Some r' /\
      pipelineRunScan.Status r' <> RunStatusRunning /\
      (pipelineRunScan.Status r <> RunStatusRunning -> r' = r) /\
      (pipelineRunScan.Status r = RunStatusRunning ->
         recovered_to s (pipelineRunScan.PipelineID r) (pipelineRunScan.Status r')).
Proof.
  intros Hq Hids s'. set (l := pipelineRunScan.toStorage <$> newest_first (select_runs (fun r =>
    bool_decide (pipelineRunScan.Status r = RunStatusRunning)) (sv_db s))).
  assert (Hget : on_db (GetRunsByStatus RunStatusRunning 0) s = (Ok l, s)).
  { unfold on_db. cbn [get_db svc_has_db]. rewrite GetRunsByStatus_exact by done. by destruct s. }
  assert (Hin : forall run, run ∈ l <-> exists id r, db_runs (sv_db s) !! id = Some r /\
    pipelineRunScan.Status r = RunStatusRunning /\ run = pipelineRunScan.toStorage r).
  { intros run. unfold l. rewrite list_elem_of_fmap. unfold newest_first.
    setoid_rewrite elem_of_order_by. setoid_rewrite elem_of_select_runs.
    setoid_rewrite bool_decide_eq_true. naive_solver. }
  assert (HinID : forall id r, db_runs (sv_db s) !! id = Some r ->
    PipelineRun.ID (pipelineRunScan.toStorage r) = id) by (intros id r Hr; apply (Hids _ _ Hr)).
  destruct (recover_loop l s Hq) as [Hok Hrows].
  { intros run (id & r & Hr & _ & ->)%Hin. rewrite (HinID id r Hr). by eexists. }
  assert (He : RecoverOrphanedRuns s =
    for_each (recover_run (IsFeatureEnabled FeatureResume (sv_features s))) l s).
  { unfold RecoverOrphanedRuns. by rewrite (bind_ok _ _ _ _ _ (attempt_eq _ _ _ _ Hget)). }
  unfold s'. rewrite He. split; [exact Hok|]. intros id r Hr.
  destruct (Hrows id r Hr) as (r' & Hr' & Hsame & Hrec). exists r'. split; [done|].
  destruct (decide (pipelineRunScan.Status r = RunStatusRunning)) as [Hrun|Hnrun].
  - destruct Hrec as (x & (id' & rx & Hx & Hst & ->)%Hin & Hid & Hto).
    { exists (pipelineRunScan.toStorage r). split; [apply Hin; eauto|by apply HinID]. }
    rewrite (HinID id' rx Hx) in Hid. subst id'. simplify_eq.
    split; [by destruct Hto as [->|[-> _]]|]. done.
  - assert (r' = r) as ->; [|done]. apply Hsame. intros x (id' & rx & Hx & Hst & ->)%Hin Hid.
    rewrite (HinID id' rx Hx) in Hid. subst id'. congruence.
Qed.

(** The rows that say how the jobs of a run ended. *)
Definition job_rows `{!OrderBy} (runID : string) (d : db) : list Result.t :=
  to_result ["status"; "errorMessage"] <$>
    glob_rows (task_path ("/pipeline/" ++ runID ++ "/jobs") ++ "*") d.

Definition row_failing (r : Result.t) : Prop :=
  exists st, payload_string "status" r = Some st /\ failing_status st = true.

Lemma scan_statuses_spec rows has skipped :
  match scan_statuses rows has skipped with
  | (RunStatusFailed, msg) => exists l1 r l2, rows = (l1 ++ r :: l2)%list /\
      Forall (fun r => ~ row_failing r) l1 /\ row_failing r /\
      msg = default "" (payload_string "errorMessage" r)
  | (st, msg) => msg = "" /\ Forall (fun r => ~ row_failing r) rows /\
      (st = RunStatusSkipped \/ st = RunStatusSuccess) /\
      (st = RunStatusSkipped <->
        (has = true \/ exists r, r ∈ rows /\ is_Some (payload_string "status" r)) /\
        skipped = true /\
        Forall (fun r => payload_string "status" r = None \/
                         payload_string "status" r = Some "skipped") rows)
  end.
Proof.
  revert has skipped. induction rows as [|r rows IH]; intros has skipped; cbn [scan_statuses].
  - assert (Hnil : ~ exists r : Result.t, r ∈ [] /\ is_Some (payload_string "status" r)).
    { by intros (? & ?%not_elem_of_nil & _). }
    destruct has, skipped; cbn; (split; [done|]); (split; [by apply Forall_nil|]); (split; [by auto|]);
      (split; [intros; first [done|split; [by left|split; [done|by apply Forall_nil]]]
              |intros ([?|?] & ? & _); done]).
  - destruct (payload_string "status" r) as [st|] eqn:Est.
    + destruct (failing_status st) eqn:Ef.
      { exists [], r, rows. split; [done|]. split; [done|]. split; [by exists st|done]. }
      assert (Hnf : ~ row_failing r) by (intros (st' & ? & ?); congruence).
      specialize (IH true (skipped && bool_decide (st = RunStatus_string RunStatusSkipped))).
      destruct (scan_statuses rows true _) as [fin msg].
      assert (Hsk : skipped && bool_decide (st = RunStatus_string RunStatusSkipped) = true <->
        skipped = true /\ st = "skipped").
      { rewrite andb_true_iff, bool_decide_eq_true. done. }
      destruct fin; try (destruct IH as (-> & Hall & Hor & Hiff); split; [done|];
        split; [by constructor|]; split; [done|]; rewrite Hiff, Hsk, Forall_cons, Est;
        split; [intros (_ & (-> & ->) & ?); split; [right; exists r;
           split; [apply elem_of_cons; by left|by rewrite Est]|]; by auto
        |intros (_ & -> & [[?|[= ->]] ?]); by auto]).
      destruct IH as (l1 & x & l2 & -> & H1 & H2 & H3). exists (r :: l1), x, l2.
      split; [done|]. split; [by constructor|done].
    + assert (Hnf : ~ row_failing r) by (intros (st' & ? & ?); congruence).
      specialize (IH has skipped). destruct (scan_statuses rows has skipped) as [fin msg].
      destruct fin; try (destruct IH as (-> & Hall & Hor & Hiff); split; [done|];
        split; [by constructor|]; split; [done|]; rewrite Hiff, Forall_cons, Est;
        split; [intros ([?|(x & ? & ?)] & -> & ?); (split; [|by auto]);
          [by left|right; exists x; by rewrite elem_of_cons; auto]
        |intros ([?|(x & [->|?]%elem_of_cons & Hx)] & -> & [_ ?]); (split; [|by auto]);
          [by left|by rewrite Est in Hx; destruct Hx|right; eauto]]).
      destruct IH as (l1 & x & l2 & -> & H1 & H2 & H3). exists (r :: l1), x, l2.
      split; [done|]. split; [by constructor|done].
Qed.

Lemma determineRunStatus_exact `{!OrderBy, !JsonText} runID d :
  db_faults d = [] ->
  determineRunStatus runID d = (Ok (scan_statuses (job_rows runID d) false true), d).
Proof.
  intros Hf. unfold determineRunStatus. erewrite bind_ok; [|apply attempt_eq, GetAll_no_faults, Hf].
  done.
Qed.

(** the verdict on a run that executed to its end. It is failed exactly
    when some job row has status failure, error or abort, with the message of
    the first such row in path order; skipped exactly when there is none, some row has a status,
    and every status is "skipped"; and a success otherwise. *)
Theorem determineRunStatus_verdict `{!OrderBy, !JsonText} runID d :
  db_faults d = [] ->
  exists st msg, determineRunStatus runID d = (Ok (st, msg), d) /\
    (st = RunStatusFailed \/ st = RunStatusSkipped \/ st = RunStatusSuccess) /\
    (st = RunStatusFailed <-> Exists row_failing (job_rows runID d)) /\
    (forall l1 r l2, job_rows runID d = (l1 ++ r :: l2)%list ->
       Forall (fun r => ~ row_failing r) l1 -> row_failing r ->
       msg = default "" (payload_string "errorMessage" r)) /\
    (st = RunStatusSkipped <->
       (exists r, r ∈ job_rows runID d /\ is_Some (payload_string "status" r)) /\
       Forall (fun r => payload_string "status" r = None \/
                        payload_string "status" r = Some "skipped") (job_rows runID d)).
Proof.
  intros Hf. rewrite determineRunStatus_exact by done.
  pose proof (scan_statuses_spec (job_rows runID d) false true) as Hspec.
  destruct (scan_statuses _ false true) as [st msg]. exists st, msg. split; [done|].
  assert (Hnf : forall r, payload_string "status" r = None \/
    payload_string "status" r = Some "skipped" -> ~ row_failing r).
  { intros r Hr (st' & Hst & Hfail). destruct Hr as [Hr|Hr]; rewrite Hr in Hst; [done|].
    by injection Hst as <-. }
  assert (Hno : Forall (fun r => ~ row_failing r) (job_rows runID d) ->
    ~ Exists row_failing (job_rows runID d)) by (by rewrite Forall_Exists_neg).
  destruct (decide (st = RunStatusFailed)) as [->|Hne].
  - destruct Hspec as (l1 & r & l2 & Heq & H1 & H2 & ->). split; [by left|].
    assert (Hex : Exists row_failing (job_rows runID d)).
    { rewrite Heq. apply Exists_app. right. by left. }
    split; [by split|]. split.
    + intros l1' r' l2' Heq' H1' H2'. rewrite Heq in Heq'.
      assert (r = r') as ->; [|done]. clear -H1 H2 H1' H2' Heq'. revert l1' H1' Heq'.
      induction l1 as [|x l1 IH]; intros [|x' l1'] H1' Heq'; simplify_eq/=; try done.
      * by inversion H1'.
      * by inversion H1.
      * inversion H1; inversion H1'; subst. by eapply IH.
    + split; [done|]. intros [_ Hall]. exfalso. apply Hno; [|done].
      eapply Forall_impl; [exact Hall|exact Hnf].
  - assert (Hsk : msg = "" /\ Forall (fun r => ~ row_failing r) (job_rows runID d) /\
      (st = RunStatusSkipped \/ st = RunStatusSuccess) /\ (st = RunStatusSkipped <->
        (false = true \/ exists r, r ∈ job_rows runID d /\ is_Some (payload_string "status" r)) /\
        true = true /\ Forall (fun r => payload_string "status" r = None \/
                        payload_string "status" r = Some "skipped") (job_rows runID d)))
      by (by destruct st).
    destruct Hsk as (-> & Hall & Hor & Hiff). split; [by right|].
    split; [split; [done|by intros ?%Hno]|]. split.
    + intros l1 r l2 Heq _ Hr. exfalso. apply Hno; [done|]. rewrite Heq.
      apply Exists_app. right. by left.
    + rewrite Hiff. split; [intros ([?|?] & _ & ?); by auto|intros [? ?]; auto].
Qed.

(** What [finalizeExecRun] decides to write. *)
Definition final_outcome `{!OrderBy} (ctxDone : bool) (execErr : option err) (runID : string)
    (d : db) : RunStatus * string :=
  if ctxDone then (RunStatusFailed, "Run stopped by user")
  else match execErr with
       | Some e => (RunStatusFailed, Error e)
       | None => scan_statuses (job_rows runID d) false true
       end.

(** The last write of a run, in a state whose runs and clock are those of [s]. *)
Lemma update_from `{!OrderBy, !JsonText} id row st msg (s s0 : svc) :
  db_runs (sv_db s) !! id = Some row ->
  quiet s0 -> db_runs (sv_db s0) = db_runs (sv_db s) -> db_now (sv_db s0) = db_now (sv_db s) ->
  exists s1, on_db (UpdateRunStatus id st msg) s0 = (Ok tt, s1) /\ quiet s1 /\
    db_runs (sv_db s1) !! id =
      Some (if transition_allowed st (pipelineRunScan.Status row)
            then apply_status st (Unix (db_now (sv_db s))) msg row else row) /\
    forall k, k <> id -> db_runs (sv_db s1) !! k = db_runs (sv_db s) !! k.
Proof.
  intros Hrow Hq0 Hr0 Hn0.
  destruct (UpdateRunStatus_rows id st msg (sv_db s0) Hq0) as [Hf Hrows].
  pose proof (update_known id st msg s0 Hq0) as Hok. rewrite Hr0, Hn0 in *.
  unfold on_db in *. cbn [get_db svc_has_db] in *.
  destruct (UpdateRunStatus id st msg (sv_db s0)) as [r d]. cbn [fst snd] in *.
  exists (set_db d s0). split; [by rewrite Hok by (rewrite Hrow; by eexists)|].
  split; [exact Hf|]. split.
  - cbn [sv_db set_db]. rewrite Hrows, Hrow, bool_decide_true by done. done.
  - intros k Hk. cbn [sv_db set_db]. rewrite Hrows.
    destruct (db_runs (sv_db s) !! k); simpl; [|done]. by rewrite bool_decide_false.
Qed.

(** How a run ends. A cancelled context wins over the runtime's error,
    which wins over the verdict on the job rows; the outcome is written to the
    run's row, if the row may still change, and to no other run's; only a run
    that ended without cancellation or error goes on, from that state, to the
    passed scanner (on success) and to log retention. *)
Theorem finalizeExecRun_outcome `{!UniqueIDs, !OrderBy, !JsonText, !TemplateEngine, !MapOrder}
    (ParseConfig : string -> result Config.t) (s : svc) ctxDone run pipeline execErr row :
  quiet s -> db_runs (sv_db s) !! PipelineRun.ID run = Some row ->
  let outcome := final_outcome ctxDone execErr (PipelineRun.ID run) (sv_db s) in
  exists s1, quiet s1 /\
    finalizeExecRun ParseConfig ctxDone run pipeline execErr s =
      (if ctxDone || bool_decide (is_Some execErr) then (Ok tt, s1)
       else ((if decide (outcome.1 = RunStatusSuccess)
              then scanPassedDownstreams ParseConfig pipeline run else ret tt) ;;;
             on_db (pruneOldRuns ParseConfig pipeline)) s1) /\
    db_runs (sv_db s1) !! PipelineRun.ID run =
      Some (if transition_allowed outcome.1 (pipelineRunScan.Status row)
            then apply_status outcome.1 (Unix (db_now (sv_db s))) outcome.2 row else row) /\
    forall id, id <> PipelineRun.ID run -> db_runs (sv_db s1) !! id = db_runs (sv_db s) !! id.
Proof.
  intros Hq Hrow. unfold final_outcome, finalizeExecRun. set (id := PipelineRun.ID run) in *.
  pose proof (fun st msg s0 => update_from id row st msg s s0 Hrow) as Hupd.
  assert (Hign : forall st msg s0 s1, on_db (UpdateRunStatus id st msg) s0 = (Ok tt, s1) ->
    ignore (on_db (UpdateRunStatus id st msg)) s0 = (Ok tt, s1)).
  { intros st msg s0 s1 E. unfold ignore. by rewrite E. }
  destruct ctxDone; cbn [orb].
  - destruct (abort_tasks_same id s Hq) as (Ha & Hb & Hc & _ & _).
    assert (Hn : db_now (sv_db (abort_tasks id s).2) = db_now (sv_db s)).
    { unfold abort_tasks, ignore, on_db, UpdateStatusForPrefix.
      rewrite decide_False by done. cbn [get_db svc_has_db]. unfold wrap, bind.
      rewrite update_no_faults by done. done. }
    destruct (abort_tasks id s) as [r s0] eqn:E. cbn [fst snd] in *. subst r.
    destruct (Hupd RunStatusFailed "Run stopped by user" s0 Hb Hc Hn) as (s1 & He & Hq1 & G1 & G2).
    exists s1. split; [done|]. split; [|by split].
    rewrite (bind_ok _ _ _ _ _ E). by apply Hign.
  - destruct execErr as [e|].
    + destruct (Hupd RunStatusFailed (Error e) s Hq eq_refl eq_refl) as (s1 & He & Hq1 & G1 & G2).
      exists s1. rewrite bool_decide_true by (by eexists). split; [done|].
      split; [by apply Hign|by split].
    + rewrite bool_decide_false by (by intros [? ?]).
      set (o := scan_statuses (job_rows id (sv_db s)) false true).
      destruct (Hupd o.1 o.2 s Hq eq_refl eq_refl) as (s1 & He & Hq1 & G1 & G2).
      exists s1. split; [done|]. split; [|by split].
      assert (Hd : on_db (determineRunStatus id) s = (Ok o, s)).
      { unfold on_db. cbn [get_db svc_has_db]. rewrite determineRunStatus_exact by done.
        by destruct s. }
      rewrite (bind_ok _ _ _ _ _ Hd). by rewrite (bind_ok _ _ _ _ _ (attempt_eq _ _ _ _ He)).
Qed.

(** ** Witnesses *)
#[local] Existing Instances counter_ids stable_order some_map_order ex_json_text ex_engine.

Definition ex_parse : string -> result Config.t := fun _ => Err (EMsg "not YAML").
Definition ex_actor : RequestActor.t := RequestActor.mk "" "".

(** A run in a goroutine and a synchronous one, both registered. *)
Definition ex_row : pipelineScan.t := pipelineScan.mk "p1" "demo" "" "" "" 0 0 "" "" "" 0 0 0.
Definition ex_service : svc :=
  NewExecutionService (set_pipelines (fun _ => {["p1" := ex_row]}) empty_db) 2 5 AllFeatures.
Definition ex_serve (l : list event) (s : svc) : svc := foldl (fun s ev => serve ex_parse ev s) s l.
Definition ex_history : list event :=
  [EvTrigger "req" ex_actor (pipelineScan.toStorage ex_row) [] []; EvPhase 0 None;
   EvSync ex_actor "demo" []; EvSyncPhase 1 None].
Lemma ex_serve_steps l s : slots_ok s -> steps s (ex_serve l s).
Proof.
  revert s. induction l as [|ev l IH]; intros s Hok; [done|].
  pose proof (serve_steps ex_parse ev s Hok) as Hs. etrans; [exact Hs|]. by apply IH, (steps_ok _ _ Hs).
Qed.

Lemma service_accounting_witness :
  let s := ex_serve ex_history ex_service in
  sv_stopRegistry s = {["0" := 0; "1" := 1]} /\ size (sv_goroutines s) = 1 /\ sv_inFlight s = 1%Z /\
  (exists y, sv_syncs s !! 1 = Some y /\ PipelineRun.ID (y_run y) = "1") /\
  steps ex_service (serve ex_parse (EvStop "1") s).
Proof.
  intros s. assert (Hreg : sv_stopRegistry s = {["0" := 0; "1" := 1]}) by (vm_compute; reflexivity).
  assert (Hsize : size (sv_goroutines s) = 1) by (vm_compute; reflexivity).
  destruct (service_accounting ex_parse (set_pipelines (fun _ => {["p1" := ex_row]}) empty_db) 2 5 AllFeatures s)
    as (Hcount & Hown & _ & Hev); [apply ex_serve_steps, slots_ok_New|].
  split; [exact Hreg|]. split; [exact Hsize|]. split; [rewrite Hcount, Hsize; reflexivity|].
  split; [|apply Hev]. destruct (Hown "1" 1) as [(p & Hp & _)|Hy]; [rewrite Hreg; reflexivity| |exact Hy].
  vm_compute in Hp. discriminate Hp.
Defined.

(** A stopped synchronous run cannot write its end, nor read how its jobs ended:
    when the runtime returns without an error, the request answers exit code 0. *)
Lemma stopped_sync_run_exits_zero run pipeline d :
  (finalizeSyncRun ex_parse true run pipeline None d).1 = Ok (0%Z, "") /\
  db_runs (finalizeSyncRun ex_parse true run pipeline None d).2 = db_runs d.
Proof.
  destruct d. unfold finalizeSyncRun, pruneOldRuns. cbn. destruct (negb _); split; reflexivity.
Qed.

Lemma processQueueTick_dispatches_witness :
  exists s' answer, processQueueTick ex_svc = (Ok answer, s') /\ spawns ex_svc s' [].
Proof.
  destruct (processQueueTick_dispatches ex_svc) as
    (l & s' & answer & He & Hsp & Hsub & _ & _ & Hfree & _).
  - reflexivity.
  - vm_compute. repeat constructor. by eexists.
  - exists s', answer. split; [exact He|]. destruct l as [|run l]; [exact Hsp|].
    exfalso. apply Forall_cons_1 in Hfree as [Hrun _]. apply Hrun.
    assert (Hin : run ∈ run :: l) by (apply elem_of_cons; by left).
    eapply elem_of_sublist in Hin; [|exact Hsub]. revert Hin. clear. vm_compute.
    intros ->%list_elem_of_singleton. split; done.
Defined.

Lemma RecoverOrphanedRuns_none_running_witness :
  (RecoverOrphanedRuns ex_svc).1 = Ok tt /\
  exists r', db_runs (sv_db (RecoverOrphanedRuns ex_svc).2) !! "a" = Some r' /\
    pipelineRunScan.Status r' <> RunStatusRunning.
Proof.
  destruct (RecoverOrphanedRuns_none_running ex_svc) as [Hok Hrows];
    [reflexivity|exact ex_svc_ids|].
  split; [exact Hok|].
  destruct (Hrows "a" (ex_active "a" RunStatusRunning) eq_refl) as (r' & Hr' & Hst & _).
  exists r'. split; [exact Hr'|exact Hst].
Defined.

Lemma determineRunStatus_verdict_witness :
  exists msg, determineRunStatus "r1" (sv_db ex_svc) = (Ok (RunStatusSuccess, msg), sv_db ex_svc).
Proof.
  destruct (determineRunStatus_verdict "r1" (sv_db ex_svc)) as (st & msg & He & Hor & Hf & _ & Hs);
    [reflexivity|].
  exists msg. destruct Hor as [-> |[-> | ->]]; [| |exact He]; exfalso.
  - pose proof (proj1 Hf eq_refl) as Hex. by apply Exists_nil in Hex.
  - destruct (proj1 Hs eq_refl) as [(r & Hr & _) _]. by apply not_elem_of_nil in Hr.
Defined.

Lemma finalizeExecRun_outcome_witness :
  exists s1, finalizeExecRun ex_parse true (pipelineRunScan.toStorage (ex_active "a" RunStatusRunning))
      (ex_mode_pipeline "") None ex_svc = (Ok tt, s1) /\
    (pipelineRunScan.Status <$> db_runs (sv_db s1) !! "a") = Some RunStatusFailed.
Proof.
  destruct (finalizeExecRun_outcome ex_parse ex_svc true
    (pipelineRunScan.toStorage (ex_active "a" RunStatusRunning)) (ex_mode_pipeline "") None
    (ex_active "a" RunStatusRunning) eq_refl eq_refl) as (s1 & _ & He & Hr & _).
  exists s1. split; [exact He|].
  change (db_runs (sv_db s1) !! "a" =
    Some (apply_status RunStatusFailed 0 "Run stopped by user" (ex_active "a" RunStatusRunning)))
    in Hr. by rewrite Hr.
Defined.
