(* ===== verification/Drain.v ===== *)
(** * The queue drains (server/execution.go)

    A liveness property of the execution service over infinite schedules. A
    schedule is a sequence of events of [Execution]; it is fair when the queue
    processor passes again and again and every goroutine is scheduled again and
    again. [service_becomes_idle]: without new work, without failing statements
    and without triggers between the jobs, every fair schedule empties the queue
    and ends every run. *)
From S2P Require Import Prelude Storage Json Db GoStrings Runs Tasks Pipelines Config.
From S2P Require Import Server Admission Passed Execution.
Open Scope string_scope.

(** ** Writes that bring no work *)

(** Runs may disappear or end; none is added, queued or started. *)
Definition settled_row (r r' : pipelineRunScan.t) : Prop :=
  pipelineRunScan.PipelineID r' = pipelineRunScan.PipelineID r /\
  (pipelineRunScan.Status r' = pipelineRunScan.Status r \/
   IsActive (pipelineRunScan.Status r') = false).
Definition no_new_work (d d' : db) : Prop :=
  db_faults d = [] -> ids_ok d ->
  db_faults d' = [] /\ ids_ok d' /\ db_pipelines d' = db_pipelines d /\
  forall id r', db_runs d' !! id = Some r' ->
    exists r, db_runs d !! id = Some r /\ settled_row r r'.

Lemma settled_refl r : settled_row r r.
Proof. by split; [|left]. Qed.
Lemma settled_row_trans r1 r2 r3 : settled_row r1 r2 -> settled_row r2 r3 -> settled_row r1 r3.
Proof. intros [P1 S1] [P2 S2]. split; [congruence|]. destruct S2 as [->|]; [done|by right]. Qed.

#[export] Instance no_new_work_preorder : PreOrder no_new_work.
Proof.
  split.
  - intros d Hf Hi. split_and!; try done. intros id r Hr. exists r. by split; [|apply settled_refl].
  - intros d1 d2 d3 H12 H23 Hf Hi. destruct (H12 Hf Hi) as (F2 & I2 & P2 & R2).
    destruct (H23 F2 I2) as (F3 & I3 & P3 & R3). split_and!; try done; [congruence|].
    intros id r3 (r2 & (r1 & ? & S1)%R2 & S2)%R3. exists r1. split; [done|by eapply settled_row_trans].
Qed.

(** Without faults a statement is its effect. *)
Lemma no_new_work_exec {A} (f : ST db A) : preserves no_new_work f -> preserves no_new_work (exec f).
Proof. intros Hf d Hq Hi. rewrite exec_no_faults by done. by apply Hf. Qed.

Lemma no_new_work_same_runs d d' :
  db_runs d' = db_runs d -> db_pipelines d' = db_pipelines d -> db_faults d' = db_faults d ->
  no_new_work d d'.
Proof.
  intros Hr Hp Hf Hq Hi. unfold ids_ok. rewrite Hr, Hf. split_and!; try done.
  intros id r Hrow. exists r. by split; [|apply settled_refl].
Qed.

Section writes.
Context `{!OrderBy, !JsonText}.

Lemma UpdateRunStatus_settles runID st msg :
  IsActive st = false -> preserves no_new_work (UpdateRunStatus runID st msg).
Proof.
  intros Hst d. destruct (decide (db_faults d = [])) as [Hf|Hf]; [|by intros ?].
  rewrite UpdateRunStatus_exact by done. destruct (db_runs d !! runID) as [r|] eqn:Hr; cbn; [|reflexivity].
  destruct (transition_allowed _ _); [|reflexivity]. intros _ Hi. split; [done|]. split; [|split; [done|]].
  - apply map_Forall_insert_2; [|done]. by apply (Hi runID r).
  - cbn. intros id r' [[<- <-]|[_ Hr']]%lookup_insert_Some.
    + exists r. split; [done|]. split; [done|by right].
    + exists r'. by repeat split; [|left].
Qed.

Lemma UpdateStatusForPrefix_settles prefix l st : preserves no_new_work (UpdateStatusForPrefix prefix l st).
Proof.
  unfold UpdateStatusForPrefix. case_match; [apply preserves_ret; apply _|].
  apply preserves_wrap. apply no_new_work_exec. intros d. by apply no_new_work_same_runs.
Qed.

Lemma delete_runs_exec P d : no_new_work d (delete_runs P d).
Proof.
  intros Hf Hi.
  split; [done|]. split; [|split; [done|]].
  - intros id r Hr. pose proof (lookup_delete_runs P d id) as Hl. rewrite Hr in Hl.
    destruct (db_runs d !! id) as [r0|] eqn:E; [|done]. destruct (P r0); [done|].
    injection Hl as ->. by apply (Hi id).
  - intros id r Hr. pose proof (lookup_delete_runs P d id) as Hl. rewrite Hr in Hl. destruct (db_runs d !! id) as [r0|] eqn:E; [|done]. destruct (P r0); [done|].
    injection Hl as ->. exists r0. by split; [|apply settled_refl].
Qed.

Lemma pruneOldRuns_settles ParseConfig pipeline : preserves no_new_work (pruneOldRuns ParseConfig pipeline).
Proof.
  unfold pruneOldRuns. case_match; [apply preserves_ret; apply _|].
  destruct (ParseConfig _) as [cfg|]; [|apply preserves_ret; apply _].
  case_match; [apply preserves_ret; apply _|]. destruct (minRetentionLimits _) as [builds days].
  case_match; [apply preserves_ret; apply _|].
  apply preserves_bind; [apply _|apply preserves_gets; apply _|intros now].
  apply preserves_ignore. unfold PruneRunsByPipeline. apply preserves_bind; [apply _| |intros _].
  - case_match; [|apply preserves_ret; apply _]. apply preserves_wrap, no_new_work_exec.
    intros d. exact (delete_runs_exec _ d).
  - case_match; [|apply preserves_ret; apply _]. apply preserves_wrap, no_new_work_exec.
    intros d. exact (delete_runs_exec _ d).
Qed.
End writes.

(** ** What is left alone

    Pipelines none of whose jobs waits for a job of another run. *)
Section undisturbed.
Context (ParseConfig : string -> result Config.t).
Definition waits_for_none (content : string) : Prop :=
  forall cfg, ParseConfig content = Ok cfg -> buildPassedDependents cfg = ∅.
Definition independent (s : svc) : Prop :=
  (forall id row, db_pipelines (sv_db s) !! id = Some row -> waits_for_none (pipelineScan.Content row)) /\
  (forall g p, sv_goroutines s !! g = Some p -> waits_for_none (Pipeline.Content (g_pipeline p))).

(** No synchronous request comes or goes, and the pipelines stay independent. *)
Definition undisturbed (s s' : svc) : Prop :=
  quiet s -> quiet s' /\ sv_syncs s' = sv_syncs s /\ (independent s -> independent s').
#[export] Instance undisturbed_preorder : PreOrder undisturbed.
Proof.
  split; [done|]. intros s1 s2 s3 H12 H23 Hq. destruct (H12 Hq) as (Hq2 & Hy2 & Hi2).
  destruct (H23 Hq2) as (Hq3 & Hy3 & Hi3). split_and!; [done|congruence|auto].
Qed.

(** Writes that leave the pipelines alone. *)
Definition same_pipelines (d d' : db) : Prop :=
  db_faults d = [] -> db_faults d' = [] /\ db_pipelines d' = db_pipelines d.
Lemma undisturbed_db s d : same_pipelines (sv_db s) d -> undisturbed s (set_db d s).
Proof.
  intros Hd Hq. destruct (Hd Hq) as [Hq' Hp]. split_and!; [done..|]. intros [Hi1 Hi2]. split; [|done].
  cbn. rewrite Hp. exact Hi1.
Qed.
Lemma undisturbed_on_db {A} (m : ST db A) : preserves same_pipelines m -> preserves undisturbed (on_db m).
Proof.
  intros Hm s. unfold on_db. cbn. specialize (Hm (sv_db s)). destruct (m (sv_db s)) as [a d].
  by apply undisturbed_db.
Qed.
Lemma query_keeps_pipelines {A} (f : db -> A) msg : preserves same_pipelines (wrap msg (query f)).
Proof. apply preserves_wrap. intros d Hq. by rewrite query_no_faults. Qed.
Lemma UpdateRunStatus_same `{!OrderBy, !JsonText} id st msg : preserves same_pipelines (UpdateRunStatus id st msg).
Proof.
  intros d Hq. split; [|by apply UpdateRunStatus_pipelines]. rewrite UpdateRunStatus_exact by done.
  by repeat case_match.
Qed.

(** A goroutine that changes its phase, or ends. *)
Lemma undisturbed_goroutines s s' :
  sv_db s' = sv_db s -> sv_syncs s' = sv_syncs s ->
  (forall g p, sv_goroutines s' !! g = Some p ->
     exists g0 p0, sv_goroutines s !! g0 = Some p0 /\ g_pipeline p = g_pipeline p0) -> undisturbed s s'.
Proof.
  intros Hdb Hy Hback Hq. unfold quiet. rewrite Hdb. split_and!; [done..|]. intros [Hi1 Hi2].
  split; [by rewrite Hdb|]. intros g p (g0 & p0 & Hg & ->)%Hback. by eapply Hi2.
Qed.
Lemma undisturbed_phase g p ph s : sv_goroutines s !! g = Some p -> undisturbed s (set_phase g p ph s).
Proof.
  intros Hg. apply undisturbed_goroutines; [done..|]. cbn.
  intros g' p' [[<- <-]|[_ Hg']]%lookup_insert_Some; [by exists g, p|by exists g', p'].
Qed.
Lemma undisturbed_register g p s : sv_goroutines s !! g = Some p -> undisturbed s (register g p s).
Proof.
  intros Hg. apply undisturbed_goroutines; [done..|]. cbn.
  intros g' p' [[<- <-]|[_ Hg']]%lookup_insert_Some; [by exists g, p|by exists g', p'].
Qed.
Lemma undisturbed_cleanup g p s : undisturbed s (cleanup g p s).
Proof. apply undisturbed_goroutines; [done..|]. cbn. intros g' p' [_ Hg']%lookup_delete_Some. by exists g', p'. Qed.

Section tick.
Context `{!OrderBy, !JsonText}.

Lemma dispatchQueuedRun_undisturbed run : preserves undisturbed (dispatchQueuedRun run).
Proof.
  intros s Hq. revert Hq. unfold dispatchQueuedRun, bind at 1, attempt.
  change (undisturbed s (match (let '(r, s0) := on_db (GetPipeline (PipelineRun.PipelineID run)) s in (Ok r, s0)) with
    | (Ok a, s0) => (match a with
        | Err _ => ignore (on_db (UpdateRunStatus (PipelineRun.ID run) RunStatusFailed "Pipeline not found during queue dispatch"))
        | Ok pipeline => let! opts := buildQueuedExecOptions run in dispatchRun pipeline run opts end) s0
    | (Err e, s0) => (Err e, s0) end).2).
  intros Hq. destruct (GetPipeline_quiet (PipelineRun.PipelineID run) s Hq) as [Hget Hnone]. rewrite Hget.
  destruct (db_pipelines (sv_db s) !! PipelineRun.PipelineID run) as [row|] eqn:Hrow.
  - unfold buildQueuedExecOptions, dispatchRun, bind, gets, modify, ret. cbn. split_and!; [done..|].
    intros [Hi1 Hi2]. split; [done|]. cbn. intros g p [[<- <-]|[_ Hg]]%lookup_insert_Some; [|by eapply Hi2].
    cbn. by eapply (Hi1 _ row).
  - destruct (Hnone eq_refl) as [e ->]. revert Hq. apply preserves_ignore, undisturbed_on_db, UpdateRunStatus_same.
Qed.
Lemma dispatchEligible_undisturbed runs busy : preserves undisturbed (dispatchEligible runs busy).
Proof.
  revert busy. induction runs as [|run rest IH]; intros busy; cbn [dispatchEligible]; [by apply preserves_ret|].
  apply preserves_bind; [apply _|by apply preserves_gets|intros free].
  case_match; [by apply preserves_ret|]. case_match; [apply IH|].
  apply preserves_bind; [apply _|apply dispatchQueuedRun_undisturbed|intros _].
  apply preserves_bind; [apply _|apply IH|intros n; by apply preserves_ret].
Qed.
Lemma processQueueTick_undisturbed : preserves undisturbed processQueueTick.
Proof.
  assert (Hread : forall st, preserves undisturbed (on_db (GetRunsByStatus st 0)))
    by (intros st; apply undisturbed_on_db, query_keeps_pipelines).
  unfold processQueueTick, busyConcurrencyGroups.
  apply preserves_bind; [apply _|by apply preserves_attempt|].
  intros [[|run runs]|e]; [by apply preserves_ret| |by apply preserves_ret].
  apply preserves_bind; [apply _| |intros busy].
  - apply preserves_attempt, preserves_bind; [apply _|by apply preserves_wrap|intros l; by apply preserves_ret].
  - apply preserves_bind; [apply _|apply dispatchEligible_undisturbed|intros n; by apply preserves_ret].
Qed.
End tick.
End undisturbed.

(** ** A service at work *)
Definition queued_in (s : svc) : gset string :=
  dom (filter (fun kv => pipelineRunScan.Status kv.2 = RunStatusQueued) (db_runs (sv_db s))).

Lemma elem_of_queued_in id s :
  id ∈ queued_in s <-> exists r, db_runs (sv_db s) !! id = Some r /\
    pipelineRunScan.Status r = RunStatusQueued.
Proof.
  unfold queued_in. rewrite elem_of_dom. unfold is_Some. setoid_rewrite map_lookup_filter_Some. done.
Qed.

Definition in_flight (ph : phase) : bool :=
  match ph with PhRunning | PhExecuted _ => true | _ => false end.

(** Some goroutine is executing the run. *)
Definition held (s : svc) (id : string) : Prop :=
  exists g p, sv_goroutines s !! g = Some p /\ PipelineRun.ID (g_run p) = id /\
    in_flight (g_phase p) = true.

(** No statement fails, there are slots, queued runs have their pipeline, and
    a run that is recorded as running is being executed, as it is after the
    recovery at start; no synchronous run is under way. *)
Record ready (s : svc) : Prop := {
  ready_slots : slots_ok s;
  ready_quiet : quiet s;
  ready_ids : ids_ok (sv_db s);
  ready_max : (0 < sv_maxInFlight s)%Z;
  ready_syncs : sv_syncs s = ∅;
  ready_present : forall id r, db_runs (sv_db s) !! id = Some r ->
    pipelineRunScan.Status r = RunStatusQueued ->
    is_Some (db_pipelines (sv_db s) !! pipelineRunScan.PipelineID r);
  ready_held : forall id r, db_runs (sv_db s) !! id = Some r ->
    pipelineRunScan.Status r = RunStatusRunning -> held s id }.

(** What an event does that brings no work. [g] is the goroutine it moves. *)
Record served (moved : option nat) (s s' : svc) : Prop := {
  served_ready : ready s';
  served_queue : queued_in s' ⊆ queued_in s;
  served_next : sv_next s <= sv_next s';
  served_others : forall g, g < sv_next s -> moved <> Some g ->
    sv_goroutines s' !! g = sv_goroutines s !! g;
  served_new : forall g p, sv_next s <= g -> sv_goroutines s' !! g = Some p ->
    g_phase p = PhStart /\ PipelineRun.ID (g_run p) ∈ queued_in s';
  served_born : sv_next s < sv_next s' ->
    exists g p, sv_next s <= g /\ sv_goroutines s' !! g = Some p }.

Lemma no_new_work_set_db s d :
  ready s -> no_new_work (sv_db s) d -> ready (set_db d s) /\ queued_in (set_db d s) ⊆ queued_in s.
Proof.
  intros [[S1 S2 S3 S4] Q I M Y P H] Hd. destruct (Hd Q I) as (Q' & I' & P' & R').
  assert (Hback : forall id r', db_runs d !! id = Some r' -> IsActive (pipelineRunScan.Status r') = true ->
    exists r, db_runs (sv_db s) !! id = Some r /\ pipelineRunScan.Status r = pipelineRunScan.Status r' /\
      pipelineRunScan.PipelineID r' = pipelineRunScan.PipelineID r).
  { intros id r' Hr' Hst. destruct (R' id r' Hr') as (r & Hr & Hp & [He|He]); [by exists r|congruence]. }
  split.
  - split; try done; cbn; intros id r' Hr' Hs;
      destruct (Hback id r' Hr' ltac:(by rewrite Hs)) as (r & Hr & Hst & Hp); rewrite Hs in Hst.
    + rewrite P', Hp. by eapply P.
    + exact (H id r Hr Hst).
  - intros id (r' & Hr' & Hs)%elem_of_queued_in. apply elem_of_queued_in.
    destruct (Hback id r' Hr' ltac:(by rewrite Hs)) as (r & Hr & Hst & _). exists r. by rewrite Hst.
Qed.

(** An event that only writes. *)
Lemma served_set_db moved s d : ready s -> no_new_work (sv_db s) d -> served moved s (set_db d s).
Proof.
  intros Hr Hd. destruct (no_new_work_set_db s d Hr Hd) as [Hr' Hq]. split; try done.
  - intros g p Hg Hp. cbn in Hp. apply (slots_fresh _ (ready_slots _ Hr)) in Hp. lia.
  - cbn. lia.
Qed.

Lemma served_refl moved s : ready s -> served moved s s.
Proof.
  intros Hr. pose proof (served_set_db moved s (sv_db s) Hr (reflexivity _)) as Hs.
  by replace (set_db (sv_db s) s) with s in Hs by by destruct s.
Qed.

(** A goroutine that moves on, its run's row not left running behind it. *)
Lemma served_phase g p ph s :
  ready s -> sv_goroutines s !! g = Some p -> ph <> PhStart ->
  in_flight ph = true \/ in_flight (g_phase p) = false \/
    (forall r, db_runs (sv_db s) !! PipelineRun.ID (g_run p) = Some r ->
       pipelineRunScan.Status r <> RunStatusRunning) ->
  served (Some g) s (set_phase g p ph s).
Proof.
  intros [S Q I M Y P H] Hg Hph Hc. pose proof (slots_fresh _ S) as Hfresh. split; try done.
  - split; try done; [by apply set_phase_ok|].
    intros id r Hr Hst. destruct (H id r Hr Hst) as (g' & p' & Hg' & Hid & Hf). unfold held. cbn.
    destruct (decide (g = g')) as [<-|Hne].
    + simplify_eq. exists g. rewrite lookup_insert_eq. eexists. split; [done|]. cbn. split; [done|].
      destruct Hc as [?|[?|Hc]]; [done|congruence|]. by destruct (Hc r Hr).
    + exists g', p'. by rewrite lookup_insert_ne.
  - intros g' Hlt Hne. cbn. rewrite lookup_insert_ne; [done|]. congruence.
  - cbn. intros g' p' Hle [[<- <-]|[_ Hg']]%lookup_insert_Some.
    + apply Hfresh in Hg. lia.
    + apply Hfresh in Hg'. lia.
  - cbn. lia.
Qed.

Lemma served_trans g s1 s2 s3 :
  sv_next s2 = sv_next s1 -> served (Some g) s1 s2 -> served (Some g) s2 s3 -> served (Some g) s1 s3.
Proof.
  intros Hn [A1 A2 A3 A4 A5 A6] [B1 B2 B3 B4 B5 B6]. rewrite Hn in *. split; try done.
  - by etrans.
  - intros g' Hlt Hne. rewrite B4 by done. by apply A4.
Qed.

Lemma served_register g p s :
  ready s -> sv_goroutines s !! g = Some p -> g_phase p = PhStart ->
  served (Some g) s (register g p s).
Proof.
  intros Hr Hg Hph.
  assert (Hs : served (Some g) s (set_phase g p PhRegistered s))
    by (apply served_phase; [done..|right; left; by rewrite Hph]).
  destruct Hs as [[S Q I M Y P H] B C D E F]. split; try done. split; try done.
  by apply register_ok; [|apply Hr].
Qed.

Lemma served_cleanup g p s :
  ready s -> sv_goroutines s !! g = Some p -> g_phase p = PhFinished ->
  served (Some g) s (cleanup g p s).
Proof.
  intros [S Q I M Y P H] Hg Hph. pose proof (slots_fresh _ S) as Hfresh. split; try done.
  - split; try done; [by apply cleanup_ok|].
    intros id r Hr Hst. destruct (H id r Hr Hst) as (g' & p' & Hg' & Hid & Hf). exists g', p'. cbn.
    rewrite lookup_delete_ne; [done|]. intros <-. simplify_eq. by rewrite Hph in Hf.
  - intros g' Hlt Hne. cbn. rewrite lookup_delete_ne; [done|]. congruence.
  - cbn. intros g' p' Hle [_ Hg']%lookup_delete_Some. apply Hfresh in Hg'. lia.
  - cbn. lia.
Qed.

(** ** What each event does *)

(** Events that bring no work: passes of the queue processor, phases of the
    goroutines, stops, and writes of others to the store. *)
Inductive no_arrival (s : svc) : event -> Prop :=
  | no_arrival_tick : no_arrival s EvTick
  | no_arrival_phase g e : no_arrival s (EvPhase g e)
  | no_arrival_sync g e : no_arrival s (EvSyncPhase g e)
  | no_arrival_stop id : no_arrival s (EvStop id)
  | no_arrival_store d : no_new_work (sv_db s) d -> no_arrival s (EvStore d).

Definition moved_by (ev : event) : option nat :=
  match ev with EvPhase g _ => Some g | _ => None end.

Definition phase_rank (ph : phase) : nat :=
  match ph with PhStart => 5 | PhRegistered => 4 | PhRunning => 3 | PhExecuted _ => 2 | PhFinished => 1 end.
Definition rank (s : svc) (g : nat) : nat :=
  match sv_goroutines s !! g with Some p => phase_rank (g_phase p) | None => 0 end.

Section events.
Context `{!UniqueIDs, !OrderBy, !JsonText, !TemplateEngine, !MapOrder}.
Context (ParseConfig : string -> result Config.t).

Lemma scan_statuses_settled l a b : IsActive (scan_statuses l a b).1 = false.
Proof.
  revert a b. induction l as [|r l IH]; intros a b; cbn [scan_statuses]; [by destruct (_ && _)|].
  destruct (payload_string _ _); [|done]. by destruct (failing_status _).
Qed.

Lemma UpdateRunStatus_settled runID st msg d :
  db_faults d = [] -> IsActive st = false ->
  forall r, db_runs (UpdateRunStatus runID st msg d).2 !! runID = Some r ->
    IsActive (pipelineRunScan.Status r) = false.
Proof.
  intros Hf Hst r. rewrite UpdateRunStatus_exact by done.
  destruct (db_runs d !! runID) as [r0|] eqn:Hr; cbn; [|by rewrite Hr].
  destruct (transition_allowed _ _) eqn:Ht; cbn.
  - rewrite lookup_insert_eq. by intros [= <-].
  - rewrite Hr. intros [= <-]. unfold transition_allowed in Ht. by apply orb_false_iff in Ht as [_ ?].
Qed.

(** However a run ends, its row is not left active. *)
Lemma finalize_settles (s : svc) ctxDone run pipeline execErr :
  waits_for_none ParseConfig (Pipeline.Content pipeline) -> quiet s ->
  exists d, finalizeExecRun ParseConfig ctxDone run pipeline execErr s = (Ok tt, set_db d s) /\
    no_new_work (sv_db s) d /\
    (ids_ok (sv_db s) -> forall r, db_runs d !! PipelineRun.ID run = Some r ->
       IsActive (pipelineRunScan.Status r) = false).
Proof.
  intros Hno Hq. unfold finalizeExecRun. set (id := PipelineRun.ID run).
  destruct ctxDone.
  - unfold abort_tasks, bind, ignore, on_db. cbn [get_db put_db svc_has_db].
    pose proof (UpdateStatusForPrefix_settles (run_prefix id) ["pending"; "running"] "aborted" (sv_db s)) as HW1.
    destruct (UpdateStatusForPrefix _ _ _ _) as [r1 d1]. cbn [snd sv_db set_db] in *.
    pose proof (UpdateRunStatus_settles id RunStatusFailed "Run stopped by user" eq_refl d1) as HW2.
    pose proof (UpdateRunStatus_settled id RunStatusFailed "Run stopped by user" d1) as HW3.
    destruct (UpdateRunStatus _ _ _ _) as [r2 d2]. exists d2. split; [done|]. split; [by etrans|].
    intros Hi. apply HW3; [|done]. by apply HW1.
  - destruct execErr as [e|].
    + unfold ignore, on_db. cbn [get_db put_db svc_has_db].
      pose proof (UpdateRunStatus_settles id RunStatusFailed (Error e) eq_refl (sv_db s)) as HW2.
      pose proof (UpdateRunStatus_settled id RunStatusFailed (Error e) (sv_db s) Hq eq_refl) as HW3.
      destruct (UpdateRunStatus _ _ _ _) as [r2 d2]. by exists d2.
    + unfold bind at 1, on_db at 1. cbn [get_db put_db svc_has_db].
      rewrite determineRunStatus_exact by done. set (out := scan_statuses _ _ _).
      assert (Hout : IsActive out.1 = false) by apply scan_statuses_settled.
      unfold bind at 1, attempt, on_db at 1. cbn [get_db put_db svc_has_db sv_db set_db].
      pose proof (UpdateRunStatus_settles id out.1 out.2 Hout (sv_db s)) as HW2.
      pose proof (UpdateRunStatus_settled id out.1 out.2 (sv_db s) Hq Hout) as HW3.
      destruct (UpdateRunStatus id out.1 out.2 (sv_db s)) as [r2 d2]. cbn [snd] in *.
      destruct r2 as [u|e]; [|by exists d2].
      assert (Hscan : forall s, (if decide (out.1 = RunStatusSuccess)
        then scanPassedDownstreams ParseConfig pipeline run else ret tt) s = (Ok tt, s)).
      { intros s0. destruct (decide (out.1 = RunStatusSuccess)); [|done].
        unfold scanPassedDownstreams. destruct (Pipeline.Paused pipeline); [done|].
        destruct (ParseConfig _) as [cfg|] eqn:Hp; [|done].
        destruct (decide (completedJobNames run cfg = [])); [done|].
        rewrite decide_True; [done|]. by eapply Hno. }
      unfold bind at 1. rewrite Hscan. unfold on_db. cbn [get_db put_db svc_has_db sv_db set_db].
      pose proof (pruneOldRuns_settles ParseConfig pipeline d2) as HW4.
      assert (Hok : (pruneOldRuns ParseConfig pipeline d2).1 = Ok tt).
      { unfold pruneOldRuns. destruct (negb _); [done|]. destruct (ParseConfig _); [|done].
        destruct (decide (Config.Jobs _ = [])); [done|]. destruct (minRetentionLimits _). destruct (_ && _); [done|]. unfold bind, time_Now, gets, ignore.
        by destruct (PruneRunsByPipeline _ _ _ _). }
      destruct (pruneOldRuns _ _ _) as [r3 d3]. cbn in Hok. subst r3. exists d3. split; [done|].
      cbn [snd] in *. split; [by etrans|]. intros Hi r Hr.
      destruct (HW2 Hq Hi) as (F & I & _). destruct (HW4 F I) as (_ & _ & _ & Hback).
      destruct (Hback _ _ Hr) as (r0 & Hr0 & _ & [->|?]); [|done]. by apply HW3.
Qed.

(** A phase of a goroutine brings it closer to its end; registered, it takes
    its run out of the queue. *)
Lemma phase_served g e p s :
  independent ParseConfig s -> ready s -> sv_goroutines s !! g = Some p ->
  let s' := serve ParseConfig (EvPhase g e) s in
  served (Some g) s s' /\ rank s' g < rank s g /\
  (g_phase p = PhStart -> exists p', sv_goroutines s' !! g = Some p' /\ g_run p' = g_run p /\
     g_phase p' = PhRegistered) /\
  (g_phase p = PhRegistered -> PipelineRun.ID (g_run p) ∉ queued_in s').
Proof.
  intros Hno Hr Hg s'. remember s' as s1 eqn:Hs1. subst s'. cbn [serve] in Hs1.
  unfold executePipeline_phase, bind at 1, gets at 1 in Hs1. rewrite Hg in Hs1.
  unfold rank. rewrite Hg. destruct (g_phase p) as [| | |ex|] eqn:Hph; cbn [phase_rank].
  - subst s1. cbn [modify snd]. split; [by apply served_register|]. cbn. rewrite lookup_insert_eq. cbn. split; [lia|].
    split; [|done]. intros _. by eexists.
  - unfold bind, attempt, on_db in Hs1. cbn [get_db put_db svc_has_db] in Hs1.
    rewrite UpdateRunStatus_exact in Hs1 by apply Hr. set (id := PipelineRun.ID (g_run p)) in *.
    destruct (db_runs (sv_db s) !! id) as [r|] eqn:Hrow; cbn [modify snd] in Hs1; subst s1.
    + set (d := if transition_allowed RunStatusRunning (pipelineRunScan.Status r) 
        then set_runs (insert id (apply_status RunStatusRunning (Unix (db_now (sv_db s))) "" r)) (sv_db s)
        else sv_db s).
      assert (Hmoved : served (Some g) s (set_phase g p PhRunning s) /\
        ready (set_phase g p PhRunning (set_db d s)) /\
        queued_in (set_phase g p PhRunning (set_db d s)) ⊆ queued_in s /\
        id ∉ queued_in (set_phase g p PhRunning (set_db d s))).
      { split; [by apply served_phase; [..|left]|]. destruct Hr as [S Q I M Y P Hheld].
        assert (Hback : forall id' r', db_runs d !! id' = Some r' ->
          id' <> id /\ db_runs (sv_db s) !! id' = Some r' \/
          id' = id /\ pipelineRunScan.Status r' <> RunStatusQueued).
        { intros id' r'. unfold d. destruct (transition_allowed _ _) eqn:Ht; cbn.
          - intros [[<- <-]|[Hne ?]]%lookup_insert_Some; [by right|left]. split; [congruence|done].
          - intros Hr'. destruct (decide (id' = id)) as [->|Hne]; [|by left]. right. split; [done|].
            simplify_eq. intros Hqd. rewrite Hqd in Ht. done. }
        assert (Hd : db_faults d = [] /\ ids_ok d /\ db_pipelines d = db_pipelines (sv_db s)).
        { unfold d. destruct (transition_allowed _ _); [|by split_and!]. split_and!; try done.
          apply map_Forall_insert_2; [|done]. by apply (I id r). }
        destruct Hd as (Hf & Hi & Hp). split_and!.
        - split; try done; cbn.
          + apply set_phase_ok; [done|done|]. by destruct S.
          + intros id' r' Hr' Hst. rewrite Hp. destruct (Hback id' r' Hr') as [[_ Hr0]|[_ Hn]]; [|done].
            by eapply P.
          + intros id' r' Hr' Hst. destruct (decide (id' = id)) as [->|Hne].
            * exists g. cbn. rewrite lookup_insert_eq. by eexists.
            * destruct (Hback id' r' Hr') as [[_ Hr0]|[? _]]; [|done].
              destruct (Hheld id' r' Hr0 Hst) as (g' & p' & Hg' & Hid' & Hf'). exists g', p'. cbn.
              rewrite lookup_insert_ne; [done|]. intros <-. simplify_eq.
        - intros id' (r' & Hr' & Hst)%elem_of_queued_in. apply elem_of_queued_in. cbn in Hr'.
          destruct (Hback id' r' Hr') as [[_ Hr0]|[_ Hn]]; [by exists r'|done].
        - intros (r' & Hr' & Hst)%elem_of_queued_in. cbn in Hr'.
          by destruct (Hback id r' Hr') as [[? _]|[_ ?]]. }
      destruct Hmoved as ([_ _ C D E F] & Hready & Hqueue & Hout). split; [|split; [|split; [by intros [=]|by intros _]]].
      * split; try done. intros g' p' Hle Hg'. destruct (E g' p' Hle Hg') as [Hs _]. split; [done|].
        exfalso. cbn in Hg'. apply lookup_insert_Some in Hg' as [[<- <-]|[_ Hg']]; [done|].
        apply (slots_fresh _ (ready_slots _ Hr)) in Hg'. lia.
      * cbn. rewrite lookup_insert_eq. cbn. lia.
    + replace (set_db (sv_db s) s) with s by by destruct s.
      split; [apply served_phase; [done..|right; right]; intros r' Hr'; unfold id in Hrow; by rewrite Hrow in Hr'|].
      cbn. rewrite lookup_insert_eq. cbn. split; [lia|]. split; [done|]. intros _ (r' & Hr' & _)%elem_of_queued_in.
      cbn in Hr'. by rewrite Hrow in Hr'.
  - subst s1. cbn. split; [by apply served_phase; [..|left]|]. rewrite lookup_insert_eq. cbn. split; [lia|done].
  - unfold bind at 1, gets at 1 in Hs1. destruct (finalize_settles s (bool_decide (g ∈ sv_cancelled s)) (g_run p)
      (g_pipeline p) ex (proj2 Hno g p Hg) (ready_quiet _ Hr)) as (d & Hfin & Hd & Hend).
    unfold bind in Hs1. rewrite Hfin in Hs1. cbn [modify snd] in Hs1. subst s1.
    destruct (served_set_db (Some g) s d Hr Hd) as [Hr' _ _ _ _ _].
    split; [|cbn; rewrite lookup_insert_eq; cbn; split; [lia|done]].
    apply (served_trans g s (set_db d s)); [done|by apply served_set_db|].
    apply served_phase; [done|done|done|]. right. right. intros r Hrow Hst.
    pose proof (Hend (ready_ids _ Hr) r Hrow) as Hi. by rewrite Hst in Hi.
  - subst s1. cbn [modify snd]. split; [by apply served_cleanup|]. cbn. rewrite lookup_delete_eq. cbn. split; [lia|done].
Qed.

(** A pass of the queue processor starts queued runs only, and one at least
    when nothing is running and the queue is not empty. *)
Lemma tick_served s : ready s ->
  served None s (serve ParseConfig EvTick s) /\
  (sv_goroutines s = ∅ -> queued_in s <> ∅ -> sv_next s < sv_next (serve ParseConfig EvTick s)).
Proof.
  intros [S Q I M Y P Hheld].
  destruct (processQueueTick_dispatches s Q) as
    (l & s' & answer & Htick & Hsp & Hsub & Hdb & Hcap & _ & _ & Hall & _).
  { apply Forall_forall. intros run (r & -> & Hin)%list_elem_of_fmap.
    apply elem_of_order_by, elem_of_select_runs in Hin as [Hst%bool_decide_eq_true (id & Hrow)].
    by apply (P id r). }
  pose proof (serve_steps ParseConfig EvTick s S) as Hsteps. cbn [serve] in *.
  rewrite Htick in Hsteps |- *. cbn [snd] in Hsteps |- *.
  apply steps_ok in Hsteps; [|done]. destruct Hsp as [N F Mx Old New].
  assert (Hq : forall run, run ∈ l -> PipelineRun.ID run ∈ queued_in s).
  { intros run Hin. apply (elem_of_sublist _ _ _ Hin) in Hsub.
    apply list_elem_of_fmap in Hsub as (r & -> & Hin').
    apply elem_of_order_by, elem_of_select_runs in Hin' as [Hst%bool_decide_eq_true (id & Hrow)].
    apply elem_of_queued_in. exists r. cbn. by rewrite (I id r Hrow). }
  assert (Hqs : queued_in s' = queued_in s) by (unfold queued_in; by rewrite Hdb).
  split.
  - split.
    + pose proof (processQueueTick_undisturbed ParseConfig s Q) as (_ & Hy & _). rewrite Htick in Hy.
      split; [done|unfold quiet; by rewrite Hdb|by rewrite Hdb|by rewrite Mx|cbn in Hy; by rewrite Hy|by rewrite Hdb|].
      rewrite Hdb. intros id r Hrow Hst. destruct (Hheld id r Hrow Hst) as (g & p & Hg & Hid & Hf).
      exists g, p. rewrite Old; [done|]. by apply (slots_fresh _ S g p).
    + by rewrite Hqs.
    + lia.
    + intros g Hlt _. by apply Old.
    + intros g p Hle Hg. pose proof (slots_fresh _ Hsteps g p Hg) as Hlt.
      destruct (l !! (g - sv_next s)) as [run|] eqn:Hl.
      * destruct (New _ _ Hl) as (p' & Hg' & Hrun & Hph).
        replace (sv_next s + (g - sv_next s)) with g in Hg' by lia. simplify_eq.
        split; [done|]. rewrite Hqs. apply Hq. by eapply list_elem_of_lookup_2.
      * apply lookup_ge_None in Hl. lia.
    + intros Hlt. destruct l as [|run l]; [cbn in N; lia|].
      destruct (New 0 run eq_refl) as (p & Hp & _). exists (sv_next s), p. rewrite Nat.add_0_r in Hp. by split.
  - intros Hnone Hne. destruct l as [|run l]; [|cbn in N; lia]. exfalso.
    assert (Hin0 : sv_inFlight s = 0%Z) by (rewrite (slots_count _ S), Hnone; done).
    assert (Hfree : CanExecute s' = true).
    { unfold CanExecute. rewrite Mx, F, Hin0. cbn. by apply Z.ltb_lt. }
    apply set_choose_L in Hne as [id Hid]. apply elem_of_queued_in in Hid as (r & Hrow & Hst).
    specialize (Hall Hfree). rewrite Forall_forall in Hall.
    destruct (Hall (pipelineRunScan.toStorage r)) as [Hl|[Hg Hb]].
    + apply list_elem_of_fmap. exists r. split; [done|].
      apply elem_of_order_by, elem_of_select_runs. split; [by apply bool_decide_eq_true|by exists id].
    + by apply not_elem_of_nil in Hl.
    + apply elem_of_union in Hb as [Hb|Hb]; [|by apply elem_of_list_to_set, not_elem_of_nil in Hb].
      apply elem_of_list_to_set, elem_of_groups_of in Hb as (_ & run & Hin & _).
      apply list_elem_of_fmap in Hin as (r' & -> & Hin).
      apply elem_of_order_by, elem_of_select_runs in Hin as [Hst'%bool_decide_eq_true (id' & Hrow')].
      destruct (Hheld id' r' Hrow' Hst') as (g & p & Hgp & _). by rewrite Hnone in Hgp.
Qed.

(** None of these events disturbs the pipelines. *)
Lemma serve_undisturbed ev s :
  independent ParseConfig s -> ready s -> no_arrival s ev -> undisturbed ParseConfig s (serve ParseConfig ev s).
Proof.
  intros Hno Hr Hev. destruct Hev as [|g e|g e|id|d Hd]; cbn [serve].
  - exact (processQueueTick_undisturbed ParseConfig s).
  - unfold executePipeline_phase, bind at 1, gets at 1.
    destruct (sv_goroutines s !! g) as [p|] eqn:Hg; [|done]. destruct (g_phase p) as [| | |ex|].
    + by apply undisturbed_register.
    + unfold bind, attempt, on_db, modify. cbn [get_db put_db svc_has_db].
      pose proof (UpdateRunStatus_same (PipelineRun.ID (g_run p)) RunStatusRunning "" (sv_db s)) as Hd.
      destruct (UpdateRunStatus _ _ _ (sv_db s)) as [r d]. cbn [snd] in *.
      etrans; [by apply undisturbed_db|]. by apply undisturbed_phase.
    + by apply undisturbed_phase.
    + unfold bind, gets, modify. destruct (finalize_settles s (bool_decide (g ∈ sv_cancelled s)) (g_run p)
        (g_pipeline p) ex (proj2 Hno g p Hg) (ready_quiet _ Hr)) as (d & -> & Hd & _). cbn [snd].
      etrans; [apply undisturbed_db|by apply undisturbed_phase].
      intros Hq. destruct (Hd Hq (ready_ids _ Hr)) as (? & _ & ? & _). done.
    + apply undisturbed_cleanup.
  - unfold RunByNameSync_phase, bind, gets. by rewrite (ready_syncs _ Hr), lookup_empty.
  - rewrite StopRun_exact. destruct (sv_stopRegistry s !! id) as [g|]; [|done]. cbn [snd].
    set (d := (UpdateRunStatus _ _ _ _).2).
    etrans; [apply (undisturbed_db ParseConfig s d)|by apply undisturbed_goroutines; [..|intros g' p' Hg'; exists g', p']].
    intros Hq. assert (Hd : no_new_work (sv_db s) d) by
      (unfold d; etrans; [apply UpdateStatusForPrefix_settles|by apply UpdateRunStatus_settles]).
    destruct (Hd Hq (ready_ids _ Hr)) as (? & _ & ? & _). done.
  - apply undisturbed_db. intros Hq. destruct (Hd Hq (ready_ids _ Hr)) as (? & _ & ? & _). done.
Qed.

Lemma serve_served ev s :
  independent ParseConfig s -> ready s -> no_arrival s ev -> served (moved_by ev) s (serve ParseConfig ev s).
Proof.
  intros Hno Hr Hev. destruct Hev as [|g e|g e|id|d Hd]; cbn [moved_by].
  - by apply tick_served.
  - destruct (sv_goroutines s !! g) as [p|] eqn:Hg; [by eapply phase_served|].
    cbn [serve]. unfold executePipeline_phase, bind, gets. rewrite Hg. by apply served_refl.
  - cbn [serve]. unfold RunByNameSync_phase, bind, gets. rewrite (ready_syncs _ Hr), lookup_empty.
    by apply served_refl.
  - cbn [serve]. rewrite StopRun_exact. destruct (sv_stopRegistry s !! id) as [g|]; [|by apply served_refl].
    cbn [snd]. set (d := (UpdateRunStatus _ _ _ _).2).
    assert (Hd : no_new_work (sv_db s) d).
    { unfold d. etrans; [apply UpdateStatusForPrefix_settles|by apply UpdateRunStatus_settles]. }
    destruct (served_set_db None s d Hr Hd) as [[S Q I M Y P Hheld] B C D E F].
    split; try done. split; try done. by destruct S.
  - by apply served_set_db.
Qed.

(** ** Fair schedules *)

(** The state before the [n]-th event. *)
Fixpoint trace (sched : nat -> event) (s : svc) (n : nat) : svc :=
  match n with
  | 0 => s
  | S n => serve ParseConfig (sched n) (trace sched s n)
  end.

(** The queue processor passes again and again, and every goroutine is
    scheduled again and again. *)
Record fair (sched : nat -> event) : Prop := {
  fair_tick : forall n, exists m, n <= m /\ sched m = EvTick;
  fair_phase : forall g n, exists m e, n <= m /\ sched m = EvPhase g e }.

Section schedules.
Context (sched : nat -> event) (s0 : svc).
Hypothesis triggers : independent ParseConfig s0.
Hypothesis Hready : ready s0.
Hypothesis arrivals : forall n, no_arrival (trace sched s0 n) (sched n).
Hypothesis Hfair : fair sched.
#[local] Abbreviation at_ := (trace sched s0) (only parsing).

Lemma trace_calm n : ready (at_ n) /\ independent ParseConfig (at_ n).
Proof.
  induction n as [|n [IHr IHi]]; [done|]. cbn [trace]. split.
  - exact (served_ready _ _ _ (serve_served _ _ IHi IHr (arrivals n))).
  - by apply (serve_undisturbed _ _ IHi IHr (arrivals n) (ready_quiet _ IHr)).
Qed.
Lemma trace_ready n : ready (at_ n).
Proof. apply trace_calm. Qed.
Lemma trace_independent n : independent ParseConfig (at_ n).
Proof. apply trace_calm. Qed.
Lemma trace_served n : served (moved_by (sched n)) (at_ n) (at_ (S n)).
Proof. exact (serve_served _ _ (trace_independent n) (trace_ready n) (arrivals n)). Qed.

Lemma trace_queue n m : n <= m -> queued_in (at_ m) ⊆ queued_in (at_ n).
Proof. induction 1 as [|m Hm IH]; [done|]. etrans; [apply (served_queue _ _ _ (trace_served m))|done]. Qed.
Lemma trace_next n m : n <= m -> sv_next (at_ n) <= sv_next (at_ m).
Proof. induction 1 as [|m Hm IH]; [done|]. etrans; [done|apply (served_next _ _ _ (trace_served m))]. Qed.

(** A goroutine stays as it is until it is scheduled, which happens. *)
Lemma next_phase g p n :
  sv_goroutines (at_ n) !! g = Some p ->
  exists m e, n <= m /\ sched m = EvPhase g e /\ sv_goroutines (at_ m) !! g = Some p.
Proof.
  intros Hg. destruct (fair_phase _ Hfair g n) as (m & e & Hm & He).
  remember (m - n) as k eqn:Hk. revert n Hg Hm Hk. induction k as [|k IH]; intros n Hg Hm Hk.
  - assert (m = n) as -> by lia. by exists n, e.
  - destruct (decide (moved_by (sched n) = Some g)) as [Hmv|Hmv].
    + destruct (sched n) as [| | | | | | | |g' e'| | |] eqn:Hs; try done. injection Hmv as ->. exists n, e'. by split_and!.
    + destruct (IH (S n)) as (m' & e' & ? & ? & ?); [|lia|lia|exists m', e'; split_and!; [lia|done..]].
      rewrite (served_others _ _ _ (trace_served n)); [done| |done].
      by apply (slots_fresh _ (ready_slots _ (trace_ready n)) g p).
Qed.

(** Every goroutine ends. *)
Lemma goroutine_ends g n : g < sv_next (at_ n) -> exists m, n <= m /\ sv_goroutines (at_ m) !! g = None.
Proof.
  remember (rank (at_ n) g) as k eqn:Hk. revert n Hk.
  induction k as [k IH] using lt_wf_ind. intros n Hk Hlt.
  destruct (sv_goroutines (at_ n) !! g) as [p|] eqn:Hg; [|by exists n].
  destruct (next_phase g p n Hg) as (m & e & Hm & He & Hgm).
  destruct (phase_served g e p (at_ m) (trace_independent m) (trace_ready m) Hgm) as (_ & Hrank & _).
  rewrite <- He in Hrank. change (serve ParseConfig (sched m) (at_ m)) with (at_ (S m)) in Hrank.
  assert (Hsame : rank (at_ m) g = rank (at_ n) g) by (unfold rank; by rewrite Hg, Hgm).
  pose proof (trace_next n (S m) ltac:(lia)).
  destruct (IH (rank (at_ (S m)) g) ltac:(lia) (S m) eq_refl ltac:(lia)) as (m' & ? & ?).
  exists m'. split; [lia|done].
Qed.

(** An index that is free stays free. *)
Lemma ended_stays g n m :
  n <= m -> g < sv_next (at_ n) -> sv_goroutines (at_ n) !! g = None -> sv_goroutines (at_ m) !! g = None.
Proof.
  intros Hm Hlt Hg. induction Hm as [|m Hm IH]; [done|].
  pose proof (trace_next n m Hm). pose proof (trace_served m) as Hs.
  destruct (decide (moved_by (sched m) = Some g)) as [Hmv|Hmv].
  - destruct (sched m) as [| | | | | | | |g' e'| | |] eqn:He; try done. injection Hmv as ->. cbn [trace]. rewrite He.
    cbn [serve]. unfold executePipeline_phase, bind, gets. by rewrite IH.
  - rewrite (served_others _ _ _ Hs); [done|lia|done].
Qed.

(** From some moment on none of the goroutines up to a number is left. *)
Lemma goroutines_end k n :
  k <= sv_next (at_ n) ->
  exists m, n <= m /\ forall g, g < k -> sv_goroutines (at_ m) !! g = None.
Proof.
  induction k as [|k IH]; intros Hk; [by exists n; split; [|lia]|].
  destruct IH as (m & Hm & Hend); [lia|]. pose proof (trace_next n m Hm).
  destruct (goroutine_ends k m ltac:(lia)) as (m' & Hm' & Hg). exists m'. split; [lia|].
  intros g Hlt. destruct (decide (g = k)) as [->|Hne]; [done|].
  apply (ended_stays g m m'); [done|lia|apply Hend; lia].
Qed.

(** The run of a goroutine that was just started leaves the queue. *)
Lemma started_leaves g p n :
  sv_goroutines (at_ n) !! g = Some p -> g_phase p = PhStart ->
  exists m, n <= m /\ PipelineRun.ID (g_run p) ∉ queued_in (at_ m).
Proof.
  intros Hg Hph. destruct (next_phase g p n Hg) as (m & e & Hm & He & Hgm).
  destruct (phase_served g e p (at_ m) (trace_independent m) (trace_ready m) Hgm) as (_ & _ & Hreg & _).
  rewrite <- He in Hreg. change (serve ParseConfig (sched m) (at_ m)) with (at_ (S m)) in Hreg.
  destruct (Hreg Hph) as (p' & Hg' & Hrun & Hph').
  destruct (next_phase g p' (S m) Hg') as (m' & e' & Hm' & He' & Hgm').
  destruct (phase_served g e' p' (at_ m') (trace_independent m') (trace_ready m') Hgm') as (_ & _ & _ & Hout).
  rewrite <- He' in Hout. change (serve ParseConfig (sched m') (at_ m')) with (at_ (S m')) in Hout.
  exists (S m'). split; [lia|]. rewrite <- Hrun. by apply Hout.
Qed.

(** A started goroutine means that the queue gets shorter. *)
Lemma started_shortens n m :
  n <= m -> sv_next (at_ n) < sv_next (at_ m) ->
  exists m', m <= m' /\ queued_in (at_ m') ⊂ queued_in (at_ n).
Proof.
  induction 1 as [|m Hm IH]; [lia|]. intros Hlt.
  destruct (decide (sv_next (at_ n) < sv_next (at_ m))) as [Hl|Hl].
  { destruct (IH Hl) as (m' & ? & [Hs1 Hs2]). exists (S m'). split; [lia|].
    pose proof (trace_queue m' (S m') ltac:(lia)). split; [by etrans|]. intros Hc. apply Hs2. by etrans. }
  pose proof (trace_served m) as Hs. pose proof (trace_next n m Hm).
  destruct (served_born _ _ _ Hs ltac:(lia)) as (g & p & Hle & Hg).
  destruct (served_new _ _ _ Hs g p Hle Hg) as [Hph Hin].
  destruct (started_leaves g p (S m) Hg Hph) as (m' & Hm' & Hout). exists m'. split; [lia|].
  split; [apply trace_queue; lia|]. intros Hsub. apply Hout, Hsub.
  by apply (trace_queue n (S m) ltac:(lia)).
Qed.

(** As long as the queue is not empty it gets shorter some time later. *)
Lemma queue_shortens n :
  queued_in (at_ n) <> ∅ -> exists m, n <= m /\ queued_in (at_ m) ⊂ queued_in (at_ n).
Proof.
  intros Hne. destruct (goroutines_end (sv_next (at_ n)) n (le_n _)) as (m & Hm & Hend).
  destruct (fair_tick _ Hfair m) as (t & Ht & Htick).
  destruct (decide (sv_next (at_ n) < sv_next (at_ t))) as [Hl|Hl].
  { destruct (started_shortens n t ltac:(lia) Hl) as (m' & ? & ?). exists m'. split; [lia|done]. }
  destruct (decide (queued_in (at_ t) = queued_in (at_ n))) as [Hq|Hq].
  - assert (Hnone : sv_goroutines (at_ t) = ∅).
    { apply map_eq. intros g. rewrite lookup_empty. pose proof (trace_next n t ltac:(lia)).
      destruct (decide (g < sv_next (at_ n))) as [Hg|Hg].
      - apply (ended_stays g m t); [done| |by apply Hend]. pose proof (trace_next n m Hm). lia.
      - destruct (sv_goroutines (at_ t) !! g) as [p|] eqn:Hp; [|done].
        apply (slots_fresh _ (ready_slots _ (trace_ready t))) in Hp. lia. }
    destruct (tick_served (at_ t) (trace_ready t)) as [_ Hstart].
    rewrite <- Htick in Hstart. change (serve ParseConfig (sched t) (at_ t)) with (at_ (S t)) in Hstart.
    specialize (Hstart Hnone ltac:(by rewrite Hq)).
    pose proof (trace_next n t ltac:(lia)).
    destruct (started_shortens n (S t) ltac:(lia) ltac:(lia)) as (m' & ? & ?). exists m'. split; [lia|done].
  - exists t. split; [lia|]. pose proof (trace_queue n t ltac:(lia)). set_solver.
Qed.

Lemma queue_empties n : exists m, n <= m /\ queued_in (at_ m) = ∅.
Proof.
  remember (queued_in (at_ n)) as q eqn:Hq. revert n Hq. induction (set_wf q) as [q _ IH]. intros n ->.
  destruct (decide (queued_in (at_ n) = ∅)) as [He|He]; [by exists n|].
  destruct (queue_shortens n He) as (m & Hm & Hsub).
  destruct (IH _ Hsub m eq_refl) as (m' & ? & ?). exists m'. split; [lia|done].
Qed.

(** Once empty, the queue stays empty and nothing is started. *)
Lemma empty_stays n m : n <= m -> queued_in (at_ n) = ∅ -> sv_next (at_ m) = sv_next (at_ n).
Proof.
  intros Hm He. induction Hm as [|m Hm IH]; [done|].
  pose proof (trace_served m) as Hs. pose proof (served_next _ _ _ Hs).
  destruct (decide (sv_next (at_ m) < sv_next (at_ (S m)))) as [Hl|Hl]; [|lia].
  destruct (served_born _ _ _ Hs Hl) as (g & p & Hle & Hg).
  destruct (served_new _ _ _ Hs g p Hle Hg) as [_ Hin].
  pose proof (trace_queue n (S m) ltac:(lia)) as Hq. rewrite He in Hq. by apply Hq, elem_of_empty in Hin.
Qed.
End schedules.
End events.

(** ** Properties *)

(** Nothing waits, nothing runs, no slot is taken, nothing can be stopped. *)
Definition idle (s : svc) : Prop :=
  sv_goroutines s = ∅ /\ sv_inFlight s = 0%Z /\ sv_stopRegistry s = ∅ /\
  forall id r, db_runs (sv_db s) !! id = Some r -> IsActive (pipelineRunScan.Status r) = false.

(** C12: the queue drains. Let the service start with whatever runs queued and
    executing (none of them synchronously), of pipelines none of whose jobs is
    triggered by a job that passed in another run, whatever other contents the
    parser knows; let no statement fail and no new work arrive (others may still
    write tasks, stop runs and delete them). Then under every schedule in which
    the queue processor and each goroutine are scheduled again and again, and
    whatever the runtime answers, the service becomes idle and stays idle: every
    queued run has left the queue, every goroutine has ended, every slot is
    free, nothing can be stopped and no run is recorded as queued or running. *)
Theorem service_becomes_idle `{!UniqueIDs, !OrderBy, !JsonText, !TemplateEngine, !MapOrder}
    (ParseConfig : string -> result Config.t) (sched : nat -> event) (s : svc) :
  independent ParseConfig s -> ready s ->
  (forall n, no_arrival (trace ParseConfig sched s n) (sched n)) -> fair sched ->
  exists n, forall m, n <= m -> idle (trace ParseConfig sched s m).
Proof.
  intros Hno Hr Harr Hfair.
  destruct (queue_empties ParseConfig sched s Hno Hr Harr Hfair 0) as (n & _ & He).
  destruct (goroutines_end ParseConfig sched s Hno Hr Harr Hfair
    (sv_next (trace ParseConfig sched s n)) n (le_n _)) as (k & Hk & Hend).
  exists k. intros m Hm.
  pose proof (trace_ready ParseConfig sched s Hno Hr Harr m) as Hready.
  assert (Hnone : sv_goroutines (trace ParseConfig sched s m) = ∅).
  { apply map_eq. intros g. rewrite lookup_empty.
    pose proof (empty_stays ParseConfig sched s Hno Hr Harr n m ltac:(lia) He) as Hnext.
    destruct (sv_goroutines (trace ParseConfig sched s m) !! g) as [p|] eqn:Hg; [|done].
    pose proof (slots_fresh _ (ready_slots _ Hready) g p Hg) as Hlt.
    rewrite (ended_stays ParseConfig sched s Hno Hr Harr g k m) in Hg; [done|done| |apply Hend; lia].
    pose proof (trace_next ParseConfig sched s Hno Hr Harr n k Hk). lia. }
  split; [done|]. split; [rewrite (slots_count _ (ready_slots _ Hready)), Hnone; done|].
  split.
  { apply map_eq. intros id. rewrite lookup_empty.
    destruct (sv_stopRegistry (trace ParseConfig sched s m) !! id) as [g|] eqn:Hg; [|done].
    destruct (slots_registered _ (ready_slots _ Hready) id g Hg) as [(p & Hp & _)|(y & Hy & _)].
    - by rewrite Hnone in Hp.
    - by rewrite (ready_syncs _ Hready) in Hy. }
  intros id r Hrow. destruct (IsActive (pipelineRunScan.Status r)) eqn:Ha; [|done]. exfalso.
  apply orb_true_iff in Ha as [Hq%bool_decide_eq_true|Hrun%bool_decide_eq_true].
  - pose proof (trace_queue ParseConfig sched s Hno Hr Harr n m ltac:(lia)) as Hsub. rewrite He in Hsub.
    apply (not_elem_of_empty (C := gset string) id), Hsub, elem_of_queued_in. by exists r.
  - destruct (ready_held _ Hready id r Hrow Hrun) as (g & p & Hg & _). by rewrite Hnone in Hg.
Qed.

(** A service is ready when it starts on a store without running runs, which
    is how the recovery leaves it ([RecoverOrphanedRuns_none_running]). *)
Lemma ready_New (d : db) maxInFlight maxQueue features :
  db_faults d = [] -> ids_ok d ->
  (forall id r, db_runs d !! id = Some r -> pipelineRunScan.Status r <> RunStatusRunning /\
     is_Some (db_pipelines d !! pipelineRunScan.PipelineID r)) ->
  ready (NewExecutionService d maxInFlight maxQueue features).
Proof.
  intros Hf Hi Hrows. split; try done.
  - cbn. destruct (Z.leb_spec maxInFlight 0); lia.
  - cbn. intros id r Hr _. by apply (Hrows id r).
  - cbn. intros id r Hr Hst. by destruct (Hrows id r Hr).
Qed.

(** ** Witness

    Two runs of one group wait, one slot; every other event is a pass, and the
    goroutines take turns. The parser reads two contents: the jobs of the
    pipeline, and a pipeline with a job that waits for another one. *)
#[local] Existing Instances counter_ids stable_order some_map_order ex_json_text ex_engine.

Definition ex_sched (n : nat) : event :=
  if Nat.even n then EvTick else let k := Nat.div2 n in EvPhase (k - Nat.sqrt k * Nat.sqrt k) None.

Lemma ex_sched_fair : fair ex_sched.
Proof.
  split.
  - intros n. exists (2 * n). split; [lia|]. unfold ex_sched. by rewrite Nat.even_mul.
  - intros g n. set (r := g + n). exists (S (2 * (r * r + g))), None. split; [unfold r; nia|].
    unfold ex_sched. rewrite Nat.even_succ, Nat.odd_mul. cbn [Nat.odd Nat.even negb andb].
    rewrite Nat.div2_succ_double. rewrite (Nat.sqrt_unique (r * r + g) r) by (unfold r; nia).
    f_equal. lia.
Qed.

Definition ex_plain_job : Job.t :=
  Job.mk None None "build" [] [] None 0 false None None None None None 0 None "".
Definition ex_yaml_jobs (jobs : list Job.t) : Config.t := Config.mk None 0 jobs [] [].
Definition ex_yaml (content : string) : result Config.t :=
  if decide (content = "jobs: [build]") then Ok (ex_yaml_jobs [ex_plain_job])
  else if decide (content = "jobs: [build, deploy]") then Ok (ex_yaml_jobs [ex_plain_job; ex_passed_job])
  else Err (EMsg "not YAML").

Definition ex_queued (id : string) : pipelineRunScan.t :=
  pipelineRunScan.mk id "p1" RunStatusQueued None None None TriggerTypeManual ""
    (TriggerInput.mk [] None [] []) "pipeline:p1" 5.
Definition ex_drain_db : db :=
  set_runs (fun _ => <["a" := ex_queued "a"]> {["b" := ex_queued "b"]})
    (set_pipelines (fun _ => {["p1" := pipelineScan.mk "p1" "demo" "jobs: [build]" "yaml" "" 0 0 "" "serial" "" 0 0 0]})
      empty_db).

Lemma service_becomes_idle_witness :
  buildPassedDependents (ex_yaml_jobs [ex_plain_job; ex_passed_job]) = {["build" := [ex_passed_job]]} /\
  exists n, idle (trace ex_yaml ex_sched (NewExecutionService ex_drain_db 1 0 AllFeatures) n).
Proof.
  split; [vm_compute; reflexivity|].
  destruct (service_becomes_idle ex_yaml ex_sched (NewExecutionService ex_drain_db 1 0 AllFeatures))
    as (n & Hn).
  - split.
    + cbn. intros id row [_ <-]%lookup_singleton_Some cfg Hcfg. vm_compute in Hcfg. injection Hcfg as <-.
      vm_compute. reflexivity.
    + intros g p Hg. discriminate Hg.
  - apply ready_New; [reflexivity| |].
    + apply map_Forall_insert_2; [|apply map_Forall_singleton]; reflexivity.
    + intros id r Hr. cbn in Hr. apply lookup_insert_Some in Hr as [[_ <-]|[_ [_ <-]%lookup_singleton_Some]];
        (split; [discriminate|eexists; reflexivity]).
  - intros n. unfold ex_sched. destruct (Nat.even n); constructor.
  - apply ex_sched_fair.
  - exists n. apply Hn. constructor.
Defined.
