(* ===== verification/Validate.v ===== *)
(** * Validation of pipelines (backwards/pipeline.go, runtime/backwards/runner.go)

    [ValidatePipeline] runs when a pipeline is set, [ValidateConfig] before a
    run executes. Both are sequences of passes over the configuration, each
    returning the first error it meets. *)
From S2P Require Import Prelude Storage GoStrings Paging Config Graph.
From Stdlib Require Import Ascii.
Open Scope string_scope.

(** ** Loops that return the first error *)
Definition each {A} (f : A -> result unit) : list A -> result unit :=
  fix each (l : list A) : result unit :=
    match l with
    | [] => Ok tt
    | x :: l => match f x with Ok _ => each l | Err e => Err e end
    end.

Definition each_indexed {A} (f : nat -> A -> result unit) : nat -> list A -> result unit :=
  fix each_indexed (i : nat) (l : list A) : result unit :=
    match l with
    | [] => Ok tt
    | x :: l => match f i x with Ok _ => each_indexed (S i) l | Err e => Err e end
    end.

Definition index (i : nat) : string := Itoa (Z.of_nat i).

(** ** Plan-level checks (backwards/pipeline.go) *)
Definition hasExternalConfig (step : Step) : bool :=
  negb (bool_decide (File_ step = "")) || negb (bool_decide (URI step = "")).

Definition has_run_path (step : Step) : bool :=
  match TaskConfig_ step ≫= TaskConfig.Run with
  | Some run => negb (bool_decide (TaskConfigRun.Path run = ""))
  | None => false
  end.

Definition validateSteps_step (job : string) (i : nat) (step : Step) : result unit :=
  if negb (bool_decide (File_ step = "")) && negb (bool_decide (URI step = "")) then
    Err (EMsg ("step in job " ++ q job ++ " (index " ++ index i ++ ") cannot have both file and uri"))
  else if negb (bool_decide (Task step = "")) && negb (hasExternalConfig step)
          && negb (has_run_path step) then
    Err (EMsg ("task step " ++ q (Task step) ++ " in job " ++ q job ++ " (index " ++ index i
               ++ ") requires config.run.path"))
  else if negb (bool_decide (Agent step = "")) && negb (hasExternalConfig step)
          && bool_decide (Prompt step = "") && bool_decide (PromptFile step = "") then
    Err (EMsg ("agent step " ++ q (Agent step) ++ " in job " ++ q job ++ " (index " ++ index i
               ++ ") requires prompt, prompt_file, file, or uri"))
  else Ok tt.

Definition validateSteps (jobs : list Job.t) : result unit :=
  each (fun job => each_indexed (validateSteps_step (Job.Name job)) 0 (Job.Plan job)) jobs.

(** The checks of one step, before it looks into nested steps. *)
Definition step_concurrency_ok (jobName : string) (stepIndex : nat) (step : Step) : result unit :=
  let at_ := "job " ++ q jobName ++ " step " ++ index stepIndex ++ " " in
  if (Parallelism step <? 0)%Z then
    Err (EMsg (at_ ++ "parallelism must be greater than 0 when set"))
  else if (0 <? Parallelism step)%Z && bool_decide (Task step = "") then
    Err (EMsg (at_ ++ "parallelism is only valid on task steps"))
  else if (InParallel_Limit step <? 0)%Z then
    Err (EMsg (at_ ++ "in_parallel.limit must be greater than 0 when set"))
  else
    each (fun v => if (AcrossVar.MaxInFlight v <? 0)%Z
                   then Err (EMsg (at_ ++ "across.max_in_flight must be greater than 0 when set"))
                   else Ok tt) (Across step).

Fixpoint validateStepConcurrency (jobName : string) (stepIndex : nat) (step : Step)
    {struct step} : result unit :=
  match step_concurrency_ok jobName stepIndex step with
  | Err e => Err e
  | Ok _ =>
      match each_indexed (validateStepConcurrency jobName) 0 (Do step) with
      | Err e => Err e
      | Ok _ =>
          match each_indexed (validateStepConcurrency jobName) 0 (Try_ step) with
          | Err e => Err e
          | Ok _ => each_indexed (validateStepConcurrency jobName) 0 (InParallel_Steps step)
          end
      end
  end.

Definition validateConcurrency (config : Config.t) : result unit :=
  if (Config.MaxInFlight config <? 0)%Z then
    Err (EMsg "pipeline max_in_flight must be greater than 0 when set")
  else
    each (fun job =>
      if (Job.MaxInFlight job <? 0)%Z then
        Err (EMsg ("job " ++ q (Job.Name job) ++ " max_in_flight must be greater than 0 when set"))
      else each_indexed (validateStepConcurrency (Job.Name job)) 0 (Job.Plan job))
      (Config.Jobs config).

(** ** Wiring of inputs to outputs *)
Definition own_outputs (step : Step) : list string :=
  let declared := match TaskConfig_ step with
                  | Some tc => Output.Name <$> TaskConfig.Outputs tc
                  | None => []
                  end in
  if negb (bool_decide (Get_ step = "")) then [Get_ step]
  else if negb (bool_decide (Put_ step = "")) then [Put_ step]
  else if negb (bool_decide (Task step = "")) then declared
  else if negb (bool_decide (Agent step = "")) then
    match declared with [] => [Agent step] | _ => declared end
  else [].

(** The set grows in place: [available] is the map the callers share. *)
Fixpoint collectStepOutputs (step : Step) (available : gset string) {struct step} : gset string :=
  let available := list_to_set (own_outputs step) ∪ available in
  let available := (fix collect l (available : gset string) := match l with
                    | [] => available
                    | s :: l => collect l (collectStepOutputs s available)
                    end) (Do step) available in
  (fix collect l (available : gset string) := match l with
   | [] => available
   | s :: l => collect l (collectStepOutputs s available)
   end) (InParallel_Steps step) available.

Definition checked_inputs (step : Step) : list string :=
  let stepName := if decide (Task step = "") then Agent step else Task step in
  match TaskConfig_ step with
  | Some tc =>
      if negb (bool_decide (stepName = "")) && bool_decide (File_ step = "")
         && bool_decide (URI step = "") && bool_decide (PromptFile step = "")
      then Input.Name <$> TaskConfig.Inputs tc else []
  | None => []
  end.

Fixpoint checkStepInputs (step : Step) (available : gset string) (jobName : string)
    {struct step} : list err :=
  let stepName := if decide (Task step = "") then Agent step else Task step in
  (((fun name => EMsg ("step " ++ q stepName ++ " in job " ++ q jobName ++ " declares input "
      ++ q name ++ ", but no prior step produces it as an output")) <$>
     List.filter (fun name => negb (bool_decide (name ∈ available))) (checked_inputs step))
  ++ (fix check l := match l with
      | [] => []
      | s :: l => (checkStepInputs s available jobName ++ check l)%list
      end) (Do step)
  ++ (fix check l := match l with
      | [] => []
      | s :: l => (checkStepInputs s available jobName ++ check l)%list
      end) (InParallel_Steps step))%list.

Fixpoint wire_plan (jobName : string) (plan : list Step) (available : gset string) : result unit :=
  match plan with
  | [] => Ok tt
  | step :: plan =>
      let available := collectStepOutputs step available in
      match checkStepInputs step available jobName with
      | e :: _ => Err e
      | [] => wire_plan jobName plan available
      end
  end.

Definition validateInputOutputWiring (jobs : list Job.t) : result unit :=
  each (fun job => wire_plan (Job.Name job) (Job.Plan job) ∅) jobs.

(** ** Resource types, dependencies and gates *)
Definition valid_types (config : Config.t) : gset string :=
  {[ "registry-image" ]} ∪ list_to_set (ResourceType.Name <$> Config.ResourceTypes config).

(** Both versions: [native] is [Registry.IsNative], constantly false for the
    version of backwards/pipeline.go. *)
Definition validateResourceTypes (native : string -> bool) (config : Config.t) : result unit :=
  each (fun resource =>
    if negb (bool_decide (Resource.Type_ resource ∈ valid_types config))
       && negb (native (Resource.Type_ resource))
    then Err (EMsg ("resource " ++ q (Resource.Name resource) ++ " has undefined resource type "
                    ++ q (Resource.Type_ resource)))
    else Ok tt) (Config.Resources config).

Definition job_names (jobs : list Job.t) : list string := Job.Name <$> jobs.

(** [adj[job.Name] = f(job)], the last job of a name wins. *)
Definition adjacency (f : Job.t -> list string) (jobs : list Job.t) : gmap string (list string) :=
  foldl (fun adj job => <[Job.Name job := f job]> adj) ∅ jobs.

Definition report_cycle (msg : string) (w : walk) : result unit :=
  match w with
  | WOk _ => Ok tt
  | WCycle a b => Err (EMsg (msg ++ a ++ " -> " ++ b))
  | WFuel => Err (ESentinel SPanic)
  end.

Definition validateDependsOn (jobs : list Job.t) : result unit :=
  match each (fun job => each (fun dep =>
      if negb (bool_decide (dep ∈ job_names jobs)) then
        Err (EMsg ("job " ++ q (Job.Name job) ++ " depends_on unknown job " ++ q dep))
      else if bool_decide (dep = Job.Name job) then
        Err (EMsg ("job " ++ q (Job.Name job) ++ " depends_on itself"))
      else Ok tt) (Job.DependsOn job)) jobs with
  | Err e => Err e
  | Ok _ =>
      report_cycle "circular dependency detected: "
        (find_cycle (adjacency Job.DependsOn jobs) (job_names jobs))
  end.

Section gates.
Context `{!Clockwork}.

Definition validateGateConfigs (jobs : list Job.t) : result unit :=
  each (fun job =>
    match Job.Gate job with
    | None => Ok tt
    | Some gate =>
        if decide (GateConfig.Timeout gate = "") then Ok tt
        else match ParseDuration (GateConfig.Timeout gate) with
             | Ok _ => Ok tt
             | Err e => Err (EWrap ("job " ++ q (Job.Name job) ++ " gate timeout "
                 ++ q (GateConfig.Timeout gate) ++ " is not a valid duration") e)
             end
    end) jobs.
End gates.

(** ** The whole of ValidatePipeline

    The YAML decoder, text/template with the sprig functions, and the struct
    validator are third-party. *)
Class PipelineLibraries : Type := {
  yaml_Unmarshal : string -> result Config.t;
  pipeline_template : Type;
  pipeline_template_Parse : string -> result pipeline_template;
  pipeline_template_Execute : pipeline_template -> result string;
  validate_Struct : Config.t -> result unit }.

Definition newline : ascii := ascii_of_nat 10.

Section pipeline.
Context `{!Clockwork, !PipelineLibraries}.

Definition preprocessYAML (content : string) : result string :=
  if Contains (default "" (head (Split content newline))) "pocketci: template"
  then match pipeline_template_Parse content with
       | Err e => Err (EWrap "pipeline template parse failed" e)
       | Ok tmpl =>
           match pipeline_template_Execute tmpl with
           | Err e => Err (EWrap "pipeline template render failed" e)
           | Ok s => Ok s
           end
       end
  else Ok content.

Definition ParseConfig (content : string) : result Config.t :=
  match yaml_Unmarshal content with
  | Ok cfg => Ok cfg
  | Err e => Err (EWrap "failed to parse pipeline config" e)
  end.

(** The passes over a decoded configuration, in order. *)
Definition pipeline_passes (config : Config.t) : list (result unit) :=
  [ match validate_Struct config with
    | Ok _ => Ok tt | Err e => Err (EWrap "could not validate pipeline" e) end;
    validateResourceTypes (fun _ => false) config;
    validateSteps (Config.Jobs config);
    validateConcurrency config;
    validateInputOutputWiring (Config.Jobs config);
    validateDependsOn (Config.Jobs config);
    validateGateConfigs (Config.Jobs config) ].

Definition ValidatePipeline (content : string) : result unit :=
  match preprocessYAML content with
  | Err e => Err e
  | Ok processed =>
      match yaml_Unmarshal processed with
      | Err e => Err (EWrap "could not unmarshal pipeline" e)
      | Ok config => each id (pipeline_passes config)
      end
  end.
End pipeline.

(** ** Before a run (runtime/backwards/runner.go) *)

(** Append the names not seen yet, in order. *)
Fixpoint append_new (deps names : list string) : list string :=
  match names with
  | [] => deps
  | d :: names => append_new (if decide (d ∈ deps) then deps else (deps ++ [d])%list) names
  end.

Definition get_passed (step : Step) : list string :=
  if decide (Get_ step = "") then [] else GetConfig.Passed (GetConfig_ step).

Definition extractJobDependencies (plan : list Step) : list string :=
  append_new [] (mjoin (get_passed <$> plan)).

Fixpoint validateJobNames_loop (jobs : list Job.t) (seen : gset string) : result (gset string) :=
  match jobs with
  | [] => Ok seen
  | job :: jobs =>
      if decide (Job.Name job ∈ seen)
      then Err (EMsg ("duplicate job name " ++ q (Job.Name job)))
      else validateJobNames_loop jobs ({[ Job.Name job ]} ∪ seen)
  end.
Definition validateJobNames (cfg : Config.t) : result (gset string) :=
  validateJobNames_loop (Config.Jobs cfg) ∅.

Definition get_ref (step : Step) : string :=
  if decide (GetConfig.Resource (GetConfig_ step) = "") then Get_ step
  else GetConfig.Resource (GetConfig_ step).

Definition resource_names (cfg : Config.t) : list string := Resource.Name <$> Config.Resources cfg.

Definition validateResourceRefs (cfg : Config.t) : result unit :=
  each (fun job => each (fun step =>
    if negb (bool_decide (Get_ step = ""))
       && negb (bool_decide (get_ref step ∈ resource_names cfg))
    then Err (EMsg ("job " ++ q (Job.Name job) ++ " references undefined resource "
                    ++ q (get_ref step)))
    else Ok tt) (Job.Plan job)) (Config.Jobs cfg).

Definition step_kind (step : Step) : string :=
  if negb (bool_decide (Task step = "")) then "task " ++ Task step
  else match BuildImage step with
       | Some _ => "build_image step"
       | None => if negb (bool_decide (Put_ step = "")) then "put " ++ Put_ step else "task"
       end.

Definition validateJobPlanPassed (job : Job.t) (jobNames : gset string) : result unit :=
  each (fun step =>
    if negb (bool_decide (Get_ step = "")) then
      each (fun dep => if decide (dep ∈ jobNames) then Ok tt
        else Err (EMsg ("job " ++ q (Job.Name job) ++ " step " ++ q (Get_ step)
               ++ " has passed constraint referencing unknown job " ++ q dep)))
        (GetConfig.Passed (GetConfig_ step))
    else
      match GetConfig.Passed (GetConfig_ step) with
      | [] => Ok tt
      | _ => Err (EMsg ("job " ++ q (Job.Name job)
               ++ ": `passed:` is only supported on `get` steps, not on " ++ step_kind step))
      end) (Job.Plan job).

Definition triggers_passed (job : Job.t) : list string :=
  match Job.Triggers job with Some t => Triggers.Passed t | None => [] end.

Fixpoint triggers_passed_ok (name : string) (jobNames : gset string) (deps : list string)
    (seen : gset string) : result unit :=
  match deps with
  | [] => Ok tt
  | dep :: deps =>
      if decide (dep = "") then
        Err (EMsg ("job " ++ q name ++ " triggers.passed contains an empty job name"))
      else if decide (dep = name) then
        Err (EMsg ("job " ++ q name ++ " triggers.passed references itself"))
      else if decide (dep ∈ jobNames) then
        if decide (dep ∈ seen) then
          Err (EMsg ("job " ++ q name ++ " triggers.passed lists " ++ q dep ++ " more than once"))
        else triggers_passed_ok name jobNames deps ({[ dep ]} ∪ seen)
      else Err (EMsg ("job " ++ q name ++ " triggers.passed references unknown job " ++ q dep))
  end.

Definition validateJobTriggersPassed (job : Job.t) (jobNames : gset string) : result unit :=
  triggers_passed_ok (Job.Name job) jobNames (triggers_passed job) ∅.

Definition validatePassedConstraints (cfg : Config.t) (jobNames : gset string) : result unit :=
  each (fun job =>
    match validateJobPlanPassed job jobNames with
    | Err e => Err e
    | Ok _ => validateJobTriggersPassed job jobNames
    end) (Config.Jobs cfg).

(** A job something outside the pipeline can start. *)
Definition is_leaf (job : Job.t) : bool :=
  match Job.Triggers job with
  | None => true
  | Some t => bool_decide (is_Some (Triggers.Webhook t)) || bool_decide (is_Some (Triggers.Schedule t))
  end.

Definition validateLeafTriggers (cfg : Config.t) : result unit :=
  match Config.Jobs cfg with
  | [] => Ok tt
  | jobs =>
      if existsb is_leaf jobs then Ok tt
      else Err (EMsg "pipeline has no leaf trigger: every job declares only triggers.passed")
  end.

Definition passed_deps (job : Job.t) : list string :=
  append_new (extractJobDependencies (Job.Plan job)) (triggers_passed job).

Definition validateNoCycles (cfg : Config.t) : result unit :=
  report_cycle "circular passed constraint: "
    (find_cycle (adjacency passed_deps (Config.Jobs cfg)) (job_names (Config.Jobs cfg))).

Definition ValidateConfig (native : string -> bool) (cfg : Config.t) : result unit :=
  match validateResourceTypes native cfg with
  | Err e => Err e
  | Ok _ =>
      match validateJobNames cfg with
      | Err e => Err e
      | Ok jobNames =>
          match validateResourceRefs cfg with
          | Err e => Err e
          | Ok _ =>
              match validatePassedConstraints cfg jobNames with
              | Err e => Err e
              | Ok _ =>
                  match validateLeafTriggers cfg with
                  | Err e => Err e
                  | Ok _ => validateNoCycles cfg
                  end
              end
          end
      end
  end.

(** ** Facts *)
Lemma each_ok {A} (f : A -> result unit) l : each f l = Ok tt <-> Forall (fun x => f x = Ok tt) l.
Proof.
  induction l as [|x l IH]; cbn [each]; [by rewrite Forall_nil|].
  rewrite Forall_cons, <- IH. destruct (f x) as [[]|e]; [naive_solver|]. by split; [|intros [? _]].
Qed.

Lemma each_indexed_ok {A} (f : nat -> A -> result unit) i l :
  each_indexed f i l = Ok tt <-> forall k x, l !! k = Some x -> f (i + k) x = Ok tt.
Proof.
  revert i. induction l as [|x l IH]; intros i; cbn [each_indexed]; [by split|].
  split.
  - destruct (f i x) as [[]|e] eqn:Hx; [|done]. intros Hl [|k] y Hy; simpl in Hy.
    + injection Hy as <-. by rewrite Nat.add_0_r.
    + rewrite <- Nat.add_succ_comm. by apply (proj1 (IH (S i)) Hl).
  - intros Hall. pose proof (Hall 0 x eq_refl) as Hx. rewrite Nat.add_0_r in Hx. rewrite Hx.
    apply IH. intros k y Hy. rewrite Nat.add_succ_comm. by apply Hall.
Qed.

Lemma elem_of_append_new d deps names : d ∈ append_new deps names <-> d ∈ deps \/ d ∈ names.
Proof.
  revert deps. induction names as [|x names IH]; intros deps; cbn [append_new].
  - split; [by left|by intros [?|?%not_elem_of_nil]].
  - rewrite IH, elem_of_cons. case_decide as Hx.
    + split; [|intros [?|[-> |?]]]; by tauto.
    + rewrite elem_of_app, list_elem_of_singleton. tauto.
Qed.

Lemma append_new_nodup deps names : NoDup deps -> NoDup (append_new deps names).
Proof.
  revert deps. induction names as [|x names IH]; intros deps Hd; cbn [append_new]; [done|].
  apply IH. case_decide; [done|]. apply NoDup_app. split; [done|]. split; [|apply NoDup_singleton].
  intros y Hy ->%list_elem_of_singleton. done.
Qed.

(** Edges of an adjacency map: those of the last job of the name. *)
Lemma adjacency_lookup f jobs name l :
  adjacency f jobs !! name = Some l -> exists job, job ∈ jobs /\ Job.Name job = name /\ f job = l.
Proof.
  unfold adjacency.
  assert (Hgen : forall adj : gmap string (list string), foldl (fun adj job => <[Job.Name job := f job]> adj) adj jobs !! name
    = Some l -> adj !! name = Some l \/
      exists job, job ∈ jobs /\ Job.Name job = name /\ f job = l).
  { induction jobs as [|job jobs IH]; intros adj; cbn [foldl]; [by left|].
    intros [Ha|(j & ? & ? & ?)]%IH.
    - apply lookup_insert_Some in Ha as [[<- <-]|[_ ?]]; [right|by left].
      exists job. split; [|done]. apply elem_of_cons. by left.
    - right. exists j. split; [|done]. apply elem_of_cons. by right. }
  intros [Hnone|?]%Hgen; [|done]. by rewrite lookup_empty in Hnone.
Qed.

Lemma adjacency_roots f jobs n d : edge (adjacency f jobs) n d -> n ∈ job_names jobs.
Proof.
  unfold edge, deps_of. destruct (adjacency f jobs !! n) as [l|] eqn:Hl;
    [|by intros ?%not_elem_of_nil].
  intros _. apply adjacency_lookup in Hl as (job & Hj & <- & _). by apply list_elem_of_fmap_2.
Qed.

Lemma report_cycle_ok msg f jobs :
  report_cycle msg (find_cycle (adjacency f jobs) (job_names jobs)) = Ok tt
    <-> acyclic (adjacency f jobs).
Proof.
  destruct (find_cycle_spec (adjacency f jobs) (job_names jobs))
    as [(c & -> & Hac)|(a & b & -> & Hac)]; [apply adjacency_roots|by split|by split].
Qed.

(** ** What the validations accept *)

(** Steps the validations look into: [do], [try] and [in_parallel] for the
    limits, [do] and [in_parallel] only for the wiring; no hooks. *)
Definition inner (s t : Step) : Prop := t ∈ Do s \/ t ∈ Try_ s \/ t ∈ InParallel_Steps s.
Definition wired (s t : Step) : Prop := t ∈ Do s \/ t ∈ InParallel_Steps s.

Record limits_ok (s : Step) : Prop := {
  lim_parallelism : (0 <= Parallelism s)%Z;
  lim_task : (0 < Parallelism s)%Z -> Task s <> "";
  lim_in_parallel : (0 <= InParallel_Limit s)%Z;
  lim_across : forall v, v ∈ Across s -> (0 <= AcrossVar.MaxInFlight v)%Z }.

Lemma step_concurrency_limits job i s : step_concurrency_ok job i s = Ok tt <-> limits_ok s.
Proof.
  unfold step_concurrency_ok. cbv zeta.
  destruct (Z.ltb_spec (Parallelism s) 0) as [H1|H1].
  { split; [done|]. intros [? _ _ _]. lia. }
  destruct (_ && _) eqn:H2.
  { apply andb_true_iff in H2 as [H2%Z.ltb_lt H3%bool_decide_eq_true].
    split; [done|]. intros [_ Ht _ _]. by apply Ht in H2. }
  assert (Ht : (0 < Parallelism s)%Z -> Task s <> "").
  { intros Hp%Z.ltb_lt He. rewrite Hp, bool_decide_true in H2 by done. done. }
  destruct (Z.ltb_spec (InParallel_Limit s) 0) as [H3|H3].
  { split; [done|]. intros [_ _ ? _]. lia. }
  rewrite each_ok, Forall_forall. split.
  - intros Hall. split; [done..|]. intros v Hv. specialize (Hall v Hv).
    destruct (Z.ltb_spec (AcrossVar.MaxInFlight v) 0); [done|lia].
  - intros [_ _ _ Hall] v Hv. specialize (Hall v Hv).
    destruct (Z.ltb_spec (AcrossVar.MaxInFlight v) 0); [lia|done].
Qed.

Lemma rtc_split {A} (R : A -> A -> Prop) (P : A -> Prop) s :
  (forall t, rtc R s t -> P t) <-> P s /\ forall u, R s u -> forall t, rtc R u t -> P t.
Proof.
  split.
  - intros Hall. split; [apply Hall, rtc_refl|]. intros u Hu t Ht. apply Hall.
    by eapply rtc_l.
  - intros [Hs Hall] t Ht. inversion Ht; subst; [done|eauto].
Qed.

Lemma each_indexed_Forall {A} (f : nat -> A -> result unit) (P : A -> Prop) i l :
  Forall (fun x => forall i, f i x = Ok tt <-> P x) l ->
  each_indexed f i l = Ok tt <-> forall x, x ∈ l -> P x.
Proof.
  intros Hall. rewrite each_indexed_ok. rewrite Forall_forall in Hall. split.
  - intros Hf x Hx. apply list_elem_of_lookup in Hx as Hk. destruct Hk as [k Hk].
    by apply (Hall x Hx (i + k)), Hf.
  - intros HP k x Hk. pose proof (list_elem_of_lookup_2 _ _ _ Hk) as Hx. by apply Hall, HP.
Qed.

Lemma validateStepConcurrency_unfold job i s :
  validateStepConcurrency job i s =
    match step_concurrency_ok job i s with
    | Err e => Err e
    | Ok _ =>
        match each_indexed (validateStepConcurrency job) 0 (Do s) with
        | Err e => Err e
        | Ok _ =>
            match each_indexed (validateStepConcurrency job) 0 (Try_ s) with
            | Err e => Err e
            | Ok _ => each_indexed (validateStepConcurrency job) 0 (InParallel_Steps s)
            end
        end
    end.
Proof. by destruct s. Qed.

Lemma validateStepConcurrency_ok job i s :
  validateStepConcurrency job i s = Ok tt <-> forall t, rtc inner s t -> limits_ok t.
Proof.
  revert i. induction s as [s IHd IHt IHp _] using Step_nested_ind. intros i.
  rewrite rtc_split. rewrite <- (step_concurrency_limits job i s).
  assert (Hunf : validateStepConcurrency job i s = Ok tt <->
    step_concurrency_ok job i s = Ok tt /\
    each_indexed (validateStepConcurrency job) 0 (Do s) = Ok tt /\
    each_indexed (validateStepConcurrency job) 0 (Try_ s) = Ok tt /\
    each_indexed (validateStepConcurrency job) 0 (InParallel_Steps s) = Ok tt).
  { rewrite validateStepConcurrency_unfold.
    destruct (step_concurrency_ok job i s) as [[]|?]; [|by split; [|intros (? & _)]].
    destruct (each_indexed _ 0 (Do s)) as [[]|?]; [|by split; [|intros (_ & ? & _)]].
    destruct (each_indexed _ 0 (Try_ s)) as [[]|?]; [|by split; [|intros (_ & _ & ? & _)]].
    by split; [|intros (_ & _ & _ & ?)]. }
  rewrite Hunf. set (P := fun t => forall u, rtc inner t u -> limits_ok u).
  rewrite (each_indexed_Forall _ P 0 (Do s)) by done.
  rewrite (each_indexed_Forall _ P 0 (Try_ s)) by done.
  rewrite (each_indexed_Forall _ P 0 (InParallel_Steps s)) by done.
  unfold inner, P. naive_solver.
Qed.

(** [validateConcurrency] accepts a configuration exactly when no limit
    is negative at the pipeline, at a job, or at any step reached through
    [do], [try] and [in_parallel], and parallelism is set on task steps only. *)
Theorem validateConcurrency_exact config :
  validateConcurrency config = Ok tt <->
  (0 <= Config.MaxInFlight config)%Z /\
  forall job, job ∈ Config.Jobs config -> (0 <= Job.MaxInFlight job)%Z /\
    forall s t, s ∈ Job.Plan job -> rtc inner s t -> limits_ok t.
Proof.
  unfold validateConcurrency. destruct (Z.ltb_spec (Config.MaxInFlight config) 0).
  { split; [done|]. intros [? _]. lia. }
  rewrite each_ok, Forall_forall. split.
  - intros Hall. split; [done|]. intros job Hj. specialize (Hall job Hj). simpl in Hall.
    destruct (Z.ltb_spec (Job.MaxInFlight job) 0); [done|]. split; [done|].
    intros s t Hs. revert t. revert s Hs.
    eapply (each_indexed_Forall _ (fun s => forall t, rtc inner s t -> limits_ok t)); [|exact Hall].
    apply Forall_forall. intros x _ i. apply validateStepConcurrency_ok.
  - intros [_ Hall] job Hj. destruct (Hall job Hj) as [Hm Hp].
    destruct (Z.ltb_spec (Job.MaxInFlight job) 0); [lia|].
    apply (each_indexed_Forall _ (fun s => forall t, rtc inner s t -> limits_ok t));
      [|intros s Hs t; by apply Hp].
    apply Forall_forall. intros x _ i. apply validateStepConcurrency_ok.
Qed.

(** *** Dependencies *)

(** [validateDependsOn] accepts the jobs exactly when every dependency
    names another, existing job and the dependency graph has no cycle; in
    particular the search always answers. *)
Theorem validateDependsOn_exact jobs :
  validateDependsOn jobs = Ok tt <->
  (forall job dep, job ∈ jobs -> dep ∈ Job.DependsOn job ->
     dep ∈ job_names jobs /\ dep <> Job.Name job) /\
  acyclic (adjacency Job.DependsOn jobs).
Proof.
  unfold validateDependsOn.
  set (check := fun job => each _ (Job.DependsOn job)).
  assert (Hc : each check jobs = Ok tt <-> forall job dep, job ∈ jobs ->
    dep ∈ Job.DependsOn job -> dep ∈ job_names jobs /\ dep <> Job.Name job).
  { rewrite each_ok, Forall_forall. unfold check. setoid_rewrite each_ok.
    setoid_rewrite Forall_forall. split; intros Hall job dep.
    - intros Hj Hd. specialize (Hall job Hj dep Hd). simpl in Hall.
      destruct (bool_decide_reflect (dep ∈ job_names jobs)); [|done].
      by destruct (bool_decide_reflect (dep = Job.Name job)).
    - intros x Hx. destruct (Hall job x dep Hx) as [Hin Hne].
      rewrite bool_decide_true by done. simpl. by rewrite bool_decide_false. }
  rewrite <- Hc, <- (report_cycle_ok "circular dependency detected: ").
  destruct (each check jobs) as [[]|e]; [by split; [|intros [_ ?]]|by split; [|intros [? _]]].
Qed.

(** A job that runs after another: through a get step or its triggers. *)
Definition waits_for (jobs : list Job.t) (a b : string) : Prop :=
  exists job, job ∈ jobs /\ Job.Name job = a /\
    (b ∈ triggers_passed job \/ exists step, step ∈ Job.Plan job /\ b ∈ get_passed step).

Lemma elem_of_passed_deps b job :
  b ∈ passed_deps job <->
    b ∈ triggers_passed job \/ exists step, step ∈ Job.Plan job /\ b ∈ get_passed step.
Proof.
  unfold passed_deps, extractJobDependencies. rewrite !elem_of_append_new, list_elem_of_join.
  setoid_rewrite list_elem_of_fmap. split.
  - intros [[?%not_elem_of_nil|(l & Hb & (s & -> & Hs))]|?]; [done|right; eauto|by left].
  - intros [?|(s & Hs & Hb)]; [by right|left; right]. exists (get_passed s). eauto.
Qed.

Lemma adjacency_unique f jobs job :
  NoDup (job_names jobs) -> job ∈ jobs -> adjacency f jobs !! Job.Name job = Some (f job).
Proof.
  unfold adjacency. intros Hnd Hj.
  assert (Hkeep : forall l (adj : gmap string (list string)) n x, n ∉ job_names l ->
    adj !! n = Some x ->
    foldl (fun adj job => <[Job.Name job := f job]> adj) adj l !! n = Some x).
  { intros l. induction l as [|j l IH]; intros adj n x Hn Hx; cbn [foldl]; [done|].
    cbn [job_names fmap list_fmap] in Hn. apply not_elem_of_cons in Hn as [Hne Hn].
    apply IH; [done|]. by rewrite lookup_insert_ne. }
  revert Hnd Hj. generalize (∅ : gmap string (list string)).
  induction jobs as [|j jobs IH]; intros adj Hnd Hj; [by apply not_elem_of_nil in Hj|].
  cbn [job_names fmap list_fmap] in Hnd. apply NoDup_cons in Hnd as [Hn Hnd]. cbn [foldl].
  apply elem_of_cons in Hj as [->|Hj].
  - apply Hkeep; [done|]. apply lookup_insert_eq.
  - by apply IH.
Qed.

Lemma passed_edges jobs a b :
  NoDup (job_names jobs) -> edge (adjacency passed_deps jobs) a b <-> waits_for jobs a b.
Proof.
  intros Hnd. unfold edge, deps_of, waits_for. setoid_rewrite <- elem_of_passed_deps. split.
  - destruct (adjacency passed_deps jobs !! a) as [l|] eqn:Hl; [|by intros ?%not_elem_of_nil].
    apply adjacency_lookup in Hl as (job & Hj & <- & <-). eauto.
  - intros (job & Hj & <- & Hb). by rewrite adjacency_unique.
Qed.

Lemma validateJobNames_loop_ok jobs seen :
  match validateJobNames_loop jobs seen with
  | Ok names => names = list_to_set (job_names jobs) ∪ seen /\ NoDup (job_names jobs) /\
      forall n, n ∈ job_names jobs -> n ∉ seen
  | Err _ => ~ (NoDup (job_names jobs) /\ forall n, n ∈ job_names jobs -> n ∉ seen)
  end.
Proof.
  revert seen. induction jobs as [|job jobs IH]; intros seen; cbn [validateJobNames_loop].
  { split; [set_solver|]. split; [constructor|]. by intros n ?%not_elem_of_nil. }
  assert (Hcons : job_names (job :: jobs) = Job.Name job :: job_names jobs) by done.
  rewrite Hcons. destruct (decide (Job.Name job ∈ seen)) as [Hs|Hs].
  { intros [_ Hall]. apply (Hall (Job.Name job)); [apply elem_of_cons; by left|done]. }
  specialize (IH ({[Job.Name job]} ∪ seen)).
  destruct (validateJobNames_loop jobs _) as [names|e].
  - destruct IH as (-> & Hnd & Hall). split; [set_solver|]. split.
    + apply NoDup_cons. split; [|done]. intros Hin. apply (Hall _ Hin). set_solver.
    + intros n [->|Hn]%elem_of_cons; [done|]. specialize (Hall n Hn). set_solver.
  - intros [[Hn Hnd]%NoDup_cons Hall]. apply IH. split; [done|]. intros n Hn'.
    assert (n ∉ seen) by (apply Hall, elem_of_cons; by right).
    assert (n <> Job.Name job) by congruence. set_solver.
Qed.

Lemma triggers_passed_loop name jobNames deps seen :
  triggers_passed_ok name jobNames deps seen = Ok tt <->
  NoDup deps /\ forall d, d ∈ deps -> d <> "" /\ d <> name /\ d ∈ jobNames /\ d ∉ seen.
Proof.
  revert seen. induction deps as [|d deps IH]; intros seen; cbn [triggers_passed_ok].
  { split; [|done]. intros _. split; [constructor|]. by intros d ?%not_elem_of_nil. }
  assert (Hd : (forall x, x ∈ d :: deps -> x <> "" /\ x <> name /\ x ∈ jobNames /\ x ∉ seen) ->
    d <> "" /\ d <> name /\ d ∈ jobNames /\ d ∉ seen)
    by (intros Hx; apply Hx, elem_of_cons; by left).
  case_decide as H1; [by split; [|intros (_ & (? & _)%Hd)]|].
  case_decide as H2; [by split; [|intros (_ & (_ & ? & _)%Hd)]|].
  case_decide as H3; [|by split; [|intros (_ & (_ & _ & ? & _)%Hd)]].
  case_decide as H4; [by split; [|intros (_ & (_ & _ & _ & ?)%Hd)]|].
  rewrite IH, NoDup_cons. split.
  - intros [Hnd Hall]. split.
    + split; [|done]. intros Hin. destruct (Hall d Hin) as (_ & _ & _ & ?). set_solver.
    + intros x [->|Hx]%elem_of_cons; [done|]. destruct (Hall x Hx) as (? & ? & ? & ?). set_solver.
  - intros [[Hn Hnd] Hall]. split; [done|]. intros x Hx.
    destruct (Hall x) as (? & ? & ? & ?); [apply elem_of_cons; by right|].
    assert (x <> d) by congruence. set_solver.
Qed.

(** What makes a configuration runnable. *)
Record runnable (native : string -> bool) (cfg : Config.t) : Prop := {
  run_types : forall r, r ∈ Config.Resources cfg ->
    Resource.Type_ r ∈ valid_types cfg \/ native (Resource.Type_ r) = true;
  run_names : NoDup (job_names (Config.Jobs cfg));
  run_refs : forall job step, job ∈ Config.Jobs cfg -> step ∈ Job.Plan job ->
    Get_ step <> "" -> get_ref step ∈ resource_names cfg;
  run_passed : forall job step dep, job ∈ Config.Jobs cfg -> step ∈ Job.Plan job ->
    dep ∈ GetConfig.Passed (GetConfig_ step) ->
    Get_ step <> "" /\ dep ∈ job_names (Config.Jobs cfg);
  run_triggers : forall job, job ∈ Config.Jobs cfg -> NoDup (triggers_passed job) /\
    forall dep, dep ∈ triggers_passed job ->
      dep <> "" /\ dep <> Job.Name job /\ dep ∈ job_names (Config.Jobs cfg);
  run_leaf : Config.Jobs cfg = [] \/ exists job, job ∈ Config.Jobs cfg /\ is_leaf job = true;
  run_acyclic : forall a, ~ tc (waits_for (Config.Jobs cfg)) a a }.

Lemma validateResourceTypes_ok native cfg :
  validateResourceTypes native cfg = Ok tt <-> forall r, r ∈ Config.Resources cfg ->
    Resource.Type_ r ∈ valid_types cfg \/ native (Resource.Type_ r) = true.
Proof.
  unfold validateResourceTypes. rewrite each_ok, Forall_forall.
  apply forall_proper. intros r. apply forall_proper. intros _.
  destruct (bool_decide_reflect (Resource.Type_ r ∈ valid_types cfg)); simpl; [by split; auto|].
  destruct (native _); simpl; (split; [try done; auto|by intros [?|?]]).
Qed.

Lemma validateResourceRefs_ok cfg :
  validateResourceRefs cfg = Ok tt <-> forall job step, job ∈ Config.Jobs cfg ->
    step ∈ Job.Plan job -> Get_ step <> "" -> get_ref step ∈ resource_names cfg.
Proof.
  unfold validateResourceRefs. rewrite each_ok, Forall_forall. setoid_rewrite each_ok.
  setoid_rewrite Forall_forall. split.
  - intros Hall job step Hj Hs Hg. specialize (Hall job Hj step Hs). simpl in Hall.
    rewrite bool_decide_false in Hall by done. simpl in Hall.
    by destruct (bool_decide_reflect (get_ref step ∈ resource_names cfg)).
  - intros Hall job Hj step Hs. destruct (bool_decide_reflect (Get_ step = "")); [done|].
    simpl. by rewrite bool_decide_true by eauto.
Qed.

Lemma validatePassedConstraints_ok cfg jobNames :
  validatePassedConstraints cfg jobNames = Ok tt <-> forall job, job ∈ Config.Jobs cfg ->
    (forall step dep, step ∈ Job.Plan job -> dep ∈ GetConfig.Passed (GetConfig_ step) ->
       Get_ step <> "" /\ dep ∈ jobNames) /\
    NoDup (triggers_passed job) /\
    forall dep, dep ∈ triggers_passed job -> dep <> "" /\ dep <> Job.Name job /\ dep ∈ jobNames.
Proof.
  unfold validatePassedConstraints. rewrite each_ok, Forall_forall.
  apply forall_proper. intros job. apply forall_proper. intros _.
  assert (Hplan : validateJobPlanPassed job jobNames = Ok tt <->
    forall step dep, step ∈ Job.Plan job -> dep ∈ GetConfig.Passed (GetConfig_ step) ->
       Get_ step <> "" /\ dep ∈ jobNames).
  { unfold validateJobPlanPassed. rewrite each_ok, Forall_forall. split.
    - intros Hall step dep Hs Hd. specialize (Hall step Hs). simpl in Hall.
      destruct (bool_decide_reflect (Get_ step = "")); simpl in Hall.
      + destruct (GetConfig.Passed (GetConfig_ step)); [by apply not_elem_of_nil in Hd|done].
      + split; [done|]. rewrite each_ok, Forall_forall in Hall. specialize (Hall dep Hd).
        simpl in Hall. by case_decide.
    - intros Hall step Hs. destruct (bool_decide_reflect (Get_ step = "")) as [Hg|Hg]; simpl.
      + destruct (GetConfig.Passed (GetConfig_ step)) as [|d l] eqn:Hl; [done|].
        destruct (Hall step d Hs) as [? _]; [rewrite Hl; apply elem_of_cons; by left|done].
      + rewrite each_ok, Forall_forall. intros d Hd. rewrite decide_True; [done|].
        by apply (Hall step d). }
  rewrite <- Hplan. destruct (validateJobPlanPassed job jobNames) as [[]|e];
    [|by split; [|intros [? _]]].
  unfold validateJobTriggersPassed. rewrite triggers_passed_loop. split.
  - intros [? Hall]. split; [done|]. split; [done|]. intros d Hd.
    by destruct (Hall d Hd) as (? & ? & ? & _).
  - intros (_ & ? & Hall). split; [done|]. intros d Hd.
    destruct (Hall d Hd) as (? & ? & ?). set_solver.
Qed.

Lemma validateLeafTriggers_ok cfg :
  validateLeafTriggers cfg = Ok tt <->
  Config.Jobs cfg = [] \/ exists job, job ∈ Config.Jobs cfg /\ is_leaf job = true.
Proof.
  unfold validateLeafTriggers. destruct (Config.Jobs cfg) as [|j jobs]; [by split; auto|].
  setoid_rewrite list_elem_of_In. rewrite <- existsb_exists.
  destruct (existsb is_leaf (j :: jobs)); split; try done; [auto|by intros [Ha|Ha]].
Qed.

Lemma validateNoCycles_ok cfg :
  NoDup (job_names (Config.Jobs cfg)) ->
  (validateNoCycles cfg = Ok tt <-> forall a, ~ tc (waits_for (Config.Jobs cfg)) a a).
Proof.
  intros Hnd. unfold validateNoCycles. rewrite report_cycle_ok. unfold acyclic.
  apply forall_proper. intros a. apply not_iff_compat.
  split; apply tc_congruence with (f := id); intros x y; by apply passed_edges.
Qed.

(** C37: [ValidateConfig] lets a run start exactly on the runnable
    configurations: known resource types, distinct job names, resolved get
    steps and passed constraints on get steps only, duplicate-free and
    resolved triggers.passed, some job a trigger can start, and no job that
    waits for itself, however indirectly. *)
Theorem ValidateConfig_exact native cfg :
  ValidateConfig native cfg = Ok tt <-> runnable native cfg.
Proof.
  unfold ValidateConfig, validateJobNames.
  pose proof (validateResourceTypes_ok native cfg) as Htypes.
  destruct (validateResourceTypes native cfg) as [[]|e];
    [|by split; [|intros [Ht _ _ _ _ _ _]; apply Htypes in Ht]].
  pose proof (validateJobNames_loop_ok (Config.Jobs cfg) ∅) as Hnames.
  destruct (validateJobNames_loop _ ∅) as [names|e].
  2: { split; [done|]. intros [_ Hnd _ _ _ _ _]. exfalso. apply Hnames. split; [done|].
       intros n _. by apply not_elem_of_empty. }
  destruct Hnames as (-> & Hnd & _).
  pose proof (validateResourceRefs_ok cfg) as Hrefs.
  destruct (validateResourceRefs cfg) as [[]|e];
    [|by split; [|intros [_ _ Hr _ _ _ _]; apply Hrefs in Hr]].
  pose proof (validatePassedConstraints_ok cfg (list_to_set (job_names (Config.Jobs cfg)) ∪ ∅))
    as Hpass.
  assert (Hin : forall d, d ∈ (list_to_set (job_names (Config.Jobs cfg)) ∪ ∅ : gset string) <->
    d ∈ job_names (Config.Jobs cfg)) by (intros d; set_solver).
  setoid_rewrite Hin in Hpass.
  destruct (validatePassedConstraints cfg _) as [[]|e].
  2: { split; [done|]. intros [_ _ _ Hp Htr _ _]. apply Hpass. intros job Hj.
       split; [by intros step dep; apply Hp|by apply Htr]. }
  pose proof (validateLeafTriggers_ok cfg) as Hleaf.
  destruct (validateLeafTriggers cfg) as [[]|e];
    [|by split; [|intros [_ _ _ _ _ Hl _]; apply Hleaf in Hl]].
  rewrite validateNoCycles_ok by done. split; [|by intros []]. intros Hac.
  pose proof (proj1 Hpass eq_refl) as Hp. split.
  - by apply Htypes.
  - done.
  - by apply Hrefs.
  - intros job step dep Hj. by apply Hp.
  - intros job Hj. by apply Hp.
  - by apply Hleaf.
  - done.
Qed.

(** *** Wiring *)
Lemma wired_ind (P : Step -> Prop) :
  (forall s, (forall t, wired s t -> P t) -> P s) -> forall s, P s.
Proof.
  intros H s. induction s as [s IHd _ IHp _] using Step_nested_ind. apply H.
  rewrite Forall_forall in IHd. rewrite Forall_forall in IHp. intros t [?|?]; auto.
Qed.

Definition collect_all (l : list Step) (available : gset string) : gset string :=
  foldl (fun av s => collectStepOutputs s av) available l.
Definition check_all (l : list Step) (available : gset string) (job : string) : list err :=
  mjoin ((fun s => checkStepInputs s available job) <$> l).

Lemma collectStepOutputs_unfold s av :
  collectStepOutputs s av =
    collect_all (InParallel_Steps s)
      (collect_all (Do s) (list_to_set (own_outputs s) ∪ av)).
Proof.
  assert (Hl : forall l av, (fix collect l (available : gset string) := match l with
     | [] => available
     | s :: l => collect l (collectStepOutputs s available)
     end) l av = collect_all l av).
  { intros l. induction l as [|x l IH]; intros av'; [done|]. apply IH. }
  transitivity ((fix collect l (available : gset string) := match l with
     | [] => available
     | s :: l => collect l (collectStepOutputs s available)
     end) (InParallel_Steps s) ((fix collect l (available : gset string) := match l with
     | [] => available
     | s :: l => collect l (collectStepOutputs s available)
     end) (Do s) (list_to_set (own_outputs s) ∪ av))); [by destruct s|].
  by rewrite !Hl.
Qed.

Lemma checkStepInputs_nil s av job :
  checkStepInputs s av job = [] <->
    (forall i, i ∈ checked_inputs s -> i ∈ av) /\ check_all (Do s) av job = [] /\
    check_all (InParallel_Steps s) av job = [].
Proof.
  assert (Hl : forall l, (fix check l := match l with
      | [] => []
      | s :: l => checkStepInputs s av job ++ check l
      end)%list l = check_all l av job).
  { intros l. induction l as [|x l IH]; [done|]. unfold check_all. cbn [fmap list_fmap].
    cbn [mjoin list_join]. f_equal. exact IH. }
  assert (Hunf : checkStepInputs s av job =
    (((fun name => EMsg ("step " ++ q (if decide (Task s = "") then Agent s else Task s)
        ++ " in job " ++ q job ++ " declares input "
        ++ q name ++ ", but no prior step produces it as an output")) <$>
       List.filter (fun name => negb (bool_decide (name ∈ av))) (checked_inputs s))
    ++ (fix check l := match l with
        | [] => []
        | s :: l => (checkStepInputs s av job ++ check l)%list
        end) (Do s)
    ++ (fix check l := match l with
        | [] => []
        | s :: l => (checkStepInputs s av job ++ check l)%list
        end) (InParallel_Steps s))%list) by (by destruct s).
  rewrite Hunf, !Hl, !app_nil. apply and_iff_compat_r.
  assert (Hf : forall names, (List.filter (fun name => negb (bool_decide (name ∈ av))) names = [])
    <-> forall i, i ∈ names -> i ∈ av).
  { intros names. induction names as [|n names IH]; cbn [List.filter].
    - by split; [intros _ i ?%not_elem_of_nil|].
    - destruct (bool_decide_reflect (n ∈ av)) as [Hin|Hout]; cbn [negb].
      + rewrite IH. split; [intros Hall i [->|?]%elem_of_cons; [done|by apply Hall]|].
        intros Hall i ?. apply Hall, elem_of_cons. by right.
      + split; [done|]. intros Hall. exfalso. apply Hout, Hall, elem_of_cons. by left. }
  rewrite <- Hf. split; [by intros ?%fmap_nil_inv|]. by intros ->.
Qed.

Lemma elem_of_collect_all x l av :
  (forall s, s ∈ l -> forall av, x ∈ collectStepOutputs s av <->
     x ∈ av \/ exists t, rtc wired s t /\ x ∈ own_outputs t) ->
  x ∈ collect_all l av <-> x ∈ av \/ exists s t, s ∈ l /\ rtc wired s t /\ x ∈ own_outputs t.
Proof.
  revert av. induction l as [|s l IH]; intros av Hs; unfold collect_all; cbn [foldl].
  - split; [by left|]. by intros [?|(s & t & ?%not_elem_of_nil & _)].
  - fold (collect_all l (collectStepOutputs s av)). rewrite IH.
    2: { intros u Hu. apply Hs, elem_of_cons. by right. }
    rewrite (Hs s) by (apply elem_of_cons; by left). split.
    + intros [[?|(t & ? & ?)]|(u & t & ? & ? & ?)]; [by left|right; exists s, t|right; exists u, t];
        rewrite elem_of_cons; auto.
    + intros [?|(u & t & [->|?]%elem_of_cons & ? & ?)]; [by left; left|left; right; eauto|].
      right. exists u, t. auto.
Qed.

Lemma elem_of_collectStepOutputs x s : forall av,
  x ∈ collectStepOutputs s av <-> x ∈ av \/ exists t, rtc wired s t /\ x ∈ own_outputs t.
Proof.
  induction s as [s IH] using wired_ind. intros av. rewrite collectStepOutputs_unfold.
  rewrite !elem_of_collect_all by (intros u Hu; apply IH; unfold wired; auto).
  rewrite elem_of_union, elem_of_list_to_set. split.
  - intros [[[?|?]|(u & t & ? & ? & ?)]|(u & t & ? & ? & ?)]; [right|by left|right|right].
    + exists s. split; [apply rtc_refl|done].
    + exists t. split; [|done]. eapply rtc_l; [|done]. by left.
    + exists t. split; [|done]. eapply rtc_l; [|done]. by right.
  - intros [?|(t & Ht & ?)]; [by left; left; right|]. inversion Ht as [|? u ? [Hu|Hu] Hut]; subst.
    + by left; left; left.
    + left. right. eauto.
    + right. eauto.
Qed.

Lemma checkStepInputs_ok s av job :
  checkStepInputs s av job = [] <->
    forall t, rtc wired s t -> forall i, i ∈ checked_inputs t -> i ∈ av.
Proof.
  induction s as [s IH] using wired_ind.
  rewrite (rtc_split wired (fun t => forall i, i ∈ checked_inputs t -> i ∈ av)).
  rewrite checkStepInputs_nil. apply and_iff_compat_l.
  assert (Hall : forall l, (forall t, t ∈ l -> wired s t) -> check_all l av job = [] <->
    forall u, u ∈ l -> forall t, rtc wired u t -> forall i, i ∈ checked_inputs t -> i ∈ av).
  { intros l. induction l as [|x l IHl]; intros Hl.
    - split; [by intros _ u ?%not_elem_of_nil|done].
    - unfold check_all. cbn [fmap list_fmap]. cbn [mjoin list_join]. rewrite app_nil.
      fold (check_all l av job). rewrite IHl by (intros t Ht; apply Hl, elem_of_cons; by right).
      rewrite IH by (apply Hl, elem_of_cons; by left). split.
      + intros [Hx Hrest] u [->|Hu]%elem_of_cons; [exact Hx|exact (Hrest u Hu)].
      + intros Hu. split; [apply Hu, elem_of_cons; by left|].
        intros u ?. apply Hu, elem_of_cons. by right. }
  rewrite !Hall by (intros; unfold wired; auto). unfold wired. naive_solver.
Qed.

Lemma wire_plan_ok job plan av :
  wire_plan job plan av = Ok tt <->
  forall pre step post, plan = (pre ++ step :: post)%list ->
    forall t, rtc wired step t -> forall i, i ∈ checked_inputs t ->
      i ∈ av \/ exists p u, p ∈ (pre ++ [step])%list /\ rtc wired p u /\ i ∈ own_outputs u.
Proof.
  revert av. induction plan as [|s plan IH]; intros av; cbn [wire_plan].
  { split; [|done]. intros _ [|] ? ? [=]. }
  pose proof (checkStepInputs_ok s (collectStepOutputs s av) job) as Hs. cbv zeta.
  assert (Hhead : (forall t, rtc wired s t -> forall i, i ∈ checked_inputs t ->
      i ∈ collectStepOutputs s av) <-> forall t, rtc wired s t -> forall i, i ∈ checked_inputs t ->
      i ∈ av \/ exists p u, p ∈ [s] /\ rtc wired p u /\ i ∈ own_outputs u).
  { setoid_rewrite elem_of_collectStepOutputs. setoid_rewrite list_elem_of_singleton.
    naive_solver. }
  rewrite Hhead in Hs. destruct (checkStepInputs s _ job) as [|e l].
  2: { split; [done|]. intros Hall. destruct Hs as [_ Hs]. discriminate Hs.
       by apply (Hall [] s plan). }
  rewrite IH. split.
  - intros Hrest [|x pre] step post Heq; injection Heq as <- ->; [by apply Hs|].
    intros t Ht i Hi. destruct (Hrest pre step post eq_refl t Ht i Hi) as [Hav|(p & u & Hp & ?)].
    + apply elem_of_collectStepOutputs in Hav as [?|(u & ? & ?)]; [by left|right].
      exists s, u. split; [|done]. apply elem_of_cons. by left.
    + right. exists p, u. split; [|done]. apply elem_of_cons. by right.
  - intros Hall pre step post -> t Ht i Hi.
    destruct (Hall (s :: pre) step post eq_refl t Ht i Hi) as [Hav|(p & u & Hp & ? & ?)];
      rewrite elem_of_collectStepOutputs; [by left; left|].
    cbn [app] in Hp. apply elem_of_cons in Hp as [->|Hp]; [left; right; eauto|right; eauto].
Qed.

(** [validateInputOutputWiring] accepts the jobs exactly when every
    checked input of a step of a plan, or of a step inside it through [do] and
    [in_parallel], is an output of that step or of one before it in the plan,
    again looking inside through [do] and [in_parallel]. *)
Theorem validateInputOutputWiring_exact jobs :
  validateInputOutputWiring jobs = Ok tt <->
  forall job pre step post, job ∈ jobs -> Job.Plan job = (pre ++ step :: post)%list ->
    forall t i, rtc wired step t -> i ∈ checked_inputs t ->
      exists p u, p ∈ (pre ++ [step])%list /\ rtc wired p u /\ i ∈ own_outputs u.
Proof.
  unfold validateInputOutputWiring. rewrite each_ok, Forall_forall.
  setoid_rewrite wire_plan_ok. split.
  - intros Hall job pre step post Hj Hp t i Ht Hi.
    destruct (Hall job Hj pre step post Hp t Ht i Hi) as [?%not_elem_of_empty|?]; done.
  - intros Hall job Hj pre step post Hp t Ht i Hi. right. by eapply Hall.
Qed.
