(* ===== verification/Procs.v ===== *)
(** * Processes with groups of goroutines

    The step handlers of runtime/backwards run sequentially, except that
    in_parallel, across and parallel tasks start a group of goroutines behind
    a semaphore and wait for it (golang.org/x/sync errgroup and semaphore). A
    process is a tree of atomic actions on a shared state; a group is part of
    the tree, and [pstep] lets any of its members move.

    A member that ends gives its slot back and only then, as a separate step,
    records its error: the order in which errors are recorded is not the order
    in which members end. With fail-fast the first error cancels the group,
    after which nothing more is launched. A goroutine that panics ([PCrash])
    takes the server with it: nothing in the handlers recovers. *)
From S2P Require Import Prelude.
From stdpp Require Import relations.
Set Default Proof Using "Type*".

Section procs.
Context {S E : Type}.

Inductive proc : Type :=
  | PRet (e : option E)
  | PCrash
  | PAct (f : S -> S * proc)
  | PGroup (limit : nat) (failFast cancelled : bool) (pending running : list proc)
      (returned : list (option E)) (first : option E) (k : option E -> proc).

(** What a member's end does to the group. *)
Definition cancels (failFast : bool) (e : option E) : bool :=
  failFast && bool_decide (is_Some e).

(** [errOnce.Do]: the first error recorded is the group's. *)
Definition record_err (first e : option E) : option E :=
  match first with Some _ => first | None => e end.

Inductive pstep : S * proc -> S * proc -> Prop :=
  | step_act s f : pstep (s, PAct f) (f s)
  | step_launch s lim ff p ps run ret first k :
      length run < lim ->
      pstep (s, PGroup lim ff false (p :: ps) run ret first k)
            (s, PGroup lim ff false ps (run ++ [p]) ret first k)
  | step_break s lim ff p ps run ret first k :
      pstep (s, PGroup lim ff true (p :: ps) run ret first k)
            (s, PGroup lim ff true [] run ret first k)
  | step_member s s' lim ff c ps r1 p p' r2 ret first k :
      pstep (s, p) (s', p') ->
      pstep (s, PGroup lim ff c ps (r1 ++ p :: r2) ret first k)
            (s', PGroup lim ff c ps (r1 ++ p' :: r2) ret first k)
  | step_return s lim ff c ps r1 e r2 ret first k :
      pstep (s, PGroup lim ff c ps (r1 ++ PRet e :: r2) ret first k)
            (s, PGroup lim ff (c || cancels ff e) ps (r1 ++ r2) (ret ++ [e]) first k)
  | step_record s lim ff c ps run e1 e e2 first k :
      pstep (s, PGroup lim ff c ps run (e1 ++ e :: e2) first k)
            (s, PGroup lim ff c ps run (e1 ++ e2) (record_err first e) k)
  | step_wait s lim ff c first k :
      pstep (s, PGroup lim ff c [] [] [] first k) (s, k first).

(** ** Building processes *)

(** An atomic access, and sequencing: [pbind p k] goes on with [k] and what
    [p] returned. *)
Definition act {A} (f : S -> S * A) (k : A -> proc) : proc :=
  PAct (fun s => let '(s', a) := f s in (s', k a)).

Fixpoint pbind (p : proc) (k : option E -> proc) : proc :=
  match p with
  | PRet e => k e
  | PCrash => PCrash
  | PAct f => PAct (fun s => let '(s', p') := f s in (s', pbind p' k))
  | PGroup lim ff c ps run ret first k' =>
      PGroup lim ff c ps run ret first (fun e => pbind (k' e) k)
  end.

(** [g.Wait()] of a group of [members] behind a semaphore. *)
Definition group (limit : nat) (failFast : bool) (members : list proc)
    (k : option E -> proc) : proc :=
  PGroup limit failFast false members [] [] None k.

(** ** Induction *)
Fixpoint proc_nested_ind (P : proc -> Prop)
    (Hret : forall e, P (PRet e))
    (Hcrash : P PCrash)
    (Hact : forall f, (forall s, P (f s).2) -> P (PAct f))
    (Hgroup : forall lim ff c ps run ret first k, Forall P ps -> Forall P run ->
       (forall e, P (k e)) -> P (PGroup lim ff c ps run ret first k))
    (p : proc) {struct p} : P p :=
  let rec := proc_nested_ind P Hret Hcrash Hact Hgroup in
  let recs := fix recs (l : list proc) : Forall P l :=
    match l with
    | [] => @List.Forall_nil _ P
    | a :: l => @List.Forall_cons _ P a l (rec a) (recs l)
    end in
  match p with
  | PRet e => Hret e
  | PCrash => Hcrash
  | PAct f => Hact f (fun s => rec (f s).2)
  | PGroup lim ff c ps run ret first k =>
      Hgroup lim ff c ps run ret first k (recs ps) (recs run) (fun e => rec (k e))
  end.
End procs.
Arguments proc : clear implicits.

(** ** Every schedule ends *)
Section termination.
Context {S E : Type}.
Implicit Types p : proc S E.

(** A step, the state left out. *)
Definition moves (p p' : proc S E) : Prop := exists s s', pstep (s, p) (s', p').

(** One member of a list moves. *)
Inductive one_moves : list (proc S E) -> list (proc S E) -> Prop :=
  | one_moves_at r1 p p' r2 : moves p p' -> one_moves (r1 ++ p :: r2) (r1 ++ p' :: r2).

Definition ends p : Prop := Acc (fun p' p => moves p p') p.

Lemma one_moves_ends (run : list (proc S E)) :
  Forall ends run -> Acc (fun l' l => one_moves l l') run.
Proof.
  induction run as [|p run IH]; intros Hall.
  { constructor. intros l' Hl. inversion Hl as [r1 ? ? ? ? He]. by destruct r1. }
  apply Forall_cons in Hall as [Hp Hrun]. specialize (IH Hrun). clear Hrun.
  revert run IH. induction Hp as [p _ IHp]. intros run Hacc.
  induction Hacc as [run Hrun IHrun]. constructor. intros l' Hl.
  inversion Hl as [r1 x x' r2 Hx He]. destruct r1 as [|y r1]; simplify_eq/=.
  - apply IHp; [done|]. by constructor.
  - apply IHrun. by constructor.
Qed.

(** Launching, ending and recording each bring the group nearer its end. *)
Definition backlog (ps run : list (proc S E)) (ret : list (option E)) : nat :=
  3 * length ps + 2 * length run + length ret.

Lemma group_ends n : forall lim ff c ps run ret first k,
  backlog ps run ret = n -> Forall ends ps -> Forall ends run -> (forall e, ends (k e)) ->
  ends (PGroup lim ff c ps run ret first k).
Proof.
  induction (lt_wf n) as [n _ IH]. intros lim ff c ps run ret first k Hn Hps Hrun Hk.
  pose proof (one_moves_ends run Hrun) as Hacc. revert c first Hn Hrun.
  induction Hacc as [run _ IHrun]. intros c first Hn Hrun.
  constructor. intros p' (s & s' & Hstep). unfold backlog in *.
  inversion Hstep; subst; clear Hstep.
  - apply Forall_cons in Hps as [Hp Hps]. eapply IH; [|reflexivity|done| |done].
    + unfold backlog. rewrite length_app. simpl. lia.
    + apply Forall_app. by split; [|apply Forall_singleton].
  - eapply IH; [|reflexivity|constructor|done|done]. unfold backlog. simpl. lia.
  - match goal with H : pstep (s, ?x) (s', ?y) |- _ => rename x into q, y into q', H into Hq end.
    apply IHrun.
    + constructor. by exists s, s'.
    + rewrite !length_app in *. simpl. lia.
    + apply Forall_app in Hrun as [Hr1 [Hq' Hr2]%Forall_cons]. apply Forall_app.
      split; [done|]. constructor; [|done]. apply (Acc_inv Hq'). by exists s, s'.
  - eapply IH; [|reflexivity|done| |done].
    + unfold backlog. rewrite !length_app. simpl. lia.
    + apply Forall_app in Hrun as [? [_ ?]%Forall_cons]. by apply Forall_app.
  - eapply IH; [|reflexivity|done..]. unfold backlog. rewrite !length_app. simpl. lia.
  - apply Hk.
Qed.

Lemma proc_ends p : ends p.
Proof.
  induction p as [e| |f IH|lim ff c ps run ret first k Hps Hrun Hk] using proc_nested_ind.
  - constructor. intros p' (s & s' & Hstep). inversion Hstep.
  - constructor. intros p' (s & s' & Hstep). inversion Hstep.
  - constructor. intros p' (s & s' & Hstep). specialize (IH s).
    inversion Hstep; subst. by match goal with H : f s = _ |- _ => rewrite H in IH end.
  - by eapply group_ends.
Qed.
End termination.

(** ** Reasoning about processes

    [keeps_lim L p]: every atomic action of [p], whenever it happens, preserves
    [I], and every group has room for its members, and permits of which [L]
    holds; [keeps] asks nothing of the permits. This is what the members of
    a group may rely on of each other. [wp s p] describes [p] run by itself
    from [s]: its own actions one by one, groups only through [I]. *)
Section logic.
Context {S E : Type} (I : S -> Prop).

Inductive keeps_lim (L : nat -> bool -> Prop) : proc S E -> Prop :=
  | keeps_ret e : keeps_lim L (PRet e)
  | keeps_act f : (forall s, I s -> I (f s).1 /\ keeps_lim L (f s).2) -> keeps_lim L (PAct f)
  | keeps_group lim ff c ps run ret first k :
      L lim ff -> (ps <> [] -> 0 < lim) -> length run <= lim ->
      (forall p, p ∈ ps -> keeps_lim L p) -> (forall p, p ∈ run -> keeps_lim L p) ->
      (forall e, keeps_lim L (k e)) -> keeps_lim L (PGroup lim ff c ps run ret first k).
Abbreviation keeps := (keeps_lim (fun _ _ => True)).

Lemma keeps_mono (L L' : nat -> bool -> Prop) p : (forall n b, L n b -> L' n b) -> keeps_lim L p -> keeps_lim L' p.
Proof.
  intros HL. induction p as [e| |f IH|lim ff c ps run ret first k Hps Hrun IH] using proc_nested_ind;
    intros Hk; inversion Hk as [|? Hf|? ? ? ? ? ? ? ? Hl Hlim Hlen H1 H2 H3]; subst.
  - constructor.
  - constructor. intros s HI. destruct (Hf s HI). split; [done|by apply IH].
  - rewrite Forall_forall in Hps, Hrun. constructor; eauto.
Qed.

Inductive wp (Q : S -> option E -> Prop) : S -> proc S E -> Prop :=
  | wp_ret s e : Q s e -> wp Q s (PRet e)
  | wp_act s f : wp Q (f s).1 (f s).2 -> wp Q s (PAct f)
  | wp_group s lim ff c ps run ret first k :
      I s -> (ps <> [] -> 0 < lim) -> length run <= lim ->
      (forall p, p ∈ ps -> keeps p) -> (forall p, p ∈ run -> keeps p) ->
      (forall s e, I s -> wp Q s (k e)) -> wp Q s (PGroup lim ff c ps run ret first k).

Lemma keeps_step L s p s' p' :
  pstep (s, p) (s', p') -> keeps_lim L p -> I s -> I s' /\ keeps_lim L p'.
Proof.
  intros Hstep. remember (s, p) as c eqn:Ec. remember (s', p') as c' eqn:Ec'.
  revert s p s' p' Ec Ec'.
  induction Hstep as [s f|s lim ff p ps run ret first k Hl|s lim ff p ps run ret first k
    |s s1 lim ff c ps r1 p p1 r2 ret first k Hp IH|s lim ff c ps r1 e r2 ret first k
    |s lim ff c ps run e1 e e2 first k|s lim ff c first k];
    intros s0 p0 s0' p0' Ec Ec'; simplify_eq; intros Hk HI;
    (inversion Hk as [|? Hf|? ? ? ? ? ? ? ? HL Hlim Hlen Hps Hrun Hcont]; subst).
  - specialize (Hf s0 HI). by rewrite Ec' in Hf.
  - split; [done|]. constructor; [done|..].
    + intros _. apply Hlim. done.
    + rewrite length_app. simpl. lia.
    + intros x Hx. apply Hps, elem_of_cons. by right.
    + intros x [?|?%list_elem_of_singleton]%elem_of_app; [by apply Hrun|]. subst.
      apply Hps, elem_of_cons. by left.
    + done.
  - split; [done|]. by constructor; [| | |intros x ?%not_elem_of_nil| |].
  - assert (Hp1 : keeps_lim L p) by (apply Hrun, elem_of_app; right; apply elem_of_cons; by left).
    destruct (IH _ _ _ _ eq_refl eq_refl Hp1 HI) as [HI1 Hk1]. split; [done|].
    constructor; [done|done| |done| |done].
    + rewrite !length_app in *. simpl in *. lia.
    + intros x [Hx|[->|Hx]%elem_of_cons]%elem_of_app; [|done|]; apply Hrun, elem_of_app;
        [by left|right; apply elem_of_cons; by right].
  - split; [done|]. constructor; [done|done| |done| |done].
    + rewrite !length_app in *. simpl in *. lia.
    + intros x [Hx|Hx]%elem_of_app; apply Hrun, elem_of_app;
        [by left|right; apply elem_of_cons; by right].
  - split; [done|]. by constructor.
  - by split.
Qed.

(** A step of a group is one for whatever comes after it. *)
Lemma group_step s lim ff c ps run ret first k s' p' :
  pstep (s, PGroup lim ff c ps run ret first k : proc S E) (s', p') ->
  (s' = s /\ p' = k first) \/
  exists c' ps' run' ret' first', p' = PGroup lim ff c' ps' run' ret' first' k /\
    forall k', pstep (s, PGroup lim ff c ps run ret first k')
                    (s', PGroup lim ff c' ps' run' ret' first' k').
Proof.
  intros Hstep. inversion Hstep; subst; try (by left); right; do 5 eexists;
    (split; [reflexivity|]); intros k'; by constructor.
Qed.

Lemma wp_step Q s p s' p' : pstep (s, p) (s', p') -> wp Q s p -> wp Q s' p'.
Proof.
  intros Hstep Hwp. inversion Hwp as [? ? HQ|? f Hf|? lim ff c ps run ret first k HI Hlim Hlen
    Hps Hrun Hcont]; subst.
  - inversion Hstep.
  - inversion Hstep; subst. match goal with H : f s = _ |- _ => by rewrite H in Hf end.
  - apply group_step in Hstep as [[-> ->]|(c' & ps' & run' & ret' & first' & -> & Hany)].
    + by apply Hcont.
    + destruct (keeps_step (fun _ _ => True) _ _ _ _ (Hany (fun _ => PRet None))) as [HI' Hk]; [|done|].
      { constructor; [done..|]. intros e. constructor. }
      inversion Hk; subst. by constructor.
Qed.

(** Adequacy: whatever the schedule. *)
Lemma wp_adequate Q s p s' e : wp Q s p -> rtc pstep (s, p) (s', PRet e) -> Q s' e.
Proof.
  intros Hwp Hs. remember (s, p) as c eqn:Ec. remember (s', PRet e) as c' eqn:Ec'.
  revert s p Ec Hwp. induction Hs as [c|c1 c2 c3 H1 _ IH]; intros s p Ec Hwp; subst.
  - injection Ec as -> <-. by inversion Hwp.
  - destruct c2 as [s2 p2]. by eapply (IH eq_refl), wp_step.
Qed.

Lemma keeps_steps L s p s' p' :
  rtc pstep (s, p) (s', p') -> keeps_lim L p -> I s -> I s' /\ keeps_lim L p'.
Proof.
  intros Hs. remember (s, p) as c eqn:Ec. remember (s', p') as c' eqn:Ec'.
  revert s p Ec. induction Hs as [c|c1 c2 c3 H1 _ IH]; intros s p Ec Hk HI; subst.
  - by injection Ec as -> ->.
  - destruct c2 as [s2 p2]. destruct (keeps_step L _ _ _ _ H1 Hk HI). by eapply (IH eq_refl).
Qed.

(** A process that is not done can move: nothing waits for ever. *)
Lemma keeps_progress p : keeps p -> forall s, I s ->
  (exists e, p = PRet e) \/ exists s' p', pstep (s, p) (s', p').
Proof.
  induction p as [e| |f _|lim ff c ps run ret first k Hps Hrun _] using proc_nested_ind;
    intros Hk s HI; [by left; eexists|by inversion Hk|right..].
  { exists (f s).1, (f s).2. rewrite <- surjective_pairing. constructor. }
  inversion Hk as [| |? ? ? ? ? ? ? ? _ Hlim Hlen Hkps Hkrun _]; subst.
  destruct ret as [|e ret]; [|by eexists _, _; apply (step_record _ _ _ _ _ _ [])].
  destruct run as [|p run].
  - destruct ps as [|p ps]; [by eexists _, _; constructor|].
    destruct c; eexists _, _; [apply step_break|apply step_launch]. simpl.
    by apply Hlim.
  - apply Forall_cons in Hrun as [Hp _].
    destruct (Hp (Hkrun p ltac:(apply elem_of_cons; by left)) s HI) as [[e ->]|(s' & p' & Hstep)].
    + eexists _, _. apply (step_return _ _ _ _ _ []).
    + eexists _, _. by apply (step_member _ _ _ _ _ _ []).
Qed.

(** ** Composition *)
Lemma keeps_pbind L p k : keeps_lim L p -> (forall e, keeps_lim L (k e)) -> keeps_lim L (pbind p k).
Proof.
  intros Hp Hk. induction p as [e| |f IH|lim ff c ps run ret first k' _ _ IH] using proc_nested_ind;
    cbn [pbind]; [by apply Hk|by inversion Hp|..];
    inversion Hp as [|? Hf|? ? ? ? ? ? ? ? HL Hlim Hlen H1 H2 H3]; subst.
  - constructor. intros s HI. specialize (IH s). specialize (Hf s HI).
    destruct (f s) as [s' p']. split; [apply Hf|apply IH, Hf].
  - constructor; [done..|]. intros e. by apply IH.
Qed.

Lemma keeps_bind_act L {A} (f : S -> S * A) (k : A -> proc S E) :
  (forall s, I s -> I (f s).1) -> (forall a, keeps_lim L (k a)) -> keeps_lim L (act f k).
Proof.
  intros Hf Hk. constructor. intros s HI. specialize (Hf s HI).
  destruct (f s) as [s' a]. split; [done|apply Hk].
Qed.

Lemma keeps_group_of (L : nat -> bool -> Prop) lim ff members (k : option E -> proc S E) :
  L lim ff -> (members <> [] -> 0 < lim) -> (forall p, p ∈ members -> keeps_lim L p) ->
  (forall e, keeps_lim L (k e)) -> keeps_lim L (group lim ff members k).
Proof. intros. constructor; try done; [simpl; lia|]. by intros p ?%not_elem_of_nil. Qed.

Lemma wp_act_eq {A} Q s (f : S -> S * A) (k : A -> proc S E) :
  wp Q (f s).1 (k (f s).2) -> wp Q s (act f k).
Proof. intros Hk. constructor. by destruct (f s). Qed.

(** Run something that keeps [I], then go on from any state of [I]. *)
Lemma wp_pbind Q s p (k : option E -> proc S E) :
  I s -> keeps p -> (forall s e, I s -> wp Q s (k e)) -> wp Q s (pbind p k).
Proof.
  intros HI Hp Hk. revert s HI.
  induction p as [e| |f IH|lim ff c ps run ret first k' _ _ IH] using proc_nested_ind;
    intros s HI; cbn [pbind]; [by apply Hk|by inversion Hp|..];
    inversion Hp as [|? Hf|? ? ? ? ? ? ? ? HL Hlim Hlen H1 H2 H3]; subst.
  - constructor. specialize (IH s). destruct (Hf s HI) as [HI' Hk'].
    destruct (f s) as [s' p']. by apply IH.
  - constructor; [done..|]. intros s' e HI'. by apply IH.
Qed.

Lemma wp_group_of Q s lim ff members (k : option E -> proc S E) :
  I s -> (members <> [] -> 0 < lim) -> (forall p, p ∈ members -> keeps p) ->
  (forall s e, I s -> wp Q s (k e)) -> wp Q s (group lim ff members k).
Proof. intros. constructor; try done; [simpl; lia|]. by intros p ?%not_elem_of_nil. Qed.

(** Sequencing with what the first process is known to end in. *)
Lemma wp_bind Q1 Q s p (k : option E -> proc S E) :
  wp Q1 s p -> (forall s e, Q1 s e -> wp Q s (k e)) -> wp Q s (pbind p k).
Proof.
  intros Hp Hk. induction Hp as [s e HQ|s f _ IH|s lim ff c ps run ret first k' HI H1 H2 H3 H4 _ IH];
    cbn [pbind].
  - by apply Hk.
  - constructor. by destruct (f s).
  - by constructor.
Qed.

Lemma wp_weaken (Q Q' : S -> option E -> Prop) s p :
  (forall s e, Q s e -> Q' s e) -> wp Q s p -> wp Q' s p.
Proof. intros HQ. induction 1; constructor; eauto. Qed.
End logic.
Abbreviation keeps I := (keeps_lim I (fun _ _ => True)).

(** ** Groups that are under way *)
Inductive active {S E : Type} : proc S E -> proc S E -> Prop :=
  | active_here lim ff c ps run ret first k :
      active (PGroup lim ff c ps run ret first k) (PGroup lim ff c ps run ret first k)
  | active_member lim ff c ps run ret first k p g :
      p ∈ run -> active p g -> active (PGroup lim ff c ps run ret first k) g.

(** No more members of a group run than its semaphore lets through, and these
    are permits that [L] allows. *)
Lemma keeps_active {S E : Type} (I : S -> Prop) L (p : proc S E)
    lim ff c ps run ret first k :
  keeps_lim I L p -> active p (PGroup lim ff c ps run ret first k) -> length run <= lim /\ L lim ff.
Proof.
  intros Hk Ha. remember (PGroup lim ff c ps run ret first k) as g eqn:Eg.
  induction Ha as [|lim' ff' c' ps' run' ret' first' k' p g Hp _ IH].
  - rewrite Eg in Hk. by inversion Hk.
  - inversion Hk as [| |? ? ? ? ? ? ? ? _ _ _ _ Hrun _]; subst.
    apply IH; [by apply Hrun|done].
Qed.

(** ** Executing a schedule

    A schedule names each step; [exec] follows it. *)
Inductive choice : Type :=
  | CAct | CLaunch | CBreak | CWait
  | CMember (i : nat) (c : choice) | CReturn (i : nat) | CRecord (i : nat).

Section exec.
Context {S E : Type}.

Fixpoint exec1 (c : choice) (s : S) (p : proc S E) {struct c} : option (S * proc S E) :=
  match c, p with
  | CAct, PAct f => Some (f s)
  | CLaunch, PGroup lim ff false (p :: ps) run ret first k =>
      if decide (length run < lim)
      then Some (s, PGroup lim ff false ps (run ++ [p]) ret first k) else None
  | CBreak, PGroup lim ff true (_ :: _) run ret first k =>
      Some (s, PGroup lim ff true [] run ret first k)
  | CWait, PGroup _ _ _ [] [] [] first k => Some (s, k first)
  | CMember i c, PGroup lim ff x ps run ret first k =>
      match run !! i with
      | Some p =>
          match exec1 c s p with
          | Some (s', p') =>
              Some (s', PGroup lim ff x ps (take i run ++ p' :: drop (i + 1) run) ret first k)
          | None => None
          end
      | None => None
      end
  | CReturn i, PGroup lim ff x ps run ret first k =>
      match run !! i with
      | Some (PRet e) =>
          Some (s, PGroup lim ff (x || cancels ff e) ps (take i run ++ drop (i + 1) run)
                     (ret ++ [e]) first k)
      | _ => None
      end
  | CRecord i, PGroup lim ff x ps run ret first k =>
      match ret !! i with
      | Some e => Some (s, PGroup lim ff x ps run (take i ret ++ drop (i + 1) ret)
                            (record_err first e) k)
      | None => None
      end
  | _, _ => None
  end.

Fixpoint exec (cs : list choice) (s : S) (p : proc S E) : option (S * proc S E) :=
  match cs with
  | [] => Some (s, p)
  | c :: cs => match exec1 c s p with Some (s', p') => exec cs s' p' | None => None end
  end.

Lemma split_at {A} (l : list A) i x :
  l !! i = Some x -> l = take i l ++ x :: drop (i + 1) l.
Proof. intros Hx. rewrite Nat.add_1_r. symmetry. by apply take_drop_middle. Qed.

Lemma exec1_pstep c : forall s p s' p', exec1 c s p = Some (s', p') -> pstep (s, p) (s', p').
Proof.
  induction c as [| | | |i c IH|i|i]; intros s p s' p'; destruct p as [| |f|lim ff x ps run ret first k];
    cbn [exec1]; try done.
  - intros [= Hf]. rewrite <- Hf. constructor.
  - destruct x, ps as [|p ps]; try done. case_decide; [|done]. intros [= <- <-]. by constructor.
  - destruct x, ps as [|p ps]; try done. intros [= <- <-]. constructor.
  - destruct ps, run, ret; try done. intros [= <- <-]. constructor.
  - destruct (run !! i) as [p|] eqn:Hi; [|done].
    destruct (exec1 c s p) as [[s1 p1]|] eqn:He; [|done]. intros [= <- <-].
    rewrite (split_at run i p Hi) at 1. constructor. by apply IH.
  - destruct (run !! i) as [[e| | |]|] eqn:Hi; try done. intros [= <- <-].
    rewrite (split_at run i _ Hi) at 1. constructor.
  - destruct (ret !! i) as [e|] eqn:Hi; [|done]. intros [= <- <-].
    rewrite (split_at ret i _ Hi) at 1. constructor.
Qed.

(** What a schedule executes is an execution. *)
Lemma exec_steps cs s p s' p' : exec cs s p = Some (s', p') -> rtc pstep (s, p) (s', p').
Proof.
  revert s p. induction cs as [|c cs IH]; intros s p; cbn [exec].
  - intros [= <- <-]. apply rtc_refl.
  - destruct (exec1 c s p) as [[s1 p1]|] eqn:He; [|done]. intros Hs.
    eapply rtc_l; [by apply (exec1_pstep c)|by apply IH].
Qed.
End exec.
