(* ===== verification/Secrets.v ===== *)
(** * Secret references (runtime/support/secrets.go, secrets/secrets.go)

    An environment value "secret:KEY" stands for a secret of the pipeline's
    scope or, failing that, of the global one. The store of secrets behind
    the manager is a parameter. *)
From S2P Require Import Prelude GoStrings Config.
Open Scope string_scope.

Definition SecretPrefix : string := "secret:".
Definition GlobalScope : string := "global".
Definition PipelineScope (pipelineID : string) : string := "pipeline/" ++ pipelineID.

Definition systemManagedKeys : list string := ["driver"; "driver_config"; "webhook_secret"].
Definition IsSystemKey (key : string) : bool := bool_decide (key ∈ systemManagedKeys).

(** [Manager.Get(scope, key)]. *)
Definition Manager : Type := string -> string -> result string.

(** The plaintext, and whether the value was a reference. *)
Definition ResolveSecretString (mgr : option Manager) (pipelineID value : string)
    : result (string * bool) :=
  match mgr with
  | None => Ok (value, false)
  | Some get =>
      if negb (HasPrefix value SecretPrefix) then Ok (value, false)
      else
        let key := TrimPrefix value SecretPrefix in
        if IsSystemKey key then
          Err (EMsg ("secret key " ++ q key ++ " is reserved for system use"))
        else
          match get (PipelineScope pipelineID) key with
          | Ok val => Ok (val, true)
          | Err e =>
              if negb (errors_Is e SSecretNotFound) then
                Err (EWrap ("could not retrieve secret " ++ q key) e)
              else
                match get GlobalScope key with
                | Ok val => Ok (val, true)
                | Err e =>
                    if negb (errors_Is e SSecretNotFound) then
                      Err (EWrap ("could not retrieve secret " ++ q key) e)
                    else Err (EWrap ("secret " ++ q key ++ " not found") (ESentinel SSecretNotFound))
                end
          end
  end.

(** A system key is never read, whatever the manager holds. *)
Lemma ResolveSecretString_system get pipelineID key :
  IsSystemKey key = true ->
  ResolveSecretString (Some get) pipelineID (SecretPrefix ++ key) =
    Err (EMsg ("secret key " ++ q key ++ " is reserved for system use")).
Proof.
  intros Hk. unfold ResolveSecretString.
  assert (Hp : HasPrefix (SecretPrefix ++ key) SecretPrefix = true) by (by destruct key).
  assert (Ht : TrimPrefix (SecretPrefix ++ key) SecretPrefix = key)
    by (unfold TrimPrefix; by rewrite Hp).
  by rewrite Hp, Ht, Hk.
Qed.
