(* ===== verification/Webhooks.v ===== *)
(** * Webhooks (webhooks/, server/api_webhooks_controller.go)

    The providers in the order the server registers them, [Detect], and the
    handler that triggers a pipeline. A request holds what [net/http] parsed:
    canonical headers, the query, the text of the URL. The digests are those
    of [Sha]; parsing a JSON body is the class [JsonSyntax].

    [Detect_exact] compares [Detect] with the authentication scheme each
    provider documents; [Trigger_authenticated] says what a request needs to
    start a run. *)
From S2P Require Import Prelude Storage Json Db GoStrings Paging Sql Ids Sha Runs Tasks Pipelines.
From S2P Require Import Config Server Admission Passed Execution Secrets.
From Stdlib Require Import Ascii.
Open Scope string_scope.
#[local] Arguments String.append !_ _ / : simpl nomatch.

(** ** Signatures (webhooks/verify.go) *)
Definition HexHMACSHA256 (payload secret : string) : string :=
  hex (hmac_bytes (bytes secret) (bytes payload)).

(** [hmac.Equal] compares bytes. *)
Definition hmac_Equal (a b : string) : bool := bool_decide (a = b).

Definition VerifyHexHMACSHA256 (payload secret signature : string) : bool :=
  let expected := HexHMACSHA256 payload secret in hmac_Equal signature expected.

Definition VerifyHexHMACSHA256Prefixed (payload secret sigHeader prefix : string) : bool :=
  if negb (HasPrefix sigHeader prefix) then false
  else VerifyHexHMACSHA256 payload secret (TrimPrefix sigHeader prefix).

(** ** Requests *)

(** [textproto.CanonicalMIMEHeaderKey]: a key with a byte that no token may
    hold is left as it is. *)
Definition is_token (a : ascii) : bool :=
  is_lower a || is_upper a || is_digit a
  || existsb (Ascii.eqb a) ["!"; "#"; "$"; "%"; "&"; "'"; "*"; "+"; "-"; "."; "^"; "_"; "`"; "|"; "~"]%char.
Definition to_upper_ascii (a : ascii) : ascii :=
  if is_lower a then ascii_of_nat (nat_of_ascii a - 32) else a.
Fixpoint canonical (upper : bool) (s : string) : string :=
  match s with
  | EmptyString => ""
  | String a s =>
      String (if upper then to_upper_ascii a else to_lower_ascii a) (canonical (Ascii.eqb a "-") s)
  end.
Definition CanonicalHeaderKey (s : string) : string :=
  if all_chars is_token s then canonical true s else s.

Module Request.
Record t := mk {
    Method : string; URL : string; Header : gmap string (list string);
    Query : gmap string (list string) }.
End Request.
Notation Request := Request.t.

Definition first_value (m : gmap string (list string)) (key : string) : string :=
  match m !! key with Some (v :: _) => v | _ => "" end.
(** [Header.Get] and [Values.Get]. *)
Definition Header_Get (r : Request) (key : string) : string :=
  first_value (Request.Header r) (CanonicalHeaderKey key).
Definition Query_Get (r : Request) (key : string) : string := first_value (Request.Query r) key.

(** ** Events (webhooks/event.go) *)
Module Event.
Record t := mk {
    Provider : string; EventType : string; Method : string; URL : string;
    Headers : gmap string string; Body : string; Query : gmap string string }.
End Event.
Notation Event := Event.t.

Definition NewEvent (provider eventType : string) (r : Request) (body : string) : Event :=
  Event.mk provider eventType (Request.Method r) (Request.URL r)
    (omap head (Request.Header r)) body (omap head (Request.Query r)).

(** ** Providers (webhooks/webhooks.go) *)
Module Provider.
Record t := mk {
    Name : string; Match_ : Request -> bool;
    Parse : Request -> string -> string -> result Event }.
End Provider.
Notation Provider := Provider.t.

(** ** JSON bodies *)
Class JsonSyntax : Type := json_parse : string -> option json.

Section providers.
Context `{!JsonSyntax}.

(** The fields [json.Unmarshal] walks into a struct or a map: null leaves
    either as it is, any other value than an object is an error. *)
Definition unmarshal_object (v : option json) : option (list (string * json)) :=
  match v with
  | Some (JObj fs) => Some fs
  | Some JNull => Some []
  | _ => None
  end.

(** A [string] field with a lower-case tag: its key is matched without regard
    to case, the last value wins, null changes nothing, and a value of
    another type fails the whole document. *)
Fixpoint decode_string (tag : string) (fs : list (string * json)) (value : string)
    : option string :=
  match fs with
  | [] => Some value
  | (k, v) :: fs =>
      if decide (ToLower k = tag) then
        match v with
        | JStr s => decode_string tag fs s
        | JNull => decode_string tag fs value
        | _ => None
        end
      else decode_string tag fs value
  end.

(** A struct of two [string] fields. *)
Definition unmarshal_pair (tag1 tag2 body : string) : option (string * string) :=
  match unmarshal_object (json_parse body) with
  | None => None
  | Some fs =>
      match decode_string tag1 fs "", decode_string tag2 fs "" with
      | Some v1, Some v2 => Some (v1, v2)
      | _, _ => None
      end
  end.

(** [payload["key"].(string)] of a map: the last value of a key is kept. *)
Definition map_string (key : string) (fs : list (string * json)) : option string :=
  match get_field key (reverse fs) with Some (JStr s) => Some s | _ => None end.

(** ** Providers *)
Definition ErrUnauthorized {A} : result A := Err (ESentinel SUnauthorized).
Definition present (r : Request) (header : string) : bool :=
  negb (bool_decide (Header_Get r header = "")).

(** [if secret != "" { ... }]: the signature is checked only against a secret. *)
Definition guarded (secret : string) (valid : bool) (event : Event) : result Event :=
  if negb (bool_decide (secret = "")) && negb valid then ErrUnauthorized else Ok event.

(** A signature header that must be there and have the prefix. *)
Definition prefixed_valid (r : Request) (body secret header : string) : bool :=
  let sigHeader := Header_Get r header in
  if decide (sigHeader = "") then false
  else VerifyHexHMACSHA256Prefixed body secret sigHeader "sha256=".

Definition github_Match (r : Request) : bool := present r "X-GitHub-Event".
Definition github_Parse (r : Request) (body secret : string) : result Event :=
  guarded secret (prefixed_valid r body secret "X-Hub-Signature-256")
    (NewEvent "github" (Header_Get r "X-GitHub-Event") r body).

Definition gitlab_validateSignature (body secret sigHeader : string) : bool :=
  if HasPrefix sigHeader "sha256=" then
    VerifyHexHMACSHA256Prefixed body secret sigHeader "sha256="
  else hmac_Equal sigHeader secret.
Definition gitlab_Match (r : Request) : bool := present r "X-Gitlab-Event".
Definition gitlab_Parse (r : Request) (body secret : string) : result Event :=
  guarded secret
    (let sigHeader := Header_Get r "X-Gitlab-Token" in
     if decide (sigHeader = "") then false else gitlab_validateSignature body secret sigHeader)
    (NewEvent "gitlab" (Header_Get r "X-Gitlab-Event") r body).

Definition bitbucket_Match (r : Request) : bool := present r "X-Event-Key".
Definition bitbucket_Parse (r : Request) (body secret : string) : result Event :=
  guarded secret (prefixed_valid r body secret "X-Hub-Signature")
    (NewEvent "bitbucket" (Header_Get r "X-Event-Key") r body).

Definition honeybadger_extractEventType (body : string) : string :=
  match unmarshal_object (json_parse body) with
  | None => ""
  | Some fs =>
      match map_string "type" fs with
      | Some value => value
      | None => default "" (map_string "event" fs)
      end
  end.
Definition honeybadger_Match (r : Request) : bool := present r "Honeybadger-Token".
Definition honeybadger_Parse (r : Request) (body secret : string) : result Event :=
  if decide (secret = "") then ErrUnauthorized
  else
    let token := Header_Get r "Honeybadger-Token" in
    if decide (token = "") then ErrUnauthorized
    else if negb (hmac_Equal token secret) then ErrUnauthorized
    else Ok (NewEvent "honeybadger" (honeybadger_extractEventType body) r body).

(** The decoder of Slack and Stripe: one field. *)
Definition extractType (body : string) : string :=
  match unmarshal_object (json_parse body) with
  | None => ""
  | Some fs => default "" (decode_string "type" fs "")
  end.
Definition slack_Match (r : Request) : bool := present r "X-Slack-Signature".
Definition slack_Parse (r : Request) (body secret : string) : result Event :=
  guarded secret
    (let timestamp := Header_Get r "X-Slack-Request-Timestamp" in
     let sigHeader := Header_Get r "X-Slack-Signature" in
     if decide (timestamp = "" \/ sigHeader = "") then false
     else
       let base := "v0:" ++ timestamp ++ ":" ++ body in
       VerifyHexHMACSHA256Prefixed base secret sigHeader "v0=")
    (NewEvent "slack" (extractType body) r body).

(** The timestamp and the signatures of a header; a later timestamp replaces
    an earlier one. *)
Definition stripe_part (acc : string * list string) (part : string) : string * list string :=
  if HasPrefix part "t=" then (TrimPrefix part "t=", acc.2)
  else if HasPrefix part "v1=" then (acc.1, acc.2 ++ [TrimPrefix part "v1="])%list
  else acc.
Definition stripe_validateSignature (body secret sigHeader : string) : bool :=
  let '(timestamp, signatures) := foldl stripe_part ("", []) (Split sigHeader ",") in
  if decide (timestamp = "" \/ signatures = []) then false
  else
    let signed := timestamp ++ "." ++ body in
    existsb (VerifyHexHMACSHA256 signed secret) signatures.
Definition stripe_Match (r : Request) : bool := present r "Stripe-Signature".
Definition stripe_Parse (r : Request) (body secret : string) : result Event :=
  guarded secret
    (let sigHeader := Header_Get r "Stripe-Signature" in
     if decide (sigHeader = "") then false else stripe_validateSignature body secret sigHeader)
    (NewEvent "stripe" (extractType body) r body).

Definition pagerduty_validateSignature (body secret sigHeader : string) : bool :=
  existsb (fun part =>
    let part := TrimSpace part in
    if negb (HasPrefix part "v1=") then false
    else VerifyHexHMACSHA256 body secret (TrimPrefix part "v1=")) (Split sigHeader ",").

(** The event of the first message, for the code reads no other. An array
    that is decoded over an earlier one keeps what the earlier first element
    held; an empty array and null drop it. *)
Definition decode_message (v : json) (event : string) : option string :=
  match v with
  | JObj fs => decode_string "event" fs event
  | JNull => Some event
  | _ => None
  end.
Fixpoint decode_messages (fs : list (string * json)) (first : option string)
    : option (option string) :=
  match fs with
  | [] => Some first
  | (k, v) :: fs =>
      if decide (ToLower k = "messages") then
        match v with
        | JNull | JArr [] => decode_messages fs None
        | JArr (m :: ms) =>
            match decode_message m (default "" first), mapM (fun m => decode_message m "") ms with
            | Some event, Some _ => decode_messages fs (Some event)
            | _, _ => None
            end
        | _ => None
        end
      else decode_messages fs first
  end.
Definition pagerduty_extractEventType (body : string) : string :=
  match unmarshal_object (json_parse body) with
  | None => ""
  | Some fs =>
      match decode_messages fs None, decode_string "event" fs "", decode_string "type" fs "" with
      | Some first, Some event, Some type_ =>
          if decide (default "" first <> "") then default "" first
          else if decide (event <> "") then event else type_
      | _, _, _ => ""
      end
  end.
Definition pagerduty_Match (r : Request) : bool := present r "X-PagerDuty-Signature".
Definition pagerduty_Parse (r : Request) (body secret : string) : result Event :=
  guarded secret
    (let sigHeader := Header_Get r "X-PagerDuty-Signature" in
     if decide (sigHeader = "") then false else pagerduty_validateSignature body secret sigHeader)
    (NewEvent "pagerduty" (pagerduty_extractEventType body) r body).

(** A header that is the digest of the body. *)
Definition plain_valid (r : Request) (body secret header : string) : bool :=
  let sigHeader := Header_Get r header in
  if decide (sigHeader = "") then false else VerifyHexHMACSHA256 body secret sigHeader.

(** The first field of two that is not empty. *)
Definition extractFirst (tag1 tag2 body : string) : string :=
  match unmarshal_pair tag1 tag2 body with
  | None => ""
  | Some (v1, v2) => if decide (v1 <> "") then v1 else v2
  end.

Definition linear_extractEventType (body : string) : string := extractFirst "type" "action" body.
Definition linear_Match (r : Request) : bool := present r "Linear-Signature".
Definition linear_Parse (r : Request) (body secret : string) : result Event :=
  guarded secret (plain_valid r body secret "Linear-Signature")
    (NewEvent "linear" (linear_extractEventType body) r body).

Definition sentry_extractEventType (body : string) : string := extractFirst "action" "type" body.
Definition sentry_Match (r : Request) : bool := present r "Sentry-Hook-Signature".
Definition sentry_Parse (r : Request) (body secret : string) : result Event :=
  guarded secret (plain_valid r body secret "Sentry-Hook-Signature")
    (let eventType := Header_Get r "Sentry-Hook-Resource" in
     NewEvent "sentry"
       (if decide (eventType = "") then sentry_extractEventType body else eventType) r body).

Definition generic_Match (_ : Request) : bool := true.
Definition generic_Parse (r : Request) (body secret : string) : result Event :=
  guarded secret
    (let signature := Header_Get r "X-Webhook-Signature" in
     let signature := if decide (signature = "") then Query_Get r "signature" else signature in
     if decide (signature = "") then false else VerifyHexHMACSHA256 body secret signature)
    (NewEvent "generic" "" r body).

(** The order of commands/server.go. *)
Definition WebhookProviders : list Provider :=
  [Provider.mk "github" github_Match github_Parse;
   Provider.mk "gitlab" gitlab_Match gitlab_Parse;
   Provider.mk "bitbucket" bitbucket_Match bitbucket_Parse;
   Provider.mk "honeybadger" honeybadger_Match honeybadger_Parse;
   Provider.mk "slack" slack_Match slack_Parse;
   Provider.mk "stripe" stripe_Match stripe_Parse;
   Provider.mk "pagerduty" pagerduty_Match pagerduty_Parse;
   Provider.mk "linear" linear_Match linear_Parse;
   Provider.mk "sentry" sentry_Match sentry_Parse;
   Provider.mk "generic" generic_Match generic_Parse].

(** ** Detection (webhooks/webhooks.go) *)
Fixpoint Detect (providers : list Provider) (r : Request) (body secret : string) : result Event :=
  match providers with
  | [] => Err (ESentinel SNoMatch)
  | p :: providers =>
      if Provider.Match_ p r then
        match Provider.Parse p r body secret with
        | Err e => Err (EWrap "parse" e)
        | Ok event => Ok event
        end
      else Detect providers r body secret
  end.

(** ** The documented schemes (docs/guides/webhooks.md)

    What a request must carry, by the provider's name: the digest of the body,
    or of the body with the timestamp, in the provider's header. *)
Definition authentic (name : string) (r : Request) (body secret : string) : Prop :=
  if decide (name = "github") then
    Header_Get r "X-Hub-Signature-256" = "sha256=" ++ HexHMACSHA256 body secret
  else if decide (name = "gitlab") then
    Header_Get r "X-Gitlab-Token" = "sha256=" ++ HexHMACSHA256 body secret
    \/ Header_Get r "X-Gitlab-Token" = secret /\ HasPrefix secret "sha256=" = false
  else if decide (name = "bitbucket") then
    Header_Get r "X-Hub-Signature" = "sha256=" ++ HexHMACSHA256 body secret
  else if decide (name = "honeybadger") then Header_Get r "Honeybadger-Token" = secret
  else if decide (name = "slack") then
    exists timestamp, timestamp <> "" /\ Header_Get r "X-Slack-Request-Timestamp" = timestamp /\
      Header_Get r "X-Slack-Signature" =
        "v0=" ++ HexHMACSHA256 ("v0:" ++ timestamp ++ ":" ++ body) secret
  else if decide (name = "stripe") then
    exists timestamp parts, timestamp <> "" /\ Split (Header_Get r "Stripe-Signature") "," = parts /\
      List.find (fun part => HasPrefix part "t=") (reverse parts) = Some ("t=" ++ timestamp) /\
      "v1=" ++ HexHMACSHA256 (timestamp ++ "." ++ body) secret ∈ parts
  else if decide (name = "pagerduty") then
    exists part, part ∈ Split (Header_Get r "X-PagerDuty-Signature") "," /\
      TrimSpace part = "v1=" ++ HexHMACSHA256 body secret
  else if decide (name = "linear") then
    Header_Get r "Linear-Signature" = HexHMACSHA256 body secret
  else if decide (name = "sentry") then
    Header_Get r "Sentry-Hook-Signature" = HexHMACSHA256 body secret
  else
    Header_Get r "X-Webhook-Signature" = HexHMACSHA256 body secret
    \/ Header_Get r "X-Webhook-Signature" = "" /\ Query_Get r "signature" = HexHMACSHA256 body secret.

(** A request passes without a secret, except for Honeybadger. *)
Definition authorized (name : string) (r : Request) (body secret : string) : Prop :=
  if decide (secret = "") then name <> "honeybadger" else authentic name r body secret.

(** *** Facts on signatures *)
Lemma HexHMACSHA256_not_empty payload secret : HexHMACSHA256 payload secret <> "".
Proof.
  intros Hx. apply (f_equal String.length) in Hx. unfold HexHMACSHA256, hmac_bytes in Hx.
  by rewrite length_hex, length_sha256_bytes in Hx.
Qed.

Lemma VerifyHexHMACSHA256_spec payload secret sig :
  VerifyHexHMACSHA256 payload secret sig = true <-> sig = HexHMACSHA256 payload secret.
Proof. apply bool_decide_eq_true. Qed.

Lemma prefix_part p x y : HasPrefix x p = true -> TrimPrefix x p = y <-> x = p ++ y.
Proof.
  intros (t & ->)%HasPrefix_inv. rewrite TrimPrefix_append. split; [by intros ->|apply append_inj_r].
Qed.

Lemma Verify_prefixed_spec payload secret sig p :
  VerifyHexHMACSHA256Prefixed payload secret sig p = true <->
  sig = p ++ HexHMACSHA256 payload secret.
Proof.
  unfold VerifyHexHMACSHA256Prefixed. destruct (HasPrefix sig p) eqn:Hp; simpl.
  - rewrite VerifyHexHMACSHA256_spec. by apply prefix_part.
  - split; [done|]. intros ->. by rewrite HasPrefix_append in Hp.
Qed.

Lemma prefixed_valid_spec r body secret header :
  prefixed_valid r body secret header = true <->
  Header_Get r header = "sha256=" ++ HexHMACSHA256 body secret.
Proof.
  unfold prefixed_valid. destruct (decide _) as [He|_]; [by rewrite He|].
  apply Verify_prefixed_spec.
Qed.

Lemma plain_valid_spec r body secret header :
  plain_valid r body secret header = true <-> Header_Get r header = HexHMACSHA256 body secret.
Proof.
  unfold plain_valid. destruct (decide _) as [He|_]; [|apply VerifyHexHMACSHA256_spec].
  rewrite He. split; [done|]. intros Hx. by destruct (HexHMACSHA256_not_empty body secret).
Qed.

(** The scanner keeps the last timestamp and every signature. *)
Lemma stripe_parts parts : forall acc,
  foldl stripe_part acc parts =
    (default acc.1 ((fun p => TrimPrefix p "t=") <$>
       List.find (fun part => HasPrefix part "t=") (reverse parts)),
     acc.2 ++ ((fun p => TrimPrefix p "v1=") <$> List.filter (fun p => HasPrefix p "v1=") parts))%list.
Proof.
  induction parts as [|p parts IH]; intros [t sigs]; simpl; [by rewrite app_nil_r|].
  rewrite IH, reverse_cons.
  assert (Hfind : forall (f : string -> bool) l x, List.find f (l ++ [x])%list =
    match List.find f l with Some y => Some y | None => if f x then Some x else None end).
  { intros f l x. induction l as [|y l IHl]; simpl; [done|]. by destruct (f y). }
  rewrite Hfind. unfold stripe_part at 1 2. destruct (HasPrefix p "t=") eqn:Ht.
  - assert (Hv : HasPrefix p "v1=" = false).
    { apply HasPrefix_inv in Ht as (x & ->). done. }
    rewrite Hv. simpl. by destruct (List.find _ (reverse parts)).
  - destruct (HasPrefix p "v1="); simpl; [|by destruct (List.find _ (reverse parts))].
    rewrite <- app_assoc. by destruct (List.find _ (reverse parts)).
Qed.

Lemma stripe_valid_spec body secret sigHeader :
  stripe_validateSignature body secret sigHeader = true <->
  exists timestamp parts, timestamp <> "" /\ Split sigHeader "," = parts /\
    List.find (fun part => HasPrefix part "t=") (reverse parts) = Some ("t=" ++ timestamp) /\
    "v1=" ++ HexHMACSHA256 (timestamp ++ "." ++ body) secret ∈ parts.
Proof.
  unfold stripe_validateSignature. rewrite stripe_parts. simpl.
  set (parts := Split sigHeader ","). set (last := List.find _ (reverse parts)).
  assert (Hsig : forall m, m ∈ ((fun p => TrimPrefix p "v1=") <$>
    List.filter (fun p => HasPrefix p "v1=") parts) <-> "v1=" ++ m ∈ parts).
  { intros m. rewrite list_elem_of_fmap. split.
    - intros (p & -> & [Hp Hv]%list_elem_of_In%filter_In).
      apply list_elem_of_In in Hp. apply HasPrefix_inv in Hv as (t & ->).
      by rewrite TrimPrefix_append.
    - intros Hm. exists ("v1=" ++ m). rewrite TrimPrefix_append. split; [done|].
      apply list_elem_of_In, filter_In. split; [by apply list_elem_of_In|apply HasPrefix_append]. }
  assert (Hlast : forall p, last = Some p -> exists t, p = "t=" ++ t).
  { intros p (_ & Hp)%find_some. by apply HasPrefix_inv. }
  split.
  - destruct (decide _) as [|Hne]; [done|]. intros (sig & Hin & Hver)%existsb_exists.
    apply list_elem_of_In, Hsig in Hin. apply VerifyHexHMACSHA256_spec in Hver as ->.
    destruct last as [p|] eqn:Hl; [|by destruct Hne; left].
    destruct (Hlast p eq_refl) as (t & ->).
    change (default "" _) with (TrimPrefix ("t=" ++ t) "t=") in Hne, Hin.
    rewrite TrimPrefix_append in Hne, Hin.
    exists t, parts. repeat split; try done. intros ->. apply Hne. by left.
  - intros (t & ? & Ht & <- & Hl & Hin). fold parts last in Hl. rewrite Hl.
    change (default "" _) with (TrimPrefix ("t=" ++ t) "t="). rewrite TrimPrefix_append. apply Hsig in Hin. destruct (decide _) as [[?|Hnil]|_]; [done| |].
    + rewrite Hnil in Hin. by apply not_elem_of_nil in Hin.
    + apply existsb_exists. eexists. split; [by apply list_elem_of_In|].
      by apply VerifyHexHMACSHA256_spec.
Qed.

Lemma pagerduty_valid_spec body secret sigHeader :
  pagerduty_validateSignature body secret sigHeader = true <->
  exists part, part ∈ Split sigHeader "," /\ TrimSpace part = "v1=" ++ HexHMACSHA256 body secret.
Proof.
  unfold pagerduty_validateSignature. rewrite existsb_exists.
  setoid_rewrite list_elem_of_In. f_equiv. intros part. f_equiv.
  apply (Verify_prefixed_spec body secret (TrimSpace part) "v1=").
Qed.

(** The answer of a provider on a request it claims. *)
Definition parsed (name : string) (r : Request) (body secret : string) (res : result Event) : Prop :=
  (authorized name r body secret /\ exists ty, res = Ok (NewEvent name ty r body))
  \/ (~ authorized name r body secret /\ res = ErrUnauthorized).

Lemma guarded_parsed name ty r body secret valid :
  name <> "honeybadger" ->
  (secret <> "" -> valid = true <-> authentic name r body secret) ->
  parsed name r body secret (guarded secret valid (NewEvent name ty r body)).
Proof.
  intros Hname Hvalid. unfold guarded, parsed, authorized.
  destruct (decide (secret = "")) as [->|Hne]; [left; split; [done|by eexists]|].
  rewrite bool_decide_eq_false_2 by done. specialize (Hvalid Hne). simpl.
  destruct valid; simpl; [left; split; [by apply Hvalid|by eexists]|right].
  split; [|done]. intros Ha. by apply Hvalid in Ha.
Qed.

Lemma gitlab_valid r body secret :
  secret <> "" ->
  (let sigHeader := Header_Get r "X-Gitlab-Token" in
   if decide (sigHeader = "") then false else gitlab_validateSignature body secret sigHeader) = true
  <-> authentic "gitlab" r body secret.
Proof.
  intros Hne. change (authentic "gitlab" r body secret) with
    (Header_Get r "X-Gitlab-Token" = "sha256=" ++ HexHMACSHA256 body secret
     \/ Header_Get r "X-Gitlab-Token" = secret /\ HasPrefix secret "sha256=" = false).
  cbv zeta. generalize (Header_Get r "X-Gitlab-Token") as h. intros h.
  destruct (decide (h = "")) as [->|Hh]; [split; [done|intros [[=]|[? _]]; congruence]|].
  unfold gitlab_validateSignature, hmac_Equal. destruct (HasPrefix h "sha256=") eqn:Hp.
  - rewrite Verify_prefixed_spec. split; [by left|intros [?|[-> ?]]; congruence].
  - rewrite bool_decide_eq_true. split; [intros ->; by right|]. intros [->|[? _]]; [|done].
    by rewrite HasPrefix_append in Hp.
Qed.

Lemma slack_valid r body secret :
  (let timestamp := Header_Get r "X-Slack-Request-Timestamp" in
   let sigHeader := Header_Get r "X-Slack-Signature" in
   if decide (timestamp = "" \/ sigHeader = "") then false
   else
     let base := "v0:" ++ timestamp ++ ":" ++ body in
     VerifyHexHMACSHA256Prefixed base secret sigHeader "v0=") = true
  <-> authentic "slack" r body secret.
Proof.
  change (authentic "slack" r body secret) with
    (exists timestamp, timestamp <> "" /\ Header_Get r "X-Slack-Request-Timestamp" = timestamp /\
      Header_Get r "X-Slack-Signature" =
        "v0=" ++ HexHMACSHA256 ("v0:" ++ timestamp ++ ":" ++ body) secret).
  cbv zeta. generalize (Header_Get r "X-Slack-Request-Timestamp") as t.
  generalize (Header_Get r "X-Slack-Signature") as h. intros h t.
  destruct (decide _) as [[-> | ->]|Hn].
  - split; [done|]. intros (t & Hne & Ht & _). by subst t.
  - split; [done|]. by intros (? & _ & _ & ?).
  - rewrite Verify_prefixed_spec. split.
    + intros ->. exists t. split; [|done]. intros ->. apply Hn. by left.
    + by intros (? & _ & <- & ->).
Qed.

Lemma guarded_header (h : string) (valid : bool) (P : Prop) :
  (valid = true <-> P) -> (h = "" -> ~ P) ->
  (if decide (h = "") then false else valid) = true <-> P.
Proof. intros Hv Hn. destruct (decide (h = "")) as [He|_]; [|done]. specialize (Hn He). by split. Qed.

Lemma stripe_valid r body secret :
  (let sigHeader := Header_Get r "Stripe-Signature" in
   if decide (sigHeader = "") then false else stripe_validateSignature body secret sigHeader) = true
  <-> authentic "stripe" r body secret.
Proof.
  apply guarded_header; [apply stripe_valid_spec|].
  intros He (t & parts & _ & Hs & Hf & _). rewrite He in Hs. by subst parts.
Qed.

Lemma pagerduty_valid r body secret :
  (let sigHeader := Header_Get r "X-PagerDuty-Signature" in
   if decide (sigHeader = "") then false else pagerduty_validateSignature body secret sigHeader)
    = true
  <-> authentic "pagerduty" r body secret.
Proof.
  apply guarded_header; [apply pagerduty_valid_spec|].
  intros He (part & Hs & Hf). rewrite He in Hs. apply list_elem_of_singleton in Hs as ->. done.
Qed.

Lemma generic_valid r body secret :
  (let signature := Header_Get r "X-Webhook-Signature" in
   let signature := if decide (signature = "") then Query_Get r "signature" else signature in
   if decide (signature = "") then false else VerifyHexHMACSHA256 body secret signature) = true
  <-> authentic "generic" r body secret.
Proof.
  change (authentic "generic" r body secret) with
    (Header_Get r "X-Webhook-Signature" = HexHMACSHA256 body secret
     \/ Header_Get r "X-Webhook-Signature" = "" /\ Query_Get r "signature" = HexHMACSHA256 body secret).
  cbv zeta. generalize (Header_Get r "X-Webhook-Signature") as h.
  generalize (Query_Get r "signature") as g. intros g h.
  pose proof (HexHMACSHA256_not_empty body secret) as Hne.
  apply guarded_header.
  - rewrite VerifyHexHMACSHA256_spec. destruct (decide (h = "")) as [->|Hh].
    + split; [by right|intros [?|[_ ?]]; congruence].
    + split; [by left|intros [?|[? _]]; congruence].
  - intros He. destruct (decide (h = "")) as [->|Hh]; intros [?|[? ?]]; congruence.
Qed.

Lemma honeybadger_parsed r body secret :
  parsed "honeybadger" r body secret (honeybadger_Parse r body secret).
Proof.
  unfold honeybadger_Parse, parsed, authorized.
  destruct (decide (secret = "")) as [->|Hne]; [right; split; [by intros []|done]|].
  change (authentic "honeybadger" r body secret) with (Header_Get r "Honeybadger-Token" = secret).
  cbv zeta. unfold hmac_Equal. generalize (Header_Get r "Honeybadger-Token") as h. intros h.
  destruct (decide (h = "")) as [->|Hh]; [right; split; [by intros <-|done]|].
  destruct (decide (h = secret)) as [He|He].
  - rewrite bool_decide_eq_true_2 by done. left. split; [done|by eexists].
  - rewrite bool_decide_eq_false_2 by done. by right.
Qed.

(** The interface's documentation lets an empty secret skip the check. *)
Lemma honeybadger_needs_secret r body : honeybadger_Parse r body "" = ErrUnauthorized.
Proof. reflexivity. Qed.

Lemma WebhookProviders_parsed p r body secret :
  p ∈ WebhookProviders -> parsed (Provider.Name p) r body secret (Provider.Parse p r body secret).
Proof.
  intros Hp. repeat (apply elem_of_cons in Hp as [->|Hp]); [..|by apply not_elem_of_nil in Hp];
    cbn [Provider.Name Provider.Parse]; try apply honeybadger_parsed;
    (apply guarded_parsed; [done|intros Hne]).
  - apply prefixed_valid_spec.
  - by apply gitlab_valid.
  - apply prefixed_valid_spec.
  - apply slack_valid.
  - apply stripe_valid.
  - apply pagerduty_valid.
  - apply plain_valid_spec.
  - apply plain_valid_spec.
  - apply generic_valid.
Qed.

(** The provider that claims a request: the first in the list. *)
Definition claimed_by (p : Provider) (r : Request) : Prop :=
  List.find (fun p => Provider.Match_ p r) WebhookProviders = Some p.

Lemma claimed_exists r : exists p, claimed_by p r.
Proof.
  unfold claimed_by. destruct (List.find _ _) as [p|] eqn:E; [by exists p|].
  pose proof (find_none _ _ E (Provider.mk "generic" generic_Match generic_Parse)) as Hn.
  discriminate Hn. simpl. tauto.
Qed.

Lemma Detect_find r body secret p :
  claimed_by p r ->
  Detect WebhookProviders r body secret =
    match Provider.Parse p r body secret with
    | Ok event => Ok event | Err e => Err (EWrap "parse" e)
    end.
Proof.
  unfold claimed_by. generalize WebhookProviders as ps.
  induction ps as [|q ps IH]; simpl; [done|].
  destruct (Provider.Match_ q r); [by intros [= ->]|apply IH].
Qed.

Lemma Detect_parsed r body secret p :
  claimed_by p r ->
  (authorized (Provider.Name p) r body secret /\
   exists ty, Detect WebhookProviders r body secret = Ok (NewEvent (Provider.Name p) ty r body))
  \/ (~ authorized (Provider.Name p) r body secret /\
      Detect WebhookProviders r body secret = Err (EWrap "parse" (ESentinel SUnauthorized))).
Proof.
  intros Hp. rewrite (Detect_find _ _ _ _ Hp).
  apply find_some in Hp as [Hin%list_elem_of_In _].
  destruct (WebhookProviders_parsed p r body secret Hin) as [[Ha [ty ->]]|[Ha ->]];
    [left; split; [done|by exists ty]|by right].
Qed.

(** C7: the webhook detector is exactly the documented table of schemes: a
    request is claimed by the first provider that matches it, an event comes
    out exactly when it satisfies that provider's scheme under the secret (or
    there is no secret and the provider is not Honeybadger), and it then
    carries the request's own method, URL, headers and body under that
    provider's name; every other request is refused as unauthorized. *)
Theorem Detect_exact r body secret :
  exists p, claimed_by p r /\
    ((authorized (Provider.Name p) r body secret /\
      exists ty, Detect WebhookProviders r body secret =
        Ok (NewEvent (Provider.Name p) ty r body))
     \/ (~ authorized (Provider.Name p) r body secret /\
         Detect WebhookProviders r body secret = Err (EWrap "parse" (ESentinel SUnauthorized)))).
Proof. destruct (claimed_exists r) as [p Hp]. exists p. split; [done|by apply Detect_parsed]. Qed.

End providers.

(** ** The handler (server/api_webhooks_controller.go) *)

(** What a pipeline sends back through [http.respond] (runtime/jsapi/http.go). *)
Module HTTPResponse.
Record t := mk { Status : Z; Body : string; Headers : gmap string string }.
End HTTPResponse.

Inductive response : Type :=
  | WError (code : Z) (error : string)
  | WQueueFull (in_flight max_in_flight max_queue_size : Z)          (* 429 *)
  | WPipeline (status : Z) (body : string) (headers : gmap string string)
  | WAccepted (runID pipelineID : string) (status : RunStatus).      (* 202 *)

(** The labels of the counter [pocketci_webhook_received_total] the request
    bumps; the request that a disabled feature refuses bumps none. *)
Definition outcome : Type := option (string * string).

Module Controller.
Record t := mk {
    allowedFeatures : list Feature; secretsMgr : option Manager;
    providers : list Provider }.
End Controller.

Section controller.
Context `{!JsonSyntax, !UniqueIDs, !OrderBy, !JsonText, !TemplateEngine}.

(** The secret, or the answer the helper has already written. *)
Definition resolveWebhookSecret (c : Controller.t) (pipeline : Pipeline.t) : string + response :=
  match Controller.secretsMgr c with
  | None => inl ""
  | Some get =>
      match get (PipelineScope (Pipeline.ID pipeline)) "webhook_secret" with
      | Ok resolvedSecret => inl resolvedSecret
      | Err getErr =>
          if errors_Is getErr SSecretNotFound then inl ""
          else inr (WError 500 "internal server error")
      end
  end.

(** [body] is the answer of [io.ReadAll]. *)
Definition detectWebhookEvent (c : Controller.t) (r : Request) (body : result string)
    (webhookSecret : string) : Event + response :=
  match body with
  | Err _ => inr (WError 400 "failed to read request body")
  | Ok body =>
      match Detect (Controller.providers c) r body webhookSecret with
      | Err e =>
          if errors_Is e SUnauthorized then inr (WError 401 "webhook signature validation failed")
          else inr (WError 400 ("no webhook provider matched the request: " ++ Error e))
      | Ok event => inl event
      end
  end.

Definition webhookData (event : Event) : WebhookData.t :=
  WebhookData.mk (Event.Provider event) (Event.EventType event) (Event.Method event)
    (Event.URL event) (Event.Headers event) (Event.Body event) (Event.Query event).

Definition triggerWebhookQueueFull : ST svc response :=
  gets (fun s => WQueueFull (sv_inFlight s) (sv_maxInFlight s) (sv_maxQueueSize s)).

(** [reply] is what arrives on the response channel before the time-out. *)
Definition triggerWebhookPipelineResponse (pipeline : Pipeline.t) (run : PipelineRun.t)
    (reply : option HTTPResponse.t) : response :=
  match reply with
  | Some resp => WPipeline (HTTPResponse.Status resp) (HTTPResponse.Body resp) (HTTPResponse.Headers resp)
  | None => WAccepted (PipelineRun.ID run) (Pipeline.ID pipeline) (PipelineRun.Status run)
  end.

Definition Trigger (c : Controller.t) (requestID : string) (actor : RequestActor.t)
    (id : string) (r : Request) (body : result string)
    (responseChan : nat) (reply : option HTTPResponse.t) : ST svc (outcome * response) :=
  if negb (IsFeatureEnabled FeatureWebhooks (Controller.allowedFeatures c)) then
    ret (None, WError 403 "webhooks feature is not enabled")
  else
    let! pipeline := attempt (on_db (GetPipeline id)) in
    match pipeline with
    | Err e =>
        ret (if errors_Is e SNotFound
             then (Some ("unknown", "pipeline_not_found"), WError 404 "pipeline not found")
             else (Some ("unknown", "store_error"), WError 500 "internal server error"))
    | Ok pipeline =>
        if Pipeline.Paused pipeline then
          ret (Some ("unknown", "pipeline_paused"), WError 409 "pipeline is paused")
        else
          match resolveWebhookSecret c pipeline with
          | inr answer => ret (Some ("unknown", "secret_error"), answer)
          | inl webhookSecret =>
              match detectWebhookEvent c r body webhookSecret with
              | inr answer => ret (Some ("unknown", "detect_failed"), answer)
              | inl event =>
                  let! run := attempt (TriggerWebhookPipeline requestID actor pipeline
                    (Some (webhookData event)) (Some responseChan)) in
                  match run with
                  | Err e =>
                      if errors_Is e SQueueFull then
                        let! answer := triggerWebhookQueueFull in
                        ret (Some (Event.Provider event, "queue_full"), answer)
                      else
                        ret (Some (Event.Provider event, "trigger_error"),
                             WError 500 "internal server error")
                  | Ok run =>
                      ret (Some (Event.Provider event, "accepted"),
                           triggerWebhookPipelineResponse pipeline run reply)
                  end
              end
          end
    end.

(** The answers that refuse a request, with the label of the counter and the
    state they leave: a refusal has at most looked the pipeline up. *)
Inductive refused (c : Controller.t) (id : string) (r : Request) (body : result string) (s : svc)
    : outcome * response -> svc -> Prop :=
  | refused_feature :
      IsFeatureEnabled FeatureWebhooks (Controller.allowedFeatures c) = false ->
      refused c id r body s (None, WError 403 "webhooks feature is not enabled") s
  | refused_not_found e s' :
      on_db (GetPipeline id) s = (Err e, s') -> errors_Is e SNotFound = true ->
      refused c id r body s (Some ("unknown", "pipeline_not_found"), WError 404 "pipeline not found") s'
  | refused_store e s' :
      on_db (GetPipeline id) s = (Err e, s') -> errors_Is e SNotFound = false ->
      refused c id r body s (Some ("unknown", "store_error"), WError 500 "internal server error") s'
  | refused_paused p s' :
      on_db (GetPipeline id) s = (Ok p, s') -> Pipeline.Paused p = true ->
      refused c id r body s (Some ("unknown", "pipeline_paused"), WError 409 "pipeline is paused") s'
  | refused_secret p get e s' :
      on_db (GetPipeline id) s = (Ok p, s') -> Controller.secretsMgr c = Some get ->
      get (PipelineScope (Pipeline.ID p)) "webhook_secret" = Err e ->
      errors_Is e SSecretNotFound = false ->
      refused c id r body s (Some ("unknown", "secret_error"), WError 500 "internal server error") s'
  | refused_body p e s' :
      on_db (GetPipeline id) s = (Ok p, s') -> body = Err e ->
      refused c id r body s
        (Some ("unknown", "detect_failed"), WError 400 "failed to read request body") s'
  | refused_unauthorized p secret b provider s' :
      on_db (GetPipeline id) s = (Ok p, s') -> resolveWebhookSecret c p = inl secret ->
      body = Ok b -> claimed_by provider r ->
      ~ authorized (Provider.Name provider) r b secret ->
      refused c id r body s
        (Some ("unknown", "detect_failed"), WError 401 "webhook signature validation failed") s'.

(** A request that is let in: the state is that of triggering the pipeline. *)
Definition admitted (c : Controller.t) (requestID : string) (actor : RequestActor.t) (id : string)
    (r : Request) (body : result string) (chan : nat) (s : svc)
    (answer : outcome * response) (s' : svc) : Prop :=
  exists pipeline s1 secret b provider ty result,
    IsFeatureEnabled FeatureWebhooks (Controller.allowedFeatures c) = true /\
    on_db (GetPipeline id) s = (Ok pipeline, s1) /\ Pipeline.Paused pipeline = false /\
    resolveWebhookSecret c pipeline = inl secret /\ body = Ok b /\
    claimed_by provider r /\ authorized (Provider.Name provider) r b secret /\
    TriggerWebhookPipeline requestID actor pipeline
      (Some (webhookData (NewEvent (Provider.Name provider) ty r b))) (Some chan) s1 = (result, s') /\
    answer.1 = Some (Provider.Name provider,
      match result with
      | Ok _ => "accepted"
      | Err e => if errors_Is e SQueueFull then "queue_full" else "trigger_error"
      end).

(** C6: no run starts without authentication. The handler always answers. It
    either refuses the request for one of the listed reasons, having done
    nothing but look the pipeline up, or it triggers the pipeline of the path
    exactly once; and then the feature is on, the pipeline exists and is not
    paused, the request satisfies the scheme of the provider that claims it
    under the pipeline's own secret, and the run is given the very body the
    signature covers. *)
Theorem Trigger_authenticated c requestID actor id r body chan reply s :
  Controller.providers c = WebhookProviders ->
  let '(res, s') := Trigger c requestID actor id r body chan reply s in
  exists answer, res = Ok answer /\
    (refused c id r body s answer s'
     \/ admitted c requestID actor id r body chan s answer s').
Proof.
  intros Hps. unfold Trigger. destruct (IsFeatureEnabled _ _) eqn:Hf; cbn [negb];
    [|eexists; split; [done|left; by constructor]].
  unfold bind at 1, attempt at 1. destruct (on_db (GetPipeline id) s) as [[p|e] s1] eqn:Hget;
    [|destruct (errors_Is e SNotFound) eqn:He; eexists; (split; [done|left; by econstructor])].
  destruct (Pipeline.Paused p) eqn:Hpaused; [eexists; split; [done|left; by econstructor]|].
  destruct (resolveWebhookSecret c p) as [secret|answer] eqn:Hsec.
  2: { revert Hsec. unfold resolveWebhookSecret. destruct (Controller.secretsMgr c) as [get|] eqn:Hm; [|done].
       destruct (get _ _) as [|e] eqn:Hg; [done|]. destruct (errors_Is e SSecretNotFound) eqn:He; [done|].
       intros [= <-]. eexists. split; [done|]. left. by econstructor. }
  destruct body as [b|e]; [|eexists; split; [done|left; by econstructor]].
  unfold detectWebhookEvent. rewrite Hps.
  destruct (claimed_exists r) as [pr Hcl].
  destruct (Detect_parsed r b secret pr Hcl) as [[Ha [ty Hd]]|[Ha Hd]]; rewrite Hd;
    [|eexists; split; [done|left; by eapply refused_unauthorized]].
  unfold bind at 1, attempt at 1.
  destruct (TriggerWebhookPipeline _ _ _ _ _ s1) as [res s2] eqn:Ht.
  assert (Hadm : forall answer, answer.1 = Some (Provider.Name pr, match res with
      | Ok _ => "accepted"
      | Err e => if errors_Is e SQueueFull then "queue_full" else "trigger_error" end) ->
    admitted c requestID actor id r (Ok b) chan s answer s2).
  { intros answer Hans. by exists p, s1, secret, b, pr, ty, res. }
  destruct res as [run|e]; [eexists; split; [done|right; by apply Hadm]|].
  destruct (errors_Is e SQueueFull) eqn:Hq; (eexists; split; [done|right; by apply Hadm]).
Qed.

End controller.

(** ** Witnesses *)
#[local] Existing Instances counter_ids stable_order ex_json_text ex_engine.
Definition ex_json_syntax : JsonSyntax := fun _ => None.
#[local] Existing Instance ex_json_syntax.

Definition ex_secrets : Manager := fun scope key =>
  if decide (scope = "pipeline/p1" /\ key = "webhook_secret") then Ok "mysecret"
  else Err (ESentinel SSecretNotFound).
Definition ex_controller : Controller.t :=
  Controller.mk AllFeatures (Some ex_secrets) WebhookProviders.
Definition ex_push (signature : string) : Request :=
  Request.mk "POST" "/api/webhooks/p1"
    (<["X-Github-Event" := ["push"]]> {["X-Hub-Signature-256" := [signature]]}) ∅.
(** hmac-sha256 of [ex_body] under the pipeline's secret. *)
Definition ex_body : string := "{}".
Definition ex_signature : string :=
  "sha256=" ++ HexHMACSHA256 ex_body "mysecret".

Example signed_push_accepted :
  exists runID s',
    Trigger ex_controller "" ex_actor "p1" (ex_push ex_signature) (Ok ex_body) 0 None ex_svc =
      (Ok (Some ("github", "accepted"), WAccepted runID "p1" RunStatusQueued), s').
Proof. eexists _, _. vm_compute. reflexivity. Qed.

Example tampered_push_refused :
  (Trigger ex_controller "" ex_actor "p1" (ex_push ex_signature) (Ok "{ }") 0 None ex_svc).1 =
    Ok (Some ("unknown", "detect_failed"), WError 401 "webhook signature validation failed").
Proof. vm_compute. reflexivity. Qed.

Lemma Trigger_authenticated_witness :
  exists answer s',
    Trigger ex_controller "" ex_actor "p1" (ex_push ex_signature) (Ok ex_body) 0 None ex_svc =
      (Ok answer, s') /\
    (refused ex_controller "p1" (ex_push ex_signature) (Ok ex_body) ex_svc answer s'
     \/ admitted ex_controller "" ex_actor "p1" (ex_push ex_signature) (Ok ex_body) 0 ex_svc answer s').
Proof.
  pose proof (Trigger_authenticated ex_controller "" ex_actor "p1" (ex_push ex_signature)
    (Ok ex_body) 0 None ex_svc eq_refl) as Ht.
  destruct (Trigger _ _ _ _ _ _ _ _ _) as [res s']. destruct Ht as (answer & -> & Hor).
  exists answer, s'. split; [reflexivity|exact Hor].
Defined.
