(* ===== verification/Steps.v ===== *)
(** * Executing steps (runtime/backwards: step.go, errors.go, task_handler.go,
    do_handler.go, try_handler.go, in_parallel_handler.go, across_handler.go,
    attempts_handler.go, and processStep with its hooks in job.go)

    Each handler is a process (Procs.v) on the state of the job: an atomic
    action is one call of the store or of the driver, or one access to a field
    of the StepContext. The get, put, agent, notify and build_image handlers,
    the driver, the loading of a configuration and the restoring of a cache are
    parameters. The job's context is never cancelled in the model. *)
From S2P Require Import Prelude Storage Json Db GoStrings Paging Tasks Config Secrets.
From S2P Require Import Procs.
From Stdlib Require Import Ascii FunctionalExtensionality.
Open Scope string_scope.

(** ** Errors (errors.go) *)
Inductive serr : Type :=
  | TaskFailedError (TaskName : string) (Code : Z)
  | TaskAbortedError (TaskName : string)
  | TaskErroredError (TaskName : string) (Err_ : option serr)
  | AssertionError (Message : string)
  | SWrap (msg : string) (e : serr)
  | SPlain (e : err).

(** [errors.As] for the three kinds, [errors.Is(_, ErrAssertionFailed)]: they
    walk the [Unwrap] chain. *)
Fixpoint isAbortError (e : serr) : bool :=
  match e with
  | TaskAbortedError _ => true
  | TaskErroredError _ (Some e) | SWrap _ e => isAbortError e
  | _ => false
  end.
Fixpoint isErroredError (e : serr) : bool :=
  match e with
  | TaskErroredError _ _ => true
  | SWrap _ e => isErroredError e
  | _ => false
  end.
Fixpoint isFailedError (e : serr) : bool :=
  match e with
  | TaskFailedError _ _ => true
  | TaskErroredError _ (Some e) | SWrap _ e => isFailedError e
  | _ => false
  end.
Fixpoint isAssertionError (e : serr) : bool :=
  match e with
  | AssertionError _ => true
  | TaskErroredError _ (Some e) | SWrap _ e => isAssertionError e
  | _ => false
  end.

Inductive FailureKind : Type :=
  | FailureKindNone | FailureKindFailed | FailureKindErrored | FailureKindAborted.
#[export] Instance FailureKind_eq_dec : EqDecision FailureKind.
Proof. solve_decision. Defined.

Definition failureKindFromErr (e : serr) : FailureKind :=
  if isAbortError e then FailureKindAborted
  else if isErroredError e then FailureKindErrored
  else FailureKindFailed.

Definition statusFromErr (e : option serr) : string :=
  match e with Some _ => "failure" | None => "success" end.

(** ** The driver (orchestra) *)
Module Mount.
Record t := mk { Name : string; Path : string; SizeGB : Z }.
End Mount.

Module OrchestraTask.
Record t := mk {
    ID : string; Command : list string; Env : gmap string string; Image : string;
    Mounts : list Mount.t; Privileged : bool; WorkDir : string;
    Limits : ContainerLimits.t }.
End OrchestraTask.

(** How waiting for a container ended. [logs] is the collected output. *)
Inductive wait_result : Type :=
  | Exited (code : Z) (stdout stderr : string)
  | DeadlineExceeded
  | WaitFailed (e : err).

(** The outside world [W]. [ticks] are the snapshots of the logs written
    while the container runs. *)
Class Driver (W : Type) : Type := {
  RunContainer : OrchestraTask.t -> W -> W * result nat;
  Wait_ : nat -> Z -> W -> W * (list json * json * wait_result);
  CreateVolume : string -> Z -> W -> W * result unit;
  ReadConfig : string -> W -> W * result TaskConfig.t;      (* from a volume *)
  FetchConfig : string -> W -> W * result TaskConfig.t;     (* over HTTP *)
  SecretsManager : W -> option Manager }.

(** Formatting of times and errors. *)
Class Format : Type := {
  RFC3339 : time -> string;
  Duration_String : Z -> string;
  SError : serr -> string }.

(** ** The state of a job (StepContext) *)
Record jobctx {W : Type} : Type := mkCtx {
  jc_db : db;
  jc_ExecutedTasks : list string;
  jc_PreRegisteredTasks : gset string;
  jc_FailureCount : Z;
  jc_LastFailureKind : FailureKind;
  jc_CacheVolumes : gmap string string;
  jc_KnownVolumes : gmap string string;
  jc_world : W }.
Arguments jobctx : clear implicits.

Section setters.
Context {W : Type}.
Implicit Types s : jobctx W.
Definition set_jc_db d s := mkCtx W d (jc_ExecutedTasks s) (jc_PreRegisteredTasks s)
  (jc_FailureCount s) (jc_LastFailureKind s) (jc_CacheVolumes s) (jc_KnownVolumes s) (jc_world s).
Definition set_executed l s := mkCtx W (jc_db s) l (jc_PreRegisteredTasks s)
  (jc_FailureCount s) (jc_LastFailureKind s) (jc_CacheVolumes s) (jc_KnownVolumes s) (jc_world s).
Definition set_prereg l s := mkCtx W (jc_db s) (jc_ExecutedTasks s) l
  (jc_FailureCount s) (jc_LastFailureKind s) (jc_CacheVolumes s) (jc_KnownVolumes s) (jc_world s).
Definition count_failure kind s := mkCtx W (jc_db s) (jc_ExecutedTasks s) (jc_PreRegisteredTasks s)
  (jc_FailureCount s + 1)%Z kind (jc_CacheVolumes s) (jc_KnownVolumes s) (jc_world s).
Definition set_caches m s := mkCtx W (jc_db s) (jc_ExecutedTasks s) (jc_PreRegisteredTasks s)
  (jc_FailureCount s) (jc_LastFailureKind s) m (jc_KnownVolumes s) (jc_world s).
Definition set_known m s := mkCtx W (jc_db s) (jc_ExecutedTasks s) (jc_PreRegisteredTasks s)
  (jc_FailureCount s) (jc_LastFailureKind s) (jc_CacheVolumes s) m (jc_world s).
Definition set_world w s := mkCtx W (jc_db s) (jc_ExecutedTasks s) (jc_PreRegisteredTasks s)
  (jc_FailureCount s) (jc_LastFailureKind s) (jc_CacheVolumes s) (jc_KnownVolumes s) w.

#[export] Instance jobctx_has_db : HasDb (jobctx W).
Proof. refine {| get_db := jc_db; put_db := set_jc_db |}; try done. by intros []. Defined.
End setters.

(** ** Pure helpers *)
Definition cloneEnv (original : gmap string string) : gmap string string := original.

Definition mergeJobParams (jobParams stepEnv : gmap string string) : gmap string string :=
  if decide (jobParams = ∅) then stepEnv
  else if decide (stepEnv = ∅) then jobParams
  else stepEnv ∪ jobParams.

Fixpoint after_last_slash (s acc : string) : string :=
  match s with
  | EmptyString => acc
  | String a s' => after_last_slash s' (if Ascii.eqb a "/" then s' else acc)
  end.

Definition resolveImage (cfg : option TaskConfig.t) : string :=
  match cfg with
  | None => ""
  | Some cfg =>
      if negb (bool_decide (TaskConfig.Image cfg = "")) then TaskConfig.Image cfg
      else
        let source := ImageResource.Source (TaskConfig.ImageResource cfg) in
        match source !! "repository" with
        | None => ""
        | Some repo =>
            if decide (repo = "") then ""
            else
              match source !! "tag" with
              | Some tag =>
                  if negb (bool_decide (tag = ""))
                     && negb (Contains (after_last_slash repo repo) ":")
                  then repo ++ ":" ++ tag else repo
              | None => repo
              end
        end
  end.

Definition buildCommand (cfg : option TaskConfig.t) : list string :=
  match cfg ≫= TaskConfig.Run with
  | None => []
  | Some run => TaskConfigRun.Path run :: TaskConfigRun.Args run
  end.

Definition checkTaskAssertions (step : Step) (taskName : string) (exitCode : Z)
    (stdout stderr : string) : option serr :=
  match Assert_ step with
  | None => None
  | Some a =>
      let code := default exitCode (StepAssert.Code a) in
      if negb (exitCode =? code)%Z then
        Some (AssertionError ("task " ++ q taskName ++ ": expected exit code " ++ Itoa code
                              ++ ", got " ++ Itoa exitCode))
      else if negb (bool_decide (StepAssert.Stdout a = "")) && negb (Contains stdout (StepAssert.Stdout a))
      then Some (AssertionError ("task " ++ q taskName ++ ": stdout does not contain "
                                 ++ q (StepAssert.Stdout a)))
      else if negb (bool_decide (StepAssert.Stderr a = "")) && negb (Contains stderr (StepAssert.Stderr a))
      then Some (AssertionError ("task " ++ q taskName ++ ": stderr does not contain "
                                 ++ q (StepAssert.Stderr a)))
      else None
  end.

Definition formatList (items : list string) : string := "[" ++ Join items ", " ++ "]".

(** The first index at which two lists of one length differ. *)
Fixpoint first_difference (i : nat) (expected got : list string)
    : option (nat * string * string) :=
  match expected, got with
  | x :: expected, y :: got =>
      if decide (x = y) then first_difference (S i) expected got else Some (i, x, y)
  | _, _ => None
  end.

(** [None] is the nil slice: no assertion. *)
Definition validateExecution (label : string) (expected : option (list string))
    (got : list string) : option serr :=
  match expected with
  | None => None
  | Some expected =>
      if negb (length expected =? length got)%nat then
        Some (AssertionError (label ++ " execution: expected " ++ formatList expected
                              ++ ", got " ++ formatList got))
      else
        match first_difference 0 expected got with
        | None => None
        | Some (i, x, y) =>
            Some (AssertionError (label ++ " execution[" ++ Itoa (Z.of_nat i) ++ "]: expected "
                                  ++ q x ++ ", got " ++ q y))
        end
  end.

Definition zeroPadWithLength (num length : nat) : string :=
  if (length <=? 1)%nat then Itoa (Z.of_nat num)
  else zero_pad (String.length (Itoa (Z.of_nat length - 1))) (Z.of_nat num).

(** [sanitizeCachePath], for ASCII paths. *)
Fixpoint dashed (s : string) : string :=
  match s with
  | EmptyString => ""
  | String a s' => String (if is_lower a || is_digit a then a else "-"%char) (dashed s')
  end.
Definition sanitizeCachePath (path : string) : string :=
  trim (fun a => Ascii.eqb a "-") (dashed (ToLower path)).

Inductive uriScheme : Type := schemeFile | schemeHTTP.
Definition parseURI (uri : string) : result (uriScheme * string) :=
  if HasPrefix uri "file://" then
    let path := TrimPrefix uri "file://" in
    if Contains path ".." then
      Err (EMsg ("file:// URI must not contain .. path segments: " ++ q uri))
    else Ok (schemeFile, path)
  else if HasPrefix uri "http://" || HasPrefix uri "https://" then Ok (schemeHTTP, uri)
  else Err (EMsg ("unsupported URI scheme in " ++ q uri)).

Definition resourceVolumeName (runID name : string) : string := "vol-" ++ runID ++ "-" ++ name.

(** *** Across (across_handler.go) *)
Module combination.
Record t := mk { Keys : list string; Values : list string }.

Fixpoint lookup (keys values : list string) (key : string) : string :=
  match keys, values with
  | k :: keys, v :: values => if decide (k = key) then v else lookup keys values key
  | _, _ => ""
  end.
Definition get (c : t) (key : string) : string := lookup (Keys c) (Values c) key.
End combination.

(** The digits of [idx] in the mixed radix of the value counts, the last
    variable least significant: the vector is filled from its end. *)
Fixpoint combo_values (vars_rev : list AcrossVar.t) (idx : nat) (vals : list string) : list string :=
  match vars_rev with
  | [] => vals
  | v :: vars_rev =>
      let size := length (AcrossVar.Values v) in
      combo_values vars_rev (idx / size)
        (default "" (AcrossVar.Values v !! (idx mod size)) :: vals)
  end.

Definition combo_count (vars : list AcrossVar.t) : nat :=
  foldl (fun total v => total * length (AcrossVar.Values v))%nat 1 vars.

Definition generateCombinations (vars : list AcrossVar.t) : list combination.t :=
  match vars with
  | [] => [combination.mk [] []]
  | _ =>
      (fun i => combination.mk (AcrossVar.Var <$> vars) (combo_values (reverse vars) i []))
        <$> seq 0 (combo_count vars)
  end.

Definition resolveAcrossLimit (vars : list AcrossVar.t) : Z :=
  let minLimit := foldl (fun minLimit v =>
    if (0 <? AcrossVar.MaxInFlight v)%Z
       && ((minLimit =? 0)%Z || (AcrossVar.MaxInFlight v <? minLimit)%Z)
    then AcrossVar.MaxInFlight v else minLimit) 0%Z vars in
  if (minLimit =? 0)%Z then 1%Z else minLimit.

(** A copy of a step with some fields changed. *)
Definition copy_step (task : string) (cfg : option TaskConfig.t) (across : list AcrossVar.t)
    (failFast : bool) (attempts : Z) (ensure abort error success failure : option Step)
    (s : Step) : Step :=
  mkStep (Assert_ s) task (Parallelism s) cfg (ContainerLimits_ s) (File_ s) (URI s) (Image s)
    (Privileged s) (Agent s) (Prompt s) (PromptFile s) (BuildImage s) (Get_ s) (GetConfig_ s)
    (Put_ s) (PutConfig_ s) (Params s) (Notify s) (Message s) (Async s) (Do s)
    ensure abort error success failure (Try_ s) (InParallel_Steps s) (InParallel_Limit s)
    (InParallel_FailFast s) across failFast attempts (Timeout_ s).

Definition with_env (env : gmap string string) (cfg : TaskConfig.t) : TaskConfig.t :=
  TaskConfig.mk (TaskConfig.Caches cfg) (TaskConfig.ContainerLimits cfg) (TaskConfig.Limits cfg)
    env (TaskConfig.Image cfg) (TaskConfig.ImageResource cfg) (TaskConfig.Inputs cfg)
    (TaskConfig.Outputs cfg) (TaskConfig.Platform cfg) (TaskConfig.Run cfg).

Definition keep_hooks (f : option Step -> option Step -> option Step -> option Step ->
    option Step -> Step -> Step) (s : Step) : Step :=
  f (Ensure s) (OnAbort s) (OnError s) (OnSuccess s) (OnFailure s) s.

Definition expandAcrossStep (step : Step) (combo : combination.t) (acrossVars : list AcrossVar.t)
    : Step :=
  let task := if decide (Task step = "") then ""
              else Task step ++ "-" ++
                   Join ((fun av => combination.get combo (AcrossVar.Var av)) <$> acrossVars) "-" in
  let cfg := (fun cfg => with_env (foldl (fun env '(k, v) => <[k := v]> env)
                 (cloneEnv (TaskConfig.Env cfg))
                 (zip (combination.Keys combo) (combination.Values combo))) cfg)
             <$> TaskConfig_ step in
  keep_hooks (copy_step task cfg [] false (Attempts step)) step.

(** [stripped] of executeWithAttempts. *)
Definition strip_step (step : Step) : Step :=
  copy_step (Task step) (TaskConfig_ step) (Across step) (AcrossFailFast step) 0
    None None None None None step.

(** The environment of an inline task configuration gets the webhook
    parameters below its own values. The code writes through the shared
    pointer; merging twice is merging once ([mergeJobParams_idem]). *)
Definition injectJobParams (jobParams : gmap string string) (step : Step) : Step :=
  match TaskConfig_ step with
  | Some cfg =>
      if decide (jobParams = ∅ \/ Task step = "") then step
      else keep_hooks (copy_step (Task step)
             (Some (with_env (mergeJobParams jobParams (TaskConfig.Env cfg)) cfg))
             (Across step) (AcrossFailFast step) (Attempts step)) step
  | None => step
  end.

Definition identifyStepType (step : Step) : string :=
  if negb (bool_decide (Task step = "")) then "task"
  else if negb (bool_decide (Agent step = "")) then "agent"
  else if negb (bool_decide (Get_ step = "")) then "get"
  else if negb (bool_decide (Put_ step = "")) then "put"
  else if bool_decide (is_Some (BuildImage step)) then "build_image"
  else if match Notify step with NNil => false | _ => true end then "notify"
  else if negb (bool_decide (Try_ step = [])) then "try"
  else if negb (bool_decide (Do step = [])) then "do"
  else if negb (bool_decide (InParallel_Steps step = [])) then "in_parallel"
  else "".

(** ** The handlers *)
Section steps.
Context {W : Type} `{!Driver W, !Format, !Namespace, !OrderBy, !JsonText}.
Context (RunID JobName PipelineID : string) (MaxInFlight : Z) (JobParams : gmap string string).

Notation process := (proc (jobctx W) serr).

(** The handlers of the other step types, and the cache restore task. *)
Context (other_Execute : string -> Step -> string -> process).
Context (runCacheRestoreTask : string -> string -> process).

Definition BaseStorageKey : string := "/pipeline/" ++ RunID ++ "/jobs/" ++ JobName.

(** A store call as an atomic action, and the two ways its error is used. *)
Definition set_row {A} (key : string) (payload : list (string * json)) (k : result unit -> A)
    (s : jobctx W) : jobctx W * A :=
  let '(r, s') := on_db (Set_ key (JObj payload)) s in (s', k r).
Definition Set_or (msg key : string) (payload : list (string * json)) (k : process) : process :=
  PAct (set_row key payload (fun r =>
    match r with Ok _ => k | Err e => PRet (Some (SWrap msg (SPlain e))) end)).
Definition Set_ignored (key : string) (payload : list (string * json)) (k : process) : process :=
  PAct (set_row key payload (fun _ => k)).

Definition get_ctx {A} (f : jobctx W -> A) (k : A -> process) : process :=
  act (fun s => (s, f s)) k.
Definition put_ctx (f : jobctx W -> jobctx W) (k : process) : process :=
  act (fun s => (f s, tt)) (fun _ => k).
Definition on_world {A} (f : W -> W * A) (k : A -> process) : process :=
  act (fun s => let '(w, a) := f (jc_world s) in (set_world w s, a)) k.
Definition now (k : time -> process) : process := get_ctx (fun s => db_now (jc_db s)) k.

Definition appendExecutedTask (name : string) (k : process) : process :=
  put_ctx (fun s => set_executed (jc_ExecutedTasks s ++ [name])%list s) k.

Definition resolveLimit (stepLimit stepCount : Z) : Z :=
  if (0 <? MaxInFlight)%Z then MaxInFlight
  else if (0 <? stepLimit)%Z then stepLimit
  else stepCount.

(** *** Task configuration *)
Definition trackLoad (key : string) (meta : list (string * json)) (loaded : string)
    (read : W -> W * result TaskConfig.t) (k : result TaskConfig.t -> process) : process :=
  now (fun startedAt =>
  let started := ("started_at", JStr (RFC3339 startedAt)) in
  Set_ignored key (("status", JStr "pending") :: meta ++ [started])%list
  (on_world read (fun r =>
   now (fun t =>
   let elapsed := ("elapsed", JStr (Duration_String (t - startedAt))) in
   match r with
   | Err e =>
       Set_ignored key (("status", JStr "failure") :: meta ++ [started; elapsed;
           ("errorMessage", JStr (SError (SPlain e)));
           ("logs", JArr [JObj [("type", JStr "stderr"); ("content", JStr (SError (SPlain e)))]])])%list
         (k (Err e))
   | Ok cfg =>
       Set_ignored key (("status", JStr "success") :: meta ++ [started; elapsed;
           ("logs", JArr [JObj [("type", JStr "stdout"); ("content", JStr loaded)]])])%list
         (k (Ok cfg))
   end)))).

Definition trackLoadFile (filePath pathPrefix : string) (k : result TaskConfig.t -> process)
    : process :=
  let mountName := default "" (head (Split filePath "/")) in
  trackLoad (BaseStorageKey ++ "/" ++ pathPrefix ++ "/load-file")
    [("file", JStr filePath); ("volume", JStr mountName)]
    ("loaded " ++ filePath ++ " from volume " ++ mountName) (ReadConfig filePath) k.

Definition trackLoadURI (uri pathPrefix : string) (k : result TaskConfig.t -> process) : process :=
  match parseURI uri with
  | Err e => k (Err e)
  | Ok (schemeFile, path) => trackLoadFile path pathPrefix k
  | Ok (schemeHTTP, _) =>
      trackLoad (BaseStorageKey ++ "/" ++ pathPrefix ++ "/load-uri") [("uri", JStr uri)]
        ("loaded config from " ++ uri) (FetchConfig uri) k
  end.

Definition loadRunTaskConfig (step : Step) (pathPrefix taskName : string)
    (env : option (gmap string string))
    (k : result (option TaskConfig.t * gmap string string) -> process) : process :=
  let finish (taskConfig : option TaskConfig.t) :=
    k (Ok (taskConfig,
           match env, taskConfig with
           | Some env, _ => env
           | None, Some cfg => mergeJobParams JobParams (TaskConfig.Env cfg)
           | None, None => ∅
           end)) in
  let loaded (r : result TaskConfig.t) :=
    match r with Ok cfg => finish (Some cfg) | Err e => k (Err e) end in
  if negb (bool_decide (File_ step = "")) then trackLoadFile (File_ step) pathPrefix loaded
  else if negb (bool_decide (URI step = "")) then trackLoadURI (URI step) pathPrefix loaded
  else finish (TaskConfig_ step).

(** *** Mounts *)
Definition cache_key (taskName : string) (c : Cache.t) : string :=
  if decide (Cache.Scope_ c = "task") then taskName ++ "/" ++ Cache.Path c else Cache.Path c.
Definition cache_volume (taskName : string) (c : Cache.t) : string :=
  if decide (Cache.Scope_ c = "task")
  then "cache-" ++ sanitizeCachePath taskName ++ "-" ++ sanitizeCachePath (Cache.Path c)
  else "cache-" ++ sanitizeCachePath (Cache.Path c).

(** A cache's volume is created, and restored, the first time it is seen. *)
Fixpoint resolveCaches (taskName pathPrefix : string) (caches : list Cache.t)
    (k : list Mount.t -> process) : process :=
  match caches with
  | [] => k []
  | c :: caches =>
      let continue (volName : string) := resolveCaches taskName pathPrefix caches (fun mounts =>
        k (Mount.mk volName (Cache.Path c) (Cache.SizeGB c) :: mounts)) in
      get_ctx (fun s => jc_CacheVolumes s !! cache_key taskName c) (fun known =>
      match known with
      | Some volName => continue volName
      | None =>
          let volName := cache_volume taskName c in
          put_ctx (fun s => set_caches (<[cache_key taskName c := volName]> (jc_CacheVolumes s)) s)
          (on_world (CreateVolume volName (Cache.SizeGB c)) (fun created =>
           match created with
           | Err _ => continue volName
           | Ok _ => pbind (runCacheRestoreTask volName pathPrefix) (fun _ => continue volName)
           end))
      end)
  end.

(** The volume of a mount name, named on its first use in the job. *)
Fixpoint resolve_known (mounts : list (string * Z)) (s : jobctx W) : jobctx W * list Mount.t :=
  match mounts with
  | [] => (s, [])
  | (name, size) :: rest =>
      let volName := default (resourceVolumeName RunID name) (jc_KnownVolumes s !! name) in
      let s := set_known (<[name := volName]> (jc_KnownVolumes s)) s in
      let '(s, l) := resolve_known rest s in
      (s, Mount.mk volName name size :: l)
  end.

Definition io_mounts (cfg : TaskConfig.t) : list (string * Z) :=
  (((fun o => (Output.Name o, Output.SizeGB o)) <$> TaskConfig.Outputs cfg) ++
   ((fun i => (Input.Name i, Input.SizeGB i)) <$> TaskConfig.Inputs cfg))%list.

Definition resolveMounts (cfg : option TaskConfig.t) (taskName pathPrefix : string)
    (k : list Mount.t -> process) : process :=
  match cfg with
  | None => k []
  | Some cfg =>
      resolveCaches taskName pathPrefix (TaskConfig.Caches cfg) (fun cacheMounts =>
      act (resolve_known (io_mounts cfg)) (fun ioMounts => k (cacheMounts ++ ioMounts)%list))
  end.

Definition resolveEnvSecrets (mgr : option Manager) (taskName : string)
    (env : gmap string string) : result (gmap string string) :=
  match mgr with
  | None => Ok env
  | Some _ =>
      map_fold (fun key v (acc : result (gmap string string)) =>
        match acc with
        | Err e => Err e
        | Ok resolved =>
            match ResolveSecretString mgr PipelineID v with
            | Ok (val, _) => Ok (<[key := val]> resolved)
            | Err e => Err (EWrap ("task " ++ q taskName ++ " env " ++ q key) e)
            end
        end) (Ok ∅) env
  end.

(** *** Tasks (task_handler.go) *)
Fixpoint write_ticks (key : string) (startedAt : time) (ticks : list json) (k : process) : process :=
  match ticks with
  | [] => k
  | logs :: ticks =>
      Set_ignored key [("status", JStr "running"); ("started_at", JStr (RFC3339 startedAt));
                       ("logs", logs)] (write_ticks key startedAt ticks k)
  end.

Definition orchestra_task (step : Step) (cfg : TaskConfig.t) (taskName : string)
    (env : gmap string string) (mounts : list Mount.t) : OrchestraTask.t :=
  OrchestraTask.mk (JobName ++ "-" ++ taskName) (buildCommand (Some cfg)) env
    (resolveImage (Some cfg)) mounts (Privileged step)
    (match TaskConfig.Run cfg with Some run => TaskConfigRun.Dir run | None => "" end)
    (EffectiveLimits cfg).

(** From the end of the container on. *)
Definition finish_task (step : Step) (key taskName : string) (startedAt : time)
    (logs : json) (outcome : wait_result) : process :=
  now (fun t =>
  let row status := [("status", JStr status); ("started_at", JStr (RFC3339 startedAt));
                     ("elapsed", JStr (Duration_String (t - startedAt))); ("logs", logs)] in
  match outcome with
  | DeadlineExceeded => Set_ignored key (row "abort") (PRet (Some (TaskAbortedError taskName)))
  | WaitFailed e => PRet (Some (TaskErroredError taskName (Some (SPlain e))))
  | Exited exitCode stdout stderr =>
      Set_or "storage set result" key
        (("code", JNum exitCode) :: row (if (exitCode =? 0)%Z then "success" else "failure"))
        (match checkTaskAssertions step taskName exitCode stdout stderr with
         | Some e => PRet (Some e)
         | None => if (exitCode =? 0)%Z then PRet None
                   else PRet (Some (TaskFailedError taskName exitCode))
         end)
  end).

Definition runTask (step : Step) (pathPrefix taskName : string)
    (env : option (gmap string string)) : process :=
  loadRunTaskConfig step pathPrefix taskName env (fun loaded =>
  match loaded with
  | Err e => PRet (Some (TaskErroredError taskName (Some (SPlain e))))
  | Ok (taskConfig, env) =>
  resolveMounts taskConfig taskName pathPrefix (fun mounts =>
  let key := BaseStorageKey ++ "/" ++ pathPrefix ++ "/tasks/" ++ taskName in
  now (fun startedAt =>
  Set_or "storage set pending" key
    [("status", JStr "pending"); ("started_at", JStr (RFC3339 startedAt))]
  (get_ctx (fun s => resolveEnvSecrets (SecretsManager (jc_world s)) taskName env) (fun env =>
  match env with
  | Err e => PRet (Some (TaskErroredError taskName (Some (SPlain e))))
  | Ok env =>
  match taskConfig with
  | None => PCrash                                  (* taskConfig.Run, nil pointer *)
  | Some cfg =>
  on_world (RunContainer (orchestra_task step cfg taskName env mounts)) (fun container =>
  match container with
  | Err e => PRet (Some (TaskErroredError taskName (Some (SPlain e))))
  | Ok id =>
  on_world (Wait_ id (Timeout_ step)) (fun '(ticks, logs, outcome) =>
    write_ticks key startedAt ticks
      (finish_task step key taskName startedAt logs outcome))
  end)
  end
  end))))
  end).

Definition indexed (task : string) (i : Z) : string := task ++ "-" ++ Itoa i.

Fixpoint append_indexed (task : string) (idxs : list nat) (k : process) : process :=
  match idxs with
  | [] => k
  | i :: idxs => appendExecutedTask (indexed task (Z.of_nat i)) (append_indexed task idxs k)
  end.

(** [step.TaskConfig.Env] of a step without an inline config panics. *)
Definition executeParallel (step : Step) (pathPrefix : string) : process :=
  let count := Parallelism step in
  let idxs := seq 1 (Z.to_nat count) in
  append_indexed (Task step) idxs
    (group (Z.to_nat (resolveLimit 0 count)) false
      ((fun i => match TaskConfig_ step with
         | None => PCrash
         | Some cfg => runTask step pathPrefix (indexed (Task step) (Z.of_nat i))
             (Some (<["CI_TASK_COUNT" := Itoa count]>
                (<["CI_TASK_INDEX" := Itoa (Z.of_nat i)]> (cloneEnv (TaskConfig.Env cfg)))))
         end) <$> idxs)
      (fun e => match e with
                | Some e => PRet (Some (SWrap "task steps" e))
                | None => PRet None
                end)).

(** A configuration without an env has a nil map. *)
Definition inline_env (step : Step) : option (gmap string string) :=
  match TaskConfig_ step with
  | Some cfg => if decide (TaskConfig.Env cfg = ∅) then None else Some (TaskConfig.Env cfg)
  | None => None
  end.

Definition task_Execute (step : Step) (pathPrefix : string) : process :=
  if (1 <? Parallelism step)%Z then executeParallel step pathPrefix
  else
    put_ctx (fun s => if decide (Task step ∈ jc_PreRegisteredTasks s) then s
                      else set_executed (jc_ExecutedTasks s ++ [Task step])%list s)
      (runTask step pathPrefix (Task step) (inline_env step)).

(** *** Composite steps

    The steps a step contains, as functions of the path prefix. *)
Record kids : Type := mkKids {
  kid_do : list (string -> process); kid_try : list (string -> process);
  kid_par : list (string -> process);
  kid_ensure : option (string -> process); kid_abort : option (string -> process);
  kid_error : option (string -> process); kid_success : option (string -> process);
  kid_failure : option (string -> process) }.

Definition strip_kids (ks : kids) : kids :=
  mkKids (kid_do ks) (kid_try ks) (kid_par ks) None None None None None.

Definition pending_row : list (string * json) := [("status", JStr "pending")].
Definition status_row (e : option serr) : list (string * json) :=
  [("status", JStr (statusFromErr e))].
Definition wrap_err (msg : string) (e : option serr) : option serr := SWrap msg <$> e.

(** do_handler.go *)
Fixpoint do_loop (prefix : string -> string) (n i : nat) (steps : list (string -> process))
    (k : option serr -> process) : process :=
  match steps with
  | [] => k None
  | p :: steps =>
      pbind (p (prefix (zeroPadWithLength i n))) (fun e =>
      match e with
      | Some _ => k e
      | None => do_loop prefix n (S i) steps k
      end)
  end.

Definition do_Execute (ks : kids) (pathPrefix : string) : process :=
  let key := BaseStorageKey ++ "/" ++ pathPrefix ++ "/do" in
  Set_or "storage set pending" key pending_row
    (do_loop (fun i => pathPrefix ++ "/do/" ++ i) (length (kid_do ks)) 0 (kid_do ks) (fun stepErr =>
     Set_or "storage set result" key (status_row stepErr) (PRet stepErr))).

(** try_handler.go *)
Fixpoint try_loop (prefix : string -> string) (n i : nat) (failureBefore : Z)
    (steps : list (string -> process)) (k : process) : process :=
  match steps with
  | [] => k
  | p :: steps =>
      pbind (p (prefix (zeroPadWithLength i n))) (fun e =>
      match e with
      | Some e =>
          put_ctx (fun s => if (jc_FailureCount s =? failureBefore)%Z
                            then count_failure (failureKindFromErr e) s else s) k
      | None =>
          get_ctx jc_FailureCount (fun count =>
          if (failureBefore <? count)%Z then k
          else try_loop prefix n (S i) failureBefore steps k)
      end)
  end.

Definition try_Execute (ks : kids) (pathPrefix : string) : process :=
  let key := BaseStorageKey ++ "/" ++ pathPrefix ++ "/try" in
  Set_or "storage set pending" key pending_row
    (get_ctx jc_FailureCount (fun failureBefore =>
     try_loop (fun i => pathPrefix ++ "/try/" ++ i) (length (kid_try ks)) 0 failureBefore
       (kid_try ks)
       (Set_or "storage set success" key (status_row None) (PRet None)))).

(** in_parallel_handler.go *)
Definition preregister (steps : list Step) (s : jobctx W) : jobctx W :=
  let tasks := List.filter (fun t => negb (bool_decide (t = ""))) (Task <$> steps) in
  set_executed (jc_ExecutedTasks s ++ tasks)%list
    (set_prereg (list_to_set tasks ∪ jc_PreRegisteredTasks s) s).

Definition in_parallel_Execute (step : Step) (ks : kids) (pathPrefix : string) : process :=
  let key := BaseStorageKey ++ "/" ++ pathPrefix ++ "/in_parallel" in
  let n := length (kid_par ks) in
  let limit := resolveLimit (InParallel_Limit step) (Z.of_nat n) in
  Set_or "storage set pending" key pending_row
    (put_ctx (fun s => if InParallel_FailFast step then s else preregister (InParallel_Steps step) s)
      (group (Z.to_nat limit) (InParallel_FailFast step)
        (imap (fun i p => p (pathPrefix ++ "/in_parallel/" ++ zeroPadWithLength i n)) (kid_par ks))
        (fun runErr =>
         let runErr := wrap_err "in parallel" runErr in
         Set_or "storage set result" key (status_row runErr) (PRet runErr)))).

(** *** Hooks (job.go) *)
Definition run_hook (hook : option (string -> process)) (prefix : string) (k : process) : process :=
  match hook with
  | Some p => pbind (p prefix) (fun _ => k)
  | None => k
  end.

Definition dispatchInnerFailureHook (ks : kids) (pathPrefix : string) (k : process) : process :=
  get_ctx jc_LastFailureKind (fun kind =>
  if bool_decide (kind = FailureKindAborted) && bool_decide (is_Some (kid_abort ks)) then
    run_hook (kid_abort ks) (pathPrefix ++ "/on_abort") k
  else if bool_decide (kind = FailureKindErrored) && bool_decide (is_Some (kid_error ks)) then
    run_hook (kid_error ks) (pathPrefix ++ "/on_error") k
  else run_hook (kid_failure ks) (pathPrefix ++ "/on_failure") k).

(** The hook that takes a failed step's error; [k true] when one did.
    runAttemptFailureHook is the same code. *)
Definition dispatchOuterErrorHook (ks : kids) (pathPrefix : string) (stepErr : serr)
    (k : bool -> process) : process :=
  if isAbortError stepErr && bool_decide (is_Some (kid_abort ks)) then
    put_ctx (count_failure FailureKindAborted)
      (run_hook (kid_abort ks) (pathPrefix ++ "/on_abort") (k true))
  else if isErroredError stepErr && bool_decide (is_Some (kid_error ks)) then
    put_ctx (count_failure FailureKindErrored)
      (run_hook (kid_error ks) (pathPrefix ++ "/on_error") (k true))
  else if isFailedError stepErr && bool_decide (is_Some (kid_failure ks)) then
    put_ctx (count_failure FailureKindFailed)
      (run_hook (kid_failure ks) (pathPrefix ++ "/on_failure") (k true))
  else k false.

Definition dispatchStepHook (ks : kids) (pathPrefix : string) (stepErr : option serr)
    (failureBefore : Z) (k : option serr -> process) : process :=
  get_ctx jc_FailureCount (fun count =>
  match stepErr with
  | None =>
      if (failureBefore <? count)%Z then dispatchInnerFailureHook ks pathPrefix (k None)
      else match kid_success ks with
           | Some p => pbind (p (pathPrefix ++ "/on_success")) k
           | None => k None
           end
  | Some e =>
      dispatchOuterErrorHook ks pathPrefix e (fun consumed => k (if consumed then None else Some e))
  end).

Definition handler_Execute (stepType : string) (step : Step) (ks : kids) (pathPrefix : string)
    : process :=
  if decide (stepType = "task") then task_Execute step pathPrefix
  else if decide (stepType = "try") then try_Execute ks pathPrefix
  else if decide (stepType = "do") then do_Execute ks pathPrefix
  else if decide (stepType = "in_parallel") then in_parallel_Execute step ks pathPrefix
  else other_Execute stepType step pathPrefix.

(** A step without across and attempts. *)
Definition process_plain (step : Step) (ks : kids) (pathPrefix : string) : process :=
  let stepType := identifyStepType step in
  if decide (stepType = "") then
    PRet (Some (SPlain (EMsg ("unknown step type in job " ++ q JobName ++ " at prefix "
                              ++ q pathPrefix))))
  else
    get_ctx jc_FailureCount (fun failureBefore =>
    pbind (handler_Execute stepType step ks pathPrefix) (fun stepErr =>
    dispatchStepHook ks pathPrefix stepErr failureBefore (fun stepErr =>
    run_hook (kid_ensure ks) (pathPrefix ++ "/ensure") (PRet stepErr)))).

(** *** Attempts (attempts_handler.go) *)
Fixpoint attempts_loop (run : string -> process) (pathPrefix : string) (n : nat) (attempt : Z)
    (lastErr : option serr) (k : bool -> option serr -> process) : process :=
  match n with
  | 0 => k false lastErr
  | S n =>
      pbind (run (pathPrefix ++ "/attempt/" ++ Itoa attempt)) (fun e =>
      match e with
      | Some _ => attempts_loop run pathPrefix n (attempt + 1) e k
      | None => k true lastErr
      end)
  end.

Definition executeWithAttempts (maxAttempts : Z) (ks : kids) (run : string -> process)
    (pathPrefix : string) : process :=
  let finish lastErr := run_hook (kid_ensure ks) (pathPrefix ++ "/ensure") (PRet lastErr) in
  attempts_loop run pathPrefix (Z.to_nat maxAttempts) 1 None (fun succeeded lastErr =>
    if succeeded then
      match kid_success ks with
      | Some p => pbind (p (pathPrefix ++ "/on_success")) (fun e =>
                    finish (match e with Some _ => e | None => lastErr end))
      | None => finish lastErr
      end
    else
      match lastErr with
      | None => finish None
      | Some e => dispatchOuterErrorHook ks pathPrefix e (fun consumed =>
                    finish (if consumed then None else Some e))
      end).

Definition process_attempts (step : Step) (ks : kids) (pathPrefix : string) : process :=
  let step := injectJobParams JobParams step in
  if (1 <? Attempts step)%Z then
    executeWithAttempts (Attempts step) ks (process_plain (strip_step step) (strip_kids ks))
      pathPrefix
  else process_plain step ks pathPrefix.

(** *** Across (across_handler.go) *)
Definition across_context (vars : list AcrossVar.t) (c : combination.t) : string :=
  Join ((fun av => AcrossVar.Var av ++ "_" ++ combination.get c (AcrossVar.Var av)) <$> vars) "_".

Definition executeAcross (step : Step) (pathPrefix : string)
    (processStep : Step -> string -> process) : process :=
  let key := BaseStorageKey ++ "/" ++ pathPrefix ++ "/across" in
  let limit := if AcrossFailFast step then 1%Z else resolveAcrossLimit (Across step) in
  Set_or "storage set pending" key pending_row
    (group (Z.to_nat limit) (AcrossFailFast step)
      (imap (fun i c => processStep (expandAcrossStep step c (Across step))
               (pathPrefix ++ "/across/" ++ Itoa (Z.of_nat i) ++ "_"
                ++ across_context (Across step) c))
         (generateCombinations (Across step)))
      (fun runErr =>
       let runErr := wrap_err "across" runErr in
       Set_or "storage set result" key (status_row runErr) (PRet runErr))).

Definition process_step (step : Step) (ks : kids) (pathPrefix : string) : process :=
  let step := injectJobParams JobParams step in
  match Across step with
  | [] => process_attempts step ks pathPrefix
  | _ => executeAcross step pathPrefix (fun s prefix => process_attempts s ks prefix)
  end.

(** The recursion of the code is on copies of the step as well; the copies
    contain the same steps, so that it is structural here
    ([processStep_equation] is the code's own recursion). *)
Fixpoint processStep (step : Step) : string -> process :=
  process_step step
    (mkKids (List.map processStep (Do step)) (List.map processStep (Try_ step))
       (List.map processStep (InParallel_Steps step))
       (option_map processStep (Ensure step)) (option_map processStep (OnAbort step))
       (option_map processStep (OnError step)) (option_map processStep (OnSuccess step))
       (option_map processStep (OnFailure step))).
End steps.

(** ** The recursion of the code *)
Lemma mergeJobParams_idem (params env : gmap string string) :
  mergeJobParams params (mergeJobParams params env) = mergeJobParams params env.
Proof.
  unfold mergeJobParams. destruct (decide (params = ∅)); [done|].
  destruct (decide (env = ∅)) as [->|He].
  - rewrite decide_False by done. apply map_union_idemp.
  - rewrite decide_False.
    + rewrite <- (assoc_L (∪)). by rewrite map_union_idemp.
    + intros Hu. apply He, map_empty. intros k. apply (f_equal (.!! k)) in Hu.
      rewrite lookup_empty, lookup_union in Hu. by destruct (env !! k), (params !! k).
Qed.

Lemma injectJobParams_idem params step :
  injectJobParams params (injectJobParams params step) = injectJobParams params step.
Proof.
  unfold injectJobParams. destruct (TaskConfig_ step) as [cfg|] eqn:Hc; [|by rewrite Hc].
  destruct (decide (params = ∅ \/ Task step = "")) as [Hd|Hd].
  { rewrite Hc. by rewrite decide_True. }
  cbn [keep_hooks copy_step TaskConfig_ Task]. rewrite decide_False by done.
  destruct step; cbn. unfold keep_hooks, copy_step; cbn. do 2 f_equal.
  unfold with_env; cbn. f_equal. apply mergeJobParams_idem.
Qed.

Lemma inject_strip params step :
  injectJobParams params (strip_step (injectJobParams params step)) =
    strip_step (injectJobParams params step).
Proof.
  rewrite <- (injectJobParams_idem params step) at 2.
  unfold injectJobParams at 1 3. destruct (TaskConfig_ (injectJobParams params step)) as [cfg|] eqn:Hc;
    cbn [strip_step copy_step TaskConfig_]; rewrite Hc; [|done].
  cbn [strip_step copy_step Task]. destruct (decide _) as [Hd|Hd]; done.
Qed.

Section recursion.
Context {W : Type} `{!Driver W, !Format, !Namespace, !OrderBy, !JsonText}.
Context (RunID JobName PipelineID : string) (MaxInFlight : Z) (JobParams : gmap string string).
Context (other_Execute : string -> Step -> string -> proc (jobctx W) serr).
Context (runCacheRestoreTask : string -> string -> proc (jobctx W) serr).

Notation process_step := (process_step RunID JobName PipelineID MaxInFlight JobParams
  other_Execute runCacheRestoreTask).
Notation process_attempts := (process_attempts RunID JobName PipelineID MaxInFlight JobParams
  other_Execute runCacheRestoreTask).
Notation process_plain := (process_plain RunID JobName PipelineID MaxInFlight JobParams
  other_Execute runCacheRestoreTask).
Notation processStep := (processStep RunID JobName PipelineID MaxInFlight JobParams
  other_Execute runCacheRestoreTask).

Definition kids_of (step : Step) : kids :=
  mkKids (processStep <$> Do step) (processStep <$> Try_ step)
    (processStep <$> InParallel_Steps step) (processStep <$> Ensure step)
    (processStep <$> OnAbort step) (processStep <$> OnError step)
    (processStep <$> OnSuccess step) (processStep <$> OnFailure step).

Lemma processStep_unfold step prefix :
  processStep step prefix = process_step step (kids_of step) prefix.
Proof. by destruct step. Qed.

Lemma kids_of_inject step : kids_of (injectJobParams JobParams step) = kids_of step.
Proof.
  unfold injectJobParams. destruct (TaskConfig_ step); [|done]. by destruct (decide _).
Qed.

Lemma across_inject step : Across (injectJobParams JobParams step) = Across step.
Proof. unfold injectJobParams. destruct (TaskConfig_ step); [|done]. by destruct (decide _). Qed.
Lemma attempts_inject step : Attempts (injectJobParams JobParams step) = Attempts step.
Proof. unfold injectJobParams. destruct (TaskConfig_ step); [|done]. by destruct (decide _). Qed.

(** A step whose across is spent is at its attempts. *)
Lemma processStep_attempts step prefix :
  Across step = [] -> processStep step prefix = process_attempts step (kids_of step) prefix.
Proof.
  intros Ha. rewrite processStep_unfold. unfold Steps.process_step.
  rewrite across_inject, Ha. unfold Steps.process_attempts. by rewrite injectJobParams_idem.
Qed.

(** [processStep] as the code writes it: across first, calling itself on the
    expanded copies; then attempts, calling itself on the stripped copy; then
    the handler and the hooks. *)
Lemma processStep_equation step prefix :
  let step' := injectJobParams JobParams step in
  processStep step prefix =
    match Across step' with
    | [] =>
        if (1 <? Attempts step')%Z then
          executeWithAttempts (Attempts step') (kids_of step') (processStep (strip_step step')) prefix
        else process_plain step' (kids_of step') prefix
    | _ => executeAcross RunID JobName step' prefix processStep
    end.
Proof.
  cbv zeta. rewrite processStep_unfold. unfold Steps.process_step.
  rewrite kids_of_inject, across_inject.
  destruct (Across step) as [|v vs] eqn:Ha.
  - unfold Steps.process_attempts. rewrite injectJobParams_idem, attempts_inject.
    destruct (Z.ltb_spec 1 (Attempts step)); [|done].
    f_equal. apply functional_extensionality. intros p. symmetry.
    rewrite processStep_attempts by (cbn; by rewrite across_inject).
    unfold Steps.process_attempts. rewrite inject_strip.
    change (kids_of (strip_step (injectJobParams JobParams step)))
      with (strip_kids (kids_of (injectJobParams JobParams step))).
    by rewrite kids_of_inject.
  - unfold executeAcross. do 2 f_equal. apply imap_ext. intros i c _.
    symmetry. rewrite processStep_attempts by done.
    change (kids_of (expandAcrossStep (injectJobParams JobParams step) c
      (Across (injectJobParams JobParams step)))) with (kids_of (injectJobParams JobParams step)).
    by rewrite kids_of_inject.
Qed.
End recursion.
