(* ===== verification/StepProps.v ===== *)
(** * Properties of step execution

    Invariants of the database carried through every handler under every
    schedule, and what follows: steps end, semaphores hold, try swallows. *)
From stdpp Require Import relations.
From S2P Require Import Prelude Storage Json Db GoStrings Paging Tasks Config Secrets.
From S2P Require Import Procs Steps.
Open Scope string_scope.

(** ** Steps the handlers can run

    A task step reads its inline configuration unless it loads one, and a
    parallel one always does. *)
Definition task_config_ok (s : Step) : Prop :=
  Task s <> "" -> is_Some (TaskConfig_ s) \/
    (File_ s <> "" \/ URI s <> "") /\ (Parallelism s <= 1)%Z.

(** The steps inside a step, hooks included. *)
Definition contains (s t : Step) : Prop :=
  t ∈ Do s \/ t ∈ Try_ s \/ t ∈ InParallel_Steps s \/ t ∈ hooks s.
Definition configured (s : Step) : Prop := forall t, rtc contains s t -> task_config_ok t.

Lemma configured_inner s t : configured s -> contains s t -> configured t.
Proof. intros Hs Ht u Hu. apply Hs. by eapply rtc_l. Qed.

(** ** The permits of a group

    What the configuration grants a step: the max_in_flight of the job before
    the limit of the step, and as many permits as there are members without
    either. *)
Definition granted (jobLimit stepLimit count : Z) (n : nat) : Prop :=
  (0 < jobLimit -> Z.of_nat n = jobLimit)%Z /\
  (jobLimit <= 0 -> 0 < stepLimit -> Z.of_nat n = stepLimit)%Z /\
  (jobLimit <= 0 -> stepLimit <= 0 -> Z.of_nat n = count)%Z.
(** across: the least max_in_flight of its variables; one permit without any. *)
Definition across_granted (vars : list AcrossVar.t) (n : nat) : Prop :=
  (forall v, v ∈ vars -> 0 < AcrossVar.MaxInFlight v -> Z.of_nat n <= AcrossVar.MaxInFlight v)%Z /\
  ((exists v, v ∈ vars /\ AcrossVar.MaxInFlight v = Z.of_nat n) \/
   (n = 1 /\ forall v, v ∈ vars -> (AcrossVar.MaxInFlight v <= 0)%Z)).
(** The permits of a group that runs a step, and whether it fails fast. *)
Definition permits (jobLimit : Z) (s : Step) (n : nat) (failFast : bool) : Prop :=
  (Across s <> [] /\ failFast = AcrossFailFast s /\
     if failFast then n = 1 else across_granted (Across s) n) \/
  (InParallel_Steps s <> [] /\ failFast = InParallel_FailFast s /\
     granted jobLimit (InParallel_Limit s) (Z.of_nat (length (InParallel_Steps s))) n) \/
  ((1 < Parallelism s)%Z /\ failFast = false /\ granted jobLimit 0 (Parallelism s) n).

Lemma resolveLimit_granted jobLimit stepLimit count :
  (0 <= count)%Z -> granted jobLimit stepLimit count (Z.to_nat (resolveLimit jobLimit stepLimit count)).
Proof.
  intros Hc. unfold granted, resolveLimit.
  destruct (Z.ltb_spec 0 jobLimit); [|destruct (Z.ltb_spec 0 stepLimit)]; lia.
Qed.

Lemma least_limit vars : forall m,
  let pick m v := if (0 <? AcrossVar.MaxInFlight v)%Z && ((m =? 0)%Z || (AcrossVar.MaxInFlight v <? m)%Z)
                  then AcrossVar.MaxInFlight v else m in
  (0 <= m)%Z ->
  let r := foldl pick m vars in
  (0 <= r)%Z /\ (0 < m -> 0 < r <= m)%Z /\
  (forall v, v ∈ vars -> 0 < AcrossVar.MaxInFlight v -> 0 < r <= AcrossVar.MaxInFlight v)%Z /\
  (r = m \/ exists v, v ∈ vars /\ AcrossVar.MaxInFlight v = r).
Proof.
  induction vars as [|v vars IH]; intros m pick Hm; cbn [foldl].
  { split_and!; [done|lia| |by left]. by intros v Hv%not_elem_of_nil. }
  assert (Hp : (0 <= pick m v /\ (0 < m -> 0 < pick m v <= m) /\
    (0 < AcrossVar.MaxInFlight v -> 0 < pick m v <= AcrossVar.MaxInFlight v))%Z /\
    (pick m v = m \/ AcrossVar.MaxInFlight v = pick m v)).
  { unfold pick. destruct (Z.ltb_spec 0 (AcrossVar.MaxInFlight v)), (Z.eqb_spec m 0),
      (Z.ltb_spec (AcrossVar.MaxInFlight v) m); cbn [andb orb]; lia. }
  destruct Hp as [(H0 & H1 & H2) H3]. destruct (IH (pick m v) H0) as (R0 & R1 & R2 & R3). fold pick in R0, R1, R2, R3.
  set (r := foldl pick (pick m v) vars) in *. split_and!; [done|lia| |].
  - intros u [->|Hu]%elem_of_cons Hpos; [lia|by apply R2].
  - destruct R3 as [R3|(u & Hu & Hr)].
    + destruct H3 as [H3|H3]; [left; lia|]. right. exists v. split; [by left|lia].
    + right. exists u. split; [by right|done].
Qed.

Lemma resolveAcrossLimit_granted vars :
  (0 < resolveAcrossLimit vars)%Z /\ across_granted vars (Z.to_nat (resolveAcrossLimit vars)).
Proof.
  unfold resolveAcrossLimit, across_granted. destruct (least_limit vars 0 ltac:(done)) as (R0 & _ & R2 & R3).
  cbv zeta in *. set (r := foldl _ 0%Z vars) in *. destruct (Z.eqb_spec r 0) as [Hr|Hr].
  - split; [lia|]. assert (Hno : forall v, v ∈ vars -> (AcrossVar.MaxInFlight v <= 0)%Z).
    { intros v Hv. destruct (Z.le_gt_cases (AcrossVar.MaxInFlight v) 0) as [?|Hpos]; [done|].
      specialize (R2 v Hv). lia. }
    split; [intros v Hv Hpos; specialize (Hno v Hv); lia|]. by right.
  - split; [lia|]. split; [intros v Hv Hpos; specialize (R2 v Hv Hpos); lia|].
    destruct R3 as [?|(v & Hv & He)]; [done|]. left. exists v. split; [done|lia].
Qed.

Lemma permits_copy jobLimit task cfg across failFast attempts ensure abort error success failure s n b :
  across = [] \/ (across = Across s /\ failFast = AcrossFailFast s) ->
  permits jobLimit (copy_step task cfg across failFast attempts ensure abort error success failure s) n b ->
  permits jobLimit s n b.
Proof. unfold permits, copy_step. cbn. intros [->|[-> ->]] [[? ?]|?]; [done|by right|by left|by right]. Qed.
Lemma permits_inject jobLimit params s n b :
  permits jobLimit (injectJobParams params s) n b -> permits jobLimit s n b.
Proof.
  unfold injectJobParams, keep_hooks. destruct (TaskConfig_ s); [|done]. case_decide; [done|].
  apply permits_copy. by right.
Qed.
Lemma permits_expand jobLimit s c vars n b :
  permits jobLimit (expandAcrossStep s c vars) n b -> permits jobLimit s n b.
Proof. unfold expandAcrossStep, keep_hooks. apply permits_copy. by left. Qed.
Lemma permits_strip jobLimit s n b : permits jobLimit (strip_step s) n b -> permits jobLimit s n b.
Proof. unfold strip_step. apply permits_copy. by right. Qed.

Section invariants.
Context {W : Type} `{!Driver W, !Format, !Namespace, !OrderBy, !JsonText}.
Context (RunID JobName PipelineID : string) (MaxInFlight : Z) (JobParams : gmap string string).
Context (other_Execute : string -> Step -> string -> proc (jobctx W) serr).
Context (runCacheRestoreTask : string -> string -> proc (jobctx W) serr).

(** An invariant of the database that writing a task row preserves, and that
    the handlers left abstract preserve. *)
Context (P : db -> Prop) (L : nat -> bool -> Prop).
Let I : jobctx W -> Prop := fun s => P (jc_db s).
Context (P_set : forall key payload d, P d -> P (Set_ key payload d).2).
Context (P_other : forall ty step prefix, keeps_lim I L (other_Execute ty step prefix)).
Context (P_restore : forall vol prefix, keeps_lim I L (runCacheRestoreTask vol prefix)).

Notation keeps_I := (keeps_lim I L).
(** [L] holds of what the configuration grants the step. *)
Definition lim_ok (s : Step) : Prop := forall n b, permits MaxInFlight s n b -> L n b.

Lemma set_row_db {A} key payload (k : result unit -> A) s :
  I s -> I (set_row (W:=W) key payload k s).1.
Proof.
  unfold I, set_row, on_db. intros HP. cbn [get_db jobctx_has_db].
  pose proof (P_set key (JObj payload) (jc_db s) HP). by destruct (Set_ _ _ _).
Qed.

Lemma set_row_k {A} key payload (k : result unit -> A) s :
  exists r, (set_row (W:=W) key payload k s).2 = k r.
Proof. unfold set_row. destruct (on_db _ s) as [r s']. by exists r. Qed.

Lemma keeps_Set_or msg key payload k : keeps_I k -> keeps_I (Set_or msg key payload k).
Proof.
  intros Hk. constructor. intros s HI. split; [by apply set_row_db|].
  destruct (set_row_k key payload (fun r : result unit => match r with
    | Ok _ => k | Err e => PRet (Some (SWrap msg (SPlain e))) end) s) as [[a|e] ->];
    [done|constructor].
Qed.

Lemma keeps_Set_ignored key payload k : keeps_I k -> keeps_I (Set_ignored key payload k).
Proof.
  intros Hk. constructor. intros s HI. split; [by apply set_row_db|].
  by destruct (set_row_k key payload (fun _ => k) s) as [_ ->].
Qed.

Lemma keeps_get_ctx {A} (f : jobctx W -> A) k : (forall a, keeps_I (k a)) -> keeps_I (get_ctx f k).
Proof. intros Hk. by apply keeps_bind_act. Qed.

Lemma keeps_put_ctx f k :
  (forall s, jc_db (f s) = jc_db s) -> keeps_I k -> keeps_I (put_ctx f k).
Proof.
  intros Hf Hk. apply keeps_bind_act; [|done]. intros s. unfold I. cbn [fst]. by rewrite Hf.
Qed.

Lemma keeps_on_world {A} (f : W -> W * A) k :
  (forall a, keeps_I (k a)) -> keeps_I (on_world f k).
Proof.
  intros Hk. apply keeps_bind_act; [|done]. intros s. unfold I. by destruct (f (jc_world s)).
Qed.

Lemma keeps_now k : (forall t, keeps_I (k t)) -> keeps_I (now k).
Proof. apply keeps_get_ctx. Qed.

Lemma keeps_run_hook hook prefix k :
  (forall p, hook = Some p -> keeps_I (p prefix)) -> keeps_I k -> keeps_I (run_hook hook prefix k).
Proof. intros Hh Hk. destruct hook as [p|]; [|done]. apply keeps_pbind; auto. Qed.

Ltac keeps_tac :=
  repeat first
    [ apply keeps_ret | apply keeps_Set_or | apply keeps_Set_ignored | apply keeps_now
    | apply keeps_get_ctx | apply keeps_on_world
    | apply keeps_put_ctx; [by intros ?; repeat case_match|]
    | progress intros | progress case_match ].

(** *** Tasks *)
Notation trackLoad := (trackLoad (W:=W)).
Notation runTask := (runTask RunID JobName PipelineID JobParams runCacheRestoreTask).

Lemma keeps_trackLoad key meta loaded read k :
  (forall r, keeps_I (k r)) -> keeps_I (trackLoad key meta loaded read k).
Proof. intros Hk. unfold Steps.trackLoad. keeps_tac; apply Hk. Qed.

Lemma keeps_loadRunTaskConfig step prefix name env k :
  (forall r, (forall cfg env, r = Ok (cfg, env) -> File_ step = "" -> URI step = "" ->
       cfg = TaskConfig_ step) ->
     (forall cfg env, r = Ok (cfg, env) -> File_ step <> "" \/ URI step <> "" -> is_Some cfg) ->
     keeps_I (k r)) ->
  keeps_I (loadRunTaskConfig RunID JobName JobParams step prefix name env k).
Proof.
  intros Hk. unfold loadRunTaskConfig, trackLoadURI, trackLoadFile. cbv zeta.
  destruct (bool_decide_reflect (File_ step = "")) as [Hf|Hf]; cbn [negb].
  - destruct (bool_decide_reflect (URI step = "")) as [Hu|Hu]; cbn [negb].
    + apply Hk; [by intros ? ? [= <- _]|]. by intros ? ? _ [?|?].
    + repeat case_match; try apply keeps_trackLoad; intros; repeat case_match;
        apply Hk; intros; simplify_eq; try done; by eexists.
  - apply keeps_trackLoad. intros r. case_match; apply Hk; intros; simplify_eq; try done;
      by eexists.
Qed.

Lemma keeps_resolveCaches name prefix caches k :
  (forall l, keeps_I (k l)) -> keeps_I (resolveCaches runCacheRestoreTask name prefix caches k).
Proof.
  revert k. induction caches as [|c caches IH]; intros k Hk; cbn [resolveCaches]; [apply Hk|].
  apply keeps_get_ctx. intros [vol|]; [by apply IH|].
  apply keeps_put_ctx; [done|]. apply keeps_on_world. intros [u|e]; [|by apply IH].
  apply keeps_pbind; [apply P_restore|intros _; by apply IH].
Qed.

Lemma resolve_known_db mounts (s : jobctx W) : jc_db (resolve_known RunID mounts s).1 = jc_db s.
Proof.
  revert s. induction mounts as [|[name size] mounts IH]; intros s; cbn [resolve_known]; [done|].
  cbv zeta. set (s1 := set_known _ s). specialize (IH s1). destruct (resolve_known RunID mounts s1).
  exact IH.
Qed.

Lemma keeps_resolveMounts cfg name prefix k :
  (forall l, keeps_I (k l)) -> keeps_I (resolveMounts RunID runCacheRestoreTask cfg name prefix k).
Proof.
  intros Hk. destruct cfg as [cfg|]; cbn [resolveMounts]; [|apply Hk].
  apply keeps_resolveCaches. intros l. apply keeps_bind_act; [|intros; apply Hk].
  intros s. unfold I. by rewrite resolve_known_db.
Qed.

Lemma keeps_write_ticks key t ticks k : keeps_I k -> keeps_I (write_ticks (W:=W) key t ticks k).
Proof. intros Hk. induction ticks; cbn [write_ticks]; [done|]. by apply keeps_Set_ignored. Qed.

Lemma keeps_finish_task step key name t logs outcome :
  keeps_I (finish_task (W:=W) step key name t logs outcome).
Proof. unfold finish_task. keeps_tac. Qed.

Lemma keeps_runTask step prefix name env :
  is_Some (TaskConfig_ step) \/ (File_ step <> "" \/ URI step <> "") ->
  keeps_I (runTask step prefix name env).
Proof.
  intros Hcfg. unfold Steps.runTask. apply keeps_loadRunTaskConfig.
  intros [[cfg env']|e] Hinline Hloaded; [|apply keeps_ret].
  assert (Hsome : is_Some cfg).
  { destruct (decide (File_ step = "")) as [Hf|Hf]; [|by eapply Hloaded; eauto].
    destruct (decide (URI step = "")) as [Hu|Hu]; [|by eapply Hloaded; eauto].
    rewrite (Hinline cfg env') by done. by destruct Hcfg as [?|[?|?]]. }
  destruct Hsome as [cfg' ->].
  apply keeps_resolveMounts. intros mounts. keeps_tac.
  apply keeps_write_ticks, keeps_finish_task.
Qed.

Lemma resolveLimit_pos limit n : (0 < n)%Z -> (0 < resolveLimit MaxInFlight limit n)%Z.
Proof.
  intros Hn. unfold resolveLimit. destruct (Z.ltb_spec 0 MaxInFlight); [done|].
  by destruct (Z.ltb_spec 0 limit).
Qed.

Lemma keeps_task_Execute step prefix :
  lim_ok step -> Task step <> "" -> task_config_ok step ->
  keeps_I (task_Execute RunID JobName PipelineID MaxInFlight JobParams runCacheRestoreTask
             step prefix).
Proof.
  intros HL Ht Hok. specialize (Hok Ht). unfold task_Execute.
  destruct (Z.ltb_spec 1 (Parallelism step)) as [Hp|Hp].
  - assert (Hcfg : is_Some (TaskConfig_ step)) by (destruct Hok as [?|[_ ?]]; [done|lia]).
    unfold executeParallel. cbv zeta.
    assert (Happ : forall l k, keeps_I k -> keeps_I (append_indexed (W:=W) (Task step) l k)).
    { intros l k Hk. induction l as [|i l IH]; cbn [append_indexed]; [done|].
      by apply keeps_put_ctx. }
    apply Happ, keeps_group_of.
    + apply HL. right. right. split; [lia|]. split; [done|]. apply resolveLimit_granted. lia.
    + intros _. pose proof (resolveLimit_pos 0 (Parallelism step) ltac:(lia)). lia.
    + intros p (i & -> & _)%list_elem_of_fmap. destruct Hcfg as [cfg Hcfg]. rewrite Hcfg.
      apply keeps_runTask. left. by eexists.
    + intros [e|]; apply keeps_ret.
  - apply keeps_put_ctx; [by intros s; case_decide|]. apply keeps_runTask.
    destruct Hok as [?|[? _]]; auto.
Qed.

(** *** Composite steps *)
Record kids_ok (ks : kids (W:=W)) : Prop := {
  kids_do : forall p prefix, p ∈ kid_do ks -> keeps_I (p prefix);
  kids_try : forall p prefix, p ∈ kid_try ks -> keeps_I (p prefix);
  kids_par : forall p prefix, p ∈ kid_par ks -> keeps_I (p prefix);
  kids_ensure : forall p prefix, kid_ensure ks = Some p -> keeps_I (p prefix);
  kids_abort : forall p prefix, kid_abort ks = Some p -> keeps_I (p prefix);
  kids_error : forall p prefix, kid_error ks = Some p -> keeps_I (p prefix);
  kids_success : forall p prefix, kid_success ks = Some p -> keeps_I (p prefix);
  kids_failure : forall p prefix, kid_failure ks = Some p -> keeps_I (p prefix) }.

Lemma strip_kids_ok ks : kids_ok ks -> kids_ok (strip_kids ks).
Proof. intros []. by split. Qed.

Lemma keeps_do_loop prefix n i l k :
  (forall p prefix, p ∈ l -> keeps_I (p prefix)) -> (forall e, keeps_I (k e)) ->
  keeps_I (do_loop prefix n i l k).
Proof.
  intros Hl Hk. revert i. induction l as [|p l IH]; intros i; cbn [do_loop]; [apply Hk|].
  apply keeps_pbind; [apply Hl, elem_of_cons; by left|]. intros [e|]; [apply Hk|].
  apply IH. intros x pre Hx. apply Hl, elem_of_cons. by right.
Qed.

Lemma keeps_try_loop prefix n i before l k :
  (forall p prefix, p ∈ l -> keeps_I (p prefix)) -> keeps_I k ->
  keeps_I (try_loop prefix n i before l k).
Proof.
  intros Hl Hk. revert i. induction l as [|p l IH]; intros i; cbn [try_loop]; [done|].
  apply keeps_pbind; [apply Hl, elem_of_cons; by left|]. intros [e|].
  - apply keeps_put_ctx; [|done]. intros s. by case_match.
  - apply keeps_get_ctx. intros c. case_match; [done|]. apply IH.
    intros x pre Hx. apply Hl, elem_of_cons. by right.
Qed.

Lemma keeps_dispatchOuterErrorHook ks prefix e k :
  kids_ok ks -> (forall b, keeps_I (k b)) -> keeps_I (dispatchOuterErrorHook ks prefix e k).
Proof.
  intros [] Hk. unfold dispatchOuterErrorHook.
  repeat case_match; [apply keeps_put_ctx; [done|]; apply keeps_run_hook; auto..|apply Hk].
Qed.

Lemma keeps_dispatchStepHook ks prefix e before k :
  kids_ok ks -> (forall e, keeps_I (k e)) -> keeps_I (dispatchStepHook ks prefix e before k).
Proof.
  intros Hks Hk. unfold dispatchStepHook. apply keeps_get_ctx. intros count.
  destruct e as [e|]; [by apply keeps_dispatchOuterErrorHook|]. destruct Hks.
  case_match.
  - apply keeps_get_ctx. intros kind. repeat case_match; apply keeps_run_hook; auto.
  - destruct (kid_success ks) as [p|] eqn:Hs; [|apply Hk]. apply keeps_pbind; auto.
Qed.

Lemma keeps_handler_Execute step ks prefix :
  lim_ok step -> length (kid_par ks) = length (InParallel_Steps step) ->
  task_config_ok step -> kids_ok ks ->
  keeps_I (handler_Execute RunID JobName PipelineID MaxInFlight JobParams other_Execute
             runCacheRestoreTask (identifyStepType step) step ks prefix).
Proof.
  intros HL Hpar Hcfg Hks. unfold handler_Execute. destruct (decide (identifyStepType step = "task")) as [Ht|_].
  { apply keeps_task_Execute; [done| |done]. intros He. revert Ht. unfold identifyStepType.
    rewrite bool_decide_true by done. cbn [negb]. by repeat case_match. }
  destruct Hks. destruct (decide (identifyStepType step = "try")) as [_|_];
    [|destruct (decide (identifyStepType step = "do")) as [_|_];
    [|destruct (decide (identifyStepType step = "in_parallel")) as [Htype|_]]].
  - unfold try_Execute. cbv zeta. apply keeps_Set_or, keeps_get_ctx. intros before.
    apply keeps_try_loop; [done|]. apply keeps_Set_or, keeps_ret.
  - unfold do_Execute. cbv zeta. apply keeps_Set_or. apply keeps_do_loop; [done|].
    intros e. apply keeps_Set_or, keeps_ret.
  - unfold in_parallel_Execute. cbv zeta. apply keeps_Set_or.
    apply keeps_put_ctx; [intros s; by case_match|]. apply keeps_group_of.
    + apply HL. right. left. rewrite Hpar. split; [|split; [done|apply resolveLimit_granted; lia]].
      intros Hnil. revert Htype. unfold identifyStepType. rewrite Hnil. by repeat case_match.
    + intros Hne. assert (0 < length (kid_par ks)) as Hlen.
      { destruct (kid_par ks); [|simpl; lia]. by destruct Hne. }
      pose proof (resolveLimit_pos (InParallel_Limit step) (Z.of_nat (length (kid_par ks)))
        ltac:(lia)). lia.
    + intros p Hp. apply elem_of_lookup_imap in Hp as (i & f & -> & Hf).
      apply (kids_par0 f). by apply (list_elem_of_lookup_2 _ i).
    + intros e. apply keeps_Set_or, keeps_ret.
  - apply P_other.
Qed.

Lemma keeps_process_plain step ks prefix :
  lim_ok step -> length (kid_par ks) = length (InParallel_Steps step) ->
  task_config_ok step -> kids_ok ks ->
  keeps_I (process_plain RunID JobName PipelineID MaxInFlight JobParams other_Execute
             runCacheRestoreTask step ks prefix).
Proof.
  intros HL Hpar Hcfg Hks. unfold process_plain. cbv zeta. case_decide; [apply keeps_ret|].
  apply keeps_get_ctx. intros before.
  apply keeps_pbind; [by apply keeps_handler_Execute|]. intros e.
  apply keeps_dispatchStepHook; [done|]. intros e'.
  apply keeps_run_hook; [by intros p; apply kids_ensure|apply keeps_ret].
Qed.

Lemma keeps_executeWithAttempts n ks run prefix :
  kids_ok ks -> (forall prefix, keeps_I (run prefix)) ->
  keeps_I (executeWithAttempts n ks run prefix).
Proof.
  intros Hks Hrun. unfold executeWithAttempts. cbv zeta.
  assert (Hfin : forall e, keeps_I (run_hook (kid_ensure ks) (prefix ++ "/ensure") (PRet e)))
    by (intros e; apply keeps_run_hook; [by intros p; apply kids_ensure|apply keeps_ret]).
  assert (Hloop : forall m a last k, (forall b e, keeps_I (k b e)) ->
    keeps_I (attempts_loop run prefix m a last k)).
  { intros m. induction m as [|m IH]; intros a last k Hk; cbn [attempts_loop]; [apply Hk|].
    apply keeps_pbind; [apply Hrun|]. intros [e|]; [by apply IH|apply Hk]. }
  apply Hloop. intros [|] e.
  - destruct (kid_success ks) as [p|] eqn:Hs; [|apply Hfin].
    apply keeps_pbind; [by eapply kids_success|]. intros e'. apply Hfin.
  - destruct e as [e|]; [|apply Hfin]. apply keeps_dispatchOuterErrorHook; [done|].
    intros b. apply Hfin.
Qed.

Lemma task_config_inject step :
  task_config_ok step -> task_config_ok (injectJobParams JobParams step).
Proof.
  unfold injectJobParams. destruct (TaskConfig_ step) eqn:Hc; [|done]. case_decide; [done|].
  intros _ _. left. by eexists.
Qed.

Lemma lim_ok_inject step : lim_ok step -> lim_ok (injectJobParams JobParams step).
Proof. intros HL n b Hn. by eapply HL, permits_inject. Qed.
Lemma inject_members step :
  length (InParallel_Steps (injectJobParams JobParams step)) = length (InParallel_Steps step).
Proof. unfold injectJobParams. destruct (TaskConfig_ step); [|done]. by case_decide. Qed.

Lemma keeps_process_attempts step ks prefix :
  lim_ok step -> length (kid_par ks) = length (InParallel_Steps step) ->
  task_config_ok step -> kids_ok ks ->
  keeps_I (process_attempts RunID JobName PipelineID MaxInFlight JobParams other_Execute
             runCacheRestoreTask step ks prefix).
Proof.
  intros HL Hpar Hcfg Hks. apply task_config_inject in Hcfg. apply lim_ok_inject in HL.
  rewrite <- (inject_members step) in Hpar. unfold process_attempts. cbv zeta.
  case_match; [|by apply keeps_process_plain].
  apply keeps_executeWithAttempts; [done|]. intros pre.
  apply keeps_process_plain; [| | |by apply strip_kids_ok]; [|exact Hpar|exact Hcfg].
  intros n b Hn. by apply HL, permits_strip.
Qed.

Lemma task_config_expand step c vars :
  task_config_ok step -> task_config_ok (expandAcrossStep step c vars).
Proof.
  unfold task_config_ok, expandAcrossStep, keep_hooks, copy_step. cbn.
  case_decide; [done|]. intros Hok _. destruct (Hok ltac:(done)) as [[cfg Hc]|?]; [left|by right].
  rewrite Hc. by eexists.
Qed.

Lemma keeps_process_step step ks prefix :
  lim_ok step -> length (kid_par ks) = length (InParallel_Steps step) ->
  task_config_ok step -> kids_ok ks ->
  keeps_I (process_step RunID JobName PipelineID MaxInFlight JobParams other_Execute
             runCacheRestoreTask step ks prefix).
Proof.
  intros HL Hpar Hcfg Hks. apply task_config_inject in Hcfg. apply lim_ok_inject in HL.
  rewrite <- (inject_members step) in Hpar. unfold process_step. cbv zeta.
  set (step' := injectJobParams JobParams step) in *. clearbody step'.
  destruct (Across step') as [|v vs] eqn:Ha; [by apply keeps_process_attempts|].
  unfold executeAcross. cbv zeta. apply keeps_Set_or, keeps_group_of.
  - apply HL. left. split; [by rewrite Ha|]. split; [done|]. destruct (AcrossFailFast step'); [done|].
    apply resolveAcrossLimit_granted.
  - intros _. case_match; [lia|]. destruct (resolveAcrossLimit_granted (Across step')) as [? _]. lia.
  - intros p Hp. apply elem_of_lookup_imap in Hp as (i & c & -> & _).
    apply keeps_process_attempts; [|exact Hpar| |done]; [|by apply task_config_expand].
    intros n b Hn. by eapply HL, permits_expand.
  - intros e. apply keeps_Set_or, keeps_ret.
Qed.

Notation processStep := (processStep RunID JobName PipelineID MaxInFlight JobParams
  other_Execute runCacheRestoreTask).

Lemma elem_of_hooks s t :
  Ensure s = Some t \/ OnAbort s = Some t \/ OnError s = Some t \/ OnSuccess s = Some t \/
  OnFailure s = Some t -> t ∈ hooks s.
Proof.
  unfold hooks. rewrite !elem_of_app. unfold option_list.
  intros [->|[->|[->|[->| ->]]]]; rewrite ?list_elem_of_singleton; tauto.
Qed.

Lemma keeps_lim_processStep step :
  configured step -> (forall t, rtc contains step t -> lim_ok t) ->
  forall prefix, keeps_I (processStep step prefix).
Proof.
  induction step as [step IHd IHt IHp IHh] using Step_nested_ind. intros Hc HL prefix.
  assert (Hinner : forall t, contains step t -> forall u, rtc contains t u -> lim_ok u)
    by (intros t Ht u Hu; apply HL; by eapply rtc_l).
  rewrite processStep_unfold. apply keeps_process_step; [by apply HL, rtc_refl| |by apply (Hc step), rtc_refl|].
  { cbn [kids_of kid_par]. by rewrite length_fmap. }
  rewrite !Forall_forall in IHd, IHt, IHp, IHh.
  assert (Hhook : forall t, t ∈ hooks step -> forall prefix, keeps_I (processStep t prefix)).
  { intros t Ht. assert (contains step t) by by right; right; right.
    apply IHh; [done|by eapply configured_inner|by apply Hinner]. }
  split; cbn [kids_of kid_do kid_try kid_par kid_ensure kid_abort kid_error kid_success kid_failure].
  - intros p pre (t & -> & Ht)%list_elem_of_fmap. assert (contains step t) by by left.
    apply IHd; [done|by eapply configured_inner|by apply Hinner].
  - intros p pre (t & -> & Ht)%list_elem_of_fmap. assert (contains step t) by by right; left.
    apply IHt; [done|by eapply configured_inner|by apply Hinner].
  - intros p pre (t & -> & Ht)%list_elem_of_fmap. assert (contains step t) by by right; right; left.
    apply IHp; [done|by eapply configured_inner|by apply Hinner].
  - intros p pre (t & Ht & ->)%fmap_Some. apply Hhook, elem_of_hooks. auto.
  - intros p pre (t & Ht & ->)%fmap_Some. apply Hhook, elem_of_hooks. auto.
  - intros p pre (t & Ht & ->)%fmap_Some. apply Hhook, elem_of_hooks. auto.
  - intros p pre (t & Ht & ->)%fmap_Some. apply Hhook, elem_of_hooks. auto.
  - intros p pre (t & Ht & ->)%fmap_Some. apply Hhook, elem_of_hooks. auto 6.
Qed.
End invariants.

(** Without anything to say of the permits. *)
Lemma keeps_processStep {W : Type} `{!Driver W, !Format, !Namespace, !OrderBy, !JsonText}
    RunID JobName PipelineID MaxInFlight JobParams other_Execute runCacheRestoreTask (P : db -> Prop) :
  let I := fun s : jobctx W => P (jc_db s) in
  (forall key payload d, P d -> P (Set_ key payload d).2) ->
  (forall ty step prefix, keeps I (other_Execute ty step prefix)) ->
  (forall vol prefix, keeps I (runCacheRestoreTask vol prefix)) ->
  forall step, configured step -> forall prefix,
  keeps I (processStep RunID JobName PipelineID MaxInFlight JobParams other_Execute runCacheRestoreTask step prefix).
Proof. intros I Hset Hother Hrestore step Hc prefix. by apply (keeps_lim_processStep _ _ _ _ _ _ _ P). Qed.

(** ** Quiet stores *)
Section quiet.
Context {W : Type} `{!Driver W, !Format, !Namespace, !OrderBy, !JsonText}.

Definition quiet_db (d : db) : Prop := db_faults d = [].

Lemma quiet_set key payload d : quiet_db d -> quiet_db (Set_ key payload d).2.
Proof. intros Hq. rewrite Set_no_faults by done. unfold quiet_db. cbn [snd]. by rewrite upsert_task_faults. Qed.

(** The status a row shows. *)
Definition row_status (key : string) (d : db) : option string :=
  db_tasks d !! task_path key ≫= taskRow.status.

Lemma row_status_set key st rest d :
  quiet_db d -> row_status key (Set_ key (JObj (("status", JStr st) :: rest)) d).2 = Some st.
Proof.
  intros Hq. rewrite Set_no_faults by done. unfold row_status, upsert_task. cbn [snd].
  destruct (db_tasks d !! task_path key) as [t|] eqn:Ht.
  - cbn [set_tasks db_tasks]. by rewrite lookup_insert_eq.
  - unfold insert_task. cbn [set_tasks set_tasks_seq db_tasks]. by rewrite lookup_insert_eq.
Qed.

Lemma set_row_quiet {A} key payload (k : result unit -> A) (s : jobctx W) :
  quiet_db (jc_db s) ->
  set_row key payload k s = (set_jc_db (Set_ key (JObj payload) (jc_db s)).2 s, k (Ok tt)).
Proof.
  intros Hq. unfold set_row, on_db. cbn [get_db put_db jobctx_has_db].
  by rewrite Set_no_faults by done.
Qed.

Lemma wp_Set_or I Q msg key payload k (s : jobctx W) :
  quiet_db (jc_db s) ->
  wp I Q (set_jc_db (Set_ key (JObj payload) (jc_db s)).2 s) k ->
  wp I Q s (Set_or msg key payload k).
Proof. intros Hq Hk. constructor. by rewrite set_row_quiet. Qed.

Lemma wp_Set_ignored I Q key payload k (s : jobctx W) :
  quiet_db (jc_db s) ->
  wp I Q (set_jc_db (Set_ key (JObj payload) (jc_db s)).2 s) k ->
  wp I Q s (Set_ignored key payload k).
Proof. intros Hq Hk. constructor. by rewrite set_row_quiet. Qed.

Lemma wp_get_ctx {A} I Q (f : jobctx W -> A) k s : wp I Q s (k (f s)) -> wp I Q s (get_ctx f k).
Proof. intros Hk. by apply wp_act_eq. Qed.

Lemma wp_put_ctx I Q f k (s : jobctx W) : wp I Q (f s) k -> wp I Q s (put_ctx f k).
Proof. intros Hk. by apply wp_act_eq. Qed.
End quiet.

(** Termination for every schedule, from the state as well. *)
Lemma schedules_end {S E} (p : proc S E) s : Acc (fun c' c => pstep c c') (s, p).
Proof.
  pose proof (proc_ends p) as Hp. revert s. induction Hp as [p _ IH]. intros s.
  constructor. intros [s' p'] Hstep. apply IH. by exists s, s'.
Qed.

(** ** Cartesian products *)
Fixpoint product (ls : list (list string)) : list (list string) :=
  match ls with
  | [] => [[]]
  | l :: ls => l ≫= (fun x => cons x <$> product ls)
  end.

Definition values_product (vars : list AcrossVar.t) : nat :=
  foldr (fun v n => length (AcrossVar.Values v) * n)%nat 1 vars.

Lemma combo_count_product vars : combo_count vars = values_product vars.
Proof.
  unfold combo_count, values_product.
  assert (Hgen : forall n, foldl (fun total v => total * length (AcrossVar.Values v))%nat n vars
    = (n * foldr (fun v n => length (AcrossVar.Values v) * n)%nat 1 vars)%nat).
  { induction vars as [|v vars IH]; intros n; cbn [foldl foldr]; [lia|]. rewrite IH. lia. }
  rewrite Hgen. lia.
Qed.

Lemma combo_values_snoc l v i acc :
  combo_values (l ++ [v]) i acc =
    default "" (AcrossVar.Values v !! ((i / values_product l) mod length (AcrossVar.Values v)))
      :: combo_values l i acc.
Proof.
  revert i acc. induction l as [|x l IH]; intros i acc; cbn [app combo_values values_product foldr].
  - by rewrite Nat.div_1_r.
  - rewrite IH. fold (values_product l). by rewrite Nat.Div0.div_div.
Qed.

Lemma values_product_app l1 l2 :
  values_product (l1 ++ l2) = (values_product l1 * values_product l2)%nat.
Proof.
  unfold values_product. induction l1 as [|v l1 IH]; cbn [app foldr]; [lia|]. rewrite IH. lia.
Qed.

Lemma values_product_reverse l : values_product (reverse l) = values_product l.
Proof.
  induction l as [|v l IH]; [done|]. rewrite reverse_cons, values_product_app, IH.
  cbn [values_product foldr]. fold (values_product l). lia.
Qed.

Lemma combo_values_mod l i acc :
  combo_values l (i mod values_product l) acc = combo_values l i acc.
Proof.
  revert i acc. induction l as [|v l IH]; intros i acc; cbn [combo_values values_product foldr];
    [done|]. fold (values_product l).
  set (sz := length (AcrossVar.Values v)). set (n := values_product l).
  destruct (decide (sz = 0)) as [Hz|Hz]; [rewrite Hz; cbn [Nat.mul]; by rewrite Nat.mod_0_r|].
  rewrite (Nat.Div0.mod_mul_r i sz n).
  replace ((i mod sz + sz * ((i / sz) mod n)) / sz) with ((i / sz) mod n).
  2: { rewrite Nat.add_comm, Nat.mul_comm, Nat.div_add_l by done.
       rewrite (Nat.div_small (i mod sz)); [lia|]. by apply Nat.mod_upper_bound. }
  replace ((i mod sz + sz * ((i / sz) mod n)) mod sz) with (i mod sz).
  2: { rewrite (Nat.mul_comm sz), Nat.Div0.mod_add. by rewrite Nat.Div0.mod_mod. }
  apply IH.
Qed.

Lemma fmap_bind {A B C} (f : B -> C) (g : A -> list B) l :
  f <$> (l ≫= g) = l ≫= (fun x => f <$> g x).
Proof.
  induction l as [|x l IH]; [done|]. change (f <$> (g x ++ (l ≫= g)) =
    (f <$> g x) ++ (l ≫= (fun x => f <$> g x)))%list. by rewrite fmap_app, IH.
Qed.

Lemma bind_ext_in {A B} (f g : A -> list B) l :
  (forall x, x ∈ l -> f x = g x) -> l ≫= f = l ≫= g.
Proof.
  intros Hfg. induction l as [|x l IH]; [done|].
  change (f x ++ (l ≫= f) = g x ++ (l ≫= g))%list. rewrite Hfg, IH; [done| |].
  - intros y Hy. apply Hfg, elem_of_cons. by right.
  - apply elem_of_cons. by left.
Qed.

Lemma seq_blocks n m :
  seq 0 (n * m) = seq 0 n ≫= (fun a => (fun b => a * m + b)%nat <$> seq 0 m).
Proof.
  induction n as [|n IH]; [done|].
  rewrite seq_S, bind_app, <- IH. replace (S n * m)%nat with (n * m + m)%nat by lia.
  rewrite seq_app. f_equal.
  change (seq (n * m) m = (((fun b => (0 + n) * m + b) <$> seq 0 m) ++ [])%list).
  rewrite app_nil_r. transitivity (Nat.add (n * m) <$> seq 0 m); [|done].
  by rewrite fmap_add_seq, Nat.add_0_r.
Qed.

Lemma lookup_seq_all (l : list string) : (fun i => default "" (l !! i)) <$> seq 0 (length l) = l.
Proof.
  apply list_eq. intros i. rewrite list_lookup_fmap.
  destruct (decide (i < length l)) as [Hi|Hi].
  - rewrite lookup_seq_lt by done. cbn. destruct (l !! i) eqn:E; [done|].
    apply lookup_ge_None in E. lia.
  - rewrite lookup_seq_ge by lia. symmetry. apply lookup_ge_None. lia.
Qed.

Lemma combos_product vars :
  (fun i => combo_values (reverse vars) i []) <$> seq 0 (values_product vars)
    = product (AcrossVar.Values <$> vars).
Proof.
  induction vars as [|v vars IH]; [done|].
  rewrite fmap_cons. cbn [product]. rewrite <- IH. cbn [values_product foldr].
  fold (values_product vars). rewrite seq_blocks, reverse_cons, fmap_bind.
  rewrite <- (lookup_seq_all (AcrossVar.Values v)) at 2. rewrite list_fmap_bind.
  apply bind_ext_in. intros a [_ Ha]%elem_of_seq. cbn [compose].
  rewrite <- !list_fmap_compose. apply list_fmap_ext. intros i b [-> Hb]%lookup_seq.
  cbn [compose]. rewrite combo_values_snoc, values_product_reverse.
  rewrite Nat.div_add_l, (Nat.div_small i), Nat.add_0_r, Nat.mod_small by lia.
  f_equal. rewrite <- (combo_values_mod (reverse vars)), values_product_reverse.
  by rewrite Nat.add_comm, Nat.Div0.mod_add, Nat.mod_small by lia.
Qed.

(** ** Properties *)

(** [generateCombinations] enumerates the cartesian product of the values
    of the across variables, the last variable varying fastest: every
    combination has the variables' names as its keys, in order. *)
Theorem generateCombinations_product vars :
  combination.Values <$> generateCombinations vars = product (AcrossVar.Values <$> vars) /\
  Forall (fun c => combination.Keys c = AcrossVar.Var <$> vars) (generateCombinations vars).
Proof.
  destruct vars as [|v vars]; [split; [done|by constructor]|].
  unfold generateCombinations. rewrite <- list_fmap_compose. split.
  - rewrite combo_count_product. by rewrite <- combos_product.
  - apply Forall_fmap, Forall_forall. done.
Qed.

(** C4: a step that is configured ends, whatever the schedule of its groups:
    no execution goes on for ever, and none gets stuck before the step has
    returned. *)
Theorem processStep_completes {W : Type}
    `{!Driver W, !Format, !Namespace, !OrderBy, !JsonText}
    RunID JobName PipelineID MaxInFlight JobParams other_Execute runCacheRestoreTask
    step prefix (s : jobctx W) :
  (forall ty step prefix, keeps (fun _ => True) (other_Execute ty step prefix)) ->
  (forall vol prefix, keeps (fun _ => True) (runCacheRestoreTask vol prefix)) ->
  configured step ->
  let p := processStep RunID JobName PipelineID MaxInFlight JobParams other_Execute
             runCacheRestoreTask step prefix in
  Acc (fun c' c => pstep c c') (s, p) /\
  forall s' p', rtc pstep (s, p) (s', p') ->
    (exists e, p' = PRet e) \/ exists s2 p2, pstep (s', p') (s2, p2).
Proof.
  intros Hother Hrestore Hstep p. split; [apply schedules_end|]. intros s' p' Hs.
  assert (Hk : keeps (fun _ => True) p) by (by apply (keeps_processStep _ _ _ _ _ _ _ (fun _ => True))).
  destruct (keeps_steps (fun _ => True) (fun _ _ => True) _ _ _ _ Hs Hk) as [_ Hk']; [done|].
  by apply (keeps_progress (fun _ => True)).
Qed.


(** a try step never fails its job. Whatever its steps do and however
    their groups are scheduled, the handler returns no error and its row ends
    as a success, provided the store does not fail. *)
Theorem try_Execute_swallows {W : Type}
    `{!Driver W, !Format, !Namespace, !OrderBy, !JsonText}
    RunID JobName PipelineID MaxInFlight JobParams other_Execute runCacheRestoreTask
    step prefix (s s' : jobctx W) e :
  (forall ty step prefix, keeps (fun s => quiet_db (jc_db s)) (other_Execute ty step prefix)) ->
  (forall vol prefix, keeps (fun s => quiet_db (jc_db s)) (runCacheRestoreTask vol prefix)) ->
  configured step -> quiet_db (jc_db s) ->
  rtc pstep (s, try_Execute RunID JobName
    (kids_of RunID JobName PipelineID MaxInFlight JobParams other_Execute runCacheRestoreTask step)
    prefix) (s', PRet e) ->
  e = None /\
  row_status (BaseStorageKey RunID JobName ++ "/" ++ prefix ++ "/try") (jc_db s') = Some "success".
Proof.
  intros Hother Hrestore Hstep Hq Hs.
  set (I := fun s : jobctx W => quiet_db (jc_db s)) in *.
  assert (Hset : forall key payload d, quiet_db d -> quiet_db (Set_ key payload d).2)
    by apply quiet_set.
  assert (Hkids : forall p pre, p ∈ kid_try (kids_of RunID JobName PipelineID MaxInFlight JobParams
    other_Execute runCacheRestoreTask step) -> keeps I (p pre)).
  { intros p pre (t & -> & Ht)%list_elem_of_fmap.
    apply (keeps_processStep _ _ _ _ _ _ _ quiet_db); [done..|].
    eapply configured_inner; [exact Hstep|]. by right; left. }
  refine (wp_adequate I (fun s' e => e = None /\ row_status _ (jc_db s') = Some "success")
    _ _ _ _ _ Hs).
  unfold try_Execute. cbv zeta. apply wp_Set_or; [done|].
  assert (Hq1 := Hset (BaseStorageKey RunID JobName ++ "/" ++ prefix ++ "/try")
    (JObj pending_row) (jc_db s) Hq).
  apply wp_get_ctx. cbn [jc_FailureCount set_jc_db].
  generalize (jc_FailureCount s). intros before.
  set (final := Set_or _ _ _ _). set (s1 := set_jc_db _ s).
  assert (Hfinal : forall s, I s -> wp I (fun s' e => e = None /\ row_status
    (BaseStorageKey RunID JobName ++ "/" ++ prefix ++ "/try") (jc_db s') = Some "success") s final).
  { intros s2 Hq2. unfold final. apply wp_Set_or; [done|]. constructor. split; [done|].
    by apply row_status_set. }
  assert (HI : I s1) by exact Hq1. clearbody s1. clear Hq1 Hs Hq.
  generalize (length (kid_try (kids_of RunID JobName PipelineID MaxInFlight JobParams
    other_Execute runCacheRestoreTask step))) 0. intros n i. revert i s1 HI Hkids.
  generalize (kid_try (kids_of RunID JobName PipelineID MaxInFlight JobParams
    other_Execute runCacheRestoreTask step)). intros l.
  induction l as [|p l IH]; intros i s1 HI Hkids; cbn [try_loop]; [by apply Hfinal|].
  apply wp_pbind; [done|apply Hkids, elem_of_cons; by left|]. intros s2 [err|] HI2.
  - apply wp_put_ctx, Hfinal. unfold I. by case_match.
  - apply wp_get_ctx. case_match; [by apply Hfinal|]. apply IH; [done|].
    intros q pre Hq'. apply Hkids, elem_of_cons. by right.
Qed.

(** ** Examples and witnesses *)
Lemma configured_step s :
  task_config_ok s -> (forall t, contains s t -> configured t) -> configured s.
Proof. intros Hs Hall t Ht. inversion Ht; subst; [done|]. by eapply Hall. Qed.

Definition blank_step : Step :=
  mkStep None "" 0 None None "" "" "" false "" "" "" None "" (GetConfig.mk "" [] false VNil)
    "" None None NNil "" false [] None None None None None [] [] 0 false [] false 0 0.

Definition agent_step (name : string) (failure : option Step) : Step :=
  mkStep None "" 0 None None "" "" "" false name "" "" None "" (GetConfig.mk "" [] false VNil)
    "" None None NNil "" false [] None None None None failure [] [] 0 false [] false 0 0.

Definition in_parallel_step (steps : list Step) : Step :=
  mkStep None "" 0 None None "" "" "" false "" "" "" None "" (GetConfig.mk "" [] false VNil)
    "" None None NNil "" false [] None None None None None [] steps 0 false [] false 0 0.

Definition try_step (steps : list Step) : Step :=
  mkStep None "" 0 None None "" "" "" false "" "" "" None "" (GetConfig.mk "" [] false VNil)
    "" None None NNil "" false [] None None None None None steps [] 0 false [] false 0 0.

#[local] Existing Instances stable_order ex_text ex_ns.

Definition ex_driver : Driver unit := {|
  RunContainer := fun _ w => (w, Ok 0); Wait_ := fun _ _ w => (w, ([], JNull, Exited 0 "" ""));
  CreateVolume := fun _ _ w => (w, Ok tt);
  ReadConfig := fun _ w => (w, Err (EMsg "none")); FetchConfig := fun _ w => (w, Err (EMsg "none"));
  SecretsManager := fun _ => None |}.
Definition ex_format : Format := {|
  RFC3339 := fun _ => ""; Duration_String := fun _ => ""; SError := fun _ => "" |}.
#[local] Existing Instances ex_driver ex_format.

(** Agents whose name is "bad" fail; every agent leaves its name behind. *)
Definition ex_agents (ty : string) (step : Step) (prefix : string) : proc (jobctx unit) serr :=
  appendExecutedTask (Agent step)
    (PRet (if decide (Agent step = "bad") then Some (TaskFailedError "bad" 1) else None)).
Definition ex_restore (vol prefix : string) : proc (jobctx unit) serr := PRet None.

Lemma ex_agents_keep P L ty step prefix :
  keeps_lim (fun s : jobctx unit => P (jc_db s)) L (ex_agents ty step prefix).
Proof. apply keeps_bind_act; [done|]. intros _. constructor. Qed.

Definition ex_job : jobctx unit := mkCtx unit empty_db [] ∅ 0 FailureKindNone ∅ ∅ tt.

Definition ex_process (step : Step) : proc (jobctx unit) serr :=
  processStep "r1" "build" "p1" 0 ∅ ex_agents ex_restore step "0".

Lemma ex_agent_configured name : configured (agent_step name None).
Proof.
  apply configured_step; [by intros []|].
  intros t [Ht|[Ht|[Ht|Ht]]]; by apply not_elem_of_nil in Ht.
Qed.

Definition ex_parallel : Step :=
  in_parallel_step [agent_step "bad" (Some (agent_step "cleanup-bad" None));
                    agent_step "good" (Some (agent_step "cleanup-good" None))].

Lemma ex_parallel_configured : configured ex_parallel.
Proof.
  apply configured_step; [by intros []|].
  intros t [Ht|[Ht|[Ht|Ht]]]; try (by apply not_elem_of_nil in Ht).
  apply elem_of_cons in Ht as [->|[->|Ht%not_elem_of_nil]%elem_of_cons]; [..|done];
    (apply configured_step; [by intros []|];
     intros t [Ht|[Ht|[Ht|Ht]]]; try (by apply not_elem_of_nil in Ht);
     apply list_elem_of_singleton in Ht as ->; apply ex_agent_configured).
Qed.

Lemma processStep_completes_witness :
  Acc (fun c' c => pstep c c') (ex_job, ex_process ex_parallel).
Proof.
  apply (processStep_completes "r1" "build" "p1" 0 ∅ ex_agents ex_restore ex_parallel "0" ex_job).
  - intros ty step prefix. apply (ex_agents_keep (fun _ => True) (fun _ _ => True)).
  - intros vol prefix. constructor.
  - apply ex_parallel_configured.
Defined.

(** The failing member's hook has run when the other member ends. *)
Definition ex_crosstalk : list choice :=
  [CAct; CAct; CAct; CLaunch; CLaunch; CMember 1 CAct] ++
  replicate 5 (CMember 0 CAct) ++ replicate 5 (CMember 1 CAct).

(** Which constructor a process is at, to evaluate examples. *)
Definition shape {S E} (c : S * proc S E) : nat :=
  match c.2 with PRet _ => 0 | PCrash => 1 | PAct _ => 2 | PGroup _ _ _ _ _ _ _ _ => 3 end.

Lemma exec_shape {S E} cs s (p : proc S E) n :
  shape <$> exec cs s p = Some n -> exists s' p', rtc pstep (s, p) (s', p') /\
    exec cs s p = Some (s', p') /\ shape (s', p') = n.
Proof.
  destruct (exec cs s p) as [[s' p']|] eqn:He; [|done]. intros [= Hn].
  exists s', p'. split; [by eapply exec_steps|done].
Qed.

Definition ex_try : proc (jobctx unit) serr :=
  try_Execute "r1" "build"
    (kids_of "r1" "build" "p1" 0 ∅ ex_agents ex_restore (try_step [agent_step "bad" None])) "0".


Lemma try_Execute_swallows_witness :
  exists s', rtc pstep (ex_job, ex_try) (s', PRet None).
Proof.
  destruct (exec_shape (replicate 7 CAct) ex_job ex_try 0) as (s' & p' & Hrun & _ & Hsh);
    [vm_compute; reflexivity|].
  destruct p' as [e| |f|limit ff c ps run ret first k]; try discriminate. exists s'.
  destruct (try_Execute_swallows "r1" "build" "p1" 0 ∅ ex_agents ex_restore
    (try_step [agent_step "bad" None]) "0" ex_job s' e) as [He _].
  - intros ty step prefix. apply (ex_agents_keep quiet_db (fun _ _ => True)).
  - intros vol prefix. constructor.
  - apply configured_step; [by intros []|].
    intros t [Ht|[Ht|[Ht|Ht]]]; try (by apply not_elem_of_nil in Ht).
    apply list_elem_of_singleton in Ht as ->. apply ex_agent_configured.
  - reflexivity.
  - exact Hrun.
  - rewrite <- He. exact Hrun.
Defined.

(** ** What the failure counter shows of a neighbour

    [failureBefore] is compared with a counter all members of a group share:
    a member that succeeds while a failing one's hook is counted runs its own
    failure hook. *)
Lemma in_parallel_failure_crosstalk :
  exists s' p', rtc pstep (ex_job, ex_process ex_parallel) (s', p') /\
    jc_ExecutedTasks s' = ["bad"; "good"; "cleanup-good"].
Proof.
  destruct (exec_shape ex_crosstalk ex_job (ex_process ex_parallel) 3)
    as (s' & p' & Hrun & He & _); [vm_compute; reflexivity|].
  exists s', p'. split; [exact Hrun|].
  assert (Hx : (fun c => jc_ExecutedTasks c.1) <$> exec ex_crosstalk ex_job (ex_process ex_parallel)
    = Some ["bad"; "good"; "cleanup-good"]) by (vm_compute; reflexivity).
  rewrite He in Hx. by injection Hx.
Qed.

(** A step that fails once and then succeeds within its attempts still returns
    the first error. *)
Lemma attempts_keep_earlier_error (e : serr) :
  executeWithAttempts (W:=unit) 2 (mkKids [] [] [] None None None None None)
    (fun prefix => PRet (if decide (prefix = "0/attempt/1") then Some e else None)) "0"
  = PRet (Some e).
Proof. reflexivity. Qed.

(** A plan whose nested task has no configuration passes [validateSteps], and
    running it panics. *)
Definition bare_task (name : string) : Step :=
  mkStep None name 0 None None "" "" "" false "" "" "" None "" (GetConfig.mk "" [] false VNil)
    "" None None NNil "" false [] None None None None None [] [] 0 false [] false 0 0.

Lemma nested_task_panics :
  exists s', rtc pstep (ex_job, ex_process (try_step [bare_task "t"])) (s', PCrash).
Proof.
  destruct (exec_shape (replicate 8 CAct) ex_job (ex_process (try_step [bare_task "t"])) 1)
    as (s' & p' & Hrun & _ & Hsh); [vm_compute; reflexivity|].
  exists s'. by destruct p'.
Qed.
