(* ===== verification/Jobs.v ===== *)
(** * Running a job (runtime/backwards/job.go, webhooks/filter)

    [JobRunner.Run] as a process: the webhook filter and deduplication, the
    gate, the plan, the job's hooks and assertions, and the status that ends
    on the job's row. The polling of a gate is a process of its own (Gates.v
    models it); persisting the caches at the end is a parameter. *)
From stdpp Require Import relations.
From S2P Require Import Prelude Storage Json Db GoStrings Paging Tasks Ids Memories Config.
From S2P Require Import Secrets Procs Steps StepProps.
Open Scope string_scope.

(** ** Webhook expressions (webhooks/filter) *)
Module WebhookEnv.
Record t := mk {
    Provider : string; EventType : string; Method : string;
    Headers : gmap string string; Query : gmap string string; Body : string;
    Payload : option json }.
End WebhookEnv.

(** expr-lang and [encoding/json]. *)
Class ExprLang : Type := {
  json_Unmarshal : string -> option json;
  expr_bool : string -> WebhookEnv.t -> result bool;
  expr_string : string -> WebhookEnv.t -> result string }.

Section filter.
Context `{!ExprLang, !Sha256}.

Definition BuildWebhookEnv (wd : WebhookData.t) : WebhookEnv.t :=
  WebhookEnv.mk (WebhookData.Provider wd) (WebhookData.EventType wd) (WebhookData.Method wd)
    (WebhookData.Headers wd) (WebhookData.Query wd) (WebhookData.Body wd)
    (json_Unmarshal (WebhookData.Body wd)).

(** 16 bytes of the digest are 32 hexadecimal digits. *)
Definition DedupKeyHash (expression : string) (env : WebhookEnv.t) : result (option string) :=
  if decide (expression = "") then Ok None
  else
    match expr_string expression env with
    | Err e => Err (EWrap "dedup_key evaluation" e)
    | Ok key => Ok (if decide (key = "") then None else Some (prefix_string 32 (sha256_hex key)))
    end.
End filter.

Definition webhook_config (job : Job.t) : option WebhookTriggerConfig.t :=
  Job.Triggers job ≫= Triggers.Webhook.

Definition resolveEffectiveMaxInFlight (jobLevel pipelineLevel : Z) : Z :=
  if (0 <? jobLevel)%Z then jobLevel else pipelineLevel.

Definition stepStorageIdentifier (step : Step) : string :=
  if negb (bool_decide (Task step = "")) then "tasks/" ++ Task step
  else if negb (bool_decide (Agent step = "")) then "agent/" ++ Agent step
  else if negb (bool_decide (Get_ step = "")) then "get/" ++ Get_ step
  else if negb (bool_decide (Put_ step = "")) then "put/" ++ Put_ step
  else match BuildImage step with
       | Some cfg => "build_image/" ++
           (if decide (BuildImageConfig.Name cfg = "") then sanitizeCachePath (BuildImageConfig.Tag cfg)
            else BuildImageConfig.Name cfg)
       | None =>
           match Notify step with
           | NNil =>
               if negb (bool_decide (Do step = [])) then "do"
               else if negb (bool_decide (Try_ step = [])) then "try"
               else if negb (bool_decide (InParallel_Steps step = [])) then "in_parallel"
               else if negb (bool_decide (Across step = [])) then "across"
               else ""
           | _ => "notify/" ++ (match NotifyNames step with
                                | [] => "unknown" | names => Join names "-" end)
           end
       end.

Section job.
Context {W : Type} `{!Driver W, !Format, !Namespace, !OrderBy, !JsonText, !ExprLang, !Sha256}.
Context (runID pipelineID : string) (pipelineMaxInFlight : Z) (webhookData : option WebhookData.t)
  (dedupTTL : Z).
Context (other_Execute : string -> Step -> string -> proc (jobctx W) serr).
Context (runCacheRestoreTask : string -> string -> proc (jobctx W) serr).
Context (pollGate : Job.t -> proc (jobctx W) serr) (cleanupCaches : proc (jobctx W) serr).

Notation process := (proc (jobctx W) serr).

Definition job_key (job : Job.t) : string := "/pipeline/" ++ runID ++ "/jobs/" ++ Job.Name job.
Definition skipped_row : list (string * json) := [("status", JStr "skipped")].
Definition failure_row (e : serr) : list (string * json) :=
  [("status", JStr "failure"); ("errorMessage", JStr (SError e))].

(** A store operation other than [Set]. *)
Definition on_store {A} (m : ST db A) (k : result A -> process) : process :=
  act (fun s => let '(r, s') := on_db m s in (s', r)) k.

(** [k] is told whether to skip the job. *)
Definition evaluateWebhookFilter (job : Job.t) (k : bool -> process) : process :=
  let declared := match webhook_config job with
                  | Some w => WebhookTriggerConfig.Filter w | None => "" end in
  let webhookFilter := if decide (declared = "") then Job.WebhookTrigger job else declared in
  match webhookData with
  | None => k false
  | Some wd =>
      if decide (webhookFilter = "") then k false
      else
        match expr_bool webhookFilter (BuildWebhookEnv wd) with
        | Ok true => k false
        | _ => Set_ignored (job_key job) skipped_row (k true)
        end
  end.

Definition defaultDedupTTL : Z := 7 * 24 * 3600 * nanosPerSecond.

Definition evaluateWebhookDedup (job : Job.t) (k : bool -> process) : process :=
  match webhook_config job, webhookData with
  | Some w, Some wd =>
      match DedupKeyHash (WebhookTriggerConfig.DedupKey w) (BuildWebhookEnv wd) with
      | Ok (Some keyHash) =>
          let ttl := if (dedupTTL =? 0)%Z then defaultDedupTTL else dedupTTL in
          now (fun t =>
          on_store (PruneWebhookDedup (t - ttl)%Z) (fun _ =>
          on_store (RecordWebhookDedup pipelineID keyHash) (fun isDup =>
          match isDup with
          | Ok true => Set_ignored (job_key job) skipped_row (k true)
          | _ => k false
          end)))
      | _ => k false
      end
  | _, _ => k false
  end.

Definition extractJobParams (job : Job.t) : gmap string string :=
  match webhook_config job, webhookData with
  | Some w, Some wd =>
      omap (fun expression => match expr_string expression (BuildWebhookEnv wd) with
                              | Ok val => Some val | Err _ => None end)
        (WebhookTriggerConfig.Params w)
  | _, _ => ∅
  end.

Definition jr_processStep (job : Job.t) : Step -> string -> process :=
  processStep runID (Job.Name job) pipelineID
    (resolveEffectiveMaxInFlight (Job.MaxInFlight job) pipelineMaxInFlight)
    (extractJobParams job) other_Execute runCacheRestoreTask.

(** *** The plan *)
Fixpoint markRemainingStepsSkipped (job : Job.t) (n j : nat) (steps : list Step) (k : process)
    : process :=
  match steps with
  | [] => k
  | step :: steps =>
      let rest := markRemainingStepsSkipped job n (S j) steps k in
      if decide (stepStorageIdentifier step = "") then rest
      else Set_ignored (job_key job ++ "/" ++ zeroPadWithLength j n ++ "/"
                        ++ stepStorageIdentifier step) skipped_row rest
  end.

Fixpoint run_plan (job : Job.t) (n i : nat) (steps : list Step) (k : option serr -> process)
    : process :=
  match steps with
  | [] => k None
  | step :: steps =>
      pbind (jr_processStep job step (zeroPadWithLength i n)) (fun e =>
      match e with
      | Some _ => markRemainingStepsSkipped job n (S i) steps (k e)
      | None => run_plan job n (S i) steps k
      end)
  end.

(** *** Job hooks *)
Definition job_hook (job : Job.t) (hook : option Step) (name : string) (k : process) : process :=
  run_hook (jr_processStep job <$> hook) ("job/" ++ name) k.

Definition effective_kind (planErr : option serr) (failures : Z) (last : FailureKind)
    : FailureKind :=
  match planErr with
  | Some e =>
      if isAbortError e then FailureKindAborted
      else if isErroredError e then FailureKindErrored
      else if isFailedError e then FailureKindFailed
      else FailureKindNone
  | None => if (0 <? failures)%Z then last else FailureKindNone
  end.

Definition dispatchJobFailureHook (job : Job.t) (kind : FailureKind) (planErr : option serr)
    (k : option serr -> process) : process :=
  if bool_decide (kind = FailureKindAborted) && bool_decide (is_Some (Job.OnAbort job)) then
    job_hook job (Job.OnAbort job) "on_abort" (k None)
  else if bool_decide (kind = FailureKindErrored) && bool_decide (is_Some (Job.OnError job)) then
    job_hook job (Job.OnError job) "on_error" (k None)
  else if (bool_decide (kind = FailureKindFailed) || bool_decide (kind = FailureKindNone))
          && bool_decide (is_Some (Job.OnFailure job)) then
    job_hook job (Job.OnFailure job) "on_failure" (k None)
  else k planErr.

Definition is_assertion (e : option serr) : bool :=
  match e with Some e => isAssertionError e | None => false end.

Definition runJobHooks (job : Job.t) (planErr : option serr) (k : option serr -> process) : process :=
  let ensure e := job_hook job (Job.Ensure job) "ensure" (k e) in
  if is_assertion planErr then ensure planErr
  else
    get_ctx (fun s => (jc_FailureCount s, jc_LastFailureKind s)) (fun '(failures, last) =>
    if bool_decide (is_Some planErr) || (0 <? failures)%Z then
      dispatchJobFailureHook job (effective_kind planErr failures last) planErr ensure
    else job_hook job (Job.OnSuccess job) "on_success" (ensure None)).

Definition validateAssertions (job : Job.t) (executed : list string) : option serr :=
  match Job.Assert_ job with
  | None => None
  | Some execution => validateExecution ("job " ++ q (Job.Name job)) execution executed
  end.

(** *** Run *)
Definition fresh_ctx (s : jobctx W) : jobctx W :=
  mkCtx W (jc_db s) [] ∅ 0 FailureKindNone ∅ ∅ (jc_world s).

(** What is written last, and returned. *)
Definition conclude (job : Job.t) (planErr : option serr) : process :=
  get_ctx jc_ExecutedTasks (fun executed =>
  match validateAssertions job executed with
  | Some e => Set_ignored (job_key job) (failure_row e) (PRet (Some e))
  | None =>
      match planErr with
      | Some e =>
          if isAssertionError e || bool_decide (Job.Assert_ job = None) then
            Set_ignored (job_key job) (failure_row e) (PRet (Some e))
          else Set_or "storage set success" (job_key job)
                 [("status", JStr "success"); ("errorMessage", JStr (SError e))] (PRet None)
      | None =>
          Set_or "storage set success" (job_key job) [("status", JStr "success")] (PRet None)
      end
  end).

(** The body below the deferred cleanup. *)
Definition run_body (job : Job.t) : process :=
  let plan := run_plan job (length (Job.Plan job)) 0 (Job.Plan job) (fun planErr =>
    runJobHooks job planErr (conclude job)) in
  match Job.Gate job with
  | None => plan
  | Some _ =>
      pbind (pollGate job) (fun e =>
      match e with
      | Some e => Set_ignored (job_key job) [("status", JStr "failure")]
                    (PRet (Some (SWrap "gate" e)))
      | None => plan
      end)
  end.

Definition Run (job : Job.t) : process :=
  Set_or "storage set pending" (job_key job) pending_row
    (evaluateWebhookFilter job (fun skip =>
     if skip then PRet None
     else evaluateWebhookDedup job (fun skip =>
     if skip then PRet None
     else put_ctx fresh_ctx
       (pbind (run_body job) (fun e => pbind cleanupCaches (fun _ => PRet e)))))).
End job.

(** ** The status of a job *)
Definition job_steps (job : Job.t) : list Step :=
  (Job.Plan job ++ option_list (Job.Ensure job) ++ option_list (Job.OnAbort job)
    ++ option_list (Job.OnError job) ++ option_list (Job.OnSuccess job)
    ++ option_list (Job.OnFailure job))%list.

Section job_facts.
Context {W : Type} `{!Driver W, !Format, !Namespace, !OrderBy, !JsonText, !ExprLang, !Sha256}.
Context (runID pipelineID : string) (pipelineMaxInFlight : Z) (webhookData : option WebhookData.t)
  (dedupTTL : Z).
Context (other_Execute : string -> Step -> string -> proc (jobctx W) serr).
Context (runCacheRestoreTask : string -> string -> proc (jobctx W) serr).
Context (pollGate : Job.t -> proc (jobctx W) serr) (cleanupCaches : proc (jobctx W) serr).
Context (job : Job.t).

Let I : jobctx W -> Prop := fun s => quiet_db (jc_db s).
Context (other_keeps : forall ty step prefix, keeps I (other_Execute ty step prefix)).
Context (restore_keeps : forall vol prefix, keeps I (runCacheRestoreTask vol prefix)).
Context (gate_keeps : keeps I (pollGate job)).
Context (job_configured : forall t, t ∈ job_steps job -> configured t).

Notation jr_processStep := (jr_processStep runID pipelineID pipelineMaxInFlight webhookData
  other_Execute runCacheRestoreTask).
Notation job_hook := (job_hook runID pipelineID pipelineMaxInFlight webhookData other_Execute
  runCacheRestoreTask).
Implicit Types (s : jobctx W) (Q : jobctx W -> option serr -> Prop).

Lemma jr_processStep_keeps step prefix :
  step ∈ job_steps job -> keeps I (jr_processStep job step prefix).
Proof.
  intros Hs. unfold Jobs.jr_processStep.
  by apply (keeps_processStep _ _ _ _ _ _ _ quiet_db quiet_set); [..|apply job_configured].
Qed.

Lemma wp_Set_ignored_any Q key payload k s :
  I s -> (forall s, I s -> wp I Q s k) -> wp I Q s (Set_ignored key payload k).
Proof. intros Hq Hk. apply wp_Set_ignored; [done|]. apply Hk. by apply quiet_set. Qed.

Lemma wp_job_hook Q hook name k s :
  (forall t, hook = Some t -> t ∈ job_steps job) -> I s ->
  (forall s, I s -> wp I Q s k) -> wp I Q s (job_hook job hook name k).
Proof.
  intros Hh Hq Hk. unfold Jobs.job_hook, run_hook. destruct hook as [t|]; cbn [fmap option_fmap option_map];
    [|by apply Hk].
  apply wp_pbind; [done|by apply jr_processStep_keeps, Hh|]. intros s' _. apply Hk.
Qed.

Lemma wp_markRemaining Q n j l k s :
  I s -> (forall s, I s -> wp I Q s k) -> wp I Q s (markRemainingStepsSkipped runID job n j l k).
Proof.
  revert j s. induction l as [|step l IH]; intros j s Hq Hk; cbn [markRemainingStepsSkipped];
    [by apply Hk|]. case_decide; [by apply IH|]. apply wp_Set_ignored_any; auto.
Qed.

Lemma wp_run_plan Q n i l k s :
  (forall t, t ∈ l -> t ∈ job_steps job) -> I s -> (forall s e, I s -> wp I Q s (k e)) ->
  wp I Q s (run_plan runID pipelineID pipelineMaxInFlight webhookData other_Execute
              runCacheRestoreTask job n i l k).
Proof.
  revert i s. induction l as [|step l IH]; intros i s Hl Hq Hk; cbn [run_plan]; [by apply Hk|].
  apply wp_pbind; [done|apply jr_processStep_keeps, Hl, elem_of_cons; by left|].
  intros s' [e|] Hq'; [by apply wp_markRemaining; auto|].
  apply IH; [|done..]. intros t Ht. apply Hl, elem_of_cons. by right.
Qed.

Lemma hook_in_steps hook t :
  hook = Job.Ensure job \/ hook = Job.OnAbort job \/ hook = Job.OnError job \/
  hook = Job.OnSuccess job \/ hook = Job.OnFailure job -> hook = Some t -> t ∈ job_steps job.
Proof.
  intros Hh ->. unfold job_steps. rewrite !elem_of_app.
  destruct Hh as [<-|[<-|[<-|[<-|<-]]]]; cbn [option_list]; rewrite list_elem_of_singleton; tauto.
Qed.

Lemma wp_runJobHooks Q planErr k s :
  I s -> (forall s e, I s -> wp I Q s (k e)) ->
  wp I Q s (runJobHooks runID pipelineID pipelineMaxInFlight webhookData other_Execute
              runCacheRestoreTask job planErr k).
Proof.
  intros Hq Hk. unfold runJobHooks. cbv zeta.
  assert (Hensure : forall e s, I s -> wp I Q s (job_hook job (Job.Ensure job) "ensure" (k e))).
  { intros e s' Hq'. apply wp_job_hook; [|done|by intros; apply Hk].
    intros t. apply hook_in_steps. auto. }
  case_match; [by apply Hensure|]. apply wp_get_ctx. case_match.
  - unfold dispatchJobFailureHook.
    repeat case_match; [apply wp_job_hook; [|done|intros; by apply Hensure]..|by apply Hensure];
      intros t; apply hook_in_steps; auto 6.
  - apply wp_job_hook; [|done|intros; by apply Hensure]. intros t. apply hook_in_steps. auto 6.
Qed.

(** How a job may end. *)
Definition job_ended s (e : option serr) : Prop :=
  I s /\ match e with
         | Some _ => row_status (job_key runID job) (jc_db s) = Some "failure"
         | None => row_status (job_key runID job) (jc_db s) = Some "success"
         end.

Lemma wp_conclude planErr s : I s -> wp I job_ended s (conclude runID job planErr).
Proof.
  intros Hq. unfold conclude. apply wp_get_ctx.
  assert (Hset : forall st rest, I (set_jc_db (Set_ (job_key runID job)
    (JObj (("status", JStr st) :: rest)) (jc_db s)).2 s)) by (intros; by apply quiet_set).
  repeat case_match; first [apply wp_Set_ignored|apply wp_Set_or]; try done;
    constructor; (split; [apply Hset|by apply row_status_set]).
Qed.

Lemma wp_run_body s : I s -> wp I job_ended s
  (run_body runID pipelineID pipelineMaxInFlight webhookData other_Execute runCacheRestoreTask
     pollGate job).
Proof.
  intros Hq. unfold run_body. cbv zeta.
  assert (Hplan : forall s, I s -> wp I job_ended s
    (run_plan runID pipelineID pipelineMaxInFlight webhookData other_Execute runCacheRestoreTask
       job (length (Job.Plan job)) 0 (Job.Plan job) (fun planErr =>
       runJobHooks runID pipelineID pipelineMaxInFlight webhookData other_Execute
         runCacheRestoreTask job planErr (conclude runID job)))).
  { intros s' Hq'. apply wp_run_plan; [|done|].
    - intros t Ht. unfold job_steps. apply elem_of_app. by left.
    - intros s2 e Hq2. apply wp_runJobHooks; [done|]. intros. by apply wp_conclude. }
  destruct (Job.Gate job); [|by apply Hplan].
  apply wp_pbind; [done..|]. intros s' [e|] Hq'; [|by apply Hplan].
  apply wp_Set_ignored; [done|]. constructor. split; [by apply quiet_set|by apply row_status_set].
Qed.
End job_facts.

Lemma PruneWebhookDedup_quiet t d : quiet_db d -> quiet_db (PruneWebhookDedup t d).2.
Proof.
  intros Hq. unfold PruneWebhookDedup, wrap. by rewrite exec_no_faults.
Qed.

Lemma RecordWebhookDedup_quiet p k d : quiet_db d -> quiet_db (RecordWebhookDedup p k d).2.
Proof.
  intros Hq. unfold RecordWebhookDedup, insert_dedup, wrap, bind. rewrite exec_no_faults by done.
  by repeat case_decide.
Qed.

(** ** Properties *)

Lemma wp_on_store {W A : Type} I Q (m : ST db A) k (s : jobctx W) :
  wp I Q (set_jc_db (m (jc_db s)).2 s) (k (m (jc_db s)).1) -> wp I Q s (on_store m k).
Proof.
  intros Hk. apply wp_act_eq. unfold on_db. cbn [get_db jobctx_has_db].
  by destruct (m (jc_db s)).
Qed.

Definition run_ended {W : Type} `{!Namespace} (runID : string) (job : Job.t)
    (webhookData : option WebhookData.t) (s : jobctx W) (e : option serr) : Prop :=
  match e with
  | Some _ => row_status (job_key runID job) (jc_db s) = Some "failure"
  | None => row_status (job_key runID job) (jc_db s) = Some "success" \/
      row_status (job_key runID job) (jc_db s) = Some "skipped" /\ is_Some webhookData
  end.

(** C5: the row of a job tells how its run ended, whatever its steps do and
    however they are scheduled, when the store does not fail: an error
    returned leaves "failure", no error leaves "success", or "skipped" when a
    webhook expression told to skip the job. *)
Theorem Run_status {W : Type}
    `{!Driver W, !Format, !Namespace, !OrderBy, !JsonText, !ExprLang, !Sha256}
    runID pipelineID pipelineMaxInFlight webhookData dedupTTL other_Execute runCacheRestoreTask
    pollGate cleanupCaches job (s s' : jobctx W) e :
  (forall ty step prefix, keeps (fun s => quiet_db (jc_db s)) (other_Execute ty step prefix)) ->
  (forall vol prefix, keeps (fun s => quiet_db (jc_db s)) (runCacheRestoreTask vol prefix)) ->
  keeps (fun s => quiet_db (jc_db s)) (pollGate job) ->
  (forall s, quiet_db (jc_db s) -> wp (fun s => quiet_db (jc_db s)) (fun s' _ =>
     row_status (job_key runID job) (jc_db s') = row_status (job_key runID job) (jc_db s))
     s cleanupCaches) ->
  (forall t, t ∈ job_steps job -> configured t) -> quiet_db (jc_db s) ->
  rtc pstep (s, Run runID pipelineID pipelineMaxInFlight webhookData dedupTTL other_Execute
    runCacheRestoreTask pollGate cleanupCaches job) (s', PRet e) ->
  run_ended runID job webhookData s' e.
Proof.
  intros Hother Hrestore Hgate Hcleanup Hjob Hq Hs. revert e s' Hs.
  set (I := fun s : jobctx W => quiet_db (jc_db s)) in *. intros e s' Hs.
  refine (wp_adequate I (run_ended runID job webhookData) _ _ _ _ _ Hs).
  unfold Run. apply wp_Set_or; [done|]. set (s1 := set_jc_db _ s).
  assert (Hq1 : I s1) by (by apply quiet_set). clearbody s1. clear Hq Hs s.
  assert (Hskip : forall s, I s -> is_Some webhookData -> wp I (run_ended runID job webhookData) s (Set_ignored (job_key runID job) skipped_row (PRet None))).
  { intros s Hq Hw. apply wp_Set_ignored; [done|]. constructor. right.
    split; [by apply row_status_set|done]. }
  assert (Hbody : forall s, I s -> wp I (run_ended runID job webhookData) s (put_ctx fresh_ctx (pbind (run_body runID pipelineID pipelineMaxInFlight webhookData
      other_Execute runCacheRestoreTask pollGate job)
      (fun e => pbind cleanupCaches (fun _ => PRet e))))).
  { intros s Hq. apply wp_put_ctx. eapply wp_bind; [by apply wp_run_body|].
    intros s2 e2 [Hq2 He2]. eapply wp_bind; [by apply Hcleanup|].
    intros s3 e3 He3. constructor. unfold run_ended. destruct e2; rewrite He3; [done|by left]. }
  assert (Hdedup : forall s, I s -> wp I (run_ended runID job webhookData) s
    (evaluateWebhookDedup runID pipelineID webhookData dedupTTL job (fun skip => if skip then PRet None else put_ctx fresh_ctx
      (pbind (run_body runID pipelineID pipelineMaxInFlight webhookData
      other_Execute runCacheRestoreTask pollGate job)
      (fun e => pbind cleanupCaches (fun _ => PRet e)))))).
  { intros s Hq. unfold evaluateWebhookDedup. destruct (webhook_config job), webhookData as [wd|];
      try by apply Hbody.
    destruct (DedupKeyHash _ _) as [[key|]|]; try by apply Hbody.
    apply wp_get_ctx, wp_on_store, wp_on_store. cbn [jc_db set_jc_db].
    set (d2 := (PruneWebhookDedup _ _).2).
    assert (Hq3 : quiet_db (RecordWebhookDedup pipelineID key d2).2)
      by (by apply RecordWebhookDedup_quiet, PruneWebhookDedup_quiet).
    destruct (RecordWebhookDedup pipelineID key d2) as [[[]|] d3];
      [apply Hskip; [exact Hq3|by eexists]|by apply Hbody..]. }
  unfold evaluateWebhookFilter. cbv zeta.
  destruct webhookData as [wd|]; [|by apply Hdedup]. case_decide; [by apply Hdedup|].
  destruct (expr_bool _ _) as [[]|]; [by apply Hdedup|apply Hskip; [done|by eexists]..].
Qed.

(** ** Witness *)
#[local] Existing Instances stable_order ex_text ex_ns ex_driver ex_format.
Definition ex_expr : ExprLang := {|
  json_Unmarshal := fun _ => None; expr_bool := fun _ _ => Ok true;
  expr_string := fun s _ => Ok s |}.
#[local] Existing Instances ex_expr toy_sha.

Definition ex_run_job (steps : list Step) : Job.t :=
  Job.mk None None "build" steps [] None 0 false None None None None None 0 None "".
Definition ex_run (steps : list Step) : proc (jobctx unit) serr :=
  Run "r1" "p1" 0 None 0 ex_agents ex_restore (fun _ => PRet None) (PRet None) (ex_run_job steps).

Lemma Run_status_witness :
  exists s' e, rtc pstep (ex_job, ex_run [agent_step "bad" None]) (s', PRet (Some e)) /\
    row_status (job_key "r1" (ex_run_job [])) (jc_db s') = Some "failure".
Proof.
  destruct (exec_shape (replicate 8 CAct) ex_job (ex_run [agent_step "bad" None]) 0)
    as (s' & p' & Hrun & He & Hsh); [vm_compute; reflexivity|].
  destruct p' as [e| | |]; try discriminate.
  assert (Hsome : (fun c => match c.2 with PRet (Some _) => true | _ => false end) <$>
    exec (replicate 8 CAct) ex_job (ex_run [agent_step "bad" None]) = Some true)
    by (vm_compute; reflexivity).
  rewrite He in Hsome. destruct e as [e|]; [|discriminate]. exists s', e. split; [exact Hrun|].
  refine (Run_status "r1" "p1" 0 None 0 ex_agents ex_restore (fun _ => PRet None) (PRet None)
    (ex_run_job [agent_step "bad" None]) ex_job s' (Some e) _ _ _ _ _ _ Hrun).
  - intros ty step prefix. apply (ex_agents_keep quiet_db (fun _ _ => True)).
  - intros vol prefix. constructor.
  - constructor.
  - intros s _. by constructor.
  - intros t Ht. apply list_elem_of_singleton in Ht as ->. apply ex_agent_configured.
  - reflexivity.
Defined.
