(* ===== verification/Runner.v ===== *)
(** * Running a pipeline (runtime/backwards/runner.go)

    The order in which jobs run: passed constraints, trigger filters, targeted
    jobs. Running one job (Jobs.v) is a parameter, [run_job]: the state the
    job leaves and its error. The state carries, beside the runner's own
    variables, a log of the jobs started and of what the runner knew then. *)
From stdpp Require Import relations.
From S2P Require Import Prelude Storage Json Db GoStrings Paging Tasks Config Validate.
From S2P Require Import Secrets Procs Steps StepProps Jobs.
Open Scope string_scope.

Record runner {X : Type} : Type := mkRunner {
  r_store : X;
  r_jobResults : gmap string bool;
  r_executedJobs : list string;
  r_started : list (Job.t * X * gmap string bool) }.
Arguments runner : clear implicits.

Section setters.
Context {X : Type}.
Implicit Types r : runner X.
Definition set_store x r := mkRunner X x (r_jobResults r) (r_executedJobs r) (r_started r).
Definition set_result name ok r :=
  mkRunner X (r_store r) (<[name := ok]> (r_jobResults r)) (r_executedJobs r) (r_started r).
Definition add_executed name r :=
  mkRunner X (r_store r) (r_jobResults r) (r_executedJobs r ++ [name])%list (r_started r).
Definition log_start job r :=
  mkRunner X (r_store r) (r_jobResults r) (r_executedJobs r)
    (r_started r ++ [(job, r_store r, r_jobResults r)])%list.
End setters.

#[export] Instance runner_has_db {X} `{!HasDb X} : HasDb (runner X).
Proof.
  refine {| get_db := fun r => get_db (r_store r);
            put_db := fun d r => set_store (put_db d (r_store r)) r |}.
  - intros d r. apply get_put_db.
  - intros []. unfold set_store. cbn. by rewrite put_get_db.
  - intros d d' []. unfold set_store. cbn. by rewrite put_put_db.
Defined.

Section runner.
Context {X : Type} `{!HasDb X, !Namespace, !OrderBy, !JsonText}.
Context (cfg : Config.t) (runID : string) (triggerType : TriggerType) (targetJobs : list string).
Context (run_job : Job.t -> X -> X * option serr).

Definition runner_key (job : Job.t) : string := "/pipeline/" ++ runID ++ "/jobs/" ++ Job.Name job.
Definition set_status (job : Job.t) (payload : list (string * json)) : ST (runner X) unit :=
  ignore (on_db (Set_ (runner_key job) (JObj payload))).

(** [dependents], in the order the index appends them. *)
Definition findDependentJobs (jobName : string) : list Job.t :=
  Config.Jobs cfg ≫= (fun job =>
    Job.Plan job ≫= (fun step =>
      get_passed step ≫= (fun dep => if decide (dep = jobName) then [job] else []))).

(** The pipeline ID passed is empty. *)
Definition isJobPassedSatisfied (depJobName : string) : ST (runner X) bool :=
  let! known := gets (fun r => r_jobResults r !! depJobName) in
  match known with
  | Some succeeded => ret succeeded
  | None =>
      let! status := attempt (on_db (GetMostRecentJobStatus "" depJobName)) in
      ret (match status with Ok st => bool_decide (st = "success") | Err _ => false end)
  end.

Fixpoint all_satisfied (deps : list string) : ST (runner X) bool :=
  match deps with
  | [] => ret true
  | dep :: deps =>
      let! ok := isJobPassedSatisfied dep in
      if ok then all_satisfied deps else ret false
  end.

Definition plan_passed (job : Job.t) : list string := mjoin (get_passed <$> Job.Plan job).
Definition canJobRun (job : Job.t) : ST (runner X) bool := all_satisfied (plan_passed job).

(** The dependents loop of [runJob]. [None] is out of fuel: the code recurses
    without a bound. *)
Section dependents.
Context (runJob : Job.t -> ST (runner X) (option (option serr))).
Fixpoint run_dependents (jobs : list Job.t) : ST (runner X) (option (option serr)) :=
  match jobs with
  | [] => ret (Some None)
  | depJob :: jobs =>
      let! ok := canJobRun depJob in
      if ok then
        let! e := runJob depJob in
        match e with Some None => run_dependents jobs | e => ret e end
      else run_dependents jobs
  end.
End dependents.

Definition jr_Run (job : Job.t) : ST (runner X) (option serr) := fun r =>
  let '(x, e) := run_job job (r_store r) in (Ok e, set_store x r).

Fixpoint runJob (fuel : nat) (job : Job.t) : ST (runner X) (option (option serr)) :=
  match fuel with
  | 0 => ret None
  | S fuel =>
      let! done_ := gets (fun r => r_jobResults r !! Job.Name job) in
      match done_ with
      | Some _ => ret (Some None)
      | None =>
          modify (log_start job) ;;;
          let! e := jr_Run job in
          match e with
          | Some e =>
              modify (set_result (Job.Name job) false) ;;;
              ret (Some (Some (SWrap ("job " ++ q (Job.Name job)) e)))
          | None =>
              modify (set_result (Job.Name job) true) ;;;
              modify (add_executed (Job.Name job)) ;;;
              run_dependents (runJob fuel) (findDependentJobs (Job.Name job))
          end
      end
  end.

(** One level of recursion per job not yet run. *)
Definition fuel : nat := S (S (length (Config.Jobs cfg))).

Definition markSkippedByTrigger (job : Job.t) : ST (runner X) unit :=
  let kind := TriggerType_string triggerType in
  set_status job [("status", JStr "skipped");
    ("reason", JStr ("trigger type " ++ (if decide (kind = "") then "unknown" else kind)
                     ++ " not declared on job"))].

Definition shouldRunForTrigger (job : Job.t) : bool :=
  match Job.Triggers job with
  | None => true
  | Some t =>
      match triggerType with
      | TriggerTypeWebhook => bool_decide (is_Some (Triggers.Webhook t))
      | TriggerTypeSchedule => bool_decide (is_Some (Triggers.Schedule t))
      | TriggerTypePassed => negb (bool_decide (Triggers.Passed t = []))
      | TriggerTypeManual | TriggerTypeCLI | TriggerTypeResume => false
      | _ => true
      end
  end.

(** *** Before and after *)
Fixpoint blocked_by (deps : list string) : ST (runner X) (list json) :=
  match deps with
  | [] => ret []
  | dep :: deps =>
      let! r := attempt (on_db (GetMostRecentJobStatus "" dep)) in
      let! rest := blocked_by deps in
      let lastStatus := match r with Ok st => st | Err _ => "never-run" end in
      ret (if decide (lastStatus = "success") then rest
           else JObj [("job", JStr dep);
                      ("lastStatus", JStr (if decide (lastStatus = "") then "never-run"
                                           else lastStatus))] :: rest)
  end.
Definition computeBlockedBy (job : Job.t) : ST (runner X) (list json) :=
  blocked_by (plan_passed job).

Definition prewriteJobStates : ST (runner X) unit :=
  for_each (fun job =>
    let! blockedBy := computeBlockedBy job in
    set_status job (("status", JStr "pending")
      :: ("dependsOn", JArr (JStr <$> extractJobDependencies (Job.Plan job)))
      :: (if decide (blockedBy = []) then [] else [("blockedBy", JArr blockedBy)])))
    (Config.Jobs cfg).

(** [jobsByName]: of two jobs with a name the later one is kept. *)
Definition jobsByName (name : string) : option Job.t :=
  last (filter (fun job => Job.Name job = name) (Config.Jobs cfg)).

Fixpoint run_targets (names : list string) : ST (runner X) (option (option serr)) :=
  match names with
  | [] => ret (Some None)
  | jobName :: names =>
      match jobsByName jobName with
      | None => ret (Some (Some (SPlain (EMsg
                  ("target job " ++ q jobName ++ " not found in pipeline")))))
      | Some job =>
          let! ok := canJobRun job in
          if ok then
            let! e := runJob fuel job in
            match e with Some None => run_targets names | e => ret e end
          else
            set_status job [("status", JStr "skipped");
              ("reason", JStr "passed constraints not satisfied")] ;;;
            run_targets names
      end
  end.

Definition mark_skipped (job : Job.t) : ST (runner X) unit :=
  let! executed := gets (fun r => r_jobResults r !! Job.Name job) in
  match executed with
  | Some _ => ret tt
  | None => set_status job [("status", JStr "skipped")]
  end.

Definition runTargetedJobs : ST (runner X) (option (option serr)) :=
  let! e := run_targets targetJobs in
  match e with
  | Some None => for_each mark_skipped (Config.Jobs cfg) ;;; ret (Some None)
  | e => ret e
  end.

Fixpoint run_jobs (jobs : list Job.t) : ST (runner X) (option (option serr)) :=
  match jobs with
  | [] => ret (Some None)
  | job :: jobs =>
      if shouldRunForTrigger job then
        let! ok := canJobRun job in
        if ok then
          let! e := runJob fuel job in
          match e with Some None => run_jobs jobs | e => ret e end
        else run_jobs jobs
      else markSkippedByTrigger job ;;; run_jobs jobs
  end.

Definition validateAssertions (executedJobs : list string) : option serr :=
  validateExecution "pipeline" (Config.Assert_ cfg) executedJobs.

Definition Run : ST (runner X) (option (option serr)) :=
  prewriteJobStates ;;;
  let! e := if decide (targetJobs = []) then run_jobs (Config.Jobs cfg) else runTargetedJobs in
  match e with
  | Some None => let! executed := gets r_executedJobs in
                 ret (Some (validateAssertions executed))
  | e => ret e
  end.

Definition New (x : X) : runner X := mkRunner X x ∅ [] [].
End runner.

(** ** Facts

    The store does not fail, before or after a job. *)
Lemma filter_length_lt {A} (P Q : A -> Prop) `{!forall a, Decision (P a), !forall a, Decision (Q a)}
    (l : list A) a :
  (forall b, Q b -> P b) -> a ∈ l -> P a -> ~ Q a -> length (filter Q l) < length (filter P l).
Proof.
  intros HQP Ha HPa HQa. assert (Hle : forall l, length (filter Q l) <= length (filter P l)).
  { intros k. induction k as [|b k IH]; [done|]. rewrite !filter_cons.
    repeat case_decide; simpl; [lia|naive_solver|lia..]. }
  induction l as [|b l IH]; [by apply not_elem_of_nil in Ha|]. rewrite !filter_cons.
  specialize (Hle l). apply elem_of_cons in Ha as [<-|Ha].
  - rewrite (decide_True (P:=P a)), (decide_False (P:=Q a)) by done. simpl. lia.
  - specialize (IH Ha). repeat case_decide; simpl; [lia|naive_solver|lia..].
Qed.

Section facts.
Context {X : Type} `{!HasDb X, !Namespace, !OrderBy, !JsonText}.
Context (cfg : Config.t) (runID : string) (triggerType : TriggerType) (targetJobs : list string).
Context (run_job : Job.t -> X -> X * option serr).
Context (run_job_quiet : forall job x, quiet_db (get_db x) -> quiet_db (get_db (run_job job x).1)).
Implicit Types (r : runner X) (job : Job.t).

(** What the runner accepts as a dependency that has passed. *)
Definition satisfied (x : X) (results : gmap string bool) (dep : string) : Prop :=
  results !! dep = Some true \/
  results !! dep = None /\ (GetMostRecentJobStatus "" dep (get_db x)).1 = Ok "success".

Definition started_names r : list string := (fun e => Job.Name e.1.1) <$> r_started r.
Definition well_started r : Prop :=
  forall job x results, (job, x, results) ∈ r_started r ->
    job ∈ Config.Jobs cfg /\ forall dep, dep ∈ plan_passed job -> satisfied x results dep.

Record good r : Prop := {
  good_quiet : quiet_db (get_db (r_store r));
  good_once : NoDup (started_names r);
  good_results : forall n, is_Some (r_jobResults r !! n) <-> n ∈ started_names r;
  good_started : well_started r }.

(** Every dependency has passed in this run. *)
Definition passed_now r job : Prop :=
  forall dep, dep ∈ plan_passed job -> r_jobResults r !! dep = Some true.
Definition covers r r' : Prop :=
  forall job, job ∈ Config.Jobs cfg -> passed_now r' job ->
    passed_now r job \/ is_Some (r_jobResults r' !! Job.Name job).
Definition all_passed r : Prop := map_Forall (fun _ ok => ok = true) (r_jobResults r).

Definition leads r (e : option serr) r' : Prop :=
  good r' /\ r_jobResults r ⊆ r_jobResults r' /\
  (e = None -> covers r r' /\ (all_passed r -> all_passed r')).
Definition outcome r (m : ST (runner X) (option (option serr))) (Q : runner X -> Prop) : Prop :=
  exists e r', m r = (Ok (Some e), r') /\ leads r e r' /\ (e = None -> Q r').

Lemma leads_trans r1 r2 r3 e : leads r1 None r2 -> leads r2 e r3 -> leads r1 e r3.
Proof.
  intros (_ & Hs1 & Hl1) (Hg & Hs2 & Hl2). destruct Hl1 as [Hc1 Ha1]; [done|].
  split_and!; [done|by etrans|]. intros ->. destruct Hl2 as [Hc2 Ha2]; [done|].
  split; [|auto]. intros job Hj Hp. destruct (Hc2 job Hj Hp) as [Hp2|]; [|by right].
  destruct (Hc1 job Hj Hp2) as [|[b Hb]]; [by left|right]. exists b. by eapply lookup_weaken.
Qed.

Lemma leads_refl r : good r -> leads r None r.
Proof. intros Hg. split_and!; [done|done|]. intros _. split; [|done]. intros job _ Hp. by left. Qed.

Lemma outcome_ret r (Q : runner X -> Prop) : good r -> Q r -> outcome r (ret (Some None)) Q.
Proof. intros Hg HQ. exists None, r. split_and!; [done|by apply leads_refl|done]. Qed.

Lemma outcome_seq r m (Q : runner X -> Prop) (k : ST (runner X) (option (option serr))) Q' :
  outcome r m Q ->
  (forall r', leads r None r' -> Q r' -> outcome r' k Q') ->
  outcome r (let! e := m in match e with Some None => k | e => ret e end) Q'.
Proof.
  intros (e & r' & Hm & Hl & HQ) Hk. destruct e as [e|].
  - exists (Some e), r'. split_and!; [by rewrite (bind_ok _ _ _ _ _ Hm)|done|done].
  - destruct (Hk r' Hl (HQ eq_refl)) as (e2 & r2 & Hk2 & Hl2 & HQ2). exists e2, r2.
    split_and!; [by rewrite (bind_ok _ _ _ _ _ Hm)|by eapply leads_trans|done].
Qed.

(** *** Reading *)
Lemma query_status r dep :
  quiet_db (get_db (r_store r)) ->
  exists st, on_db (GetMostRecentJobStatus "" dep) r = (Ok st, r) /\
    (GetMostRecentJobStatus "" dep (get_db (r_store r))).1 = Ok st.
Proof.
  intros Hq. unfold on_db, GetMostRecentJobStatus, wrap. cbn [get_db put_db runner_has_db].
  rewrite query_no_faults by done. eexists. split; [|reflexivity]. cbv beta iota.
  f_equal. destruct r. unfold set_store. cbn. by rewrite put_get_db.
Qed.

Lemma isJobPassedSatisfied_eq r dep :
  quiet_db (get_db (r_store r)) ->
  exists ok, isJobPassedSatisfied dep r = (Ok ok, r) /\
    (ok = true <-> satisfied (r_store r) (r_jobResults r) dep).
Proof.
  intros Hq. unfold isJobPassedSatisfied, satisfied, bind, gets. cbv beta iota.
  destruct (r_jobResults r !! dep) as [b|] eqn:Hb.
  - exists b. split; [done|]. naive_solver.
  - destruct (query_status r dep Hq) as (st & Hst & ->).
    rewrite (attempt_eq _ _ _ _ Hst). eexists. split; [reflexivity|].
    rewrite bool_decide_eq_true. naive_solver.
Qed.

Lemma all_satisfied_eq r deps :
  quiet_db (get_db (r_store r)) ->
  exists ok, all_satisfied deps r = (Ok ok, r) /\
    (ok = true <-> forall dep, dep ∈ deps -> satisfied (r_store r) (r_jobResults r) dep).
Proof.
  intros Hq. induction deps as [|dep deps (ok & IH & Hok)]; cbn [all_satisfied].
  { exists true. split; [done|]. split; [|done]. intros _ dep Hd. by apply not_elem_of_nil in Hd. }
  destruct (isJobPassedSatisfied_eq r dep Hq) as (b & Hb & Hbs).
  rewrite (bind_ok _ _ _ _ _ Hb). setoid_rewrite elem_of_cons. destruct b.
  - exists ok. split; [done|]. naive_solver.
  - exists false. split; [done|]. split; [done|]. intros Hall. apply Hbs, Hall. by left.
Qed.

Lemma canJobRun_eq r job :
  good r -> exists ok, canJobRun job r = (Ok ok, r) /\
    (ok = true <-> forall dep, dep ∈ plan_passed job -> satisfied (r_store r) (r_jobResults r) dep).
Proof. intros Hg. apply all_satisfied_eq, (good_quiet _ Hg). Qed.

(** *** Writing *)
Definition stored (st : option string) key r : Prop := row_status key (get_db (r_store r)) = st.

Lemma set_status_eq job payload r :
  good r -> exists x, set_status runID job payload r = (Ok tt, set_store x r) /\
    good (set_store x r) /\ get_db x = (Set_ (runner_key runID job) (JObj payload) (get_db (r_store r))).2.
Proof.
  intros Hg. unfold set_status, ignore, on_db. cbn [get_db put_db runner_has_db].
  destruct (Set_ _ _ _) as [res d] eqn:Hd. eexists. split; [reflexivity|].
  pose proof (quiet_set (runner_key runID job) (JObj payload) _ (good_quiet _ Hg)) as Hq.
  rewrite Hd in Hq. cbn [snd] in *. rewrite get_put_db. split; [|done].
  destruct Hg as [_ Hn Hr Hs]. split; cbn; [by rewrite get_put_db|done..].
Qed.

Lemma leads_set_store x r : good (set_store x r) -> leads r None (set_store x r).
Proof. intros Hg. split_and!; [done|done|]. intros _. split; [|done]. intros job _ Hp. by left. Qed.

Lemma set_status_leads job payload r :
  good r -> exists r', set_status runID job payload r = (Ok tt, r') /\ leads r None r' /\
    r_jobResults r' = r_jobResults r.
Proof.
  intros Hg. destruct (set_status_eq job payload r Hg) as (x & Hx & Hgx & _).
  exists (set_store x r). split_and!; [done|by apply leads_set_store|done].
Qed.

(** *** Running a job and its dependents *)
Definition unrun r : nat :=
  length (filter (fun job => r_jobResults r !! Job.Name job = None) (Config.Jobs cfg)).
Definition ran job r : Prop := is_Some (r_jobResults r !! Job.Name job).
Definition startable r job : Prop :=
  forall dep, dep ∈ plan_passed job -> satisfied (r_store r) (r_jobResults r) dep.
Definition finished r job ok x : runner X := set_result (Job.Name job) ok (set_store x (log_start job r)).

Lemma ran_mono job r r' : r_jobResults r ⊆ r_jobResults r' -> ran job r -> ran job r'.
Proof. intros Hs [b Hb]. exists b. by eapply lookup_weaken. Qed.

Lemma unrun_mono r r' : r_jobResults r ⊆ r_jobResults r' -> unrun r' <= unrun r.
Proof.
  intros Hs. unfold unrun. induction (Config.Jobs cfg) as [|job jobs IH]; [done|].
  rewrite !filter_cons. repeat case_decide; simpl; try lia.
  assert (r_jobResults r !! Job.Name job = None); [|done].
  destruct (r_jobResults r !! Job.Name job) eqn:Hr; [|done].
  assert (r_jobResults r' !! Job.Name job = Some b) by (by eapply lookup_weaken). congruence.
Qed.

Lemma unrun_finished r job ok x :
  job ∈ Config.Jobs cfg -> r_jobResults r !! Job.Name job = None ->
  unrun (finished r job ok x) < unrun r.
Proof.
  intros Hj Hn. apply (filter_length_lt _ _ _ job); [|done|done|].
  - intros j Hb. cbn in Hb. by apply lookup_insert_None in Hb as [? _].
  - cbn. by rewrite lookup_insert_eq.
Qed.

Lemma finished_good r job ok x :
  good r -> job ∈ Config.Jobs cfg -> startable r job -> r_jobResults r !! Job.Name job = None ->
  quiet_db (get_db x) -> good (finished r job ok x).
Proof.
  intros [Hq Hn Hr Hs] Hj Hst Hnone Hx. unfold finished.
  assert (Hnames : started_names (log_start job r) = (started_names r ++ [Job.Name job])%list)
    by (unfold started_names, log_start; cbn; by rewrite fmap_app).
  assert (Hfresh : Job.Name job ∉ started_names r)
    by (rewrite <- Hr, Hnone; apply is_Some_None).
  split.
  - done.
  - change (NoDup (started_names (log_start job r))). rewrite Hnames. apply NoDup_app.
    split_and!; [done| |apply NoDup_singleton]. intros n Hin Hl.
    apply list_elem_of_singleton in Hl as ->. done.
  - intros n. change (started_names _) with (started_names (log_start job r)).
    rewrite Hnames, elem_of_app, list_elem_of_singleton. cbn. rewrite lookup_insert_is_Some, Hr.
    destruct (decide (n = Job.Name job)); naive_solver.
  - intros j y results Hin. cbn in Hin. apply elem_of_app in Hin as [Hin|Hin]; [by eapply Hs|].
    apply list_elem_of_singleton in Hin as [= -> -> ->]. done.
Qed.

Lemma finished_subset r job ok x :
  r_jobResults r !! Job.Name job = None -> r_jobResults r ⊆ r_jobResults (finished r job ok x).
Proof. intros. by apply insert_subseteq. Qed.

Lemma findDependentJobs_spec job dep :
  job ∈ Config.Jobs cfg -> dep ∈ plan_passed job -> job ∈ findDependentJobs cfg dep.
Proof.
  intros Hj Hd. unfold plan_passed in Hd. apply list_elem_of_join in Hd as (l & Hdl & Hl).
  apply list_elem_of_fmap in Hl as (step & -> & Hstep).
  unfold findDependentJobs. apply list_elem_of_bind. exists job. split; [|done].
  apply list_elem_of_bind. exists step. split; [|done].
  apply list_elem_of_bind. exists dep. split; [|done]. by rewrite decide_True, list_elem_of_singleton.
Qed.

Lemma findDependentJobs_jobs job dep :
  job ∈ findDependentJobs cfg dep -> job ∈ Config.Jobs cfg.
Proof.
  unfold findDependentJobs. intros (j & Hin & Hj)%list_elem_of_bind.
  apply list_elem_of_bind in Hin as (step & Hin & _).
  apply list_elem_of_bind in Hin as (d & Hin & _).
  case_decide; [by apply list_elem_of_singleton in Hin as ->|by apply not_elem_of_nil in Hin].
Qed.

Lemma passed_now_startable r job : passed_now r job -> startable r job.
Proof. intros Hp dep Hd. left. by apply Hp. Qed.

Lemma passed_now_mono r r' job :
  r_jobResults r ⊆ r_jobResults r' -> passed_now r job -> passed_now r' job.
Proof. intros Hs Hp dep Hd. eapply lookup_weaken; [by apply Hp|done]. Qed.

Section loop.
Context (runJob : Job.t -> ST (runner X) (option (option serr))) (n : nat).
Context (runJob_outcome : forall job r, good r -> job ∈ Config.Jobs cfg -> startable r job ->
  unrun r < n -> outcome r (runJob job) (ran job)).

Lemma run_dependents_outcome jobs r :
  good r -> (forall job, job ∈ jobs -> job ∈ Config.Jobs cfg) -> unrun r < n ->
  outcome r (run_dependents runJob jobs)
    (fun r' => forall job, job ∈ jobs -> passed_now r job -> ran job r').
Proof.
  revert r. induction jobs as [|job jobs IH]; intros r Hg Hjobs Hn; cbn [run_dependents].
  { apply outcome_ret; [done|]. intros job Hj. by apply not_elem_of_nil in Hj. }
  destruct (canJobRun_eq r job Hg) as (ok & Hok & Hcan).
  assert (Hjobs' : forall j, j ∈ jobs -> j ∈ Config.Jobs cfg)
    by (intros; apply Hjobs, elem_of_cons; by right).
  unfold outcome. rewrite (bind_ok _ _ _ _ _ Hok). destruct ok.
  - apply (outcome_seq _ _ (ran job)).
    { apply runJob_outcome; [done|apply Hjobs, elem_of_cons; by left|exact (proj1 Hcan eq_refl)|done]. }
    intros r1 (Hg1 & Hs1 & _) Hran.
    destruct (IH r1 Hg1 Hjobs') as (e & r2 & He & Hl & HQ);
      [pose proof (unrun_mono _ _ Hs1); lia|].
    exists e, r2. split_and!; [done|done|]. intros -> j Hj Hp.
    destruct Hl as (_ & Hs2 & _). apply elem_of_cons in Hj as [->|Hj].
    + by eapply ran_mono.
    + apply HQ; [done..|]. by eapply passed_now_mono.
  - destruct (IH r Hg Hjobs' Hn) as (e & r2 & He & Hl & HQ). exists e, r2.
    split_and!; [done|done|]. intros -> j Hj Hp. apply elem_of_cons in Hj as [->|Hj]; [|by apply HQ].
    exfalso. assert (false = true) by (apply Hcan, passed_now_startable; exact Hp). done.
Qed.
End loop.

Lemma finished_add_leads r job x :
  good r -> job ∈ Config.Jobs cfg -> startable r job -> r_jobResults r !! Job.Name job = None ->
  quiet_db (get_db x) -> all_passed r -> all_passed (finished r job true x).
Proof. intros ????? Ha. by apply map_Forall_insert_2. Qed.

Lemma passed_now_finished r job x j :
  passed_now (finished r job true x) j -> passed_now r j \/ Job.Name job ∈ plan_passed j.
Proof.
  intros Hp. destruct (decide (Job.Name job ∈ plan_passed j)) as [|Hni]; [by right|left].
  intros dep Hd. specialize (Hp dep Hd). cbn in Hp.
  by rewrite lookup_insert_ne in Hp by set_solver.
Qed.

Lemma runJob_outcome fuel job r :
  good r -> job ∈ Config.Jobs cfg -> startable r job -> unrun r < fuel ->
  outcome r (runJob cfg run_job fuel job) (ran job).
Proof.
  revert job r. induction fuel as [|fuel IH]; intros job r Hg Hj Hst Hf; [lia|].
  cbn [runJob]. unfold outcome. rewrite (bind_ok _ _ _ _ _ (eq_refl : gets _ r = _)).
  destruct (r_jobResults r !! Job.Name job) as [b|] eqn:Hr.
  { apply outcome_ret; [done|]. by exists b. }
  rewrite (bind_ok _ _ _ _ _ (eq_refl : modify _ r = _)).
  unfold bind at 1, jr_Run. cbn [r_store log_start].
  pose proof (run_job_quiet job (r_store r) (good_quiet _ Hg)) as Hx.
  destruct (run_job job (r_store r)) as [x e]. cbn [fst] in Hx. destruct e as [e|].
  - exists (Some (SWrap ("job " ++ q (Job.Name job)) e)), (finished r job false x).
    split_and!; [done| |done]. split_and!; [by apply finished_good|by apply finished_subset|done].
  - rewrite (bind_ok _ _ _ _ _ (eq_refl : modify _ _ = _)).
    rewrite (bind_ok _ _ _ _ _ (eq_refl : modify _ _ = _)).
    set (r1 := add_executed _ _).
    assert (Hg1 : good r1) by (destruct (finished_good r job true x Hg Hj Hst Hr Hx); by split).
    assert (Hs1 : r_jobResults r ⊆ r_jobResults r1) by (by apply (finished_subset _ _ true x)).
    destruct (run_dependents_outcome (runJob cfg run_job fuel) fuel IH
      (findDependentJobs cfg (Job.Name job)) r1 Hg1) as (e & r2 & He & (Hg2 & Hs2 & Hl) & HQ).
    + intros j. apply findDependentJobs_jobs.
    + pose proof (unrun_finished r job true x Hj Hr). unfold r1. cbn. unfold unrun in *. cbn in *. lia.
    + exists e, r2. split_and!; [exact He| |].
      * split_and!; [done|by etrans|]. intros ->. destruct Hl as [Hc Ha]; [done|].
        split; [|intros; by apply Ha, (finished_add_leads r job x)].
        intros j Hjj Hp. destruct (Hc j Hjj Hp) as [Hp1|]; [|by right].
        destruct (passed_now_finished r job x j Hp1) as [|Hd]; [by left|right].
        apply HQ; [done| |done]. by apply findDependentJobs_spec.
      * intros _. apply (ran_mono _ r1); [done|]. exists true. unfold r1. cbn. by rewrite lookup_insert_eq.
Qed.

(** *** The loops of [Run] *)
Lemma unrun_fuel r : unrun r < fuel cfg.
Proof.
  unfold unrun, fuel. pose proof (length_filter (fun job => r_jobResults r !! Job.Name job = None)
    (Config.Jobs cfg)). lia.
Qed.

Lemma outcome_set_status job payload r m Q :
  good r -> (forall r', leads r None r' -> r_jobResults r' = r_jobResults r -> outcome r' m Q) ->
  outcome r (set_status runID job payload ;;; m) Q.
Proof.
  intros Hg Hm. destruct (set_status_leads job payload r Hg) as (r1 & E1 & Hl1 & He1).
  destruct (Hm r1 Hl1 He1) as (e & r2 & E2 & Hl2 & HQ).
  exists e, r2. split_and!; [by rewrite (bind_ok _ _ _ _ _ E1)|by eapply leads_trans|done].
Qed.

(** A job with nothing to wait for. *)
Definition unconstrained job : Prop := plan_passed job = [].

Lemma run_jobs_outcome jobs r :
  good r -> (forall job, job ∈ jobs -> job ∈ Config.Jobs cfg) ->
  outcome r (run_jobs cfg runID triggerType run_job jobs)
    (fun r' => forall job, job ∈ jobs -> unconstrained job ->
       shouldRunForTrigger triggerType job = true -> ran job r').
Proof.
  revert r. induction jobs as [|job jobs IH]; intros r Hg Hjobs; cbn [run_jobs].
  { apply outcome_ret; [done|]. intros job Hj. by apply not_elem_of_nil in Hj. }
  assert (Hjobs' : forall j, j ∈ jobs -> j ∈ Config.Jobs cfg)
    by (intros; apply Hjobs, elem_of_cons; by right).
  assert (Hskip : forall r' (Q : runner X -> Prop), good r' ->
    (forall r2, (forall j, j ∈ jobs -> unconstrained j -> shouldRunForTrigger triggerType j = true ->
       ran j r2) -> r_jobResults r' ⊆ r_jobResults r2 -> Q r2) ->
    outcome r' (run_jobs cfg runID triggerType run_job jobs) Q).
  { intros r' Q Hg' HQ. destruct (IH r' Hg' Hjobs') as (e & r2 & He & Hl & HQ2).
    exists e, r2. split_and!; [done|done|]. intros ->. apply HQ; [by apply HQ2|].
    by destruct Hl as (_ & ? & _). }
  destruct (shouldRunForTrigger triggerType job) eqn:Hsh.
  - destruct (canJobRun_eq r job Hg) as (ok & Hok & Hcan).
    unfold outcome. rewrite (bind_ok _ _ _ _ _ Hok). destruct ok.
    + apply (outcome_seq _ _ (ran job)).
      { apply runJob_outcome; [done|apply Hjobs, elem_of_cons; by left| |apply unrun_fuel].
        exact (proj1 Hcan eq_refl). }
      intros r1 (Hg1 & _) Hran. apply Hskip; [done|]. intros r2 Hall Hs j Hj Hu Hs2.
      apply elem_of_cons in Hj as [->|Hj]; [by eapply ran_mono|by apply Hall].
    + apply Hskip; [done|]. intros r2 Hall Hs j Hj Hu Hs2.
      apply elem_of_cons in Hj as [->|Hj]; [|by apply Hall]. exfalso.
      assert (false = true); [|done]. apply Hcan. rewrite Hu. intros d Hd.
      by apply not_elem_of_nil in Hd.
  - apply outcome_set_status; [done|]. intros r1 (Hg1 & _) _. apply Hskip; [done|].
    intros r2 Hall Hs j Hj Hu Hs2. apply elem_of_cons in Hj as [->|Hj]; [congruence|by apply Hall].
Qed.

Lemma jobsByName_jobs name job : jobsByName cfg name = Some job -> job ∈ Config.Jobs cfg.
Proof.
  unfold jobsByName. intros Hl. apply last_Some_elem_of in Hl.
  by apply list_elem_of_filter in Hl as [_ ?].
Qed.

Lemma run_targets_outcome names r :
  good r -> outcome r (run_targets cfg runID run_job names) (fun _ => True).
Proof.
  revert r. induction names as [|name names IH]; intros r Hg; cbn [run_targets].
  { by apply outcome_ret. }
  destruct (jobsByName cfg name) as [job|] eqn:Hj.
  - destruct (canJobRun_eq r job Hg) as (ok & Hok & Hcan).
    unfold outcome. rewrite (bind_ok _ _ _ _ _ Hok). destruct ok.
    + apply (outcome_seq _ _ (ran job)).
      { apply runJob_outcome; [done|by eapply jobsByName_jobs| |apply unrun_fuel].
        exact (proj1 Hcan eq_refl). }
      intros r1 (Hg1 & _) _. by apply IH.
    + apply outcome_set_status; [done|]. intros r1 (Hg1 & _) _. by apply IH.
  - eexists (Some _), r. split_and!; [done| |done]. split_and!; [done..|by intros].
Qed.

(** Marking writes "skipped" on the rows of the jobs that did not run, and
    leaves the others. *)
Definition shows_skipped r job : Prop := stored (Some "skipped") (runner_key runID job) r.

Lemma set_status_skipped job j r r' :
  good r -> set_status runID job [("status", JStr "skipped")] r = (Ok tt, r') ->
  shows_skipped r' job /\ (shows_skipped r j -> shows_skipped r' j).
Proof.
  intros Hg Hset. destruct (set_status_eq job [("status", JStr "skipped")] r Hg)
    as (x & Hx & _ & Hd). rewrite Hx in Hset. injection Hset as <-.
  assert (Hjob : shows_skipped (set_store x r) job).
  { unfold shows_skipped, stored. cbn [r_store set_store]. rewrite Hd.
    apply row_status_set, (good_quiet _ Hg). }
  split; [done|]. unfold shows_skipped, stored, row_status in *. cbn [r_store set_store] in *.
  destruct (decide (task_path (runner_key runID job) = task_path (runner_key runID j))) as [<-|Hne];
    [done|].
  intros Hj. rewrite Hd, Set_no_faults by apply (good_quiet _ Hg). cbn [snd].
  unfold upsert_task, insert_task. destruct (db_tasks (get_db (r_store r)) !! task_path (runner_key runID job));
    cbn [set_tasks set_tasks_seq db_tasks]; by rewrite lookup_insert_ne.
Qed.

Lemma mark_skipped_all jobs r :
  good r -> exists r', for_each (mark_skipped runID) jobs r = (Ok tt, r') /\ leads r None r' /\
    r_jobResults r' = r_jobResults r /\
    (forall job, job ∈ jobs -> ran job r' \/ shows_skipped r' job) /\
    (forall job, shows_skipped r job -> shows_skipped r' job).
Proof.
  revert r. induction jobs as [|job jobs IH]; intros r Hg; cbn [for_each].
  { exists r. split_and!; [done|by apply leads_refl|done| |done]. intros job Hj.
    by apply not_elem_of_nil in Hj. }
  assert (Hone : exists r1, mark_skipped runID job r = (Ok tt, r1) /\ leads r None r1 /\
    r_jobResults r1 = r_jobResults r /\ (ran job r1 \/ shows_skipped r1 job) /\
    (forall j, shows_skipped r j -> shows_skipped r1 j)).
  { unfold mark_skipped. rewrite (bind_ok _ _ _ _ _ (eq_refl : gets _ r = _)).
    destruct (r_jobResults r !! Job.Name job) as [b|] eqn:Hr.
    - exists r. split_and!; [done|by apply leads_refl|done|left; by exists b|done].
    - destruct (set_status_leads job [("status", JStr "skipped")] r Hg) as (r1 & E1 & Hl & He).
      exists r1. split_and!; [done..| |].
      + right. by destruct (set_status_skipped job job r r1 Hg E1).
      + intros j. by destruct (set_status_skipped job j r r1 Hg E1). }
  destruct Hone as (r1 & E1 & Hl1 & He1 & Hj1 & Hk1).
  destruct (IH r1) as (r2 & E2 & Hl2 & He2 & Hj2 & Hk2); [by destruct Hl1|].
  exists r2. split_and!; [by rewrite (bind_ok _ _ _ _ _ E1)|by eapply leads_trans|by rewrite He2| |auto].
  intros j Hj. apply elem_of_cons in Hj as [->|Hj]; [|by apply Hj2].
  destruct Hj1 as [[b Hb]|]; [left; exists b; by rewrite He2|right; auto].
Qed.

Lemma runTargetedJobs_outcome r :
  good r -> outcome r (runTargetedJobs cfg runID targetJobs run_job)
    (fun r' => forall job, job ∈ Config.Jobs cfg -> ran job r' \/ shows_skipped r' job).
Proof.
  intros Hg. unfold runTargetedJobs.
  apply (outcome_seq _ _ (fun _ => True)); [by apply run_targets_outcome|].
  intros r1 (Hg1 & _) _.
  destruct (mark_skipped_all (Config.Jobs cfg) r1 Hg1) as (r2 & E2 & Hl & _ & Hj & _).
  exists None, r2. split_and!; [by rewrite (bind_ok _ _ _ _ _ E2)|done|done].
Qed.

Lemma New_good x : quiet_db (get_db x) -> good (New x).
Proof.
  intros Hq. split; [done|apply NoDup_nil_2| |].
  - intros n. cbn. rewrite lookup_empty. split; [by intros []|intros Hn; by apply not_elem_of_nil in Hn].
  - intros job y results Hin. by apply not_elem_of_nil in Hin.
Qed.

Lemma blocked_by_eq deps r : good r -> exists l, blocked_by deps r = (Ok l, r).
Proof.
  intros Hg. induction deps as [|dep deps [l IH]]; cbn [blocked_by]; [by eexists|].
  destruct (query_status r dep (good_quiet _ Hg)) as (st & Hst & _).
  rewrite (bind_ok _ _ _ _ _ (attempt_eq _ _ _ _ Hst)), (bind_ok _ _ _ _ _ IH). by eexists.
Qed.

Lemma prewrite_leads r :
  good r -> exists r', prewriteJobStates cfg runID r = (Ok tt, r') /\ leads r None r' /\
    r_jobResults r' = r_jobResults r.
Proof.
  unfold prewriteJobStates. generalize (Config.Jobs cfg) at 1. intros jobs. revert r.
  induction jobs as [|job jobs IH]; intros r Hg; cbn [for_each].
  { exists r. split_and!; [done|by apply leads_refl|done]. }
  destruct (blocked_by_eq (plan_passed job) r Hg) as [l Hb].
  destruct (set_status_leads job (("status", JStr "pending")
      :: ("dependsOn", JArr (JStr <$> extractJobDependencies (Job.Plan job)))
      :: (if decide (l = []) then [] else [("blockedBy", JArr l)])) r Hg) as (r1 & E1 & Hl1 & He1).
  destruct (IH r1) as (r2 & E2 & Hl2 & He2); [by destruct Hl1|].
  exists r2. split_and!; [|by eapply leads_trans|by rewrite He2].
  unfold computeBlockedBy. by rewrite (bind_ok _ _ _ _ _ (eq_trans (bind_ok _ _ _ _ _ Hb) E1)).
Qed.

Definition complete_run r : Prop :=
  all_passed r /\
  (forall job, job ∈ Config.Jobs cfg -> passed_now r job ->
     (unconstrained job -> targetJobs = [] /\ shouldRunForTrigger triggerType job = true) ->
     ran job r) /\
  (targetJobs <> [] -> forall job, job ∈ Config.Jobs cfg -> ran job r \/ shows_skipped r job).

(** [Run] but for the assertions. *)
Lemma Run_outcome x :
  quiet_db (get_db x) -> exists e r,
    Run cfg runID triggerType targetJobs run_job (New x) = (Ok (Some e), r) /\ good r /\
    (e = None -> complete_run r).
Proof.
  intros Hq. pose proof (New_good x Hq) as Hg. unfold Run.
  destruct (prewrite_leads _ Hg) as (r1 & E1 & Hl1 & He1). rewrite (bind_ok _ _ _ _ _ E1).
  assert (Hout : outcome r1 (if decide (targetJobs = [])
      then run_jobs cfg runID triggerType run_job (Config.Jobs cfg)
      else runTargetedJobs cfg runID targetJobs run_job)
    (fun r' => (forall job, job ∈ Config.Jobs cfg -> unconstrained job -> targetJobs = [] ->
         shouldRunForTrigger triggerType job = true -> ran job r') /\
       (targetJobs <> [] -> forall job, job ∈ Config.Jobs cfg -> ran job r' \/ shows_skipped r' job))).
  { destruct Hl1 as [Hg1 _]. case_decide as Ht.
    - destruct (run_jobs_outcome (Config.Jobs cfg) r1 Hg1) as (e & r2 & E2 & Hl & HQ); [done|].
      exists e, r2. split_and!; [done|done|]. intros ->. split; [|done]. intros. by apply HQ.
    - destruct (runTargetedJobs_outcome r1 Hg1) as (e & r2 & E2 & Hl & HQ).
      exists e, r2. split_and!; [done|done|]. intros ->. split; [done|]. intros _. by apply HQ. }
  destruct Hout as (e & r2 & E2 & Hl2 & HQ). rewrite (bind_ok _ _ _ _ _ E2).
  destruct e as [e|].
  { exists (Some e), r2. split_and!; [done|by destruct Hl2|done]. }
  rewrite (bind_ok _ _ _ _ _ (eq_refl : gets _ r2 = _)).
  exists (validateAssertions cfg (r_executedJobs r2)), r2. split_and!; [done|by destruct Hl2|].
  intros _. destruct HQ as [Hfree Htarget]; [done|].
  pose proof (leads_trans _ _ _ _ Hl1 Hl2) as (_ & _ & Hl). destruct Hl as [Hc Ha]; [done|].
  split_and!; [by apply Ha, map_Forall_empty| |done].
  intros job Hj Hp Hu. destruct (Hc job Hj Hp) as [Hnew|]; [|done].
  assert (Hun : unconstrained job).
  { unfold unconstrained. destruct (plan_passed job) as [|dep deps] eqn:Hd; [done|].
    exfalso. assert (Hin : dep ∈ plan_passed job) by (rewrite Hd; apply elem_of_cons; by left).
    specialize (Hnew dep Hin). cbn in Hnew. by rewrite lookup_empty in Hnew. }
  destruct (Hu Hun). by apply Hfree.
Qed.
End facts.

(** ** Properties *)

(** C2: a run of the pipeline always ends, whatever the passed constraints of
    its jobs (cyclic ones included), and it starts a job at most once and only
    when every job its plan names in a passed constraint has passed: it
    succeeded in this run, or it did not run in it and the store then reports
    "success" as its most recent status. *)
Theorem Run_respects_passed {X : Type} `{!HasDb X, !Namespace, !OrderBy, !JsonText}
    cfg runID triggerType targetJobs (run_job : Job.t -> X -> X * option serr) (x : X) :
  (forall job y, quiet_db (get_db y) -> quiet_db (get_db (run_job job y).1)) ->
  quiet_db (get_db x) ->
  exists e r, Run cfg runID triggerType targetJobs run_job (New x) = (Ok (Some e), r) /\
    NoDup ((fun e => Job.Name e.1.1) <$> r_started r) /\
    forall job y results, (job, y, results) ∈ r_started r ->
      job ∈ Config.Jobs cfg /\
      forall dep, dep ∈ plan_passed job ->
        results !! dep = Some true \/
        results !! dep = None /\ (GetMostRecentJobStatus "" dep (get_db y)).1 = Ok "success".
Proof.
  intros Hjob Hq. destruct (Run_outcome cfg runID triggerType targetJobs run_job Hjob x Hq)
    as (e & r & Hr & [_ Hn _ Hs] & _).
  exists e, r. split_and!; [done|done|]. intros job y results Hin. by apply Hs.
Qed.

(** C3: a run that returns no error is complete. No job that ran failed; a
    job whose passed constraints were met within the run did run, and so did
    one with none, if the run has no targets and its triggers allow it; and
    with targets every job that did not run is shown as skipped. *)
Theorem Run_is_complete {X : Type} `{!HasDb X, !Namespace, !OrderBy, !JsonText}
    cfg runID triggerType targetJobs (run_job : Job.t -> X -> X * option serr) (x : X) r :
  (forall job y, quiet_db (get_db y) -> quiet_db (get_db (run_job job y).1)) ->
  quiet_db (get_db x) ->
  Run cfg runID triggerType targetJobs run_job (New x) = (Ok (Some None), r) ->
  (forall name ok, r_jobResults r !! name = Some ok -> ok = true) /\
  (forall job, job ∈ Config.Jobs cfg ->
     (forall dep, dep ∈ plan_passed job -> r_jobResults r !! dep = Some true) ->
     (plan_passed job = [] -> targetJobs = [] /\ shouldRunForTrigger triggerType job = true) ->
     r_jobResults r !! Job.Name job = Some true) /\
  (targetJobs <> [] -> forall job, job ∈ Config.Jobs cfg ->
     r_jobResults r !! Job.Name job = Some true \/
     row_status (runner_key runID job) (get_db (r_store r)) = Some "skipped").
Proof.
  intros Hjob Hq Hr. destruct (Run_outcome cfg runID triggerType targetJobs run_job Hjob x Hq)
    as (e & r' & Hr' & _ & Hc).
  rewrite Hr in Hr'. injection Hr' as <- <-. destruct Hc as (Ha & Hfree & Htarget); [done|].
  assert (Hran : forall job, ran job r -> r_jobResults r !! Job.Name job = Some true).
  { intros job [ok Hok]. by rewrite (Ha _ _ Hok) in Hok. }
  split_and!; [exact Ha|auto|]. intros Ht job Hj. destruct (Htarget Ht job Hj); auto.
Qed.

(** ** Witnesses *)
#[local] Existing Instances stable_order ex_text ex_ns.

Definition ex_get (passed : list string) : Step :=
  mkStep None "" 0 None None "" "" "" false "" "" "" None "repo" (GetConfig.mk "" passed false VNil)
    "" None None NNil "" false [] None None None None None [] [] 0 false [] false 0 0.
Definition ex_jobs_job (name : string) (passed : list string) (t : option Triggers.t) : Job.t :=
  Job.mk None None name [ex_get passed] [] None 0 false None None None None None 0 t "".
Definition on_webhook : option Triggers.t :=
  Some (Triggers.mk (Some (WebhookTriggerConfig.mk "" "" ∅)) None []).
Definition ex_cfg (jobs : list Job.t) : Config.t := Config.mk None 0 jobs [] [].

(** Every job writes its success and returns no error. *)
Definition ex_succeeds (job : Job.t) (d : db) : db * option serr :=
  ((Set_ (runner_key "r1" job) (JObj [("status", JStr "success")]) d).2, None).
Lemma ex_succeeds_quiet job (d : db) :
  quiet_db (get_db d) -> quiet_db (get_db (ex_succeeds job d).1).
Proof. apply quiet_set. Qed.

Definition ex_diamond : Config.t := ex_cfg [
  ex_jobs_job "deploy" ["test"; "lint"] None; ex_jobs_job "build" [] None;
  ex_jobs_job "test" ["build"] None; ex_jobs_job "lint" ["build"] None].
Definition ex_run_diamond (targets : list string) :=
  Run ex_diamond "r1" TriggerTypeManual targets ex_succeeds (New empty_db).

Lemma Run_respects_passed_witness :
  exists e r, ex_run_diamond [] = (Ok (Some e), r) /\
    ((fun e => Job.Name e.1.1) <$> r_started r) = ["build"; "test"; "lint"; "deploy"].
Proof.
  destruct (Run_respects_passed ex_diamond "r1" TriggerTypeManual [] ex_succeeds empty_db
    ex_succeeds_quiet eq_refl) as (e & r & Hr & _). exists e, r. split; [exact Hr|].
  assert (Hn : ((fun e => Job.Name e.1.1) <$> r_started (ex_run_diamond []).2)
    = ["build"; "test"; "lint"; "deploy"]) by (vm_compute; reflexivity).
  unfold ex_run_diamond in Hn. by rewrite Hr in Hn.
Defined.

Lemma Run_is_complete_witness :
  let r := (ex_run_diamond ["lint"; "build"]).2 in
  r_jobResults r !! "lint" = Some true /\
  row_status "/pipeline/r1/jobs/deploy" (get_db (r_store r)) <> Some "skipped".
Proof.
  cbv zeta.
  destruct (Run_is_complete ex_diamond "r1" TriggerTypeManual ["lint"; "build"] ex_succeeds
    empty_db (ex_run_diamond ["lint"; "build"]).2 ex_succeeds_quiet eq_refl) as (_ & Hc & _).
  - vm_compute. reflexivity.
  - split; [|vm_compute; discriminate].
    apply (Hc (ex_jobs_job "lint" ["build"] None)); [|intros dep Hd|done].
    + repeat (apply elem_of_cons; first [by left|right]).
    + apply list_elem_of_singleton in Hd as ->. vm_compute. reflexivity.
Defined.

(** A job that its own triggers exclude runs as a dependent, and the loop then
    marks it skipped, over its success. *)
Lemma excluded_dependent_runs :
  let cfg := ex_cfg [ex_jobs_job "build" [] None; ex_jobs_job "deploy" ["build"] on_webhook] in
  let r := (Run cfg "r1" TriggerTypeManual [] ex_succeeds (New empty_db)).2 in
  r_executedJobs r = ["build"; "deploy"] /\
  row_status "/pipeline/r1/jobs/deploy" (get_db (r_store r)) = Some "skipped".
Proof. vm_compute. by split. Qed.
