(* ===== verification/Paths.v ===== *)
(** * Storage paths built from components

    Keys of the task store are components joined by slashes. For plain
    components (Tasks.v) the cleaned path is the key itself and determines the
    components; a padded index is a plain component and determines the index. *)
From S2P Require Import Prelude GoStrings Sql Paging Tasks.
From Stdlib Require Import Ascii.
Open Scope string_scope.
#[local] Arguments String.append !_ _ / : simpl nomatch.

(** The key with the given components. *)
Definition slash_path (parts : list string) : string := "/" ++ Join parts "/".

Lemma plain_chars s : plain s = true -> all_chars plain_char s = true.
Proof. by intros [_ ?]%andb_true_iff. Qed.

Lemma Join_cons2 x y l sep : Join (x :: y :: l) sep = x ++ sep ++ Join (y :: l) sep.
Proof. reflexivity. Qed.

Lemma Split_Join parts :
  parts <> [] -> Forall (fun s => plain s = true) parts -> Split (Join parts "/") "/" = parts.
Proof.
  intros Hne Hall. induction Hall as [|x l Hx Hl IH]; [done|].
  destruct l as [|y l]; [by apply Split_plain_end, plain_chars|].
  rewrite Join_cons2. change ("/" ++ Join (y :: l) "/") with (String "/" (Join (y :: l) "/")).
  rewrite Split_plain by (by apply plain_chars). by rewrite IH.
Qed.

Lemma slash_path_inj parts parts' :
  parts <> [] -> Forall (fun s => plain s = true) parts ->
  parts' <> [] -> Forall (fun s => plain s = true) parts' ->
  slash_path parts = slash_path parts' -> parts = parts'.
Proof.
  intros ???? Heq. apply append_inj_r in Heq.
  rewrite <- (Split_Join parts), Heq by done. by apply Split_Join.
Qed.

Lemma clean_plain rooted parts stack :
  Forall (fun s => plain s = true) parts ->
  foldl (clean_step rooted) stack parts = (reverse parts ++ stack)%list.
Proof.
  intros Hall. revert stack. induction Hall as [|x l Hx Hl IH]; intros stack; simpl; [done|].
  rewrite clean_step_plain by done. rewrite IH, reverse_cons. by rewrite <- (assoc_L app).
Qed.

Lemma task_path_parts `{!Namespace} parts :
  namespace = "" -> parts <> [] -> Forall (fun s => plain s = true) parts ->
  task_path (slash_path parts) = slash_path parts.
Proof.
  intros Hns Hne Hall. unfold task_path, Clean. rewrite Hns, decide_False by discriminate.
  unfold slash_path. simpl. f_equal. unfold clean_parts. simpl.
  rewrite (Split_Join parts Hne Hall). change (clean_step true (clean_step true (clean_step true [] "") "") "") with (@nil string).
  rewrite clean_plain by done. by rewrite app_nil_r, reverse_involutive.
Qed.

(** ** Indices *)

(** The number a string of decimal digits is read as, after [acc]. *)
Fixpoint read_digits (s : string) (acc : N) : N :=
  match s with
  | EmptyString => acc
  | String a s => read_digits s (acc * 10 + (N_of_ascii a - 48))
  end.

Lemma read_digits_zeros n s : read_digits (zeros n ++ s) 0 = read_digits s 0.
Proof. induction n as [|n IH]; [done|]. simpl. exact IH. Qed.

Lemma digit_cases n :
  (n < 10)%N -> (N_of_ascii (pretty_N_char n) - 48 = n)%N /\ is_digit (pretty_N_char n) = true.
Proof.
  intros Hn. destruct n as [|p]; [done|].
  do 4 (destruct p as [p|p|]; try done; try lia).
Qed.

Lemma pretty_N_go_digits n : forall s,
  read_digits (pretty_N_go n s) 0 = read_digits s n
  /\ (all_chars is_digit s = true -> all_chars is_digit (pretty_N_go n s) = true).
Proof.
  induction (N.lt_wf_0 n) as [n _ IH]. intros s.
  destruct (decide (0 < n)%N) as [Hpos|Hz].
  - rewrite pretty_N_go_step by done. assert (Hlt : (n / 10 < n)%N) by (apply N.div_lt; lia).
    destruct (digit_cases (n mod 10)) as [Hd Hp]; [by apply N.mod_lt|].
    destruct (IH _ Hlt (String (pretty_N_char (n mod 10)) s)) as [Hr Ha]. split.
    + rewrite Hr. simpl. rewrite Hd. f_equal. pose proof (N.div_mod n 10). lia.
    + intros Hs. apply Ha. simpl. by rewrite Hp.
  - replace n with 0%N by lia. rewrite pretty_N_go_0. done.
Qed.

Lemma Itoa_N n : (0 <= n)%Z -> Itoa n = pretty (Z.to_N n).
Proof. intros Hn. unfold Itoa. destruct n; [done|done|lia]. Qed.

Lemma read_Itoa n : (0 <= n)%Z -> read_digits (Itoa n) 0 = Z.to_N n.
Proof.
  intros Hn. rewrite Itoa_N by done. unfold pretty, pretty_N.
  destruct (decide (Z.to_N n = 0%N)) as [->|]; [done|]. by rewrite (proj1 (pretty_N_go_digits _ _)).
Qed.

Lemma Itoa_digits n : (0 <= n)%Z -> all_chars is_digit (Itoa n) = true.
Proof.
  intros Hn. rewrite Itoa_N by done. unfold pretty, pretty_N. case_decide; [done|].
  by apply pretty_N_go_digits.
Qed.

Lemma Itoa_inj n m : (0 <= n)%Z -> (0 <= m)%Z -> Itoa n = Itoa m -> n = m.
Proof.
  intros Hn Hm Heq. apply (f_equal (fun s => read_digits s 0)) in Heq.
  rewrite !read_Itoa in Heq by done. lia.
Qed.

(** What precedes the first character that is no digit is determined. *)
Lemma digits_prefix_inj s1 s2 a t1 t2 :
  is_digit a = false -> all_chars is_digit s1 = true -> all_chars is_digit s2 = true ->
  s1 ++ String a t1 = s2 ++ String a t2 -> s1 = s2.
Proof.
  intros Ha. revert s2. induction s1 as [|b s1 IH]; intros [|b' s2]; simpl; try done.
  - intros _ [Hb _]%andb_true_iff [= <- _]. congruence.
  - intros [Hb _]%andb_true_iff _ [= -> _]. congruence.
  - intros [_ H1]%andb_true_iff [_ H2]%andb_true_iff [= -> Heq]. f_equal. by apply IH.
Qed.

Lemma digit_plain a : is_digit a = true -> plain_char a = true.
Proof. destruct a as [[] [] [] [] [] [] [] []]; done. Qed.

Lemma all_chars_impl f g s :
  (forall a, f a = true -> g a = true) -> all_chars f s = true -> all_chars g s = true.
Proof.
  intros Hfg. induction s as [|a s IH]; [done|]. simpl. rewrite !andb_true_iff. naive_solver.
Qed.

Lemma zero_pad_inj w n m :
  (0 <= n)%Z -> (0 <= m)%Z -> zero_pad w n = zero_pad w m -> n = m.
Proof.
  intros Hn Hm Heq. apply (f_equal (fun s => read_digits s 0)) in Heq.
  unfold zero_pad in Heq. rewrite !read_digits_zeros, !read_Itoa in Heq by done. lia.
Qed.

Lemma all_chars_append f s t : all_chars f (s ++ t) = all_chars f s && all_chars f t.
Proof. induction s as [|a s IH]; [done|]. simpl. by rewrite IH, andb_assoc. Qed.

Lemma plain_zero_pad w n : (0 <= n)%Z -> plain (zero_pad w n) = true.
Proof.
  intros Hn. unfold plain, zero_pad. apply andb_true_iff.
  assert (Hlen : Itoa n <> "").
  { intros He. pose proof (read_Itoa n Hn) as Hr. rewrite He in Hr. simpl in Hr.
    replace n with 0%Z in He by lia. discriminate. }
  split.
  - apply negb_true_iff, bool_decide_eq_false. by destruct (w - _) ; simpl.
  - rewrite all_chars_append. apply andb_true_iff. split; [by induction (w - _)|].
    apply (all_chars_impl is_digit); [apply digit_plain|by apply Itoa_digits].
Qed.
