(* ===== verification/Trees.v ===== *)
(** * The tree of a run's tasks (storage/tree.go, Results.AsTree)

    Rows are added in the order of their execution, each below the last branch
    only; chains of single children are then folded. [AsTree_leaves]: the leaves
    of the tree are those of a list that is kept without a tree. *)
From S2P Require Import Prelude Storage Json Db GoStrings Sql Paging Tasks Paths.
From Stdlib Require Import Ascii.
Open Scope string_scope.

Inductive Tree (T : Type) : Type :=
  mkTree { Name : string; Children : list (Tree T); Value : T; FullPath : string }.
Arguments mkTree {T}.
Arguments Name {T}.
Arguments Children {T}.
Arguments Value {T}.
Arguments FullPath {T}.

(** [filepath.Join]: empty elements are dropped. *)
Definition filepath_Join (elems : list string) : string :=
  match filter (fun e => e <> "") elems with
  | [] => ""
  | elems => Clean (Join elems "/")
  end.

Section tree.
Context {T : Type} (zero : T).
Implicit Types t c : Tree T.

Definition NewTree : Tree T := mkTree "" [] zero "".
Definition with_children (cs : list (Tree T)) t : Tree T := mkTree (Name t) cs (Value t) (FullPath t).
Definition with_value (v : T) t : Tree T := mkTree (Name t) (Children t) v (FullPath t).
Definition full_path (parts : list string) : string := "/" ++ filepath_Join parts.

Definition split_last {A} (l : list A) : option (list A * A) :=
  match reverse l with [] => None | x :: l => Some (reverse l, x) end.

(** The walk of AddNode, with the parts behind it. *)
Fixpoint add_parts (walked parts : list string) (value : T) t : Tree T :=
  match parts with
  | [] => with_value value t
  | part :: parts =>
      let walked := (walked ++ [part])%list in
      let fresh := with_children (Children t ++ [add_parts walked parts value (mkTree part [] zero (full_path walked))])%list t in
      match split_last (Children t) with
      | Some (before, child) =>
          if decide (Name child = part) then
            with_children (before ++ [add_parts walked parts value child])%list t
          else fresh
      | None => fresh
      end
  end.
Definition path_parts (name : string) : list string := Split (Clean name) "/".
Definition AddNode (name : string) (value : T) t : Tree T := add_parts [] (path_parts name) value t.

Definition IsLeaf t : bool := match Children t with [] => true | _ => false end.
Definition IsGroup t : bool := negb (IsLeaf t).
Definition HasSingleChild t : bool := match Children t with [_] => true | _ => false end.

(** A node takes over its only child. *)
Definition absorb t c : Tree T := mkTree (filepath_Join [Name t; Name c]) (Children c) (Value c) (FullPath c).
Fixpoint Flatten t : Tree T :=
  let t := match t with mkTree n cs v fp => mkTree n (map Flatten cs) v fp end in
  match Children t with [c] => absorb t c | _ => t end.

(** The rows in their order, then folded. *)
Definition tree_of (rows : list (string * T)) : Tree T :=
  foldl (fun t row => AddNode row.1 row.2 t) NewTree rows.
Definition as_tree (rows : list (string * T)) : Tree T := Flatten (tree_of rows).

(** ** Induction over trees *)
Lemma Tree_ind' (P : Tree T -> Prop) :
  (forall n cs v fp, Forall P cs -> P (mkTree n cs v fp)) -> forall t, P t.
Proof.
  intros Hnode. fix IH 1. intros [n cs v fp]. apply Hnode.
  induction cs as [|c cs IHcs]; constructor; [apply IH|exact IHcs].
Qed.

(** The leaves from left to right. *)
Fixpoint leaves t : list (string * T) :=
  match t with
  | mkTree _ [] v fp => [(fp, v)]
  | mkTree _ cs _ _ => flat_map leaves cs
  end.
Lemma leaves_group n cs v fp : cs <> [] -> leaves (mkTree n cs v fp) = flat_map leaves cs.
Proof. by destruct cs. Qed.

(** ** Folding *)

(** No node has a single child. *)
Fixpoint compact t : bool :=
  negb (HasSingleChild t) && forallb compact (Children t).

Lemma Flatten_group n cs v fp :
  Flatten (mkTree n cs v fp) = match map Flatten cs with [c] => absorb (mkTree n [c] v fp) c | cs => mkTree n cs v fp end.
Proof. cbn. by destruct (map Flatten cs) as [|c [|c' cs']]. Qed.

Lemma Flatten_compact t : compact (Flatten t) = true.
Proof.
  induction t as [n cs v fp IH] using Tree_ind'. rewrite Flatten_group.
  assert (Hcs : forallb compact (map Flatten cs) = true).
  { induction IH as [|c cs Hc Hcs IHcs]; [done|]. cbn. by rewrite Hc, IHcs. }
  revert Hcs. destruct (map Flatten cs) as [|c [|c' cs']]; intros Hcs; [done| |exact Hcs].
  cbn in Hcs. rewrite andb_true_r in Hcs. by destruct c as [cn ccs cv cfp].
Qed.
Lemma Flatten_id t : compact t = true -> Flatten t = t.
Proof.
  induction t as [n cs v fp IH] using Tree_ind'. cbn [compact Children]. intros [Hone Hall]%andb_true_iff.
  rewrite Flatten_group. assert (Hcs : map Flatten cs = cs).
  { clear Hone. induction IH as [|c cs Hc Hcs IHcs]; [done|]. cbn in *. apply andb_true_iff in Hall as [Hx Hy].
    by rewrite Hc, IHcs. }
  rewrite Hcs. by destruct cs as [|c [|c' cs']].
Qed.

(** The recursion of the code: the children first, and the node once more
    after it took over its only child. *)
Lemma Flatten_step n cs v fp :
  Flatten (mkTree n cs v fp) =
    match map Flatten cs with
    | [c] => Flatten (absorb (mkTree n [c] v fp) c)
    | cs => mkTree n cs v fp
    end.
Proof.
  rewrite Flatten_group. destruct (map Flatten cs) as [|c [|c' cs']] eqn:Hcs; [done| |done].
  symmetry. apply Flatten_id. assert (Hc : compact c = true).
  { destruct cs as [|c0 [|]]; [done| |done]. cbn in Hcs. injection Hcs as <-. apply Flatten_compact. }
  by destruct c.
Qed.

Lemma Flatten_leaves t : leaves (Flatten t) = leaves t.
Proof.
  induction t as [n cs v fp IH] using Tree_ind'. rewrite Flatten_group.
  assert (Hcs : flat_map leaves (map Flatten cs) = flat_map leaves cs).
  { induction IH as [|c cs Hc Hcs IHcs]; [done|]. cbn. by rewrite Hc, IHcs. }
  destruct cs as [|c0 cs]; [done|]. rewrite (leaves_group _ (c0 :: cs)) by done. rewrite <- Hcs. cbn [map].
  destruct (map Flatten cs) as [|c' cs']; [|by rewrite leaves_group].
  cbn. rewrite app_nil_r. by destruct (Flatten c0) as [cn [|cc ccs] cv cfp].
Qed.

(** ** The leaves without a tree

    A list of rows, each with the parts of its path: a row that continues the
    last one takes its place, one that the last one continues leaves no leaf,
    any other is a new leaf. *)
Definition leaf_step (acc : list (list string * T)) (row : list string * T) : list (list string * T) :=
  match split_last acc with
  | None => [row]
  | Some (before, (last, v)) =>
      if decide (last `prefix_of` row.1) then (before ++ [row])%list
      else if decide (row.1 `prefix_of` last) then acc
      else (acc ++ [row])%list
  end.
Definition leaf_rows (rows : list (string * T)) : list (string * T) :=
  prod_map full_path id <$> foldl leaf_step [] (prod_map path_parts id <$> rows).

Lemma split_last_app {A} (l : list A) x : split_last (l ++ [x]) = Some (l, x).
Proof. unfold split_last. rewrite reverse_snoc. by rewrite reverse_involutive. Qed.
Lemma split_last_Some {A} (l l' : list A) x : split_last l = Some (l', x) -> l = (l' ++ [x])%list.
Proof.
  unfold split_last. destruct (reverse l) as [|y r] eqn:Hr; [done|]. intros [= <- ->].
  rewrite <- (reverse_involutive l), Hr. by rewrite reverse_cons.
Qed.
Lemma split_last_None {A} (l : list A) : split_last l = None -> l = [].
Proof.
  unfold split_last. destruct (reverse l) as [|y r] eqn:Hr; [|done]. intros _.
  apply (f_equal reverse) in Hr. by rewrite reverse_involutive in Hr.
Qed.

(** [branch walked t s]: the names along the last children of [t], whose paths
    continue [walked]. *)
Inductive branch : list string -> Tree T -> list string -> Prop :=
  | branch_leaf walked n v fp : branch walked (mkTree n [] v fp) []
  | branch_group walked n before c v fp s :
      FullPath c = full_path (walked ++ [Name c]) -> branch (walked ++ [Name c]) c s ->
      branch walked (mkTree n (before ++ [c]) v fp) (Name c :: s).

Lemma branch_snoc walked n before c x v fp s :
  Name c = x -> FullPath c = full_path (walked ++ [x]) -> branch (walked ++ [x]) c s ->
  branch walked (mkTree n (before ++ [c]) v fp) (x :: s).
Proof. intros <-. by constructor. Qed.

(** What adding a row does to the leaves and to the last branch. *)
Definition added (walked parts : list string) (v : T) (s : list string) (l : list (string * T)) t' : Prop :=
  if decide (s `prefix_of` parts) then
    branch walked t' parts /\ leaves t' = (removelast l ++ [(full_path (walked ++ parts), v)])%list
  else if decide (parts `prefix_of` s) then branch walked t' s /\ leaves t' = l
  else branch walked t' parts /\ leaves t' = (l ++ [(full_path (walked ++ parts), v)])%list.

Lemma leaves_snoc n before c v fp : leaves (mkTree n (before ++ [c]) v fp) = (flat_map leaves before ++ leaves c)%list.
Proof.
  rewrite leaves_group by (by destruct before). rewrite flat_map_app. cbn. by rewrite app_nil_r.
Qed.
Lemma leaves_nonempty t : leaves t <> [].
Proof.
  induction t as [n cs v fp IH] using Tree_ind'. destruct cs as [|c cs]; [done|].
  rewrite leaves_group by done. cbn. inversion IH as [|? ? Hc Hcs]; subst. by destruct (leaves c).
Qed.
Lemma prefix_cons_iff (x y : string) k l : (x :: k) `prefix_of` (y :: l) <-> x = y /\ k `prefix_of` l.
Proof. split; [intros Hk; split; [by eapply prefix_cons_inv_1|by eapply prefix_cons_inv_2]|intros [-> Hk]; by apply prefix_cons]. Qed.

Lemma add_fresh parts : forall walked v c,
  Children c = [] -> FullPath c = full_path walked ->
  branch walked (add_parts walked parts v c) parts /\
  leaves (add_parts walked parts v c) = [(full_path (walked ++ parts), v)] /\
  Name (add_parts walked parts v c) = Name c /\ FullPath (add_parts walked parts v c) = FullPath c.
Proof.
  induction parts as [|part parts IH]; intros walked v [n cs cv fp] Hcs Hfp; cbn in Hcs, Hfp; subst cs fp.
  - cbn. rewrite app_nil_r. split; [constructor|done].
  - cbn [add_parts Children split_last]. cbv zeta. change (reverse (@nil (Tree T))) with (@nil (Tree T)). cbn.
    destruct (IH (walked ++ [part])%list v (mkTree part [] zero (full_path (walked ++ [part])))) as (Hb & Hl & Hn & Hf);
      [done..|]. cbn in Hn, Hf. split; [|split; [|done]].
    + by apply (branch_snoc walked n []).
    + rewrite app_nil_r, Hl. by rewrite <- app_assoc.
Qed.
Lemma add_parts_node walked parts v t : Name (add_parts walked parts v t) = Name t /\ FullPath (add_parts walked parts v t) = FullPath t.
Proof.
  destruct parts as [|part parts]; [done|]. cbn. destruct (split_last (Children t)) as [[before child]|]; [|done].
  by destruct (decide _).
Qed.

Lemma add_parts_spec parts : forall walked v t s,
  branch walked t s -> (parts = [] -> s = [] -> FullPath t = full_path walked) ->
  added walked parts v s (leaves t) (add_parts walked parts v t).
Proof.
  induction parts as [|part parts IH]; intros walked v t s Hb Hfp.
  - unfold added. destruct Hb as [walked n v0 fp|walked n before c v0 fp s Hc Hb]; cbn in *.
    + rewrite decide_True by done. rewrite app_nil_r. split; [constructor|]. by rewrite <- Hfp.
    + rewrite decide_False by (intros Hx; by apply prefix_nil_inv in Hx). rewrite decide_True by apply prefix_nil.
      split; [by constructor|]. by destruct before.
  - destruct Hb as [walked n v0 fp|walked n before c v0 fp s Hc Hb]; unfold added; cbn [add_parts Children].
    + cbn. rewrite decide_True by apply prefix_nil.
      destruct (add_fresh parts (walked ++ [part])%list v (mkTree part [] zero (full_path (walked ++ [part]))))
        as (Hb & Hl & Hn & Hf); [done..|]. cbn in Hn, Hf. unfold with_children. cbn. split.
      * by apply (branch_snoc walked n []).
      * rewrite app_nil_r, Hl. by rewrite <- app_assoc.
    + rewrite split_last_app. cbv zeta. destruct (decide (Name c = part)) as [<-|Hne].
      * specialize (IH (walked ++ [Name c])%list v c s Hb (fun _ _ => Hc)). unfold added in IH.
        destruct (add_parts_node (walked ++ [Name c]) parts v c) as [Hn Hf].
        unfold with_children. cbn [Value Name FullPath]. rewrite leaves_snoc, leaves_snoc.
        rewrite (decide_ext _ (s `prefix_of` parts)) by (rewrite prefix_cons_iff; intuition).
        rewrite (decide_ext ((Name c :: parts) `prefix_of` _) (parts `prefix_of` s)) by (rewrite prefix_cons_iff; intuition).
        rewrite <- (assoc_L app) in IH.
        assert (Hg : forall s', branch (walked ++ [Name c]) (add_parts (walked ++ [Name c]) parts v c) s' ->
          branch walked (mkTree n (before ++ [add_parts (walked ++ [Name c]) parts v c]) v0 fp) (Name c :: s')).
        { intros s' Hs'. apply branch_snoc; [done|by rewrite Hf|done]. }
        destruct (decide (s `prefix_of` parts)); [|destruct (decide (parts `prefix_of` s))]; destruct IH as [Hb' Hl];
          (split; [by apply Hg|]); rewrite Hl; [|done|by rewrite <- (assoc_L app)].
        rewrite (assoc_L app). f_equal. rewrite removelast_app by apply leaves_nonempty. done.
      * rewrite decide_False by (rewrite prefix_cons_iff; intuition).
        rewrite decide_False by (rewrite prefix_cons_iff; intuition).
        destruct (add_fresh parts (walked ++ [part])%list v (mkTree part [] zero (full_path (walked ++ [part]))))
          as (Hb' & Hl & Hn & Hf); [done..|]. cbn in Hn, Hf. unfold with_children. cbn [Value Name FullPath]. split.
        -- by apply (branch_snoc walked n (before ++ [c])).
        -- rewrite (leaves_snoc n (before ++ [c])), leaves_snoc, flat_map_app. cbn. rewrite app_nil_r, Hl.
           by rewrite <- !(assoc_L app).
Qed.

Definition shown (acc : list (list string * T)) : list (string * T) := prod_map full_path id <$> acc.
Definition built t (acc : list (list string * T)) : Prop :=
  (acc = [] /\ t = NewTree) \/
  exists before s v, acc = (before ++ [(s, v)])%list /\ s <> [] /\ branch [] t s /\ leaves t = shown acc.

Lemma built_step t acc parts v :
  parts <> [] -> built t acc -> built (add_parts [] parts v t) (leaf_step acc (parts, v)).
Proof.
  intros Hne Hb. right. destruct Hb as [[-> ->]|(before & s & w & -> & Hs & Hbranch & Hl)].
  - pose proof (add_parts_spec parts [] v NewTree [] (branch_leaf _ _ _ _) (fun Hp => False_ind _ (Hne Hp))) as Ha.
    unfold added in Ha. rewrite decide_True in Ha by apply prefix_nil. by exists [], parts, v.
  - pose proof (add_parts_spec parts [] v t s Hbranch (fun Hp => False_ind _ (Hne Hp))) as Ha.
    unfold added in Ha. unfold leaf_step. rewrite split_last_app. cbn [fst].
    rewrite Hl in Ha. unfold shown in *. rewrite fmap_app in Ha. cbn [fmap list_fmap] in Ha.
    destruct (decide (s `prefix_of` parts)); [|destruct (decide (parts `prefix_of` s))]; destruct Ha as [Hb' Hl'].
    + exists before, parts, v. split_and!; [done..|]. rewrite Hl', fmap_app, removelast_last. done.
    + exists before, s, w. split_and!; [done..|]. by rewrite Hl', fmap_app.
    + exists (before ++ [(s, w)])%list, parts, v. split_and!; [done..|]. by rewrite Hl', !fmap_app.
Qed.
Lemma path_parts_nonempty name : path_parts name <> [].
Proof. apply Split_not_nil. Qed.
Lemma built_tree rows : forall t acc,
  built t acc ->
  built (foldl (fun t row => AddNode row.1 row.2 t) t rows) (foldl leaf_step acc (prod_map path_parts id <$> rows)).
Proof.
  induction rows as [|[name v] rows IH]; intros t acc Hb; [done|]. cbn. apply IH.
  by apply built_step; [apply path_parts_nonempty|].
Qed.

Lemma leaf_step_nonempty acc row : leaf_step acc row <> [].
Proof.
  unfold leaf_step. destruct (split_last acc) as [[before [q w]]|] eqn:Hacc; [|done].
  apply split_last_Some in Hacc as ->.
  destruct (decide _); [by destruct before|]. destruct (decide _); by destruct before.
Qed.

Lemma Flatten_tree_leaves rows : rows <> [] -> leaves (as_tree rows) = leaf_rows rows.
Proof.
  intros Hne. unfold as_tree. rewrite Flatten_leaves.
  pose proof (built_tree rows NewTree [] (or_introl (conj eq_refl eq_refl))) as Hb. fold (tree_of rows) in Hb.
  destruct Hb as [[Hnil _]|(before & s & v & Hacc & _ & _ & Hl)]; [|exact Hl].
  destruct rows as [|row rows] using rev_ind; [done|]. exfalso. revert Hnil. rewrite fmap_app, foldl_app.
  apply leaf_step_nonempty.
Qed.

(** C35: the leaves of the tree of a list of rows, from left to right, with
    their paths and values, are those of the list that is kept without a tree:
    each row is a leaf, unless the next rows are below it, and a row below the
    one before takes its place. Folding loses no leaf. *)
Theorem AsTree_leaves rows : rows <> [] -> leaves (as_tree rows) = leaf_rows rows.
Proof. apply Flatten_tree_leaves. Qed.
End tree.

(** ** Names and plain paths *)
#[local] Arguments String.append !_ _ / : simpl nomatch.
Section named.
Context {T : Type} (zero : T).
Implicit Types t c : Tree T.

Fixpoint named t : bool :=
  match t with
  | mkTree n [] _ _ => negb (bool_decide (n = ""))
  | mkTree _ cs _ _ => forallb named cs
  end.
Lemma named_group n cs v fp : cs <> [] -> named (mkTree n cs v fp) = forallb named cs.
Proof. by destruct cs. Qed.

Lemma Clean_nonempty path : Clean path <> "".
Proof.
  unfold Clean. destruct (decide _); [done|]. cbv zeta. destruct (HasPrefix _ _); [done|]. by destruct (decide _).
Qed.
Lemma filepath_Join_nonempty a b : b <> "" -> filepath_Join [a; b] <> "".
Proof.
  intros Hb. unfold filepath_Join. destruct (filter _ [a; b]) as [|x l] eqn:Hf; [|apply Clean_nonempty].
  assert (Hin : b ∈ filter (fun e => e <> "") [a; b]) by (apply list_elem_of_filter; split; [done|set_solver]).
  rewrite Hf in Hin. by apply not_elem_of_nil in Hin.
Qed.

Lemma named_Flatten t : named t = true -> named (Flatten t) = true.
Proof.
  induction t as [n cs v fp IH] using Tree_ind'. intros Hn. rewrite Flatten_group.
  destruct cs as [|c0 cs]; [done|]. rewrite named_group in Hn by done.
  assert (Hcs : forallb named (map Flatten (c0 :: cs)) = true).
  { clear -IH Hn. induction IH as [|c cs' Hc Hcs IHcs]; [done|]. cbn in *. apply andb_true_iff in Hn as [Hx Hy].
    by rewrite Hc, IHcs. }
  revert Hcs. cbn [map]. destruct (map Flatten cs) as [|c' cs'']; intros Hcs; [|by rewrite named_group].
  cbn in Hcs. rewrite andb_true_r in Hcs. destruct (Flatten c0) as [cn [|cc ccs] cv cfp]; [|exact Hcs].
  apply negb_true_iff, bool_decide_eq_false. apply negb_true_iff, bool_decide_eq_false in Hcs.
  by apply filepath_Join_nonempty.
Qed.

(** All nodes below. *)
Definition named_below t : bool := forallb named (Children t).
Lemma named_with_value v t : named (with_value v t) = named t.
Proof. by destruct t as [n [|c cs] w fp]. Qed.
Lemma add_parts_named parts : forall walked v t,
  parts <> [] -> last parts <> Some "" -> named_below t = true ->
  named_below (add_parts zero walked parts v t) = true /\ Children (add_parts zero walked parts v t) <> [].
Proof.
  induction parts as [|part parts IH]; intros walked v t Hne Hlast Ht; [done|]. cbn [add_parts]. cbv zeta.
  assert (Hsub : forall walked c, Name c = part -> named c = true \/ Children c = [] ->
    named (add_parts zero walked parts v c) = true).
  { intros walked' c Hn Hc. destruct parts as [|p parts].
    - cbn [add_parts]. rewrite named_with_value. destruct Hc as [Hc|Hc]; [done|]. destruct c as [cn cs cv cf]. cbn in *.
      subst. cbn. by apply negb_true_iff, bool_decide_eq_false; intros ->.
    - destruct (IH walked' v c) as [Hb Hch]; [done|done| |].
      + destruct Hc as [Hc|Hc]; [|unfold named_below; by rewrite Hc]. unfold named_below.
        destruct c as [cn [|c1 cs] cv cf]; [done|]. by rewrite named_group in Hc.
      + unfold named_below in Hb. destruct (add_parts zero walked' (p :: parts) v c) as [cn cs cv cf].
        by rewrite named_group. }
  assert (Hfresh : named (add_parts zero (walked ++ [part]) parts v (mkTree part [] zero (full_path (walked ++ [part])))) = true)
    by (apply Hsub; [done|by right]).
  unfold named_below in *.
  destruct (split_last (Children t)) as [[before child]|] eqn:Hs.
  - apply split_last_Some in Hs. rewrite Hs in Ht |- *. rewrite forallb_app in Ht. cbn in Ht.
    apply andb_true_iff in Ht as [Hbefore Hchild]. rewrite andb_true_r in Hchild.
    destruct (decide (Name child = part)) as [Hn|Hn]; cbn [Children with_children].
    + split; [|by destruct before]. rewrite forallb_app, Hbefore. cbn [forallb andb]. rewrite Hsub; [done|done|by left].
    + split; [|by destruct before]. rewrite !forallb_app, Hbefore. cbn [forallb andb]. by rewrite Hchild, Hfresh.
  - apply split_last_None in Hs. rewrite Hs. cbn [with_children Children app forallb]. by rewrite Hfresh.
Qed.

(** A path of plain components. *)
Definition plain_path (name : string) : Prop :=
  exists parts, parts <> [] /\ Forall (fun s => plain s = true) parts /\ name = slash_path parts.
Lemma plain_path_parts parts :
  parts <> [] -> Forall (fun s => plain s = true) parts -> path_parts (slash_path parts) = "" :: parts.
Proof.
  intros Hne Hall. unfold path_parts. assert (Hc : Clean (slash_path parts) = slash_path parts).
  { unfold Clean. rewrite decide_False by discriminate. unfold slash_path. simpl. f_equal. unfold clean_parts. simpl.
    rewrite (Split_Join parts Hne Hall). change (clean_step true [] "") with (@nil string).
    rewrite clean_plain by done. rewrite app_nil_r, reverse_involutive. by destruct (Join parts "/"). }
  rewrite Hc. unfold slash_path. cbn. by rewrite Split_Join.
Qed.
Lemma plain_full_path parts :
  parts <> [] -> Forall (fun s => plain s = true) parts -> full_path ("" :: parts) = slash_path parts.
Proof.
  intros Hne Hall. unfold full_path, filepath_Join. assert (Hf : filter (fun e => e <> "") ("" :: parts) = parts).
  { rewrite filter_cons_False by (by intros Hx). clear Hne. induction Hall as [|x l Hx Hl IH]; [done|].
    rewrite filter_cons_True, IH; [done|]. intros ->. by apply andb_true_iff in Hx as [? _]. }
  rewrite Hf. destruct parts as [|x parts]; [done|]. inversion Hall as [|? ? Hx Hl]; subst.
  assert (Hrel : HasPrefix (Join (x :: parts) "/") "/" = false /\ Join (x :: parts) "/" <> "").
  { destruct x as [|a x]; [done|]. apply plain_chars in Hx. cbn in Hx. apply andb_true_iff in Hx as [Ha _].
    assert (Hj : exists rest, Join (String a x :: parts) "/" = String a rest)
      by (destruct parts as [|y parts]; [by exists x|eexists; by rewrite Join_cons2]).
    destruct Hj as [rest ->]. split; [|done]. unfold HasPrefix. cbn [String.prefix]. destruct (ascii_dec "/"%char a) as [<-|]; done. }
  destruct Hrel as [Hrel Hj]. unfold Clean. rewrite decide_False by done. cbv zeta. rewrite Hrel. unfold clean_parts.
  rewrite Split_Join by done. rewrite clean_plain by done. rewrite app_nil_r, reverse_involutive.
  by rewrite decide_False.
Qed.

Definition has_plain_path (row : string * T) : Prop := plain_path row.1.
Lemma named_tree rows : rows <> [] -> Forall has_plain_path rows -> named (tree_of zero rows) = true.
Proof.
  intros Hne Hall. unfold tree_of.
  assert (Hfold : forall t, named_below t = true -> let t' := foldl (fun t row => AddNode zero row.1 row.2 t) t rows in
    named_below t' = true /\ Children t' <> []).
  { clear -Hne Hall. induction Hall as [|[name v] rows (parts & Hp & Hplain & Hname) Hrows IH]; [done|]. intros t Ht. cbn.
    cbn in Hname. subst name.
    destruct (add_parts_named (path_parts (slash_path parts)) [] v t) as [Hb Hc];
      [apply path_parts_nonempty| |done|].
    { rewrite plain_path_parts by done. destruct parts as [|x parts] using rev_ind; [done|].
      rewrite app_comm_cons, last_snoc. intros [= ->]. apply Forall_app in Hplain as [_ Hx]. by inversion Hx. }
    destruct rows as [|row rows]; [by split|]. by apply IH. }
  specialize (Hfold (NewTree zero) eq_refl). cbv zeta in Hfold. destruct Hfold as [Hb Hc]. revert Hb Hc.
  generalize (foldl (fun t row => AddNode zero row.1 row.2 t) (NewTree zero) rows). intros [n cs v fp]. unfold named_below.
  cbn [Children]. intros Hb Hc. by rewrite named_group.
Qed.
End named.

(** [Results.AsTree], of the rows of a run. *)
Definition AsTree (results : list Result.t) : Tree (list (string * json)) :=
  as_tree [] ((fun r => (Result.Path r, Result.Payload r)) <$> results).

(** ** Witnesses and what a tree does not show *)
Definition ex_rows : list (string * Z) :=
  [("/r/build", 1); ("/r/build/0", 2); ("/r/build/1/a", 3); ("/r/build/1/b", 4); ("/r/test", 5); ("/r/test/0", 6)]%Z.

Lemma AsTree_leaves_witness :
  ex_rows <> [] /\ leaves (as_tree 0%Z ex_rows) = [("/r/build/0", 2); ("/r/build/1/a", 3); ("/r/build/1/b", 4); ("/r/test/0", 6)]%Z.
Proof.
  assert (Hne : ex_rows <> []) by discriminate. split; [exact Hne|].
  rewrite (AsTree_leaves 0%Z ex_rows Hne). vm_compute. reflexivity.
Defined.

(** The value of a row with a single row below it is in no node: the job test
    has no status of its own. *)
Fixpoint values {T} (t : Tree T) : list T := match t with mkTree _ cs v _ => v :: flat_map values cs end.
Lemma folded_row_is_lost : bool_decide (5%Z ∈ values (as_tree 0%Z ex_rows)) = false.
Proof. vm_compute. reflexivity. Qed.

(** Rows of members of a group that run at the same time split its node. *)
Lemma interleaved_rows_split :
  Name <$> Children (as_tree 0%Z [("/r/a/1", 1); ("/r/b/1", 2); ("/r/a/2", 3)]%Z) = ["a/1"; "b/1"; "a/2"].
Proof. vm_compute. reflexivity. Qed.
