(* ===== verification/Tokens.v ===== *)
(** * Tokens (server/auth/token.go, share_token.go, rbac.go, context.go, mcp.go)

    The two kinds of token the server signs. A share token is text signed
    with HMAC-SHA256, modelled to the byte; a user's token is a JWT, whose
    signing and parsing belong to a library and are the class [JWT].
    [ValidateShareToken_exact] says which texts are share tokens,
    [ShareToken_roundtrip] that those the server makes are, until they
    expire. *)
From S2P Require Import Prelude Storage Json GoStrings Sql Ids Sha Paths Server.
From Stdlib Require Import Ascii.
Open Scope string_scope.
#[local] Arguments String.append !_ _ / : simpl nomatch.

(** ** Text *)

(** The text before and after the last occurrence of a byte:
    [strings.LastIndex] and the two slices. *)
Fixpoint cut_last (c : ascii) (s : string) : option (string * string) :=
  match s with
  | EmptyString => None
  | String a s =>
      match cut_last c s with
      | Some (before, after) => Some (String a before, after)
      | None => if Ascii.eqb a c then Some ("", s) else None
      end
  end.

(** [strconv.ParseInt(s, 10, 64)]: an optional sign, then digits. *)
Definition ParseInt (s : string) : option Z :=
  let '(negative, digits) :=
    match s with
    | String "-" s => (true, s)
    | String "+" s => (false, s)
    | _ => (false, s)
    end in
  if decide (digits = "") then None
  else if negb (all_chars is_digit digits) then None
  else
    let n := Z.of_N (read_digits digits 0) in
    let n := if negative then (- n)%Z else n in
    if ((- 2 ^ 63 <=? n) && (n <? 2 ^ 63))%Z then Some n else None.

(** [hex.DecodeString]: both cases are digits. *)
Definition hex_value (a : ascii) : option Z :=
  let n := Z.of_nat (nat_of_ascii a) in
  if is_digit a then Some (n - 48)%Z
  else if (97 <=? n)%Z && (n <=? 102)%Z then Some (n - 87)%Z
  else if (65 <=? n)%Z && (n <=? 70)%Z then Some (n - 55)%Z
  else None.
Fixpoint hex_decode (s : string) : option (list Z) :=
  match s with
  | EmptyString => Some []
  | String a (String b s) =>
      match hex_value a, hex_value b, hex_decode s with
      | Some x, Some y, Some l => Some ((16 * x + y)%Z :: l)
      | _, _, _ => None
      end
  | _ => None
  end.

(** ** Share tokens *)
Definition defaultShareTokenTTL : Z := (30 * 24 * 3600 * nanosPerSecond)%Z.

Definition share_mac (runID expires secret : string) : list Z :=
  hmac_bytes (bytes secret) (bytes ("share:" ++ runID ++ ":" ++ expires)).

Definition GenerateShareTokenWithTTL (now : time) (runID secret : string) (ttl : Z)
    : result string :=
  if decide (runID = "") then Err (EMsg "runID must not be empty")
  else
    let expires := Itoa (Unix (now + ttl)%Z) in
    let sig := hex (share_mac runID expires secret) in
    Ok (runID ++ "." ++ expires ++ "." ++ sig).
Definition GenerateShareToken (now : time) (runID secret : string) : result string :=
  GenerateShareTokenWithTTL now runID secret defaultShareTokenTTL.

(** The run the token names. *)
Definition ValidateShareToken (now : time) (token secret : string) : result string :=
  match cut_last "." token with
  | None | Some ("", _) => Err (EMsg "malformed share token")
  | Some (rest, sigHex) =>
      match cut_last "." rest with
      | None | Some ("", _) => Err (EMsg "malformed share token")
      | Some (runID, expires) =>
          if decide (runID = "" \/ expires = "" \/ sigHex = "") then
            Err (EMsg "malformed share token")
          else
            match ParseInt expires with
            | None => Err (EMsg "malformed share token expiry")
            | Some expiresAt =>
                if (expiresAt <? Unix now)%Z then Err (EMsg "share token expired")
                else
                  match hex_decode sigHex with
                  | None => Err (EMsg "malformed share token signature")
                  | Some expected =>
                      if bool_decide (share_mac runID expires secret = expected) then Ok runID
                      else Err (EMsg "invalid share token")
                  end
            end
      end
  end.

(** *** Facts *)
#[local] Opaque share_mac.

Lemma cut_last_inv c s before after :
  cut_last c s = Some (before, after) ->
  s = before ++ String c after /\ all_chars (fun a => negb (Ascii.eqb a c)) after = true.
Proof.
  assert (Hnone : forall s, cut_last c s = None -> all_chars (fun a => negb (Ascii.eqb a c)) s = true).
  { clear. induction s as [|a s IH]; [done|]. simpl.
    destruct (cut_last c s) as [[]|]; [done|].
    destruct (Ascii.eqb a c); [done|]. intros _. simpl. by apply IH. }
  revert before. induction s as [|a s IH]; intros before; [done|]. simpl.
  destruct (cut_last c s) as [[b' a']|] eqn:E.
  - intros [= <- <-]. destruct (IH b' eq_refl) as [-> Ha]. by split.
  - destruct (Ascii.eqb_spec a c) as [->|]; [|done]. intros [= <- <-]. split; [done|by apply Hnone].
Qed.

Lemma cut_last_none c s :
  all_chars (fun a => negb (Ascii.eqb a c)) s = true -> cut_last c s = None.
Proof.
  induction s as [|a s IH]; [done|]. simpl. intros [Ha Hs]%andb_true_iff.
  rewrite (IH Hs). by destruct (Ascii.eqb a c).
Qed.

Lemma cut_last_append c before after :
  all_chars (fun a => negb (Ascii.eqb a c)) after = true ->
  cut_last c (before ++ String c after) = Some (before, after).
Proof.
  intros Ha. induction before as [|a before IH]; simpl; [|by rewrite IH].
  rewrite (cut_last_none _ _ Ha). by rewrite Ascii.eqb_refl.
Qed.

(** Free of a byte. *)
Definition dotless (s : string) : bool := all_chars (fun a => negb (Ascii.eqb a ".")) s.

(** A fact about the sixteen digits, by trying them. *)
Lemma by_digits (f : Z -> bool) :
  forallb f (seqZ 0 16) = true -> forall n, (0 <= n < 16)%Z -> f n = true.
Proof.
  intros Hf n Hn. rewrite forallb_forall in Hf. apply Hf, list_elem_of_In, elem_of_seqZ. lia.
Qed.

Lemma hex_value_char n : (0 <= n < 16)%Z -> hex_value (hex_char n) = Some n.
Proof.
  intros Hn. apply (bool_decide_eq_true_1 (hex_value (hex_char n) = Some n)).
  revert n Hn. apply by_digits. vm_compute. reflexivity.
Qed.

Lemma hex_decode_hex l : byte_list l -> hex_decode (hex l) = Some l.
Proof.
  induction 1 as [|b l Hb _ IH]; [done|]. cbn [hex hex_decode].
  assert (Hlo : (0 <= Z.land b 15 < 16)%Z).
  { change 15%Z with (Z.ones 4). rewrite Z.land_ones by lia. apply Z.mod_pos_bound. lia. }
  assert (Hhi : (0 <= Z.shiftr b 4 < 16)%Z).
  { rewrite Z.shiftr_div_pow2 by lia. split; [apply Z.div_pos; lia|].
    apply Z.div_lt_upper_bound; lia. }
  rewrite !hex_value_char, IH by done. do 2 f_equal.
  change 15%Z with (Z.ones 4). rewrite Z.land_ones, Z.shiftr_div_pow2 by lia.
  change (2 ^ 4)%Z with 16%Z. pose proof (Z.div_mod b 16). lia.
Qed.

Lemma hex_digits l : byte_list l -> dotless (hex l) = true.
Proof.
  assert (Hd : forall n, (0 <= n < 16)%Z -> negb (Ascii.eqb (hex_char n) ".") = true).
  { apply by_digits. vm_compute. reflexivity. }
  unfold dotless. induction 1 as [|b l Hb _ IH]; [done|]. cbn [hex all_chars].
  rewrite !andb_true_iff. repeat split; [apply Hd..|done].
  - rewrite Z.shiftr_div_pow2 by lia. split; [apply Z.div_pos; lia|].
    apply Z.div_lt_upper_bound; lia.
  - change 15%Z with (Z.ones 4). rewrite Z.land_ones by lia. apply Z.mod_pos_bound. lia.
Qed.

Lemma dotless_digits s : all_chars is_digit s = true -> dotless s = true.
Proof. apply all_chars_impl. intros a. by destruct a as [[] [] [] [] [] [] [] []]. Qed.

(** A count of seconds a token may carry: from 1970 to the end of [int64]. *)
Definition expiry_range (n : Z) : Prop := (0 <= n < 2 ^ 63)%Z.

Lemma ParseInt_Itoa n : expiry_range n -> ParseInt (Itoa n) = Some n.
Proof.
  intros [Hlo Hhi]. pose proof (Itoa_digits n Hlo) as Hd. pose proof (read_Itoa n Hlo) as Hr.
  assert (Hne : Itoa n <> "").
  { intros He. rewrite He in Hr. simpl in Hr. assert (n = 0)%Z as -> by lia. discriminate He. }
  unfold ParseInt. destruct (Itoa n) as [|a s] eqn:E; [done|].
  assert (Hsign : (match String a s with
      | String "-" s => (true, s) | String "+" s => (false, s) | _ => (false, String a s) end)
    = (false, String a s)).
  { cbn [all_chars] in Hd. apply andb_true_iff in Hd as [Ha _].
    by destruct a as [[] [] [] [] [] [] [] []]. }
  rewrite Hsign. rewrite decide_False by done. rewrite Hd. cbn [negb]. rewrite Hr.
  rewrite Z2N.id by done. rewrite (proj2 (Z.leb_le _ _)), (proj2 (Z.ltb_lt _ _)) by lia. done.
Qed.

(** A share token: the run, the expiry and the hexadecimal HMAC of both, with
    dots between them. The case of the hexadecimal digits is free. *)
Definition share_token (now : time) (runID secret token : string) : Prop :=
  exists expires sig e,
    token = runID ++ "." ++ expires ++ "." ++ sig /\
    runID <> "" /\ dotless expires = true /\ dotless sig = true /\
    ParseInt expires = Some e /\ (Unix now <= e)%Z /\
    hex_decode sig = Some (share_mac runID expires secret).

Lemma share_mac_not_nil runID expires secret : share_mac runID expires secret <> [].
Proof.
  with_strategy transparent [share_mac] unfold share_mac, hmac_bytes. intros Hn. apply (f_equal length) in Hn.
  by rewrite length_sha256_bytes in Hn.
Qed.

(** a text is accepted as a share token of a run exactly when it is one:
    the run's identifier, an expiry that is not past and, in hexadecimal, the
    HMAC of the two under the signing key; a run identifier may itself
    contain dots. *)
Theorem ValidateShareToken_exact now token secret runID :
  ValidateShareToken now token secret = Ok runID <-> share_token now runID secret token.
Proof.
  split.
  - unfold ValidateShareToken.
    destruct (cut_last "." token) as [[rest sig]|] eqn:Hc; [|done].
    destruct rest as [|r rest]; [done|]. set (rest' := String r rest) in *.
    destruct (cut_last "." rest') as [[id expires]|] eqn:Hc2; [|done].
    destruct id as [|i id]; [done|]. set (id' := String i id) in *.
    destruct (decide _) as [|Hne]; [done|]. destruct (ParseInt expires) as [e|] eqn:He; [|done].
    destruct (Z.ltb_spec e (Unix now)); [done|].
    destruct (hex_decode sig) as [l|] eqn:Hl; [|done].
    destruct (bool_decide _) eqn:Hb; [|done]. apply bool_decide_eq_true in Hb as Hb'.
    intros [= <-]. apply cut_last_inv in Hc as [-> Hds]. apply cut_last_inv in Hc2 as [-> Hde].
    exists expires, sig, e. rewrite Hb'. split; [by rewrite append_assoc|]. done.
  - intros (expires & sig & e & -> & Hne & Hde & Hds & He & Hle & Hl).
    unfold ValidateShareToken.
    replace (runID ++ "." ++ expires ++ "." ++ sig)
      with ((runID ++ String "." expires) ++ String "." sig) by (by rewrite append_assoc).
    rewrite (cut_last_append _ _ _ Hds). destruct runID as [|i id]; [done|].
    set (id' := String i id) in *. cbn [String.append].
    change (String i (id ++ String "." expires)) with (id' ++ String "." expires).
    rewrite (cut_last_append _ _ _ Hde). subst id'. cbn iota.
    rewrite decide_False.
    + rewrite He. destruct (Z.ltb_spec e (Unix now)); [lia|]. rewrite Hl.
      by rewrite bool_decide_eq_true_2.
    + intros [?|[-> | ->]]; [done|done|]. cbn [hex_decode] in Hl.
      injection Hl as Hl. exact (share_mac_not_nil _ _ _ (eq_sym Hl)).
Qed.

(** the token made for a run is accepted, and names that run, until the
    second its lifetime ends, and is refused as expired from the next second
    on; this holds for any signing key and any run identifier. *)
Theorem ShareToken_roundtrip now runID secret ttl :
  runID <> "" -> expiry_range (Unix (now + ttl)) ->
  exists token, GenerateShareTokenWithTTL now runID secret ttl = Ok token /\
    forall later, ValidateShareToken later token secret =
      if (Unix later <=? Unix (now + ttl))%Z then Ok runID else Err (EMsg "share token expired").
Proof.
  intros Hne Hrange. unfold GenerateShareTokenWithTTL. rewrite decide_False by done.
  eexists. split; [done|]. intros later. set (expires := Itoa (Unix (now + ttl))).
  assert (Hexp : ParseInt expires = Some (Unix (now + ttl)%Z)) by by apply ParseInt_Itoa.
  assert (Hdot : dotless expires = true) by (apply dotless_digits, Itoa_digits, Hrange).
  set (mac := share_mac runID expires secret).
  assert (Hmac : byte_list mac)
    by (unfold mac; with_strategy transparent [share_mac] apply hmac_bytes_range).
  destruct (Z.leb_spec (Unix later) (Unix (now + ttl)%Z)) as [Hle|Hlt].
  - apply ValidateShareToken_exact. exists expires, (hex mac), (Unix (now + ttl)%Z).
    repeat split; try done; [by apply hex_digits|by apply hex_decode_hex].
  - unfold ValidateShareToken.
    replace (runID ++ "." ++ expires ++ "." ++ hex mac)
      with ((runID ++ String "." expires) ++ String "." (hex mac)) by (by rewrite append_assoc).
    rewrite (cut_last_append _ _ _ (hex_digits _ Hmac)). destruct runID as [|i id]; [done|].
    cbn [String.append]. change (String i (id ++ String "." expires))
      with (String i id ++ String "." expires).
    rewrite (cut_last_append _ _ _ Hdot). cbn iota. rewrite decide_False.
    + rewrite Hexp. by rewrite (proj2 (Z.ltb_lt _ _)).
    + intros [?|[He|He]]; [done| |].
      * rewrite He in Hexp. discriminate Hexp.
      * assert (Hd := hex_decode_hex _ Hmac). rewrite He in Hd. injection Hd as Hd.
        exact (share_mac_not_nil _ _ _ (eq_sym Hd)).
Qed.

(** ** Users and access expressions (server/auth/auth.go, rbac.go) *)
Module User.
Record t := mk {
    Email : string; Name : string; NickName : string; AvatarURL : string;
    Provider : string; UserID : string; Organizations : list string;
    Groups : list string; RawData : gmap string json; Scopes : list string }.
End User.
Notation User := User.t.

(** expr-lang: compiling an expression against the fields of a user, and
    evaluating it. *)
Class AccessLang : Type := {
  access_program : Type;
  access_Compile : string -> result access_program;
  access_Run : access_program -> User -> result bool }.

Section access.
Context `{!AccessLang}.

Definition EvaluateAccess (expression : string) (user : User) : result bool :=
  if decide (expression = "") then Ok true
  else
    match access_Compile expression with
    | Err e => Err (EWrap "rbac compile error" e)
    | Ok program =>
        match access_Run program user with
        | Err e => Err (EWrap "rbac eval error" e)
        | Ok verdict => Ok verdict
        end
    end.

Definition ValidateExpression (expression : string) : result unit :=
  if decide (expression = "") then Ok tt
  else
    match access_Compile expression with
    | Err e => Err (EWrap "invalid rbac expression" e)
    | Ok _ => Ok tt
    end.
End access.

(** ** JSON web tokens (server/auth/token.go, mcp.go) *)
Definition AudienceAPI : string := "api".
Definition AudienceMCP : string := "mcp".
Definition MCPScope : string := "ci:read".

(** Dates are whole seconds. *)
Module tokenClaims.
Record t := mk {
    Subject : string; IssuedAt : option Z; ExpiresAt : option Z; Issuer : string;
    Audience : list string; Email : string; Name : string; NickName : string;
    Provider : string; Scopes : list string }.
End tokenClaims.
Notation tokenClaims := tokenClaims.t.

Inductive jwt_error : Type := ErrTokenExpired | ErrTokenOther.

(** The library golang-jwt: signing with HS256, and parsing restricted to it.
    A signed token parses, under the same secret and until its expiry, to the
    claims it was made of. *)
Class JWT : Type := {
  SignedString : tokenClaims -> string -> result string;
  ParseWithClaims : time -> string -> string -> tokenClaims + jwt_error;
  Parse_Signed : forall now claims secret token,
    SignedString claims secret = Ok token ->
    ParseWithClaims now token secret =
      match tokenClaims.ExpiresAt claims with
      | Some e => if (now <? time_Unix e)%Z then inl claims else inr ErrTokenExpired
      | None => inl claims
      end }.

Section tokens.
Context `{!JWT}.

Definition GenerateToken (now : time) (user : User) (secret : string) (ttl : Z)
    (scopes : list string) (audience : string) : result string :=
  let claims := tokenClaims.mk (User.UserID user) (Some (Unix now)) (Some (Unix (now + ttl)%Z))
    "pocketci" (if decide (audience = "") then [] else [audience])
    (User.Email user) (User.Name user) (User.NickName user) (User.Provider user) scopes in
  match SignedString claims secret with
  | Err e => Err (EWrap "could not sign token" e)
  | Ok signed => Ok signed
  end.

Definition validateTokenClaims (now : time) (tokenString secret expectedAudience : string)
    (allowMissingAudience : bool) : result tokenClaims :=
  match ParseWithClaims now tokenString secret with
  | inr ErrTokenExpired => Err (EMsg "token expired")
  | inr ErrTokenOther => Err (EMsg "invalid token")
  | inl claims =>
      if decide (expectedAudience = "") then Ok claims
      else
        match tokenClaims.Audience claims with
        | [] =>
            if negb allowMissingAudience then Err (EMsg "invalid token: missing audience")
            else Ok claims
        | audience =>
            if negb (bool_decide (expectedAudience ∈ audience)) then
              Err (EMsg "invalid token: wrong audience")
            else Ok claims
        end
  end.

(** The claims carry no organizations, groups or raw data. *)
Definition claims_user (claims : tokenClaims) : User :=
  User.mk (tokenClaims.Email claims) (tokenClaims.Name claims) (tokenClaims.NickName claims) ""
    (tokenClaims.Provider claims) (tokenClaims.Subject claims) [] [] ∅
    (tokenClaims.Scopes claims).

Definition ValidateToken (now : time) (tokenString secret expectedAudience : string)
    (allowMissingAudience : bool) : result User :=
  result_bind (validateTokenClaims now tokenString secret expectedAudience allowMissingAudience)
    (fun claims => Ok (claims_user claims)).

Definition TokenValidator (secret : string) (now : time) (token : string) : result User :=
  ValidateToken now token secret AudienceAPI true.


(** [mcpauth.TokenInfo]: scopes, expiration, user. A token without an expiry
    would be dereferenced. *)
Definition MCPTokenVerifier (secret : string) (now : time) (token : string)
    : result (list string * time * string) :=
  match validateTokenClaims now token secret AudienceMCP false with
  | Err _ => Err (EMsg "invalid token")
  | Ok claims =>
      match tokenClaims.ExpiresAt claims with
      | None => Err (ESentinel SPanic)
      | Some e => Ok (tokenClaims.Scopes claims, time_Unix e, tokenClaims.Subject claims)
      end
  end.

(** The user a token stands for: what the claims keep of the user it was made
    for. *)
Definition token_user (user : User) (scopes : list string) : User :=
  User.mk (User.Email user) (User.Name user) (User.NickName user) "" (User.Provider user)
    (User.UserID user) [] [] ∅ scopes.

(** C11: a token authenticates one surface only. A token made for the API is
    taken by the API's validator, as the user it was made for without
    organizations and groups, until its lifetime ends, and by the MCP
    verifier never; a token made for MCP is never taken by the API, and by
    the MCP verifier until its lifetime ends. *)
Theorem audiences_separated user secret ttl scopes now later token :
  let ends := time_Unix (Unix (now + ttl)) in
  (GenerateToken now user secret ttl scopes AudienceAPI = Ok token ->
   TokenValidator secret later token =
     (if (later <? ends)%Z then Ok (token_user user scopes) else Err (EMsg "token expired")) /\
   MCPTokenVerifier secret later token = Err (EMsg "invalid token")) /\
  (GenerateToken now user secret ttl scopes AudienceMCP = Ok token ->
   is_ok (TokenValidator secret later token) = false /\
   MCPTokenVerifier secret later token =
     (if (later <? ends)%Z then Ok (scopes, ends, User.UserID user) else Err (EMsg "invalid token"))).
Proof.
  intros ends. unfold GenerateToken, TokenValidator, ValidateToken, MCPTokenVerifier,
    validateTokenClaims. subst ends.
  split; destruct (SignedString _ secret) as [tok|] eqn:Hs; try done; intros [= ->];
    rewrite (Parse_Signed later _ _ _ Hs); simpl; by destruct (_ <? _)%Z.
Qed.
End tokens.

(** ** Request actors (server/auth/context.go) *)

(** The actor a context holds is replaced by a complete one only. *)
Definition WithRequestActor (ctx : option RequestActor.t) (actor : RequestActor.t)
    : option RequestActor.t :=
  if decide (RequestActor.Provider actor = "" \/ RequestActor.User actor = "") then ctx
  else Some actor.

Definition RequestActorFromContext (ctx : option RequestActor.t) : RequestActor.t * bool :=
  match ctx with
  | Some actor =>
      if decide (RequestActor.Provider actor = "" \/ RequestActor.User actor = "")
      then (RequestActor.mk "" "", false) else (actor, true)
  | None => (RequestActor.mk "" "", false)
  end.

Definition actorFromOAuthUser (user : option User) : RequestActor.t :=
  match user with
  | None => RequestActor.mk "" ""
  | Some user =>
      let identifier := User.Email user in
      let identifier := if decide (identifier = "") then User.UserID user else identifier in
      let identifier := if decide (identifier = "") then User.Name user else identifier in
      if decide (identifier = "") then RequestActor.mk "" ""
      else
        let provider := User.Provider user in
        RequestActor.mk (if decide (provider = "") then "oauth" else provider) identifier
  end.

(** ** A signer without secrecy

    Signing by writing the claims and the secret out satisfies what the class
    [JWT] documents. *)
Definition claims_tuple (c : tokenClaims) : list string * (list string * (list string * list (option Z))) :=
  ([tokenClaims.Subject c; tokenClaims.Issuer c; tokenClaims.Email c; tokenClaims.Name c;
    tokenClaims.NickName c; tokenClaims.Provider c],
   (tokenClaims.Audience c, (tokenClaims.Scopes c,
    [tokenClaims.IssuedAt c; tokenClaims.ExpiresAt c]))).
Definition tuple_claims (t : list string * (list string * (list string * list (option Z))))
    : tokenClaims :=
  match t with
  | ([sub; iss; email; name; nick; provider], (aud, (scopes, [iat; exp]))) =>
      tokenClaims.mk sub iat exp iss aud email name nick provider scopes
  | _ => tokenClaims.mk "" None None "" [] "" "" "" "" []
  end.

Definition plain_sign (c : tokenClaims) (secret : string) : result string :=
  Ok (Itoa (Zpos (encode (claims_tuple c, secret)))).
Definition plain_parse (now : time) (token secret : string) : tokenClaims + jwt_error :=
  match read_digits token 0 with
  | N0 => inr ErrTokenOther
  | Npos p =>
      match decode p with
      | Some (t, secret') =>
          if decide (secret' = secret) then
            let c := tuple_claims t in
            match tokenClaims.ExpiresAt c with
            | Some e => if (now <? time_Unix e)%Z then inl c else inr ErrTokenExpired
            | None => inl c
            end
          else inr ErrTokenOther
      | None => inr ErrTokenOther
      end
  end.

Lemma plain_parse_sign now claims secret token :
  plain_sign claims secret = Ok token ->
  plain_parse now token secret =
    match tokenClaims.ExpiresAt claims with
    | Some e => if (now <? time_Unix e)%Z then inl claims else inr ErrTokenExpired
    | None => inl claims
    end.
Proof.
  unfold plain_sign, plain_parse. set (n := Zpos (encode (claims_tuple claims, secret))).
  intros Hs. assert (token = Itoa n) as -> by congruence.
  rewrite read_Itoa by done. unfold n. cbn [Z.to_N].
  rewrite decode_encode, decide_True by done. by destruct claims.
Qed.
Definition plain_jwt : JWT :=
  {| SignedString := plain_sign; ParseWithClaims := plain_parse; Parse_Signed := plain_parse_sign |}.

(** ** Witnesses *)
#[local] Existing Instance plain_jwt.
Definition ex_user : User :=
  User.mk "alice@example.com" "Alice" "alice" "" "github" "42" ["myorg"] [] ∅ [].

Lemma ex_tokens_made now user secret ttl scopes audience :
  exists token, GenerateToken now user secret ttl scopes audience = Ok token.
Proof. by eexists. Qed.

Lemma audiences_separated_witness :
  exists api mcp,
    GenerateToken 0 ex_user "s" nanosPerSecond [] AudienceAPI = Ok api /\
    GenerateToken 0 ex_user "s" nanosPerSecond [MCPScope] AudienceMCP = Ok mcp /\
    TokenValidator "s" 5 api = Ok (token_user ex_user []) /\
    MCPTokenVerifier "s" 5 api = Err (EMsg "invalid token") /\
    is_ok (TokenValidator "s" 5 mcp) = false /\
    MCPTokenVerifier "s" 5 mcp = Ok ([MCPScope], nanosPerSecond, "42").
Proof.
  destruct (ex_tokens_made 0 ex_user "s" nanosPerSecond [] AudienceAPI) as [api Hapi].
  destruct (ex_tokens_made 0 ex_user "s" nanosPerSecond [MCPScope] AudienceMCP) as [mcp Hmcp].
  exists api, mcp. split; [exact Hapi|]. split; [exact Hmcp|].
  destruct (proj1 (audiences_separated ex_user "s" nanosPerSecond [] 0 5 api) Hapi) as [H1 H2].
  destruct (proj2 (audiences_separated ex_user "s" nanosPerSecond [MCPScope] 0 5 mcp) Hmcp)
    as [H3 H4].
  split; [exact H1|]. split; [exact H2|]. split; [exact H3|exact H4].
Defined.

Lemma ShareToken_roundtrip_witness :
  exists token, GenerateShareToken 0 "run.1" "s3cret" = Ok token /\
    ValidateShareToken 5 token "s3cret" = Ok "run.1".
Proof.
  destruct (ShareToken_roundtrip 0 "run.1" "s3cret" defaultShareTokenTTL) as (token & Hg & Hv).
  - discriminate.
  - split; vm_compute; [discriminate|reflexivity].
  - exists token. split; [exact Hg|exact (Hv 5%Z)].
Defined.
