(* ===== verification/Encoding.v ===== *)
(** * Text encodings (encoding/base64, net/url)

    The encodings the program stores bytes and names in, with their round
    trips: base64 in its two alphabets and the escaping of a path segment. *)
From S2P Require Import Prelude GoStrings Sql Sha Paths Tokens.
From Stdlib Require Import Ascii.
Open Scope string_scope.
#[local] Arguments String.append !_ _ / : simpl nomatch.

(** ** Bytes of a text *)
Definition byte_char (n : Z) : ascii := ascii_of_nat (Z.to_nat n).
Fixpoint unbytes (l : list Z) : string :=
  match l with [] => "" | b :: l => String (byte_char b) (unbytes l) end.

Lemma unbytes_bytes s : unbytes (bytes s) = s.
Proof.
  induction s as [|a s IH]; [done|]. cbn [bytes unbytes]. rewrite IH. f_equal.
  unfold byte_char. by rewrite Nat2Z.id, ascii_nat_embedding.
Qed.

Lemma bytes_range s : byte_list (bytes s).
Proof.
  induction s as [|a s IH]; constructor; [|done]. pose proof (nat_ascii_bounded a). lia.
Qed.

Lemma bytes_unbytes l : byte_list l -> bytes (unbytes l) = l.
Proof.
  induction 1 as [|b l Hb _ IH]; [done|]. cbn [bytes unbytes]. rewrite IH. f_equal.
  unfold byte_char. rewrite nat_ascii_embedding by lia. lia.
Qed.

Lemma bytes_append s t : bytes (s ++ t) = (bytes s ++ bytes t)%list.
Proof. induction s as [|a s IH]; [done|]. cbn. by rewrite IH. Qed.

(** ** Base64 *)

(** The last two digits are those of the alphabet. *)
Definition base64_digit (plus slash : ascii) (n : Z) : ascii :=
  if (n <? 26)%Z then byte_char (65 + n)
  else if (n <? 52)%Z then byte_char (71 + n)
  else if (n <? 62)%Z then byte_char (n - 4)
  else if (n =? 62)%Z then plus else slash.
Definition StdDigit : Z -> ascii := base64_digit "+" "/".
Definition URLDigit : Z -> ascii := base64_digit "-" "_".

Definition sextet (n shift : Z) : Z := Z.land (Z.shiftr n shift) 63.

(** [base64.StdEncoding.EncodeToString]: padded. *)
Fixpoint StdEncode (l : list Z) : string :=
  match l with
  | a :: b :: c :: l =>
      let n := (a * 65536 + b * 256 + c)%Z in
      String (StdDigit (sextet n 18)) (String (StdDigit (sextet n 12))
        (String (StdDigit (sextet n 6)) (String (StdDigit (sextet n 0)) (StdEncode l))))
  | [a; b] =>
      let n := (a * 65536 + b * 256)%Z in
      String (StdDigit (sextet n 18)) (String (StdDigit (sextet n 12))
        (String (StdDigit (sextet n 6)) "="))
  | [a] =>
      let n := (a * 65536)%Z in
      String (StdDigit (sextet n 18)) (String (StdDigit (sextet n 12)) "==")
  | [] => ""
  end.

(** [base64.RawURLEncoding.EncodeToString]: not padded. *)
Fixpoint RawURLEncode (l : list Z) : string :=
  match l with
  | a :: b :: c :: l =>
      let n := (a * 65536 + b * 256 + c)%Z in
      String (URLDigit (sextet n 18)) (String (URLDigit (sextet n 12))
        (String (URLDigit (sextet n 6)) (String (URLDigit (sextet n 0)) (RawURLEncode l))))
  | [a; b] =>
      let n := (a * 65536 + b * 256)%Z in
      String (URLDigit (sextet n 18)) (String (URLDigit (sextet n 12))
        (String (URLDigit (sextet n 6)) ""))
  | [a] =>
      let n := (a * 65536)%Z in
      String (URLDigit (sextet n 18)) (String (URLDigit (sextet n 12)) "")
  | [] => ""
  end.

Definition StdValue (a : ascii) : option Z :=
  let n := Z.of_nat (nat_of_ascii a) in
  if is_upper a then Some (n - 65)%Z
  else if is_lower a then Some (n - 71)%Z
  else if is_digit a then Some (n + 4)%Z
  else if Ascii.eqb a "+" then Some 62%Z
  else if Ascii.eqb a "/" then Some 63%Z
  else None.

(** [base64.StdEncoding.DecodeString]: groups of four, line breaks are
    skipped, the padding ends the text. *)
Definition is_break (a : ascii) : bool :=
  let n := nat_of_ascii a in ((n =? 10) || (n =? 13))%nat.
Fixpoint drop_chars (f : ascii -> bool) (s : string) : string :=
  match s with
  | EmptyString => ""
  | String a s => if f a then drop_chars f s else String a (drop_chars f s)
  end.
Fixpoint std_groups (s : string) : option (list Z) :=
  match s with
  | EmptyString => Some []
  | String a (String b (String c (String d s))) =>
      match StdValue a, StdValue b with
      | Some x, Some y =>
          if Ascii.eqb c "=" then
            if Ascii.eqb d "=" && bool_decide (s = "") then Some [(4 * x + y / 16)%Z] else None
          else
            match StdValue c with
            | None => None
            | Some z =>
                let n := (x * 262144 + y * 4096 + z * 64)%Z in
                if Ascii.eqb d "=" then
                  if bool_decide (s = "") then Some [(n / 65536)%Z; (n / 256 mod 256)%Z] else None
                else
                  match StdValue d, std_groups s with
                  | Some w, Some l =>
                      let n := (n + w)%Z in
                      Some ((n / 65536)%Z :: (n / 256 mod 256)%Z :: (n mod 256)%Z :: l)
                  | _, _ => None
                  end
            end
      | _, _ => None
      end
  | _ => None
  end.
Definition StdDecode (s : string) : option (list Z) := std_groups (drop_chars is_break s).

(** A fact about the digits, by trying them. *)
Lemma by_range n (f : Z -> bool) :
  forallb f (seqZ 0 n) = true -> forall x, (0 <= x < n)%Z -> f x = true.
Proof.
  intros Hf x Hx. rewrite forallb_forall in Hf. apply Hf, list_elem_of_In, elem_of_seqZ. lia.
Qed.

Definition digit_ok (x : Z) : bool :=
  bool_decide (StdValue (StdDigit x) = Some x) && negb (Ascii.eqb (StdDigit x) "=")
  && negb (is_break (StdDigit x)).
Lemma StdDigit_ok x : (0 <= x < 64)%Z -> digit_ok x = true.
Proof. revert x. apply by_range. vm_compute. reflexivity. Qed.

Lemma sextet_div n k : (0 <= k)%Z -> sextet n k = (n / 2 ^ k mod 64)%Z.
Proof.
  intros Hk. unfold sextet. change 63%Z with (Z.ones 6).
  by rewrite Z.land_ones, Z.shiftr_div_pow2 by lia.
Qed.
Lemma sextet_range n k : (0 <= k)%Z -> (0 <= sextet n k < 64)%Z.
Proof. intros Hk. rewrite sextet_div by done. apply Z.mod_pos_bound. lia. Qed.

(** The four digits of a group of three bytes. *)
Lemma sextets n :
  (0 <= n < 16777216)%Z ->
  (sextet n 18 * 262144 + sextet n 12 * 4096 + sextet n 6 * 64 + sextet n 0 = n)%Z.
Proof.
  intros Hn. rewrite !sextet_div by lia.
  change (2 ^ 18)%Z with 262144%Z. change (2 ^ 12)%Z with 4096%Z.
  change (2 ^ 6)%Z with 64%Z. change (2 ^ 0)%Z with 1%Z.
  Z.to_euclidean_division_equations. lia.
Qed.

Lemma three_bytes a b c :
  (0 <= a < 256)%Z -> (0 <= b < 256)%Z -> (0 <= c < 256)%Z ->
  let n := (a * 65536 + b * 256 + c)%Z in
  (n / 65536 = a)%Z /\ (n / 256 mod 256 = b)%Z /\ (n mod 256 = c)%Z.
Proof. intros Ha Hb Hc n. subst n. Z.to_euclidean_division_equations. lia. Qed.

(** Induction three elements at a time. *)
Lemma threes_ind {A} (P : list A -> Prop) :
  P [] -> (forall a, P [a]) -> (forall a b, P [a; b]) ->
  (forall a b c l, P l -> P (a :: b :: c :: l)) -> forall l, P l.
Proof.
  intros H0 H1 H2 H3 l. enough (P l /\ (forall a, P (a :: l)) /\ (forall a b, P (a :: b :: l))) by tauto.
  induction l as [|x l (IH & IH1 & IH2)]; repeat split; auto.
Qed.

Lemma StdDigit_facts x :
  (0 <= x < 64)%Z ->
  StdValue (StdDigit x) = Some x /\ Ascii.eqb (StdDigit x) "=" = false /\
  is_break (StdDigit x) = false.
Proof.
  intros Hx. pose proof (StdDigit_ok x Hx) as Hd. unfold digit_ok in Hd.
  rewrite !andb_true_iff, !negb_true_iff, bool_decide_eq_true in Hd. tauto.
Qed.

Lemma StdEncode_breaks l : drop_chars is_break (StdEncode l) = StdEncode l.
Proof.
  assert (Hd : forall n k s, (0 <= k)%Z -> drop_chars is_break (String (StdDigit (sextet n k)) s) =
    String (StdDigit (sextet n k)) (drop_chars is_break s)).
  { intros n k s Hk. cbn [drop_chars].
    by rewrite (proj2 (proj2 (StdDigit_facts _ (sextet_range n k Hk)))). }
  pattern l. apply threes_ind; clear l; [done|intros a|intros a b|intros a b c l IH];
    cbn [StdEncode]; cbv zeta; rewrite !Hd by lia; [done|done|by rewrite IH].
Qed.

(** Base64 in the standard alphabet reads back what it wrote. *)
Lemma StdDecode_Encode l : byte_list l -> StdDecode (StdEncode l) = Some l.
Proof.
  unfold StdDecode. rewrite StdEncode_breaks.
  assert (Hd : forall n k, (0 <= k)%Z -> StdValue (StdDigit (sextet n k)) = Some (sextet n k) /\
    Ascii.eqb (StdDigit (sextet n k)) "=" = false).
  { intros n k Hk. destruct (StdDigit_facts _ (sextet_range n k Hk)) as (? & ? & _). done. }
  pattern l. apply threes_ind; clear l; [done|intros a Hl|intros a b Hl|intros a b c l IH Hl];
    unfold byte_list in Hl; rewrite ?Forall_cons in Hl; cbn [StdEncode]; cbv zeta;
    cbn [std_groups].
  - destruct Hl as [Ha _]. set (n := (a * 65536)%Z).
    rewrite (proj1 (Hd n 18%Z ltac:(lia))), (proj1 (Hd n 12%Z ltac:(lia))). simpl. do 2 f_equal.
    rewrite !sextet_div by lia. subst n. change (2 ^ 18)%Z with 262144%Z.
    change (2 ^ 12)%Z with 4096%Z. Z.to_euclidean_division_equations. lia.
  - destruct Hl as (Ha & Hb & _). set (n := (a * 65536 + b * 256)%Z).
    rewrite (proj1 (Hd n 18%Z ltac:(lia))), (proj1 (Hd n 12%Z ltac:(lia))),
      (proj1 (Hd n 6%Z ltac:(lia))), (proj2 (Hd n 6%Z ltac:(lia))). simpl.
    assert (Hn : (sextet n 18 * 262144 + sextet n 12 * 4096 + sextet n 6 * 64 = n)%Z).
    { assert (H0 : sextet n 0 = 0%Z).
      { rewrite sextet_div by lia. subst n. change (2 ^ 0)%Z with 1%Z.
        Z.to_euclidean_division_equations. lia. }
      pose proof (sextets n). unfold n in *. lia. }
    rewrite Hn. destruct (three_bytes a b 0 Ha Hb ltac:(lia)) as (H1 & H2 & _).
    rewrite Z.add_0_r in H1, H2. subst n. by rewrite H1, H2.
  - destruct Hl as (Ha & Hb & Hc & Hl). set (n := (a * 65536 + b * 256 + c)%Z).
    rewrite (proj1 (Hd n 18%Z ltac:(lia))), (proj1 (Hd n 12%Z ltac:(lia))),
      (proj1 (Hd n 6%Z ltac:(lia))), (proj2 (Hd n 6%Z ltac:(lia))),
      (proj1 (Hd n 0%Z ltac:(lia))), (proj2 (Hd n 0%Z ltac:(lia))), (IH Hl).
    rewrite (sextets n) by (unfold n; lia).
    destruct (three_bytes a b c Ha Hb Hc) as (H1 & H2 & H3). subst n. by rewrite H1, H2, H3.
Qed.

(** ** Path segments (url.PathEscape, url.PathUnescape) *)
Definition upper_hex (n : Z) : ascii := byte_char (if (n <? 10)%Z then 48 + n else 55 + n).
Definition segment_plain (a : ascii) : bool :=
  is_lower a || is_upper a || is_digit a
  || existsb (Ascii.eqb a) ["-"; "_"; "."; "~"; "$"; "&"; "+"; "="; ":"; "@"]%char.

Fixpoint PathEscape (s : string) : string :=
  match s with
  | EmptyString => ""
  | String a s =>
      if segment_plain a then String a (PathEscape s)
      else
        let n := Z.of_nat (nat_of_ascii a) in
        String "%" (String (upper_hex (Z.shiftr n 4)) (String (upper_hex (Z.land n 15))
          (PathEscape s)))
  end.

Fixpoint PathUnescape (s : string) : option string :=
  match s with
  | EmptyString => Some ""
  | String a s' =>
      if Ascii.eqb a "%" then
        match s' with
        | String h (String l s'') =>
            match hex_value h, hex_value l, PathUnescape s'' with
            | Some x, Some y, Some t => Some (String (byte_char (16 * x + y)) t)
            | _, _, _ => None
            end
        | _ => None
        end
      else option_map (String a) (PathUnescape s')
  end.

Definition escape_ok (n : Z) : bool :=
  let a := byte_char n in
  if segment_plain a then negb (Ascii.eqb a "%") && negb (Ascii.eqb a "/")
  else
    bool_decide (hex_value (upper_hex (Z.shiftr n 4)) = Some (Z.shiftr n 4))
    && bool_decide (hex_value (upper_hex (Z.land n 15)) = Some (Z.land n 15))
    && bool_decide (byte_char (16 * Z.shiftr n 4 + Z.land n 15) = a)
    && negb (Ascii.eqb (upper_hex (Z.shiftr n 4)) "/")
    && negb (Ascii.eqb (upper_hex (Z.land n 15)) "/").
Lemma escape_ok_all n : (0 <= n < 256)%Z -> escape_ok n = true.
Proof. revert n. apply by_range. vm_compute. reflexivity. Qed.

Lemma byte_char_nat a : byte_char (Z.of_nat (nat_of_ascii a)) = a.
Proof. unfold byte_char. by rewrite Nat2Z.id, ascii_nat_embedding. Qed.

Lemma escape_char a : escape_ok (Z.of_nat (nat_of_ascii a)) = true.
Proof. apply escape_ok_all. pose proof (nat_ascii_bounded a). lia. Qed.

(** A name comes back from a path segment as it went in. *)
Lemma PathUnescape_Escape s : PathUnescape (PathEscape s) = Some s.
Proof.
  induction s as [|a s IH]; [done|]. cbn [PathEscape].
  pose proof (escape_char a) as Ha. unfold escape_ok in Ha. cbv zeta in Ha.
  rewrite byte_char_nat in Ha. destruct (segment_plain a).
  - cbn [PathUnescape]. apply andb_true_iff in Ha as [->%negb_true_iff _]. by rewrite IH.
  - rewrite !andb_true_iff, !bool_decide_eq_true in Ha.
    destruct Ha as [[[[H1 H2] H3] _] _]. cbn [PathUnescape Ascii.eqb]. cbv zeta.
    rewrite H1, H2, IH, H3. reflexivity.
Qed.

(** No segment holds a slash. *)
Definition slashless (s : string) : bool := all_chars (fun a => negb (Ascii.eqb a "/")) s.
Lemma PathEscape_slashless s : slashless (PathEscape s) = true.
Proof.
  unfold slashless. induction s as [|a s IH]; [done|]. cbn [PathEscape].
  pose proof (escape_char a) as Ha. unfold escape_ok in Ha. cbv zeta in Ha.
  rewrite byte_char_nat in Ha. destruct (segment_plain a); cbv zeta; cbn [all_chars].
  - apply andb_true_iff in Ha as [_ ->]. done.
  - rewrite !andb_true_iff in Ha. destruct Ha as [[_ ->] ->]. by rewrite IH.
Qed.

Lemma PathEscape_inj s t : PathEscape s = PathEscape t -> s = t.
Proof. intros He. apply (f_equal PathUnescape) in He. rewrite !PathUnescape_Escape in He. congruence. Qed.
