(* ===== verification/Encryption.v ===== *)
(** * Encryption of secrets (secrets/encryption.go)

    AES-256-GCM and Argon2id are libraries and the class [Crypto]; the nonce
    handling and the checks around them are the code's. A [[]byte] is a
    string. [Decrypt_authentic]: what decrypts was encrypted for this place. *)
From S2P Require Import Prelude GoStrings Sql Paths Ids.
Open Scope string_scope.

(** [rand_Read n k]: the n-th read of [k] bytes from the random source.
    [Open_Seal] and [Open_forged] are what crypto/cipher documents of an AEAD:
    [Open] returns the plaintext under the key, nonce and additional data it
    was sealed with, and fails under other additional data. *)
Class Crypto : Type := {
  rand_Read : nat -> nat -> option string;
  IDKey : string -> string -> Z -> Z -> Z -> Z -> string;
  Seal : string -> string -> string -> string -> string;
  Open_ : string -> string -> string -> string -> option string;
  rand_Read_length : forall n k b, rand_Read n k = Some b -> String.length b = k;
  IDKey_length : forall p s t m th n,
    (0 <= n)%Z -> String.length (IDKey p s t m th n) = Z.to_nat n;
  Open_Seal : forall key nonce p aad, Open_ key nonce (Seal key nonce p aad) aad = Some p;
  Open_forged : forall key nonce p aad aad',
    aad' <> aad -> Open_ key nonce (Seal key nonce p aad) aad' = None }.

Definition nonceSize : nat := 12.

Module KDFParams.
Record t := mk {
    Algorithm : string; Salt : string; Time : Z; Memory : Z; Threads : Z; KeyLen : Z }.
End KDFParams.
Notation KDFParams := KDFParams.t.

(** [n]: the number of random reads made so far. *)
Definition random `{!Crypto} (k : nat) : ST nat string := fun n =>
  (match rand_Read n k with Some b => Ok b | None => Err (EMsg "random source failed") end, S n).

Section encryption.
Context `{!Crypto}.

Definition DefaultKDFParams : ST nat KDFParams :=
  let! salt := wrap "could not generate KDF salt" (random 16) in
  ret (KDFParams.mk "argon2id" salt 3 65536 4 32).

Definition DeriveKey (passphrase : string) (params : KDFParams) : result string :=
  if decide (String.length (KDFParams.Salt params) = 0) then
    Err (EMsg "KDF salt must not be empty")
  else Ok (IDKey passphrase (KDFParams.Salt params) (KDFParams.Time params)
             (KDFParams.Memory params) (KDFParams.Threads params) (KDFParams.KeyLen params)).

(** An [Encryptor] is its key. *)
Definition Encryptor : Type := string.
Definition NewEncryptor (key : string) : result Encryptor :=
  if decide (String.length key <> 32) then Err (ESentinel SInvalidKey) else Ok key.

Definition Encrypt (e : Encryptor) (plaintext aad : string) : ST nat string :=
  let! nonce := wrap "could not generate nonce" (random nonceSize) in
  ret (nonce ++ Seal e nonce plaintext aad).

Definition Decrypt (e : Encryptor) (ciphertext aad : string) : result string :=
  if (String.length ciphertext <? nonceSize)%nat then
    Err (EWrap "ciphertext too short" (ESentinel SUnsupported))
  else
    match Open_ e (String.substring 0 nonceSize ciphertext)
            (drop_string nonceSize ciphertext) aad with
    | None => Err (EWrap "could not decrypt" (EMsg "cipher: message authentication failed"))
    | Some plaintext => Ok plaintext
    end.

(** The additional data of a slot (aadFor of sqlite.go and of s3.go). *)
Definition NUL : string := String Ascii.zero "".
Definition aadFor (scope key : string) : string := scope ++ NUL ++ key.
#[global] Arguments aadFor : simpl never.

(** ** Facts *)
Lemma substring_append s t : String.substring 0 (String.length s) (s ++ t) = s.
Proof. induction s as [|a s IH]; [by destruct t|]. simpl. by rewrite IH. Qed.

(** Taking a ciphertext apart. *)
Lemma Decrypt_nonce e nonce body aad :
  String.length nonce = nonceSize ->
  Decrypt e (nonce ++ body) aad =
    match Open_ e nonce body aad with
    | Some p => Ok p
    | None => Err (EWrap "could not decrypt" (EMsg "cipher: message authentication failed"))
    end.
Proof.
  intros Hn. unfold Decrypt. rewrite String_length_append, Hn.
  destruct (Nat.ltb_spec (nonceSize + String.length body) nonceSize); [lia|].
  by rewrite <- Hn, substring_append, drop_string_append.
Qed.

(** A ciphertext [Encrypt] made, whenever it did. *)
Definition encrypted (e : Encryptor) (plaintext aad c : string) : Prop :=
  exists nonce, String.length nonce = nonceSize /\ c = nonce ++ Seal e nonce plaintext aad.

Lemma Encrypt_encrypted e p aad n c n' :
  Encrypt e p aad n = (Ok c, n') -> encrypted e p aad c.
Proof.
  unfold Encrypt, bind, wrap, random, ret. intros He.
  destruct (rand_Read n nonceSize) as [nonce|] eqn:Hr; [|done]. injection He as <- <-.
  exists nonce. by apply rand_Read_length in Hr.
Qed.

Lemma Decrypt_encrypted e p aad c : encrypted e p aad c -> Decrypt e c aad = Ok p.
Proof. intros (nonce & Hn & ->). by rewrite Decrypt_nonce, Open_Seal. Qed.

Lemma Decrypt_authentic e p aad aad' c v :
  encrypted e p aad c -> Decrypt e c aad' = Ok v -> aad' = aad /\ v = p.
Proof.
  intros (nonce & Hn & ->). rewrite Decrypt_nonce by done.
  destruct (decide (aad' = aad)) as [->|Hne]; [rewrite Open_Seal; naive_solver|].
  by rewrite Open_forged.
Qed.

(** A slot is determined by its additional data as long as scopes hold no NUL. *)
Definition no_NUL (s : string) : bool :=
  all_chars (fun a => negb (Ascii.eqb a Ascii.zero)) s.
Lemma aadFor_inj s k s' k' :
  no_NUL s = true -> no_NUL s' = true -> aadFor s k = aadFor s' k' -> s = s' /\ k = k'.
Proof.
  unfold aadFor, NUL, no_NUL. revert s'.
  induction s as [|a s IH]; intros [|b s']; cbn [all_chars String.append];
    rewrite ?andb_true_iff; intros Hs Hs' He.
  - by injection He.
  - injection He as <- _. by destruct Hs'.
  - injection He as -> _. by destruct Hs.
  - injection He as -> He. by destruct (IH s' (proj2 Hs) (proj2 Hs') He) as [-> ->].
Qed.

(** The key of a fresh store is a key of AES-256. *)
Lemma DefaultKDFParams_key passphrase n params n' :
  DefaultKDFParams n = (Ok params, n') ->
  exists key, DeriveKey passphrase params = Ok key /\ NewEncryptor key = Ok key.
Proof.
  unfold DefaultKDFParams, bind, wrap, random, ret. intros He.
  destruct (rand_Read n 16) as [salt|] eqn:Hr; [|done]. injection He as <- <-.
  apply rand_Read_length in Hr. unfold DeriveKey, NewEncryptor. cbn [KDFParams.Salt].
  rewrite Hr, decide_False by done. eexists. split; [done|].
  cbn [KDFParams.Time KDFParams.Memory KDFParams.Threads KDFParams.KeyLen].
  by rewrite IDKey_length by lia.
Qed.
End encryption.

(** ** A cipher without secrecy

    Writing the additional data and the plaintext out has what [Crypto] asks
    for. *)
Definition plain_seal (key nonce p aad : string) : string :=
  Itoa (Zpos (encode (key, nonce, p, aad))).
Definition plain_open (key nonce c aad : string) : option string :=
  match read_digits c 0 with
  | N0 => None
  | Npos n =>
      match decode n with
      | Some (key', nonce', p, aad') =>
          if decide ((key', nonce', aad') = (key, nonce, aad)) then Some p else None
      | None => None
      end
  end.
Definition plain_random (n k : nat) : option string := Some (zeros k).
Definition plain_kdf (p s : string) (t m th n : Z) : string := zeros (Z.to_nat n).

Lemma plain_open_seal key nonce p aad key' nonce' aad' :
  plain_open key' nonce' (plain_seal key nonce p aad) aad' =
    if decide ((key, nonce, aad) = (key', nonce', aad')) then Some p else None.
Proof.
  unfold plain_open, plain_seal. rewrite read_Itoa by done. cbn [Z.to_N].
  by rewrite decode_encode.
Qed.

Definition plain_crypto : Crypto.
Proof.
  refine {| rand_Read := plain_random; IDKey := plain_kdf; Seal := plain_seal;
            Open_ := plain_open |}.
  - intros n k b [= <-]. apply length_zeros.
  - intros. apply length_zeros.
  - intros. rewrite plain_open_seal. by rewrite decide_True.
  - intros key nonce p aad aad' Hne. rewrite plain_open_seal, decide_False; [done|congruence].
Defined.
