(* ===== verification/SecretStore.v ===== *)
(** * Stores of secrets (secrets/sqlite/sqlite.go, secrets/s3/s3.go, secrets/noop/noop.go)

    The two stores that keep secrets encrypted, one in a table, one in
    objects of a bucket, and the store that keeps nothing. A manager is an
    instance of [SecretsManager]; what the rest of the server may rely on is
    [SecretBackend]: every operation acts on a map from slots to values, or
    fails without harm. The S3 client takes some failures for a missing object,
    by the type or the text of the error: [misread] is that case. *)
From S2P Require Import Prelude GoStrings Sql Paging Paths Sha Config Secrets Encoding Encryption.
From Stdlib Require Import Ascii.
Open Scope string_scope.
#[local] Arguments String.append !_ _ / : simpl nomatch.

(** ** Data behind a connection

    [be_data] is what the service keeps, [be_rand] counts the reads of the
    random source, [be_faults] is the oracle of failing calls: each call
    takes an entry, [Some x] makes it fail as [x] says, without effect. *)

(** The errors of the S3 client: the two types that say an object is missing,
    and any other error, with its text. A late failure is one that comes while
    the body of an object is read. *)
Inductive aws_error : Type :=
  | AwsNoSuchKey
  | AwsNotFound
  | AwsOther (text : string).
Definition aws_err (e : aws_error) : err :=
  match e with
  | AwsNoSuchKey => ESentinel SNoSuchKey
  | AwsNotFound => ESentinel SS3NotFound
  | AwsOther text => EMsg text
  end.
Record fault := mkFault { f_late : bool; f_error : aws_error }.

Record backend (D : Type) := mkBackend {
  be_data : D;
  be_rand : nat;
  be_now : time;
  be_faults : list (option fault) }.
Arguments mkBackend {D}.
Arguments be_data {D}.
Arguments be_rand {D}.
Arguments be_now {D}.
Arguments be_faults {D}.

Section backend.
Context {D : Type}.
Definition set_data (f : D -> D) (b : backend D) : backend D :=
  mkBackend (f (be_data b)) (be_rand b) (be_now b) (be_faults b).
Definition set_rand (n : nat) (b : backend D) : backend D :=
  mkBackend (be_data b) n (be_now b) (be_faults b).
Definition set_be_faults (fs : list (option fault)) (b : backend D) : backend D :=
  mkBackend (be_data b) (be_rand b) (be_now b) fs.

Definition call {A} (failed : fault -> err) (f : ST (backend D) A) : ST (backend D) A := fun b =>
  match be_faults b with
  | Some x :: fs => (Err (failed x), set_be_faults fs b)
  | None :: fs => f (set_be_faults fs b)
  | [] => f b
  end.

Definition drawing {A} (m : ST nat A) : ST (backend D) A := fun b =>
  match m (be_rand b) with (r, n) => (r, set_rand n b) end.
End backend.

(** ** The interface (secrets.Manager) *)
Class SecretsManager (S : Type) : Type := {
  mgr_Get : string -> string -> ST S string;
  mgr_Set : string -> string -> string -> ST S unit;
  mgr_Delete : string -> string -> ST S unit;
  mgr_ListByScope : string -> ST S (list string);
  mgr_DeleteByScope : string -> ST S unit }.

(** ** SQLite *)
Module secretRow.
Record t := mk { encrypted_value : string; version : Z; updated_at : Z }.
End secretRow.

(** The row of kdf_params: the length of the key is not stored. *)
Module kdfRow.
Record t := mk { algorithm : string; salt : string; time_ : Z; memory : Z; threads : Z }.
End kdfRow.

Record sdb := mkSdb {
  sd_secrets : gmap (string * string) secretRow.t;
  sd_kdf : option kdfRow.t }.
Definition set_secrets f d := mkSdb (f (sd_secrets d)) (sd_kdf d).
Definition set_kdf r d := mkSdb (sd_secrets d) r.

Definition sql_call {A} : ST (backend sdb) A -> ST (backend sdb) A := call (fun _ => ESentinel SSqlite).

(** The names of a scope in byte order. *)
Definition sorted_names (l : list string) : list string := merge_sort String.le l.
Definition scope_keys {A} (scope : string) (m : gmap (string * string) A) : list string :=
  omap (fun '((s, k), _) => if decide (s = scope) then Some k else None) (map_to_list m).

Section sqlite.
Context `{!Crypto}.

Definition loadOrInitKDFParams : ST (backend sdb) KDFParams :=
  let! row := wrap "could not read kdf_params" (sql_call (gets (fun b => sd_kdf (be_data b)))) in
  match row with
  | Some r =>
      ret (KDFParams.mk (kdfRow.algorithm r) (kdfRow.salt r) (kdfRow.time_ r) (kdfRow.memory r)
             (kdfRow.threads r) 32)
  | None =>
      let! params := wrap "could not generate KDF params" (drawing DefaultKDFParams) in
      wrap "could not persist KDF params" (sql_call (fun b =>
        if decide (is_Some (sd_kdf (be_data b))) then (Err (ESentinel SSqlite), b)
        else
          (Ok tt, set_data (set_kdf (Some (kdfRow.mk (KDFParams.Algorithm params)
            (KDFParams.Salt params) (KDFParams.Time params) (KDFParams.Memory params)
            (KDFParams.Threads params)))) b))) ;;;
      ret params
  end.

Definition sqlite_New (passphrase : string) : ST (backend sdb) Encryptor :=
  if decide (passphrase = "") then
    fail (EMsg "sqlite secrets backend requires a non-empty Passphrase")
  else
    wrap "could not create secrets table" (sql_call (ret tt)) ;;;
    let! params := wrap "could not load KDF params" loadOrInitKDFParams in
    match DeriveKey passphrase params with
    | Err e => fail (EWrap "could not derive key" e)
    | Ok key =>
        match NewEncryptor key with
        | Err e => fail (EWrap "could not create encryptor" e)
        | Ok encryptor => ret encryptor
        end
    end.

Section manager.
Variable encryptor : Encryptor.

Definition cannot_decrypt (scope key : string) : string :=
  "could not decrypt secret " ++ q key ++ " in scope " ++ q scope.
#[local] Arguments cannot_decrypt : simpl never.

Definition sqlite_Get (scope key : string) : ST (backend sdb) string :=
  let! encryptedValue := wrap "could not query secret" (sql_call (gets (fun b =>
    secretRow.encrypted_value <$> sd_secrets (be_data b) !! (scope, key)))) in
  match encryptedValue with
  | None => fail (ESentinel SSecretNotFound)
  | Some c =>
      match Decrypt encryptor c (aadFor scope key) with
      | Err e => fail (EWrap (cannot_decrypt scope key) e)
      | Ok plaintext => ret plaintext
      end
  end.

(** The upsert, with the trigger that counts versions. *)
Definition upsert_secret (scope key c : string) (now : Z) (d : sdb) : sdb :=
  set_secrets (<[(scope, key) :=
    match sd_secrets d !! (scope, key) with
    | Some old => secretRow.mk c (secretRow.version old + 1) now
    | None => secretRow.mk c 1 now
    end]>) d.

Definition sqlite_Set (scope key value : string) : ST (backend sdb) unit :=
  let! encrypted := wrap "could not encrypt secret"
    (drawing (Encrypt encryptor value (aadFor scope key))) in
  wrap "could not store secret" (sql_call (fun b =>
    (Ok tt, set_data (upsert_secret scope key encrypted (Unix (be_now b))) b))).

Definition sqlite_Delete (scope key : string) : ST (backend sdb) unit :=
  let! rows := wrap "could not delete secret" (sql_call (fun b =>
    (Ok (if decide (is_Some (sd_secrets (be_data b) !! (scope, key))) then 1 else 0),
     set_data (set_secrets (delete (scope, key))) b))) in
  if decide (rows = 0) then fail (ESentinel SSecretNotFound) else ret tt.

Definition sqlite_ListByScope (scope : string) : ST (backend sdb) (list string) :=
  wrap "could not list secrets by scope" (sql_call (gets (fun b =>
    sorted_names (scope_keys scope (sd_secrets (be_data b)))))).

Definition sqlite_DeleteByScope (scope : string) : ST (backend sdb) unit :=
  wrap "could not delete secrets by scope" (sql_call (modify
    (set_data (set_secrets (filter (fun kv => kv.1.1 <> scope)))))).

Definition sqlite_manager : SecretsManager (backend sdb) := {|
  mgr_Get := sqlite_Get;
  mgr_Set := sqlite_Set;
  mgr_Delete := sqlite_Delete;
  mgr_ListByScope := sqlite_ListByScope;
  mgr_DeleteByScope := sqlite_DeleteByScope |}.
End manager.
End sqlite.

(** ** S3 *)

(** The records of the objects, their JSON text and the text of a time. The
    law is that of encoding/json on ASCII text. *)
Module secretRecord.
Record t := mk { EncryptedValue : string; Version : string; UpdatedAt : string }.
End secretRecord.

Definition is_ascii (a : ascii) : bool := (nat_of_ascii a <? 128)%nat.
Definition ascii_text (s : string) : bool := all_chars is_ascii s.
Definition ascii_record (r : secretRecord.t) : bool :=
  ascii_text (secretRecord.EncryptedValue r) && ascii_text (secretRecord.Version r)
  && ascii_text (secretRecord.UpdatedAt r).

Class SecretText : Type := {
  marshal_record : secretRecord.t -> string;
  unmarshal_record : string -> result secretRecord.t;
  marshal_kdf : KDFParams -> string;
  unmarshal_kdf : string -> result KDFParams;
  rfc3339 : time -> string;
  unmarshal_marshal_record : forall r,
    ascii_record r = true -> unmarshal_record (marshal_record r) = Ok r;
  unmarshal_marshal_kdf : forall p, unmarshal_kdf (marshal_kdf p) = Ok p;
  rfc3339_ascii : forall t, ascii_text (rfc3339 t) = true }.

Abbreviation bucket := (gmap string string).

(** s3config.Client; the objects under a name are the bucket's. *)

(** The text of an error, as far as the next test reads it: no other sentinel
    has one of the two texts in its own. *)
Fixpoint err_text (e : err) : string :=
  match e with
  | ESentinel SNoSuchKey => "NoSuchKey"
  | ESentinel SS3NotFound => "NotFound"
  | ESentinel SKeyNotFound => "key not found in S3"
  | ESentinel _ => ""
  | EMsg msg => msg
  | EWrap msg e => msg ++ ": " ++ err_text e
  end.
Definition IsNotFound (e : err) : bool :=
  errors_Is e SKeyNotFound || errors_Is e SNoSuchKey || errors_Is e SS3NotFound
  || Contains (err_text e) "NoSuchKey" || Contains (err_text e) "StatusCode: 404".
#[global] Arguments IsNotFound : simpl never.

(** The error of a failed read of [key]. *)
Definition get_failed (key : string) (x : fault) : err :=
  let e := aws_err (f_error x) in
  if f_late x then EWrap ("failed to read object " ++ q key) e
  else if IsNotFound e then EWrap ("get " ++ q key) (ESentinel SKeyNotFound)
  else EWrap ("failed to get object " ++ q key) e.
#[global] Arguments get_failed : simpl never.
(** What S3 answers when there is no object. *)
Definition no_object : fault := mkFault false AwsNoSuchKey.

Definition GetBytes (key : string) : ST (backend bucket) string :=
  call (get_failed key) (fun b =>
    match be_data b !! key with
    | Some data => (Ok data, b)
    | None => (Err (get_failed key no_object), b)
    end).
Definition PutBytes (key data : string) : ST (backend bucket) unit :=
  call (fun x => EWrap ("failed to put object " ++ q key) (aws_err (f_error x)))
    (modify (set_data (<[key := data]>))).
Definition DeleteKey (key : string) : ST (backend bucket) unit :=
  call (fun x => EWrap ("failed to delete object " ++ q key) (aws_err (f_error x)))
    (modify (set_data (delete key))).
(** One listing, whatever the number of its pages, in byte order. *)
Definition ListKeys (prefix : string) : ST (backend bucket) (list string) :=
  call (fun x => EWrap ("failed to list objects with prefix " ++ q prefix) (aws_err (f_error x)))
    (gets (fun b => sorted_names
       (List.filter (fun k => HasPrefix k prefix) (map_to_list (be_data b)).*1))).

(** [fmt.Sscanf(version, "v%d", &num)]: a sign and digits, within 64 bits.
    The blanks it would skip before the number are in no version the code
    writes. *)
Fixpoint take_digits (s : string) : string :=
  match s with
  | String a s => if is_digit a then String a (take_digits s) else ""
  | EmptyString => ""
  end.
Definition scan_int (s : string) : option Z :=
  let '(sign, s) :=
    match s with
    | String a s' => if Ascii.eqb a "-" then ((-1)%Z, s') else if Ascii.eqb a "+" then (1%Z, s') else (1%Z, s)
    | EmptyString => (1%Z, s)
    end in
  let digits := take_digits s in
  if decide (digits = "") then None
  else
    let n := (sign * Z.of_N (read_digits digits 0))%Z in
    if (- 2 ^ 63 <=? n)%Z && (n <? 2 ^ 63)%Z then Some n else None.

Definition incrementVersion (version : string) : string :=
  match version with
  | String a s =>
      if Ascii.eqb a "v" then
        match scan_int s with
        | Some num => "v" ++ Itoa (int64_wrap (num + 1))
        | None => "v1"
        end
      else "v1"
  | EmptyString => "v1"
  end.

Section s3.
Context `{!Crypto, !SecretText}.
(** The client's prefix. *)
Variable Prefix : string.

Definition prefix_parts : list string := if decide (Prefix <> "") then [Prefix] else [].
Definition kdfParamsKey : string :=
  Join (prefix_parts ++ ["secrets"; "__kdf_params__"; "__kdf_params__.json"]) "/".
Definition scopePrefix (scope : string) : string :=
  let escaped := PathEscape <$> Split scope "/" in
  Join (prefix_parts ++ ["secrets"; Join escaped "/"]) "/" ++ "/".
Definition objectKey (scope key : string) : string :=
  scopePrefix scope ++ PathEscape key ++ ".json".

Definition loadOrInitKDFParamsS3 : ST (backend bucket) KDFParams :=
  let! data := attempt (GetBytes kdfParamsKey) in
  match data with
  | Ok data =>
      match unmarshal_kdf data with
      | Err e => fail (EWrap "could not unmarshal KDF params" e)
      | Ok params => ret params
      end
  | Err e =>
      if negb (IsNotFound e) then fail (EWrap "could not fetch KDF params" e)
      else
        let! params := wrap "could not generate KDF params" (drawing DefaultKDFParams) in
        wrap "could not upload KDF params" (PutBytes kdfParamsKey (marshal_kdf params)) ;;;
        ret params
  end.

Definition probeSSE : ST (backend bucket) unit :=
  let sentinelKey := scopePrefix "__probe__" ++ "__sse_check__.json" in
  let! uploadErr := attempt (PutBytes sentinelKey ("{" ++ q "probe" ++ ":true}")) in
  ignore (DeleteKey sentinelKey) ;;;
  match uploadErr with
  | Err e => fail (EWrap "SSE probe upload failed" e)
  | Ok _ => ret tt
  end.

(** [client]: whether the client could be configured. *)
Definition s3_New (client : result unit) (passphrase encryptMode : string)
    : ST (backend bucket) Encryptor :=
  if decide (passphrase = "") then
    fail (EMsg "s3 secrets driver requires Key for application-layer encryption")
  else
    match client with
    | Err e => fail (EWrap "create s3 client" e)
    | Ok _ =>
        let! params := wrap "could not load KDF params from S3" loadOrInitKDFParamsS3 in
        match DeriveKey passphrase params with
        | Err e => fail (EWrap "could not derive key" e)
        | Ok key =>
            match NewEncryptor key with
            | Err e => fail (EWrap "could not create encryptor" e)
            | Ok encryptor =>
                (if decide (encryptMode <> "") then
                   wrap ("s3 secrets SSE probe failed - provider does not support encrypt="
                         ++ q encryptMode) probeSSE
                 else ret tt) ;;;
                ret encryptor
            end
        end
    end.

Definition upload (key : string) (rec : secretRecord.t) : ST (backend bucket) unit :=
  wrap "upload secret" (PutBytes key (marshal_record rec)).

Definition download (key : string) : ST (backend bucket) secretRecord.t :=
  let! data := attempt (GetBytes key) in
  match data with
  | Err e =>
      if IsNotFound e then fail (ESentinel SSecretNotFound)
      else fail (EWrap "could not get secret" e)
  | Ok data =>
      match unmarshal_record data with
      | Err e => fail (EWrap "could not unmarshal secret record" e)
      | Ok rec => ret rec
      end
  end.

Section manager.
Variable encryptor : Encryptor.

Definition s3_Get (scope key : string) : ST (backend bucket) string :=
  let! rec := download (objectKey scope key) in
  match StdDecode (secretRecord.EncryptedValue rec) with
  | None =>
      fail (EWrap ("could not decode encrypted value for " ++ q key ++ " in scope " ++ q scope)
              (EMsg "illegal base64 data"))
  | Some c =>
      match Decrypt encryptor (unbytes c) (aadFor scope key) with
      | Err e => fail (EWrap (cannot_decrypt scope key) e)
      | Ok plaintext => ret plaintext
      end
  end.

Definition s3_Set (scope key value : string) : ST (backend bucket) unit :=
  let! encrypted := wrap "could not encrypt secret"
    (drawing (Encrypt encryptor value (aadFor scope key))) in
  let objKey := objectKey scope key in
  let! existing := attempt (download objKey) in
  let stored version :=
    let! now := gets be_now in
    wrap "could not store secret" (upload objKey
      (secretRecord.mk (StdEncode (bytes encrypted)) version (rfc3339 now))) in
  match existing with
  | Ok rec => stored (incrementVersion (secretRecord.Version rec))
  | Err e =>
      if negb (errors_Is e SSecretNotFound) then
        fail (EWrap "could not check existing secret" e)
      else stored "v1"
  end.

Definition s3_Delete (scope key : string) : ST (backend bucket) unit :=
  let objKey := objectKey scope key in
  download objKey ;;;
  wrap "could not delete secret" (DeleteKey objKey).

(** The name of a secret in the name of its object. *)
Definition object_name (prefix k : string) : string :=
  let name := TrimSuffix (TrimPrefix k prefix) ".json" in
  default name (PathUnescape name).

Definition s3_ListByScope (scope : string) : ST (backend bucket) (list string) :=
  let prefix := scopePrefix scope in
  let! keys := wrap "could not list secrets by scope" (ListKeys prefix) in
  ret (object_name prefix <$> keys).

Definition s3_DeleteByScope (scope : string) : ST (backend bucket) unit :=
  let! keys := wrap "could not list secrets for scope deletion" (ListKeys (scopePrefix scope)) in
  for_each (fun k => wrap ("could not delete secret " ++ q k) (DeleteKey k)) keys.

Definition s3_manager : SecretsManager (backend bucket) := {|
  mgr_Get := s3_Get;
  mgr_Set := s3_Set;
  mgr_Delete := s3_Delete;
  mgr_ListByScope := s3_ListByScope;
  mgr_DeleteByScope := s3_DeleteByScope |}.
End manager.
End s3.

#[local] Arguments objectKey : simpl never.
#[local] Arguments scopePrefix : simpl never.
#[local] Arguments object_name : simpl never.

(** ** No store *)
Definition noop_manager : SecretsManager unit := {|
  mgr_Get := fun _ _ => fail (ESentinel SSecretNotFound);
  mgr_Set := fun _ key _ =>
    fail (EMsg ("no secrets backend configured: cannot set secret " ++ q key));
  mgr_Delete := fun _ _ => fail (ESentinel SSecretNotFound);
  mgr_ListByScope := fun _ => ret [];
  mgr_DeleteByScope := fun _ => ret tt |}.

(** ** The contract: a map from slots to values *)
Abbreviation secret_map := (gmap (string * string) string).

Inductive secret_op : Type :=
  | OpGet (scope key : string)
  | OpSet (scope key value : string)
  | OpDelete (scope key : string)
  | OpList (scope : string)
  | OpDeleteScope (scope : string).

Inductive secret_answer : Type :=
  | AnsValue (value : string)
  | AnsKeys (keys : list string)
  | AnsDone.

Definition op_scope (op : secret_op) : string :=
  match op with
  | OpGet s _ | OpSet s _ _ | OpDelete s _ | OpList s | OpDeleteScope s => s
  end.

Definition run_op {S} `{!SecretsManager S} (op : secret_op) : ST S secret_answer :=
  match op with
  | OpGet scope key => let! v := mgr_Get scope key in ret (AnsValue v)
  | OpSet scope key value => mgr_Set scope key value ;;; ret AnsDone
  | OpDelete scope key => mgr_Delete scope key ;;; ret AnsDone
  | OpList scope => let! l := mgr_ListByScope scope in ret (AnsKeys l)
  | OpDeleteScope scope => mgr_DeleteByScope scope ;;; ret AnsDone
  end.

Definition spec_op (op : secret_op) : ST secret_map secret_answer := fun m =>
  match op with
  | OpGet scope key =>
      (match m !! (scope, key) with
       | Some v => Ok (AnsValue v) | None => Err (ESentinel SSecretNotFound) end, m)
  | OpSet scope key value => (Ok AnsDone, <[(scope, key) := value]> m)
  | OpDelete scope key =>
      (if decide (is_Some (m !! (scope, key))) then Ok AnsDone
       else Err (ESentinel SSecretNotFound), delete (scope, key) m)
  | OpList scope => (Ok (AnsKeys (scope_keys scope m)), m)
  | OpDeleteScope scope => (Ok AnsDone, filter (fun kv => kv.1.1 <> scope) m)
  end.

(** The order of a listing is the store's. *)
Definition same_answer (a b : result secret_answer) : Prop :=
  match a, b with
  | Ok (AnsKeys l), Ok (AnsKeys l') => Permutation l l'
  | _, _ => a = b
  end.

(** What a failed operation may have done: a deletion of a scope, part of its
    work; every other, nothing. *)
Definition interrupted (op : secret_op) (m m' : secret_map) : Prop :=
  match op with
  | OpDeleteScope scope => m' ⊆ m /\ forall k, k.1 <> scope -> m' !! k = m !! k
  | _ => m' = m
  end.

Definition op_failed (r : result secret_answer) : Prop :=
  exists e, r = Err e /\ errors_Is e SSecretNotFound = false.

(** [fine]: nothing is going to fail. *)
Definition op_outcome {S} (holds : S -> secret_map -> Prop) (fine : Prop) (op : secret_op)
    (m : secret_map) (out : result secret_answer * S) : Prop :=
  same_answer out.1 (spec_op op m).1 /\ holds out.2 (spec_op op m).2 \/
  ~ fine /\ op_failed out.1 /\ exists m', interrupted op m m' /\ holds out.2 m'.

(** A read that fails can look like a missing secret: the answer is "secret not
    found", and nothing changed. *)
Definition reads_slot (op : secret_op) : option (string * string) :=
  match op with OpGet scope key | OpDelete scope key => Some (scope, key) | _ => None end.
Definition misled {S} (holds : S -> secret_map -> Prop) (op : secret_op) (m : secret_map)
    (out : result secret_answer * S) : Prop :=
  out.1 = Err (ESentinel SSecretNotFound) /\ holds out.2 m.

(** The names the server itself reads and deletes: no failure of the store is
    mistaken for their absence. *)
Definition server_keys : list string := "share_link_signing_key" :: systemManagedKeys.
Definition may_mislead (op : secret_op) : Prop :=
  exists scope key, reads_slot op = Some (scope, key) /\ key ∉ server_keys.

Class SecretBackend (S : Type) `{!SecretsManager S} : Type := {
  scope_ok : string -> Prop;
  holds : S -> secret_map -> Prop;
  healthy : S -> Prop;
  op_law : forall op s m, scope_ok (op_scope op) -> holds s m ->
    op_outcome holds (healthy s) op m (run_op op s) \/
    ~ healthy s /\ may_mislead op /\ misled holds op m (run_op op s);
  op_healthy : forall op s, healthy s -> healthy (run_op op s).2 }.

(** A sequence of operations. *)
Fixpoint run_ops {S} `{!SecretsManager S} (ops : list secret_op) (s : S)
    : list (result secret_answer) * S :=
  match ops with
  | [] => ([], s)
  | op :: ops =>
      let '(r, s) := run_op op s in
      let '(rs, s) := run_ops ops s in (r :: rs, s)
  end.
Fixpoint spec_ops (ops : list secret_op) (m : secret_map)
    : list (result secret_answer) * secret_map :=
  match ops with
  | [] => ([], m)
  | op :: ops =>
      let '(r, m) := spec_op op m in
      let '(rs, m) := spec_ops ops m in (r :: rs, m)
  end.

Lemma run_ops_refine {S} `{!SecretsManager S, !SecretBackend S} ops : forall s m,
  Forall (fun op => scope_ok (op_scope op)) ops -> healthy s -> holds s m ->
  Forall2 same_answer (run_ops ops s).1 (spec_ops ops m).1 /\
  holds (run_ops ops s).2 (spec_ops ops m).2.
Proof.
  induction ops as [|op ops IH]; intros s m Hops Hfine Hs; [by split; [constructor|]|].
  apply Forall_cons in Hops as [Hop Hops].
  pose proof (op_healthy op s Hfine) as Hfine'.
  destruct (op_law op s m Hop Hs) as [[[Ha Hs']|(Hno & _)]|(Hno & _)]; [|done..].
  cbn [run_ops spec_ops]. destruct (run_op op s) as [r s'], (spec_op op m) as [r' m'].
  cbn [fst snd] in *. specialize (IH s' m' Hops Hfine' Hs') as [IHa IHs].
  destruct (run_ops ops s') as [rs s''], (spec_ops ops m') as [rs' m''].
  split; [by constructor|done].
Qed.

Lemma run_ops_healthy {S} `{!SecretsManager S, !SecretBackend S} ops : forall s,
  healthy s -> healthy (run_ops ops s).2.
Proof.
  induction ops as [|op ops IH]; intros s Hs; [done|]. cbn. pose proof (op_healthy op s Hs) as Ho.
  destruct (run_op op s) as [r s']. cbn in Ho. specialize (IH s' Ho). by destruct (run_ops ops s').
Qed.

(** ** Lemmas on the map and on the calls *)
Section slots.
Context {A : Type}.
Implicit Types (m : gmap (string * string) A).
Lemma elem_of_scope_keys scope m k : k ∈ scope_keys scope m <-> is_Some (m !! (scope, k)).
Proof.
  unfold scope_keys. rewrite list_elem_of_omap. split.
  - intros ([[s k'] x] & Hin & Hk). apply elem_of_map_to_list in Hin.
    destruct (decide (s = scope)) as [->|]; [|done]. simplify_eq. by exists x.
  - intros [x Hx]. exists ((scope, k), x). rewrite elem_of_map_to_list. split; [done|].
    by rewrite decide_True.
Qed.
Lemma NoDup_scope_keys scope m : NoDup (scope_keys scope m).
Proof.
  unfold scope_keys. assert (Hn : NoDup (map_to_list m).*1) by apply NoDup_fst_map_to_list.
  induction (map_to_list m) as [|[[s k] x] l IH]; [constructor|]. cbn in Hn.
  apply NoDup_cons in Hn as [Hnot Hn]. cbn. destruct (decide (s = scope)) as [->|]; [|auto].
  constructor; [|auto]. rewrite list_elem_of_omap. intros ([[s k'] y] & Hin & Hk).
  destruct (decide (s = scope)) as [->|]; [|done]. simplify_eq. apply Hnot.
  apply list_elem_of_fmap. by exists ((scope, k), y).
Qed.
End slots.

Lemma scope_keys_same {A B : Type} (scope : string) (m : gmap (string * string) A) (m' : gmap (string * string) B) :
  (forall k, is_Some (m !! (scope, k)) <-> is_Some (m' !! (scope, k))) ->
  Permutation (scope_keys scope m) (scope_keys scope m').
Proof.
  intros Hs. apply NoDup_Permutation; [apply NoDup_scope_keys..|]. intros k.
  by rewrite !elem_of_scope_keys.
Qed.

Lemma sorted_names_perm l : Permutation (sorted_names l) l.
Proof. apply merge_sort_Permutation. Qed.

(** The calls of a method only use the oracle up. *)
Definition faultless {D} (b b' : backend D) : Prop := be_faults b' ⊆ be_faults b.
#[export] Instance faultless_preorder {D} : PreOrder (@faultless D).
Proof. split; unfold faultless; [intros b|intros b b' b'']; set_solver. Qed.
Lemma faultless_nil {D} (b b' : backend D) : faultless b b' -> be_faults b = [] -> be_faults b' = [].
Proof. unfold faultless. intros Hs Hb. rewrite Hb in Hs. by apply list_nil_subseteq. Qed.

Section faultless.
Context {D : Type}.
Lemma faultless_call {A} failed (f : ST (backend D) A) :
  preserves faultless f -> preserves faultless (call failed f).
Proof.
  intros Hf b. unfold call. destruct b as [d r t [|[x|] fs]]; cbn; [apply Hf|unfold faultless; cbn; set_solver|].
  pose proof (Hf (mkBackend d r t fs)) as Hs. unfold faultless in *. cbn in *. set_solver.
Qed.
Lemma faultless_drawing {A} (m : ST nat A) : preserves (@faultless D) (drawing m).
Proof. intros b. unfold drawing, faultless. destruct (m (be_rand b)). cbn. set_solver. Qed.
Lemma faultless_set_data f : preserves faultless (modify (@set_data D f)).
Proof. intros b. unfold faultless. cbn. set_solver. Qed.
End faultless.
#[export] Hint Resolve faultless_call faultless_drawing faultless_set_data : preserves.

Ltac faultless_tac :=
  repeat match goal with
  | |- forall _, _ => intros
  | |- preserves _ (bind _ _) => apply preserves_bind
  | |- preserves _ (attempt _) => apply preserves_attempt
  | |- preserves _ (ignore _) => apply preserves_ignore
  | |- preserves _ (wrap _ _) => apply preserves_wrap
  | |- preserves _ (for_each _ _) => apply preserves_for_each
  | |- preserves _ (call _ _) => apply faultless_call
  | |- preserves _ (match ?x with _ => _ end) => destruct x
  | |- preserves _ _ =>
      solve [eauto with preserves | intros ?; unfold faultless; cbn; repeat case_match; cbn; set_solver]
  | |- PreOrder _ => apply faultless_preorder
  | |- _ => progress cbv zeta
  end.

(** Run the calls of a method, each carried out or failed by the oracle. *)
Ltac run_calls :=
  autounfold with go_monad;
  unfold sql_call, drawing, GetBytes, PutBytes, DeleteKey, ListKeys; unfold call;
  autounfold with go_monad; cbn;
  repeat match goal with
  | |- context [match be_faults ?b with _ => _ end] => destruct (be_faults b) as [|[] ?] eqn:?
  | fs : list (option fault) |- context [match ?fs' with [] => _ | _ => _ end] =>
      constr_eq fs fs'; destruct fs as [|[] fs]; cbn
  end.

(** The error of a failed call is not that of a missing secret. *)
Lemma aws_err_not_secret x : errors_Is (aws_err x) SSecretNotFound = false.
Proof. by destruct x. Qed.
Ltac failed_answer := eexists; split; [reflexivity|]; cbn; first [reflexivity|assumption|apply aws_err_not_secret].

(** A failed operation that changed nothing. *)
Ltac op_fails m :=
  right; split; [by intros []|]; split; [failed_answer|]; by exists m.

(** ** SQLite keeps the contract *)
Section sqlite_contract.
Context `{!Crypto} (e : Encryptor).
#[local] Instance sqlite_managed : SecretsManager (backend sdb) := sqlite_manager e.

Definition row_holds (slot : string * string) (row : secretRow.t) (v : string) : Prop :=
  Decrypt e (secretRow.encrypted_value row) (aadFor slot.1 slot.2) = Ok v.
Definition sqlite_holds (b : backend sdb) (m : secret_map) : Prop :=
  map_Forall2 row_holds (sd_secrets (be_data b)) m.
Definition random_fine : Prop := forall n k, is_Some (rand_Read n k).
Definition backend_healthy {D} (b : backend D) : Prop := be_faults b = [] /\ random_fine.

Lemma healthy_after {D A} (m : ST (backend D) A) b :
  preserves faultless m -> backend_healthy b -> backend_healthy (m b).2.
Proof. intros Hm [Hf Hr]. split; [|done]. by apply (faultless_nil b). Qed.

Lemma sqlite_op_faultless op : preserves faultless (run_op (S := backend sdb) op).
Proof.
  destruct op;
    cbn [run_op mgr_Get mgr_Set mgr_Delete mgr_ListByScope mgr_DeleteByScope sqlite_managed
      sqlite_manager];
    unfold sqlite_Get, sqlite_Set, sqlite_Delete, sqlite_ListByScope, sqlite_DeleteByScope, sql_call;
    faultless_tac.
Qed.
Lemma sqlite_op_healthy op b :
  backend_healthy b -> backend_healthy (run_op (S := backend sdb) op b).2.
Proof. apply healthy_after, sqlite_op_faultless. Qed.

Ltac sqlite_op :=
  intros Hb; match goal with b : backend sdb |- _ => destruct b as [d r t fs] end;
  cbn [run_op mgr_Get mgr_Set mgr_Delete mgr_ListByScope mgr_DeleteByScope sqlite_managed
    sqlite_manager];
  unfold sqlite_Get, sqlite_Set, sqlite_Delete, sqlite_ListByScope, sqlite_DeleteByScope; run_calls.

Lemma row_cases b m slot :
  sqlite_holds b m ->
  sd_secrets (be_data b) !! slot = None /\ m !! slot = None \/
  exists row v, sd_secrets (be_data b) !! slot = Some row /\ m !! slot = Some v /\
    row_holds slot row v.
Proof.
  intros Hb. specialize (Hb slot). inv Hb; [right; eauto 6|by left].
Qed.

Lemma sqlite_Get_ok scope key b m :
  sqlite_holds b m ->
  op_outcome sqlite_holds (backend_healthy b) (OpGet scope key) m (run_op (OpGet scope key) b).
Proof.
  intros Hb. pose proof (row_cases b m (scope, key) Hb) as Hrow. revert Hb.
  sqlite_op; cbn in Hrow; try op_fails m; left; cbn;
    destruct Hrow as [[-> ->]|(row & v & -> & -> & Hr)]; try done; cbn;
    unfold row_holds in Hr; cbn in Hr; rewrite Hr; done.
Qed.

Lemma Encrypt_cases p aad n :
  (exists c, Encrypt e p aad n = (Ok c, S n) /\ Decrypt e c aad = Ok p) \/
  ~ random_fine /\ Encrypt e p aad n =
    (Err (EWrap "could not generate nonce" (EMsg "random source failed")), S n).
Proof.
  destruct (Encrypt e p aad n) as [[c|err] n'] eqn:He.
  - left. exists c. pose proof (Decrypt_encrypted e p aad c (Encrypt_encrypted _ _ _ _ _ _ He)).
    split; [|done]. unfold Encrypt, bind, wrap, random, ret in He. destruct (rand_Read n nonceSize); simplify_eq/=; done.
  - right. unfold Encrypt, bind, wrap, random, ret in He.
    destruct (rand_Read n nonceSize) eqn:Hr; simplify_eq/=. split; [|done].
    intros Hf. destruct (Hf n nonceSize). congruence.
Qed.

Lemma sqlite_Set_ok scope key value b m :
  sqlite_holds b m ->
  op_outcome sqlite_holds (backend_healthy b) (OpSet scope key value) m
    (run_op (OpSet scope key value) b).
Proof.
  intros Hb. pose proof (Encrypt_cases value (aadFor scope key) (be_rand b)) as Henc. revert Hb.
  sqlite_op; cbn in Henc; destruct Henc as [(c & -> & Hc)|[Hno ->]]; cbn; run_calls;
    try op_fails m; left; (split; [done|]); apply map_Forall2_insert_2; try done;
    unfold row_holds; simpl; by destruct (sd_secrets d !! (scope, key)).
Qed.

Lemma sqlite_Delete_ok scope key b m :
  sqlite_holds b m ->
  op_outcome sqlite_holds (backend_healthy b) (OpDelete scope key) m
    (run_op (OpDelete scope key) b).
Proof.
  intros Hb. pose proof (row_cases b m (scope, key) Hb) as Hrow. revert Hb.
  sqlite_op; cbn in Hrow; try op_fails m; left; cbn;
    (assert (Hd : map_Forall2 row_holds (delete (scope, key) (sd_secrets d)) (delete (scope, key) m))
      by (by apply map_Forall2_delete));
    destruct Hrow as [[-> Hm]|(row & v & -> & Hm & Hr)]; (split; [|exact Hd]); cbn; rewrite Hm; cbn; done.
Qed.

Lemma sqlite_List_ok scope b m :
  sqlite_holds b m ->
  op_outcome sqlite_holds (backend_healthy b) (OpList scope) m (run_op (OpList scope) b).
Proof.
  sqlite_op; try op_fails m; left; (split; [|done]); cbn; rewrite sorted_names_perm;
    apply scope_keys_same; intros k; specialize (Hb (scope, k)); cbn in Hb; inv Hb;
    split; intros []; done.
Qed.

Lemma map_Forall2_filter {A B : Type} (R : string * string -> A -> B -> Prop)
    (P : string * string -> Prop) `{!forall k, Decision (P k)}
    (m : gmap (string * string) A) (m' : gmap (string * string) B) :
  map_Forall2 R m m' ->
  map_Forall2 R (filter (fun kv => P kv.1) m) (filter (fun kv => P kv.1) m').
Proof.
  intros Hm k. rewrite !map_lookup_filter. specialize (Hm k).
  destruct Hm; cbn; [|constructor]. case_guard; constructor; done.
Qed.

Lemma interrupted_refl op m : interrupted op m m.
Proof. by destruct op. Qed.

Lemma sqlite_DeleteScope_ok scope b m :
  sqlite_holds b m ->
  op_outcome sqlite_holds (backend_healthy b) (OpDeleteScope scope) m
    (run_op (OpDeleteScope scope) b).
Proof.
  sqlite_op.
  - left. split; [done|]. exact (map_Forall2_filter row_holds (fun k => k.1 <> scope) _ _ Hb).
  - right. split; [by intros []|]. split; [by eexists|]. exists m.
    split; [apply (interrupted_refl (OpDeleteScope scope))|done].
  - left. split; [done|]. exact (map_Forall2_filter row_holds (fun k => k.1 <> scope) _ _ Hb).
Qed.

Lemma sqlite_op_ok op b m :
  sqlite_holds b m -> op_outcome sqlite_holds (backend_healthy b) op m (run_op op b).
Proof.
  destruct op; [apply sqlite_Get_ok|apply sqlite_Set_ok|apply sqlite_Delete_ok|
    apply sqlite_List_ok|apply sqlite_DeleteScope_ok].
Qed.

#[local] Instance sqlite_backend : SecretBackend (backend sdb).
Proof.
  refine {| scope_ok := fun _ => True; holds := sqlite_holds; healthy := backend_healthy;
            op_healthy := sqlite_op_healthy |}.
  intros op s m _ Hm. left. by apply sqlite_op_ok.
Defined.
End sqlite_contract.

(** ** S3 keeps the contract *)

(** The scopes the server uses. *)
Definition known_scope (scope : string) : Prop :=
  scope = GlobalScope \/ exists id, slashless id = true /\ scope = PipelineScope id.

Section names.
Variable Prefix : string.

Lemma Split_slashless s : slashless s = true -> Split s "/" = [s].
Proof.
  unfold slashless. induction s as [|a s IH]; [done|]. cbn. intros [Ha Hs]%andb_true_iff.
  apply negb_true_iff in Ha. by rewrite Ha, IH.
Qed.
Lemma Split_segment a s :
  slashless a = true -> Split (a ++ "/" ++ s) "/" = a :: Split s "/".
Proof.
  unfold slashless. induction a as [|c a IH]; [done|]. cbn. intros [Hc Ha]%andb_true_iff.
  apply negb_true_iff in Hc. rewrite Hc. cbn in IH. by rewrite IH.
Qed.

Definition scope_path (scope : string) : string := Join (PathEscape <$> Split scope "/") "/".
Definition secrets_root : string := (if decide (Prefix <> "") then Prefix ++ "/" else "") ++ "secrets/".

Lemma scopePrefix_root scope : scopePrefix Prefix scope = secrets_root ++ scope_path scope ++ "/".
Proof.
  unfold scopePrefix, secrets_root, prefix_parts, scope_path.
  destruct (decide (Prefix <> "")); cbn -[Split PathEscape]; rewrite ?append_assoc; done.
Qed.

Lemma scope_path_pipeline id :
  slashless id = true -> scope_path (PipelineScope id) = "pipeline/" ++ PathEscape id.
Proof.
  intros Hid. unfold scope_path, PipelineScope.
  change ("pipeline/" ++ id) with ("pipeline" ++ "/" ++ id).
  rewrite Split_segment, Split_slashless by done. done.
Qed.

(** What comes before the first slash is determined. *)
Lemma segment_inj a b x y :
  slashless a = true -> slashless b = true -> a ++ "/" ++ x = b ++ "/" ++ y -> a = b /\ x = y.
Proof.
  unfold slashless. revert b. induction a as [|c a IH]; intros [|c' b]; cbn [all_chars String.append];
    rewrite ?andb_true_iff; intros Ha Hb He.
  - by injection He.
  - injection He as <- _. by destruct Hb.
  - injection He as -> _. by destruct Ha.
  - injection He as -> He. by destruct (IH b (proj2 Ha) (proj2 Hb) He) as [-> ->].
Qed.

(** Objects of different scopes do not mix. *)
Lemma scope_paths_apart s s' x y :
  known_scope s -> known_scope s' ->
  scope_path s ++ "/" ++ x = scope_path s' ++ "/" ++ y -> s = s' /\ x = y.
Proof.
  intros [->|(id & Hid & ->)] [->|(id' & Hid' & ->)]; rewrite ?scope_path_pipeline by done; intros He.
  - apply append_inj_r in He. by apply (append_inj_r "/") in He.
  - done.
  - done.
  - rewrite !append_assoc in He. apply append_inj_r in He.
    apply segment_inj in He as [He ->]; [|apply PathEscape_slashless..].
    by apply PathEscape_inj in He as ->.
Qed.

Lemma object_in_scope s s' k :
  known_scope s -> known_scope s' ->
  HasPrefix (objectKey Prefix s' k) (scopePrefix Prefix s) = true -> s = s'.
Proof.
  intros Hs Hs' [t Ht]%HasPrefix_inv. unfold objectKey in Ht.
  rewrite !scopePrefix_root, !append_assoc in Ht. apply append_inj_r in Ht.
  by apply scope_paths_apart in Ht as [-> _].
Qed.

Lemma string_rev_append s t acc : string_rev (s ++ t) acc = string_rev t (string_rev s acc).
Proof. revert acc. induction s as [|a s IH]; [done|]. intros acc. apply IH. Qed.
Lemma string_rev_acc s acc : string_rev s acc = string_rev s "" ++ acc.
Proof.
  revert acc. induction s as [|a s IH]; intros acc; [done|]. cbn.
  rewrite IH, (IH (String a "")), append_assoc. done.
Qed.
Lemma string_rev_involutive s : string_rev (string_rev s "") "" = s.
Proof.
  induction s as [|a s IH]; [done|]. cbn.
  by rewrite (string_rev_acc s (String a "")), string_rev_append, IH.
Qed.
Lemma TrimSuffix_append s t : TrimSuffix (s ++ t) t = s.
Proof.
  unfold TrimSuffix. rewrite string_rev_append, (string_rev_acc t), TrimPrefix_append.
  apply string_rev_involutive.
Qed.

Lemma object_name_key s k : object_name (scopePrefix Prefix s) (objectKey Prefix s k) = k.
Proof.
  unfold object_name, objectKey. by rewrite TrimPrefix_append, TrimSuffix_append, PathUnescape_Escape.
Qed.

Lemma objectKey_inj s s' k k' :
  known_scope s -> known_scope s' -> objectKey Prefix s k = objectKey Prefix s' k' ->
  s = s' /\ k = k'.
Proof.
  intros Hs Hs' He. assert (s = s') as <-.
  { apply (object_in_scope s s' k'); [done..|]. rewrite <- He. unfold objectKey.
    apply HasPrefix_append. }
  split; [done|]. by rewrite <- (object_name_key s k), He, object_name_key.
Qed.
End names.

(** What is written in a record is ASCII. *)
Lemma ascii_append s t : ascii_text s = true -> ascii_text t = true -> ascii_text (s ++ t) = true.
Proof. unfold ascii_text. rewrite all_chars_append. by intros -> ->. Qed.

Lemma digit_ascii a : is_digit a = true -> is_ascii a = true.
Proof.
  unfold is_digit, is_ascii. pose proof (nat_ascii_bounded a).
  intros [_ Ha]%andb_true_iff. apply Nat.ltb_lt. unfold Ascii.leb, Ascii.compare in Ha.
  destruct (N.compare_spec (N_of_ascii a) (N_of_ascii "9")) as [He|Hl|Hg]; try done;
    unfold nat_of_ascii; [rewrite He; cbn; lia|]. cbn in Hl. lia.
Qed.

Lemma Itoa_ascii n : ascii_text (Itoa n) = true.
Proof.
  assert (Hpos : forall m, (0 <= m)%Z -> ascii_text (Itoa m) = true).
  { intros m Hm. apply (all_chars_impl is_digit); [apply digit_ascii|by apply Itoa_digits]. }
  destruct (Z.le_gt_cases 0 n) as [Hn|Hn]; [by apply Hpos|].
  destruct n as [|p|p]; try lia. specialize (Hpos (Z.pos p) ltac:(lia)).
  rewrite Itoa_N in Hpos by lia. exact Hpos.
Qed.

Lemma incrementVersion_ascii v : ascii_text (incrementVersion v) = true.
Proof.
  destruct v as [|a v]; [done|]. unfold incrementVersion. destruct (Ascii.eqb a "v"); [|done].
  destruct (scan_int v); [|done]. apply ascii_append; [done|apply Itoa_ascii].
Qed.

Lemma StdEncode_ascii l : ascii_text (StdEncode l) = true.
Proof.
  assert (Hd : forall n k, (0 <= k)%Z -> is_ascii (StdDigit (sextet n k)) = true).
  { intros n k Hk. apply (by_range 64 (fun x => is_ascii (StdDigit x))); [by vm_compute|].
    by apply sextet_range. }
  unfold ascii_text. pattern l. apply threes_ind; clear l; [done|intros a|intros a b|intros a b c l IH];
    cbn [StdEncode all_chars]; cbv zeta; cbn [all_chars]; rewrite !Hd by lia; done.
Qed.

Section s3_contract.
Context `{!Crypto, !SecretText} (Prefix : string) (e : Encryptor).
#[local] Instance s3_managed : SecretsManager (backend bucket) := s3_manager Prefix e.
Notation objectKey := (objectKey Prefix).
Notation scopePrefix := (scopePrefix Prefix).

Definition object_holds (slot : string * string) (data v : string) : Prop :=
  exists rec c, unmarshal_record data = Ok rec /\
    StdDecode (secretRecord.EncryptedValue rec) = Some c /\
    Decrypt e (unbytes c) (aadFor slot.1 slot.2) = Ok v.

(** The objects of a known scope are the values of its slots; what else the
    bucket holds is under other names. *)
Record objects_hold (o : bucket) (m : secret_map) : Prop := {
  oh_slot : forall scope key, known_scope scope ->
    option_Forall2 (object_holds (scope, key)) (o !! objectKey scope key) (m !! (scope, key));
  oh_only : forall scope k, known_scope scope -> is_Some (o !! k) ->
    HasPrefix k (scopePrefix scope) = true -> exists key, k = objectKey scope key }.
Definition s3_holds (b : backend bucket) (m : secret_map) : Prop := objects_hold (be_data b) m.

Lemma objects_insert o m scope key data v :
  known_scope scope -> objects_hold o m -> object_holds (scope, key) data v ->
  objects_hold (<[objectKey scope key := data]> o) (<[(scope, key) := v]> m).
Proof.
  intros Hs [Hslot Honly] Hd. split.
  - intros s k Hs'. destruct (decide ((scope, key) = (s, k))) as [He|Hne].
    + injection He as <- <-. rewrite !lookup_insert_eq. by constructor.
    + assert (Ho : objectKey scope key <> objectKey s k).
      { intros He. apply objectKey_inj in He as [-> ->]; [by apply Hne|done..]. }
      rewrite !lookup_insert_ne by done. by apply Hslot.
  - intros s k Hs' Hk Hp. destruct (decide (k = objectKey scope key)) as [->|Hne].
    + apply object_in_scope in Hp as ->; [by exists key|done..].
    + rewrite lookup_insert_ne in Hk by done. by apply Honly.
Qed.

Lemma objects_delete o m scope key :
  known_scope scope -> objects_hold o m ->
  objects_hold (delete (objectKey scope key) o) (delete (scope, key) m).
Proof.
  intros Hs [Hslot Honly]. split.
  - intros s k Hs'. destruct (decide ((scope, key) = (s, k))) as [He|Hne].
    + injection He as <- <-. rewrite !lookup_delete_eq. constructor.
    + assert (Ho : objectKey scope key <> objectKey s k).
      { intros He. apply objectKey_inj in He as [-> ->]; [by apply Hne|done..]. }
      rewrite !lookup_delete_ne by done. by apply Hslot.
  - intros s k Hs' [x Hx] Hp. apply lookup_delete_Some in Hx as [_ Hx]. by apply (Honly s).
Qed.

(** Removing objects of one scope removes their slots. *)
Lemma objects_filter o m scope (gone : list string) :
  known_scope scope -> objects_hold o m ->
  (forall k, k ∈ gone -> exists key, k = objectKey scope key) ->
  objects_hold (filter (fun kv => kv.1 ∉ gone) o)
    (filter (fun kv => kv.1.1 = scope -> objectKey scope kv.1.2 ∉ gone) m).
Proof.
  intros Hs [Hslot Honly] Hgone. split.
  - intros s k Hs'. rewrite !map_lookup_filter. specialize (Hslot s k Hs').
    destruct Hslot as [data v Hd|]; cbn; [|constructor].
    assert (Hiff : objectKey s k ∉ gone <-> (s = scope -> objectKey scope k ∉ gone)).
    { split; [by intros ? ->|]. intros Hno Hin. destruct (Hgone _ Hin) as [key He].
      apply objectKey_inj in He as [-> _]; [by apply Hno|done..]. }
    destruct (decide (objectKey s k ∉ gone)) as [Hin|Hin].
    + rewrite !option_guard_True by tauto. by constructor.
    + rewrite !option_guard_False by tauto. constructor.
  - intros s k Hs' [x Hx] Hp. apply map_lookup_filter_Some in Hx as [Hx _].
    by apply (Honly s).
Qed.

Lemma object_cases b m scope key :
  known_scope scope -> s3_holds b m ->
  be_data b !! objectKey scope key = None /\ m !! (scope, key) = None \/
  exists data rec c v, be_data b !! objectKey scope key = Some data /\
    m !! (scope, key) = Some v /\ unmarshal_record data = Ok rec /\
    StdDecode (secretRecord.EncryptedValue rec) = Some c /\
    Decrypt e (unbytes c) (aadFor scope key) = Ok v.
Proof.
  intros Hs [Hslot _]. specialize (Hslot scope key Hs). inversion Hslot as [data v Hd Ho Hm|Ho Hm]; [right|by left].
  destruct Hd as (rec & c & ? & ? & ?). by exists data, rec, c, v.
Qed.

Lemma s3_op_faultless op : preserves faultless (run_op (S := backend bucket) op).
Proof.
  destruct op; cbn -[objectKey scopePrefix];
    unfold s3_Get, s3_Set, s3_Delete, s3_ListByScope, s3_DeleteByScope, upload, download, GetBytes, PutBytes,
      DeleteKey, ListKeys; faultless_tac.
Qed.
Lemma s3_op_healthy op b :
  backend_healthy b -> backend_healthy (run_op (S := backend bucket) op b).2.
Proof. apply healthy_after, s3_op_faultless. Qed.

Ltac s3_op :=
  cbn [run_op mgr_Get mgr_Set mgr_Delete mgr_ListByScope mgr_DeleteByScope s3_managed s3_manager];
  unfold s3_Get, s3_Set, s3_Delete, s3_ListByScope, s3_DeleteByScope, upload.

(** The errors of reads. *)
Lemma no_object_missing k : IsNotFound (get_failed k no_object) = true.
Proof. reflexivity. Qed.
Lemma get_failed_not_secret k x : errors_Is (get_failed k x) SSecretNotFound = false.
Proof. unfold get_failed. destruct x as [[] []]; cbn; by repeat case_match. Qed.

(** One of the failures to come is taken for a missing object. *)
Definition misread (k : string) (b : backend bucket) : Prop :=
  exists x, Some x ∈ be_faults b /\ IsNotFound (get_failed k x) = true.
Lemma misread_unhealthy k b : misread k b -> ~ backend_healthy b.
Proof. intros (x & Hx & _) [Hf _]. rewrite Hf in Hx. by apply not_elem_of_nil in Hx. Qed.

(** What [download] finds. *)
Lemma download_cases b m scope key :
  known_scope scope -> s3_holds b m ->
  let '(r, b') := download (objectKey scope key) b in
  be_data b' = be_data b /\ be_rand b' = be_rand b /\
  ((m !! (scope, key) = None /\ r = Err (ESentinel SSecretNotFound)) \/
   (exists rec c v, m !! (scope, key) = Some v /\ r = Ok rec /\
      StdDecode (secretRecord.EncryptedValue rec) = Some c /\
      Decrypt e (unbytes c) (aadFor scope key) = Ok v) \/
   (~ backend_healthy b /\ exists err, r = Err err /\ errors_Is err SSecretNotFound = false) \/
   (misread (objectKey scope key) b /\ r = Err (ESentinel SSecretNotFound))).
Proof.
  intros Hs Hb. pose proof (object_cases b m scope key Hs Hb) as Hc.
  destruct b as [o n t fs0]. cbn in Hc.
  assert (Hfound : (fs0 = [] \/ exists fs, fs0 = None :: fs) ->
    let '(r, b') := download (objectKey scope key) (mkBackend o n t fs0) in
    be_data b' = o /\ be_rand b' = n /\
    ((m !! (scope, key) = None /\ r = Err (ESentinel SSecretNotFound)) \/
     (exists rec c v, m !! (scope, key) = Some v /\ r = Ok rec /\
        StdDecode (secretRecord.EncryptedValue rec) = Some c /\
        Decrypt e (unbytes c) (aadFor scope key) = Ok v))).
  { intros Hfs. unfold download, bind, attempt, GetBytes, call, ret, fail.
    destruct Hfs as [->|(fs & ->)]; cbn;
      (destruct Hc as [[-> Hm]|(data & rec & c & v & -> & Hm & Hu & Hd & He)];
        [rewrite no_object_missing; by split_and!; [..|left]
        |rewrite Hu; split_and!; [done..|]; right; by exists rec, c, v]). }
  destruct fs0 as [|[x|] fs].
  - specialize (Hfound (or_introl eq_refl)). destruct (download _ _) as [r b'].
    destruct Hfound as (? & ? & [Hf|Hf]); split_and!; auto.
  - unfold download, bind, attempt, GetBytes, call, fail. cbn.
    destruct (IsNotFound _) eqn:Hx; (split; [done|split; [done|]]); right; right.
    + right. split; [|done]. exists x. split; [by left|done].
    + left. split; [by intros []|]. eexists. split; [done|]. cbn. apply get_failed_not_secret.
  - specialize (Hfound (or_intror (ex_intro _ fs eq_refl))). destruct (download _ _) as [r b'].
    destruct Hfound as (? & ? & [Hf|Hf]); split_and!; auto.
Qed.

(** A read or a deletion whose lookup failed in the manner of a missing object. *)
Definition misread_op (b : backend bucket) (op : secret_op) : Prop :=
  exists scope key, reads_slot op = Some (scope, key) /\ misread (objectKey scope key) b.
Definition s3_outcome (op : secret_op) (m : secret_map) (b : backend bucket)
    (out : result secret_answer * backend bucket) : Prop :=
  op_outcome s3_holds (backend_healthy b) op m out \/
  misread_op b op /\ misled s3_holds op m out.

Lemma s3_Get_ok scope key b m :
  known_scope scope -> s3_holds b m ->
  s3_outcome (OpGet scope key) m b (run_op (OpGet scope key) b).
Proof.
  intros Hs Hb. pose proof (download_cases b m scope key Hs Hb) as Hc. s3_op.
  autounfold with go_monad. destruct (download _ b) as [r b'].
  destruct Hc as (Hd & _ & [[Hm ->]|[(rec & c & v & Hm & -> & Hc & He)|[(Hno & err & -> & Herr)|[Hmis ->]]]]).
  - left. left. cbn. unfold s3_holds. by rewrite Hm, Hd.
  - left. left. rewrite Hc, He. cbn. unfold s3_holds. by rewrite Hm, Hd.
  - left. right. split; [done|]. split; [by eexists|]. exists m. split; [done|].
    cbn. unfold s3_holds. by rewrite Hd.
  - right. split; [by exists scope, key|]. split; [done|]. cbn. unfold s3_holds. by rewrite Hd.
Qed.

Lemma stored_object scope key value c version now :
  Decrypt e c (aadFor scope key) = Ok value -> ascii_text version = true ->
  object_holds (scope, key)
    (marshal_record (secretRecord.mk (StdEncode (bytes c)) version (rfc3339 now))) value.
Proof.
  intros Hc Hv. exists (secretRecord.mk (StdEncode (bytes c)) version (rfc3339 now)), (bytes c).
  cbn [fst snd secretRecord.EncryptedValue].
  rewrite unmarshal_marshal_record, StdDecode_Encode, unbytes_bytes; [done|apply bytes_range|].
  unfold ascii_record. cbn [secretRecord.EncryptedValue secretRecord.Version secretRecord.UpdatedAt].
  by rewrite StdEncode_ascii, Hv, rfc3339_ascii.
Qed.

(** Storing the new ciphertext, whatever version it has. *)
Lemma s3_stored scope key value c version (b0 b : backend bucket) m :
  known_scope scope -> s3_holds b m -> Decrypt e c (aadFor scope key) = Ok value ->
  ascii_text version = true -> (be_faults b0 = [] -> be_faults b = []) ->
  op_outcome s3_holds (backend_healthy b0) (OpSet scope key value) m
    ((let! now := gets be_now in
      wrap "could not store secret" (wrap "upload secret" (PutBytes (objectKey scope key)
        (marshal_record (secretRecord.mk (StdEncode (bytes c)) version (rfc3339 now))))) ;;;
      ret AnsDone) b).
Proof.
  intros Hs Hb Hc Hv Hf. destruct b as [o n t fs]. cbn in Hf. run_calls.
  - left. split; [done|]. by apply objects_insert, stored_object.
  - right. split; [|split; [failed_answer|by exists m]]. intros [Hno _]. by apply Hf in Hno.
  - left. split; [done|]. by apply objects_insert, stored_object.
Qed.

Lemma faultless_download key : preserves faultless (download key).
Proof. unfold download, GetBytes. faultless_tac. Qed.

Lemma s3_Set_ok scope key value b m :
  known_scope scope -> s3_holds b m ->
  op_outcome s3_holds (backend_healthy b) (OpSet scope key value) m
    (run_op (OpSet scope key value) b).
Proof.
  intros Hs Hb. s3_op.
  pose proof (Encrypt_cases e value (aadFor scope key) (be_rand b)) as [(c & Henc & Hc)|[Hno Henc]].
  2: { autounfold with go_monad. unfold drawing. rewrite Henc. right.
       split; [by intros []|]. split; [failed_answer|]. by exists m. }
  set (b1 := set_rand (S (be_rand b)) b).
  pose proof (download_cases b1 m scope key Hs Hb) as Hdown.
  pose proof (faultless_download (objectKey scope key) b1) as Hf.
  assert (Hdraw : wrap "could not encrypt secret"
    (drawing (Encrypt e value (aadFor scope key))) b = (Ok c, b1)).
  { unfold wrap, drawing. by rewrite Henc. }
  rewrite bind_bind, (bind_ok _ _ _ _ _ Hdraw), bind_bind.
  destruct (download (objectKey scope key) b1) as [r b'] eqn:Hr. cbn in Hf.
  rewrite (bind_ok _ _ _ _ _ (attempt_eq _ _ _ _ Hr)).
  destruct Hdown as (Hd & _ & Hcases).
  assert (Hb' : s3_holds b' m) by (unfold s3_holds; by rewrite Hd).
  destruct Hcases as [[_ ->]|[(rec & ? & ? & _ & -> & _)|[(Hno & err & -> & Herr)|[_ ->]]]].
  - apply s3_stored; try done. exact (faultless_nil _ _ Hf).
  - apply s3_stored; try done; [apply incrementVersion_ascii|exact (faultless_nil _ _ Hf)].
  - rewrite Herr. right. split; [intros [Hfine Hrand]; by apply Hno|].
    split; [failed_answer|]. by exists m.
  - apply s3_stored; try done. exact (faultless_nil _ _ Hf).
Qed.

Lemma s3_Delete_ok scope key b m :
  known_scope scope -> s3_holds b m ->
  s3_outcome (OpDelete scope key) m b (run_op (OpDelete scope key) b).
Proof.
  intros Hs Hb. s3_op. pose proof (download_cases b m scope key Hs Hb) as Hdown.
  pose proof (faultless_download (objectKey scope key) b) as Hf.
  rewrite bind_bind. destruct (download (objectKey scope key) b) as [r b'] eqn:Hr. cbn in Hf.
  destruct Hdown as (Hd & _ & Hcases).
  assert (Hb' : s3_holds b' m) by (unfold s3_holds; by rewrite Hd).
  destruct Hcases as [[Hm ->]|[(rec & ? & ? & Hm & -> & _)|[(Hno & err & -> & Herr)|[Hmis ->]]]].
  - rewrite (bind_err _ _ _ _ _ Hr). left. left. cbn. rewrite Hm. split; [done|]. by rewrite delete_id.
  - left. rewrite (bind_ok _ _ _ _ _ Hr). clear Hr Hd. destruct b' as [o n t fs].
    assert (Hdel : s3_holds (mkBackend (delete (objectKey scope key) o) n t fs)
      (delete (scope, key) m)) by (by apply objects_delete).
    run_calls; [left; split; [|exact Hdel]|right|left; split; [|exact Hdel]];
      try (cbn; by rewrite Hm).
    split; [intros [Hno _]; by apply (faultless_nil b) in Hf|]. split; [failed_answer|]. by exists m.
  - rewrite (bind_err _ _ _ _ _ Hr). left. right. split; [done|]. split; [failed_answer|]. by exists m.
  - rewrite (bind_err _ _ _ _ _ Hr). right. split; [by exists scope, key|]. by split.
Qed.

(** The objects of a scope. *)
Definition scope_objects (scope : string) (o : bucket) : list string :=
  sorted_names (List.filter (fun k => HasPrefix k (scopePrefix scope)) (map_to_list o).*1).

Lemma elem_of_scope_objects scope o k :
  k ∈ scope_objects scope o <-> is_Some (o !! k) /\ HasPrefix k (scopePrefix scope) = true.
Proof.
  unfold scope_objects. rewrite sorted_names_perm.
  rewrite list_elem_of_In, List.filter_In, <- list_elem_of_In, list_elem_of_fmap.
  split.
  - intros [([k' x] & -> & Hin%elem_of_map_to_list) Hp]. split; [by exists x|done].
  - intros [[x Hx] Hp]. split; [|done]. exists (k, x). by rewrite elem_of_map_to_list.
Qed.

Lemma NoDup_scope_objects scope o : NoDup (scope_objects scope o).
Proof.
  unfold scope_objects. rewrite sorted_names_perm. apply NoDup_ListNoDup, List.NoDup_filter, NoDup_ListNoDup.
  apply NoDup_fst_map_to_list.
Qed.

Lemma scope_objects_slots scope o m k :
  known_scope scope -> objects_hold o m ->
  k ∈ scope_objects scope o <-> exists key, k = objectKey scope key /\ is_Some (m !! (scope, key)).
Proof.
  intros Hs [Hslot Honly]. rewrite elem_of_scope_objects. split.
  - intros [Hk Hp]. destruct (Honly scope k Hs Hk Hp) as [key ->]. exists key. split; [done|].
    specialize (Hslot scope key Hs). destruct Hk as [x Hx]. rewrite Hx in Hslot. inv Hslot. done.
  - intros (key & -> & [v Hv]). specialize (Hslot scope key Hs). rewrite Hv in Hslot. split.
    + inv Hslot. done.
    + unfold objectKey. apply HasPrefix_append.
Qed.

Lemma listed_names scope o m :
  known_scope scope -> objects_hold o m ->
  Permutation (object_name (scopePrefix scope) <$> scope_objects scope o) (scope_keys scope m).
Proof.
  intros Hs Ho. apply NoDup_Permutation; [|apply NoDup_scope_keys|].
  - apply NoDup_fmap_2_strong; [|apply NoDup_scope_objects].
    intros x y Hx Hy. rewrite (scope_objects_slots scope o m) in Hx, Hy by done.
    destruct Hx as (k & -> & _), Hy as (k' & -> & _). rewrite !object_name_key. by intros ->.
  - intros key. rewrite list_elem_of_fmap, elem_of_scope_keys. split.
    + intros (k & -> & Hk). rewrite (scope_objects_slots scope o m) in Hk by done.
      destruct Hk as (key & -> & Hk). by rewrite object_name_key.
    + intros Hk. exists (objectKey scope key). rewrite object_name_key. split; [done|].
      rewrite (scope_objects_slots scope o m) by done. by exists key.
Qed.

Lemma s3_List_ok scope b m :
  known_scope scope -> s3_holds b m ->
  op_outcome s3_holds (backend_healthy b) (OpList scope) m (run_op (OpList scope) b).
Proof.
  intros Hs Hb. s3_op. destruct b as [o n t fs]. pose proof (listed_names scope o m Hs Hb).
  run_calls; [by left|op_fails m|by left].
Qed.

(** A sequence of deletions: all of them, or the ones before the first failure. *)
Lemma delete_objects (l : list string) : forall b : backend bucket,
  exists gone, gone ⊆ l /\
    be_data (for_each (fun k => wrap ("could not delete secret " ++ q k) (DeleteKey k)) l b).2 =
      filter (fun kv => kv.1 ∉ gone) (be_data b) /\
    let r := (for_each (fun k => wrap ("could not delete secret " ++ q k) (DeleteKey k)) l b).1 in
    (r = Ok tt /\ gone = l \/
     be_faults b <> [] /\ exists e, r = Err e /\ errors_Is e SSecretNotFound = false).
Proof.
  induction l as [|k l IH]; intros b.
  { exists []. split; [done|]. cbn. split; [|by left]. symmetry.
    apply map_filter_id. intros. apply not_elem_of_nil. }
  assert (Hnext : forall fs, (be_faults b = [] -> fs = []) -> exists gone, gone ⊆ k :: l /\
    let out := for_each (fun k => wrap ("could not delete secret " ++ q k) (DeleteKey k)) l
      (set_data (delete k) (set_be_faults fs b)) in
    be_data out.2 = filter (fun kv => kv.1 ∉ gone) (be_data b) /\
    (out.1 = Ok tt /\ gone = k :: l \/
     be_faults b <> [] /\ exists e, out.1 = Err e /\ errors_Is e SSecretNotFound = false)).
  { intros fs Hfs. destruct (IH (set_data (delete k) (set_be_faults fs b))) as (gone & Hin & Hd & Hr).
    exists (k :: gone). split; [set_solver|]. cbn zeta. split.
    - rewrite Hd. cbn. apply map_eq. intros i. rewrite !map_lookup_filter.
      destruct (decide (i = k)) as [->|Hne].
      + rewrite lookup_delete_eq. cbn. destruct (be_data b !! k); [|done]. cbn.
        by rewrite option_guard_False by set_solver.
      + rewrite lookup_delete_ne by done. destruct (be_data b !! i); [|done]. cbn.
        apply option_guard_iff. set_solver.
    - destruct Hr as [[-> ->]|[Hno Herr]]; [by left|right]. split; [|done].
      intros Hb. apply Hno. cbn. by apply Hfs. }
  cbn [for_each]. unfold bind at 1 2, wrap at 1 3, DeleteKey at 1 3, call.
  destruct b as [o n t [|[] fs]]; cbn [be_faults].
  - apply (Hnext []). done.
  - exists []. split; [set_solver|]. cbn. split.
    + symmetry. apply map_filter_id. intros. apply not_elem_of_nil.
    + right. split; [done|]. failed_answer.
  - apply (Hnext fs). done.
Qed.

(** The slots that are left when some objects of the scope are gone. *)
Definition slots_left (scope : string) (gone : list string) (m : secret_map) : secret_map :=
  filter (fun kv => kv.1.1 = scope -> objectKey scope kv.1.2 ∉ gone) m.

Lemma slots_left_all scope o m :
  known_scope scope -> objects_hold o m ->
  slots_left scope (scope_objects scope o) m = filter (fun kv => kv.1.1 <> scope) m.
Proof.
  intros Hs Ho. unfold slots_left. apply map_filter_ext. intros [s k] v Hm. cbn. split.
  - intros Hg ->. apply (Hg eq_refl). rewrite (scope_objects_slots scope o m) by done.
    exists k. split; [done|]. by exists v.
  - by intros ? ->.
Qed.

Lemma slots_left_interrupted scope gone m :
  interrupted (OpDeleteScope scope) m (slots_left scope gone m).
Proof.
  split; [apply map_filter_subseteq|]. intros [s k] Hne. unfold slots_left.
  rewrite map_lookup_filter. destruct (m !! (s, k)); [|done]. cbn.
  by rewrite option_guard_True by (intros ->; done).
Qed.

Lemma s3_DeleteScope_ok scope b m :
  known_scope scope -> s3_holds b m ->
  op_outcome s3_holds (backend_healthy b) (OpDeleteScope scope) m
    (run_op (OpDeleteScope scope) b).
Proof.
  intros Hs Hb. s3_op. rewrite bind_bind.
  assert (Hdel : forall b', be_data b' = be_data b -> (be_faults b = [] -> be_faults b' = []) ->
    op_outcome s3_holds (backend_healthy b) (OpDeleteScope scope) m
      ((for_each (fun k => wrap ("could not delete secret " ++ q k) (DeleteKey k))
          (scope_objects scope (be_data b)) ;;; ret AnsDone) b')).
  { intros b' Hd Hf. destruct (delete_objects (scope_objects scope (be_data b)) b')
      as (gone & Hin & Hgone & Hr).
    assert (Hleft : s3_holds (for_each (fun k => wrap ("could not delete secret " ++ q k)
      (DeleteKey k)) (scope_objects scope (be_data b)) b').2 (slots_left scope gone m)).
    { unfold s3_holds. rewrite Hgone, Hd. apply objects_filter; [done..|].
      intros k Hk%Hin. apply (scope_objects_slots scope _ m) in Hk as (key & -> & _); [|done..].
      by exists key. }
    unfold bind. destruct (for_each _ _ b') as [r b'']. cbn in Hr, Hleft.
    destruct Hr as [[-> ->]|(Hno & err & -> & Herr)].
    - left. split; [done|]. cbn. by rewrite <- (slots_left_all scope (be_data b)).
    - right. split; [intros [Hfine _]; by apply Hno, Hf|]. split; [failed_answer|].
      exists (slots_left scope gone m). split; [apply slots_left_interrupted|done]. }
  unfold bind at 1, wrap at 1, ListKeys, call. destruct b as [o n t [|[] fs]]; cbn [be_faults].
  - by apply Hdel.
  - right. split; [by intros []|]. split; [failed_answer|]. exists m.
    split; [apply (interrupted_refl (OpDeleteScope scope))|done].
  - by apply Hdel.
Qed.

Lemma s3_op_ok op b m :
  known_scope (op_scope op) -> s3_holds b m -> s3_outcome op m b (run_op op b).
Proof.
  intros Hs Hb. destruct op; cbn [op_scope] in Hs;
    [by apply s3_Get_ok|left; by apply s3_Set_ok|by apply s3_Delete_ok|
     left; by apply s3_List_ok|left; by apply s3_DeleteScope_ok].
Qed.

(** S3 as a backend, for the scopes in use: none of the failures to come can be
    taken for the absence of one of the server's own secrets. *)
Section instance.
Context (used : string -> Prop) (used_known : forall scope, used scope -> known_scope scope).

Definition reads_clear (b : backend bucket) : Prop :=
  forall x scope key, Some x ∈ be_faults b -> used scope -> key ∈ server_keys ->
    IsNotFound (get_failed (objectKey scope key) x) = false.
Definition s3_keeps (b : backend bucket) (m : secret_map) : Prop := s3_holds b m /\ reads_clear b.

Lemma reads_clear_after b b' : faultless b b' -> reads_clear b -> reads_clear b'.
Proof. intros Hf Hb x scope key Hx. by apply Hb, Hf. Qed.
Lemma reads_clear_nil b : be_faults b = [] -> reads_clear b.
Proof. intros Hf x scope key Hx. rewrite Hf in Hx. by apply not_elem_of_nil in Hx. Qed.

#[local] Instance s3_backend : SecretBackend (backend bucket).
Proof.
  refine {| scope_ok := used; holds := s3_keeps; healthy := backend_healthy;
            op_healthy := s3_op_healthy |}.
  intros op b m Hs [Hb Hclear].
  pose proof (reads_clear_after _ _ (s3_op_faultless op b) Hclear) as Hafter.
  destruct (s3_op_ok op b m (used_known _ Hs) Hb)
    as [[[Ha Hh]|(Hno & Hf & m' & Hi & Hh)]|[(scope & key & Hop & Hmis) [Ha Hh]]].
  - left. left. by split; [|split].
  - left. right. split; [done|]. split; [done|]. by exists m'.
  - right. split; [by eapply misread_unhealthy|]. split; [|by split; [|split]].
    exists scope, key. split; [done|]. intros Hkey. destruct Hmis as (x & Hx & Hmis).
    assert (used scope) as Hu by (by destruct op; simplify_eq/=).
    by rewrite (Hclear x scope key Hx Hu Hkey) in Hmis.
Defined.
End instance.
End s3_contract.

(** ** The contract, of both stores *)
Section contract.
Context `{!Crypto, !SecretText}.

(** C17: both stores are a map. Whatever sequence of reads, writes, deletions
    and listings is run, while nothing fails, SQLite and S3 answer as a map
    from slots to values would, up to the order of a listing, and go on
    representing it; S3 for the scopes the server uses. *)
Theorem managers_refine_map (e : Encryptor) (Prefix : string) (ops : list secret_op) (m : secret_map) :
  random_fine ->
  (forall b : backend sdb, be_faults b = [] -> sqlite_holds e b m ->
     let out := run_ops (SecretsManager0 := sqlite_manager e) ops b in
     Forall2 same_answer out.1 (spec_ops ops m).1 /\
     sqlite_holds e out.2 (spec_ops ops m).2) /\
  (forall b : backend bucket, be_faults b = [] -> s3_holds Prefix e b m ->
     Forall (fun op => known_scope (op_scope op)) ops ->
     let out := run_ops (SecretsManager0 := s3_manager Prefix e) ops b in
     Forall2 same_answer out.1 (spec_ops ops m).1 /\
     s3_holds Prefix e out.2 (spec_ops ops m).2).
Proof.
  intros Hr. split.
  - intros b Hf Hb. apply (run_ops_refine (SecretsManager0 := sqlite_manager e)
      (SecretBackend0 := sqlite_backend e) ops b m); [by apply Forall_true|done|done].
  - intros b Hf Hb Hops.
    destruct (run_ops_refine (SecretsManager0 := s3_manager Prefix e)
      (SecretBackend0 := s3_backend Prefix e known_scope (fun _ Hs => Hs)) ops b m) as [Ha [Hh _]];
      [done|done|split; [done|by apply reads_clear_nil]|done].
Qed.

(** C18: what a failure can do. From any state of either store, whatever calls
    fail with whatever errors, an operation answers and acts as on the map, or
    answers an error that is not "secret not found" and has changed nothing,
    except that the deletion of a scope may have removed some of that scope's
    secrets. On S3 there is a third case, and only for a read or a deletion: a
    lookup that failed with an error that looks like a missing object is
    answered "secret not found", and nothing changed. *)
Theorem managers_fail_safely (e : Encryptor) (Prefix : string) (op : secret_op) (m : secret_map) :
  (forall b : backend sdb, sqlite_holds e b m ->
     op_outcome (sqlite_holds e) (backend_healthy b) op m
       (run_op (SecretsManager0 := sqlite_manager e) op b)) /\
  (forall b : backend bucket, known_scope (op_scope op) -> s3_holds Prefix e b m ->
     let out := run_op (SecretsManager0 := s3_manager Prefix e) op b in
     op_outcome (s3_holds Prefix e) (backend_healthy b) op m out \/
     (exists scope key x, reads_slot op = Some (scope, key) /\ Some x ∈ be_faults b /\
        IsNotFound (get_failed (objectKey Prefix scope key) x) = true) /\
     out.1 = Err (ESentinel SSecretNotFound) /\ s3_holds Prefix e out.2 m).
Proof.
  split.
  - intros b Hb. by apply sqlite_op_ok.
  - intros b Hs Hb. destruct (s3_op_ok Prefix e op b m Hs Hb) as [?|[(scope & key & Hop & x & Hx & Hmis) Hm]];
      [by left|right]. split; [by exists scope, key, x|exact Hm].
Qed.
End contract.

Lemma GetBytes_ok k (b : backend bucket) data b' :
  GetBytes k b = (Ok data, b') -> be_data b' = be_data b /\ be_data b !! k = Some data.
Proof.
  destruct b as [o n t [|[x|] fs]]; unfold GetBytes, call; cbn; try done;
    destruct (o !! k); try done; by intros [= <- <-].
Qed.

(** ** Authenticity *)
Section authenticity.
Context `{!Crypto, !SecretText}.

(** A ciphertext is read only where it was written. A ciphertext made for
    one slot and found in another, whoever moved it there, is never decrypted
    by either store; in its own slot it gives the value it was made of. *)
Theorem ciphertexts_stay_in_place (e : Encryptor) (Prefix scope key scope0 key0 v0 c : string) :
  no_NUL scope = true -> no_NUL scope0 = true -> encrypted e v0 (aadFor scope0 key0) c ->
  (forall (b : backend sdb) row v,
     sd_secrets (be_data b) !! (scope, key) = Some row -> secretRow.encrypted_value row = c ->
     (sqlite_Get e scope key b).1 = Ok v -> scope0 = scope /\ key0 = key /\ v = v0) /\
  (forall (b : backend bucket) data rec v,
     be_data b !! objectKey Prefix scope key = Some data -> unmarshal_record data = Ok rec ->
     secretRecord.EncryptedValue rec = StdEncode (bytes c) ->
     (s3_Get Prefix e scope key b).1 = Ok v -> scope0 = scope /\ key0 = key /\ v = v0).
Proof.
  intros Hs Hs0 Henc.
  assert (Hdec : forall v, Decrypt e c (aadFor scope key) = Ok v ->
    scope0 = scope /\ key0 = key /\ v = v0).
  { intros v Hv. destruct (Decrypt_authentic _ _ _ _ _ _ Henc Hv) as [Ha ->].
    by destruct (aadFor_inj _ _ _ _ Hs Hs0 Ha) as [-> ->]. }
  split.
  - intros [d r t fs] row v Hrow <-. cbn in Hrow. unfold sqlite_Get. run_calls; try done;
      rewrite Hrow; cbn; destruct (Decrypt e _ _) eqn:Hd; try done; intros [= <-]; by apply Hdec.
  - intros b data rec v Hdata Hrec He. unfold s3_Get, download, bind, attempt.
    destruct (GetBytes _ b) as [[data'|err] b'] eqn:Hg; [|cbv beta iota; by destruct (IsNotFound err)].
    apply GetBytes_ok in Hg as [_ Hg]. rewrite Hdata in Hg. injection Hg as <-.
    rewrite Hrec. unfold ret. rewrite He, StdDecode_Encode, unbytes_bytes by apply bytes_range.
    destruct (Decrypt e _ _) eqn:Hd; try done. intros [= <-]. by apply Hdec.
Qed.
End authenticity.

(** ** Restarts *)
Section restart.
Context `{!Crypto, !SecretText}.

(** *** SQLite: no operation touches the parameters of the key. *)
Definition same_kdf (b b' : backend sdb) : Prop := sd_kdf (be_data b') = sd_kdf (be_data b).
#[local] Instance same_kdf_preorder : PreOrder same_kdf.
Proof. split; unfold same_kdf; [intros b|intros b b' b'']; congruence. Qed.

Lemma sqlite_op_kdf e op :
  preserves same_kdf (run_op (SecretsManager0 := sqlite_manager e) op).
Proof.
  intros [d r t fs]. unfold same_kdf. destruct op;
    cbn [run_op mgr_Get mgr_Set mgr_Delete mgr_ListByScope mgr_DeleteByScope sqlite_manager];
    unfold sqlite_Get, sqlite_Set, sqlite_Delete, sqlite_ListByScope, sqlite_DeleteByScope;
    autounfold with go_monad; unfold drawing, sql_call; try destruct (Encrypt _ _ _ _) as [[]];
    unfold call; cbn; destruct fs as [|[] fs]; cbn; repeat case_match; simplify_eq/=; done.
Qed.

Lemma preserves_ops {S} `{!SecretsManager S} (R : S -> S -> Prop) `{!PreOrder R} ops :
  (forall op, op ∈ ops -> preserves R (run_op op)) -> forall s, R s (run_ops ops s).2.
Proof.
  induction ops as [|op ops IH]; intros Hop s; [reflexivity|]. cbn.
  pose proof (Hop op ltac:(left) s) as H1. destruct (run_op op s) as [r s']. cbn in H1.
  specialize (IH ltac:(intros ? ?; apply Hop; by right) s').
  destruct (run_ops ops s'). cbn in *. by etrans.
Qed.

(** What a start reads or writes first. *)
Definition row_params (row : kdfRow.t) : KDFParams :=
  KDFParams.mk (kdfRow.algorithm row) (kdfRow.salt row) (kdfRow.time_ row) (kdfRow.memory row)
    (kdfRow.threads row) 32.

Lemma sqlite_load b params b' :
  loadOrInitKDFParams b = (Ok params, b') ->
  sd_secrets (be_data b') = sd_secrets (be_data b) /\
  exists row, sd_kdf (be_data b') = Some row /\ params = row_params row /\
    (sd_kdf (be_data b) = Some row \/
     sd_kdf (be_data b) = None /\ kdfRow.salt row <> "").
Proof.
  destruct b as [[m [row|]] r t fs]; unfold loadOrInitKDFParams, DefaultKDFParams, random; run_calls;
    try done; try (intros [= <- <-]; split; [done|]; exists row; auto; fail);
    destruct (rand_Read r 16) as [salt|] eqn:Hr; cbn; try done; run_calls; try done;
    intros [= <- <-]; (split; [done|]); eexists; (split; [done|split; [done|]]);
    right; (split; [done|]); cbn; intros ->; by apply rand_Read_length in Hr.
Qed.

(** The key is made of the passphrase and the parameters. *)
Definition key_of (passphrase : string) (params : KDFParams) : result Encryptor :=
  match DeriveKey passphrase params with
  | Err e => Err (EWrap "could not derive key" e)
  | Ok key =>
      match NewEncryptor key with
      | Err e => Err (EWrap "could not create encryptor" e)
      | Ok encryptor => Ok encryptor
      end
  end.

Lemma sqlite_New_inv passphrase b e b' :
  sqlite_New passphrase b = (Ok e, b') ->
  passphrase <> "" /\ sd_secrets (be_data b') = sd_secrets (be_data b) /\
  exists row, sd_kdf (be_data b') = Some row /\ key_of passphrase (row_params row) = Ok e /\
    (sd_kdf (be_data b) = Some row \/ sd_kdf (be_data b) = None).
Proof.
  unfold sqlite_New. destruct (decide (passphrase = "")) as [|Hp]; [done|]. intros He.
  split; [done|]. revert He. unfold bind at 1, wrap at 1.
  destruct (sql_call (ret tt) b) as [[[]|err] b1] eqn:Hs; [|done].
  assert (Hd : be_data b1 = be_data b).
  { revert Hs. unfold sql_call, call, ret. destruct b as [d r t [|[] fs]]; cbn;
      intros [= <-]; done. }
  rewrite <- Hd. clear Hs Hd b. unfold bind at 1, wrap at 1.
  destruct (loadOrInitKDFParams b1) as [[params|err] b2] eqn:Hl; [|done].
  apply sqlite_load in Hl as (Hm & row & Hrow & -> & Hor). intros He.
  assert (b' = b2 /\ key_of passphrase (row_params row) = Ok e) as [-> Hk].
  { unfold key_of. destruct (DeriveKey _ _) as [key|]; [|done].
    destruct (NewEncryptor key); [|done]. by injection He as <- <-. }
  split; [done|]. exists row. split; [done|]. split; [done|]. tauto.
Qed.

Lemma sqlite_New_again passphrase row e b :
  passphrase <> "" -> key_of passphrase (row_params row) = Ok e ->
  sd_kdf (be_data b) = Some row -> be_faults b = [] -> sqlite_New passphrase b = (Ok e, b).
Proof.
  intros Hp Hk Hrow Hf. unfold sqlite_New. rewrite decide_False by done.
  unfold loadOrInitKDFParams, sql_call, call. autounfold with go_monad. rewrite Hf. cbn.
  rewrite Hf, Hrow. unfold key_of, row_params in Hk.
  destruct (DeriveKey passphrase _) as [key|]; [|done]. by destruct (NewEncryptor key); simplify_eq.
Qed.

(** *** S3: the object of the parameters is in no scope. *)
Definition agree_on (P : string -> Prop) (b b' : backend bucket) : Prop :=
  forall k, P k -> be_data b' !! k = be_data b !! k.
#[local] Instance agree_on_preorder P : PreOrder (agree_on P).
Proof. split; unfold agree_on; [done|]. intros b b' b'' H1 H2 k Hk. by rewrite H2, H1. Qed.

Section agree.
Variable P : string -> Prop.
Lemma agree_call {A} failed (f : ST (backend bucket) A) :
  preserves (agree_on P) f -> preserves (agree_on P) (call failed f).
Proof.
  intros Hf b. unfold call. destruct b as [d r t [|[] fs]]; cbn; [apply Hf|done|].
  intros k Hk. by rewrite (Hf _ k Hk).
Qed.
Lemma agree_Put k data : ~ P k -> preserves (agree_on P) (PutBytes k data).
Proof.
  intros Hk. apply agree_call. intros b k' Hk'. cbn. apply lookup_insert_ne. by intros ->.
Qed.
Lemma agree_Delete k : ~ P k -> preserves (agree_on P) (DeleteKey k).
Proof.
  intros Hk. apply agree_call. intros b k' Hk'. cbn. apply lookup_delete_ne. by intros ->.
Qed.
Lemma agree_Get k : preserves (agree_on P) (GetBytes k).
Proof. apply agree_call. intros b. by destruct (be_data b !! k). Qed.
Lemma agree_List k : preserves (agree_on P) (ListKeys k).
Proof. apply agree_call. intros b. done. Qed.
Lemma agree_drawing {A} (m : ST nat A) : preserves (agree_on P) (drawing m).
Proof. intros b. unfold drawing. by destruct (m (be_rand b)). Qed.
End agree.

Ltac agree_tac :=
  repeat match goal with
  | |- forall _, _ => intros
  | |- preserves _ (bind _ _) => apply preserves_bind
  | |- preserves _ (attempt _) => apply preserves_attempt
  | |- preserves _ (ignore _) => apply preserves_ignore
  | |- preserves _ (wrap _ _) => apply preserves_wrap
  | |- preserves _ (GetBytes _) => apply agree_Get
  | |- preserves _ (ListKeys _) => apply agree_List
  | |- preserves _ (drawing _) => apply agree_drawing
  | |- preserves _ (PutBytes _ _) => apply agree_Put
  | |- preserves _ (DeleteKey _) => apply agree_Delete
  | |- preserves _ (match ?x with _ => _ end) => destruct x
  | |- PreOrder _ => apply agree_on_preorder
  | |- preserves _ (ret _) => intros ? ? ?; reflexivity
  | |- preserves _ (fail _) => intros ? ? ?; reflexivity
  | |- preserves _ (gets _) => intros ? ? ?; reflexivity
  | |- _ => progress cbv zeta
  end.

Lemma GetBytes_found k (b : backend bucket) data err b' :
  be_data b !! k = Some data -> ~ misread k b -> GetBytes k b = (Err err, b') ->
  IsNotFound err = false.
Proof.
  intros Hd Hno. destruct b as [o n t [|[x|] fs]]; unfold GetBytes, call; cbn in *; try (by rewrite Hd).
  intros [= <- _]. apply not_true_iff_false. intros Hx. apply Hno. exists x. split; [by left|done].
Qed.
Lemma PutBytes_ok k data (b : backend bucket) b' :
  PutBytes k data b = (Ok tt, b') -> be_data b' = <[k := data]> (be_data b).
Proof.
  destruct b as [o n t [|[] fs]]; unfold PutBytes, call, modify; cbn; try done; by intros [= <-].
Qed.

Section s3_restart.
Variable Prefix : string.
Notation kdfKey := (kdfParamsKey Prefix).

(** The names of the server's own objects begin with two underscores. *)
Lemma reserved_foreign scope t :
  known_scope scope -> HasPrefix (secrets_root Prefix ++ "__" ++ t) (scopePrefix Prefix scope) = false.
Proof.
  intros Hs. apply not_true_iff_false. intros [x Hx]%HasPrefix_inv.
  rewrite scopePrefix_root, append_assoc in Hx. apply append_inj_r in Hx.
  destruct Hs as [->|(id & Hid & ->)]; [done|]. by rewrite scope_path_pipeline in Hx.
Qed.
Lemma kdfKey_reserved : kdfKey = secrets_root Prefix ++ "__" ++ "kdf_params__/__kdf_params__.json".
Proof.
  unfold kdfParamsKey, secrets_root, prefix_parts. destruct (decide (Prefix <> "")); [|done].
  cbn. by rewrite !append_assoc.
Qed.
Lemma probeKey_reserved :
  scopePrefix Prefix "__probe__" ++ "__sse_check__.json" =
    secrets_root Prefix ++ "__" ++ "probe__/__sse_check__.json".
Proof. rewrite scopePrefix_root, append_assoc. reflexivity. Qed.

Lemma objectKey_not_kdf scope key : known_scope scope -> kdfKey <> objectKey Prefix scope key.
Proof.
  intros Hs He. pose proof (reserved_foreign scope "kdf_params__/__kdf_params__.json" Hs) as Hf.
  rewrite <- kdfKey_reserved, He in Hf. unfold objectKey in Hf. by rewrite HasPrefix_append in Hf.
Qed.

Lemma ListKeys_prefix prefix (b : backend bucket) keys b' k :
  ListKeys prefix b = (Ok keys, b') -> k ∈ keys -> HasPrefix k prefix = true.
Proof.
  intros Hl Hk. assert (keys = sorted_names
    (List.filter (fun k => HasPrefix k prefix) (map_to_list (be_data b)).*1)) as ->.
  { revert Hl. unfold ListKeys, call, gets. destruct b as [o n t [|[] fs]]; cbn; by intros [= <-]. }
  rewrite sorted_names_perm, list_elem_of_In, List.filter_In in Hk. tauto.
Qed.

Lemma s3_op_kdf e op :
  known_scope (op_scope op) ->
  preserves (agree_on (eq kdfKey)) (run_op (SecretsManager0 := s3_manager Prefix e) op).
Proof.
  intros Hs. destruct op; cbn [op_scope] in Hs;
    cbn [run_op mgr_Get mgr_Set mgr_Delete mgr_ListByScope mgr_DeleteByScope s3_manager];
    unfold s3_Get, s3_Set, s3_Delete, s3_ListByScope, download, upload;
    agree_tac; try (by apply objectKey_not_kdf).
  intros b. unfold s3_DeleteByScope, bind, wrap.
  pose proof (agree_List (eq kdfKey) (scopePrefix Prefix scope) b) as Ha.
  destruct (ListKeys _ b) as [[keys|err] b1] eqn:Hl; cbn in Ha; [|done].
  refine (transitivity (R := agree_on (eq kdfKey)) Ha _). revert b1 Ha Hl. intros b1 _ Hl.
  apply (preserves_for_each (agree_on (eq kdfKey))
    (fun k => wrap ("could not delete secret " ++ q k) (DeleteKey k))).
  intros k Hk. agree_tac.
  intros <-. pose proof (ListKeys_prefix _ _ _ _ _ Hl Hk) as Hp.
  by rewrite kdfKey_reserved, reserved_foreign in Hp.
Qed.

Definition in_known_scope (k : string) : Prop :=
  exists scope, known_scope scope /\ HasPrefix k (scopePrefix Prefix scope) = true.

Lemma objects_hold_frame e (b b' : backend bucket) m :
  agree_on in_known_scope b b' -> s3_holds Prefix e b m -> s3_holds Prefix e b' m.
Proof.
  intros Ha [Hslot Honly]. split.
  - intros scope key Hs. rewrite Ha; [by apply Hslot|]. exists scope. split; [done|].
    unfold objectKey. apply HasPrefix_append.
  - intros scope k Hs Hk Hp. rewrite Ha in Hk by (by exists scope). by apply (Honly scope).
Qed.

Lemma s3_New_frame client passphrase mode :
  preserves (agree_on in_known_scope) (s3_New Prefix client passphrase mode).
Proof.
  unfold s3_New, loadOrInitKDFParamsS3, probeSSE. agree_tac.
  all: intros (scope & Hs & Hp); rewrite ?kdfKey_reserved, ?probeKey_reserved in Hp;
    by rewrite reserved_foreign in Hp.
Qed.

(** The parameters a start ends up with are the ones stored. *)
Lemma s3_load b params b' :
  loadOrInitKDFParamsS3 Prefix b = (Ok params, b') ->
  exists data, be_data b' !! kdfKey = Some data /\ unmarshal_kdf data = Ok params.
Proof.
  unfold loadOrInitKDFParamsS3, bind at 1, attempt.
  destruct (GetBytes kdfKey b) as [[data|err] b1] eqn:Hg.
  - apply GetBytes_ok in Hg as [Hd Hdata]. destruct (unmarshal_kdf data) eqn:Hu; [|done].
    intros [= <- <-]. exists data. by rewrite Hd.
  - destruct (negb (IsNotFound err)); [done|]. unfold bind at 1, wrap at 1.
    destruct (drawing DefaultKDFParams b1) as [[p|] b2]; [|done]. unfold bind, wrap.
    destruct (PutBytes kdfKey (marshal_kdf p) b2) as [[[]|] b3] eqn:Hp; [|done].
    apply PutBytes_ok in Hp. intros [= <- <-]. exists (marshal_kdf p).
    by rewrite Hp, lookup_insert_eq, unmarshal_marshal_kdf.
Qed.

Lemma s3_New_inv client passphrase mode b e b' :
  s3_New Prefix client passphrase mode b = (Ok e, b') ->
  passphrase <> "" /\ exists data params, be_data b' !! kdfKey = Some data /\
    unmarshal_kdf data = Ok params /\ key_of passphrase params = Ok e.
Proof.
  unfold s3_New. destruct (decide (passphrase = "")) as [|Hp]; [done|]. intros He.
  split; [done|]. destruct client; [|done]. revert He. unfold bind at 1, wrap at 1.
  destruct (loadOrInitKDFParamsS3 Prefix b) as [[params|err] b1] eqn:Hl; [|done].
  apply s3_load in Hl as (data & Hd & Hu). unfold key_of.
  destruct (DeriveKey passphrase params) as [key|] eqn:Hk; [|done].
  destruct (NewEncryptor key) as [e'|] eqn:He; [|done].
  set (probe := if decide (mode <> "") then _ else ret tt). intros Hprobe.
  assert (Hframe : preserves (agree_on (eq kdfKey)) probe).
  { subst probe. unfold probeSSE. destruct (decide (mode <> "")); agree_tac;
      rewrite probeKey_reserved, kdfKey_reserved; intros Heq; apply append_inj_r in Heq; done. }
  specialize (Hframe b1). unfold bind in Hprobe. destruct (probe b1) as [[[]|] b2]; [|done].
  injection Hprobe as <- <-. exists data, params. cbn in Hframe. rewrite (Hframe kdfKey) by done.
  by rewrite Hk, He.
Qed.

(** A start that finds the parameters derives the same key. *)
Lemma s3_New_again client passphrase mode data params e b r b' :
  be_data b !! kdfKey = Some data -> unmarshal_kdf data = Ok params ->
  key_of passphrase params = Ok e -> ~ misread kdfKey b ->
  s3_New Prefix client passphrase mode b = (Ok r, b') -> r = e.
Proof.
  intros Hd Hu Hk Hno. unfold s3_New. destruct (decide (passphrase = "")); [done|].
  destruct client; [|done]. unfold bind at 1, wrap at 1.
  destruct (loadOrInitKDFParamsS3 Prefix b) as [[params'|err] b1] eqn:Hl; [|done].
  assert (params' = params) as ->.
  { revert Hl. unfold loadOrInitKDFParamsS3, bind at 1, attempt.
    destruct (GetBytes (kdfParamsKey Prefix) b) as [[data'|err] b2] eqn:Hg.
    - apply GetBytes_ok in Hg as [_ Hg]. replace data' with data by congruence.
      rewrite Hu. by intros [= <- _].
    - by rewrite (GetBytes_found _ _ _ _ _ Hd Hno Hg). }
  unfold key_of in Hk. destruct (DeriveKey passphrase params) as [key|]; [|done].
  destruct (NewEncryptor key) as [e'|]; simplify_eq/=. unfold bind.
  destruct ((if decide (mode <> "") then _ else ret tt) b1) as [[[]|] b2]; [|done].
  by intros [= <- <-].
Qed.

(** A start whose calls all succeed. *)
Lemma s3_New_opens client passphrase mode data params e b :
  passphrase <> "" -> client = Ok tt -> be_data b !! kdfKey = Some data ->
  unmarshal_kdf data = Ok params -> key_of passphrase params = Ok e -> be_faults b = [] ->
  is_ok (s3_New Prefix client passphrase mode b).1 = true.
Proof.
  intros Hp -> Hd Hu Hk Hf. unfold s3_New. rewrite decide_False by done.
  assert (Hload : loadOrInitKDFParamsS3 Prefix b = (Ok params, b)).
  { unfold loadOrInitKDFParamsS3, bind, attempt, GetBytes, call. rewrite Hf, Hd, Hu. done. }
  unfold bind at 1, wrap at 1. rewrite Hload. unfold key_of in Hk.
  destruct (DeriveKey passphrase params) as [key|]; [|done]. destruct (NewEncryptor key); [|done].
  unfold probeSSE, bind, wrap, attempt, ignore, PutBytes, DeleteKey, call, modify, ret.
  destruct (decide (mode <> "")); [|done]. rewrite Hf. cbn. by rewrite Hf.
Qed.

(** A start whose read of the parameters fails in the manner of a missing
    object writes new ones over them: what was stored is lost. *)
Lemma misread_start_rekeys x fs b params n :
  be_faults b = Some x :: fs -> IsNotFound (get_failed kdfKey x) = true ->
  Forall (fun f => f = None) fs -> DefaultKDFParams (be_rand b) = (Ok params, n) ->
  (loadOrInitKDFParamsS3 Prefix b).1 = Ok params /\
  be_data (loadOrInitKDFParamsS3 Prefix b).2 = <[kdfKey := marshal_kdf params]> (be_data b).
Proof.
  intros Hf Hx Hfs Hp. destruct b as [o r t fs0]. cbn in Hf, Hp |- *. subst fs0.
  unfold loadOrInitKDFParamsS3, bind, attempt, GetBytes, call, wrap, drawing. cbn. rewrite Hx. cbn. rewrite Hp.
  unfold PutBytes, call, modify, ret. cbn. destruct Hfs as [|f fs -> _]; by cbn.
Qed.
End s3_restart.

(** C19: secrets survive a restart. A store opened with a passphrase, used in
    any way with any calls failing, and opened again by another process with
    the same passphrase, has the same key and holds the same secrets; it opens
    again whenever its calls succeed. On S3 no failed read of the parameters of
    the key may look like a missing object at the second start: a start that
    took one for it would write new parameters over them. *)
Theorem secrets_survive_restart passphrase (ops : list secret_op) :
  (forall b e b1 (b2 : backend sdb),
     sqlite_New passphrase b = (Ok e, b1) ->
     be_data b2 = be_data (run_ops (SecretsManager0 := sqlite_manager e) ops b1).2 ->
     (be_faults b2 = [] -> is_ok (sqlite_New passphrase b2).1 = true) /\
     forall e' b3 m, sqlite_New passphrase b2 = (Ok e', b3) -> sqlite_holds e b2 m ->
       e' = e /\ sqlite_holds e' b3 m) /\
  (forall Prefix client mode b e b1 (b2 : backend bucket),
     s3_New Prefix client passphrase mode b = (Ok e, b1) ->
     Forall (fun op => known_scope (op_scope op)) ops ->
     be_data b2 = be_data (run_ops (SecretsManager0 := s3_manager Prefix e) ops b1).2 ->
     (be_faults b2 = [] -> is_ok (s3_New Prefix client passphrase mode b2).1 = true) /\
     forall e' b3 m, ~ misread (kdfParamsKey Prefix) b2 ->
       s3_New Prefix client passphrase mode b2 = (Ok e', b3) ->
       s3_holds Prefix e b2 m -> e' = e /\ s3_holds Prefix e' b3 m).
Proof.
  split.
  - intros b e b1 b2 (Hp & _ & row & Hrow & Hk & _)%sqlite_New_inv Hd.
    assert (Hrow2 : sd_kdf (be_data b2) = Some row).
    { rewrite Hd, <- Hrow. apply (preserves_ops (SecretsManager0 := sqlite_manager e) same_kdf).
      intros op _. apply sqlite_op_kdf. }
    split; [intros Hf; by rewrite (sqlite_New_again _ row e)|].
    intros e' b3 m (_ & Hm & row' & Hrow' & Hk' & Hor)%sqlite_New_inv Hh.
    assert (row' = row) as -> by (destruct Hor; congruence).
    split; [congruence|]. replace e' with e by congruence. unfold sqlite_holds. by rewrite Hm.
  - intros Prefix client mode b e b1 b2 Hnew Hops Hd.
    assert (client = Ok tt) as Hclient.
    { revert Hnew. unfold s3_New. case_decide; [done|]. by destruct client as [[]|]. }
    apply s3_New_inv in Hnew as (Hp & data & params & Hdata & Hu & Hk).
    assert (Hdata2 : be_data b2 !! kdfParamsKey Prefix = Some data).
    { rewrite Hd, <- Hdata.
      apply (preserves_ops (SecretsManager0 := s3_manager Prefix e) (agree_on (eq (kdfParamsKey Prefix))));
        [|done]. intros op Hop. apply s3_op_kdf. rewrite Forall_forall in Hops. by apply Hops. }
    split; [intros Hf; by eapply s3_New_opens|].
    intros e' b3 m Hno He Hh. assert (e' = e) as -> by (by eapply s3_New_again).
    split; [done|]. pose proof (s3_New_frame Prefix client passphrase mode b2) as Hf.
    rewrite He in Hf. by apply (objects_hold_frame Prefix e b2).
Qed.
End restart.

(** ** Witnesses *)
Definition plain_marshal_record (r : secretRecord.t) : string :=
  Itoa (Zpos (encode [secretRecord.EncryptedValue r; secretRecord.Version r;
    secretRecord.UpdatedAt r])).
Definition plain_unmarshal_record (s : string) : result secretRecord.t :=
  match read_digits s 0 with
  | Npos n =>
      match decode n with
      | Some [c; v; u] => Ok (secretRecord.mk c v u)
      | _ => Err (EMsg "invalid character")
      end
  | N0 => Err (EMsg "unexpected end of JSON input")
  end.
Definition kdf_tuple (p : KDFParams) : string * string * list Z :=
  (KDFParams.Algorithm p, KDFParams.Salt p,
   [KDFParams.Time p; KDFParams.Memory p; KDFParams.Threads p; KDFParams.KeyLen p]).
Definition plain_marshal_kdf (p : KDFParams) : string := Itoa (Zpos (encode (kdf_tuple p))).
Definition plain_unmarshal_kdf (s : string) : result KDFParams :=
  match read_digits s 0 with
  | Npos n =>
      match decode n with
      | Some (a, s, [t; m; th; k]) => Ok (KDFParams.mk a s t m th k)
      | _ => Err (EMsg "invalid character")
      end
  | N0 => Err (EMsg "unexpected end of JSON input")
  end.
Definition plain_text : SecretText.
Proof.
  refine {| marshal_record := plain_marshal_record; unmarshal_record := plain_unmarshal_record;
            marshal_kdf := plain_marshal_kdf; unmarshal_kdf := plain_unmarshal_kdf;
            rfc3339 := Itoa |}.
  - intros [c v u] _. unfold plain_unmarshal_record, plain_marshal_record.
    rewrite read_Itoa by done. cbn [Z.to_N]. by rewrite decode_encode.
  - intros [a s t m th k]. unfold plain_unmarshal_kdf, plain_marshal_kdf.
    rewrite read_Itoa by done. cbn [Z.to_N]. by rewrite decode_encode.
  - intros t. apply Itoa_ascii.
Defined.

Lemma plain_random_fine : random_fine (H := plain_crypto).
Proof. intros n k. by eexists. Qed.

Lemma sqlite_holds_new `{!Crypto} e b : sd_secrets (be_data b) = ∅ -> sqlite_holds e b ∅.
Proof. intros He. unfold sqlite_holds. rewrite He. apply map_Forall2_empty. Qed.
Lemma s3_holds_new `{!Crypto, !SecretText} Prefix e b : be_data b = ∅ -> s3_holds Prefix e b ∅.
Proof.
  intros He. unfold s3_holds. rewrite He. split.
  - intros scope key _. rewrite !lookup_empty. constructor.
  - intros scope k _ [x Hx]. by rewrite lookup_empty in Hx.
Qed.

Definition ex_sdb : backend sdb := mkBackend (mkSdb ∅ None) 0 0 [].
Definition ex_bucket : backend bucket := mkBackend ∅ 0 0 [].
Definition ex_secret_ops : list secret_op :=
  [OpSet GlobalScope "token" "old"; OpSet GlobalScope "token" "s3cret";
   OpSet (PipelineScope "p1") "a/b" "x"; OpGet GlobalScope "token"; OpGet GlobalScope "other";
   OpList (PipelineScope "p1"); OpDeleteScope (PipelineScope "p1");
   OpDelete (PipelineScope "p1") "a/b"].
Definition ex_answers : list (result secret_answer) :=
  [Ok AnsDone; Ok AnsDone; Ok AnsDone; Ok (AnsValue "s3cret"); Err (ESentinel SSecretNotFound);
   Ok (AnsKeys ["a/b"]); Ok AnsDone; Err (ESentinel SSecretNotFound)].

Lemma ex_ops_known : Forall (fun op => known_scope (op_scope op)) ex_secret_ops.
Proof.
  unfold ex_secret_ops. rewrite !Forall_cons, Forall_nil.
  split_and!; try done; first [by left|right; by exists "p1"].
Qed.

Section witnesses.
#[local] Existing Instance plain_crypto.
#[local] Existing Instance plain_text.

Lemma managers_refine_map_witness :
  Forall2 same_answer
    (run_ops (SecretsManager0 := sqlite_manager "k") ex_secret_ops ex_sdb).1 ex_answers /\
  Forall2 same_answer
    (run_ops (SecretsManager0 := s3_manager "ci" "k") ex_secret_ops ex_bucket).1 ex_answers.
Proof.
  destruct (managers_refine_map "k" "ci" ex_secret_ops ∅ plain_random_fine) as [H1 H2].
  split.
  - exact (proj1 (H1 ex_sdb eq_refl (sqlite_holds_new "k" ex_sdb eq_refl))).
  - exact (proj1 (H2 ex_bucket eq_refl (s3_holds_new "ci" "k" ex_bucket eq_refl) ex_ops_known)).
Defined.

(** SQLite with a full disk: nothing is stored, the error is the database's.
    S3 that does not answer in time: the secret is not reported missing. *)
Definition ex_fault (text : string) : option fault := Some (mkFault false (AwsOther text)).
Lemma managers_fail_safely_witness :
  op_outcome (sqlite_holds "k") False (OpSet GlobalScope "token" "s3cret") ∅
    (run_op (SecretsManager0 := sqlite_manager "k") (OpSet GlobalScope "token" "s3cret")
       (set_be_faults [ex_fault "disk full"] ex_sdb)) /\
  let out := run_op (SecretsManager0 := s3_manager "ci" "k") (OpGet GlobalScope "token")
    (set_be_faults [ex_fault "request timed out"] ex_bucket) in
  op_outcome (s3_holds "ci" "k") False (OpGet GlobalScope "token") ∅ out.
Proof.
  destruct (managers_fail_safely "k" "ci" (OpSet GlobalScope "token" "s3cret") ∅) as [H1 _].
  destruct (managers_fail_safely "k" "ci" (OpGet GlobalScope "token") ∅) as [_ H2].
  split.
  - destruct (H1 (set_be_faults [ex_fault "disk full"] ex_sdb)
      (sqlite_holds_new "k" (set_be_faults [ex_fault "disk full"] ex_sdb) eq_refl))
      as [Hok|(_ & Hfail)]; [left; exact Hok|right].
    split; [intros []|exact Hfail].
  - destruct (H2 (set_be_faults [ex_fault "request timed out"] ex_bucket) (or_introl eq_refl)
      (s3_holds_new "ci" "k" (set_be_faults [ex_fault "request timed out"] ex_bucket) eq_refl))
      as [[Hok|(_ & Hfail)]|[(scope & key & x & [= <- <-] & Hx & Hmis) _]].
    + left. exact Hok.
    + right. split; [intros []|exact Hfail].
    + apply list_elem_of_singleton in Hx as [= ->]. vm_compute in Hmis. discriminate Hmis.
Defined.

(** The name of a secret is part of the message that is searched: a secret
    called NoSuchKey is reported missing by any read that fails, here while it
    is stored. *)
Definition ex_unlucky : backend bucket :=
  set_be_faults [ex_fault "request timed out"]
    (run_op (SecretsManager0 := s3_manager "ci" "k") (OpSet GlobalScope "NoSuchKey" "s3cret") ex_bucket).2.
Lemma named_like_an_error :
  (s3_Get "ci" "k" GlobalScope "NoSuchKey" (set_be_faults [] ex_unlucky)).1 = Ok "s3cret" /\
  (s3_Get "ci" "k" GlobalScope "NoSuchKey" ex_unlucky).1 = Err (ESentinel SSecretNotFound).
Proof. split; vm_compute; reflexivity. Qed.

Definition ex_moved : backend sdb :=
  mkBackend (mkSdb {[ (GlobalScope, "b") := secretRow.mk
    (zeros 12 ++ plain_seal "k" (zeros 12) "v" (aadFor GlobalScope "a")) 1 0 ]} None) 0 0 [].

Lemma ciphertexts_stay_in_place_witness :
  is_ok (sqlite_Get "k" GlobalScope "b" ex_moved).1 = false.
Proof.
  destruct (ciphertexts_stay_in_place "k" "ci" GlobalScope "b" GlobalScope "a" "v"
    (zeros 12 ++ plain_seal "k" (zeros 12) "v" (aadFor GlobalScope "a"))) as [H _].
  - reflexivity.
  - reflexivity.
  - exists (zeros 12). split; reflexivity.
  - destruct (sqlite_Get "k" GlobalScope "b" ex_moved).1 as [v|e] eqn:Hg; [|reflexivity].
    destruct (H ex_moved (secretRow.mk (zeros 12 ++ plain_seal "k" (zeros 12) "v"
      (aadFor GlobalScope "a")) 1 0) v) as (_ & Hk & _); [|reflexivity|exact Hg|discriminate Hk].
    apply lookup_singleton_eq.
Defined.

Definition ex_key : Encryptor := zeros 32.
Definition ex_open : backend sdb := (sqlite_New "passphrase" ex_sdb).2.

Lemma set_be_faults_data {D} fs (b : backend D) : be_data (set_be_faults fs b) = be_data b.
Proof. reflexivity. Qed.
Definition ex_open_s3 : backend bucket := (s3_New "ci" (Ok tt) "passphrase" "AES256" ex_bucket).2.

Lemma secrets_survive_restart_witness :
  is_ok (sqlite_New "passphrase"
    (run_ops (SecretsManager0 := sqlite_manager ex_key) ex_secret_ops ex_open).2).1 = true /\
  let b2 := set_be_faults [None; None; ex_fault "no answer"]
    (run_ops (SecretsManager0 := s3_manager "ci" ex_key) ex_secret_ops ex_open_s3).2 in
  forall e' b3 m, s3_New "ci" (Ok tt) "passphrase" "AES256" b2 = (Ok e', b3) ->
    s3_holds "ci" ex_key b2 m -> e' = ex_key /\ s3_holds "ci" e' b3 m.
Proof.
  destruct (secrets_survive_restart "passphrase" ex_secret_ops) as [H1 H2]. split.
  - apply (H1 ex_sdb ex_key ex_open); [vm_compute; reflexivity|reflexivity|].
    assert (Hf : backend_healthy ex_open)
      by (split; [vm_compute; reflexivity|exact plain_random_fine]).
    exact (proj1 (run_ops_healthy (SecretsManager0 := sqlite_manager ex_key)
      (SecretBackend0 := sqlite_backend ex_key) ex_secret_ops ex_open Hf)).
  - intros b2 e' b3 m He Hm.
    destruct (H2 "ci" (Ok tt) "AES256" ex_bucket ex_key ex_open_s3 b2) as [_ Hsame];
      [vm_compute; reflexivity|exact ex_ops_known|exact (set_be_faults_data _ _)|].
    refine (Hsame e' b3 m _ He Hm). intros (x & Hx & Hmis).
    apply elem_of_cons in Hx as [Hx|Hx]; [discriminate Hx|].
    apply elem_of_cons in Hx as [Hx|Hx]; [discriminate Hx|].
    apply list_elem_of_singleton in Hx as [= ->]. vm_compute in Hmis. discriminate Hmis.
Defined.
End witnesses.
