(* ===== verification/Auth.v ===== *)
(** * Authentication (server/auth/middleware.go, oauth_server.go, handlers.go)

    Sessions, the middleware in front of the API, the authorization server
    for MCP clients (authorization codes with PKCE) and the login of the
    command line (device codes). A session is the content of a signed cookie,
    so a request carries any session the server has ever written, old ones
    included, or none. The identity provider is an argument of the callback.

    The events of the server are a state machine; [trace] collects what it was
    asked and what it answered. [access_token_needs_login],
    [authorization_code_single_use] and [cli_token_needs_login] say what a
    token, once handed out, presupposes; [RequireAuth_exact] who gets past
    the middleware. *)
From S2P Require Import Prelude Storage Json GoStrings Sql Ids Sha Server Webhooks Tokens Encoding.
From Stdlib Require Import Ascii.
Open Scope string_scope.
#[local] Arguments String.append !_ _ / : simpl nomatch.

(** ** Configuration and sessions *)
Module AuthConfig.
Record t := mk {
    GithubClientID : string; GithubClientSecret : string;
    GitlabClientID : string; GitlabClientSecret : string;
    MicrosoftClientID : string; MicrosoftClientSecret : string;
    SessionSecret : string; CallbackURL : string; ServerRBAC : string }.
End AuthConfig.

Definition both (id secret : string) : bool :=
  bool_decide (id <> "") && bool_decide (secret <> "").

Definition HasOAuthProviders (c : AuthConfig.t) : bool :=
  both (AuthConfig.GithubClientID c) (AuthConfig.GithubClientSecret c)
  || both (AuthConfig.GitlabClientID c) (AuthConfig.GitlabClientSecret c)
  || both (AuthConfig.MicrosoftClientID c) (AuthConfig.MicrosoftClientSecret c).

Definition EnabledProviders (c : AuthConfig.t) : list string :=
  ((if both (AuthConfig.GithubClientID c) (AuthConfig.GithubClientSecret c)
    then ["github"] else [])
   ++ (if both (AuthConfig.GitlabClientID c) (AuthConfig.GitlabClientSecret c)
       then ["gitlab"] else [])
   ++ (if both (AuthConfig.MicrosoftClientID c) (AuthConfig.MicrosoftClientSecret c)
       then ["microsoftonline"] else []))%list.

(** The values the program keeps in a session. *)
Module Session.
Record t := mk {
    user : option User; oauth_redirect_uri : option string; oauth_state : option string;
    oauth_code_challenge : option string; oauth_client_id : option string }.
Definition empty : t := mk None None None None None.
Definition set_user (u : User) (s : t) : t :=
  mk (Some u) (oauth_redirect_uri s) (oauth_state s) (oauth_code_challenge s) (oauth_client_id s).
Definition set_oauth (redirectURI state codeChallenge clientID : string) (s : t) : t :=
  mk (user s) (Some redirectURI) (Some state) (Some codeChallenge) (Some clientID).
Definition clear_oauth (s : t) : t := mk (user s) None None None None.
End Session.
Notation Session := Session.t.

(** A request: [Cookie] is the answer of [store.Get], the session its cookie
    decodes to; [SaveErr] that of [session.Save]; [Form] is [None] when the
    body does not parse. *)
Module AuthRequest.
Record t := mk {
    base : Request; Path : string; Form : option (gmap string (list string));
    Cookie : result Session; SaveErr : option err }.
End AuthRequest.
Notation AuthRequest := AuthRequest.t.

Definition query (r : AuthRequest) (key : string) : string := Query_Get (AuthRequest.base r) key.
Definition header (r : AuthRequest) (key : string) : string := Header_Get (AuthRequest.base r) key.
Definition FormValue (r : AuthRequest) (key : string) : string :=
  match AuthRequest.Form r with Some f => first_value f key | None => "" end.

Definition GetUserFromSession (r : AuthRequest) : option User :=
  match AuthRequest.Cookie r with
  | Err _ => None
  | Ok session => Session.user session
  end.

(** The session the answer carries, and whether it could be written. *)
Definition save (r : AuthRequest) (session : Session) : list Session * option err :=
  match AuthRequest.SaveErr r with
  | Some e => ([], Some e)
  | None => ([session], None)
  end.

Definition SaveUserToSession (r : AuthRequest) (user : User) : list Session * option err :=
  match AuthRequest.Cookie r with
  | Err e => ([], Some (EWrap "session get" e))
  | Ok session => save r (Session.set_user user session)
  end.

(** ** The middleware (server/auth/middleware.go) *)
Inductive denial : Type :=
  | DenyJSON (code : Z) (error : string)
  | DenyPage (code : Z) (title : string)
  | DenyRedirect (location : string).

(** What the next handler finds in its context. *)
Module AuthContext.
Record t := mk { user : option User; actor : option RequestActor.t }.
Definition empty : t := mk None None.
End AuthContext.

Definition isAPIRequest (r : AuthRequest) : bool :=
  Contains (header r "Accept") "application/json" || HasPrefix (AuthRequest.Path r) "/api/".

Definition authenticated (ctx : AuthContext.t) (user : User) : AuthContext.t :=
  AuthContext.mk (Some user)
    (WithRequestActor (AuthContext.actor ctx) (actorFromOAuthUser (Some user))).

(** [inl]: the next handler runs. *)
Definition RequireAuth (cfg : AuthConfig.t) (tokenValidator : string -> result User)
    (ctx : AuthContext.t) (r : AuthRequest) : AuthContext.t + denial :=
  if negb (HasOAuthProviders cfg) then inl ctx
  else
    let authHeader := header r "Authorization" in
    if HasPrefix authHeader "Bearer " then
      match tokenValidator (TrimPrefix authHeader "Bearer ") with
      | Err _ => inr (DenyJSON 401 "invalid or expired token")
      | Ok user => inl (authenticated ctx user)
      end
    else
      match GetUserFromSession r with
      | Some user => inl (authenticated ctx user)
      | None =>
          if isAPIRequest r then inr (DenyJSON 401 "authentication required")
          else inr (DenyRedirect "/auth/login")
      end.

Section middleware.
Context `{!AccessLang, !JWT}.

Definition RequireRBAC (expression : string) (ctx : AuthContext.t) (r : AuthRequest)
    : AuthContext.t + denial :=
  if decide (expression = "") then inl ctx
  else
    match AuthContext.user ctx with
    | None =>
        if isAPIRequest r then inr (DenyJSON 401 "authentication required")
        else inr (DenyPage 401 "Authentication Required")
    | Some user =>
        match EvaluateAccess expression user with
        | Ok true => inl ctx
        | _ =>
            if isAPIRequest r then inr (DenyJSON 403 "access denied")
            else inr (DenyPage 403 "Access Denied")
        end
    end.

(** The chain in front of the API and of the web pages with OAuth
    (server/router.go). *)
Definition authMiddleware (cfg : AuthConfig.t) (now : time) (r : AuthRequest)
    : AuthContext.t + denial :=
  match RequireAuth cfg (TokenValidator (AuthConfig.SessionSecret cfg) now) AuthContext.empty r with
  | inr d => inr d
  | inl ctx =>
      if decide (AuthConfig.ServerRBAC cfg <> "") then RequireRBAC (AuthConfig.ServerRBAC cfg) ctx r
      else inl ctx
  end.

(** The user a request speaks for: the one its bearer token names, and only
    without a bearer token the one of its session. *)
Inductive speaks_for (cfg : AuthConfig.t) (now : time) (r : AuthRequest) : User -> Prop :=
  | speaks_token token user :
      header r "Authorization" = "Bearer " ++ token ->
      TokenValidator (AuthConfig.SessionSecret cfg) now token = Ok user ->
      speaks_for cfg now r user
  | speaks_session session user :
      HasPrefix (header r "Authorization") "Bearer " = false ->
      AuthRequest.Cookie r = Ok session -> Session.user session = Some user ->
      speaks_for cfg now r user.

Lemma speaks_no_token cfg now r user :
  HasPrefix (header r "Authorization") "Bearer " = false -> speaks_for cfg now r user ->
  GetUserFromSession r = Some user.
Proof.
  intros Hp [token user' Ht _|session user' _ Hc Hu].
  - rewrite Ht in Hp. by rewrite HasPrefix_append in Hp.
  - unfold GetUserFromSession. by rewrite Hc.
Qed.

Lemma speaks_by_token cfg now r token user :
  header r "Authorization" = "Bearer " ++ token -> speaks_for cfg now r user ->
  TokenValidator (AuthConfig.SessionSecret cfg) now token = Ok user.
Proof.
  intros Hh [token' user' Ht Hv|session user' Hp _ _].
  - rewrite Hh in Ht. by apply append_inj_r in Ht as <-.
  - rewrite Hh in Hp. by rewrite HasPrefix_append in Hp.
Qed.

Lemma RequireAuth_exact cfg now r ctx :
  HasOAuthProviders cfg = true ->
  RequireAuth cfg (TokenValidator (AuthConfig.SessionSecret cfg) now) AuthContext.empty r = inl ctx
  <-> exists user, speaks_for cfg now r user /\ ctx = authenticated AuthContext.empty user.
Proof.
  intros Hcfg. unfold RequireAuth. rewrite Hcfg. cbn [negb].
  destruct (HasPrefix (header r "Authorization") "Bearer ") eqn:Hp.
  - destruct (HasPrefix_inv _ _ Hp) as [token Ht]. rewrite Ht, TrimPrefix_append. split.
    + destruct (TokenValidator _ now token) as [user|e] eqn:Hv; [|done]. intros [= <-].
      exists user. split; [by eapply speaks_token|done].
    + intros (user & Hs & ->). by rewrite (speaks_by_token _ _ _ _ _ Ht Hs).
  - split.
    + destruct (GetUserFromSession r) as [user|] eqn:Hu; [|by destruct (isAPIRequest r)].
      intros [= <-]. exists user. split; [|done]. unfold GetUserFromSession in Hu.
      destruct (AuthRequest.Cookie r) as [session|e] eqn:Hc; [|done]. by eapply speaks_session.
    + intros (user & Hs & ->). by rewrite (speaks_no_token _ _ _ _ Hp Hs).
Qed.

Lemma speaks_for_unique cfg now r user1 user2 :
  speaks_for cfg now r user1 -> speaks_for cfg now r user2 -> user1 = user2.
Proof.
  intros [token u Ht Hv|session u Hp Hc Hu] H2.
  - pose proof (speaks_by_token _ _ _ _ _ Ht H2). congruence.
  - apply (speaks_no_token _ _ _ _ Hp) in H2. unfold GetUserFromSession in H2.
    rewrite Hc in H2. congruence.
Qed.

(** C10: with OAuth configured a request reaches the API exactly when it speaks
    for a user the server's access expression admits, and the handler is then
    given that user; a bad bearer token is not saved by a good session, and an
    expression that cannot be evaluated admits nobody. *)
Theorem authMiddleware_exact cfg now r ctx :
  HasOAuthProviders cfg = true ->
  authMiddleware cfg now r = inl ctx <->
  exists user, speaks_for cfg now r user /\
    EvaluateAccess (AuthConfig.ServerRBAC cfg) user = Ok true /\
    ctx = authenticated AuthContext.empty user.
Proof.
  intros Hcfg. unfold authMiddleware.
  destruct (RequireAuth cfg _ _ r) as [ctx'|d] eqn:Hr.
  2: { split; [done|]. intros (user & Hs & _ & _).
       rewrite (proj2 (RequireAuth_exact cfg now r (authenticated AuthContext.empty user) Hcfg)) in Hr;
         [done|by eexists]. }
  apply RequireAuth_exact in Hr as (user & Hs & ->); [|done].
  assert (Hiff : (exists user', speaks_for cfg now r user' /\
      EvaluateAccess (AuthConfig.ServerRBAC cfg) user' = Ok true /\
      ctx = authenticated AuthContext.empty user') <->
    EvaluateAccess (AuthConfig.ServerRBAC cfg) user = Ok true /\
    ctx = authenticated AuthContext.empty user).
  { split; [|intros [? ?]; by exists user]. intros (user' & Hs' & ?).
    by rewrite (speaks_for_unique _ _ _ _ _ Hs Hs'). }
  rewrite Hiff. unfold RequireRBAC.
  destruct (decide (AuthConfig.ServerRBAC cfg = "")) as [He|He].
  - rewrite decide_False by (intros []; done). rewrite He.
    split; [by intros [= <-]|by intros [_ ->]].
  - rewrite decide_True by done. cbn [AuthContext.user authenticated].
    destruct (EvaluateAccess _ user) as [[]|e]; [split; [by intros [= <-]|by intros [_ ->]]| |];
      (split; [by destruct (isAPIRequest r)|by intros [? _]]).
Qed.
End middleware.

(** ** The authorization server (server/auth/oauth_server.go) *)

(** The challenge of a PKCE verifier; the example of RFC 7636. *)
Definition pkce_challenge (verifier : string) : string := RawURLEncode (sha256_bytes (bytes verifier)).
Example pkce_rfc7636 :
  pkce_challenge "dBjftJeZ4CVP-mB92K27uhbUJU1p1r_wW1gFWFOEjXk" =
    "E9Melhoa2OwvFrEMTJguCHaoeK1t8URWbuGJSstw-cM".
Proof. vm_compute. reflexivity. Qed.

Module authCode.
Record t := mk {
    UserID : string; User_ : User; CodeChallenge : string; RedirectURI : string;
    Scopes : list string; ExpiresAt : time }.
End authCode.
Notation authCode := authCode.t.

Module registeredClient.
Record t := mk {
    ClientID : string; ClientName : string; RedirectURIs : list string;
    GrantTypes : list string; ResponseTypes : list string;
    TokenEndpointAuthMethod : string; ClientIDIssuedAt : Z }.
End registeredClient.
Notation registeredClient := registeredClient.t.

(** The body of a registration. *)
Module RegisterRequest.
Record t := mk {
    RedirectURIs : list string; ClientName : string; GrantTypes : list string;
    ResponseTypes : list string; TokenEndpointAuthMethod : string }.
End RegisterRequest.

Module cliLoginState.
Record t := mk { Code : string; User_ : option User; ExpiresAt : time; Approved : bool }.
Definition approve (u : User) (s : t) : t := mk (Code s) (Some u) (ExpiresAt s) true.
End cliLoginState.

(** A poll in flight: it keeps the pointer it read, and it removes the code
    after it has made the token. *)
Inductive poll : Type :=
  | PollRead (code : string) (state : option nat)
  | PollMade (code : string) (token : string).

(** The maps of [OAuthServer] and of [authHandler]. The states of the device
    codes are shared objects: [au_cliCodes] points into [au_cliStates]. *)
Record auth := mkAuth {
  au_codes : gmap string authCode;
  au_clients : gmap string registeredClient;
  au_cliCodes : gmap string nat;
  au_cliStates : gmap nat cliLoginState.t;
  au_polls : gmap nat poll }.
Definition NewAuth : auth := mkAuth ∅ ∅ ∅ ∅ ∅.
Definition set_codes f s := mkAuth (f (au_codes s)) (au_clients s) (au_cliCodes s)
  (au_cliStates s) (au_polls s).
Definition set_clients f s := mkAuth (au_codes s) (f (au_clients s)) (au_cliCodes s)
  (au_cliStates s) (au_polls s).
Definition set_cliCodes f s := mkAuth (au_codes s) (au_clients s) (f (au_cliCodes s))
  (au_cliStates s) (au_polls s).
Definition set_cliStates f s := mkAuth (au_codes s) (au_clients s) (au_cliCodes s)
  (f (au_cliStates s)) (au_polls s).
Definition set_polls f s := mkAuth (au_codes s) (au_clients s) (au_cliCodes s)
  (au_cliStates s) (f (au_polls s)).

Inductive answer : Type :=
  | ANone                                           (* nothing yet *)
  | AJsonError (code : Z) (error description : string)
  | AText (code : Z) (text : string)
  | AJson (code : Z) (field value : string)
  | ARedirect (location : string)
  | AClient (client : registeredClient)             (* 201 *)
  | AAccessToken (token : string) (expires_in : Z) (scope : string)
  | ACliCode (code login_url : string)
  | AConfirmPage (code email : string)              (* asks for the approval *)
  | AProvidersPage (code : string) (providers : list string)
  | AApprovedPage
  | ACliToken (token : string)
  | AUser (user : User).

(** An answer with the sessions its cookies carry. *)
Definition reply : Type := answer * list Session.
Definition plain (a : answer) : reply := (a, []).

Definition tenMinutes : Z := (600 * nanosPerSecond)%Z.
Definition thirtyDays : Z := (30 * 24 * 3600 * nanosPerSecond)%Z.

Definition hasRedirectURI (c : registeredClient) (uri : string) : bool :=
  existsb (String.eqb uri) (registeredClient.RedirectURIs c).

(** [rand] is the answer of [generateRandomCode]; the code it draws. *)
Definition issueCodeAndRedirect (user : User) (redirectURI state codeChallenge : string)
    (now : time) (rand : result string) : ST auth answer :=
  match rand with
  | Err _ => ret (AJsonError 500 "server_error" "could not generate code")
  | Ok code =>
      modify (set_codes (<[code := authCode.mk (User.UserID user) user codeChallenge redirectURI
        [MCPScope] (now + tenMinutes)%Z]>)) ;;;
      let dest := redirectURI ++ "?code=" ++ code in
      ret (ARedirect (if decide (state <> "") then dest ++ "&state=" ++ state else dest))
  end.

Definition HandleAuthorize (r : AuthRequest) (now : time) (rand : result string)
    : ST auth reply :=
  if negb (bool_decide (Request.Method (AuthRequest.base r) = "GET")) then
    ret (plain (AText 405 "method not allowed"))
  else
    let responseType := query r "response_type" in
    let clientID := query r "client_id" in
    let redirectURI := query r "redirect_uri" in
    let state := query r "state" in
    let codeChallenge := query r "code_challenge" in
    let codeChallengeMethod := query r "code_challenge_method" in
    if decide (responseType <> "code") then
      ret (plain (AJsonError 400 "unsupported_response_type" "response_type must be 'code'"))
    else if decide (clientID = "") then
      ret (plain (AJsonError 400 "invalid_request" "client_id is required"))
    else if decide (redirectURI = "") then
      ret (plain (AJsonError 400 "invalid_request" "redirect_uri is required"))
    else
      let! client := gets (fun s => au_clients s !! clientID) in
      match client with
      | None => ret (plain (AJsonError 401 "invalid_client" "client_id is not registered"))
      | Some client =>
          if negb (hasRedirectURI client redirectURI) then
            ret (plain (AJsonError 400 "invalid_request"
              "redirect_uri is not registered for this client"))
          else if decide (codeChallenge = "" \/ codeChallengeMethod <> "S256") then
            ret (plain (AJsonError 400 "invalid_request"
              "code_challenge with method S256 is required"))
          else
            match GetUserFromSession r with
            | Some user =>
                let! a := issueCodeAndRedirect user redirectURI state codeChallenge now rand in
                ret (plain a)
            | None =>
                match AuthRequest.Cookie r with
                | Err _ => ret (plain (AJsonError 500 "server_error" "session error"))
                | Ok session =>
                    match save r (Session.set_oauth redirectURI state codeChallenge clientID session) with
                    | (cookies, Some _) =>
                        ret (AJsonError 500 "server_error" "session error", cookies)
                    | (cookies, None) => ret (ARedirect "/auth/login?oauth=1", cookies)
                    end
                end
            end
      end.

(** [session] is the one the request carries; [None]: no flow was pending. *)
Definition CompleteAuthorize (r : AuthRequest) (session : Session) (user : User)
    (now : time) (rand : result string) : ST auth (option answer * list Session) :=
  match Session.oauth_redirect_uri session with
  | None | Some "" => ret (None, [])
  | Some redirectURI =>
      let state := default "" (Session.oauth_state session) in
      let codeChallenge := default "" (Session.oauth_code_challenge session) in
      let '(cookies, _) := save r (Session.clear_oauth session) in
      if decide (codeChallenge = "") then ret (None, cookies)
      else
        let! a := issueCodeAndRedirect user redirectURI state codeChallenge now rand in
        ret (Some a, cookies)
  end.

Section server.
Context `{!JWT}.
Context (cfg : AuthConfig.t).

(** [issued] is the clock when the token is made. *)
Definition HandleToken (r : AuthRequest) (now issued : time) : ST auth reply :=
  if negb (bool_decide (Request.Method (AuthRequest.base r) = "POST")) then
    ret (plain (AText 405 "method not allowed"))
  else if decide (AuthRequest.Form r = None) then
    ret (plain (AJsonError 400 "invalid_request" "could not parse form"))
  else
    let code := FormValue r "code" in
    let codeVerifier := FormValue r "code_verifier" in
    if decide (FormValue r "grant_type" <> "authorization_code") then
      ret (plain (AJsonError 400 "unsupported_grant_type"
        "grant_type must be 'authorization_code'"))
    else if decide (code = "" \/ codeVerifier = "") then
      ret (plain (AJsonError 400 "invalid_request" "code and code_verifier are required"))
    else
      let! ac := gets (fun s => au_codes s !! code) in
      match ac with
      | None =>
          ret (plain (AJsonError 400 "invalid_grant"
            "unknown or already consumed authorization code"))
      | Some ac =>
          modify (set_codes (delete code)) ;;;
          if (authCode.ExpiresAt ac <? now)%Z then
            ret (plain (AJsonError 400 "invalid_grant" "authorization code expired"))
          else if decide (FormValue r "redirect_uri" <> authCode.RedirectURI ac) then
            ret (plain (AJsonError 400 "invalid_grant" "redirect_uri mismatch"))
          else if decide (pkce_challenge codeVerifier <> authCode.CodeChallenge ac) then
            ret (plain (AJsonError 400 "invalid_grant"
              "code_verifier does not match code_challenge"))
          else
            match GenerateToken issued (authCode.User_ ac) (AuthConfig.SessionSecret cfg)
                    thirtyDays [MCPScope] AudienceMCP with
            | Err _ => ret (plain (AJsonError 500 "server_error" "could not generate token"))
            | Ok token => ret (plain (AAccessToken token (thirtyDays / nanosPerSecond) MCPScope))
            end
      end.

Definition oauth_cleanupExpiredCodes (now : time) : ST auth unit :=
  modify (set_codes (filter (fun kv => ~ (authCode.ExpiresAt kv.2 < now)%Z))).

(** [req]: the decoded body. *)
Definition HandleRegister (method : string) (req : option RegisterRequest.t) (now : time)
    (rand : result string) : ST auth reply :=
  if negb (bool_decide (method = "POST")) then ret (plain (AText 405 "method not allowed"))
  else
    match req with
    | None => ret (plain (AJsonError 400 "invalid_request" "could not parse request body"))
    | Some req =>
        if decide (RegisterRequest.RedirectURIs req = []) then
          ret (plain (AJsonError 400 "invalid_client_metadata" "redirect_uris is required"))
        else
          match rand with
          | Err _ => ret (plain (AJsonError 500 "server_error" "could not generate client_id"))
          | Ok clientID =>
              let or_default (l : list string) (d : string) := match l with [] => [d] | _ => l end in
              let client := registeredClient.mk clientID (RegisterRequest.ClientName req)
                (RegisterRequest.RedirectURIs req)
                (or_default (RegisterRequest.GrantTypes req) "authorization_code")
                (or_default (RegisterRequest.ResponseTypes req) "code")
                (if decide (RegisterRequest.TokenEndpointAuthMethod req = "") then "none"
                 else RegisterRequest.TokenEndpointAuthMethod req)
                (Unix now) in
              modify (set_clients (<[clientID := client]>)) ;;;
              ret (plain (AClient client))
          end
    end.

(** ** Login (server/auth/handlers.go) *)

(** The first number that names no state. *)
Definition fresh_state (s : auth) : nat := fresh (dom (au_cliStates s) : gset nat).

Definition CLIBegin (now : time) (rand : result string) : ST auth reply :=
  match rand with
  | Err _ => ret (plain (AJson 500 "error" "could not generate login code"))
  | Ok code =>
      let! p := gets fresh_state in
      modify (set_cliStates (<[p := cliLoginState.mk code None (now + tenMinutes)%Z false]>)) ;;;
      modify (set_cliCodes (<[code := p]>)) ;;;
      ret (plain (ACliCode code (AuthConfig.CallbackURL cfg ++ "/auth/cli/approve?code=" ++ code)))
  end.

(** The state a device code points to. *)
Definition cli_state (code : string) (s : auth) : option (nat * cliLoginState.t) :=
  match au_cliCodes s !! code with
  | None => None
  | Some p => (fun st => (p, st)) <$> au_cliStates s !! p
  end.

Definition CLIApprove (r : AuthRequest) (now : time) : ST auth reply :=
  let code := query r "code" in
  let! state := gets (cli_state code) in
  match state with
  | None => ret (plain (AText 400 "Invalid or expired login code"))
  | Some (_, state) =>
      if (cliLoginState.ExpiresAt state <? now)%Z then
        ret (plain (AText 400 "Invalid or expired login code"))
      else
        match GetUserFromSession r with
        | Some user => ret (plain (AConfirmPage code (User.Email user)))
        | None => ret (plain (AProvidersPage code (EnabledProviders cfg)))
        end
  end.

Definition CLIApproveConfirm (r : AuthRequest) (now : time) : ST auth reply :=
  let code := FormValue r "code" in
  match GetUserFromSession r with
  | None => ret (plain (AText 401 "Authentication required"))
  | Some user =>
      let! state := gets (cli_state code) in
      match state with
      | Some (p, state) =>
          if (cliLoginState.ExpiresAt state <? now)%Z then
            ret (plain (AText 400 "Invalid or expired login code"))
          else
            modify (set_cliStates (<[p := cliLoginState.approve user state]>)) ;;;
            ret (plain AApprovedPage)
      | None => ret (plain (AText 400 "Invalid or expired login code"))
      end
  end.

(** The answer, when there is one. *)
Definition handleCLICallback (cliCode : string) (user : User) (now : time)
    : ST auth (option answer) :=
  let! state := gets (cli_state cliCode) in
  match state with
  | None => ret None
  | Some (p, state) =>
      (if (now <? cliLoginState.ExpiresAt state)%Z
       then modify (set_cliStates (<[p := cliLoginState.approve user state]>))
       else ret tt) ;;;
      ret (Some AApprovedPage)
  end.

(** What the identity provider answers: a user with an access token, and the
    organizations that token can list. *)
Definition enrich (provider : string) (user : User) (accessToken : string)
    (orgs : result (list string)) : User :=
  if decide (provider = "github" /\ accessToken <> "") then
    match orgs with
    | Err _ => user
    | Ok orgs => User.mk (User.Email user) (User.Name user) (User.NickName user)
        (User.AvatarURL user) (User.Provider user) (User.UserID user) orgs
        (User.Groups user) (User.RawData user) (User.Scopes user)
    end
  else user.

Definition Callback (provider : string) (r : AuthRequest)
    (gothUser : result (User * string)) (orgs : result (list string))
    (now : time) (rand : result string) : ST auth reply :=
  match gothUser with
  | Err _ => ret (plain (ARedirect "/auth/login?error=auth_failed"))
  | Ok (gothUser, accessToken) =>
      let user := enrich provider gothUser accessToken orgs in
      match SaveUserToSession r user with
      | (cookies, Some _) => ret (ARedirect "/auth/login?error=session_failed", cookies)
      | (cookies, None) =>
          let cliCode := query r "cli_code" in
          let! handled :=
            if decide (cliCode <> "") then handleCLICallback cliCode user now else ret None in
          match handled with
          | Some a => ret (a, cookies)
          | None =>
              match AuthRequest.Cookie r with
              | Err _ => ret (ARedirect "/", cookies)
              | Ok session =>
                  let! pending := CompleteAuthorize r (Session.set_user user session) user now rand in
                  match pending with
                  | (Some a, more) => ret (a, (cookies ++ more)%list)
                  | (None, more) => ret (ARedirect "/", (cookies ++ more)%list)
                  end
              end
          end
      end
  end.

Definition CurrentUser (r : AuthRequest) : answer :=
  match GetUserFromSession r with
  | None => AJson 401 "error" "not authenticated"
  | Some user => AUser user
  end.

(** [CLIPoll] takes its lock twice and reads the state between; [k] numbers
    the polls in flight. *)
Definition poll_read (k : nat) (code : string) : ST auth reply :=
  let! state := gets (fun s => au_cliCodes s !! code) in
  modify (set_polls (<[k := PollRead code state]>)) ;;;
  ret (plain ANone).

Definition poll_decide (k : nat) (now issued : time) : ST auth reply :=
  let! p := gets (fun s => au_polls s !! k) in
  match p with
  | Some (PollRead code None) =>
      modify (set_polls (delete k)) ;;; ret (plain (AJson 404 "error" "unknown code"))
  | Some (PollRead code (Some ptr)) =>
      let! state := gets (fun s => au_cliStates s !! ptr) in
      match state with
      | None => ret (plain ANone)       (* a pointer read from the map has a state *)
      | Some state =>
          if (cliLoginState.ExpiresAt state <? now)%Z then
            modify (set_polls (delete k)) ;;;
            modify (set_cliCodes (delete code)) ;;;
            ret (plain (AJson 410 "error" "code expired"))
          else
            match cliLoginState.Approved state, cliLoginState.User_ state with
            | true, Some user =>
                match GenerateToken issued user (AuthConfig.SessionSecret cfg) thirtyDays []
                        AudienceAPI with
                | Err _ =>
                    modify (set_polls (delete k)) ;;;
                    ret (plain (AJson 500 "error" "could not generate token"))
                | Ok token =>
                    modify (set_polls (<[k := PollMade code token]>)) ;;;
                    ret (plain ANone)
                end
            | _, _ =>
                modify (set_polls (delete k)) ;;; ret (plain (AJson 202 "status" "pending"))
            end
      end
  | _ => ret (plain ANone)
  end.

Definition poll_consume (k : nat) : ST auth reply :=
  let! p := gets (fun s => au_polls s !! k) in
  match p with
  | Some (PollMade code token) =>
      modify (set_cliCodes (delete code)) ;;;
      modify (set_polls (delete k)) ;;;
      ret (plain (ACliToken token))
  | _ => ret (plain ANone)
  end.

Definition cli_expired (s : auth) (now : time) (ptr : nat) : bool :=
  match au_cliStates s !! ptr with
  | Some st => (cliLoginState.ExpiresAt st <? now)%Z
  | None => false
  end.
Definition cli_cleanupExpiredCodes (now : time) : ST auth unit :=
  modify (fun s => set_cliCodes (filter (fun kv => cli_expired s now kv.2 = false)) s).

(** ** The server as a state machine *)
Inductive event : Type :=
  | EvRegister (method : string) (req : option RegisterRequest.t) (now : time) (rand : result string)
  | EvAuthorize (r : AuthRequest) (now : time) (rand : result string)
  | EvToken (r : AuthRequest) (now issued : time)
  | EvCallback (provider : string) (r : AuthRequest) (gothUser : result (User * string))
      (orgs : result (list string)) (now : time) (rand : result string)
  | EvCLIBegin (now : time) (rand : result string)
  | EvCLIApprove (r : AuthRequest) (now : time)
  | EvCLIApproveConfirm (r : AuthRequest) (now : time)
  | EvPollRead (k : nat) (code : string)
  | EvPollDecide (k : nat) (now issued : time)
  | EvPollConsume (k : nat)
  | EvCleanup (now : time).

Definition handle (ev : event) : ST auth reply :=
  match ev with
  | EvRegister method req now rand => HandleRegister method req now rand
  | EvAuthorize r now rand => HandleAuthorize r now rand
  | EvToken r now issued => HandleToken r now issued
  | EvCallback provider r gothUser orgs now rand => Callback provider r gothUser orgs now rand
  | EvCLIBegin now rand => CLIBegin now rand
  | EvCLIApprove r now => CLIApprove r now
  | EvCLIApproveConfirm r now => CLIApproveConfirm r now
  | EvPollRead k code => poll_read k code
  | EvPollDecide k now issued => poll_decide k now issued
  | EvPollConsume k => poll_consume k
  | EvCleanup now =>
      oauth_cleanupExpiredCodes now ;;; cli_cleanupExpiredCodes now ;;; ret (plain ANone)
  end.

Definition event_request (ev : event) : option AuthRequest :=
  match ev with
  | EvAuthorize r _ _ | EvToken r _ _ | EvCallback _ r _ _ _ _ | EvCLIApprove r _
  | EvCLIApproveConfirm r _ => Some r
  | _ => None
  end.

(** The cookie of a request is signed: it decodes to a session the server has
    written, or there is none and the session is empty. *)
Definition genuine (ev : event) (cookies : list Session) : Prop :=
  forall r session, event_request ev = Some r -> AuthRequest.Cookie r = Ok session ->
    session = Session.empty \/ session ∈ cookies.

(** What the server was asked and answered, latest first, the state it is in
    and the sessions it has written. *)
Inductive trace : list (event * answer) -> auth -> list Session -> Prop :=
  | trace_new : trace [] NewAuth []
  | trace_step h s cookies ev a written s' :
      trace h s cookies -> genuine ev cookies -> handle ev s = (Ok (a, written), s') ->
      trace ((ev, a) :: h) s' (written ++ cookies)%list.

(** *** What a history shows *)

(** The identity provider vouched for the user. *)
Definition logged_in (h : list (event * answer)) (u : User) : Prop :=
  exists provider r gothUser accessToken orgs now rand a,
    (EvCallback provider r (Ok (gothUser, accessToken)) orgs now rand, a) ∈ h /\
    u = enrich provider gothUser accessToken orgs.

(** A client was registered with this redirect URI. *)
Definition registered (h : list (event * answer)) (clientID uri : string) : Prop :=
  exists method req now rand c,
    (EvRegister method req now rand, AClient c) ∈ h /\
    registeredClient.ClientID c = clientID /\ uri ∈ registeredClient.RedirectURIs c.

(** An authorization was asked for, by a registered client. *)
Definition asked (h : list (event * answer)) (uri challenge : string) : Prop :=
  exists r now rand a,
    (EvAuthorize r now rand, a) ∈ h /\ query r "response_type" = "code" /\
    query r "redirect_uri" = uri /\ query r "code_challenge" = challenge /\
    query r "code_challenge_method" = "S256" /\ registered h (query r "client_id") uri.

(** The event drew this authorization code at this moment. *)
Definition draws (ev : event) : option (string * time) :=
  match ev with
  | EvAuthorize _ now (Ok code) | EvCallback _ _ _ _ now (Ok code) => Some (code, now)
  | _ => None
  end.
Definition drawn (h : list (event * answer)) (code : string) (now : time) : Prop :=
  exists ev a, (ev, a) ∈ h /\ draws ev = Some (code, now).

(** The user let the device with this code in. *)
Definition approved (h : list (event * answer)) (code : string) (u : User) : Prop :=
  (exists r now, (EvCLIApproveConfirm r now, AApprovedPage) ∈ h /\
     FormValue r "code" = code /\ GetUserFromSession r = Some u) \/
  (exists provider r gothUser accessToken orgs now rand,
     (EvCallback provider r (Ok (gothUser, accessToken)) orgs now rand, AApprovedPage) ∈ h /\
     query r "cli_code" = code /\ u = enrich provider gothUser accessToken orgs).

Definition session_ok (h : list (event * answer)) (ses : Session) : Prop :=
  (forall u, Session.user ses = Some u -> logged_in h u) /\
  (forall uri challenge, Session.oauth_redirect_uri ses = Some uri ->
     Session.oauth_code_challenge ses = Some challenge -> asked h uri challenge).

Definition code_ok (h : list (event * answer)) (code : string) (ac : authCode) : Prop :=
  logged_in h (authCode.User_ ac) /\ asked h (authCode.RedirectURI ac) (authCode.CodeChallenge ac) /\
  exists now, drawn h code now /\ authCode.ExpiresAt ac = (now + tenMinutes)%Z.

Definition state_ok (h : list (event * answer)) (st : cliLoginState.t) : Prop :=
  cliLoginState.Approved st = true ->
  exists u, cliLoginState.User_ st = Some u /\ logged_in h u /\
    approved h (cliLoginState.Code st) u.

Definition poll_ok (h : list (event * answer)) (s : auth) (p : poll) : Prop :=
  match p with
  | PollRead code (Some ptr) =>
      exists st, au_cliStates s !! ptr = Some st /\ cliLoginState.Code st = code
  | PollRead _ None => True
  | PollMade code token =>
      exists u issued, logged_in h u /\ approved h code u /\
        GenerateToken issued u (AuthConfig.SessionSecret cfg) thirtyDays [] AudienceAPI = Ok token
  end.

Record auth_ok (h : list (event * answer)) (s : auth) (cookies : list Session) : Prop := {
  ok_clients : map_Forall (fun id c => registeredClient.ClientID c = id /\
    exists method req now rand, (EvRegister method req now rand, AClient c) ∈ h) (au_clients s);
  ok_cookies : Forall (session_ok h) cookies;
  ok_codes : map_Forall (code_ok h) (au_codes s);
  ok_states : map_Forall (fun _ st => state_ok h st) (au_cliStates s);
  ok_cliCodes : map_Forall (fun code ptr =>
    exists st, au_cliStates s !! ptr = Some st /\ cliLoginState.Code st = code) (au_cliCodes s);
  ok_polls : map_Forall (fun _ p => poll_ok h s p) (au_polls s) }.

(** *** Histories grow *)
Section grow.
Context (e : event * answer) (h : list (event * answer)).

Lemma logged_in_grow u : logged_in h u -> logged_in (e :: h) u.
Proof.
  intros (provider & r & gu & tok & orgs & now & rand & a & Hin & ->).
  exists provider, r, gu, tok, orgs, now, rand, a. split; [by right|done].
Qed.

Lemma registered_grow id uri : registered h id uri -> registered (e :: h) id uri.
Proof.
  intros (m & req & now & rand & c & Hin & ? & ?). exists m, req, now, rand, c.
  split; [by right|done].
Qed.

Lemma asked_grow uri ch : asked h uri ch -> asked (e :: h) uri ch.
Proof.
  intros (r & now & rand & a & Hin & ? & ? & ? & ? & ?). exists r, now, rand, a.
  split; [by right|]. repeat split; try done. by apply registered_grow.
Qed.

Lemma drawn_grow code now : drawn h code now -> drawn (e :: h) code now.
Proof. intros (ev & a & Hin & ?). exists ev, a. split; [by right|done]. Qed.

Lemma approved_grow code u : approved h code u -> approved (e :: h) code u.
Proof.
  intros [(r & now & Hin & ?)|(p & r & gu & tok & orgs & now & rand & Hin & ?)]; [left|right].
  - exists r, now. split; [by right|done].
  - exists p, r, gu, tok, orgs, now, rand. split; [by right|done].
Qed.

Lemma session_ok_grow ses : session_ok h ses -> session_ok (e :: h) ses.
Proof. intros [Hu Hp]. split; [by eauto using logged_in_grow|by eauto using asked_grow]. Qed.

Lemma code_ok_grow code ac : code_ok h code ac -> code_ok (e :: h) code ac.
Proof.
  intros (Hu & Ha & now & Hd & ?).
  split; [by apply logged_in_grow|split; [by apply asked_grow|]].
  exists now. split; [by apply drawn_grow|done].
Qed.

Lemma state_ok_grow st : state_ok h st -> state_ok (e :: h) st.
Proof.
  intros Hst Ha. destruct (Hst Ha) as (u & ? & ? & ?).
  exists u. eauto using logged_in_grow, approved_grow.
Qed.

Lemma poll_ok_grow s p : poll_ok h s p -> poll_ok (e :: h) s p.
Proof.
  destruct p as [code [ptr|]|code token]; simpl; [done|done|].
  intros (u & issued & ? & ? & ?). exists u, issued. eauto using logged_in_grow, approved_grow.
Qed.

Lemma auth_ok_grow s cookies : auth_ok h s cookies -> auth_ok (e :: h) s cookies.
Proof.
  intros [Hcl Hck Hco Hst Hcc Hp]. split; try done.
  - intros id c Hc. destruct (Hcl id c Hc) as (? & m & req & now & rand & Hin). split; [done|].
    exists m, req, now, rand. by right.
  - eapply Forall_impl; [exact Hck|apply session_ok_grow].
  - intros code ac Hac. by apply code_ok_grow, Hco.
  - intros ptr st Hptr. by eapply state_ok_grow, Hst.
  - intros k p Hk. by eapply poll_ok_grow, Hp.
Qed.
End grow.

(** *** What keeps the invariant *)
Section keep.
Context (h : list (event * answer)) (s : auth) (cookies : list Session)
  (Hok : auth_ok h s cookies).

Lemma ok_write written : Forall (session_ok h) written -> auth_ok h s (written ++ cookies).
Proof. intros Hw. destruct Hok. split; try done. by apply Forall_app. Qed.

Lemma ok_more_codes code ac : code_ok h code ac -> auth_ok h (set_codes (<[code := ac]>) s) cookies.
Proof. intros Hac. destruct Hok. split; try done. by apply map_Forall_insert_2. Qed.

Lemma ok_fewer_codes f : (forall m, f m ⊆ m) -> auth_ok h (set_codes f s) cookies.
Proof.
  intros Hf. destruct Hok as [? ? Hco]. split; try done. intros code ac Hc. apply Hco.
  eapply lookup_weaken; [exact Hc|apply Hf].
Qed.

Lemma ok_more_clients c :
  (exists method req now rand, (EvRegister method req now rand, AClient c) ∈ h) ->
  auth_ok h (set_clients (<[registeredClient.ClientID c := c]>) s) cookies.
Proof. intros Hc. destruct Hok. split; try done. by apply map_Forall_insert_2. Qed.

Lemma ok_fewer_cliCodes f : (forall m, f m ⊆ m) -> auth_ok h (set_cliCodes f s) cookies.
Proof.
  intros Hf. destruct Hok as [? ? ? ? Hcc Hp]. split; try done. intros code ptr Hc. apply Hcc.
  eapply lookup_weaken; [exact Hc|apply Hf].
Qed.

(** A state may change as long as its code stays. *)
Lemma ok_state ptr st :
  state_ok h st ->
  (forall st', au_cliStates s !! ptr = Some st' ->
     cliLoginState.Code st' = cliLoginState.Code st) ->
  auth_ok h (set_cliStates (<[ptr := st]>) s) cookies.
Proof.
  intros Hst Hcode.
  assert (Hkeep : forall ptr' code, (exists st', au_cliStates s !! ptr' = Some st' /\
      cliLoginState.Code st' = code) ->
    exists st', <[ptr := st]> (au_cliStates s) !! ptr' = Some st' /\ cliLoginState.Code st' = code).
  { intros ptr' code (st' & Hl & <-). destruct (decide (ptr = ptr')) as [<-|Hne].
    - exists st. rewrite lookup_insert_eq. split; [done|]. symmetry. by apply Hcode.
    - exists st'. by rewrite lookup_insert_ne. }
  destruct Hok as [? ? ? Hs Hcc Hp]. split; try done.
  - by apply map_Forall_insert_2.
  - intros code ptr' Hc. by apply Hkeep, Hcc.
  - intros k p Hk. specialize (Hp k p Hk).
    destruct p as [code [ptr'|]|code token]; simpl in *; [by apply Hkeep|done|done].
Qed.

Lemma ok_new_code code ptr :
  (exists st, au_cliStates s !! ptr = Some st /\ cliLoginState.Code st = code) ->
  auth_ok h (set_cliCodes (<[code := ptr]>) s) cookies.
Proof. intros Hp. destruct Hok. split; try done. by apply map_Forall_insert_2. Qed.

Lemma ok_poll k p : poll_ok h s p -> auth_ok h (set_polls (<[k := p]>) s) cookies.
Proof. intros Hp. destruct Hok. split; try done. by apply map_Forall_insert_2. Qed.

Lemma ok_no_poll k : auth_ok h (set_polls (delete k) s) cookies.
Proof. destruct Hok. split; try done. by apply map_Forall_delete. Qed.
End keep.

Lemma save_cases r session :
  save r session = ([session], None) \/ exists e, save r session = ([], Some e).
Proof. unfold save. destruct (AuthRequest.SaveErr r); [right; by eexists|by left]. Qed.

Lemma session_empty_ok h : session_ok h Session.empty.
Proof. by split. Qed.

(** The session a genuine request carries is one of the server's. *)
Lemma genuine_session h s cookies ev r session e :
  auth_ok h s cookies -> genuine ev cookies -> event_request ev = Some r ->
  AuthRequest.Cookie r = Ok session -> session_ok (e :: h) session.
Proof.
  intros Hok Hg Hr Hc. apply session_ok_grow.
  destruct (Hg r session Hr Hc) as [->|Hin]; [apply session_empty_ok|].
  pose proof (ok_cookies _ _ _ Hok) as Hf. rewrite Forall_forall in Hf. by apply Hf.
Qed.

Lemma genuine_user h s cookies ev r u e :
  auth_ok h s cookies -> genuine ev cookies -> event_request ev = Some r ->
  GetUserFromSession r = Some u -> logged_in (e :: h) u.
Proof.
  intros Hok Hg Hr. unfold GetUserFromSession.
  destruct (AuthRequest.Cookie r) as [session|] eqn:Hc; [|done].
  destruct (genuine_session _ _ _ _ _ _ e Hok Hg Hr Hc) as [Hu _]. apply Hu.
Qed.

(** Issuing a code keeps the invariant when the user logged in and somebody
    asked. *)
Lemma issueCode_ok h s cookies user uri state challenge now rand a s' ev a' :
  auth_ok h s cookies -> In (ev, a') h ->
  (forall code, rand = Ok code -> draws ev = Some (code, now)) ->
  logged_in h user -> asked h uri challenge ->
  issueCodeAndRedirect user uri state challenge now rand s = (Ok a, s') ->
  auth_ok h s' cookies.
Proof.
  intros Hok Hin Hd Hu Ha. unfold issueCodeAndRedirect.
  destruct rand as [code|e]; [|by intros [= _ <-]].
  unfold bind, modify, ret. intros [= _ <-]. apply ok_more_codes; [done|].
  split; [done|split; [done|]]. exists now. split; [|done].
  exists ev, a'. split; [by apply list_elem_of_In|by apply Hd].
Qed.

(** Take the monad apart, and every test with it. *)
Ltac by_cases :=
  unfold bind, gets, modify, ret, plain in *; cbv beta iota zeta in *;
  try simplify_eq/=; repeat (case_match; simplify_eq/=).

Lemma HandleRegister_ok h s cookies method req now rand a written s' :
  auth_ok h s cookies -> HandleRegister method req now rand s = (Ok (a, written), s') ->
  auth_ok ((EvRegister method req now rand, a) :: h) s' (written ++ cookies).
Proof.
  intros Hok He. apply (auth_ok_grow (EvRegister method req now rand, a)) in Hok.
  unfold HandleRegister in He. by_cases; try done.
  all: apply (ok_more_clients _ _ _ Hok); do 4 eexists; left.
Qed.

Lemma HandleAuthorize_ok h s cookies r now rand a written s' :
  auth_ok h s cookies -> genuine (EvAuthorize r now rand) cookies ->
  HandleAuthorize r now rand s = (Ok (a, written), s') ->
  auth_ok ((EvAuthorize r now rand, a) :: h) s' (written ++ cookies).
Proof.
  intros Hok Hg He. set (e := (EvAuthorize r now rand, a)).
  pose proof (auth_ok_grow e _ _ _ Hok) as Hok'.
  unfold HandleAuthorize in He. unfold bind at 1, gets at 1 in He. unfold plain, ret in He.
  repeat (case_match; [by simplify_eq/=|]).
  destruct (au_clients s !! query r "client_id") as [client|] eqn:Hcl; [|by simplify_eq/=].
  destruct (hasRedirectURI client _) eqn:Huri; cbn [negb] in He; [|by simplify_eq/=].
  destruct (decide (query r "code_challenge" = "" \/ _)) as [|Hpkce]; [by simplify_eq/=|].
  assert (Hasked : asked (e :: h) (query r "redirect_uri") (query r "code_challenge")).
  { exists r, now, rand, a. split; [left|]. split; [by apply dec_stable|].
    do 2 (split; [done|]). split; [apply dec_stable; intros ?; apply Hpkce; by right|].
    destruct (ok_clients _ _ _ Hok _ _ Hcl) as (Hid & m & req & now' & rand' & Hin).
    exists m, req, now', rand', client. split; [by right|]. split; [done|].
    apply existsb_exists in Huri as (u & Hu & ->%String.eqb_eq). by apply list_elem_of_In. }
  destruct (GetUserFromSession r) as [user|] eqn:Hu.
  - unfold bind, ret in He.
    destruct (issueCodeAndRedirect _ _ _ _ now rand s) as [[a'|] s1] eqn:Hi; [|done].
    simplify_eq/=. eapply (issueCode_ok _ _ _ user); [exact Hok'| | | |exact Hasked|exact Hi].
    + by left.
    + intros code ->. reflexivity.
    + by eapply genuine_user.
  - destruct (AuthRequest.Cookie r) as [session|] eqn:Hc; [|by simplify_eq/=].
    pose proof (genuine_session _ _ _ _ _ _ e Hok Hg eq_refl Hc) as [Hus _].
    destruct (save_cases r (Session.set_oauth (query r "redirect_uri") (query r "state")
      (query r "code_challenge") (query r "client_id") session)) as [Hs|[e' Hs]];
      rewrite Hs in He; simplify_eq/=; [|done].
    apply (ok_write _ _ _ Hok' [_]), Forall_singleton. split; [exact Hus|].
    by intros uri challenge [= <-] [= <-].
Qed.

Lemma HandleToken_ok h s cookies r now issued a written s' :
  auth_ok h s cookies -> HandleToken r now issued s = (Ok (a, written), s') ->
  auth_ok ((EvToken r now issued, a) :: h) s' (written ++ cookies).
Proof.
  intros Hok He. apply (auth_ok_grow (EvToken r now issued, a)) in Hok.
  assert (Hdel : auth_ok ((EvToken r now issued, a) :: h)
    (set_codes (delete (FormValue r "code")) s) cookies)
    by (apply (ok_fewer_codes _ _ _ Hok); intros m; apply delete_subseteq).
  unfold HandleToken in He. by_cases; done.
Qed.

(** A callback's user has logged in, and what its session asked for was asked
    for. *)
Lemma CompleteAuthorize_ok h s cookies ev a' r session user now rand a more s' :
  auth_ok h s cookies -> In (ev, a') h ->
  (forall code, rand = Ok code -> draws ev = Some (code, now)) ->
  session_ok h session -> logged_in h user ->
  CompleteAuthorize r session user now rand s = (Ok (a, more), s') ->
  auth_ok h s' cookies /\ Forall (session_ok h) more.
Proof.
  intros Hok Hin Hd [Hsu Hsa] Hu He. unfold CompleteAuthorize in He.
  unfold ret in He. destruct (Session.oauth_redirect_uri session) as [uri|] eqn:Huri;
    [|simplify_eq/=; by split].
  assert (Hcl : session_ok h (Session.clear_oauth session)) by (split; [exact Hsu|done]).
  assert (Hmore : forall more' e, save r (Session.clear_oauth session) = (more', e) ->
    Forall (session_ok h) more').
  { intros more' e Hs. destruct (save_cases r (Session.clear_oauth session)) as [Hr|[e' Hr]];
      rewrite Hr in Hs; simplify_eq; [by apply Forall_singleton|by constructor]. }
  destruct (save r _) as [more' e] eqn:Hsave. specialize (Hmore _ _ eq_refl).
  destruct uri as [|c uri]; [simplify_eq/=; by split|].
  destruct (Session.oauth_code_challenge session) as [challenge|] eqn:Hch;
    cbn [default] in He; [|simplify_eq/=; by split].
  case_decide; [simplify_eq/=; by split|]. unfold bind in He. simpl in He.
  destruct (issueCodeAndRedirect _ _ _ _ now rand s) as [[a''|] s1] eqn:Hi; simplify_eq.
  split; [|done]. eapply (issueCode_ok _ _ _ _ (String c uri) _ challenge);
    [exact Hok|exact Hin|exact Hd|exact Hu|by apply Hsa|exact Hi].
Qed.

Lemma handleCLICallback_ok h s cookies code user now a s' :
  auth_ok h s cookies -> logged_in h user ->
  (a = Some AApprovedPage -> approved h code user) ->
  handleCLICallback code user now s = (Ok a, s') -> auth_ok h s' cookies.
Proof.
  intros Hok Hu Ha He. unfold handleCLICallback in He. unfold bind at 1, gets at 1, ret in He.
  unfold cli_state in He. destruct (au_cliCodes s !! code) as [ptr|] eqn:Hc; [|by simplify_eq/=].
  destruct (ok_cliCodes _ _ _ Hok _ _ Hc) as (st & Hst & Hcode). rewrite Hst in He. simpl in He.
  destruct (now <? _)%Z; unfold bind, modify in He; simplify_eq/=; [|done].
  apply (ok_state _ _ _ Hok); [|intros st' Hst'; simpl; congruence].
  intros _. exists user. split; [done|]. split; [done|]. by apply Ha.
Qed.

Lemma Callback_ok h s cookies provider r gothUser orgs now rand a written s' :
  auth_ok h s cookies -> genuine (EvCallback provider r gothUser orgs now rand) cookies ->
  Callback provider r gothUser orgs now rand s = (Ok (a, written), s') ->
  auth_ok ((EvCallback provider r gothUser orgs now rand, a) :: h) s' (written ++ cookies).
Proof.
  intros Hok Hg He. set (ev := EvCallback provider r gothUser orgs now rand) in *.
  pose proof (auth_ok_grow (ev, a) _ _ _ Hok) as Hok'.
  unfold Callback, plain, ret in He. destruct gothUser as [[gu tok]|e]; [|by simplify_eq/=].
  set (user := enrich provider gu tok orgs) in *.
  assert (Hu : logged_in ((ev, a) :: h) user).
  { exists provider, r, gu, tok, orgs, now, rand, a. split; [left|done]. }
  unfold SaveUserToSession in He.
  destruct (AuthRequest.Cookie r) as [session|] eqn:Hc; [|by simplify_eq/=].
  pose proof (genuine_session _ _ _ _ _ _ (ev, a) Hok Hg eq_refl Hc) as [_ Hsa].
  assert (Hses : session_ok ((ev, a) :: h) (Session.set_user user session)).
  { split; [by intros u [= <-]|exact Hsa]. }
  destruct (save_cases r (Session.set_user user session)) as [Hs|[e' Hs]];
    rewrite Hs in He; [|by simplify_eq/=].
  unfold bind at 1 in He.
  set (m := if decide (query r "cli_code" <> "") then _ else _) in He.
  destruct (m s) as [[[page|]|] s1] eqn:Hm; simplify_eq/=.
  - apply (ok_write _ _ _) with (written := [_]); [|by apply Forall_singleton].
    subst m. case_decide; [|by unfold ret in Hm; simplify_eq].
    eapply handleCLICallback_ok; [exact Hok'|exact Hu| |exact Hm]. intros [= ->]. right.
    exists provider, r, gu, tok, orgs, now, rand. split; [left|done].
  - assert (Hok1 : auth_ok ((ev, a) :: h) s1 cookies).
    { subst m. case_decide; [|by unfold ret in Hm; simplify_eq].
      eapply (handleCLICallback_ok _ _ _ _ _ _ None); [exact Hok'|exact Hu|done|exact Hm]. }
    unfold bind in He.
    destruct (CompleteAuthorize _ _ _ now rand s1) as [[[pending more]|] s2] eqn:Hp; [|done].
    eapply (CompleteAuthorize_ok _ _ _ ev a) in Hp as [Hok2 Hmore];
      [|exact Hok1|by left|by intros code ->|exact Hses|exact Hu].
    assert (Hw : written = Session.set_user user session :: more /\ s' = s2)
      by (destruct pending; unfold ret in He; by simplify_eq/=).
    destruct Hw as [-> ->]. apply (ok_write _ _ _ Hok2 (_ :: more)). by constructor.
Qed.

Lemma CLIBegin_ok h s cookies now rand a written s' :
  auth_ok h s cookies -> CLIBegin now rand s = (Ok (a, written), s') ->
  auth_ok ((EvCLIBegin now rand, a) :: h) s' (written ++ cookies).
Proof.
  intros Hok He. apply (auth_ok_grow (EvCLIBegin now rand, a)) in Hok.
  unfold CLIBegin in He. destruct rand as [code|e]; unfold bind, gets, modify, plain, ret in He;
    simplify_eq/=; [|done].
  apply ok_new_code; [apply (ok_state _ _ _ Hok); [done|]|].
  - intros st Hst. assert (Hf : fresh_state s ∉ (dom (au_cliStates s) : gset nat)) by (unfold fresh_state; apply is_fresh).
    apply not_elem_of_dom in Hf. congruence.
  - eexists. split; [apply lookup_insert_eq|done].
Qed.

Lemma CLIApproveConfirm_ok h s cookies r now a written s' :
  auth_ok h s cookies -> genuine (EvCLIApproveConfirm r now) cookies ->
  CLIApproveConfirm r now s = (Ok (a, written), s') ->
  auth_ok ((EvCLIApproveConfirm r now, a) :: h) s' (written ++ cookies).
Proof.
  intros Hok Hg He. pose proof (auth_ok_grow (EvCLIApproveConfirm r now, a) _ _ _ Hok) as Hok'.
  unfold CLIApproveConfirm, plain, ret in He.
  destruct (GetUserFromSession r) as [user|] eqn:Hu; [|by simplify_eq/=].
  unfold bind at 1, gets, cli_state in He.
  destruct (au_cliCodes s !! FormValue r "code") as [ptr|] eqn:Hc; [|by simplify_eq/=].
  destruct (ok_cliCodes _ _ _ Hok _ _ Hc) as (st & Hst & Hcode). rewrite Hst in He. simpl in He.
  destruct (_ <? now)%Z; unfold bind, modify in He; simplify_eq/=; [done|].
  apply (ok_state _ _ _ Hok'); [|intros st' Hst'; simpl; congruence].
  intros _. exists user. split; [done|]. split; [by eapply genuine_user|].
  left. exists r, now. split; [left|done].
Qed.

Lemma poll_read_ok h s cookies k code a written s' :
  auth_ok h s cookies -> poll_read k code s = (Ok (a, written), s') ->
  auth_ok ((EvPollRead k code, a) :: h) s' (written ++ cookies).
Proof.
  intros Hok He. apply (auth_ok_grow (EvPollRead k code, a)) in Hok.
  unfold poll_read, bind, gets, modify, plain, ret in He. simplify_eq/=.
  apply (ok_poll _ _ _ Hok). simpl.
  destruct (au_cliCodes s !! code) as [ptr|] eqn:Hc; [|done]. exact (ok_cliCodes _ _ _ Hok _ _ Hc).
Qed.

Lemma poll_decide_ok h s cookies k now issued a written s' :
  auth_ok h s cookies -> poll_decide k now issued s = (Ok (a, written), s') ->
  auth_ok ((EvPollDecide k now issued, a) :: h) s' (written ++ cookies).
Proof.
  intros Hok He. apply (auth_ok_grow (EvPollDecide k now issued, a)) in Hok.
  pose proof (ok_no_poll _ _ _ Hok k) as Hno.
  unfold poll_decide, plain, ret in He. unfold bind at 1, gets in He.
  destruct (au_polls s !! k) as [[code [ptr|]|code token]|] eqn:Hk;
    unfold bind, modify in He; simplify_eq/=; try done.
  destruct (au_cliStates s !! ptr) as [st|] eqn:Hst; [|by simplify_eq/=].
  destruct (_ <? now)%Z.
  { simplify_eq/=. apply (ok_fewer_cliCodes _ _ _ Hno). intros m. apply delete_subseteq. }
  destruct (cliLoginState.Approved st) eqn:Ha; [|by simplify_eq/=].
  destruct (ok_states _ _ _ Hok _ _ Hst Ha) as (u & Hu & Hl & Hap). rewrite Hu in He.
  destruct (GenerateToken issued u _ _ _ _) as [token|] eqn:Ht; simplify_eq/=; [|done].
  apply (ok_poll _ _ _ Hok). exists u, issued.
  destruct (ok_polls _ _ _ Hok _ _ Hk) as (st' & Hst' & <-).
  by rewrite Hst in Hst'; simplify_eq.
Qed.

Lemma poll_consume_ok h s cookies k a written s' :
  auth_ok h s cookies -> poll_consume k s = (Ok (a, written), s') ->
  auth_ok ((EvPollConsume k, a) :: h) s' (written ++ cookies).
Proof.
  intros Hok He. apply (auth_ok_grow (EvPollConsume k, a)) in Hok.
  unfold poll_consume, plain, ret in He. unfold bind at 1, gets in He.
  destruct (au_polls s !! k) as [[code [ptr|]|code token]|] eqn:Hk;
    unfold bind, modify in He; simplify_eq/=; try done.
  refine (ok_no_poll _ (set_cliCodes _ s) _ _ k).
  apply (ok_fewer_cliCodes _ _ _ Hok). intros m. apply delete_subseteq.
Qed.

Lemma handle_ok h s cookies ev a written s' :
  auth_ok h s cookies -> genuine ev cookies -> handle ev s = (Ok (a, written), s') ->
  auth_ok ((ev, a) :: h) s' (written ++ cookies).
Proof.
  intros Hok Hg He. destruct ev; cbn [handle] in He.
  - by eapply HandleRegister_ok.
  - by eapply HandleAuthorize_ok.
  - by eapply HandleToken_ok.
  - by eapply Callback_ok.
  - by eapply CLIBegin_ok.
  - apply (auth_ok_grow (EvCLIApprove r now, a)) in Hok. unfold CLIApprove in He. by by_cases.
  - by eapply CLIApproveConfirm_ok.
  - by eapply poll_read_ok.
  - by eapply poll_decide_ok.
  - by eapply poll_consume_ok.
  - apply (auth_ok_grow (EvCleanup now, a)) in Hok.
    unfold oauth_cleanupExpiredCodes, cli_cleanupExpiredCodes, bind, modify, plain, ret in He.
    simplify_eq/=. refine (ok_fewer_cliCodes _ (set_codes _ s) _ _ _ _); [|intros m; apply map_filter_subseteq].
    apply (ok_fewer_codes _ _ _ Hok). intros m. apply map_filter_subseteq.
Qed.

Lemma trace_ok h s cookies : trace h s cookies -> auth_ok h s cookies.
Proof.
  induction 1 as [|h s cookies ev a written s' _ IH Hg He]; [|by eapply handle_ok].
  split; try apply map_Forall_empty. constructor.
Qed.

(** C8: an access token for MCP clients presupposes a login. Whatever requests
    the server has had, when it answers a token request with a token then the
    token is for a user the identity provider vouched for earlier; somebody
    asked for it on behalf of a registered client, with the redirect URI the
    request repeats, and the request's verifier hashes to the challenge given
    then; the code was drawn at most ten minutes ago and is now gone. *)
Theorem access_token_needs_login h s cookies r now issued token expires_in scope written s' :
  trace h s cookies ->
  HandleToken r now issued s = (Ok (AAccessToken token expires_in scope, written), s') ->
  let code := FormValue r "code" in
  exists user drawn_at,
    logged_in h user /\
    asked h (FormValue r "redirect_uri") (pkce_challenge (FormValue r "code_verifier")) /\
    drawn h code drawn_at /\ (now <= drawn_at + tenMinutes)%Z /\
    GenerateToken issued user (AuthConfig.SessionSecret cfg) thirtyDays [MCPScope] AudienceMCP
      = Ok token /\
    au_codes s' !! code = None.
Proof.
  intros Htr He code. subst code. pose proof (trace_ok _ _ _ Htr) as Hok.
  unfold HandleToken, plain, ret in He. repeat (case_match; [by simplify_eq/=|]).
  unfold bind at 1, gets in He.
  destruct (au_codes s !! FormValue r "code") as [ac|] eqn:Hac; [|by simplify_eq/=].
  destruct (ok_codes _ _ _ Hok _ _ Hac) as (Hu & Hasked & drawn_at & Hdrawn & Hexp).
  unfold bind, modify in He. destruct (Z.ltb_spec (authCode.ExpiresAt ac) now); [by simplify_eq/=|].
  destruct (decide (FormValue r "redirect_uri" <> _)) as [|Huri]; [by simplify_eq/=|].
  destruct (decide (pkce_challenge _ <> _)) as [|Hpkce]; [by simplify_eq/=|].
  apply dec_stable in Huri, Hpkce. rewrite Huri, Hpkce.
  destruct (GenerateToken issued _ _ _ _ _) as [tok|] eqn:Ht; simplify_eq/=.
  exists (authCode.User_ ac), drawn_at. repeat split; try done; [lia|apply lookup_delete_eq].
Qed.

(** The tokens handed out for a code, and how often it was drawn. *)
Definition redeems (code : string) (e : event * answer) : bool :=
  match e with
  | (EvToken r _ _, AAccessToken _ _ _) => bool_decide (FormValue r "code" = code)
  | _ => false
  end.
Definition draws_code (code : string) (e : event * answer) : bool :=
  match draws e.1 with Some (code', _) => bool_decide (code' = code) | None => false end.
Definition count (f : event * answer -> bool) (h : list (event * answer)) : nat :=
  length (List.filter f h).
Definition pending (code : string) (s : auth) : nat :=
  match au_codes s !! code with Some _ => 1 | None => 0 end.

Definition rand_is (code : string) (rand : result string) : bool :=
  match rand with Ok code' => bool_decide (code' = code) | Err _ => false end.

Lemma count_cons f e h : count f (e :: h) = (if f e then 1 else 0) + count f h.
Proof. unfold count. simpl. by destruct (f e). Qed.

Lemma issueCode_pending code user uri state challenge now rand a s s' :
  issueCodeAndRedirect user uri state challenge now rand s = (Ok a, s') ->
  pending code s' <= pending code s + (if rand_is code rand then 1 else 0).
Proof.
  unfold issueCodeAndRedirect. destruct rand as [code'|e]; unfold bind, modify, ret;
    intros [= _ <-]; [|lia].
  unfold pending, rand_is. simpl. destruct (decide (code' = code)) as [->|Hne].
  - rewrite lookup_insert_eq. rewrite bool_decide_eq_true_2 by done. destruct (au_codes s !! code); lia.
  - rewrite lookup_insert_ne by done. lia.
Qed.

Lemma CompleteAuthorize_pending code r session user now rand a s s' :
  CompleteAuthorize r session user now rand s = (Ok a, s') ->
  pending code s' <= pending code s + (if rand_is code rand then 1 else 0).
Proof.
  unfold CompleteAuthorize, ret.
  destruct (Session.oauth_redirect_uri session) as [[|c uri]|]; try (intros [= _ <-]; lia).
  destruct (save r _) as [cookies e]. case_decide; [intros [= _ <-]; lia|].
  unfold bind. destruct (issueCodeAndRedirect _ _ _ _ _ _ s) as [[a'|] s1] eqn:Hi; intros [= _ <-].
  by eapply issueCode_pending.
Qed.

Lemma handleCLICallback_codes cliCode user now a s s' :
  handleCLICallback cliCode user now s = (Ok a, s') -> au_codes s' = au_codes s.
Proof.
  unfold handleCLICallback, bind, gets, ret, modify.
  repeat case_match; intros; by simplify_eq/=.
Qed.

Lemma Callback_pending code provider r gothUser orgs now rand a s s' :
  Callback provider r gothUser orgs now rand s = (Ok a, s') ->
  pending code s' <= pending code s + (if rand_is code rand then 1 else 0).
Proof.
  unfold Callback, plain, ret. destruct gothUser as [[gu tok]|e]; [|intros [= _ <-]; lia].
  destruct (SaveUserToSession r _) as [cookies [e|]]; [intros [= _ <-]; lia|].
  unfold bind at 1. set (m := if decide _ then _ else _). destruct (m s) as [handled s1] eqn:Hm.
  assert (Hs1 : pending code s1 = pending code s /\ exists o, handled = Ok o).
  { subst m. revert Hm. case_decide; [|intros [= <- <-]; by eauto].
    intros Hm.
    assert (Hex : exists o, handled = Ok o) by
      (revert Hm; unfold handleCLICallback, bind, gets, ret, modify;
       repeat case_match; intros; simplify_eq/=; eauto).
    destruct Hex as [o ->]. apply handleCLICallback_codes in Hm.
    unfold pending. rewrite Hm. eauto. }
  destruct Hs1 as [<- [[page|] ->]]; [intros [= _ <-]; lia|].
  destruct (AuthRequest.Cookie r) as [session|e]; [|intros [= _ <-]; lia].
  unfold bind. destruct (CompleteAuthorize _ _ _ now rand s1) as [[[[] more]|] s2] eqn:Hp;
    intros [= _ <-]; by eapply CompleteAuthorize_pending.
Qed.

Lemma HandleAuthorize_pending code r now rand a s s' :
  HandleAuthorize r now rand s = (Ok a, s') ->
  pending code s' <= pending code s + (if rand_is code rand then 1 else 0).
Proof.
  unfold HandleAuthorize, plain, ret. repeat (case_match; [intros [= _ <-]; lia|]).
  unfold bind at 1, gets. destruct (au_clients s !! _) as [client|]; [|intros [= _ <-]; lia].
  repeat (case_match; [intros [= _ <-]; lia|]). destruct (GetUserFromSession r) as [user|].
  - unfold bind. destruct (issueCodeAndRedirect _ _ _ _ _ _ s) as [[a'|] s1] eqn:Hi; intros [= _ <-].
    by eapply issueCode_pending.
  - repeat case_match; intros [= _ <-]; lia.
Qed.

(** A token takes its code away; no other request does more than that. *)
Lemma HandleToken_pending code r now issued a written s s' :
  HandleToken r now issued s = (Ok (a, written), s') ->
  (if redeems code (EvToken r now issued, a) then 1 else 0) + pending code s' <= pending code s.
Proof.
  intros He. assert (Hkeep : forall c, pending code (set_codes (delete c) s) <= pending code s).
  { intros c. unfold pending. simpl. destruct (decide (c = code)) as [->|Hne].
    - rewrite lookup_delete_eq. destruct (au_codes s !! code); lia.
    - by rewrite lookup_delete_ne. }
  unfold HandleToken, plain, ret in He. repeat (case_match; [simplify_eq/=; lia|]).
  unfold bind at 1, gets in He.
  destruct (au_codes s !! FormValue r "code") as [ac|] eqn:Hac; [|simplify_eq/=; lia].
  specialize (Hkeep (FormValue r "code")). unfold bind, modify in He.
  do 3 (case_match; [simplify_eq/=; lia|]).
  destruct (GenerateToken issued _ _ _ _ _) as [tok|]; simplify_eq/=; [|lia].
  destruct (decide (FormValue r "code" = code)) as [<-|Hne].
  - rewrite bool_decide_eq_true_2 by done. unfold pending. simpl.
    rewrite lookup_delete_eq, Hac. lia.
  - rewrite bool_decide_eq_false_2 by done. lia.
Qed.

Lemma pending_same code s s' : au_codes s' = au_codes s -> pending code s' = pending code s.
Proof. unfold pending. by intros ->. Qed.

Lemma handle_pending code ev a written s s' :
  handle ev s = (Ok (a, written), s') ->
  (if redeems code (ev, a) then 1 else 0) + pending code s' <=
    pending code s + (if draws_code code (ev, a) then 1 else 0).
Proof.
  intros He. destruct ev; cbn [handle] in He;
    try (match type of He with _ s = _ => idtac end;
         assert (Hsame : au_codes s' = au_codes s)
           by (unfold HandleRegister, CLIBegin, CLIApprove, CLIApproveConfirm, poll_read,
                 poll_decide, poll_consume in He; by_cases; done);
         rewrite (pending_same _ _ _ Hsame); simpl; lia).
  - apply (HandleAuthorize_pending code) in He.
    unfold draws_code. simpl. destruct rand; simpl in *; lia.
  - apply (HandleToken_pending code) in He. simpl in *. lia.
  - apply (Callback_pending code) in He.
    unfold draws_code. simpl. destruct rand; simpl in *; lia.
  - unfold oauth_cleanupExpiredCodes, cli_cleanupExpiredCodes, bind, modify, plain, ret in He.
    simplify_eq/=. unfold pending. simpl.
    destruct (filter _ (au_codes s) !! code) as [ac|] eqn:Hf; [|lia].
    apply map_lookup_filter_Some in Hf as [-> _]. lia.
Qed.

(** C9: an authorization code buys one token. However the requests come, the
    tokens handed out for a code are at most as many as the times the random
    source drew that code: one, when it never repeats itself. *)
Theorem authorization_code_single_use h s cookies code :
  trace h s cookies -> count (redeems code) h <= count (draws_code code) h.
Proof.
  intros Htr. enough (count (redeems code) h + pending code s <= count (draws_code code) h) by lia.
  induction Htr as [|h s cookies ev a written s' _ IH _ He]; [done|].
  apply (handle_pending code) in He. rewrite !count_cons. lia.
Qed.

(** A token of the command line presupposes a login and a consent. When a
    poll is answered with a token then the token is for a user the identity
    provider vouched for earlier and who, while the device code was valid,
    either submitted the approval of that very code or came back from the
    provider with it. *)
Theorem cli_token_needs_login h s cookies k token written s' :
  trace h s cookies -> poll_consume k s = (Ok (ACliToken token, written), s') ->
  exists code user issued,
    au_polls s !! k = Some (PollMade code token) /\
    logged_in h user /\ approved h code user /\
    GenerateToken issued user (AuthConfig.SessionSecret cfg) thirtyDays [] AudienceAPI = Ok token /\
    au_cliCodes s' !! code = None.
Proof.
  intros Htr He. pose proof (trace_ok _ _ _ Htr) as Hok.
  unfold poll_consume, plain, ret in He. unfold bind at 1, gets in He.
  destruct (au_polls s !! k) as [[code [ptr|]|code token']|] eqn:Hk;
    unfold bind, modify in He; simplify_eq/=.
  destruct (ok_polls _ _ _ Hok _ _ Hk) as (user & issued & Hu & Ha & Ht).
  exists code, user, issued. repeat split; try done. apply lookup_delete_eq.
Qed.

(** A device code is not single-use: two polls that have both read the code
    before one of them removes it are both given a token. *)
Lemma device_code_twice s code ptr st user now issued token k1 k2 :
  k1 <> k2 -> au_cliCodes s !! code = Some ptr -> au_cliStates s !! ptr = Some st ->
  cliLoginState.Approved st = true -> cliLoginState.User_ st = Some user ->
  (now <= cliLoginState.ExpiresAt st)%Z ->
  GenerateToken issued user (AuthConfig.SessionSecret cfg) thirtyDays [] AudienceAPI = Ok token ->
  exists s',
    (poll_read k1 code ;;; poll_read k2 code ;;; poll_decide k1 now issued ;;;
     let! first := poll_consume k1 in
     poll_decide k2 now issued ;;;
     let! second := poll_consume k2 in
     ret (first.1, second.1)) s = (Ok (ACliToken token, ACliToken token), s').
Proof.
  intros Hne Hc Hst Ha Hu Hnow Ht.
  assert (Hlt : (cliLoginState.ExpiresAt st <? now)%Z = false) by (apply Z.ltb_ge; lia).
  unfold poll_read, poll_decide, poll_consume, plain, bind, gets, modify, ret. simpl.
  repeat (rewrite ?Hc, ?Hst, ?Ha, ?Hu, ?Hlt, ?Ht, ?lookup_insert_eq,
    ?(lookup_insert_ne _ k1 k2), ?(lookup_insert_ne _ k2 k1), ?(lookup_delete_ne _ k1 k2),
    ?(lookup_delete_ne _ k2 k1) by done; simpl).
  by eexists.
Qed.

(** A callback with an expired device code shows the approval page and
    approves nothing. *)
Lemma expired_callback_says_approved s code ptr st user now :
  au_cliCodes s !! code = Some ptr -> au_cliStates s !! ptr = Some st ->
  (cliLoginState.ExpiresAt st <= now)%Z ->
  handleCLICallback code user now s = (Ok (Some AApprovedPage), s).
Proof.
  intros Hc Hst Hle. unfold handleCLICallback, cli_state, bind, gets, ret.
  rewrite Hc, Hst. simpl. rewrite (proj2 (Z.ltb_ge _ _)) by done. done.
Qed.
End server.

(** ** Witnesses *)
Definition ex_access : AccessLang := {|
  access_program := string; access_Compile := @Ok string;
  access_Run := fun org u => Ok (bool_decide (org ∈ User.Organizations u)) |}.
#[local] Existing Instances ex_access plain_jwt.

(** The history of a list of events, the state and the sessions at its end. *)
Fixpoint serve_all (cfg : AuthConfig.t) (evs : list event)
    (acc : list (event * answer) * auth * list Session)
    : list (event * answer) * auth * list Session :=
  match evs with
  | [] => acc
  | ev :: evs =>
      let '(h, s, cookies) := acc in
      match handle cfg ev s with
      | (Ok (a, written), s') => serve_all cfg evs ((ev, a) :: h, s', (written ++ cookies)%list)
      | (Err _, _) => acc
      end
  end.

Fixpoint all_genuine (cfg : AuthConfig.t) (evs : list event)
    (acc : list (event * answer) * auth * list Session) : Prop :=
  match evs with
  | [] => True
  | ev :: evs =>
      genuine ev acc.2 /\ all_genuine cfg evs (serve_all cfg [ev] acc)
  end.

Lemma serve_all_trace cfg evs : forall h s cookies,
  trace cfg h s cookies -> all_genuine cfg evs (h, s, cookies) ->
  let '(h', s', cookies') := serve_all cfg evs (h, s, cookies) in trace cfg h' s' cookies'.
Proof.
  induction evs as [|ev evs IH]; intros h s cookies Htr Hg; [done|].
  cbn [serve_all all_genuine] in *. destruct Hg as [Hg Hrest]. simpl in Hrest.
  destruct (handle cfg ev s) as [[[a written]|e] s'] eqn:He; [|done].
  apply IH; [|done]. by eapply trace_step.
Qed.

Definition ex_cfg : AuthConfig.t :=
  AuthConfig.mk "id" "secret" "" "" "" "" "session" "https://ci.example.com" "myorg".
Definition ex_login : User := enrich "github" ex_user "token" (Ok ["myorg"]).
Definition ex_request (method : string) (params form : gmap string (list string))
    (session : Session) : AuthRequest :=
  AuthRequest.mk (Request.mk method "" ∅ params) "/api/pipelines" (Some form) (Ok session) None.
Definition ex_verifier : string := "dBjftJeZ4CVP-mB92K27uhbUJU1p1r_wW1gFWFOEjXk".
Definition ex_session : Session := Session.set_user ex_login Session.empty.
Definition ex_authorize : AuthRequest :=
  ex_request "GET"
    (list_to_map [("response_type", ["code"]); ("client_id", ["client"]);
      ("redirect_uri", ["http://localhost/cb"]); ("code_challenge_method", ["S256"]);
      ("code_challenge", ["E9Melhoa2OwvFrEMTJguCHaoeK1t8URWbuGJSstw-cM"])]) ∅ ex_session.
Definition ex_token : AuthRequest :=
  ex_request "POST" ∅
    (list_to_map [("grant_type", ["authorization_code"]); ("code", ["code"]);
      ("code_verifier", [ex_verifier]); ("redirect_uri", ["http://localhost/cb"])]) Session.empty.

(** A client registers, a user logs in and authorizes it; the command line
    asks for a device code, which the user approves, and polls for it. *)
Definition ex_events : list event :=
  [EvRegister "POST" (Some (RegisterRequest.mk ["http://localhost/cb"] "client" [] [] "")) 0
     (Ok "client");
   EvCallback "github" (ex_request "GET" ∅ ∅ Session.empty) (Ok (ex_user, "token")) (Ok ["myorg"]) 0
     (Ok "unused");
   EvAuthorize ex_authorize 1 (Ok "code");
   EvCLIBegin 2 (Ok "device");
   EvCLIApproveConfirm (ex_request "POST" ∅ {["code" := ["device"]]} ex_session) 3;
   EvPollRead 0 "device"; EvPollDecide 0 4 4].
Definition ex_history : list (event * answer) * auth * list Session :=
  serve_all ex_cfg ex_events ([], NewAuth, []).

Lemma ex_all_genuine : all_genuine ex_cfg ex_events ([], NewAuth, []).
Proof.
  repeat (split; [intros r session Hr Hc; vm_compute in Hr; try discriminate Hr;
    injection Hr as <-; injection Hc as <-|]); try done; try (by left).
  all: right; vm_compute; left.
Qed.

Lemma ex_trace : trace ex_cfg ex_history.1.1 ex_history.1.2 ex_history.2.
Proof.
  pose proof (serve_all_trace ex_cfg ex_events [] NewAuth [] (trace_new ex_cfg) ex_all_genuine) as Ht.
  unfold ex_history. destruct (serve_all _ _ _) as [[h s] cookies]. exact Ht.
Qed.

Lemma authMiddleware_exact_witness :
  authMiddleware ex_cfg 0 (ex_request "GET" ∅ ∅ ex_session) =
    inl (authenticated AuthContext.empty ex_login).
Proof.
  apply (authMiddleware_exact ex_cfg 0 (ex_request "GET" ∅ ∅ ex_session)); [reflexivity|].
  exists ex_login. split; [|split; reflexivity].
  apply (speaks_session ex_cfg 0 _ ex_session); reflexivity.
Defined.

(** A user of no organization is turned away. *)
Example outsider_denied :
  authMiddleware ex_cfg 0 (ex_request "GET" ∅ ∅
      (Session.set_user (token_user ex_user []) Session.empty)) =
    inr (DenyJSON 403 "access denied").
Proof. vm_compute. reflexivity. Qed.

(** Tokens are long: the witnesses evaluate that there is one. *)
Definition gives_token (res : result reply * auth) : bool :=
  match res with (Ok (AAccessToken _ _ _, _), _) | (Ok (ACliToken _, _), _) => true | _ => false end.

Lemma gives_token_access r now issued s :
  gives_token (HandleToken ex_cfg r now issued s) = true ->
  exists token n scope written s',
    HandleToken ex_cfg r now issued s = (Ok (AAccessToken token n scope, written), s').
Proof.
  unfold HandleToken, plain, ret, bind, gets, modify.
  repeat case_match; try discriminate; intros _; by do 5 eexists.
Qed.

Lemma gives_token_cli k s :
  gives_token (poll_consume k s) = true ->
  exists token written s', poll_consume k s = (Ok (ACliToken token, written), s').
Proof.
  unfold poll_consume, plain, ret, bind, gets, modify.
  repeat case_match; try discriminate; intros _; by do 3 eexists.
Qed.

Lemma access_token_needs_login_witness :
  exists token n scope written s' user,
    HandleToken ex_cfg ex_token 5 5 ex_history.1.2 =
      (Ok (AAccessToken token n scope, written), s') /\
    logged_in ex_history.1.1 user /\ au_codes s' !! "code" = None.
Proof.
  assert (Hg : gives_token (HandleToken ex_cfg ex_token 5 5 ex_history.1.2) = true)
    by (vm_compute; reflexivity).
  destruct (gives_token_access _ _ _ _ Hg) as (token & n & scope & written & s' & He).
  destruct (access_token_needs_login ex_cfg _ _ _ _ _ _ _ _ _ _ _ ex_trace He)
    as (user & drawn_at & Hu & _ & _ & _ & _ & Hgone).
  exists token, n, scope, written, s', user. split; [exact He|]. split; [exact Hu|exact Hgone].
Defined.

Lemma authorization_code_single_use_witness :
  count (redeems "code") ex_history.1.1 <= 1.
Proof.
  refine (Nat.le_trans _ _ _
    (authorization_code_single_use ex_cfg _ _ _ "code" ex_trace) _).
  apply Nat.leb_le. vm_compute. reflexivity.
Defined.

Lemma cli_token_needs_login_witness :
  exists token written s' user,
    poll_consume 0 ex_history.1.2 = (Ok (ACliToken token, written), s') /\
    logged_in ex_history.1.1 user /\ approved ex_history.1.1 "device" user.
Proof.
  assert (Hg : gives_token (poll_consume 0 ex_history.1.2) = true) by (vm_compute; reflexivity).
  destruct (gives_token_cli _ _ Hg) as (token & written & s' & He).
  destruct (cli_token_needs_login ex_cfg _ _ _ _ _ _ _ ex_trace He)
    as (code & user & issued & Hp & Hu & Ha & _).
  assert (Hc : code = "device").
  { assert (Hk : match au_polls ex_history.1.2 !! 0 with
      | Some (PollMade c _) => c | _ => "" end = "device") by (vm_compute; reflexivity).
    rewrite Hp in Hk. exact Hk. }
  exists token, written, s', user. split; [exact He|]. split; [exact Hu|].
  exact (eq_ind _ (fun c => approved _ c user) Ha _ Hc).
Defined.
