(* ===== verification/ResourceStore.v ===== *)
(** * Resource versions (runtime/backwards/resource_store.go)

    The versions of a resource are kept in the task store under /rv/<name>:
    a counter, one row per version, and one row per version keyed by a 32-bit
    hash of its JSON that finds a version already saved. The functions are
    written once against the interface [Store], and used with two instances:
    a sequence of calls of the store (here), and the actions of a process that
    other goroutines interleave with (Resources.v). [versions_refine] relates
    them to their contract, an append-only list of distinct versions per
    resource. *)
From S2P Require Import Prelude Storage Json Db GoStrings Utf8 Sql Tasks Config Paths.
From Stdlib Require Import Ascii.
Open Scope string_scope.

(** ** The calls the functions make *)
Class Store (M : Type -> Type) : Type := {
  st_ret : forall {A}, A -> M A;
  st_bind : forall {A B}, M A -> (A -> M B) -> M B;
  st_get : string -> M (result json);
  st_set : string -> json -> M (result unit);
  st_now : M time }.

(** [x, err := m; if err != nil { return err }] *)
Definition or_return {M} `{!Store M} {A B} (m : M (result A)) (k : A -> M (result B))
    : M (result B) :=
  st_bind m (fun r => match r with Ok a => k a | Err e => st_ret (Err e) end).
Definition with_message {M} `{!Store M} {A} (msg : string) (m : M (result A)) : M (result A) :=
  st_bind m (fun r => st_ret (match r with Ok a => Ok a | Err e => Err (EWrap msg e) end)).
Notation "'let?' x ':=' m 'in' k" := (or_return m (fun x => k))
  (at level 10, x binder, m at level 100, k at level 200,
   format "'[hv' 'let?'  x  ':='  m  'in' '//' k ']'") : go_scope.
Notation "'let+' x ':=' m 'in' k" := (st_bind m (fun x => k))
  (at level 10, x binder, m at level 100, k at level 200,
   format "'[hv' 'let+'  x  ':='  m  'in' '//' k ']'") : go_scope.

(** The store called directly. *)
Definition Calls (A : Type) : Type := db -> A * db.
#[export] Instance calls_store `{!Namespace, !JsonText} : Store Calls := {|
  st_ret := fun A a d => (a, d);
  st_bind := fun A B m k d => let '(a, d') := m d in k a d';
  st_get := fun key => Get key;
  st_set := fun key payload => Set_ key payload;
  st_now := fun d => (db_now d, d) |}.

(** ** Keys and payloads *)
Definition version_map : Type := gmap string string.

(** [json.Marshal] of a version: the keys in byte order; nil is [null]. *)
Definition key_le (a b : string * string) : Prop := String.le a.1 b.1.
#[export] Instance key_le_dec a b : Decision (key_le a b).
Proof. unfold key_le. apply _. Defined.
Definition marshal_version (v : option version_map) : string :=
  match v with
  | None => "null"
  | Some m =>
      "{" ++ Join (map (fun kv => quote_json kv.1 ++ ":" ++ quote_json kv.2)
                     (merge_sort key_le (map_to_list m))) "," ++ "}"
  end.
#[global] Arguments marshal_version : simpl never.

(** [RFC3339Nano] formats a time. *)
Class VersionText : Type := RFC3339Nano : time -> string.

Module StoredVersion.
Record t := mk { Version : option version_map; JobName : string; FetchedAt : string }.
End StoredVersion.

(** [h = h*31 ^ uint32(ch)] on 32-bit words, from 5381, over the characters. *)
Definition hash_step (h ch : Z) : Z := Z.lxor ((h * 31) mod 2 ^ 32) ch.
Definition hash_from (s : string) (h : Z) : Z := foldl hash_step h (runes s).
(** [strconv.FormatUint(h, 16)]: at most eight digits. *)
Fixpoint hex_from (fuel : nat) (n : Z) (acc : string) : string :=
  match fuel with
  | 0 => acc
  | S fuel =>
      let acc := String (hex_digit (n mod 16)) acc in
      if (n <? 16)%Z then acc else hex_from fuel (n / 16) acc
  end.
Definition hashString (s : string) : string := hex_from 8 (hash_from s 5381) "".

(** Versions are kept per pipeline (resource_helpers.go). *)
Definition getScopedResourceName (pipelineID resourceName : string) : string :=
  (if decide (pipelineID = "") then "default" else pipelineID) ++ "/" ++ resourceName.

Definition rvMetaKey (name : string) : string := "/rv/" ++ name ++ "/meta".
Definition rvVersionKey (name : string) (index : Z) : string :=
  "/rv/" ++ name ++ "/versions/" ++ zero_pad 10 index.
Definition rvDedupKey (name versionJSON : string) : string :=
  "/rv/" ++ name ++ "/v/" ++ hashString versionJSON.

Definition versionToAnyMap (v : option version_map) : json :=
  JObj (prod_map id JStr <$> map_to_list (default ∅ v)).

Definition string_field (kv : string * json) : option (string * string) :=
  match kv.2 with JStr s => Some (kv.1, s) | _ => None end.
Definition as_string (v : option json) : option string :=
  match v with Some (JStr s) => Some s | _ => None end.

Definition payloadToStoredVersion (p : json) : StoredVersion.t :=
  StoredVersion.mk
    (match get_field "version" (fields p) with
     | Some (JObj fs) => Some (list_to_map (omap string_field fs))
     | _ => None
     end)
    (default "" (as_string (get_field "job_name" (fields p))))
    (default "" (as_string (get_field "fetched_at" (fields p)))).

Definition number_field (k : string) (p : json) : option Z :=
  match get_field k (fields p) with Some (JNum n) => Some n | _ => None end.

(** ** Operations *)
Section versions.
Context {M : Type -> Type} `{!Store M, !VersionText}.

Definition safeStorageGet (key : string) : M (result (option json)) :=
  let+ r := st_get key in
  st_ret (match r with
          | Ok payload => Ok (Some payload)
          | Err e => if errors_Is e SNotFound then Ok None
                     else Err (EWrap ("storage get " ++ q key) e)
          end).

Definition getMetaCount (name : string) : M (result Z) :=
  let? meta := safeStorageGet (rvMetaKey name) in
  st_ret (Ok (match meta with Some p => default 0%Z (number_field "count" p) | None => 0%Z end)).

Definition updateExistingDedupEntry (dedupEntry : json) (name versionJSON jobName now : string)
    : M (result bool) :=
  if decide (as_string (get_field "version_json" (fields dedupEntry)) = Some versionJSON) then
    let vk := rvVersionKey name (default 0%Z (number_field "index" dedupEntry)) in
    let? existing := safeStorageGet vk in
    match existing with
    | None => st_ret (Ok true)
    | Some p =>
        let? _ := with_message "update existing version"
          (st_set vk (JObj (set_field "fetched_at" (JStr now)
                       (set_field "job_name" (JStr jobName) (fields p))))) in
        st_ret (Ok true)
    end
  else st_ret (Ok false).

Definition insertVersion (name dk versionJSON : string) (version : option version_map)
    (jobName now : string) : M (result unit) :=
  let? count := getMetaCount name in
  let? _ := with_message "save version"
    (st_set (rvVersionKey name count)
       (JObj [("version", versionToAnyMap version); ("job_name", JStr jobName);
              ("fetched_at", JStr now)])) in
  let? _ := with_message "save dedup entry"
    (st_set dk (JObj [("index", JNum count); ("version_json", JStr versionJSON)])) in
  with_message "save meta" (st_set (rvMetaKey name) (JObj [("count", JNum (count + 1))])).

Definition SaveResourceVersion (name : string) (version : option version_map) (jobName : string)
    : M (result unit) :=
  let versionJSON := marshal_version version in
  let+ t := st_now in
  let now := RFC3339Nano t in
  let dk := rvDedupKey name versionJSON in
  let? dedupEntry := safeStorageGet dk in
  match dedupEntry with
  | None => insertVersion name dk versionJSON version jobName now
  | Some entry =>
      let? (updated : bool) := updateExistingDedupEntry entry name versionJSON jobName now in
      if updated then st_ret (Ok tt) else insertVersion name dk versionJSON version jobName now
  end.

Definition GetLatestResourceVersion (name : string) : M (result (option StoredVersion.t)) :=
  let? count := getMetaCount name in
  if (count <=? 0)%Z then st_ret (Ok None)
  else
    let? payload := safeStorageGet (rvVersionKey name (count - 1)) in
    st_ret (Ok (payloadToStoredVersion <$> payload)).

(** The rows [i], [i+1], ... [n] of them; a missing row is passed over. *)
Fixpoint list_versions (name : string) (i : Z) (n : nat) : M (result (list StoredVersion.t)) :=
  match n with
  | 0 => st_ret (Ok [])
  | S n =>
      let? payload := safeStorageGet (rvVersionKey name i) in
      let? rest := list_versions name (i + 1) n in
      st_ret (Ok (match payload with
                  | Some p => payloadToStoredVersion p :: rest | None => rest end))
  end.

Definition ListResourceVersions (name : string) (limit : Z)
    : M (result (list StoredVersion.t)) :=
  let? count := getMetaCount name in
  let actualCount := if (0 <? limit)%Z && (limit <? count)%Z then limit else count in
  list_versions name 0 (Z.to_nat actualCount).

(** The first index from [i] on whose version prints as [afterJSON]. *)
Fixpoint find_version (name afterJSON : string) (i : Z) (n : nat) : M (result (option Z)) :=
  match n with
  | 0 => st_ret (Ok None)
  | S n =>
      let? payload := safeStorageGet (rvVersionKey name i) in
      match payload with
      | Some p =>
          if decide (marshal_version (StoredVersion.Version (payloadToStoredVersion p)) = afterJSON)
          then st_ret (Ok (Some i)) else find_version name afterJSON (i + 1) n
      | None => find_version name afterJSON (i + 1) n
      end
  end.

Definition GetVersionsAfter (name : string) (afterVersion : option version_map)
    : M (result (list StoredVersion.t)) :=
  match afterVersion with
  | None => ListResourceVersions name 0
  | Some _ =>
      let? count := getMetaCount name in
      let? afterIndex := find_version name (marshal_version afterVersion) 0 (Z.to_nat count) in
      match afterIndex with
      | None => ListResourceVersions name 0
      | Some i => list_versions name (i + 1) (Z.to_nat (count - i - 1))
      end
  end.
End versions.

(** ** The contract

    A resource has a list of versions, oldest first. Saving a version that is
    in the list refreshes its job and time in place; any other is appended. *)
Module Spec.
Definition is_version (v : version_map) (sv : StoredVersion.t) : Prop :=
  StoredVersion.Version sv = Some v.
#[global] Instance is_version_dec v sv : Decision (is_version v sv).
Proof. unfold is_version. apply _. Defined.

(** [sv] is written as [v] is. *)
Definition prints_as (v : version_map) (sv : StoredVersion.t) : Prop :=
  marshal_version (StoredVersion.Version sv) = marshal_version (Some v).
#[global] Instance prints_as_dec v sv : Decision (prints_as v sv).
Proof. unfold prints_as. apply _. Defined.

Definition refresh (job now : string) (sv : StoredVersion.t) : StoredVersion.t :=
  StoredVersion.mk (StoredVersion.Version sv) job now.
Definition save (v : version_map) (job now : string) (l : list StoredVersion.t)
    : list StoredVersion.t :=
  match list_find (is_version v) l with
  | Some (i, sv) => <[i := refresh job now sv]> l
  | None => l ++ [StoredVersion.mk (Some v) job now]
  end.
Definition list_first (limit : Z) (l : list StoredVersion.t) : list StoredVersion.t :=
  if (0 <? limit)%Z then take (Z.to_nat limit) l else l.
Definition after (v : option version_map) (l : list StoredVersion.t) : list StoredVersion.t :=
  match v ≫= (fun v => list_find (prints_as v) l) with
  | Some (i, _) => drop (S i) l
  | None => l
  end.
End Spec.

(** ** Facts about keys and rows *)

Lemma hex_digit_plain n : plain_char (hex_digit (n mod 16)) = true.
Proof.
  assert (Hn : (0 <= n mod 16 < 16)%Z) by (apply Z.mod_pos_bound; lia).
  destruct (n mod 16)%Z as [|p|p]; [done| |lia].
  do 5 (destruct p as [p|p|]; try done; try lia).
Qed.

Lemma hex_from_plain fuel : forall n acc,
  all_chars plain_char acc = true -> all_chars plain_char (hex_from fuel n acc) = true.
Proof.
  induction fuel as [|fuel IH]; intros n acc Hacc; [done|]. cbn [hex_from].
  assert (Ha : all_chars plain_char (String (hex_digit (n mod 16)) acc) = true)
    by (cbn [all_chars]; by rewrite hex_digit_plain).
  case_match; [done|by apply IH].
Qed.

Lemma hex_from_not_empty fuel : forall n acc, hex_from (S fuel) n acc <> "".
Proof.
  induction fuel as [|fuel IH]; intros n acc; cbn [hex_from]; case_match; try done.
  apply IH.
Qed.

Lemma hashString_plain s : plain (hashString s) = true.
Proof.
  apply andb_true_iff. split; [|by apply hex_from_plain].
  apply negb_true_iff, bool_decide_eq_false. apply hex_from_not_empty.
Qed.

(** Reading back the strings of a version. *)
Lemma omap_string_fields (l : list (string * string)) :
  omap string_field (prod_map id JStr <$> l) = l.
Proof. induction l as [|[k v] l IH]; [done|]. cbn. f_equal. exact IH. Qed.

Lemma patch_strings (l fs : list (string * string)) :
  NoDup fs.*1 -> l ⊆ fs ->
  patch_fields (prod_map id JStr <$> l) (prod_map id JStr <$> fs) = (prod_map id JStr <$> fs).
Proof.
  intros Hnd. induction l as [|[k v] l IH]; intros Hsub; [done|].
  assert (Hg : get_field k (prod_map id JStr <$> fs) = Some (JStr v)).
  { apply get_field_elem; [by rewrite <- list_fmap_compose|].
    apply list_elem_of_fmap. exists (k, v). set_solver. }
  rewrite fmap_cons. cbn [patch_fields prod_map id fst snd]. rewrite Hg. simpl.
  rewrite set_field_same by done. apply IH. set_solver.
Qed.

Lemma versionToAnyMap_patch v :
  jsonb_patch (versionToAnyMap v) (versionToAnyMap v) = versionToAnyMap v.
Proof.
  unfold versionToAnyMap. rewrite jsonb_patch_obj. f_equal. apply patch_strings; [|done].
  apply NoDup_fst_map_to_list.
Qed.

Lemma versionToAnyMap_keep v :
  patch_value (Some (versionToAnyMap v)) (versionToAnyMap v) = Some (versionToAnyMap v).
Proof. exact (f_equal Some (versionToAnyMap_patch v)). Qed.

(** ** How the rows represent the list *)
Section rows.
Context `{!Namespace, !OrderBy, !JsonText, !VersionText}.

Definition version_row (sv : StoredVersion.t) : json :=
  JObj [("version", versionToAnyMap (StoredVersion.Version sv));
        ("job_name", JStr (StoredVersion.JobName sv));
        ("fetched_at", JStr (StoredVersion.FetchedAt sv))].
Definition dedup_row (i : nat) (versionJSON : string) : json :=
  JObj [("index", JNum (Z.of_nat i)); ("version_json", JStr versionJSON)].

Lemma payloadToStoredVersion_row sv :
  is_Some (StoredVersion.Version sv) -> payloadToStoredVersion (version_row sv) = sv.
Proof.
  destruct sv as [[v|] job at_]; [intros _|by intros [? [=]]]. unfold payloadToStoredVersion. simpl.
  unfold as_string. simpl. rewrite omap_string_fields.
  by rewrite (list_to_map_to_list (M := gmap string) v).
Qed.

Lemma refresh_row sv job now :
  jsonb_patch (version_row sv)
    (JObj (set_field "fetched_at" (JStr now)
            (set_field "job_name" (JStr job) (fields (version_row sv)))))
  = version_row (Spec.refresh job now sv).
Proof.
  rewrite jsonb_patch_obj. unfold version_row, Spec.refresh. simpl StoredVersion.Version.
  pose proof (versionToAnyMap_keep (StoredVersion.Version sv)) as Hkeep.
  revert Hkeep. generalize (versionToAnyMap (StoredVersion.Version sv)). intros m Hm.
  cbv [fields]. assert (Hset : set_field "fetched_at" (JStr now) (set_field "job_name" (JStr job)
      [("version", m); ("job_name", JStr (StoredVersion.JobName sv));
       ("fetched_at", JStr (StoredVersion.FetchedAt sv))])
    = [("version", m); ("job_name", JStr job); ("fetched_at", JStr now)]) by done.
  rewrite Hset. cbn [patch_fields].
  change (get_field "version" _) with (Some m). rewrite Hm. done.
Qed.
End rows.

(** ** Keys as data

    The three kinds of keys of a resource; the cleaned path determines the
    resource and the key. *)
Inductive rvKey : Type :=
  | KMeta
  | KVersion (index : nat)
  | KDedup (hash : string).
#[export] Instance rvKey_eq_dec : EqDecision rvKey.
Proof. solve_decision. Defined.

Definition key_string (name : string) (k : rvKey) : string :=
  match k with
  | KMeta => rvMetaKey name
  | KVersion i => rvVersionKey name (Z.of_nat i)
  | KDedup h => "/rv/" ++ name ++ "/v/" ++ h
  end.
Definition key_suffix (k : rvKey) : list string :=
  match k with
  | KMeta => ["meta"]
  | KVersion i => ["versions"; zero_pad 10 (Z.of_nat i)]
  | KDedup h => ["v"; h]
  end.
Definition key_ok (k : rvKey) : Prop :=
  match k with KDedup h => plain h = true | _ => True end.

(** A scoped name: a pipeline id and a resource name. *)
Definition name_ok (name : string) : Prop :=
  exists p r, plain p = true /\ plain r = true /\ name = p ++ "/" ++ r.

Lemma getScopedResourceName_ok p r :
  plain r = true -> p = "" \/ plain p = true -> name_ok (getScopedResourceName p r).
Proof.
  intros Hr Hp. unfold getScopedResourceName. case_decide as He.
  - by exists "default", r.
  - destruct Hp; [done|]. by exists p, r.
Qed.

Lemma key_string_parts p r k :
  key_string (p ++ "/" ++ r) k = slash_path ("rv" :: p :: r :: key_suffix k).
Proof.
  unfold slash_path. destruct k; cbn [key_string key_suffix];
    unfold rvMetaKey, rvVersionKey; rewrite !Join_cons2, ?append_assoc; reflexivity.
Qed.

Lemma key_parts_plain p r k :
  plain p = true -> plain r = true -> key_ok k ->
  Forall (fun s => plain s = true) ("rv" :: p :: r :: key_suffix k).
Proof.
  intros ?? Hk. repeat constructor; try done.
  destruct k; simpl; repeat constructor; try done. apply plain_zero_pad. lia.
Qed.

Lemma key_suffix_inj k k' : key_suffix k = key_suffix k' -> k = k'.
Proof.
  destruct k, k'; simpl; try done; [|congruence].
  intros [= He%zero_pad_inj]; [f_equal|..]; lia.
Qed.

Section stored.
Context `{!Namespace, !OrderBy, !JsonText, !VersionText} (Hns : namespace = "").

Definition row (d : db) (name : string) (k : rvKey) : option json :=
  taskRow.payload <$> db_tasks d !! task_path (key_string name k).

Definition version_hash (v : option version_map) : string := hashString (marshal_version v).

(** The rows [f] of a resource hold the list [l]. *)
Record represents (f : rvKey -> option json) (l : list StoredVersion.t) : Prop := {
  rep_count : f KMeta =
    if decide (l = []) then None else Some (JObj [("count", JNum (Z.of_nat (length l)))]);
  rep_rows : forall i, f (KVersion i) = version_row <$> l !! i;
  rep_dedup : forall i sv, l !! i = Some sv ->
    f (KDedup (version_hash (StoredVersion.Version sv)))
    = Some (dedup_row i (marshal_version (StoredVersion.Version sv)));
  rep_dedup_only : forall h, key_ok (KDedup h) -> is_Some (f (KDedup h)) ->
    exists sv, sv ∈ l /\ version_hash (StoredVersion.Version sv) = h;
  rep_some : forall sv, sv ∈ l -> is_Some (StoredVersion.Version sv) }.

Lemma represents_empty (f : rvKey -> option json) :
  (forall k, key_ok k -> f k = None) -> represents f [].
Proof.
  intros Hf. split.
  - by apply Hf.
  - intros i. by rewrite Hf.
  - done.
  - intros h Hh [? Hs]. by rewrite Hf in Hs.
  - by intros sv ?%elem_of_nil.
Qed.

Lemma key_path_inj name k name' k' :
  name_ok name -> name_ok name' -> key_ok k -> key_ok k' ->
  task_path (key_string name k) = task_path (key_string name' k') -> name = name' /\ k = k'.
Proof.
  intros (p & r & Hp & Hr & ->) (p' & r' & Hp' & Hr' & ->) Hk Hk' Heq.
  pose proof (key_parts_plain p r k Hp Hr Hk) as Hall.
  pose proof (key_parts_plain p' r' k' Hp' Hr' Hk') as Hall'.
  rewrite !key_string_parts, !task_path_parts in Heq by done.
  apply slash_path_inj in Heq as [= -> -> He%key_suffix_inj]; done.
Qed.

(** Writing a row: the row is merged, every other one is as before. *)
Definition put_row (name : string) (k : rvKey) (p : json) (d : db) : db :=
  let path := task_path (key_string name k) in
  upsert_task path (extractRunID path) p d.

Lemma row_put_row name k p d name' k' :
  name_ok name -> name_ok name' -> key_ok k -> key_ok k' ->
  row (put_row name k p d) name' k' =
    if decide ((name', k') = (name, k))
    then Some (match row d name k with Some old => jsonb_patch old p | None => p end)
    else row d name' k'.
Proof.
  intros Hn Hn' Hk Hk'. unfold row, put_row. cbv zeta. case_decide as He.
  - injection He as -> ->.
    destruct (lookup_upsert_task (task_path (key_string name k))
                (extractRunID (task_path (key_string name k))) p d) as (t & -> & Ht).
    simpl. rewrite Ht. by destruct (db_tasks d !! _).
  - rewrite lookup_upsert_task_ne; [done|]. intros Heq. apply He.
    by destruct (key_path_inj name' k' name k) as [-> ->].
Qed.

(** ** The operations on represented lists *)
Lemma or_return_ok {A B} (m : Calls (result A)) (k : A -> Calls (result B)) a d d' :
  m d = (Ok a, d') -> or_return m k d = k a d'.
Proof. intros Hm. unfold or_return. simpl. by rewrite Hm. Qed.

Lemma safeStorageGet_row name k d :
  db_faults d = [] -> safeStorageGet (M := Calls) (key_string name k) d = (Ok (row d name k), d).
Proof.
  intros Hf. unfold safeStorageGet. simpl. rewrite Get_no_faults by done.
  unfold row. by destruct (db_tasks d !! _).
Qed.

Lemma st_set_row name k p d :
  db_faults d = [] -> st_set (M := Calls) (key_string name k) p d = (Ok tt, put_row name k p d).
Proof. intros Hf. simpl. by rewrite Set_no_faults. Qed.

Lemma with_message_set_row msg name k p d :
  db_faults d = [] ->
  with_message (M := Calls) msg (st_set (key_string name k) p) d = (Ok tt, put_row name k p d).
Proof. intros Hf. unfold with_message. simpl. by rewrite Set_no_faults. Qed.

Lemma put_row_faults name k p d : db_faults (put_row name k p d) = db_faults d.
Proof. apply upsert_task_faults. Qed.

Lemma put_row_now name k p d : db_now (put_row name k p d) = db_now d.
Proof. unfold put_row, upsert_task. by case_match. Qed.

Definition meta_ok (d : db) (name : string) (n : nat) : Prop :=
  match row d name KMeta with
  | None => n = 0
  | Some p => p = JObj [("count", JNum (Z.of_nat n))]
  end.

Lemma getMetaCount_meta d name n :
  db_faults d = [] -> meta_ok d name n ->
  getMetaCount (M := Calls) name d = (Ok (Z.of_nat n), d).
Proof.
  intros Hf Hm. unfold getMetaCount.
  rewrite (or_return_ok _ _ (row d name KMeta) d d) by (by apply (safeStorageGet_row name KMeta)).
  unfold meta_ok in Hm. by destruct (row d name KMeta); subst.
Qed.

Lemma represents_meta d name l : represents (row d name) l -> meta_ok d name (length l).
Proof. intros Hr. unfold meta_ok. rewrite (rep_count _ l Hr). by destruct l. Qed.

Lemma getMetaCount_rows d name l :
  db_faults d = [] -> represents (row d name) l ->
  getMetaCount (M := Calls) name d = (Ok (Z.of_nat (length l)), d).
Proof. intros Hf Hr. by apply getMetaCount_meta, represents_meta. Qed.

Lemma represents_ext (f g : rvKey -> option json) l :
  (forall k, key_ok k -> g k = f k) -> represents f l -> represents g l.
Proof.
  intros Hfg [Hc Hrows Hd Ho Hs]. split.
  - by rewrite Hfg.
  - intros i. by rewrite Hfg.
  - intros i sv Hi. rewrite Hfg; [by apply Hd|]. apply hashString_plain.
  - intros h Hh. rewrite Hfg by done. by apply Ho.
  - done.
Qed.

Lemma represents_put_other d name name' k p l :
  name_ok name -> name_ok name' -> key_ok k -> name <> name' ->
  represents (row d name') l -> represents (row (put_row name k p d) name') l.
Proof.
  intros ????. apply represents_ext. intros k' Hk'.
  rewrite row_put_row by done. rewrite decide_False; [done|]. congruence.
Qed.

(** The versions are distinct: the deduplication rows tell them apart. *)
Lemma represents_distinct f l i j sv sv' :
  represents f l -> l !! i = Some sv -> l !! j = Some sv' ->
  StoredVersion.Version sv = StoredVersion.Version sv' -> i = j.
Proof.
  intros Hr Hi Hj Hv. apply (rep_dedup _ _ Hr) in Hi, Hj.
  rewrite Hv, Hj in Hi. unfold dedup_row in Hi. simplify_eq. lia.
Qed.

(** No other version of the list has the hash of [v]. *)
Definition no_collision (v : version_map) (l : list StoredVersion.t) : Prop :=
  forall sv, sv ∈ l -> version_hash (StoredVersion.Version sv) = version_hash (Some v) ->
    Spec.is_version v sv.

Lemma represents_refresh f g l i sv job now :
  represents f l -> l !! i = Some sv ->
  (forall k, key_ok k -> g k = if decide (k = KVersion i)
                    then Some (version_row (Spec.refresh job now sv)) else f k) ->
  represents g (<[i := Spec.refresh job now sv]> l).
Proof.
  intros Hr Hi Hg. destruct Hr as [Hc Hrows Hd Ho Hs].
  assert (Hv : StoredVersion.Version <$> <[i:=Spec.refresh job now sv]> l
               = StoredVersion.Version <$> l).
  { rewrite list_fmap_insert. apply list_insert_id. by rewrite list_lookup_fmap, Hi. }
  split.
  - rewrite Hg by done. simpl. rewrite Hc, length_insert. by destruct l, i.
  - intros j. rewrite Hg by done. destruct (decide (KVersion j = KVersion i)) as [Hj|Hj].
    + injection Hj as ->. by rewrite list_lookup_insert_eq by (by eapply lookup_lt_Some).
    + rewrite list_lookup_insert_ne by congruence. apply Hrows.
  - intros j sv' Hj. rewrite Hg by apply hashString_plain. simpl.
    assert (Hj' : (StoredVersion.Version <$> l) !! j = Some (StoredVersion.Version sv'))
      by (by rewrite <- Hv, list_lookup_fmap, Hj).
    rewrite list_lookup_fmap in Hj'. destruct (l !! j) as [sv0|] eqn:E; [|done].
    injection Hj' as <-. by apply Hd.
  - intros h Hh. rewrite Hg by done. simpl. intros (sv0 & Hin & <-)%Ho; [|done].
    apply (list_elem_of_fmap_2 StoredVersion.Version) in Hin as Hin'.
    rewrite <- Hv in Hin'. apply list_elem_of_fmap in Hin' as (sv1 & Heq & Hin').
    exists sv1. by rewrite Heq.
  - intros sv0 Hin. apply (list_elem_of_fmap_2 StoredVersion.Version) in Hin.
    rewrite Hv in Hin. apply list_elem_of_fmap in Hin as (sv1 & -> & Hin). by apply Hs.
Qed.

Lemma represents_append f g l v job now :
  represents f l -> no_collision v l -> (forall sv, sv ∈ l -> ~ Spec.is_version v sv) ->
  let n := length l in
  let sv := StoredVersion.mk (Some v) job now in
  (forall k, key_ok k -> g k =
     if decide (k = KMeta) then Some (JObj [("count", JNum (Z.of_nat n + 1))])
     else if decide (k = KDedup (version_hash (Some v))) then Some (dedup_row n (marshal_version (Some v)))
     else if decide (k = KVersion n) then Some (version_row sv) else f k) ->
  represents g (l ++ [sv]).
Proof.
  intros Hr Hnc Hfresh n sv Hg. destruct Hr as [Hc Hrows Hd Ho Hs]. split.
  - rewrite Hg, (decide_True (P := KMeta = KMeta)), decide_False by (done || by destruct l).
    rewrite length_app. simpl. unfold n. do 5 f_equal. lia.
  - intros j. rewrite Hg by done. do 2 rewrite decide_False by done.
    destruct (decide (KVersion j = KVersion n)) as [Hj|Hj].
    + injection Hj as ->. unfold n. by rewrite list_lookup_middle by done.
    + rewrite Hrows. destruct (decide (j < n)) as [Hlt|Hge].
      * by rewrite lookup_app_l.
      * rewrite !lookup_ge_None_2; [done| |]; rewrite ?length_app; simpl; subst n; [|lia].
        assert (j <> length l) by congruence. lia.
  - intros j sv' Hj. rewrite Hg by apply hashString_plain. rewrite (decide_False (P := _ = KMeta)) by done.
    apply lookup_app_Some in Hj as [Hj|[Hge Hj]].
    + rewrite decide_False, decide_False; [by apply Hd|done|]. intros [= Heq].
      apply (Hfresh sv'); [by eapply list_elem_of_lookup_2|].
      apply Hnc; [by eapply list_elem_of_lookup_2|done].
    + apply list_lookup_singleton_Some in Hj as [Hj <-]. rewrite decide_True by done.
      unfold n. do 2 f_equal. lia.
  - intros h Hh. rewrite Hg by done. rewrite (decide_False (P := _ = KMeta)) by done.
    destruct (decide (KDedup h = _)) as [Heq|Hne].
    + injection Heq as ->. intros _. exists sv. set_solver.
    + rewrite decide_False by done. intros (sv0 & ? & ?)%Ho; [|done]. exists sv0. set_solver.
  - intros sv0 [Hin| ->%list_elem_of_singleton]%elem_of_app; [by apply Hs|]. by eexists.
Qed.

(** A path that is not a row of [name]. *)
Definition other_path (name path : string) : Prop :=
  forall k, key_ok k -> path <> task_path (key_string name k).
Lemma put_row_other name k p d path :
  key_ok k -> other_path name path -> db_tasks (put_row name k p d) !! path = db_tasks d !! path.
Proof. intros Hk Hp. apply lookup_upsert_task_ne. by apply Hp. Qed.

(** What [d'] holds for [name], and that the other resources are untouched. *)
Definition stores (d' : db) (name : string) (l : list StoredVersion.t) (d : db) : Prop :=
  db_faults d' = [] /\ db_now d' = db_now d /\ represents (row d' name) l /\
  (forall name' l', name_ok name' -> name <> name' ->
    represents (row d name') l' -> represents (row d' name') l') /\
  forall path, other_path name path -> db_tasks d' !! path = db_tasks d !! path.

(** The rows after an insertion at index [n]. *)
Definition insert_rows (name : string) (n : nat) (sv : StoredVersion.t) (d : db) : db :=
  let v := StoredVersion.Version sv in
  put_row name KMeta (JObj [("count", JNum (Z.of_nat n + 1))])
    (put_row name (KDedup (version_hash v)) (dedup_row n (marshal_version v))
      (put_row name (KVersion n) (version_row sv) d)).

(** The row after [p] is written over [old]. *)
Definition merged (old : option json) (p : json) : json :=
  match old with Some o => jsonb_patch o p | None => p end.

Lemma row_insert_rows d name n sv k :
  name_ok name -> key_ok k ->
  row (insert_rows name n sv d) name k =
    if decide (k = KMeta) then
      Some (merged (row d name k) (JObj [("count", JNum (Z.of_nat n + 1))]))
    else if decide (k = KDedup (version_hash (StoredVersion.Version sv))) then
      Some (merged (row d name k) (dedup_row n (marshal_version (StoredVersion.Version sv))))
    else if decide (k = KVersion n) then Some (merged (row d name k) (version_row sv))
    else row d name k.
Proof.
  intros Hn Hk. unfold insert_rows.
  rewrite !row_put_row by (done || apply hashString_plain).
  repeat (case_decide; simplify_eq; try done).
Qed.

Lemma row_insert_version d name n sv i :
  name_ok name -> row (insert_rows name n sv d) name (KVersion i) =
    if (i =? n)%nat then Some (merged (row d name (KVersion i)) (version_row sv))
    else row d name (KVersion i).
Proof.
  intros Hn. rewrite row_insert_rows by done. rewrite !decide_False by done.
  destruct (Nat.eqb_spec i n) as [->|]; [by rewrite decide_True|].
  by rewrite decide_False by congruence.
Qed.

Lemma meta_ok_insert d name n sv :
  name_ok name -> meta_ok d name n -> meta_ok (insert_rows name n sv d) name (S n).
Proof.
  intros Hn Hm. unfold meta_ok in *. rewrite row_insert_rows by done. rewrite decide_True by done.
  destruct (row d name KMeta); subst; cbn; do 4 f_equal; lia.
Qed.

Lemma insertVersion_rows d name n v job now :
  db_faults d = [] -> getMetaCount (M := Calls) name d = (Ok (Z.of_nat n), d) ->
  insertVersion (M := Calls) name (rvDedupKey name (marshal_version v)) (marshal_version v)
    v job now d
  = (Ok tt, insert_rows name n (StoredVersion.mk v job now) d).
Proof.
  intros Hf Hc. unfold insertVersion. erewrite or_return_ok by exact Hc.
  erewrite or_return_ok by (by apply (with_message_set_row _ name (KVersion n)
    (version_row (StoredVersion.mk v job now)))).
  erewrite or_return_ok by (apply (with_message_set_row _ name (KDedup (version_hash v))
    (dedup_row n (marshal_version v))); by rewrite put_row_faults).
  apply (with_message_set_row _ name KMeta); by rewrite !put_row_faults.
Qed.

Lemma insertVersion_represents d name l v job now :
  db_faults d = [] -> name_ok name -> represents (row d name) l -> no_collision v l ->
  (forall sv, sv ∈ l -> ~ Spec.is_version v sv) ->
  let sv := StoredVersion.mk (Some v) job now in
  stores (insert_rows name (length l) sv d) name (l ++ [sv]) d.
Proof.
  intros Hf Hn Hr Hnc Hfresh sv. set (n := length l).
  assert (Hh : key_ok (KDedup (version_hash (Some v)))) by apply hashString_plain.
  split_and!.
  - unfold insert_rows. by rewrite !put_row_faults.
  - unfold insert_rows. by rewrite !put_row_now.
  - apply (represents_append (row d name)); [done..|]. intros k Hk.
    rewrite row_insert_rows by done. cbn [sv StoredVersion.Version].
    assert (Hver : row d name (KVersion n) = None)
      by (rewrite (rep_rows _ l Hr); by rewrite lookup_ge_None_2).
    assert (Hded : row d name (KDedup (version_hash (Some v))) = None).
    { apply eq_None_not_Some. intros (sv0 & Hin & Heq)%(rep_dedup_only _ l Hr); [|done].
      apply (Hfresh sv0 Hin), Hnc; done. }
    repeat (case_decide; simplify_eq; try done); rewrite ?Hded, ?Hver; try done.
    rewrite (rep_count _ l Hr). by destruct l.
  - intros name' l' Hn' Hne Hr'. unfold insert_rows.
    by repeat (apply represents_put_other; [done..| |done|]); 
      try apply hashString_plain.
  - intros path Hp. unfold insert_rows. by rewrite !put_row_other.
Qed.

Definition refreshed (sv : StoredVersion.t) (job now : string) : json :=
  JObj (set_field "fetched_at" (JStr now)
    (set_field "job_name" (JStr job) (fields (version_row sv)))).

Lemma updateExistingDedupEntry_row d name l i sv vj job now :
  db_faults d = [] -> represents (row d name) l -> l !! i = Some sv ->
  updateExistingDedupEntry (M := Calls) (dedup_row i vj) name vj job now d
  = (Ok true, put_row name (KVersion i) (refreshed sv job now) d).
Proof.
  intros Hf Hr Hi. unfold updateExistingDedupEntry. rewrite decide_True by done.
  change (rvVersionKey name _) with (key_string name (KVersion i)).
  erewrite or_return_ok by (by apply (safeStorageGet_row name (KVersion i))).
  rewrite (rep_rows _ l Hr), Hi. cbn [fmap option_fmap option_map].
  by erewrite or_return_ok by (by apply (with_message_set_row _ name (KVersion i))).
Qed.

Lemma SaveResourceVersion_represents d name l v job :
  db_faults d = [] -> name_ok name -> represents (row d name) l -> no_collision v l ->
  exists d', SaveResourceVersion (M := Calls) name (Some v) job d = (Ok tt, d') /\
    stores d' name (Spec.save v job (RFC3339Nano (db_now d)) l) d.
Proof.
  intros Hf Hn Hr Hnc. unfold SaveResourceVersion, Spec.save. cbn [st_bind calls_store st_now].
  set (vj := marshal_version (Some v)). set (now := RFC3339Nano (db_now d)).
  erewrite or_return_ok by (by apply (safeStorageGet_row name (KDedup (hashString vj)))).
  destruct (list_find (Spec.is_version v) l) as [[i sv]|] eqn:Hfind.
  - apply list_find_Some in Hfind as (Hi & Hv & _).
    pose proof (rep_dedup _ l Hr i sv Hi) as Hd. rewrite Hv in Hd.
    change (version_hash (Some v)) with (hashString vj) in Hd. rewrite Hd.
    exists (put_row name (KVersion i) (refreshed sv job now) d).
    erewrite or_return_ok by (by eapply updateExistingDedupEntry_row).
    split; [done|]. split_and!; [by rewrite put_row_faults|by rewrite put_row_now|..].
    + eapply represents_refresh; [done..|]. intros k Hk. rewrite row_put_row by done.
      repeat (case_decide; simplify_eq; try done).
      rewrite (rep_rows _ l Hr), Hi. by rewrite <- refresh_row.
    + intros name' l' Hn' Hne. by apply represents_put_other.
    + intros path Hp. by apply put_row_other.
  - apply list_find_None in Hfind. rewrite Forall_forall in Hfind.
    assert (Hded : row d name (KDedup (hashString vj)) = None).
    { apply eq_None_not_Some. intros (sv0 & Hin & Heq)%(rep_dedup_only _ l Hr);
        [|apply hashString_plain]. apply (Hfind sv0 Hin), Hnc; done. }
    rewrite Hded. exists (insert_rows name (length l) (StoredVersion.mk (Some v) job now) d).
    split; [|by apply insertVersion_represents].
    apply insertVersion_rows; [done|by apply getMetaCount_rows].
Qed.

(** *** Reading *)
Lemma stored_row d name l i sv :
  represents (row d name) l -> l !! i = Some sv ->
  row d name (KVersion i) = Some (version_row sv)
  /\ payloadToStoredVersion (version_row sv) = sv.
Proof.
  intros Hr Hi. rewrite (rep_rows _ l Hr), Hi. split; [done|].
  apply payloadToStoredVersion_row, (rep_some _ l Hr). by eapply list_elem_of_lookup_2.
Qed.

Lemma list_versions_represents d name l n : forall i,
  db_faults d = [] -> represents (row d name) l -> i + n <= length l ->
  list_versions (M := Calls) name (Z.of_nat i) n d = (Ok (take n (drop i l)), d).
Proof.
  induction n as [|n IH]; intros i Hf Hr Hle; [done|]. cbn [list_versions].
  destruct (lookup_lt_is_Some_2 l i) as [sv Hi]; [lia|].
  erewrite or_return_ok by (by apply (safeStorageGet_row name (KVersion i))).
  destruct (stored_row d name l i sv Hr Hi) as [-> Hsv].
  replace (Z.of_nat i + 1)%Z with (Z.of_nat (S i)) by lia.
  erewrite or_return_ok by (apply IH; [done..|lia]).
  by rewrite Hsv, (drop_S l sv i Hi).
Qed.

Lemma GetLatestResourceVersion_represents d name l :
  db_faults d = [] -> represents (row d name) l ->
  GetLatestResourceVersion (M := Calls) name d = (Ok (last l), d).
Proof.
  intros Hf Hr. unfold GetLatestResourceVersion.
  erewrite or_return_ok by (by apply getMetaCount_rows).
  destruct l as [|sv0 l'] eqn:El; [done|]. rewrite <- El in *.
  assert (Hlen : length l = S (length l')) by (by rewrite El).
  rewrite (proj2 (Z.leb_gt _ _)) by lia.
  replace (Z.of_nat (length l) - 1)%Z with (Z.of_nat (length l')) by lia.
  erewrite or_return_ok by (by apply (safeStorageGet_row name (KVersion (length l')))).
  destruct (lookup_lt_is_Some_2 l (length l')) as [sv Hi]; [lia|].
  destruct (stored_row d name l _ sv Hr Hi) as [-> Hsv]. simpl. rewrite Hsv.
  by rewrite last_lookup, Hlen, <- Hi.
Qed.

Lemma ListResourceVersions_represents d name l limit :
  db_faults d = [] -> represents (row d name) l ->
  ListResourceVersions (M := Calls) name limit d = (Ok (Spec.list_first limit l), d).
Proof.
  intros Hf Hr. unfold ListResourceVersions, Spec.list_first.
  erewrite or_return_ok by (by apply getMetaCount_rows).
  destruct (Z.ltb_spec 0 limit), (Z.ltb_spec limit (Z.of_nat (length l))); simpl;
    rewrite (list_versions_represents d name l _ 0) by (done || lia); rewrite drop_0;
    do 2 f_equal; rewrite ?Nat2Z.id, ?firstn_all; try done.
  by rewrite take_ge by lia.
Qed.

Lemma find_version_represents d name l v n : forall i,
  db_faults d = [] -> represents (row d name) l -> i + n = length l ->
  find_version (M := Calls) name (marshal_version (Some v)) (Z.of_nat i) n d
  = (Ok ((fun p => Z.of_nat (i + p.1)) <$> list_find (Spec.prints_as v) (drop i l)), d).
Proof.
  induction n as [|n IH]; intros i Hf Hr Hle; cbn [find_version].
  { by rewrite drop_ge by lia. }
  destruct (lookup_lt_is_Some_2 l i) as [sv Hi]; [lia|].
  erewrite or_return_ok by (by apply (safeStorageGet_row name (KVersion i))).
  destruct (stored_row d name l i sv Hr Hi) as [-> Hsv]. rewrite Hsv, (drop_S l sv i Hi).
  cbn [list_find]. destruct (decide (Spec.prints_as v sv)) as [Hv|Hv].
  - rewrite decide_True by exact Hv. simpl. by rewrite Nat.add_0_r.
  - rewrite decide_False by exact Hv.
    replace (Z.of_nat i + 1)%Z with (Z.of_nat (S i)) by lia. rewrite IH by (done || lia).
    do 2 f_equal. destruct (list_find _ (drop (S i) l)) as [[j sv']|]; simpl; [|done].
    f_equal. lia.
Qed.

Lemma GetVersionsAfter_represents d name l v :
  db_faults d = [] -> represents (row d name) l ->
  GetVersionsAfter (M := Calls) name v d = (Ok (Spec.after v l), d).
Proof.
  intros Hf Hr. unfold GetVersionsAfter, Spec.after.
  destruct v as [v|]; cbn [mbind option_bind];
    [|exact (ListResourceVersions_represents d name l 0 Hf Hr)].
  erewrite or_return_ok by (by apply getMetaCount_rows).
  erewrite or_return_ok by (by rewrite Nat2Z.id; apply (find_version_represents d name l v _ 0)).
  rewrite drop_0. destruct (list_find _ l) as [[i sv]|] eqn:Hfind;
    cbn [fmap option_fmap option_map fst]; [|exact (ListResourceVersions_represents d name l 0 Hf Hr)].
  apply list_find_Some in Hfind as (Hi & _). apply lookup_lt_Some in Hi.
  replace (Z.of_nat (0 + i) + 1)%Z with (Z.of_nat (S i)) by lia.
  rewrite (list_versions_represents d name l) by (done || lia).
  by rewrite take_ge by (rewrite length_drop; lia).
Qed.
End stored.

(** ** When hashes collide

    The deduplication row of a hash remembers the last version saved under it
    only: two versions that share the hash evict each other, and saving a known
    version again appends it a second time. *)
Section collisions.
Context `{!Namespace, !OrderBy, !JsonText, !VersionText} (Hns : namespace = "").

(** Two versions that are written differently. *)
Definition other_text (v w : version_map) : Prop := marshal_version (Some v) <> marshal_version (Some w).

Lemma save_on_mismatch d name n v job :
  db_faults d = [] -> getMetaCount (M := Calls) name d = (Ok (Z.of_nat n), d) ->
  (forall p, row d name (KDedup (version_hash (Some v))) = Some p ->
     exists i w, p = dedup_row i (marshal_version (Some w)) /\ other_text w v) ->
  (SaveResourceVersion (M := Calls) name (Some v) job d).2
  = insert_rows name n (StoredVersion.mk (Some v) job (RFC3339Nano (db_now d))) d.
Proof.
  intros Hf Hc Hded. unfold SaveResourceVersion. cbn [st_bind calls_store st_now].
  erewrite or_return_ok by (by apply (safeStorageGet_row name (KDedup (version_hash (Some v))))).
  destruct (row d name _) as [p|] eqn:E; [|by rewrite (insertVersion_rows d name n)].
  destruct (Hded p eq_refl) as (i & w & -> & Hw). unfold updateExistingDedupEntry.
  rewrite decide_False.
  - unfold or_return at 1. cbn [st_bind st_ret calls_store]. by rewrite (insertVersion_rows d name n).
  - intros He. apply Hw. exact (f_equal (default "") He).
Qed.

Definition evicted (d : db) (name : string) (v : version_map) : Prop :=
  forall p, row d name (KDedup (version_hash (Some v))) = Some p ->
    exists i w, p = dedup_row i (marshal_version (Some w)) /\ other_text w v.

Lemma save_evicts d name n v w job :
  name_ok name -> db_faults d = [] -> meta_ok d name n -> evicted d name v ->
  other_text v w -> version_hash (Some v) = version_hash (Some w) ->
  exists d', (SaveResourceVersion (M := Calls) name (Some v) job d).2 = d' /\
    d' = insert_rows name n (StoredVersion.mk (Some v) job (RFC3339Nano (db_now d))) d /\
    db_faults d' = [] /\ db_now d' = db_now d /\ meta_ok d' name (S n) /\ evicted d' name w.
Proof.
  intros Hn Hf Hm He Hne Hcol.
  eexists. split; [by apply save_on_mismatch, He; [|apply getMetaCount_meta]|].
  split_and!; [done| | |by apply meta_ok_insert|].
  - unfold insert_rows. by rewrite !put_row_faults.
  - unfold insert_rows. by rewrite !put_row_now.
  - intros p. rewrite <- Hcol, row_insert_rows by (done || apply hashString_plain).
    rewrite decide_False, decide_True by done. intros [= <-]. exists n, v. split; [|done].
    destruct (row d name _) as [q|] eqn:E; [|done].
    by destruct (He q E) as (i & w' & -> & _).
Qed.

Lemma collision_duplicates d name v w job :
  name_ok name -> db_faults d = [] -> (forall k, key_ok k -> row d name k = None) ->
  other_text v w -> version_hash (Some v) = version_hash (Some w) ->
  let save x d := (SaveResourceVersion (M := Calls) name (Some x) job d).2 in
  let d3 := save v (save w (save v d)) in
  let sv := StoredVersion.mk (Some v) job (RFC3339Nano (db_now d)) in
  row d3 name (KVersion 0) = Some (version_row sv) /\
  row d3 name (KVersion 2) = Some (version_row sv).
Proof.
  intros Hn Hf Hempty Hne Hcol. cbv zeta.
  assert (Hne' : other_text w v) by (intros He; by apply Hne).
  destruct (save_evicts d name 0 v w job) as (d1 & -> & Hd1 & Hf1 & Ht1 & Hm1 & He1); [done..| | |done|done|].
  { unfold meta_ok. by rewrite Hempty. }
  { intros p Hp. rewrite Hempty in Hp; [done|apply hashString_plain]. }
  destruct (save_evicts d1 name 1 w v job) as (d2 & -> & Hd2 & Hf2 & Ht2 & Hm2 & He2); [done..|].
  destruct (save_evicts d2 name 2 v w job) as (d3 & -> & Hd3 & _ & _ & _ & _); [done..|].
  rewrite Hd3, Ht2, Ht1, Hd2, Hd1. split; by rewrite !row_insert_version, Hempty by done.
Qed.
End collisions.

(** ** Refinement

    The calls a run makes on the version store, against the contract: a list
    of versions per resource. [Tick] lets time pass between calls. *)
Inductive command : Type :=
  | Save (name : string) (v : version_map) (job : string)
  | Latest (name : string)
  | List_ (name : string) (limit : Z)
  | After (name : string) (v : option version_map)
  | Tick (now : time).

Inductive response : Type :=
  | Saved (r : result unit)
  | One (r : result (option StoredVersion.t))
  | Many (r : result (list StoredVersion.t))
  | Ticked.

Record spec_state : Type := mkSpec {
  sp_now : time;
  sp_versions : gmap string (list StoredVersion.t) }.

Definition versions_of (s : spec_state) (name : string) : list StoredVersion.t :=
  default [] (sp_versions s !! name).

Definition on_store {A} (answer : A -> response) (m : Calls A) (d : db) : response * db :=
  let '(a, d') := m d in (answer a, d').

Section commands.
Context `{!Namespace, !OrderBy, !JsonText, !VersionText}.

Definition run_command (c : command) : db -> response * db :=
  match c with
  | Save name v job => on_store Saved (SaveResourceVersion name (Some v) job)
  | Latest name => on_store One (GetLatestResourceVersion name)
  | List_ name limit => on_store Many (ListResourceVersions name limit)
  | After name v => on_store Many (GetVersionsAfter name v)
  | Tick now => fun d => (Ticked, set_now now d)
  end.

Definition spec_command (c : command) (s : spec_state) : response * spec_state :=
  match c with
  | Save name v job =>
      (Saved (Ok tt), mkSpec (sp_now s)
        (<[name := Spec.save v job (RFC3339Nano (sp_now s)) (versions_of s name)]> (sp_versions s)))
  | Latest name => (One (Ok (last (versions_of s name))), s)
  | List_ name limit => (Many (Ok (Spec.list_first limit (versions_of s name))), s)
  | After name v => (Many (Ok (Spec.after v (versions_of s name))), s)
  | Tick now => (Ticked, mkSpec now (sp_versions s))
  end.

Fixpoint responses {S} (run : command -> S -> response * S) (cs : list command) (s : S)
    : list response :=
  match cs with
  | [] => []
  | c :: cs => let '(r, s') := run c s in r :: responses run cs s'
  end.

(** What encoding/json stores as it is: text that is UTF-8. *)
Definition version_valid (v : version_map) : bool :=
  bool_decide (map_Forall (fun k x => utf8_valid k = true /\ utf8_valid x = true) v).
Definition command_ok (c : command) : Prop :=
  match c with
  | Save name v job => name_ok name /\ version_valid v = true /\ utf8_valid job = true
  | Latest name | List_ name _ | After name _ => name_ok name
  | Tick _ => True
  end.
Definition saved_version (c : command) : option version_map :=
  match c with Save _ v _ => Some v | _ => None end.

(** No two of the versions saved share the 32-bit hash. *)
Definition hash_injective (vs : list version_map) : Prop :=
  forall v v', v ∈ vs -> v' ∈ vs -> version_hash (Some v) = version_hash (Some v') -> v = v'.

Lemma hash_injective_NoDup vs : NoDup ((fun v => version_hash (Some v)) <$> vs) -> hash_injective vs.
Proof.
  intros Hd v w (i & Hi)%list_elem_of_lookup_1 (j & Hj)%list_elem_of_lookup_1 Heq.
  assert (i = j) as ->; [|congruence].
  eapply (NoDup_lookup _ i j (version_hash (Some v)) Hd); rewrite list_lookup_fmap;
    [by rewrite Hi|rewrite Hj; simpl; congruence].
Qed.

Record simulates (vs : list version_map) (d : db) (s : spec_state) : Prop := {
  sim_quiet : db_faults d = [];
  sim_now : db_now d = sp_now s;
  sim_rows : forall name, name_ok name -> represents (row d name) (versions_of s name);
  sim_saved : forall name sv, sv ∈ versions_of s name -> exists v, v ∈ vs /\ Spec.is_version v sv }.

Lemma elem_of_save v job now l sv :
  sv ∈ Spec.save v job now l ->
  Spec.is_version v sv \/ sv ∈ l.
Proof.
  unfold Spec.save. destruct (list_find _ l) as [[i sv0]|] eqn:Hfind.
  - apply list_find_Some in Hfind as (_ & Hv & _).
    intros (j & [(_ & <- & _)|[_ Hj]]%list_lookup_insert_Some)%list_elem_of_lookup_1;
      [by left|right; by eapply list_elem_of_lookup_2].
  - intros [?| ->%list_elem_of_singleton]%elem_of_app; [by right|by left].
Qed.

Lemma versions_of_save s name l name' :
  versions_of (mkSpec (sp_now s) (<[name := l]> (sp_versions s))) name' =
  if decide (name' = name) then l else versions_of s name'.
Proof.
  unfold versions_of. simpl. case_decide as Hn; [subst; by rewrite lookup_insert_eq|].
  by rewrite lookup_insert_ne by congruence.
Qed.

Lemma save_simulates (Hns : namespace = "") vs d s name v job :
  hash_injective vs -> v ∈ vs -> name_ok name -> simulates vs d s ->
  exists d', SaveResourceVersion (M := Calls) name (Some v) job d = (Ok tt, d') /\
    simulates vs d' (spec_command (Save name v job) s).2.
Proof.
  intros Hinj Hv Hn [Hf Hnow Hrows Hsaved].
  destruct (SaveResourceVersion_represents Hns d name (versions_of s name) v job)
    as (d' & Hrun & Hf' & Hnow' & Hr' & Hother & _); [done|done|by apply Hrows| |].
  { intros sv Hin Heq. destruct (Hsaved name sv Hin) as (v' & Hv' & Hsv).
    unfold Spec.is_version in *. rewrite Hsv in Heq |- *. f_equal. by apply Hinj. }
  exists d'. split; [done|]. cbn [spec_command snd]. split; [done|simpl; congruence| |].
  - intros name' Hn'. rewrite versions_of_save. case_decide as He.
    + subst name'. by rewrite <- Hnow.
    + apply Hother; [done..|by apply Hrows].
  - intros name' sv. rewrite versions_of_save. case_decide; [|by apply Hsaved].
    intros [?|?]%elem_of_save; [by exists v|by eapply Hsaved].
Qed.

Lemma command_simulates (Hns : namespace = "") vs d s c :
  hash_injective vs -> command_ok c -> (forall v, saved_version c = Some v -> v ∈ vs) ->
  simulates vs d s ->
  (run_command c d).1 = (spec_command c s).1 /\
  simulates vs (run_command c d).2 (spec_command c s).2.
Proof.
  intros Hinj Hok Hsaved Hsim. destruct c as [name v job|name|name limit|name v|now];
    cbn [run_command spec_command fst snd]; unfold on_store.
  - destruct Hok as [Hok _].
    destruct (save_simulates Hns vs d s name v job) as (d' & -> & Hs); [by auto..|done].
  - rewrite (GetLatestResourceVersion_represents d name (versions_of s name)); [done|..];
      by apply Hsim.
  - rewrite (ListResourceVersions_represents d name (versions_of s name)); [done|..];
      by apply Hsim.
  - rewrite (GetVersionsAfter_represents d name (versions_of s name)); [done|..];
      by apply Hsim.
  - split; [done|]. by destruct Hsim as [].
Qed.

(** C16: The version store refines an append-only list of distinct versions per
    resource: whatever sequence of saves and queries, over any resources, the
    rows under /rv answer as the lists do. A save appends a version that is
    new and refreshes the job and the time of one that is known, in place. The
    text saved is UTF-8, and no two of the versions saved share the 32-bit hash
    of their JSON text. *)
Theorem versions_refine d cs :
  namespace = "" -> db_faults d = [] ->
  (forall name k, name_ok name -> key_ok k -> row d name k = None) ->
  Forall command_ok cs -> hash_injective (omap saved_version cs) ->
  responses run_command cs d = responses spec_command cs (mkSpec (db_now d) ∅).
Proof.
  intros Hns Hf Hempty Hok Hinj.
  assert (Hsim : simulates (omap saved_version cs) d (mkSpec (db_now d) ∅)).
  { split; [done..| |].
    - intros name Hn. unfold versions_of. cbn [sp_versions]. rewrite lookup_empty.
      apply represents_empty. intros k. by apply Hempty.
    - intros name sv. unfold versions_of. cbn [sp_versions]. rewrite lookup_empty.
      by intros ?%elem_of_nil. }
  assert (Hsub : forall c v, c ∈ cs -> saved_version c = Some v -> v ∈ omap saved_version cs)
    by (intros c v Hc Hv; apply list_elem_of_omap; eauto).
  revert Hinj Hsim Hsub. generalize (omap saved_version cs) as vs. intros vs Hinj.
  generalize (mkSpec (db_now d) ∅) as s. clear Hf Hempty. revert d.
  induction Hok as [|c cs Hc _ IH]; intros d s Hsim Hsub; [done|]. cbn [responses].
  destruct (command_simulates Hns vs d s c) as [Hr Hs]; [done..|set_solver|done|].
  destruct (run_command c d), (spec_command c s). simpl in *. f_equal; [done|].
  apply IH; [done|]. set_solver.
Qed.
End commands.

(** ** Witnesses *)
Definition ex_versions_ns : Namespace := "".
Definition ex_versions_text : JsonText := fun _ => "".
Definition ex_version_text : VersionText :=
  Itoa.
#[local] Existing Instances ex_versions_ns ex_versions_text ex_version_text stable_order.

Definition ex_v1 : version_map := {["ref" := "a1"]}.
Definition ex_v2 : version_map := {["ref" := "b2"]}.
Definition ex_commands : list command :=
  [Save "p/repo" ex_v1 "build"; Tick 5; Save "p/repo" ex_v2 "build"; Save "p/repo" ex_v1 "deploy";
   Latest "p/repo"; After "p/repo" (Some ex_v1); List_ "p/other" 0; List_ "p/repo" 1].

Lemma ex_hash_injective : hash_injective (omap saved_version ex_commands).
Proof.
  assert (Hne : version_hash (Some ex_v1) <> version_hash (Some ex_v2)) by (vm_compute; discriminate).
  assert (Hin : forall v, v ∈ omap saved_version ex_commands -> v = ex_v1 \/ v = ex_v2)
    by (intros v; cbn [omap list_omap ex_commands saved_version]; rewrite !elem_of_cons, elem_of_nil;
        intros [->|[->|[->|[]]]]; [by left|by right|by left]).
  intros v w [-> | ->]%Hin [-> | ->]%Hin Hh; [reflexivity| | |reflexivity].
  - by destruct (Hne Hh).
  - by destruct (Hne (eq_sym Hh)).
Qed.

Lemma versions_refine_witness :
  drop 4 (responses run_command ex_commands empty_db) =
  [One (Ok (Some (StoredVersion.mk (Some ex_v2) "build" "5")));
   Many (Ok [StoredVersion.mk (Some ex_v2) "build" "5"]); Many (Ok []);
   Many (Ok [StoredVersion.mk (Some ex_v1) "deploy" "5"])].
Proof.
  rewrite (versions_refine empty_db ex_commands eq_refl eq_refl).
  - reflexivity.
  - intros name k _ _. unfold row. simpl. reflexivity.
  - assert (Hname : forall r, plain r = true -> name_ok ("p/" ++ r))
      by (intros r Hr; exists "p", r; split_and!; [reflexivity|exact Hr|reflexivity]).
    assert (Hsave : forall v job, version_valid v = true -> utf8_valid job = true ->
      command_ok (Save "p/repo" v job)) by (intros v job Hv Hj; exact (conj (Hname "repo" eq_refl) (conj Hv Hj))).
    repeat apply Forall_cons_2; try exact Logic.I; try apply (Hname "repo" eq_refl);
      try (apply Hsave; vm_compute; reflexivity); [apply (Hname "other" eq_refl)|apply Forall_nil_2].
  - exact ex_hash_injective.
Defined.

(** The JSON text of a version with one field [ref]. *)
Definition ref_text (r : string) : string :=
  let dq := String (ascii_of_nat 34) "" in
  "{" ++ dq ++ "ref" ++ dq ++ ":" ++ dq ++ r ++ dq ++ "}".

Example marshal_version_ref : marshal_version (Some {["ref" := "a1"]}) = ref_text "a1".
Proof. vm_compute. reflexivity. Qed.

(** Collisions of the hash are close by: two characters are enough. The hash
    is that of the characters, not of the bytes. *)
Lemma hashString_collides :
  hashString (ref_text "af") = hashString (ref_text "c8") /\
  hashString (ref_text "aa") = hashString (ref_text "àჂ").
Proof. split; reflexivity. Qed.

(** A save that fails after it wrote the version row leaves it there, uncounted;
    the next save merges its version into it. *)
Lemma failed_save_merges :
  let save (v : version_map) (d : db) :=
    (SaveResourceVersion (M := Calls) "p/repo" (Some v) "build" d).2 in
  let d := save {["digest" := "d4"]}
    (save {["ref" := "a1"]} (set_faults [false; false; false; false; false; true] empty_db)) in
  (GetLatestResourceVersion (M := Calls) "p/repo" d).1 =
  Ok (Some (StoredVersion.mk (Some (<["ref" := "a1"]> {["digest" := "d4"]})) "build" "0")).
Proof. vm_compute. reflexivity. Qed.
