(* ===== verification/ResourceRunner.v ===== *)
(** * Native resources of JavaScript pipelines (runtime/runner/resource.go, runtime/support/secrets.go)

    Check, fetch and push of a native resource, with the references to secrets
    in their source and parameters resolved first. A map is an object: the list
    of its entries in the order the loop visits them, which Go leaves open.
    [ResolveSecretsInMap_exact]: what is replaced; [operations_resolve]: what a
    resource is given. *)
From stdpp Require Import relations.
From S2P Require Import Prelude Storage Json Db GoStrings Sql Tasks Config Secrets ResourceStore.
Open Scope string_scope.

(** ** References in a map (support/secrets.go) *)

(** The error, if any; the map as it is left; the secrets that were found. *)
Record resolution (A : Type) := mkResolution {
  rs_err : option err; rs_value : A; rs_resolved : list string }.
Arguments mkResolution {A}.
Arguments rs_err {A}.
Arguments rs_value {A}.
Arguments rs_resolved {A}.

Section resolve.
Context (mgr : Manager) (pipelineID : string).

(** One value, at its key; the entries behind a failing one are not visited. *)
Fixpoint resolve_value (v : json) : resolution json :=
  match v with
  | JStr s =>
      match ResolveSecretString (Some mgr) pipelineID s with
      | Err e => mkResolution (Some e) v []
      | Ok (val, wasSecret) => if wasSecret then mkResolution None (JStr val) [val] else mkResolution None v []
      end
  | JObj fs =>
      let r := (fix resolve_entries (fs : list (string * json)) : resolution (list (string * json)) :=
        match fs with
        | [] => mkResolution None [] []
        | (k, v) :: fs =>
            let r := resolve_value v in
            match rs_err r with
            | Some e => mkResolution (Some (EWrap ("key " ++ q k) e)) ((k, rs_value r) :: fs) (rs_resolved r)
            | None =>
                let rest := resolve_entries fs in
                mkResolution (rs_err rest) ((k, rs_value r) :: rs_value rest) (rs_resolved r ++ rs_resolved rest)
            end
        end) fs in
      mkResolution (rs_err r) (JObj (rs_value r)) (rs_resolved r)
  | _ => mkResolution None v []
  end.
Fixpoint resolve_entries (fs : list (string * json)) : resolution (list (string * json)) :=
  match fs with
  | [] => mkResolution None [] []
  | (k, v) :: fs =>
      let r := resolve_value v in
      match rs_err r with
      | Some e => mkResolution (Some (EWrap ("key " ++ q k) e)) ((k, rs_value r) :: fs) (rs_resolved r)
      | None =>
          let rest := resolve_entries fs in
          mkResolution (rs_err rest) ((k, rs_value r) :: rs_value rest) (rs_resolved r ++ rs_resolved rest)
      end
  end.
Lemma resolve_object fs :
  resolve_value (JObj fs) =
    let r := resolve_entries fs in mkResolution (rs_err r) (JObj (rs_value r)) (rs_resolved r).
Proof. done. Qed.
End resolve.

(** A nil manager or a nil map is left alone. *)
Definition ResolveSecretsInMap (mgr : option Manager) (pipelineID : string) (m : option (list (string * json)))
    : resolution (option (list (string * json))) :=
  match mgr, m with
  | Some mgr, Some fs =>
      let r := resolve_entries mgr pipelineID fs in mkResolution (rs_err r) (Some (rs_value r)) (rs_resolved r)
  | _, _ => mkResolution None m []
  end.

(** ** The runner (runner/resource.go) *)
Module MetadataField.
Record t := mk { Name : string; Value : string }.
End MetadataField.
Module ResourceCheckInput.
Record t := mk { Type_ : string; Source : option (list (string * json)); Version : option version_map }.
End ResourceCheckInput.
Module ResourceFetchInput.
Record t := mk {
  Type_ : string; Source : option (list (string * json)); Version : option version_map;
  Params : option (list (string * json)); DestDir : string }.
End ResourceFetchInput.
Module ResourcePushInput.
Record t := mk {
  Type_ : string; Source : option (list (string * json)); Params : option (list (string * json)); SrcDir : string }.
End ResourcePushInput.
Notation any_map := (option (list (string * json))).
Notation stored_version := (option version_map * list MetadataField.t)%type.

(** A native resource as this runner calls it, on the outside world: a volume is a
    directory, and the metadata of a version is returned. *)
Record native (W : Type) := mkNativeOps {
  nat_Check : any_map -> option version_map -> ST W (list (option version_map));
  nat_In : string -> any_map -> option version_map -> any_map -> ST W stored_version;
  nat_Out : string -> any_map -> any_map -> ST W stored_version }.
Arguments mkNativeOps {W}.
Arguments nat_Check {W}.
Arguments nat_In {W}.
Arguments nat_Out {W}.

Module ResourceRunner.
Record t (W : Type) := mk { registry : gmap string (native W); secretsManager : option Manager; pipelineID : string }.
Arguments mk {W}.
Arguments registry {W}.
Arguments secretsManager {W}.
Arguments pipelineID {W}.
Definition SetSecretsManager {W} (mgr : option Manager) (pipelineID : string) (r : t W) : t W :=
  mk (registry r) mgr pipelineID.
End ResourceRunner.
(** A nil registry is empty. *)
Definition NewResourceRunner {W} (registry : option (gmap string (native W))) : ResourceRunner.t W :=
  ResourceRunner.mk (default ∅ registry) None "".

Section runner.
Context {W : Type} (r : ResourceRunner.t W).

Definition resolved_map (what : string) (m : any_map) : ST W any_map :=
  let x := ResolveSecretsInMap (ResourceRunner.secretsManager r) (ResourceRunner.pipelineID r) m in
  match rs_err x with
  | Some e => fail (EWrap ("could not resolve secrets in " ++ what) e)
  | None => ret (rs_value x)
  end.
Definition lookup_native (type_ : string) : ST W (native W) :=
  match ResourceRunner.registry r !! type_ with
  | Some res => ret res
  | None => fail (EWrap "resource type not found" (EMsg ("unknown resource type: " ++ type_)))
  end.

Definition Check (input : ResourceCheckInput.t) : ST W (list (option version_map)) :=
  let! source := resolved_map "source" (ResourceCheckInput.Source input) in
  let! res := lookup_native (ResourceCheckInput.Type_ input) in
  wrap "check failed" (nat_Check res source (ResourceCheckInput.Version input)).

Definition Fetch_resource (input : ResourceFetchInput.t) : ST W stored_version :=
  let! source := resolved_map "source" (ResourceFetchInput.Source input) in
  let! params := resolved_map "params" (ResourceFetchInput.Params input) in
  let! res := lookup_native (ResourceFetchInput.Type_ input) in
  wrap "fetch failed"
    (nat_In res (ResourceFetchInput.DestDir input) source (ResourceFetchInput.Version input) params).

Definition Push (input : ResourcePushInput.t) : ST W stored_version :=
  let! source := resolved_map "source" (ResourcePushInput.Source input) in
  let! params := resolved_map "params" (ResourcePushInput.Params input) in
  let! res := lookup_native (ResourcePushInput.Type_ input) in
  wrap "push failed" (nat_Out res (ResourcePushInput.SrcDir input) source params).

Definition IsNative (resourceType : string) : bool := bool_decide (is_Some (ResourceRunner.registry r !! resourceType)).
Definition ListNativeResources : list string := merge_sort String.le (map_to_list (ResourceRunner.registry r)).*1.
End runner.

(** ** What is replaced *)
Fixpoint json_rect' (P : json -> Prop)
    (Hother : forall v, (forall s, v <> JStr s) -> (forall fs, v <> JObj fs) -> P v)
    (Hstr : forall s, P (JStr s)) (Hobj : forall fs, Forall (fun kv => P kv.2) fs -> P (JObj fs)) v : P v.
Proof.
  destruct v as [| | |s| |fs]; try (apply Hother; done).
  - apply Hstr.
  - apply Hobj. induction fs as [|[k v] fs IH]; constructor; [apply (json_rect' P Hother Hstr Hobj v)|exact IH].
Defined.

Section exact.
Context (mgr : Manager) (pipelineID : string).

(** The reference: every text of the object, at any depth, that is a reference
    becomes its secret. *)
Fixpoint substitute (v : json) : json :=
  match v with
  | JStr s =>
      match ResolveSecretString (Some mgr) pipelineID s with Ok (val, _) => JStr val | Err _ => v end
  | JObj fs => JObj (map (fun kv => (kv.1, substitute kv.2)) fs)
  | _ => v
  end.
(** The texts of an object outside its arrays. *)
Fixpoint texts (v : json) : list string :=
  match v with
  | JStr s => [s]
  | JObj fs => flat_map (fun kv => texts kv.2) fs
  | _ => []
  end.
Definition secret_of_text (s : string) : list string :=
  match ResolveSecretString (Some mgr) pipelineID s with Ok (val, true) => [val] | _ => [] end.
Definition resolvable (s : string) : Prop :=
  exists r, ResolveSecretString (Some mgr) pipelineID s = Ok r.

Definition exact_value (v : json) (r : resolution json) : Prop :=
  (rs_err r = None <-> Forall resolvable (texts v)) /\
  (rs_err r = None -> rs_value r = substitute v /\ rs_resolved r = flat_map secret_of_text (texts v)).

Lemma plain_unchanged s val :
  ResolveSecretString (Some mgr) pipelineID s = Ok (val, false) -> val = s.
Proof.
  unfold ResolveSecretString. destruct (negb _); [by intros [= <-]|]. cbv zeta.
  destruct (IsSystemKey _); [done|]. destruct (mgr (PipelineScope pipelineID) _) as [x|e]; [done|].
  destruct (negb _); [done|]. destruct (mgr GlobalScope _) as [x|e']; [done|]. by destruct (negb _).
Qed.

Lemma resolve_value_exact v : exact_value v (resolve_value mgr pipelineID v).
Proof.
  unfold exact_value. induction v as [v Hs Ho|s|fs IH] using json_rect'.
  - destruct v as [| | |s| |fs]; cbn; [|..|by destruct (Ho fs)]; try (by destruct (Hs s));
      (split; [split; [constructor|done]|done]).
  - cbn [resolve_value texts substitute flat_map]. unfold secret_of_text.
    assert (Hone : forall r, ResolveSecretString (Some mgr) pipelineID s = Ok r -> Forall resolvable [s])
      by (intros r Hr; constructor; [by exists r|constructor]).
    destruct (ResolveSecretString (Some mgr) pipelineID s) as [[val []]|e] eqn:Hr; cbn.
    + split; [split; [intros _; by eapply Hone|done]|done].
    + pose proof (plain_unchanged _ _ Hr) as ->.
      split; [split; [intros _; by eapply Hone|done]|done].
    + split; [|done]. split; [done|]. intros Hall. apply Forall_cons_1 in Hall as [[r Hx] _]. by rewrite Hr in Hx.
  - rewrite resolve_object. cbn [rs_err rs_value rs_resolved texts substitute].
    assert (Hfs : (rs_err (resolve_entries mgr pipelineID fs) = None <-> Forall resolvable (flat_map (fun kv => texts kv.2) fs)) /\
      (rs_err (resolve_entries mgr pipelineID fs) = None ->
       rs_value (resolve_entries mgr pipelineID fs) = map (fun kv => (kv.1, substitute kv.2)) fs /\
       rs_resolved (resolve_entries mgr pipelineID fs) = flat_map secret_of_text (flat_map (fun kv => texts kv.2) fs))).
    { induction IH as [|[k v] fs [Hv1 Hv2] _ [IH1 IH2]]; [split; [split; [constructor|done]|done]|].
      cbn [resolve_entries flat_map map fst snd] in *. rewrite Forall_app.
      destruct (rs_err (resolve_value mgr pipelineID v)) as [e|] eqn:He; cbn [rs_err rs_value rs_resolved].
      - split; [|done]. split; [done|]. intros [Hall _]. by apply Hv1 in Hall.
      - destruct (Hv2 eq_refl) as [-> ->]. split; [rewrite IH1; naive_solver|].
        intros Hn. destruct (IH2 Hn) as [-> ->]. by rewrite flat_map_app. }
    destruct Hfs as [H1 H2]. split; [exact H1|]. intros Hn. destruct (H2 Hn) as [-> ->]. done.
Qed.
End exact.

(** Resolving fails exactly when one of the references does, in any order of the
    entries; otherwise every text at any depth of the map that is a reference is
    replaced by its secret, nothing else is changed, and the secrets that were
    found are those. *)
Theorem ResolveSecretsInMap_exact mgr pipelineID fs :
  let r := ResolveSecretsInMap (Some mgr) pipelineID (Some fs) in
  let all := flat_map (fun kv => texts kv.2) fs in
  (rs_err r = None <-> Forall (resolvable mgr pipelineID) all) /\
  (rs_err r = None ->
     rs_value r = Some (map (fun kv => (kv.1, substitute mgr pipelineID kv.2)) fs) /\
     rs_resolved r = flat_map (secret_of_text mgr pipelineID) all).
Proof.
  cbv zeta. destruct (resolve_value_exact mgr pipelineID (JObj fs)) as [H1 H2].
  rewrite resolve_object in H1, H2. cbn [rs_err rs_value rs_resolved texts substitute] in H1, H2.
  unfold ResolveSecretsInMap. cbn [rs_err rs_value rs_resolved]. split; [exact H1|].
  intros Hn. destruct (H2 Hn) as [Hv Hr]. injection Hv as ->. by rewrite Hr.
Qed.

(** ** What a resource is given *)
Section operations.
Context {W : Type} (r : ResourceRunner.t W) (mgr : Manager).
Hypothesis has_manager : ResourceRunner.secretsManager r = Some mgr.

Definition given (m : any_map) : any_map :=
  option_map (map (fun kv => (kv.1, substitute mgr (ResourceRunner.pipelineID r) kv.2))) m.
Definition map_resolvable (m : any_map) : Prop :=
  forall fs, m = Some fs -> Forall (resolvable mgr (ResourceRunner.pipelineID r)) (flat_map (fun kv => texts kv.2) fs).

Lemma resolved_map_spec what m (w : W) :
  (map_resolvable m /\ resolved_map r what m w = (Ok (given m), w)) \/
  (~ map_resolvable m /\ exists e, resolved_map r what m w = (Err e, w)).
Proof.
  unfold resolved_map, map_resolvable, given. rewrite has_manager. destruct m as [fs|]; [|by left].
  destruct (ResolveSecretsInMap_exact mgr (ResourceRunner.pipelineID r) fs) as [H1 H2].
  destruct (rs_err (ResolveSecretsInMap (Some mgr) (ResourceRunner.pipelineID r) (Some fs))) as [e|] eqn:He.
  - right. split; [|by eexists]. intros Hall. specialize (Hall fs eq_refl). apply H1 in Hall. congruence.
  - left. destruct (H2 eq_refl) as [Hv _]. split; [intros fs' [= <-]; by apply H1|]. rewrite Hv. done.
Qed.

(** A resource is called with all references resolved, or not at all: a
    reference that fails leaves the outside world as it was. *)
Theorem operations_resolve input (w : W) :
  (map_resolvable (ResourceFetchInput.Source input) /\ map_resolvable (ResourceFetchInput.Params input) /\
   exists res, ResourceRunner.registry r !! ResourceFetchInput.Type_ input = Some res /\
     Fetch_resource r input w =
       wrap "fetch failed" (nat_In res (ResourceFetchInput.DestDir input) (given (ResourceFetchInput.Source input))
         (ResourceFetchInput.Version input) (given (ResourceFetchInput.Params input))) w) \/
  exists e, Fetch_resource r input w = (Err e, w).
Proof.
  unfold Fetch_resource.
  destruct (resolved_map_spec "source" (ResourceFetchInput.Source input) w) as [[Hs Es]|[_ [e Es]]];
    [|right; exists e; unfold bind; by rewrite Es].
  rewrite (bind_ok _ _ _ _ _ Es).
  destruct (resolved_map_spec "params" (ResourceFetchInput.Params input) w) as [[Hp Ep]|[_ [e Ep]]];
    [|right; exists e; unfold bind; by rewrite Ep].
  rewrite (bind_ok _ _ _ _ _ Ep). unfold lookup_native, bind.
  destruct (_ !! ResourceFetchInput.Type_ input) as [res|] eqn:Hreg; [|right; by eexists].
  left. split; [exact Hs|]. split; [exact Hp|]. by exists res.
Qed.
End operations.

(** ** Examples *)
Definition ex_keys : Manager := fun scope key =>
  if decide (scope = GlobalScope /\ key = "AWS"%string) then Ok "AKIA" else Err (ESentinel SSecretNotFound).
Example resolve_nested :
  ResolveSecretsInMap (Some ex_keys) "p1"
    (Some [("bucket", JStr "b"); ("credentials", JObj [("key", JStr "secret:AWS")]); ("list", JArr [JStr "secret:AWS"])]) =
  mkResolution None
    (Some [("bucket", JStr "b"); ("credentials", JObj [("key", JStr "AKIA")]); ("list", JArr [JStr "secret:AWS"])]) ["AKIA"].
Proof. vm_compute. reflexivity. Qed.
