(* ===== verification/JsonCodec.v ===== *)
(** * Values stored as JSON

    [json.Marshal] of a struct, [json.Unmarshal] into it, and what the merge
    patch of the task store does to a stored value that is written again.
    [jequiv] is equality of JSON values up to the order of object keys;
    a codec reads a value back from any of them. [jsonb_patch_covers]: writing a value over an older
    one stores exactly the new value when no field of the older one is missing
    from it. A field dropped by omitempty is such a missing field. *)
From S2P Require Import Prelude Json.
From stdpp Require Import relations.
Open Scope string_scope.

(** ** Equality up to the order of keys *)
Section induction.
Context (P : json -> Prop) (Hnull : P JNull) (Hbool : forall b, P (JBool b))
  (Hnum : forall n, P (JNum n)) (Hstr : forall s, P (JStr s))
  (Harr : forall l, Forall P l -> P (JArr l))
  (Hobj : forall fs, Forall (fun kv => P kv.2) fs -> P (JObj fs)).
Fixpoint json_nested_ind (j : json) : P j :=
  match j with
  | JNull => Hnull
  | JBool b => Hbool b
  | JNum n => Hnum n
  | JStr s => Hstr s
  | JArr l =>
      Harr l ((fix go (l : list json) : Forall P l :=
        match l with
        | [] => List.Forall_nil _
        | v :: l => List.Forall_cons _ v l (json_nested_ind v) (go l)
        end) l)
  | JObj fs =>
      Hobj fs ((fix go (fs : list (string * json)) : Forall (fun kv => P kv.2) fs :=
        match fs with
        | [] => List.Forall_nil _
        | kv :: fs => List.Forall_cons _ kv fs (json_nested_ind kv.2) (go fs)
        end) fs)
  end.
End induction.

Inductive jequiv : json -> json -> Prop :=
  | je_refl v : jequiv v v
  | je_obj fs gs :
      (forall k, get_field k fs = None -> get_field k gs = None) ->
      (forall k v, get_field k fs = Some v -> exists w, get_field k gs = Some w /\ jequiv v w) ->
      jequiv (JObj fs) (JObj gs).

(** Field by field. *)
Lemma jequiv_field fs gs k :
  jequiv (JObj fs) (JObj gs) ->
  match get_field k fs, get_field k gs with
  | Some v, Some w => jequiv v w
  | None, None => True
  | _, _ => False
  end.
Proof.
  intros He. inversion He as [v Hv|fs' gs' Hnone Hsome]; subst.
  - destruct (get_field k gs); [apply je_refl|done].
  - destruct (get_field k fs) as [v|] eqn:E.
    + destruct (Hsome k v E) as (w & -> & ?). done.
    + by rewrite (Hnone k E).
Qed.

Lemma jequiv_not_object v w :
  jequiv v w -> match v with JObj _ => exists gs, w = JObj gs | _ => w = v end.
Proof. destruct 1 as [v|fs gs]; [destruct v; by eauto|by eexists]. Qed.

(** ** Writing over an older value *)
Inductive tidy : json -> Prop :=
  | tidy_bool b : tidy (JBool b)
  | tidy_num n : tidy (JNum n)
  | tidy_str s : tidy (JStr s)
  | tidy_arr l : tidy (JArr l)
  | tidy_obj fs : NoDup fs.*1 -> (forall k v, get_field k fs = Some v -> tidy v) -> tidy (JObj fs).

Definition is_object (v : json) : Prop := match v with JObj _ => True | _ => False end.

(** Every field of [old], at every level, is a field of [new]. *)
Inductive covers : json -> json -> Prop :=
  | covers_leaf new old : ~ is_object new -> covers new old
  | covers_fresh new old : ~ is_object old -> covers new old
  | covers_obj ns os :
      (forall k, get_field k ns = None -> get_field k os = None) ->
      (forall k v w, get_field k ns = Some v -> get_field k os = Some w -> covers v w) ->
      covers (JObj ns) (JObj os).

Lemma jsonb_patch_covers new : forall old,
  tidy new -> covers new old -> jequiv new (jsonb_patch old new).
Proof.
  induction new as [|b|n|s|l _|ns IH] using json_nested_ind; intros old Ht Hc; try by apply je_refl.
  inversion Ht as [| | | |fs Hnd Hsub]; subst. rewrite jsonb_patch_obj.
  assert (Hnone : forall k, get_field k ns = None -> get_field k (fields old) = None).
  { inversion Hc as [? ? Hn|? ? Ho|? ? Hnone]; subst; [by destruct Hn| |done].
    intros k _. by destruct old. }
  apply je_obj; intros k; rewrite get_patch_fields by done.
  - intros Hk. rewrite Hk. by apply Hnone.
  - intros v Hk. rewrite Hk. specialize (Hsub k v Hk).
    assert (Hp : patch_value (get_field k (fields old)) v
                 = Some (jsonb_patch (default JNull (get_field k (fields old))) v))
      by (by inversion Hsub).
    rewrite Hp. eexists. split; [reflexivity|]. rewrite Forall_forall in IH.
    apply (IH (k, v)); [by apply get_field_in|done|].
    destruct (get_field k (fields old)) as [w|] eqn:Hw; [|by apply covers_fresh; intros []].
    simpl. inversion Hc as [? ? Hn|? ? Ho|? ? _ Hcov]; subst; [by destruct Hn| |by eapply Hcov].
    destruct old; try discriminate. by destruct Ho.
Qed.

(** [covers] does not look at the order of keys. *)
Lemma covers_jequiv new old old' : jequiv old old' -> covers new old -> covers new old'.
Proof.
  intros He Hc. revert old' He. induction Hc as [new old Hn|new old Ho|ns os Hnone Hc IH];
    intros old' He.
  - by apply covers_leaf.
  - apply covers_fresh. apply jequiv_not_object in He. destruct old; subst; try done.
  - destruct (jequiv_not_object _ _ He) as [gs ->]. apply covers_obj.
    + intros k Hk. pose proof (jequiv_field os gs k He) as Hf.
      rewrite (Hnone k Hk) in Hf. by destruct (get_field k gs).
    + intros k v w Hv Hw. pose proof (jequiv_field os gs k He) as Hf. rewrite Hw in Hf.
      destruct (get_field k os) as [w0|] eqn:E; [|done]. by eapply IH.
Qed.

(** ** Codecs *)

(** [json.Marshal] and [json.Unmarshal] of a type: a [storable] value is read
    back from what was written, keys in any order. *)
Class JsonCodec (A : Type) : Type := {
  to_json : A -> json;
  of_json : json -> option A;
  storable : A -> Prop;
  to_json_tidy : forall a, storable a -> tidy (to_json a);
  of_to_json : forall a v, storable a -> jequiv (to_json a) v -> of_json v = Some a }.

(** A value that is not written as an object is read from one text only. *)
Lemma jequiv_scalar v w : ~ is_object v -> jequiv v w -> w = v.
Proof. intros Hv He. apply jequiv_not_object in He. by destruct v. Qed.

Definition json_string (v : json) : option string := match v with JStr s => Some s | _ => None end.
Definition json_number (v : json) : option Z := match v with JNum n => Some n | _ => None end.
Definition json_bool (v : json) : option bool := match v with JBool b => Some b | _ => None end.
Definition json_strings (v : json) : option (list string) :=
  match v with JArr l => mapM json_string l | _ => None end.

Lemma json_strings_written l : json_strings (JArr (JStr <$> l)) = Some l.
Proof. apply mapM_Some. induction l; constructor; done. Qed.

Ltac scalar_codec :=
  first [by intros; constructor | intros a v _ He; apply jequiv_scalar in He; [by subst v|intros Ho; exact Ho]].
#[export] Instance string_codec : JsonCodec string.
Proof. refine {| to_json := JStr; of_json := json_string; storable := fun _ => True |}; scalar_codec. Defined.
#[export] Instance number_codec : JsonCodec Z.
Proof. refine {| to_json := JNum; of_json := json_number; storable := fun _ => True |}; scalar_codec. Defined.
#[export] Instance bool_codec : JsonCodec bool.
Proof. refine {| to_json := JBool; of_json := json_bool; storable := fun _ => True |}; scalar_codec. Defined.
#[export] Instance strings_codec : JsonCodec (list string).
Proof.
  refine {| to_json := fun l => JArr (JStr <$> l); of_json := json_strings; storable := fun _ => True |};
    [by intros; constructor|].
  intros l v _ He. apply jequiv_scalar in He; [subst v|intros Ho; exact Ho].
  apply json_strings_written.
Defined.

(** *** Structs *)

(** A struct is written field by field; [None] is a field that omitempty drops. *)
Definition written (specs : list (string * option json)) : list (string * json) :=
  omap (fun '(k, o) => pair k <$> o) specs.
Fixpoint spec_get (k : string) (specs : list (string * option json)) : option json :=
  match specs with
  | [] => None
  | (k', o) :: specs => if decide (k = k') then o else spec_get k specs
  end.

Lemma keys_written specs k : k ∈ (written specs).*1 -> k ∈ specs.*1.
Proof.
  induction specs as [|[k' [v|]] specs IH]; simpl; [done| |set_solver].
  rewrite !elem_of_cons. intros [?|?]; [by left|right; by apply IH].
Qed.

Lemma NoDup_written specs : NoDup specs.*1 -> NoDup (written specs).*1.
Proof.
  induction specs as [|[k [v|]] specs IH]; simpl; [done| |by intros [_ ?]%NoDup_cons; apply IH].
  intros [Hni Hnd]%NoDup_cons. constructor; [by intros ?%keys_written|by apply IH].
Qed.

Lemma get_field_written specs k :
  NoDup specs.*1 -> get_field k (written specs) = spec_get k specs.
Proof.
  induction specs as [|[k' o] specs IH]; simpl; [done|]. intros [Hni Hnd]%NoDup_cons.
  case_decide as Hk; destruct o as [v|]; simpl.
  - by rewrite decide_True.
  - subst k'. apply get_field_not_in. by intros ?%keys_written.
  - rewrite decide_False by done. by apply IH.
  - by apply IH.
Qed.

Lemma tidy_written specs :
  NoDup specs.*1 -> Forall (fun '(_, o) => forall v, o = Some v -> tidy v) specs ->
  tidy (JObj (written specs)).
Proof.
  intros Hnd Hall. constructor; [by apply NoDup_written|]. intros k v.
  rewrite get_field_written by done. clear Hnd.
  induction Hall as [|[k' o] specs Ho _ IH]; simpl; [done|]. case_decide; [apply Ho|apply IH].
Qed.

(** Reading a field: absent and null leave the zero value. *)
Definition read {A} `{!JsonCodec A} (k : string) (zero : A) (fs : list (string * json))
    : option A :=
  match get_field k fs with
  | None | Some JNull => Some zero
  | Some v => of_json v
  end.
(** A pointer. *)
Definition read_ptr {A} `{!JsonCodec A} (k : string) (fs : list (string * json))
    : option (option A) :=
  match get_field k fs with
  | None | Some JNull => Some None
  | Some v => Some <$> of_json v
  end.

(** A struct read back: [gs] is what [specs] wrote, in any order. *)
Section read.
Context {A : Type} `{!JsonCodec A} (specs : list (string * option json)) (gs : list (string * json)).
Context (Hnd : NoDup specs.*1) (He : jequiv (JObj (written specs)) (JObj gs)).

Lemma read_field k :
  match spec_get k specs with
  | Some v => exists w, get_field k gs = Some w /\ jequiv v w
  | None => get_field k gs = None
  end.
Proof using Hnd He.
  pose proof (jequiv_field _ _ k He) as Hf. rewrite get_field_written in Hf by done.
  destruct (spec_get k specs), (get_field k gs); try done. by eexists.
Qed.

Lemma read_not_null (a : A) v : storable a -> jequiv (to_json a) v -> v <> JNull.
Proof.
  intros Ha Hv ->. apply to_json_tidy in Ha. apply jequiv_not_object in Hv.
  destruct (to_json a); try discriminate; [inversion Ha|by destruct Hv].
Qed.

Lemma read_written k (zero a : A) :
  storable a -> spec_get k specs = Some (to_json a) -> read k zero gs = Some a.
Proof using Hnd He.
  intros Ha Hk. pose proof (read_field k) as Hf. rewrite Hk in Hf. destruct Hf as (w & Hw & Hj).
  unfold read. rewrite Hw, (of_to_json a w Ha Hj).
  pose proof (read_not_null a w Ha Hj). by destruct w.
Qed.
Lemma read_omitted k (zero : A) : spec_get k specs = None -> read k zero gs = Some zero.
Proof using Hnd He.
  intros Hk. pose proof (read_field k) as Hf. rewrite Hk in Hf. unfold read. by rewrite Hf.
Qed.
Lemma read_ptr_written k (o : option A) :
  (forall a, o = Some a -> storable a) -> spec_get k specs = to_json <$> o ->
  read_ptr k gs = Some o.
Proof using Hnd He.
  intros Ho Hk. pose proof (read_field k) as Hf. rewrite Hk in Hf. unfold read_ptr.
  destruct o as [a|]; simpl in Hf; [|by rewrite Hf]. destruct Hf as (w & Hw & Hj).
  specialize (Ho a eq_refl). rewrite Hw, (of_to_json a w Ho Hj).
  pose proof (read_not_null a w Ho Hj). by destruct w.
Qed.
End read.

(** What [covers_written] asks of one field. *)
Definition spec_covers (new old : option json) : Prop :=
  match new, old with
  | Some v, Some w => covers v w
  | None, Some _ => False
  | _, None => True
  end.

Lemma covers_written news olds :
  NoDup news.*1 -> NoDup olds.*1 -> (forall k, spec_covers (spec_get k news) (spec_get k olds)) ->
  covers (JObj (written news)) (JObj (written olds)).
Proof.
  intros Hn Ho Hc. apply covers_obj; intros k; rewrite !get_field_written by done;
    specialize (Hc k); unfold spec_covers in Hc.
  - intros Hk. rewrite Hk in Hc. by destruct (spec_get k olds).
  - intros v w Hv Hw. by rewrite Hv, Hw in Hc.
Qed.

(** *** Maps *)
Section maps.
Context {A : Type} `{!JsonCodec A}.

Definition json_entries (m : gmap string A) : list (string * json) :=
  prod_map id to_json <$> map_to_list m.

Lemma keys_json_entries m : (json_entries m).*1 = (map_to_list m).*1.
Proof. unfold json_entries. rewrite <- list_fmap_compose. by apply list_fmap_ext. Qed.

Lemma get_field_entries m k : get_field k (json_entries m) = to_json <$> m !! k.
Proof.
  assert (Hnd : NoDup (json_entries m).*1)
    by (rewrite keys_json_entries; apply NoDup_fst_map_to_list).
  destruct (m !! k) as [a|] eqn:E; simpl.
  - apply get_field_elem; [done|]. apply list_elem_of_fmap.
    exists (k, a). split; [done|]. by apply elem_of_map_to_list.
  - apply get_field_not_in. rewrite keys_json_entries.
    intros ([k' a] & -> & Hin)%list_elem_of_fmap. apply elem_of_map_to_list in Hin.
    simpl in E. congruence.
Qed.

Definition raw_entries (fs : list (string * json)) : gmap string json := list_to_map fs.

Lemma lookup_raw_entries fs k : raw_entries fs !! k = get_field k fs.
Proof.
  unfold raw_entries. induction fs as [|[k' v] fs IH]; simpl; [by rewrite lookup_empty|].
  case_decide as Hk; [subst; by rewrite lookup_insert_eq|].
  rewrite lookup_insert_ne by done. exact IH.
Qed.

Definition json_map (v : json) : option (gmap string A) :=
  match v with
  | JObj fs =>
      if decide (map_Forall (fun _ v => is_Some (of_json (A := A) v)) (raw_entries fs))
      then Some (omap of_json (raw_entries fs)) else None
  | _ => None
  end.
Definition storable_map (m : gmap string A) : Prop := map_Forall (fun _ => storable) m.

Lemma json_map_entries m v :
  storable_map m -> jequiv (JObj (json_entries m)) v -> json_map v = Some m.
Proof.
  intros Hm He. destruct (jequiv_not_object _ _ He) as [gs ->]. unfold json_map.
  assert (Hk : forall k, raw_entries gs !! k ≫= of_json = m !! k /\
                         (raw_entries gs !! k = None <-> m !! k = None)).
  { intros k. apply (jequiv_field _ _ k) in He. rewrite lookup_raw_entries.
    rewrite get_field_entries in He. destruct (m !! k) as [a|] eqn:E; simpl in He.
    - destruct (get_field k gs) as [w|]; [|done]. simpl.
      split; [apply of_to_json; [by apply (Hm k)|done]|done].
    - by destruct (get_field k gs). }
  rewrite decide_True.
  - f_equal. apply map_eq. intros k. rewrite lookup_omap. apply Hk.
  - intros k w Hw. destruct (Hk k) as [Hv Hn]. rewrite Hw in Hv, Hn. simpl in Hv. rewrite Hv.
    destruct (m !! k); [by eexists|]. discriminate (proj2 Hn eq_refl).
Qed.

Lemma json_entries_tidy m : storable_map m -> tidy (JObj (json_entries m)).
Proof.
  intros Hm. constructor; [rewrite keys_json_entries; apply NoDup_fst_map_to_list|].
  intros k v. rewrite get_field_entries. destruct (m !! k) eqn:E; simpl; [|done].
  intros [= <-]. apply to_json_tidy. by apply (Hm k).
Qed.

#[export] Instance map_codec : JsonCodec (gmap string A) := {|
  to_json := fun m => JObj (json_entries m); of_json := json_map; storable := storable_map;
  to_json_tidy := json_entries_tidy; of_to_json := json_map_entries |}.

Lemma covers_entries (news olds : gmap string A) :
  (forall k a, olds !! k = Some a -> exists b, news !! k = Some b /\ covers (to_json b) (to_json a)) ->
  covers (to_json news) (to_json olds).
Proof.
  intros Hc. apply covers_obj; intros k; rewrite !get_field_entries.
  - destruct (olds !! k) as [a|] eqn:E; [|done]. by destruct (Hc k a E) as (b & -> & _).
  - intros v w Hv Hw. destruct (olds !! k) as [a|] eqn:E; [|done].
    destruct (Hc k a E) as (b & Hb & Hcov). rewrite Hb in Hv. simplify_eq/=. done.
Qed.
End maps.
