(* ===== verification/Redaction.v ===== *)
(** * Redaction of secrets (runtime/support/redaction.go)

    [RedactSecrets] replaces the secret values in a text by a placeholder, the
    longest first. [RedactSecrets_hides]: afterwards no secret occurs in the
    text, as long as it cannot be read off the placeholder itself. *)
From S2P Require Import Prelude GoStrings Sql.
From Stdlib Require Import Ascii.
Open Scope string_scope.
#[local] Arguments String.append !_ _ / : simpl nomatch.

(** [strings.ReplaceAll] for a non-empty [old]: the leftmost occurrences that
    do not overlap. [skip] counts the bytes left of the last one. *)
Fixpoint replace_after (skip : nat) (old new s : string) : string :=
  match s with
  | EmptyString => ""
  | String a s' =>
      match skip with
      | S skip => replace_after skip old new s'
      | O =>
          if HasPrefix s old then new ++ replace_after (String.length old - 1) old new s'
          else String a (replace_after 0 old new s')
      end
  end.
Definition ReplaceAll (s old new : string) : string := replace_after 0 old new s.

Definition RedactedPlaceholder : string := "***REDACTED***".

(** [seen]: the first of equal values is kept. *)
Fixpoint distinct_values (seen : list string) (values : list string) : list string :=
  match values with
  | [] => []
  | v :: values =>
      if decide (v <> "" /\ v ∉ seen) then v :: distinct_values (v :: seen) values
      else distinct_values seen values
  end.

(** [sort.Slice] is not stable: the order of values of one length is open. *)
Definition RedactSecrets `{!OrderBy} (text : string) (secretValues : list string) : string :=
  if decide (secretValues = [] \/ text = "") then text
  else
    let values := distinct_values [] secretValues in
    foldl (fun text secret => ReplaceAll text secret RedactedPlaceholder) text
      (order_by (fun v => (- Z.of_nat (String.length v))%Z) values).

(** ** Facts *)

(** No byte of [s] is a star. *)
Definition starless (s : string) : bool := all_chars (fun a => negb (Ascii.eqb a "*")) s.

(** A secret that cannot be read off the placeholder, nor across its ends. *)
Definition redactable (v : string) : bool :=
  negb (bool_decide (v = "")) && starless v && negb (Contains "REDACTED" v).

Lemma HasPrefix_empty s : HasPrefix s "" = true.
Proof. by destruct s. Qed.

Lemma HasPrefix_cons a s b p :
  HasPrefix (String a s) (String b p) = bool_decide (b = a) && HasPrefix s p.
Proof.
  unfold HasPrefix. simpl. destruct (ascii_dec b a) as [->|Hne].
  - by rewrite bool_decide_eq_true_2.
  - by rewrite bool_decide_eq_false_2.
Qed.

(** A starless text read off a replaced one is read off the original. *)
Lemma HasPrefix_replace v w s :
  starless v = true ->
  HasPrefix (replace_after 0 w RedactedPlaceholder s) v = true -> HasPrefix s v = true.
Proof.
  revert v. induction s as [|a s IH]; intros v Hv; [done|]. cbn [replace_after].
  destruct v as [|b v]; [intros _; apply HasPrefix_empty|].
  cbn [starless all_chars] in Hv. apply andb_true_iff in Hv as [Hb Hv].
  destruct (HasPrefix (String a s) w).
  - unfold RedactedPlaceholder. cbn [String.append]. rewrite HasPrefix_cons.
    intros [He%bool_decide_eq_true _]%andb_true_iff. by subst b.
  - rewrite !HasPrefix_cons. intros [He Hp]%andb_true_iff. rewrite He. simpl. by apply IH.
Qed.

Lemma Contains_cons a s v :
  Contains (String a s) v = HasPrefix (String a s) v || Contains s v.
Proof. reflexivity. Qed.

(** A starless text found across the placeholder is inside it or after it. *)
Lemma Contains_after_stars v x :
  starless v = true -> v <> "" -> Contains ("***" ++ x) v = Contains x v.
Proof.
  intros Hv Hne. destruct v as [|b v]; [done|].
  cbn [starless all_chars] in Hv. apply andb_true_iff in Hv as [Hb _].
  assert (Hs : forall y, HasPrefix (String "*" y) (String b v) = false).
  { intros y. rewrite HasPrefix_cons. rewrite bool_decide_eq_false_2; [done|].
    intros ->. discriminate. }
  cbn [String.append]. by rewrite !Contains_cons, !Hs.
Qed.

Lemma HasPrefix_before_star u v x :
  starless v = true -> HasPrefix (u ++ String "*" x) v = true -> HasPrefix u v = true.
Proof.
  revert v. induction u as [|a u IH]; intros v Hv.
  - destruct v as [|b v]; [done|]. cbn [starless all_chars] in Hv.
    apply andb_true_iff in Hv as [Hb _]. cbn [String.append]. rewrite HasPrefix_cons.
    intros [He%bool_decide_eq_true _]%andb_true_iff. by subst b.
  - destruct v as [|b v]; [intros _; apply HasPrefix_empty|].
    cbn [starless all_chars] in Hv. apply andb_true_iff in Hv as [_ Hv].
    cbn [String.append]. rewrite !HasPrefix_cons. intros [-> Hp]%andb_true_iff. by apply IH.
Qed.

Lemma Contains_before_star u v x :
  starless v = true -> v <> "" ->
  Contains (u ++ String "*" x) v = true -> Contains u v = true \/ Contains (String "*" x) v = true.
Proof.
  intros Hv Hne. induction u as [|a u IH]; [by right|].
  cbn [String.append]. rewrite (Contains_cons a (u ++ _)), (Contains_cons a u), !orb_true_iff.
  intros [Hp|Hc].
  - left. left. change (String a (u ++ String "*" x)) with (String a u ++ String "*" x) in Hp.
    by eapply HasPrefix_before_star.
  - destruct (IH Hc); [by left; right|by right].
Qed.

Lemma Contains_placeholder v x :
  redactable v = true -> Contains (RedactedPlaceholder ++ x) v = true -> Contains x v = true.
Proof.
  unfold redactable. rewrite !andb_true_iff, !negb_true_iff, bool_decide_eq_false.
  intros [[Hne Hv] Hr] Hc.
  change (RedactedPlaceholder ++ x) with ("***" ++ ("REDACTED" ++ String "*" ("**" ++ x))) in Hc.
  rewrite Contains_after_stars in Hc by done.
  apply Contains_before_star in Hc as [Hc|Hc]; [congruence| |done..].
  change (String "*" ("**" ++ x)) with ("***" ++ x) in Hc. by rewrite Contains_after_stars in Hc.
Qed.

(** Replacing introduces no secret ... *)
Lemma Contains_replace v w s : forall skip,
  redactable v = true ->
  Contains (replace_after skip w RedactedPlaceholder s) v = true -> Contains s v = true.
Proof.
  induction s as [|a s IH]; intros skip Hv; [done|]. cbn [replace_after].
  rewrite Contains_cons, orb_true_iff.
  destruct skip as [|skip]; [|intros Hc; right; by eapply IH].
  destruct (HasPrefix (String a s) w) eqn:Hw.
  - intros Hc%Contains_placeholder; [|done]. right. by eapply IH.
  - rewrite Contains_cons, orb_true_iff. intros [Hp|Hc]; [left|right; by eapply IH].
    apply (HasPrefix_replace v w (String a s)).
    + unfold redactable in Hv. by apply andb_true_iff in Hv as [[_ ?]%andb_true_iff _].
    + cbn [replace_after]. by rewrite Hw.
Qed.

(** ... and removes the one replaced. *)
Lemma Contains_replaced v s : forall skip,
  redactable v = true -> Contains (replace_after skip v RedactedPlaceholder s) v = false.
Proof.
  induction s as [|a s IH]; intros skip Hv.
  - cbn [replace_after]. unfold redactable in Hv.
    destruct v; [done|]. reflexivity.
  - cbn [replace_after]. destruct skip as [|skip]; [|by apply IH].
    destruct (HasPrefix (String a s) v) eqn:Hw.
    + apply not_true_is_false. intros Hc%Contains_placeholder; [|done]. by rewrite IH in Hc.
    + rewrite Contains_cons, IH by done. rewrite orb_false_r.
      apply not_true_is_false. intros Hp.
      rewrite (HasPrefix_replace v v (String a s)) in Hw; [done| |].
      * unfold redactable in Hv. by apply andb_true_iff in Hv as [[_ ?]%andb_true_iff _].
      * cbn [replace_after]. by rewrite Hw.
Qed.

Lemma elem_of_distinct_values v seen values :
  v ∈ distinct_values seen values <-> v ∈ values /\ v <> "" /\ v ∉ seen.
Proof.
  revert seen. induction values as [|w values IH]; intros seen; simpl; [set_solver|].
  case_decide as Hw; rewrite ?elem_of_cons, IH; destruct (decide (v = w)); set_solver.
Qed.

Section redaction.
Context `{!OrderBy}.

Lemma redact_fold_keeps v values : forall text,
  redactable v = true -> Contains text v = false ->
  Contains (foldl (fun text secret => ReplaceAll text secret RedactedPlaceholder) text values) v
  = false.
Proof.
  induction values as [|w values IH]; intros text Hv Hc; [done|]. simpl. apply IH; [done|].
  apply not_true_is_false. intros Hr%Contains_replace; [|done]. congruence.
Qed.

Lemma redact_fold_hides v values : forall text,
  redactable v = true -> v ∈ values ->
  Contains (foldl (fun text secret => ReplaceAll text secret RedactedPlaceholder) text values) v
  = false.
Proof.
  induction values as [|w values IH]; intros text Hv; [by intros ?%elem_of_nil|].
  intros [->|Hin]%elem_of_cons; simpl; [|by apply IH].
  apply redact_fold_keeps; [done|]. by apply Contains_replaced.
Qed.

Lemma redactable_not_empty v : redactable v = true -> v <> "".
Proof. by intros Hv ->. Qed.

Lemma Contains_empty v : v <> "" -> Contains "" v = false.
Proof. by destruct v. Qed.

Lemma replace_none v new s :
  Contains s v = false -> replace_after 0 v new s = s.
Proof.
  induction s as [|a s IH]; [done|]. rewrite Contains_cons, orb_false_iff.
  intros [Hp Hc]. cbn [replace_after]. by rewrite Hp, IH.
Qed.

Lemma redact_fold_none values text :
  (forall v, v ∈ values -> Contains text v = false) ->
  foldl (fun text secret => ReplaceAll text secret RedactedPlaceholder) text values = text.
Proof.
  induction values as [|w values IH]; intros Hnone; [done|]. simpl.
  unfold ReplaceAll at 2. rewrite replace_none by (apply Hnone; set_solver).
  apply IH. set_solver.
Qed.

Lemma RedactSecrets_hidden text values v :
  v ∈ values -> redactable v = true -> Contains (RedactSecrets text values) v = false.
Proof.
  intros Hin Hv. unfold RedactSecrets. case_decide as Hnil.
  - destruct Hnil as [-> | ->]; [by apply elem_of_nil in Hin|].
    by apply Contains_empty, redactable_not_empty.
  - apply redact_fold_hides; [done|].
    rewrite elem_of_order_by, elem_of_distinct_values.
    split_and!; [done|by apply redactable_not_empty|set_solver].
Qed.

(** The redacted text contains none of the secrets, whatever their order,
    number and overlaps, provided that a secret has no star and is not a part
    of the word REDACTED (then it cannot be read off the placeholder); and a
    text in which no secret occurs is not changed. *)
Theorem RedactSecrets_hides text values :
  (forall v, v ∈ values -> redactable v = true -> Contains (RedactSecrets text values) v = false) /\
  ((forall v, v ∈ values -> v <> "" -> Contains text v = false) ->
   RedactSecrets text values = text).
Proof.
  split; [intros v; apply RedactSecrets_hidden|]. intros Hnone.
  unfold RedactSecrets. case_decide; [done|]. apply redact_fold_none. intros v.
  rewrite elem_of_order_by, elem_of_distinct_values. intros (Hin & Hne & _). by apply Hnone.
Qed.
End redaction.

(** The longest value goes first: the shorter one inside it does not break it up. *)
Example RedactSecrets_longest :
  @RedactSecrets stable_order "token=s3cret-extended" ["s3cret"; ""; "s3cret-extended"]
  = "token=***REDACTED***".
Proof. reflexivity. Qed.
