(* ===== verification/Shares.v ===== *)
(** * Share links (server/share_secrets.go, api_share_controller.go, web_share_controller.go)

    The signing secret of share links is kept among the global secrets, or,
    without a store of secrets, in the process. The proofs are against the
    interface [SecretBackend], so they hold for SQLite and for S3.
    [share_link_opens]: a link opens its run until it expires, across restarts. *)
From S2P Require Import Prelude Storage Json Db GoStrings Runs Sha Secrets Server Tokens Encryption.
From S2P Require Import Pipelines Redaction SecretStore.
Open Scope string_scope.

Definition shareSigningKeyName : string := "share_link_signing_key".

(** A process: the manager it may have, the secret it falls back on, and its
    random source. *)
Record process (S : Type) := mkProcess {
  pr_mgr : S;
  pr_fallback : string;
  pr_rand : nat }.
Arguments mkProcess {S}.
Arguments pr_mgr {S}.
Arguments pr_fallback {S}.
Arguments pr_rand {S}.

Section shares.
Context `{!Crypto} {S : Type} `{!SecretsManager S}.

Definition on_mgr {A} (m : ST S A) : ST (process S) A := fun p =>
  match m (pr_mgr p) with (r, s) => (r, mkProcess s (pr_fallback p) (pr_rand p)) end.
Definition rand_32 : ST (process S) string := fun p =>
  match random 32 (pr_rand p) with (r, n) => (r, mkProcess (pr_mgr p) (pr_fallback p) n) end.
Definition set_fallback (s : string) (p : process S) : process S :=
  mkProcess (pr_mgr p) s (pr_rand p).

(** [configured]: a store of secrets is configured. *)
Definition resolveShareSigningSecret (configured : bool) : ST (process S) string :=
  if negb configured then
    let! fallback := gets pr_fallback in
    (if decide (fallback = "") then
       let! b := wrap "could not generate share signing secret" rand_32 in
       modify (set_fallback (hex (bytes b)))
     else ret tt) ;;;
    gets pr_fallback
  else
    let! existing := attempt (on_mgr (mgr_Get GlobalScope shareSigningKeyName)) in
    match existing with
    | Ok key => ret key
    | Err e =>
        if negb (errors_Is e SSecretNotFound) then
          fail (EWrap "could not read share signing key" e)
        else
          let! b := wrap "could not generate share signing key" rand_32 in
          let key := hex (bytes b) in
          wrap "could not persist share signing key"
            (on_mgr (mgr_Set GlobalScope shareSigningKeyName key)) ;;;
          ret key
    end.

(** The secret both controllers sign and check with. *)
Definition newShareControllers (configured : bool) : ST (process S) string :=
  let! secret := attempt (resolveShareSigningSecret configured) in
  ret (match secret with Ok secret => secret | Err _ => "" end).

(** The values of the secrets of one scope; errors are skipped. *)
Fixpoint collect_keys (scope : string) (keys : list string) (values : list string)
    : ST S (list string) :=
  match keys with
  | [] => ret values
  | key :: keys =>
      if IsSystemKey key then collect_keys scope keys values
      else
        let! val := attempt (mgr_Get scope key) in
        match val with
        | Ok val => collect_keys scope keys (values ++ [val])%list
        | Err _ => collect_keys scope keys values
        end
  end.
Fixpoint collect_scopes (scopes : list string) (values : list string) : ST S (list string) :=
  match scopes with
  | [] => ret values
  | scope :: scopes =>
      let! keys := attempt (mgr_ListByScope scope) in
      match keys with
      | Ok keys =>
          let! values := collect_keys scope keys values in
          collect_scopes scopes values
      | Err _ => collect_scopes scopes values
      end
  end.
Definition collectSecretValues (configured : bool) (pipelineID : string) : ST S (list string) :=
  if negb configured then ret []
  else collect_scopes [GlobalScope; PipelineScope pipelineID] [].
End shares.

(** ** The controllers *)
Inductive share_answer : Type :=
  | SharePath (path : string)
  | ShareHTTPError (code : Z) (msg : string).

Definition CreateShare (signingSecret : string) (now : time) (runID : string)
    : ST db share_answer :=
  let! run := attempt (GetRun runID) in
  match run with
  | Err _ => ret (ShareHTTPError 404 "run not found")
  | Ok _ =>
      match GenerateShareToken now runID signingSecret with
      | Err e => fail (EWrap "could not generate share token" e)
      | Ok token => ret (SharePath ("/share/" ++ token ++ "/tasks"))
      end
  end.

(** The run whose page a link shows. *)
Definition validateToken (signingSecret : string) (now : time) (token : string)
    : string + share_answer :=
  match ValidateShareToken now token signingSecret with
  | Err _ => inr (ShareHTTPError 404 "not found")
  | Ok runID => inl runID
  end.

(** ** What the managers answer, method by method *)
Section methods.
Context {S : Type} `{!SecretsManager S, !SecretBackend S}.

(** A failure that is not a missing secret; only where something can fail. *)
Definition broken {A} (s : S) (r : result A) : Prop :=
  ~ healthy s /\ exists e, r = Err e /\ errors_Is e SSecretNotFound = false.

(** A read: the value, or that there is none, or a failure. A failure is not
    taken for a missing secret when the secret is the server's own. *)
Lemma Get_any scope key s m :
  scope_ok scope -> holds s m ->
  let '(r, s') := mgr_Get scope key s in
  holds s' m /\
  (r = match m !! (scope, key) with Some v => Ok v | None => Err (ESentinel SSecretNotFound) end \/
   ~ healthy s /\ exists e, r = Err e /\ (key ∈ server_keys -> errors_Is e SSecretNotFound = false)).
Proof.
  intros Hs Hm. pose proof (op_law (OpGet scope key) s m Hs Hm) as Hlaw.
  unfold op_outcome, misled in Hlaw. cbn [run_op] in Hlaw. unfold bind, ret in Hlaw.
  destruct (mgr_Get scope key s) as [[v|e] s']; cbn in Hlaw;
    destruct Hlaw as [[[Ha Hh]|(Hno & (e' & He & Hne) & m' & -> & Hh)]|(Hno & (sc & k & [= <- <-] & Hk) & He & Hh)];
    (split; [exact Hh|]); try done.
  - left. by destruct (m !! (scope, key)); simplify_eq.
  - left. by destruct (m !! (scope, key)); simplify_eq.
  - right. split; [done|]. exists e'. by simplify_eq.
  - right. split; [done|]. by exists e.
Qed.
Lemma Get_spec scope key s m :
  scope_ok scope -> key ∈ server_keys -> holds s m ->
  let '(r, s') := mgr_Get scope key s in
  holds s' m /\
  (r = match m !! (scope, key) with Some v => Ok v | None => Err (ESentinel SSecretNotFound) end \/
   broken s r).
Proof.
  intros Hs Hk Hm. pose proof (Get_any scope key s m Hs Hm) as Hg.
  destruct (mgr_Get scope key s) as [r s']. destruct Hg as [Hh [Hr|(Hno & e & Hr & He)]]; (split; [done|]);
    [by left|right]. split; [done|]. exists e. auto.
Qed.

Lemma Set_spec scope key value s m :
  scope_ok scope -> holds s m ->
  let '(r, s') := mgr_Set scope key value s in
  r = Ok tt /\ holds s' (<[(scope, key) := value]> m) \/ broken s r /\ holds s' m.
Proof.
  intros Hs Hm. pose proof (op_law (OpSet scope key value) s m Hs Hm) as Hlaw.
  unfold op_outcome, misled in Hlaw. cbn [run_op] in Hlaw. unfold bind, ret in Hlaw.
  destruct (mgr_Set scope key value s) as [[[]|e] s']; cbn in Hlaw;
    destruct Hlaw as [[[Ha Hh]|(Hno & (e' & He & Hne) & m' & -> & Hh)]|(Hno & (sc & k & Hslot & Hk) & He & Hh)]; try done; [by left|].
  right. split; [|done]. split; [done|]. exists e'. by simplify_eq.
Qed.

Lemma Delete_spec scope key s m :
  scope_ok scope -> key ∈ server_keys -> holds s m ->
  let '(r, s') := mgr_Delete scope key s in
  (r = Ok tt \/ r = Err (ESentinel SSecretNotFound)) /\ holds s' (delete (scope, key) m) \/
  broken s r /\ holds s' m.
Proof.
  intros Hs Hkey Hm. pose proof (op_law (OpDelete scope key) s m Hs Hm) as Hlaw.
  unfold op_outcome, misled in Hlaw. cbn [run_op] in Hlaw. unfold bind, ret in Hlaw.
  destruct (mgr_Delete scope key s) as [[[]|e] s']; cbn in Hlaw;
    destruct Hlaw as [[[Ha Hh]|(Hno & (e' & He & Hne) & m' & -> & Hh)]|(Hno & (sc & k & Hslot & Hk) & He & Hh)]; try done; try (by injection Hslot as <- <-); [by left; split; [left|]| |].
  - left. split; [|done]. right. by destruct (decide _); simplify_eq.
  - right. split; [|done]. split; [done|]. exists e'. by simplify_eq.
Qed.

(** A failed deletion of a scope may leave some of its secrets. *)
Lemma DeleteScope_spec scope s m :
  scope_ok scope -> holds s m ->
  let '(r, s') := mgr_DeleteByScope scope s in
  r = Ok tt /\ holds s' (filter (fun kv => kv.1.1 <> scope) m) \/
  broken s r /\ exists m', m' ⊆ m /\ (forall k, k.1 <> scope -> m' !! k = m !! k) /\ holds s' m'.
Proof.
  intros Hs Hm. pose proof (op_law (OpDeleteScope scope) s m Hs Hm) as Hlaw.
  unfold op_outcome, misled in Hlaw. cbn [run_op] in Hlaw. unfold bind, ret in Hlaw.
  destruct (mgr_DeleteByScope scope s) as [[[]|e] s']; cbn in Hlaw;
    destruct Hlaw as [[[Ha Hh]|(Hno & (e' & He & Hne) & m' & [Hsub Hout] & Hh)]|(Hno & (sc & k & Hslot & Hk) & He & Hh)]; try done; [by left|].
  right. split; [|by exists m']. split; [done|]. exists e'. by simplify_eq.
Qed.

Lemma List_spec scope s m :
  scope_ok scope -> holds s m ->
  let '(r, s') := mgr_ListByScope scope s in
  holds s' m /\ ((exists l, r = Ok l /\ Permutation l (scope_keys scope m)) \/ broken s r).
Proof.
  intros Hs Hm. pose proof (op_law (OpList scope) s m Hs Hm) as Hlaw.
  unfold op_outcome, misled in Hlaw. cbn [run_op] in Hlaw. unfold bind, ret in Hlaw.
  destruct (mgr_ListByScope scope s) as [[l|e] s']; cbn in Hlaw;
    destruct Hlaw as [[[Ha Hh]|(Hno & (e' & He & Hne) & m' & -> & Hh)]|(Hno & (sc & k & Hslot & Hk) & He & Hh)]; (split; [exact Hh|]); try done.
  - left. by exists l.
  - right. split; [done|]. exists e'. by simplify_eq.
Qed.

Lemma Get_healthy scope key s : healthy s -> healthy (mgr_Get scope key s).2.
Proof.
  intros Hs. pose proof (op_healthy (OpGet scope key) s Hs) as Ho. cbn [run_op] in Ho.
  unfold bind, ret in Ho. by destruct (mgr_Get scope key s) as [[] s'].
Qed.
Lemma List_healthy scope s : healthy s -> healthy (mgr_ListByScope scope s).2.
Proof.
  intros Hs. pose proof (op_healthy (OpList scope) s Hs) as Ho. cbn [run_op] in Ho.
  unfold bind, ret in Ho. by destruct (mgr_ListByScope scope s) as [[] s'].
Qed.
End methods.

(** ** The signing secret *)
Section signing.
Context `{!Crypto} {S : Type} `{!SecretsManager S, !SecretBackend S}.
Hypothesis global_ok : scope_ok (S := S) GlobalScope.

Definition signing_slot : string * string := (GlobalScope, shareSigningKeyName).

(** What a process that signs with [secret] has stored. *)
Definition keeps_signing (configured : bool) (secret : string) (p : process S) : Prop :=
  if configured then exists m, holds (pr_mgr p) m /\ m !! signing_slot = Some secret
  else secret <> "" /\ pr_fallback p = secret.

(** The store never takes a failure for the absence of the signing secret. *)
Lemma signing_key_known : shareSigningKeyName ∈ server_keys.
Proof. left. Qed.

Lemma hex_32 n b : rand_Read n 32 = Some b -> hex (bytes b) <> "".
Proof.
  intros Hr%rand_Read_length He. apply (f_equal String.length) in He. rewrite length_hex in He.
  destruct b; [done|]. cbn in He. lia.
Qed.

Lemma resolve_spec configured p m :
  holds (pr_mgr p) m ->
  let '(r, p') := resolveShareSigningSecret configured p in
  (exists m', holds (pr_mgr p') m' /\ forall slot, slot <> signing_slot -> m' !! slot = m !! slot) /\
  (forall secret, r = Ok secret -> keeps_signing configured secret p').
Proof.
  intros Hm. unfold resolveShareSigningSecret. destruct configured; cbn [negb].
  - unfold bind at 1, attempt, on_mgr at 1.
    pose proof (Get_spec GlobalScope shareSigningKeyName (pr_mgr p) m global_ok signing_key_known Hm) as Hg.
    destruct (mgr_Get GlobalScope _ _) as [[key|e] s1]; destruct Hg as [Hm1 Hr].
    + split; [by exists m|]. intros secret [= <-]. exists m. split; [done|].
      destruct Hr as [Hr|(_ & e & He & _)]; [|done].
      unfold signing_slot. by destruct (m !! _); simplify_eq.
    + destruct (negb (errors_Is e SSecretNotFound)); [by split; [exists m|]|].
      unfold bind at 1, wrap at 1, rand_32, random. cbn [pr_rand].
      destruct (rand_Read _ 32) as [b|]; [|by split; [exists m|]].
      cbv zeta. unfold bind, wrap, on_mgr, ret. cbn [pr_mgr].
      pose proof (Set_spec GlobalScope shareSigningKeyName (hex (bytes b)) s1 m global_ok Hm1) as Hs.
      destruct (mgr_Set GlobalScope _ _ _) as [r s2].
      destruct Hs as [[-> Hs]|[(_ & e' & -> & _) Hs]]; [|by split; [exists m|]].
      split.
      * eexists. split; [exact Hs|]. intros slot Hne. by apply lookup_insert_ne.
      * intros secret [= <-]. eexists. split; [exact Hs|]. apply lookup_insert_eq.
  - unfold bind, gets, wrap, rand_32, random, modify, ret. cbn.
    destruct (decide (pr_fallback p = "")) as [He|Hne].
    + destruct (rand_Read _ 32) as [b|] eqn:Hr; cbn; (split; [by exists m|]); [|done].
      intros secret [= <-]. split; [by eapply hex_32|done].
    + split; [by exists m|]. intros secret [= <-]. done.
Qed.

(** A secret that is kept is the one resolved, or resolving fails. *)
Lemma resolve_kept configured p secret :
  keeps_signing configured secret p ->
  let r := (resolveShareSigningSecret configured p).1 in
  r = Ok secret \/ exists e, r = Err e.
Proof.
  intros Hk. unfold resolveShareSigningSecret. destruct configured; cbn [negb keeps_signing] in *.
  - destruct Hk as (m & Hm & Hslot).
    pose proof (Get_spec GlobalScope shareSigningKeyName (pr_mgr p) m global_ok signing_key_known Hm) as Hg.
    destruct (mgr_Get GlobalScope _ _) as [r s1] eqn:He.
    rewrite (bind_ok _ _ p r (mkProcess s1 (pr_fallback p) (pr_rand p)))
      by (unfold attempt, on_mgr; by rewrite He).
    destruct Hg as [_ [->|(_ & e & -> & Hne)]].
    + left. unfold signing_slot in Hslot. by rewrite Hslot.
    + right. rewrite Hne. by eexists.
  - destruct Hk as [Hne Hf]. left. unfold bind, gets. rewrite Hf.
    by rewrite decide_False; cbn; [rewrite Hf|].
Qed.

(** C20: a share link opens its run, across restarts. Once the controllers have
    resolved a signing secret, the store of secrets (or, without one, the
    process) keeps it and nothing else of the store changed; a link created
    with it, checked by any process that finds the secret kept, opens exactly
    the run it was created for, until the second it expires, and is not found
    afterwards, unless that process could not read its store at start. *)
Theorem share_link_opens configured (p p1 : process S) m secret runID now d d' token :
  holds (pr_mgr p) m ->
  newShareControllers configured p = (Ok secret, p1) -> secret <> "" ->
  runID <> "" -> expiry_range (Unix (now + defaultShareTokenTTL)) ->
  CreateShare secret now runID d = (Ok (SharePath ("/share/" ++ token ++ "/tasks")), d') ->
  (exists m1, holds (pr_mgr p1) m1 /\ forall slot, slot <> signing_slot -> m1 !! slot = m !! slot) /\
  keeps_signing configured secret p1 /\
  forall p2 secret2 p3 later, keeps_signing configured secret p2 ->
    newShareControllers configured p2 = (Ok secret2, p3) -> secret2 <> "" ->
    validateToken secret2 later token =
      if (Unix later <=? Unix (now + defaultShareTokenTTL))%Z then inl runID
      else inr (ShareHTTPError 404 "not found").
Proof.
  intros Hm Hnew Hne Hrun Hrange Hcreate.
  pose proof (resolve_spec configured p m Hm) as Hspec.
  unfold newShareControllers, bind, attempt, ret in Hnew.
  destruct (resolveShareSigningSecret configured p) as [[key|e] q]; [|by simplify_eq/=].
  injection Hnew as <- <-. destruct Hspec as [Hframe Hkeep].
  split; [done|]. split; [by apply Hkeep|].
  intros p2 secret2 p3 later Hk2 Hnew2 Hne2.
  pose proof (resolve_kept configured p2 key Hk2) as Hres.
  unfold newShareControllers, bind, attempt, ret in Hnew2.
  destruct (resolveShareSigningSecret configured p2) as [r2 q2]. cbn in Hres.
  assert (secret2 = key) as -> by (destruct Hres as [->|[e ->]]; by simplify_eq/=).
  destruct (ShareToken_roundtrip now runID key defaultShareTokenTTL Hrun Hrange)
    as (tok & Hgen & Hval).
  assert (tok = token) as ->.
  { revert Hcreate. unfold CreateShare, bind, attempt. destruct (GetRun runID d) as [[run|err] d1];
      [|done]. unfold GenerateShareToken. rewrite Hgen. unfold ret. intros [= He _].
    by apply append_inj_r, append_inj_l in He. }
  unfold validateToken. rewrite Hval. by destruct (_ <=? _)%Z.
Qed.
End signing.

(** ** The values to hide *)
Section collecting.
Context {S : Type} `{!SecretsManager S, !SecretBackend S}.

Definition secret_of (m : secret_map) (scope v : string) : Prop :=
  exists key, IsSystemKey key = false /\ m !! (scope, key) = Some v.

Lemma collect_keys_spec scope m : scope_ok scope -> forall keys values s,
  holds s m -> (forall key, key ∈ keys -> is_Some (m !! (scope, key))) ->
  let '(r, s') := collect_keys scope keys values s in
  holds s' m /\ exists out, r = Ok out /\
  (forall v, v ∈ out -> v ∈ values \/ secret_of m scope v) /\
  (healthy s -> healthy s' /\ forall v, v ∈ values \/
    (exists key, key ∈ keys /\ IsSystemKey key = false /\ m !! (scope, key) = Some v) -> v ∈ out).
Proof.
  intros Hs. induction keys as [|key keys IH]; intros values s Hm Hkeys; cbn [collect_keys].
  { split; [done|]. exists values. split; [done|]. split; [by left|]. intros Hh.
    split; [done|]. intros v [Hv|(key & Hin & _)]; [done|]. by apply not_elem_of_nil in Hin. }
  assert (Htail : forall key, key ∈ keys -> is_Some (m !! (scope, key)))
    by (intros; apply Hkeys; by right).
  destruct (IsSystemKey key) eqn:Hsys.
  - specialize (IH values s Hm Htail). destruct (collect_keys scope keys values s) as [r s'].
    destruct IH as (Hm' & out & -> & Hsub & Hall). split; [done|]. exists out. split; [done|].
    split; [done|]. intros Hh. destruct (Hall Hh) as [Hh' Hall']. split; [done|].
    intros v [Hv|(key' & [-> |Hin]%elem_of_cons & Hk & Hv)]; apply Hall'; [by left|congruence|].
    right. by exists key'.
  - pose proof (Get_any scope key s m Hs Hm) as Hg. pose proof (Get_healthy scope key s) as Hh.
    unfold bind, attempt. destruct (mgr_Get scope key s) as [r1 s1].
    destruct Hg as [Hm1 Hr1]. destruct (Hkeys key ltac:(by left)) as [x Hx]. rewrite Hx in Hr1.
    destruct Hr1 as [->|[Hno (e & -> & _)]].
    + specialize (IH (values ++ [x])%list s1 Hm1 Htail).
      destruct (collect_keys scope keys _ s1) as [r s']. destruct IH as (Hm' & out & -> & Hsub & Hall).
      split; [done|]. exists out. split; [done|]. split.
      * intros v [[Hv|Hv%list_elem_of_singleton]%elem_of_app|Hv]%Hsub; [by left| |by right]. subst v.
        right. by exists key.
      * intros Hhs. destruct (Hall (Hh Hhs)) as [Hh' Hall']. split; [done|].
        intros v [Hv|(key' & [-> |Hin]%elem_of_cons & Hk & Hv)]; apply Hall'.
        -- left. apply elem_of_app. by left.
        -- left. apply elem_of_app. right. apply list_elem_of_singleton. congruence.
        -- right. by exists key'.
    + specialize (IH values s1 Hm1 Htail). destruct (collect_keys scope keys values s1) as [r s'].
      destruct IH as (Hm' & out & -> & Hsub & _). split; [done|]. by exists out.
Qed.

Lemma collect_scopes_spec m : forall scopes values s,
  holds s m -> Forall scope_ok scopes ->
  let '(r, s') := collect_scopes scopes values s in
  holds s' m /\ exists out, r = Ok out /\
  (forall v, v ∈ out -> v ∈ values \/ exists scope, scope ∈ scopes /\ secret_of m scope v) /\
  (healthy s -> forall v, v ∈ values \/ (exists scope, scope ∈ scopes /\ secret_of m scope v) ->
     v ∈ out).
Proof.
  induction scopes as [|scope scopes IH]; intros values s Hm Hok; cbn [collect_scopes].
  { split; [done|]. exists values. split; [done|]. split; [by left|].
    intros _ v [Hv|(scope & Hin & _)]; [done|]. by apply not_elem_of_nil in Hin. }
  apply Forall_cons in Hok as [Hs Hok]. unfold bind at 1, attempt.
  pose proof (List_spec scope s m Hs Hm) as Hl. pose proof (List_healthy scope s) as Hh.
  destruct (mgr_ListByScope scope s) as [r1 s1].
  destruct Hl as [Hm1 [(keys & -> & Hkeys)|[Hno (e & -> & _)]]].
  - pose proof (collect_keys_spec scope m Hs keys values s1 Hm1) as Hc. unfold bind.
    destruct (collect_keys scope keys values s1) as [r2 s2].
    destruct Hc as (Hm2 & out & -> & Hsub & Hall).
    { intros key Hin. by rewrite Hkeys, elem_of_scope_keys in Hin. }
    specialize (IH out s2 Hm2 Hok). destruct (collect_scopes scopes out s2) as [r3 s3].
    destruct IH as (Hm3 & out' & -> & Hsub' & Hall'). split; [done|]. exists out'. split; [done|].
    split.
    + intros v [[Hv|Hv]%Hsub|(scope' & Hin & Hv)]%Hsub'; [by left| |].
      * right. exists scope. split; [by left|done].
      * right. exists scope'. split; [by right|done].
    + intros Hhs v Hv. destruct (Hall (Hh Hhs)) as [Hh2 Hall2]. apply (Hall' Hh2).
      destruct Hv as [Hv|(scope' & [-> |Hin]%elem_of_cons & Hv)]; [left; apply Hall2; by left| |].
      * left. apply Hall2. right. destruct Hv as (key & Hk & Hv). exists key.
        by rewrite Hkeys, elem_of_scope_keys.
      * right. by exists scope'.
  - specialize (IH values s1 Hm1 Hok). destruct (collect_scopes scopes values s1) as [r3 s3].
    destruct IH as (Hm3 & out' & -> & Hsub' & _). split; [done|]. exists out'. split; [done|].
    split; [|done]. intros v [Hv|(scope' & Hin & Hv)]%Hsub'; [by left|].
    right. exists scope'. split; [by right|done].
Qed.

(** What a shared page hides. The values collected for a page are always
    secrets of the pipeline or global ones, and leave the store as it was;
    when nothing fails they are all of them but the system's, so that the
    redacted page contains none that redaction can hide. *)
Theorem shared_page_hides `{!OrderBy} pipelineID (s : S) m text :
  scope_ok (S := S) GlobalScope -> scope_ok (S := S) (PipelineScope pipelineID) -> holds s m ->
  let '(r, s') := collectSecretValues true pipelineID s in
  holds s' m /\ exists values, r = Ok values /\
  (forall v, v ∈ values ->
     secret_of m GlobalScope v \/ secret_of m (PipelineScope pipelineID) v) /\
  (healthy s -> forall v,
     secret_of m GlobalScope v \/ secret_of m (PipelineScope pipelineID) v ->
     v ∈ values /\ (redactable v = true -> Contains (RedactSecrets text values) v = false)).
Proof.
  intros Hg Hp Hm. unfold collectSecretValues. cbn [negb].
  pose proof (collect_scopes_spec m [GlobalScope; PipelineScope pipelineID] [] s Hm) as Hc.
  destruct (collect_scopes _ _ s) as [r s']. destruct Hc as (Hm' & values & -> & Hsub & Hall);
    [by repeat constructor|].
  split; [done|]. exists values. split; [done|]. split.
  - intros v [Hv|(scope & Hin & Hv)]%Hsub; [by apply not_elem_of_nil in Hv|].
    apply elem_of_cons in Hin as [-> |Hin%list_elem_of_singleton]; [by left|]. subst scope. by right.
  - intros Hh v Hv. assert (Hin : v ∈ values).
    { apply (Hall Hh). right. destruct Hv as [Hv|Hv]; [exists GlobalScope|exists (PipelineScope pipelineID)];
        (split; [|done]); [by left|by right; left]. }
    split; [done|]. intros Hr. by apply RedactSecrets_hidden.
Qed.
End collecting.

(** ** Two consequences *)

(** The signing secret is not a system key: a pipeline that asks for it gets it,
    and with it makes links to every run. *)
Lemma signing_secret_readable {S} `{!SecretsManager S, !SecretBackend S} (s : S) m pipelineID secret :
  scope_ok (S := S) GlobalScope -> scope_ok (S := S) (PipelineScope pipelineID) ->
  healthy s -> holds s m -> m !! signing_slot = Some secret ->
  m !! (PipelineScope pipelineID, shareSigningKeyName) = None ->
  ResolveSecretString (Some (fun scope key => (mgr_Get scope key s).1)) pipelineID
    (SecretPrefix ++ shareSigningKeyName) = Ok (secret, true).
Proof.
  intros Hg Hp Hh Hm Hslot Hnone. unfold ResolveSecretString. cbn.
  pose proof (Get_any (PipelineScope pipelineID) shareSigningKeyName s m Hp Hm) as H1.
  pose proof (Get_any GlobalScope shareSigningKeyName s m Hg Hm) as H2.
  unfold shareSigningKeyName in *. cbn in *.
  destruct (mgr_Get (PipelineScope pipelineID) _ s) as [r1 s1], (mgr_Get GlobalScope _ s) as [r2 s2].
  cbn in *. rewrite Hnone in H1. destruct H1 as [_ [->|[? _]]]; [|done]. cbn.
  unfold signing_slot, shareSigningKeyName in Hslot. rewrite Hslot in H2.
  by destruct H2 as [_ [->|[? _]]].
Qed.

(** When the signing secret cannot be resolved the server signs with the empty
    key, under which anybody can make a link. *)
Lemma failed_start_forgeable `{!Crypto} {S} `{!SecretsManager S} configured (p p' : process S) e
    now runID :
  resolveShareSigningSecret configured p = (Err e, p') ->
  runID <> "" -> expiry_range (Unix (now + defaultShareTokenTTL)) ->
  exists token, GenerateShareToken now runID "" = Ok token /\
    exists signingSecret, newShareControllers configured p = (Ok signingSecret, p') /\
    validateToken signingSecret now token = inl runID.
Proof.
  intros Hr Hrun Hrange. destruct (ShareToken_roundtrip now runID "" _ Hrun Hrange) as (token & Hg & Hv).
  exists token. split; [done|]. exists "". unfold newShareControllers, bind, attempt. rewrite Hr.
  split; [done|]. unfold validateToken. rewrite Hv.
  assert (Unix now <= Unix (now + defaultShareTokenTTL))%Z by (apply Unix_mono; unfold defaultShareTokenTTL, nanosPerSecond; lia).
  by rewrite (proj2 (Z.leb_le _ _)).
Qed.

(** ** Witnesses *)
Section witnesses.
#[local] Existing Instance plain_crypto.
#[local] Existing Instance plain_text.
#[local] Existing Instance stable_order.

Definition ex_process : process (backend sdb) := mkProcess ex_sdb "" 0.
Definition ex_secret : string := hex (bytes (zeros 32)).
Definition ex_token : string :=
  match GenerateShareToken 0 "r1" ex_secret with Ok token => token | Err _ => "" end.
Definition ex_started : process (backend sdb) :=
  (newShareControllers (SecretsManager0 := sqlite_manager ex_key) true ex_process).2.

Lemma ex_new :
  newShareControllers (SecretsManager0 := sqlite_manager ex_key) true ex_process =
    (Ok ex_secret, ex_started).
Proof. vm_compute. reflexivity. Qed.

Lemma ex_create :
  CreateShare ex_secret 0 "r1" Pipelines.ex_cascade_db =
    (Ok (SharePath ("/share/" ++ ex_token ++ "/tasks")), Pipelines.ex_cascade_db).
Proof. vm_compute. reflexivity. Qed.

Lemma share_link_opens_witness :
  keeps_signing (SecretsManager0 := sqlite_manager ex_key)
    (SecretBackend0 := sqlite_backend ex_key) true ex_secret ex_started /\
  validateToken ex_secret 5 ex_token = inl "r1".
Proof.
  destruct (share_link_opens (SecretsManager0 := sqlite_manager ex_key)
    (SecretBackend0 := sqlite_backend ex_key) Logic.I true ex_process ex_started ∅ ex_secret "r1" 0
    Pipelines.ex_cascade_db Pipelines.ex_cascade_db ex_token
    (sqlite_holds_new ex_key ex_sdb eq_refl) ex_new) as (_ & Hk & Hv).
  - vm_compute. discriminate.
  - discriminate.
  - split; vm_compute; [discriminate|reflexivity].
  - exact ex_create.
  - split; [exact Hk|].
    destruct (newShareControllers (SecretsManager0 := sqlite_manager ex_key) true ex_started)
      as [r p3] eqn:Hp3.
    assert (Hr : r = Ok ex_secret).
    { change r with (r, p3).1. rewrite <- Hp3. vm_compute. reflexivity. }
    subst r. rewrite (Hv ex_started ex_secret p3 5%Z Hk Hp3); [reflexivity|].
    vm_compute. discriminate.
Defined.

Definition ex_secrets : backend sdb :=
  (run_ops (SecretsManager0 := sqlite_manager ex_key)
     [OpSet GlobalScope "token" "s3cret"; OpSet GlobalScope "driver" "docker"] ex_sdb).2.

Lemma shared_page_hides_witness :
  exists values, (collectSecretValues (SecretsManager0 := sqlite_manager ex_key) true "p1"
    ex_secrets).1 = Ok values /\ "s3cret" ∈ values /\
    Contains (RedactSecrets "the s3cret" values) "s3cret" = false.
Proof.
  set (m := (spec_ops [OpSet GlobalScope "token" "s3cret"; OpSet GlobalScope "driver" "docker"] ∅).2).
  assert (Hm : sqlite_holds ex_key ex_secrets m /\ backend_healthy ex_secrets).
  { split.
    - apply (run_ops_refine (SecretsManager0 := sqlite_manager ex_key)
        (SecretBackend0 := sqlite_backend ex_key)).
      + by apply Forall_true.
      + split; [done|apply plain_random_fine].
      + by apply (sqlite_holds_new ex_key ex_sdb).
    - apply (run_ops_healthy (SecretsManager0 := sqlite_manager ex_key)
        (SecretBackend0 := sqlite_backend ex_key)). split; [done|apply plain_random_fine]. }
  destruct Hm as [Hm Hh].
  pose proof (shared_page_hides (SecretsManager0 := sqlite_manager ex_key)
    (SecretBackend0 := sqlite_backend ex_key) "p1" ex_secrets m "the s3cret" Logic.I Logic.I Hm) as Ht.
  destruct (collectSecretValues _ _ _) as [r s']. destruct Ht as (_ & values & -> & _ & Hall).
  exists values. split; [reflexivity|].
  destruct (Hall Hh "s3cret") as [Hin Hhid].
  - left. exists "token". split; reflexivity.
  - split; [exact Hin|]. apply Hhid. reflexivity.
Defined.
End witnesses.
