(* ===== verification/PipelinesApi.v ===== *)
(** * The pipelines API (server/api_pipelines_*.go, controller.go)

    The handlers that save, read, pause, trigger, seed and delete a pipeline,
    over the execution service and a store of secrets known by the interface
    [SecretBackend]. A helper that has written the answer itself returns it on
    the right of a sum. [denied_requests]: what a pipeline's access
    expression protects of it; [Upsert_saves], [Destroy_forgets]: what the handlers
    that write do. *)
From S2P Require Import Prelude Storage Json Db GoStrings Runs Paging Tasks Ids Pipelines Config.
From Stdlib Require Import Ascii.
From S2P Require Import Schedules Server Admission Execution Secrets Tokens Encryption SecretStore Shares.
Open Scope string_scope.

(** ** Drivers (orchestra/drivers.go, server/controller.go) *)
Definition IsDriverAllowed (driver : string) (allowedList : list string) : result unit :=
  if decide (driver = "") then Err (EMsg "driver name is required")
  else if decide ("*" ∈ allowedList) then Ok tt
  else if decide (driver ∈ allowedList) then Ok tt
  else Err (EMsg ("driver " ++ q driver ++ " is not allowed on this server. Allowed drivers: "
                  ++ Join allowedList ", ")).

Definition parseAllowedDrivers (input : string) : list string :=
  if decide (input = "" \/ input = "*") then ["*"]
  else
    let drivers := List.filter (fun s => negb (bool_decide (s = "")))
      (TrimSpace <$> Split input ","%char) in
    match drivers with [] => ["*"] | _ => drivers end.

(** [fmt.Sscanf(s, "%d", &n)]: [n] keeps its value when [s] does not begin
    with a number; the blanks it skips are those of a query parameter. *)
Definition Sscanf_int (s : string) (n : Z) : Z :=
  default n (scan_int (trim_left (fun a => Ascii.eqb a " "%char || Ascii.eqb a "009"%char) s)).

(** Absent parameters are empty. *)
Definition parsePagination (page perPage : string) : Z * Z :=
  (if decide (page = "") then 1%Z else Sscanf_int page 1,
   if decide (perPage = "") then 20%Z else Sscanf_int perPage 20).

(** ** Requests and answers *)
Module PipelineRequest.
Record t := mk {
    Content : string; ContentType : string; Driver : string; DriverConfig : string;
    WebhookSecret : option string; Secrets : gmap string string;
    ResumeEnabled : option bool; RBACExpression : option string;
    ConcurrencyMode : option string; ConcurrencyGroupTemplate : option string;
    ConcurrencyCancelRunning : option bool }.
Definition set_Driver (d : string) (r : t) : t :=
  mk (Content r) (ContentType r) d (DriverConfig r) (WebhookSecret r) (Secrets r)
     (ResumeEnabled r) (RBACExpression r) (ConcurrencyMode r) (ConcurrencyGroupTemplate r)
     (ConcurrencyCancelRunning r).
End PipelineRequest.

Module PipelineAPIResponse.
Record t := mk {
    ID : string; Name : string; Content : string; ContentType : string;
    CreatedAt : time; UpdatedAt : time; ResumeEnabled : bool; Paused : bool;
    RBACExpression : string; ConcurrencyMode : string; ConcurrencyGroupTemplate : string;
    ConcurrencyCancelRunning : bool }.
End PipelineAPIResponse.

Definition toPipelineAPIResponse (p : Pipeline.t) : PipelineAPIResponse.t :=
  PipelineAPIResponse.mk (Pipeline.ID p) (Pipeline.Name p) (Pipeline.Content p)
    (Pipeline.ContentType p) (Pipeline.CreatedAt p) (Pipeline.UpdatedAt p)
    (Pipeline.ResumeEnabled p) (Pipeline.Paused p) (Pipeline.RBACExpression p)
    (Pipeline.ConcurrencyMode p) (Pipeline.ConcurrencyGroupTemplate p)
    (Pipeline.ConcurrencyCancelRunning p).

Module webhookSimData.
Record t := mk { Body : string; Headers : gmap string string; Method : string }.
End webhookSimData.
Module triggerRequest.
Record t := mk {
    Mode : string; Args : list string; Jobs : list string; Webhook : option webhookSimData.t }.
End triggerRequest.

(** What a handler reads of the request besides its parameters and its body:
    the user of the OAuth middleware, the actor of the context, the htmx
    header and the request's id. *)
Module Caller.
Record t := mk {
    user : option User; actor : option RequestActor.t; htmx : bool; requestID : string }.
End Caller.

Inductive answer : Type :=
  | AError (code : Z) (error : string)
  | AText (code : Z) (msg : string)                              (* htmx *)
  | AQueueFull (in_flight max_in_flight max_queue_size : Z)      (* 429 *)
  | APipeline (p : PipelineAPIResponse.t)                        (* 200 *)
  | APage (page : PaginationResult.t PipelineAPIResponse.t)      (* 200 *)
  | ASchedules (l : list Schedule.t)                             (* 200 *)
  | ANoContent                                                   (* 204 *)
  | AToast (trigger : string) (refresh : bool)                   (* 200, htmx *)
  | APaused (id : string) (paused : bool) (message : string)     (* 200 *)
  | ASeeded (pipelineID job runID : string)                      (* 200 *)
  | AStarted (run : PipelineRun.t) (pipelineID : string).        (* 202 *)

Definition status_code (a : answer) : Z :=
  match a with
  | AError code _ | AText code _ => code
  | AQueueFull _ _ _ => 429
  | ANoContent => 204
  | AStarted _ _ => 202
  | _ => 200
  end.
Definition refuses (a : answer) : Prop := (400 <= status_code a)%Z.

Module PipelinesController.
Record t := mk {
    allowedDrivers : list string; allowedFeatures : list Feature; DefaultDriver : string;
    secretsMgr : bool }.                                 (* is one configured? *)
End PipelinesController.

(** The state the handlers share. *)
Record api (S : Type) := mkApi { ap_svc : svc; ap_mgr : S }.
Arguments mkApi {S}.
Arguments ap_svc {S}.
Arguments ap_mgr {S}.

#[export] Instance api_has_db {S} : HasDb (api S).
Proof.
  refine {| get_db s := sv_db (ap_svc s); put_db d s := mkApi (set_db d (ap_svc s)) (ap_mgr s) |};
    try done. by intros [[] ?].
Defined.

Definition internal : answer := AError 500 "internal server error".

(** What a handler that looks a pipeline up answers when it is not there. *)
Definition lookup_failed (missing : answer) (e : err) : answer :=
  if errors_Is e SNotFound then missing else internal.
Definition not_found : answer := AError 404 "pipeline not found".

Definition respondHTMXOrJSON (caller : Caller.t) (status : Z) (htmxMsg jsonMsg : string) : answer :=
  if Caller.htmx caller then AText status htmxMsg else AError status jsonMsg.

Definition formatActor (caller : Caller.t) : string :=
  let '(actor, ok) := RequestActorFromContext (Caller.actor caller) in
  if negb ok then "unknown"
  else if decide (RequestActor.Provider actor <> "")
  then RequestActor.Provider actor ++ ":" ++ RequestActor.User actor
  else RequestActor.User actor.

Definition toast (message : string) : string :=
  "{" ++ q "showToast" ++ ":{" ++ q "message" ++ ":" ++ q message ++ "," ++ q "type" ++ ":"
  ++ q "success" ++ "}}".

Section handlers.
Context `{!AccessLang, !TemplateEngine, !UniqueIDs, !OrderBy, !JsonText, !MapOrder, !Sha256, !Clockwork}.
Context {S : Type} `{!SecretsManager S}.
Context (c : PipelinesController.t).

Definition on_svc {A} (m : ST svc A) : ST (api S) A := fun s =>
  match m (ap_svc s) with (r, v) => (r, mkApi v (ap_mgr s)) end.
Definition on_secrets {A} (m : ST S A) : ST (api S) A := fun s =>
  match m (ap_mgr s) with (r, v) => (r, mkApi (ap_svc s) v) end.

(** ** Access *)

(** The test [Index] makes of each pipeline it lists. *)
Definition visible (caller : Caller.t) (p : Pipeline.t) : bool :=
  if decide (Pipeline.RBACExpression p = "") then true
  else
    match Caller.user caller with
    | None => false
    | Some user =>
        match EvaluateAccess (Pipeline.RBACExpression p) user with
        | Ok allowed => allowed | Err _ => false
        end
    end.

Definition checkPipelineRBAC (caller : Caller.t) (p : Pipeline.t) : option answer :=
  if decide (Pipeline.RBACExpression p = "") then None
  else
    match Caller.user caller with
    | None => Some (AError 403 "pipeline requires OAuth authentication for RBAC evaluation")
    | Some user =>
        match EvaluateAccess (Pipeline.RBACExpression p) user with
        | Ok true => None
        | _ => Some (AError 403 "access denied to this pipeline")
        end
    end.

(** ** Reading *)
Definition Index (fts : string -> pipelineScan.t -> bool) (caller : Caller.t)
    (page perPage : string) : ST (api S) answer :=
  let '(page, perPage) := parsePagination page perPage in
  let! found := attempt (on_db (SearchPipelines fts "" page perPage)) in
  match found with
  | Err _ => ret internal
  | Ok result =>
      let items := List.filter (visible caller) (PaginationResult.Items result) in
      ret (APage (PaginationResult.mk (toPipelineAPIResponse <$> items)
        (PaginationResult.Page result) (PaginationResult.PerPage result)
        (PaginationResult.TotalItems result) (PaginationResult.TotalPages result)
        (PaginationResult.HasNext result)))
  end.

Definition Show (caller : Caller.t) (id : string) : ST (api S) answer :=
  let! found := attempt (on_db (GetPipeline id)) in
  match found with
  | Err e => ret (lookup_failed not_found e)
  | Ok p =>
      match checkPipelineRBAC caller p with
      | Some denied => ret denied
      | None => ret (APipeline (toPipelineAPIResponse p))
      end
  end.

Definition ListSchedules (id : string) : ST (api S) answer :=
  let! found := attempt (on_db (GetPipeline id)) in
  match found with
  | Err e => ret (lookup_failed not_found e)
  | Ok _ =>
      let! schedules := attempt (on_db (GetSchedulesByPipeline id)) in
      ret (match schedules with Ok l => ASchedules l | Err _ => internal end)
  end.

(** ** Deleting *)
Definition Destroy (caller : Caller.t) (id : string) : ST (api S) answer :=
  let! found := attempt (on_db (GetPipeline id)) in
  match found with
  | Err e => ret (lookup_failed not_found e)
  | Ok p =>
      match checkPipelineRBAC caller p with
      | Some denied => ret denied
      | None =>
          let! deleted := attempt (on_db (DeletePipeline id)) in
          match deleted with
          | Err _ => ret internal
          | Ok _ =>
              (if PipelinesController.secretsMgr c
               then ignore (on_secrets (mgr_DeleteByScope (PipelineScope id))) else ret tt) ;;;
              ret ANoContent
          end
      end
  end.

(** ** Pausing *)
Definition setPaused (caller : Caller.t) (id : string) (paused : bool) : ST (api S) answer :=
  let! found := attempt (on_db (GetPipeline id)) in
  match found with
  | Err e => ret (lookup_failed (respondHTMXOrJSON caller 404 "Pipeline not found" "pipeline not found") e)
  | Ok p =>
      match checkPipelineRBAC caller p with
      | Some denied => ret denied
      | None =>
          let! updated := attempt (on_db (UpdatePipeline id
            (PipelineUpdate.mk None (Some paused) None None None None))) in
          match updated with
          | Err _ => ret internal
          | Ok _ =>
              let action := if paused then "paused" else "unpaused" in
              ret (if Caller.htmx caller
                   then AToast (toast (Pipeline.Name p ++ " " ++ action ++ " successfully")) true
                   else APaused (Pipeline.ID p) paused ("pipeline " ++ action))
          end
      end
  end.

Definition Pause caller id := setPaused caller id true.
Definition Unpause caller id := setPaused caller id false.

(** ** Seeding a passed constraint *)
Definition seed_record : json := JObj [("status", JStr "success"); ("seeded", JBool true)].

Definition SeedJobPassed (caller : Caller.t) (id jobName : string) : ST (api S) answer :=
  let! found := attempt (on_db (GetPipeline id)) in
  match found with
  | Err e => ret (lookup_failed not_found e)
  | Ok p =>
      match checkPipelineRBAC caller p with
      | Some denied => ret denied
      | None =>
          let! saved := attempt (on_db (SaveRun (Pipeline.ID p) (TriggerTypeOther "seed")
            (formatActor caller) (TriggerInput.mk [] None [] []) "")) in
          match saved with
          | Err _ => ret internal
          | Ok run =>
              let taskPath := "/pipeline/" ++ PipelineRun.ID run ++ "/jobs/" ++ jobName in
              let! recorded := attempt (on_db (Set_ (H := server_namespace) taskPath seed_record)) in
              match recorded with
              | Err _ => ret internal
              | Ok _ =>
                  ignore (on_db (UpdateRunStatus (PipelineRun.ID run) RunStatusSuccess "")) ;;;
                  ret (ASeeded (Pipeline.ID p) jobName (PipelineRun.ID run))
              end
          end
      end
  end.

(** ** Triggering *)

(** The run, the error of the service, or the answer already written.
    [responseChan] is the fresh channel of a simulated webhook. *)
Definition triggerByMode (caller : Caller.t) (p : Pipeline.t) (req : triggerRequest.t)
    (responseChan : nat) : ST (api S) (PipelineRun.t + answer) :=
  let actor := (RequestActorFromContext (Caller.actor caller)).1 in
  let requestID := Caller.requestID caller in
  let started (m : ST svc PipelineRun.t) := let! run := on_svc m in ret (inl run) in
  if decide (triggerRequest.Mode req = "args") then
    started (TriggerPipelineWithJobs requestID actor p (triggerRequest.Args req) (triggerRequest.Jobs req))
  else if decide (triggerRequest.Mode req = "webhook") then
    if negb (IsFeatureEnabled FeatureWebhooks (PipelinesController.allowedFeatures c)) then
      ret (inr (AError 403 "webhooks feature is not enabled"))
    else
      let method := match triggerRequest.Webhook req with
                    | Some w => if decide (webhookSimData.Method w <> "")
                                then webhookSimData.Method w else "POST"
                    | None => "POST" end in
      let body := from_option webhookSimData.Body "" (triggerRequest.Webhook req) in
      let headers := from_option webhookSimData.Headers ∅ (triggerRequest.Webhook req) in
      started (TriggerWebhookPipeline requestID actor p
        (Some (WebhookData.mk "manual" "" method "" headers body ∅)) (Some responseChan))
  else
    started (TriggerPipelineWithJobs requestID actor p [] (triggerRequest.Jobs req)).

Definition triggerQueueFull (caller : Caller.t) : ST (api S) answer :=
  if Caller.htmx caller then ret (AText 429 "Execution queue is full")
  else gets (fun s => AQueueFull (sv_inFlight (ap_svc s)) (sv_maxInFlight (ap_svc s))
                        (sv_maxQueueSize (ap_svc s))).

(** [req] is what decoding the body leaves in the zero request; a failure of
    the decoder is discarded. *)
Definition Trigger (caller : Caller.t) (id : string) (req : triggerRequest.t)
    (responseChan : nat) : ST (api S) answer :=
  let! found := attempt (on_db (GetPipeline id)) in
  match found with
  | Err e => ret (lookup_failed (respondHTMXOrJSON caller 404 "Pipeline not found" "pipeline not found") e)
  | Ok p =>
      match checkPipelineRBAC caller p with
      | Some denied => ret denied
      | None =>
          if Pipeline.Paused p then
            ret (respondHTMXOrJSON caller 409 "Pipeline is paused" "pipeline is paused")
          else
            let! run := attempt (triggerByMode caller p req responseChan) in
            match run with
            | Ok (inr answered) => ret answered
            | Err e => if errors_Is e SQueueFull then triggerQueueFull caller else ret internal
            | Ok (inl run) =>
                ret (if Caller.htmx caller
                     then AToast (toast (Pipeline.Name p ++ " triggered successfully")) false
                     else AStarted run (Pipeline.ID p))
            end
      end
  end.

(** ** Saving *)
Definition validateConcurrencyRequest (req : PipelineRequest.t) : result unit :=
  match PipelineRequest.ConcurrencyMode req with
  | None => Ok tt
  | Some mode =>
      let only s := Err (EMsg (s ++ " is only valid when concurrency_mode is " ++ q ConcurrencyModeGroup)) in
      let tmpl := default "" (PipelineRequest.ConcurrencyGroupTemplate req) in
      if decide (mode = ConcurrencyModeNone \/ mode = ConcurrencyModeSerial
                 \/ mode = ConcurrencyModeSkipIfRunning) then
        if decide (tmpl <> "") then only "concurrency_group_template"
        else if default false (PipelineRequest.ConcurrencyCancelRunning req)
        then only "concurrency_cancel_running"
        else Ok tt
      else if decide (mode = ConcurrencyModeGroup) then
        if decide (tmpl = "") then
          Err (EMsg ("concurrency_mode=" ++ q ConcurrencyModeGroup
                     ++ " requires a non-empty concurrency_group_template"))
        else
          match template_Parse tmpl with
          | Err e => Err (EWrap "concurrency_group_template" e)
          | Ok _ => Ok tt
          end
      else
        Err (EMsg ("unknown concurrency_mode " ++ q mode ++ " (valid: " ++ q ConcurrencyModeNone
          ++ ", " ++ q ConcurrencyModeSerial ++ ", " ++ q ConcurrencyModeGroup ++ ", "
          ++ q ConcurrencyModeSkipIfRunning ++ ")"))
  end.

Definition missing_key (given : gmap string string) (existing : list string) : option string :=
  List.find (fun k => negb (IsSystemKey k) && negb (bool_decide (is_Some (given !! k)))) existing.

Definition validateSecrets (name : string) (req : PipelineRequest.t) : ST (api S) unit :=
  let given := PipelineRequest.Secrets req in
  if decide (given = ∅) then ret tt
  else if negb (IsFeatureEnabled FeatureSecrets (PipelinesController.allowedFeatures c)) then
    fail (EMsg "secrets feature is not enabled")
  else if negb (PipelinesController.secretsMgr c) then
    fail (EMsg "secrets backend is not configured on the server")
  else
    match List.find IsSystemKey (map_range given).*1 with
    | Some key => fail (EMsg ("secret key " ++ q key ++ " is reserved for system use"))
    | None =>
        let! existing := attempt (on_db (GetPipelineByName name)) in
        match existing with
        | Err e => if errors_Is e SNotFound then ret tt
                   else fail (EWrap "failed to get existing pipeline by name" e)
        | Ok p =>
            let! keys := wrap "failed to list existing secrets"
              (on_secrets (mgr_ListByScope (PipelineScope (Pipeline.ID p)))) in
            match missing_key given keys with
            | Some key => fail (EMsg ("missing existing secret key " ++ q key
                ++ ": all existing secrets must be included on update"))
            | None => ret tt
            end
        end
    end.

(** The request with its driver filled in. *)
Definition validateUpsertRequest (name : string) (req : PipelineRequest.t)
    : ST (api S) (PipelineRequest.t + answer) :=
  let bad e : ST (api S) (PipelineRequest.t + answer) := ret (inr (AError 400 e)) in
  let features := PipelinesController.allowedFeatures c in
  let sets_webhook_secret := bool_decide (default "" (PipelineRequest.WebhookSecret req) <> "") in
  if decide (name = "") then bad "name is required"
  else if decide (PipelineRequest.Content req = "") then bad "content is required"
  else
    let req := if decide (PipelineRequest.Driver req = "")
               then PipelineRequest.set_Driver (PipelinesController.DefaultDriver c) req else req in
    match IsDriverAllowed (PipelineRequest.Driver req) (PipelinesController.allowedDrivers c) with
    | Err e => bad ("driver not allowed: " ++ Error e)
    | Ok _ =>
        if sets_webhook_secret && negb (IsFeatureEnabled FeatureWebhooks features) then
          bad "webhooks feature is not enabled"
        else if sets_webhook_secret && negb (PipelinesController.secretsMgr c) then
          bad "secrets backend is not configured on the server"
        else
          let! checked := attempt (validateSecrets name req) in
          match checked with
          | Err e => bad (Error e)
          | Ok _ =>
              match validateConcurrencyRequest req with
              | Err e => bad (Error e)
              | Ok _ =>
                  if negb (IsFeatureEnabled FeatureSecrets features) then
                    bad "secrets feature is not enabled"
                  else if negb (PipelinesController.secretsMgr c) then
                    bad "secrets backend is not configured on the server"
                  else ret (inl req)
              end
          end
    end.

Definition set_webhook_secret (scope : string) (secret : option string) : ST S unit :=
  match secret with
  | None => ret tt
  | Some v =>
      if decide (v = "") then
        let! deleted := attempt (mgr_Delete scope "webhook_secret") in
        match deleted with
        | Err e => if negb (errors_Is e SSecretNotFound)
                   then fail (EWrap "failed to delete webhook secret" e) else ret tt
        | Ok _ => ret tt
        end
      else wrap "failed to store webhook secret" (mgr_Set scope "webhook_secret" v)
  end.

Definition pipelineDriverSecretKey : string := "driver".

Definition persistSecrets (p : Pipeline.t) (req : PipelineRequest.t) : ST S unit :=
  let scope := PipelineScope (Pipeline.ID p) in
  let given := PipelineRequest.Secrets req in
  wrap "failed to store driver" (mgr_Set scope pipelineDriverSecretKey (PipelineRequest.Driver req)) ;;;
  (if decide (PipelineRequest.DriverConfig req = "") then ret tt
   else wrap "failed to store driver config"
          (mgr_Set scope "driver_config" (PipelineRequest.DriverConfig req))) ;;;
  set_webhook_secret scope (PipelineRequest.WebhookSecret req) ;;;
  for_each (fun key => wrap ("failed to store secret " ++ q key)
      (mgr_Set scope key (default "" (given !! key))))
    (sorted_names (map_range given).*1).

(** The pipeline with the fields the update wrote. *)
Definition with_concurrency (req : PipelineRequest.t) (p : Pipeline.t) : Pipeline.t :=
  Pipeline.mk (Pipeline.ID p) (Pipeline.Name p) (Pipeline.Content p) (Pipeline.ContentType p)
    (Pipeline.Driver p) (Pipeline.ResumeEnabled p) (Pipeline.Paused p) (Pipeline.RBACExpression p)
    (default (Pipeline.ConcurrencyMode p) (PipelineRequest.ConcurrencyMode req))
    (default (Pipeline.ConcurrencyGroupTemplate p) (PipelineRequest.ConcurrencyGroupTemplate req))
    (default (Pipeline.ConcurrencyCancelRunning p) (PipelineRequest.ConcurrencyCancelRunning req))
    (Pipeline.CreatedAt p) (Pipeline.UpdatedAt p).
Definition with_resume (b : bool) (p : Pipeline.t) : Pipeline.t :=
  Pipeline.mk (Pipeline.ID p) (Pipeline.Name p) (Pipeline.Content p) (Pipeline.ContentType p)
    (Pipeline.Driver p) b (Pipeline.Paused p) (Pipeline.RBACExpression p) (Pipeline.ConcurrencyMode p)
    (Pipeline.ConcurrencyGroupTemplate p) (Pipeline.ConcurrencyCancelRunning p)
    (Pipeline.CreatedAt p) (Pipeline.UpdatedAt p).
Definition with_rbac (e : string) (p : Pipeline.t) : Pipeline.t :=
  Pipeline.mk (Pipeline.ID p) (Pipeline.Name p) (Pipeline.Content p) (Pipeline.ContentType p)
    (Pipeline.Driver p) (Pipeline.ResumeEnabled p) (Pipeline.Paused p) e (Pipeline.ConcurrencyMode p)
    (Pipeline.ConcurrencyGroupTemplate p) (Pipeline.ConcurrencyCancelRunning p)
    (Pipeline.CreatedAt p) (Pipeline.UpdatedAt p).

Definition applyConcurrencyUpdate (p : Pipeline.t) (req : PipelineRequest.t) : ST db Pipeline.t :=
  let update := PipelineUpdate.mk None None None (PipelineRequest.ConcurrencyMode req)
    (PipelineRequest.ConcurrencyGroupTemplate req) (PipelineRequest.ConcurrencyCancelRunning req) in
  match PipelineRequest.ConcurrencyMode req, PipelineRequest.ConcurrencyGroupTemplate req,
        PipelineRequest.ConcurrencyCancelRunning req with
  | None, None, None => ret p
  | _, _, _ =>
      wrap "update pipeline concurrency config" (UpdatePipeline (Pipeline.ID p) update) ;;;
      ret (with_concurrency req p)
  end.

Definition post_resume (p : Pipeline.t) (req : PipelineRequest.t) : ST db (Pipeline.t + answer) :=
  match PipelineRequest.ResumeEnabled req with
  | None => ret (inl p)
  | Some b =>
      if b && negb (IsFeatureEnabled FeatureResume (PipelinesController.allowedFeatures c)) then
        ret (inr (AError 400 "resume feature is not enabled"))
      else
        let! updated := attempt (UpdatePipeline (Pipeline.ID p)
          (PipelineUpdate.mk (Some b) None None None None None)) in
        ret (match updated with Ok _ => inl (with_resume b p) | Err _ => inr internal end)
  end.

Definition rbac_refused (caller : Caller.t) (expression : string) : option answer :=
  if decide (expression = "") then None
  else
    match Caller.user caller with
    | None => Some (AError 400
        "pipeline RBAC expressions require OAuth authentication; basic auth cannot evaluate RBAC")
    | Some _ =>
        match ValidateExpression expression with
        | Ok _ => None
        | Err e => Some (AError 400 ("invalid RBAC expression: " ++ Error e))
        end
    end.

Definition post_rbac (caller : Caller.t) (p : Pipeline.t) (req : PipelineRequest.t)
    : ST db (Pipeline.t + answer) :=
  match PipelineRequest.RBACExpression req with
  | None => ret (inl p)
  | Some e =>
      match rbac_refused caller e with
      | Some a => ret (inr a)
      | None =>
          let! updated := attempt (UpdatePipeline (Pipeline.ID p)
            (PipelineUpdate.mk None None (Some e) None None None)) in
          ret (match updated with Ok _ => inl (with_rbac e p) | Err _ => inr internal end)
      end
  end.

Definition upsertPostSave (caller : Caller.t) (p : Pipeline.t) (req : PipelineRequest.t)
    : ST db (Pipeline.t + answer) :=
  let! p := post_resume p req in
  match p with
  | inr a => ret (inr a)
  | inl p =>
      let! p := post_rbac caller p req in
      match p with
      | inr a => ret (inr a)
      | inl p =>
          let! p := attempt (applyConcurrencyUpdate p req) in
          ret (match p with Ok p => inl p | Err _ => inr internal end)
      end
  end.

(** The pipeline already stored under the name, if any. *)
Definition upsertCheckExistingRBAC (caller : Caller.t) (name : string)
    : ST db (option Pipeline.t + answer) :=
  let! existing := attempt (GetPipelineByName name) in
  ret match existing with
      | Err e => if errors_Is e SNotFound then inl None else inr internal
      | Ok p => match checkPipelineRBAC caller p with
                | Some denied => inr denied | None => inl (Some p) end
      end.

(** [body] is the answer of [ctx.Bind], [parse] is [yaml.Unmarshal] of the
    content. *)
Definition Upsert (parse : string -> result (list Job.t)) (caller : Caller.t) (name : string)
    (body : result PipelineRequest.t) : ST (api S) answer :=
  match body with
  | Err _ => ret (AError 400 "invalid request body")
  | Ok req =>
      let! valid := validateUpsertRequest name req in
      match valid with
      | inr a => ret a
      | inl req =>
          let! existing := on_db (upsertCheckExistingRBAC caller name) in
          match existing with
          | inr a => ret a
          | inl _ =>
              let! saved := attempt (on_db (SavePipeline name (PipelineRequest.Content req)
                (PipelineRequest.Driver req) (PipelineRequest.ContentType req))) in
              match saved with
              | Err _ => ret internal
              | Ok p =>
                  let! persisted := attempt (on_secrets (persistSecrets p req)) in
                  match persisted with
                  | Err e => ret (AError 500 (Error e))
                  | Ok _ =>
                      let! p := on_db (upsertPostSave caller p req) in
                      match p with
                      | inr a => ret a
                      | inl p =>
                          ignore (on_db (syncSchedules parse p)) ;;;
                          ret (APipeline (toPipelineAPIResponse p))
                      end
                  end
              end
          end
      end
  end.
End handlers.

(** ** Reads *)

(** Only the fault oracle moved, and no fault appeared. *)
Definition quieter (fs fs' : list bool) : Prop := fs = [] -> fs' = [].
Definition same_data (d d' : db) : Prop := exists fs, d' = set_faults fs d /\ quieter (db_faults d) fs.
#[export] Instance same_data_preorder : PreOrder same_data.
Proof.
  split; [intros d; exists (db_faults d); split; [by destruct d|by unfold quieter]|].
  intros d1 d2 d3 (fs & -> & Q1) (fs' & -> & Q2). exists fs'. split; [done|]. intros E. by apply Q2, Q1.
Qed.

Section reads.
Context `{!OrderBy}.

Lemma query_read {A} (f : db -> A) d :
  same_data d (query f d).2 /\
  match (query f d).1 with
  | Ok a => exists fs, a = f (set_faults fs d)
  | Err e => e = ESentinel SSqlite
  end.
Proof.
  unfold query, exec, gets. destruct (db_faults d) as [|[] fs] eqn:Hd; cbn.
  - split; [reflexivity|]. exists []. by destruct d; cbn in *; subst.
  - split; [|done]. exists fs. by split; [|rewrite Hd].
  - split; [|by exists fs]. exists fs. by split; [|rewrite Hd].
Qed.
Lemma query_same {A} (f : db -> A) : preserves same_data (query f).
Proof. intros d. apply query_read. Qed.

Lemma GetPipeline_read id d :
  same_data d (GetPipeline id d).2 /\
  match (GetPipeline id d).1 with
  | Ok p => exists row, db_pipelines d !! id = Some row /\ p = pipelineScan.toStorage row
  | Err e => errors_Is e SNotFound = true -> db_pipelines d !! id = None
  end.
Proof.
  unfold GetPipeline, bind, wrap. pose proof (query_read (fun d => db_pipelines d !! id) d) as [Hs Hr].
  destruct (query _ d) as [[row|e] d']; cbn in *; [|by subst].
  destruct Hr as [fs ->]. cbn in *. destruct (db_pipelines d !! id) as [p|]; (split; [exact Hs|]); [by exists p|done].
Qed.

Lemma GetPipelineByName_read name d :
  same_data d (GetPipelineByName name d).2 /\
  match (GetPipelineByName name d).1 with
  | Ok p => exists row, row ∈ rows_named name d /\ p = pipelineScan.toStorage row
  | Err e => errors_Is e SNotFound = true -> rows_named name d = []
  end.
Proof.
  unfold GetPipelineByName, bind, wrap.
  set (f := fun d => head (order_by (fun p => (- pipelineScan.UpdatedAt p)%Z) (rows_named name d))).
  pose proof (query_read f d) as [Hs Hr].
  destruct (query f d) as [[row|e] d']; cbn in *; [|by subst].
  destruct Hr as [fs ->]. unfold f. change (rows_named name (set_faults fs d)) with (rows_named name d).
  destruct (order_by _ (rows_named name d)) as [|p l] eqn:He; cbn.
  - split; [done|]. intros _. apply Permutation_nil_r. by rewrite <- He, order_by_perm.
  - split; [done|]. exists p. split; [|done]. apply elem_of_order_by with (key := fun p => (- pipelineScan.UpdatedAt p)%Z).
    rewrite He. by left.
Qed.

Lemma SearchPipelines_read fts query_ page perPage d :
  same_data d (SearchPipelines fts query_ page perPage d).2 /\
  forall res, (SearchPipelines fts query_ page perPage d).1 = Ok res ->
    forall p, p ∈ PaginationResult.Items res -> exists row, row ∈ pipeline_rows d /\ p = pipelineScan.toStorage row.
Proof.
  split.
  - unfold SearchPipelines, paginatedSearch.
    repeat first [ apply preserves_bind; [apply _| |intros ?]
                 | apply preserves_wrap, query_same | apply preserves_ret; apply _ ].
  - intros res. unfold SearchPipelines, paginatedSearch, bind, wrap.
    set (sel := fun d0 : db => if decide (query_ = "")
       then order_by (fun p => (- pipelineScan.CreatedAt p)%Z) (pipeline_rows d0)
       else List.filter (fts (sanitizeFTSQuery query_))
              (order_by (fun p => (- pipelineScan.CreatedAt p)%Z) (pipeline_rows d0))).
    assert (Hsel : forall d p, p ∈ sel d -> p ∈ pipeline_rows d).
    { intros d0 p. unfold sel. destruct (decide _); [by rewrite elem_of_order_by|].
      intros Hp%list_elem_of_In%filter_In. destruct Hp as [Hp _].
      by rewrite <- list_elem_of_In, elem_of_order_by in Hp. }
    destruct (query_read (fun d => Z.of_nat (length (sel d))) d) as [(fs & Hfs & _) _].
    destruct (query (fun d => Z.of_nat _) d) as [[n|e] d1]; [|done]. cbn in Hfs. subst d1.
    destruct (query_read (fun d0 : db => limit_offset (clamp_perPage perPage)
      (page_offset (clamp_page page) (clamp_perPage perPage)) (sel d0)) (set_faults fs d)) as [_ Hr].
    destruct (query _ (set_faults fs d)) as [[rows|e] d2]; [|done]. destruct Hr as [fs' ->].
    intros [= <-] p Hp. cbn in Hp. apply list_elem_of_fmap in Hp as (row & -> & Hin).
    exists row. split; [|done]. apply Hsel.
    unfold limit_offset in Hin. apply elem_of_take in Hin as (i & Hi & _).
    rewrite lookup_drop in Hi. by eapply list_elem_of_lookup_2.
Qed.
End reads.

(** ** What a denied caller can do *)
Section denied.
Context `{!AccessLang, !TemplateEngine, !UniqueIDs, !OrderBy, !JsonText, !MapOrder, !Sha256, !Clockwork}.
Context {S : Type} `{!SecretsManager S, !SecretBackend S}.
Context (c : PipelinesController.t).

(** Nothing but the fault oracle of the database moved, and the store of
    secrets holds what it held. *)
Definition untouched (s s' : api S) : Prop :=
  (exists d, same_data (sv_db (ap_svc s)) d /\ ap_svc s' = set_db d (ap_svc s)) /\
  forall m, holds (ap_mgr s) m -> holds (ap_mgr s') m.

#[local] Instance untouched_preorder : PreOrder untouched.
Proof.
  split.
  - intros s. split; [|done]. exists (sv_db (ap_svc s)).
    split; [reflexivity|]. by destruct s as [[] ?].
  - intros s1 s2 s3 [(d1 & D1 & E1) M1] [(d2 & D2 & E2) M2]. split; [|auto].
    exists d2. rewrite E1 in D2. split; [by etrans|]. by rewrite E2, E1.
Qed.

Lemma untouched_db {A} (m : ST db A) s :
  same_data (sv_db (ap_svc s)) (m (sv_db (ap_svc s))).2 -> untouched s (on_db (S := api S) m s).2.
Proof.
  unfold on_db. cbn [get_db put_db api_has_db]. destruct (m _) as [r d]. cbn.
  intros Hd. split; [by exists d|done].
Qed.

(** A refusal that leaves the state alone. *)
Definition refused (m : ST (api S) answer) (s : api S) : Prop :=
  exists a s', m s = (Ok a, s') /\ refuses a /\ untouched s s'.

Lemma refused_ret a s : refuses a -> refused (ret a) s.
Proof. intros Ha. exists a, s. by split; [|split; [|reflexivity]]. Qed.

Lemma visible_iff caller p : visible caller p = true <-> checkPipelineRBAC caller p = None.
Proof.
  unfold visible, checkPipelineRBAC. destruct (decide _); [done|].
  destruct (Caller.user caller) as [user|]; [|done].
  by destruct (EvaluateAccess _ user) as [[]|].
Qed.
Lemma denied_answer caller p :
  visible caller p = false -> exists a, checkPipelineRBAC caller p = Some a /\ refuses a.
Proof.
  unfold visible, checkPipelineRBAC, refuses. destruct (decide _); [done|]. intros Hv.
  destruct (Caller.user caller) as [user|]; [|eexists; split; [done|cbn; lia]].
  destruct (EvaluateAccess _ user) as [[]|]; [done| |]; (eexists; split; [done|cbn; lia]).
Qed.

Lemma lookup_failed_refuses missing e : refuses missing -> refuses (lookup_failed missing e).
Proof. unfold lookup_failed, internal, refuses. case_match; [done|]. cbn. lia. Qed.
Lemma respond_refuses caller status h j : (400 <= status)%Z -> refuses (respondHTMXOrJSON caller status h j).
Proof. unfold respondHTMXOrJSON, refuses. by destruct (Caller.htmx caller). Qed.

(** Every handler looks the pipeline up and asks for access first. *)
Lemma guarded_refused caller id row missing (k : Pipeline.t -> ST (api S) answer) s :
  db_pipelines (sv_db (ap_svc s)) !! id = Some row ->
  visible caller (pipelineScan.toStorage row) = false -> refuses missing ->
  refused (let! found := attempt (on_db (GetPipeline id)) in
           match found with
           | Err e => ret (lookup_failed missing e)
           | Ok p => match checkPipelineRBAC caller p with
                     | Some denied => ret denied | None => k p end
           end) s.
Proof.
  intros Hrow Hv Hm. destruct (GetPipeline_read id (sv_db (ap_svc s))) as [Hs Hr].
  apply (untouched_db (GetPipeline id) s) in Hs. revert Hs. unfold refused, bind at 1, attempt, on_db.
  cbn [get_db put_db api_has_db]. destruct (GetPipeline id _) as [[p|e] d]; cbn in *.
  - destruct Hr as (row' & Hrow' & ->). simplify_eq.
    destruct (denied_answer caller _ Hv) as (a & -> & Ha). intros Hu. by exists a, (mkApi (set_db d (ap_svc s)) (ap_mgr s)).
  - intros Hu. eexists _, _. split; [done|]. split; [by apply lookup_failed_refuses|done].
Qed.

Inductive request : Type :=
  | ReqShow | ReqDestroy | ReqPause | ReqUnpause
  | ReqTrigger (req : triggerRequest.t) (responseChan : nat)
  | ReqSeed (jobName : string).

Definition serve_pipeline (caller : Caller.t) (id : string) (r : request) : ST (api S) answer :=
  match r with
  | ReqShow => Show caller id
  | ReqDestroy => Destroy c caller id
  | ReqPause => Pause caller id
  | ReqUnpause => Unpause caller id
  | ReqTrigger req ch => Trigger c caller id req ch
  | ReqSeed jobName => SeedJobPassed caller id jobName
  end.

Lemma serve_refused caller id row r s :
  db_pipelines (sv_db (ap_svc s)) !! id = Some row ->
  visible caller (pipelineScan.toStorage row) = false -> refused (serve_pipeline caller id r) s.
Proof.
  intros Hrow Hv. destruct r; apply (guarded_refused caller id row); try done;
    try (apply respond_refuses; lia); unfold refuses; cbn; lia.
Qed.

(** ** What validation lets through *)
Lemma untouched_quiet s s' :
  db_faults (sv_db (ap_svc s)) = [] -> untouched s s' -> ap_svc s' = ap_svc s.
Proof.
  intros Hf [(d & (fs & -> & Hq) & ->) _]. rewrite (Hq Hf). destruct s as [[d0] ?]. cbn in *.
  destruct d0. cbn in *. by subst.
Qed.

Definition scopes_ok (name : string) (s : api S) : Prop :=
  forall row, row ∈ rows_named name (sv_db (ap_svc s)) ->
    scope_ok (S := S) (PipelineScope (pipelineScan.ID row)).

Definition with_driver (req : PipelineRequest.t) : PipelineRequest.t :=
  if decide (PipelineRequest.Driver req = "")
  then PipelineRequest.set_Driver (PipelinesController.DefaultDriver c) req else req.

Definition no_system_key (given : gmap string string) : Prop :=
  forall k, is_Some (given !! k) -> IsSystemKey k = false.

Lemma no_system_key_found given :
  List.find IsSystemKey (map_range given).*1 = None -> no_system_key given.
Proof.
  intros Hf k [v Hk]. apply (List.find_none _ _ Hf). apply list_elem_of_In, list_elem_of_fmap.
  exists (k, v). split; [done|]. by rewrite map_range_perm, elem_of_map_to_list.
Qed.

Lemma validateSecrets_untouched name req s :
  scopes_ok name s ->
  let '(r, s') := validateSecrets c name req s in
  untouched s s' /\ (r = Ok tt -> no_system_key (PipelineRequest.Secrets req)).
Proof.
  intros Hok. unfold validateSecrets. destruct (decide _) as [->|Hne].
  { split; [reflexivity|]. intros _ k [v Hk]. by rewrite lookup_empty in Hk. }
  destruct (negb _); [by split; [reflexivity|]|]. destruct (negb _); [by split; [reflexivity|]|].
  destruct (List.find _ _) as [key|] eqn:Hf; [by split; [reflexivity|]|].
  apply no_system_key_found in Hf.
  destruct (GetPipelineByName_read name (sv_db (ap_svc s))) as [Hs Hr].
  apply (untouched_db (GetPipelineByName name) s) in Hs. revert Hs. unfold bind, attempt, on_db.
  cbn [get_db put_db api_has_db]. destruct (GetPipelineByName name _) as [[p|e] d]; cbn in *; intros Hu.
  2: { by destruct (errors_Is e SNotFound). }
  destruct Hr as (row & Hrow & ->). unfold wrap, on_secrets. cbn [ap_mgr ap_svc].
  set (s1 := mkApi _ _) in *.
  assert (forall m, holds (ap_mgr s) m ->
    holds (mgr_ListByScope (PipelineScope (pipelineScan.ID row)) (ap_mgr s)).2 m) as Hl.
  { intros m Hm. pose proof (List_spec _ (ap_mgr s) m (Hok row Hrow) Hm) as Hls.
    by destruct (mgr_ListByScope _ _) as [? ?], Hls. }
  cbn [pipelineScan.toStorage Pipeline.ID].
  destruct (mgr_ListByScope _ _) as [[keys|e] mgr']; cbn in Hl |- *.
  2: { split; [|done]. destruct Hu as [Hd _]. by split. }
  destruct (missing_key _ keys); (split; [destruct Hu as [Hd _]; by split|done]).
Qed.

Lemma validateUpsertRequest_cases name req s :
  scopes_ok name s ->
  exists r s', validateUpsertRequest c name req s = (Ok r, s') /\ untouched s s' /\
    match r with
    | inr a => refuses a
    | inl req' => req' = with_driver req /\ PipelinesController.secretsMgr c = true /\
        no_system_key (PipelineRequest.Secrets req')
    end.
Proof.
  intros Hok. unfold validateUpsertRequest, refuses.
  destruct (decide (name = "")); [eexists _, s; split; [done|]; split; [reflexivity|cbn; lia]|].
  destruct (decide (PipelineRequest.Content req = "")); [eexists _, s; split; [done|]; split; [reflexivity|cbn; lia]|].
  change (if decide (PipelineRequest.Driver req = "") then _ else req) with (with_driver req).
  destruct (IsDriverAllowed _ _); [|eexists _, s; split; [done|]; split; [reflexivity|cbn; lia]].
  destruct (_ && negb (IsFeatureEnabled FeatureWebhooks _)); [eexists _, s; split; [done|]; split; [reflexivity|cbn; lia]|].
  destruct (_ && negb _); [eexists _, s; split; [done|]; split; [reflexivity|cbn; lia]|].
  pose proof (validateSecrets_untouched name (with_driver req) s Hok) as Hv.
  unfold bind, attempt. destruct (validateSecrets c name _ s) as [[[]|e] s1]; destruct Hv as [Hu Hk].
  2: { eexists _, s1. split; [done|]. split; [done|cbn; lia]. }
  destruct (validateConcurrencyRequest _); [|eexists _, s1; split; [done|]; split; [done|cbn; lia]].
  destruct (negb (IsFeatureEnabled _ _)); [eexists _, s1; split; [done|]; split; [done|cbn; lia]|].
  destruct (PipelinesController.secretsMgr c); cbn [negb];
    [|eexists _, s1; split; [done|]; split; [done|cbn; lia]].
  eexists _, s1. split; [done|]. split; [done|]. by split; [|split; [|apply Hk]].
Qed.

Lemma upsertCheck_cases caller name s :
  exists r s', on_db (S := api S) (upsertCheckExistingRBAC caller name) s = (Ok r, s') /\ untouched s s' /\
    match r with
    | inr a => refuses a
    | inl existing => 
        match existing with
        | None => rows_named name (sv_db (ap_svc s)) = []
        | Some p => exists row, row ∈ rows_named name (sv_db (ap_svc s)) /\
            p = pipelineScan.toStorage row /\ visible caller p = true
        end
    end.
Proof.
  destruct (GetPipelineByName_read name (sv_db (ap_svc s))) as [Hs Hr].
  apply (untouched_db (GetPipelineByName name) s) in Hs. revert Hs. unfold refuses.
  unfold upsertCheckExistingRBAC, bind, attempt, on_db, ret. cbn [get_db put_db api_has_db].
  destruct (GetPipelineByName name _) as [[p|e] d]; cbn in *; intros Hu; eexists _, _; (split; [done|]); (split; [done|]).
  - destruct (visible caller p) eqn:Hv.
    + rewrite (proj1 (visible_iff caller p) Hv). destruct Hr as (row & Hrow & ->). eauto.
    + destruct (denied_answer caller p Hv) as (a & -> & Ha). done.
  - destruct (errors_Is e SNotFound); [auto|cbn; lia].
Qed.

Lemma Upsert_refused parse caller name body row s :
  rows_named name (sv_db (ap_svc s)) = [row] -> scope_ok (S := S) (PipelineScope (pipelineScan.ID row)) ->
  visible caller (pipelineScan.toStorage row) = false ->
  refused (Upsert c parse caller name body) s.
Proof.
  intros Hrows Hok Hv. destruct body as [req|e]; cbn [Upsert]; [|apply refused_ret; unfold refuses; cbn; lia].
  destruct (validateUpsertRequest_cases name req s) as (r & s1 & Hval & Hu & Hr).
  { intros row'. rewrite Hrows. by intros ->%list_elem_of_singleton. }
  unfold refused. rewrite (bind_ok _ _ _ _ _ Hval). destruct r as [req'|a]; [|by exists a, s1].
  destruct (upsertCheck_cases caller name s1) as (r & s2 & Hchk & Hu2 & Hr2).
  rewrite (bind_ok _ _ _ _ _ Hchk).
  destruct r as [existing|a]; [|exists a, s2; split; [done|]; split; [done|by etrans]].
  exfalso. assert (Hrows1 : rows_named name (sv_db (ap_svc s1)) = [row]).
  { destruct Hu as [(d & (fs & -> & _) & ->) _]. exact Hrows. }
  destruct existing as [p|]; [|by rewrite Hrows1 in Hr2].
  destruct Hr2 as (row' & Hin & -> & Hvis). rewrite Hrows1 in Hin.
  apply list_elem_of_singleton in Hin as ->. congruence.
Qed.
End denied.

(** ** What a save writes *)
Ltac slots := repeat case_match; repeat case_decide; subst;
  repeat first [ rewrite lookup_insert_eq | rewrite lookup_delete_eq
               | rewrite lookup_insert_ne by congruence | rewrite lookup_delete_ne by congruence ];
  try done; congruence.

Definition update_of (req : PipelineRequest.t) : PipelineUpdate.t :=
  PipelineUpdate.mk (PipelineRequest.ResumeEnabled req) None (PipelineRequest.RBACExpression req)
    (PipelineRequest.ConcurrencyMode req) (PipelineRequest.ConcurrencyGroupTemplate req)
    (PipelineRequest.ConcurrencyCancelRunning req).

(** The row under the name after a save. *)
Definition upserted `{!Sha256} (name : string) (req : PipelineRequest.t) (now : time)
    (old : option pipelineScan.t) : pipelineScan.t :=
  let content := PipelineRequest.Content req in
  apply_update (update_of req)
    match old with
    | Some row => resave content (PipelineRequest.ContentType req) (PipelineRequest.Driver req) (Unix now) row
    | None => new_row (PipelineID name content) name content (PipelineRequest.ContentType req)
                (PipelineRequest.Driver req) (Unix now)
    end.

(** A secret of the pipeline's scope after a save. *)
Definition saved_secret (req : PipelineRequest.t) (key : string) (old : option string) : option string :=
  match PipelineRequest.Secrets req !! key with
  | Some v => Some v
  | None =>
      if decide (key = "webhook_secret") then
        match PipelineRequest.WebhookSecret req with
        | None => old
        | Some v => if decide (v = "") then None else Some v
        end
      else if decide (key = "driver_config") then
        if decide (PipelineRequest.DriverConfig req = "") then old else Some (PipelineRequest.DriverConfig req)
      else if decide (key = "driver") then Some (PipelineRequest.Driver req)
      else old
  end.

Section saving_secrets.
Context `{!MapOrder} {S : Type} `{!SecretsManager S, !SecretBackend S}.

Lemma wrap_Ok {A} msg (m : ST S A) s a s' : wrap msg m s = (Ok a, s') -> m s = (Ok a, s').
Proof. unfold wrap. by destruct (m s) as [[]]. Qed.

Lemma Set_ok scope key value s m s' :
  scope_ok (S := S) scope -> holds s m -> mgr_Set scope key value s = (Ok tt, s') ->
  holds s' (<[(scope, key) := value]> m).
Proof.
  intros Hs Hm He. pose proof (Set_spec scope key value s m Hs Hm) as Hset. rewrite He in Hset.
  by destruct Hset as [[_ Hh]|[[_ (e & [=] & _)] _]].
Qed.

Lemma set_keys_ok scope (given : gmap string string) (keys : list string) : forall (s : S) m s',
  scope_ok (S := S) scope -> holds s m ->
  for_each (fun key => wrap ("failed to store secret " ++ q key)
    (mgr_Set scope key (default "" (given !! key)))) keys s = (Ok tt, s') ->
  exists m', holds s' m' /\ forall sc k, m' !! (sc, k) =
    if decide (sc = scope /\ k ∈ keys) then Some (default "" (given !! k)) else m !! (sc, k).
Proof.
  induction keys as [|key keys IH]; intros s m s' Hs Hm; cbn [for_each].
  { intros [= <-]. exists m. split; [done|]. intros sc k. rewrite decide_False; [done|].
    intros [_ Hk]. by apply not_elem_of_nil in Hk. }
  unfold bind. destruct (wrap _ _ s) as [[[]|e] s1] eqn:Hw; [|done].
  apply wrap_Ok, (Set_ok _ _ _ _ m) in Hw; [|done..].
  intros (m' & Hm' & Hl)%(IH _ _ _ Hs Hw). exists m'. split; [done|]. intros sc k. rewrite Hl.
  destruct (decide (sc = scope /\ k ∈ keys)) as [[-> Hk]|Hn].
  - rewrite decide_True; [done|]. split; [done|]. by right.
  - destruct (decide ((scope, key) = (sc, k))) as [[= <- <-]|Hne].
    + rewrite lookup_insert_eq, decide_True; [done|]. split; [done|by left].
    + rewrite lookup_insert_ne by done. rewrite decide_False; [done|].
      intros [-> [-> |Hk]%elem_of_cons]; [done|]. by apply Hn.
Qed.

Lemma set_webhook_ok scope secret (s : S) m s' :
  scope_ok (S := S) scope -> holds s m -> set_webhook_secret scope secret s = (Ok tt, s') ->
  holds s' match secret with
           | None => m
           | Some v => if decide (v = "") then delete (scope, "webhook_secret") m
                       else <[(scope, "webhook_secret") := v]> m
           end.
Proof.
  intros Hs Hm. unfold set_webhook_secret. destruct secret as [v|]; [|by intros [= <-]].
  destruct (decide (v = "")) as [He0|He0].
  - unfold bind, attempt. pose proof (Delete_spec scope "webhook_secret" s m Hs (bool_decide_unpack ("webhook_secret" ∈ server_keys) ltac:(vm_compute; exact Logic.I)) Hm) as Hd.
    destruct (mgr_Delete _ _ s) as [[[]|e] s1]; destruct Hd as [[Hr Hh]|[[_ (e' & He & Hne)] Hh]]; try done.
    + by intros [= <-].
    + destruct Hr as [|[= ->]]; [done|]. by intros [= <-].
    + simplify_eq. by rewrite Hne.
  - intros Hw%wrap_Ok. by apply (Set_ok _ _ _ _ m) in Hw.
Qed.

Lemma elem_of_given (given : gmap string string) k :
  k ∈ sorted_names (map_range given).*1 <-> is_Some (given !! k).
Proof.
  rewrite sorted_names_perm, map_range_perm, list_elem_of_fmap. split.
  - intros ([k' v] & -> & Hin%elem_of_map_to_list). by exists v.
  - intros [v Hv]. exists (k, v). split; [done|]. by apply elem_of_map_to_list.
Qed.

Lemma persistSecrets_ok p req (s : S) m s' :
  let scope := PipelineScope (Pipeline.ID p) in
  scope_ok (S := S) scope -> holds s m -> persistSecrets p req s = (Ok tt, s') ->
  exists m', holds s' m' /\ forall sc k, m' !! (sc, k) =
    if decide (sc = scope) then saved_secret req k (m !! (sc, k)) else m !! (sc, k).
Proof.
  intros scope Hs Hm. unfold persistSecrets. fold scope. unfold bind at 1.
  destruct (wrap _ _ s) as [[[]|e] s1] eqn:H1; [|done]. apply wrap_Ok, (Set_ok _ _ _ _ m) in H1; [|done..].
  unfold bind at 1. set (m1 := <[_ := _]> m) in *.
  set (m2 := if decide (PipelineRequest.DriverConfig req = "") then m1
             else <[(scope, "driver_config") := PipelineRequest.DriverConfig req]> m1).
  destruct (_ s1) as [[[]|e] s2] eqn:H2; [|done].
  assert (Hm2 : holds s2 m2).
  { unfold m2. destruct (decide _); [by injection H2 as <-|]. apply wrap_Ok in H2. by eapply Set_ok. }
  unfold bind at 1. destruct (set_webhook_secret _ _ s2) as [[[]|e] s3] eqn:H3; [|done].
  apply (set_webhook_ok _ _ _ m2) in H3; [|done..].
  intros (m' & Hm' & Hl)%(set_keys_ok _ _ _ _ _ _ Hs H3). exists m'. split; [done|].
  intros sc k. rewrite Hl. clear Hl. destruct (decide (sc = scope)) as [->|Hne].
  - unfold saved_secret. destruct (PipelineRequest.Secrets req !! k) as [v|] eqn:Hg.
    { rewrite decide_True; [done|]. split; [done|]. apply elem_of_given. by exists v. }
    rewrite decide_False.
    2: { intros [_ [v Hv]%elem_of_given]. congruence. }
    unfold m2, m1, pipelineDriverSecretKey.
    destruct (decide (k = "webhook_secret")) as [->|Hw].
    { slots. }
    destruct (decide (k = "driver_config")) as [->|Hc].
    { slots. }
    destruct (decide (k = "driver")) as [->|Hd];
      slots.
  - rewrite decide_False by (by intros [-> _]). unfold m2, m1.
    slots.
Qed.
End saving_secrets.

Section saving_rows.
Context `{!AccessLang, !TemplateEngine, !UniqueIDs, !OrderBy, !JsonText, !MapOrder, !Sha256, !Clockwork}.
Context (c : PipelinesController.t).

Lemma apply_no_update u row : no_update u = true -> apply_update u row = row.
Proof. destruct u as [[] [] [] [] [] []]; try done. by destruct row. Qed.

Lemma UpdatePipeline_no_faults id u row d :
  db_faults d = [] -> db_pipelines d !! id = Some row ->
  UpdatePipeline id u d = (Ok tt, set_pipelines (insert id (apply_update u row)) d).
Proof.
  intros Hf Hrow. unfold UpdatePipeline. destruct (no_update u) eqn:Hu.
  - rewrite apply_no_update by done. unfold set_pipelines. rewrite insert_id by done. by destruct d.
  - run_sql Hf. by rewrite Hrow.
Qed.

Lemma apply_update_twice u1 u2 id row d :
  set_pipelines (insert id (apply_update u2 (apply_update u1 row)))
    (set_pipelines (insert id (apply_update u1 row)) d) =
  set_pipelines (insert id (apply_update u2 (apply_update u1 row))) d.
Proof. unfold set_pipelines. cbn. by rewrite insert_insert_eq. Qed.

Lemma set_same_row id row d :
  db_pipelines d !! id = Some row -> d = set_pipelines (insert id row) d.
Proof. intros Hrow. unfold set_pipelines. rewrite insert_id by done. by destruct d. Qed.

(** One of the updates that follow the save: it refuses, or writes its fields. *)
Definition updates (p : Pipeline.t) (u : PipelineUpdate.t) (m : ST db (Pipeline.t + answer)) : Prop :=
  forall row d, db_faults d = [] -> db_pipelines d !! Pipeline.ID p = Some row ->
  exists r d', m d = (Ok r, d') /\
    match r with
    | inr a => refuses a
    | inl p' => Pipeline.ID p' = Pipeline.ID p /\ Pipeline.Content p' = Pipeline.Content p /\
        d' = set_pipelines (insert (Pipeline.ID p) (apply_update u row)) d
    end.

Lemma updates_none p u : no_update u = true -> updates p u (ret (inl p)).
Proof.
  intros Hu row d Hf Hrow. eexists _, d. split; [done|]. split; [done|]. split; [done|].
  rewrite apply_no_update by done. by apply set_same_row.
Qed.
Lemma updates_refuse p u a : refuses a -> updates p u (ret (inr a)).
Proof. intros Ha row d _ _. by eexists _, d. Qed.

Lemma updates_one p p' u (f : result unit -> Pipeline.t + answer) :
  Pipeline.ID p' = Pipeline.ID p -> Pipeline.Content p' = Pipeline.Content p -> f (Ok tt) = inl p' ->
  updates p u (let! updated := attempt (UpdatePipeline (Pipeline.ID p) u) in ret (f updated)).
Proof.
  intros Hid Hc Hf' row d Hf Hrow. unfold bind, attempt. rewrite (UpdatePipeline_no_faults _ _ row) by done.
  eexists _, _. split; [done|]. by rewrite Hf'.
Qed.

(** In sequence the updates merge. *)
Lemma updates_then p u1 u2 u (m : ST db (Pipeline.t + answer)) k :
  updates p u1 m -> (forall p', Pipeline.ID p' = Pipeline.ID p -> updates p' u2 (k p')) ->
  (forall row, apply_update u2 (apply_update u1 row) = apply_update u row) ->
  updates p u (let! p := m in match p with inr a => ret (inr a) | inl p => k p end).
Proof.
  intros HU1 HU2 Hu row d Hf Hrow. destruct (HU1 row d Hf Hrow) as (r & d1 & Hm & Hr).
  unfold bind. rewrite Hm. destruct r as [p'|a]; [|by eexists _, d1].
  destruct Hr as (Hid & Hc & ->).
  destruct (HU2 p' Hid (apply_update u1 row) (set_pipelines (insert (Pipeline.ID p) (apply_update u1 row)) d))
    as (r & d2 & Hk & Hr); [done|rewrite Hid; apply lookup_insert_eq|].
  exists r, d2. split; [done|]. destruct r as [p''|a]; [|done]. destruct Hr as (Hid' & Hc' & ->).
  split; [congruence|]. split; [congruence|]. by rewrite Hid, apply_update_twice, Hu.
Qed.

Lemma upsertPostSave_updates caller p req : updates p (update_of req) (upsertPostSave c caller p req).
Proof.
  unfold upsertPostSave.
  apply updates_then with (u1 := PipelineUpdate.mk (PipelineRequest.ResumeEnabled req) None None None None None)
    (u2 := PipelineUpdate.mk None None (PipelineRequest.RBACExpression req)
      (PipelineRequest.ConcurrencyMode req) (PipelineRequest.ConcurrencyGroupTemplate req)
      (PipelineRequest.ConcurrencyCancelRunning req)); [|intros p1 Hid1|].
  - unfold post_resume. destruct (PipelineRequest.ResumeEnabled req) as [b|]; [|by apply updates_none].
    destruct (_ && _); [apply updates_refuse; unfold refuses; cbn; lia|].
    by apply updates_one with (p' := with_resume b p).
  - apply updates_then with (u1 := PipelineUpdate.mk None None (PipelineRequest.RBACExpression req) None None None)
      (u2 := PipelineUpdate.mk None None None (PipelineRequest.ConcurrencyMode req)
        (PipelineRequest.ConcurrencyGroupTemplate req) (PipelineRequest.ConcurrencyCancelRunning req));
      [|intros p2 Hid2|].
    + unfold post_rbac. destruct (PipelineRequest.RBACExpression req) as [e|]; [|by apply updates_none].
      destruct (rbac_refused caller e) as [a|] eqn:Hr.
      * apply updates_refuse. unfold rbac_refused in Hr. unfold refuses.
        repeat case_match; simplify_eq; cbn; lia.
      * by apply updates_one with (p' := with_rbac e p1).
    + intros row d Hf Hrow. unfold applyConcurrencyUpdate, bind, attempt, wrap.
      destruct (PipelineRequest.ConcurrencyMode req), (PipelineRequest.ConcurrencyGroupTemplate req),
        (PipelineRequest.ConcurrencyCancelRunning req); try (by apply updates_none);
        rewrite (UpdatePipeline_no_faults _ _ row) by done; by eexists _, _.
    + intros []. unfold apply_update. cbn. by destruct (PipelineRequest.RBACExpression req).
  - intros []. unfold apply_update, update_of. cbn. by destruct (PipelineRequest.ResumeEnabled req).
Qed.

(** Synchronising the schedules leaves the table of pipelines alone. *)
Definition same_pipelines (d d' : db) : Prop := db_pipelines d' = db_pipelines d.
#[local] Instance same_pipelines_preorder : PreOrder same_pipelines.
Proof. split; unfold same_pipelines; [by intros ?|]. intros ? ? ? ? ?. by etrans. Qed.
#[local] Instance same_pipelines_faults : FaultInsensitive same_pipelines.
Proof. by intros d fs. Qed.

Lemma syncSchedules_same_pipelines parse p : preserves same_pipelines (syncSchedules parse p).
Proof.
  unfold syncSchedules. case_match; [by apply preserves_ret|].
  destruct (result_bind _ _) as [l|]; [|by apply preserves_fail].
  apply preserves_bind; [apply _|apply preserves_gets; apply _|intros now].
  apply preserves_bind; [apply _| |intros _].
  - induction l as [|x l IH]; cbn [sync_each]; [by apply preserves_ret|].
    case_match; [|by apply preserves_fail]. apply preserves_bind; [apply _|by intros d|intros id].
    apply preserves_bind; [apply _| |intros _; exact IH]. apply preserves_wrap.
    unfold SaveSchedule. apply preserves_bind; [apply _|apply preserves_gets; apply _|intros t].
    apply preserves_wrap, preserves_exec; [apply _..|]. intros d. by repeat case_match.
  - apply preserves_wrap. unfold PruneSchedulesByPipeline, deleteAllSchedules.
    case_match; apply preserves_wrap, preserves_update; [apply _..|done|apply _|apply _|done].
Qed.
End saving_rows.

(** ** Properties *)
Section properties.
Context `{!AccessLang, !TemplateEngine, !UniqueIDs, !OrderBy, !JsonText, !MapOrder, !Sha256, !Clockwork}.
Context {S : Type} `{!SecretsManager S, !SecretBackend S}.
Context (c : PipelinesController.t).

(** The one row of a name. *)
Lemma rows_named_cases name d :
  pipelines_wf d -> rows_named name d = [] \/
  exists row, rows_named name d = [row] /\ db_pipelines d !! pipelineScan.ID row = Some row /\
    pipelineScan.ID row <> "".
Proof.
  intros Hwf. destruct (rows_named name d) as [|row l] eqn:He; [by left|]. right.
  assert (row ∈ rows_named name d) as [Hn [id Hrow]]%elem_of_rows_named by (rewrite He; left).
  pose proof (rows_named_unique name id row d Hwf Hrow Hn) as Hone. rewrite He in Hone.
  injection Hone as ->. destruct (proj1 Hwf id row Hrow) as [<- Hne]. by exists row.
Qed.

(** The row a save makes of the one there was. *)
Definition saved_row (name content driver contentType : string) (now : time)
    (old : option pipelineScan.t) : pipelineScan.t :=
  match old with
  | Some row => resave content contentType driver (Unix now) row
  | None => new_row (PipelineID name content) name content contentType driver (Unix now)
  end.
Definition saved_id (name content : string) (old : option pipelineScan.t) : string :=
  match old with Some row => pipelineScan.ID row | None => PipelineID name content end.

Lemma SavePipeline_cases name content driver contentType d :
  db_faults d = [] -> pipelines_wf d ->
  let old := head (rows_named name d) in
  let id := saved_id name content old in
  (exists e d', SavePipeline name content driver contentType d = (Err e, d')) \/
  exists p, SavePipeline name content driver contentType d =
    (Ok p, set_pipelines (insert id (saved_row name content driver contentType (db_now d) old)) d) /\
    Pipeline.ID p = id /\ Pipeline.Content p = content.
Proof.
  intros Hf Hwf. rewrite SavePipeline_no_faults by done.
  destruct (rows_named_cases name d Hwf) as [->|(row & -> & Hrow & Hne)]; cbn.
  - case_decide; [by left; eexists _, _|]. right. by eexists.
  - right. rewrite decide_False by done. by eexists.
Qed.

(** The requests that name a pipeline, and the list of pipelines. *)
Lemma denied_requests caller id row (s : api S) :
  pipelines_wf (sv_db (ap_svc s)) -> db_pipelines (sv_db (ap_svc s)) !! id = Some row ->
  scope_ok (S := S) (PipelineScope id) -> visible caller (pipelineScan.toStorage row) = false ->
  (forall r, refused (serve_pipeline c caller id r) s) /\
  (forall parse body, refused (Upsert c parse caller (pipelineScan.Name row) body) s) /\
  (forall fts page perPage, exists a s',
     Index fts caller page perPage s = (Ok a, s') /\ untouched s s' /\
     forall res it, a = APage res -> it ∈ PaginationResult.Items res -> PipelineAPIResponse.ID it <> id).
Proof.
  intros Hwf Hrow Hok Hv. split; [|split].
  - intros r. by apply (serve_refused _ _ _ row).
  - intros parse body. destruct (proj1 Hwf id row Hrow) as [Hid _].
    apply (Upsert_refused c parse caller _ body row); [|by rewrite Hid|done].
    by apply (rows_named_unique _ id).
  - intros fts page perPage. unfold Index. destruct (parsePagination page perPage) as [pg per].
    destruct (SearchPipelines_read fts "" pg per (sv_db (ap_svc s))) as [Hs Hr].
    apply (untouched_db (SearchPipelines fts "" pg per) s) in Hs. revert Hs.
    unfold bind, attempt, on_db. cbn [get_db put_db api_has_db].
    destruct (SearchPipelines fts "" pg per _) as [[res|e] d]; cbn in *; intros Hu;
      eexists _, _; (split; [done|]); (split; [done|]); [|done].
    intros res' it [= <-] Hin. cbn in Hin. apply list_elem_of_fmap in Hin as (p & -> & Hin).
    apply list_elem_of_In, filter_In in Hin as [Hin Hvis]. rewrite <- list_elem_of_In in Hin.
    destruct (Hr res eq_refl p Hin) as (row' & Hrow' & ->).
    unfold pipeline_rows in Hrow'. apply list_elem_of_fmap in Hrow' as ([k r'] & -> & Hk%elem_of_map_to_list).
    destruct (proj1 Hwf k r' Hk) as [Hkid _]. cbn. intros Heq. rewrite Hkid in Heq. subst k.
    simplify_eq. cbn in Hvis. congruence.
Qed.

(** C23: what a save does. With a database that does not fail, a request to save
    a pipeline is refused or saves it. Saved, the pipeline keeps its id under
    its name (a new one is derived from the name and the content), the caller
    had access to what was there, the row has the new content and the fields
    the request sets and keeps the others, no other pipeline changes, and the
    secrets of its scope (and no others) are the old ones with those of the
    request over them. *)
Theorem Upsert_saves parse caller name body (s : api S) m :
  db_faults (sv_db (ap_svc s)) = [] -> pipelines_wf (sv_db (ap_svc s)) -> holds (ap_mgr s) m ->
  (forall req, body = Ok req ->
     scope_ok (S := S) (PipelineScope (PipelineID name (PipelineRequest.Content req)))) ->
  scopes_ok name s ->
  exists a s', Upsert c parse caller name body s = (Ok a, s') /\
  (refuses a \/ exists req r, body = Ok req /\ a = APipeline r /\
    let d := sv_db (ap_svc s) in
    let req := with_driver c req in
    let old := head (rows_named name d) in
    let id := match old with
              | Some row => pipelineScan.ID row
              | None => PipelineID name (PipelineRequest.Content req) end in
    (forall row, old = Some row -> visible caller (pipelineScan.toStorage row) = true) /\
    PipelineAPIResponse.ID r = id /\ PipelineAPIResponse.Content r = PipelineRequest.Content req /\
    db_pipelines (sv_db (ap_svc s')) = <[id := upserted name req (db_now d) old]> (db_pipelines d) /\
    exists m', holds (ap_mgr s') m' /\ forall sc k, m' !! (sc, k) =
      if decide (sc = PipelineScope id) then saved_secret req k (m !! (sc, k)) else m !! (sc, k)).
Proof.
  intros Hf Hwf Hm Hnew Hok.
  destruct body as [req|e]; cbn [Upsert]; [|eexists _, s; split; [done|]; left; unfold refuses; cbn; lia].
  specialize (Hnew req eq_refl).
  destruct (validateUpsertRequest_cases c name req s Hok) as (r & s1 & Hval & Hu1 & Hr).
  rewrite (bind_ok _ _ _ _ _ Hval). destruct r as [req'|a]; [|exists a, s1; split; [done|by left]].
  destruct Hr as (-> & _ & _). set (req' := with_driver c req) in *.
  pose proof (untouched_quiet _ _ Hf Hu1) as Hs1.
  destruct (upsertCheck_cases caller name s1) as (r & s2 & Hchk & Hu2 & Hr2).
  rewrite (bind_ok _ _ _ _ _ Hchk). destruct r as [existing|a]; [|exists a, s2; split; [done|by left]].
  rewrite <- Hs1 in Hf. pose proof (untouched_quiet _ _ Hf Hu2) as Hs2. rewrite Hs1 in Hs2, Hr2, Hf.
  assert (Hm2 : holds (ap_mgr s2) m) by (apply Hu2, Hu1, Hm). clear Hval Hchk Hu1 Hu2 Hs1 s1.
  set (d := sv_db (ap_svc s)) in *.
  assert (Hc : PipelineRequest.Content req' = PipelineRequest.Content req)
    by (unfold req', with_driver; by case_decide).
  destruct (SavePipeline_cases name (PipelineRequest.Content req') (PipelineRequest.Driver req')
    (PipelineRequest.ContentType req') d Hf Hwf) as [(e & d' & Hsave)|(p & Hsave & Hid & Hcont)].
  { rewrite (bind_ok _ _ _ (Err e) (mkApi (set_db d' (ap_svc s)) (ap_mgr s2)))
      by (unfold attempt, on_db; cbn [get_db put_db api_has_db]; rewrite Hs2; fold d; by rewrite Hsave).
    eexists _, _. split; [done|]. left. unfold refuses. cbn. lia. }
  set (old := head (rows_named name d)) in *. set (id := saved_id _ _ old) in *.
  set (row := saved_row _ _ _ _ _ _) in *.
  set (s3 := mkApi (set_db (set_pipelines (insert id row) d) (ap_svc s)) (ap_mgr s2)).
  rewrite (bind_ok _ _ _ (Ok p) s3)
    by (unfold attempt, on_db; cbn [get_db put_db api_has_db]; rewrite Hs2; fold d; by rewrite Hsave).
  assert (Hscope : scope_ok (S := S) (PipelineScope (Pipeline.ID p))).
  { rewrite Hid. unfold id, saved_id. destruct old as [orow|] eqn:Ho; [|by rewrite Hc].
    apply Hok. apply head_Some_elem_of, Ho. }
  unfold bind at 1, attempt, on_secrets. cbn [ap_mgr ap_svc s3].
  destruct (persistSecrets p req' (ap_mgr s2)) as [[[]|e] mgr'] eqn:Hp.
  2: { eexists _, _. split; [done|]. left. unfold refuses. cbn. lia. }
  apply (persistSecrets_ok p req' _ m) in Hp as (m' & Hm' & Hl); [|done..].
  destruct (upsertPostSave_updates c caller p req' row (set_pipelines (insert id row) d))
    as (r & d4 & Hpost & Hr4); [done|rewrite Hid; apply lookup_insert_eq|].
  unfold bind at 1, on_db at 1. cbn [get_db put_db api_has_db ap_svc ap_mgr sv_db set_db].
  rewrite Hpost. destruct r as [p'|a]; [|eexists _, _; split; [done|by left]].
  destruct Hr4 as (Hid' & Hcont' & ->). unfold bind, ignore, on_db.
  cbn [get_db put_db api_has_db ap_svc ap_mgr sv_db set_db].
  pose proof (syncSchedules_same_pipelines parse p'
    (set_pipelines (insert (Pipeline.ID p) (apply_update (update_of req') row))
       (set_pipelines (insert id row) d))) as Hsync.
  destruct (syncSchedules parse p' _) as [rs d5]. unfold same_pipelines in Hsync. cbn in Hsync.
  eexists _, _. split; [done|]. right. exists req, (toPipelineAPIResponse p').
  split; [done|]. split; [done|]. cbn zeta. fold req'. fold old. split; [|split; [|split; [|split]]].
  - intros orow Ho. destruct (rows_named_cases name d Hwf) as [Hn|(row1 & Hn & _)];
      [unfold old in Ho; by rewrite Hn in Ho|].
    unfold old in Ho. rewrite Hn in Ho. injection Ho as <-.
    destruct existing as [q|]; [|by rewrite Hn in Hr2].
    destruct Hr2 as (row' & Hin & -> & Hvis). rewrite Hn in Hin.
    apply list_elem_of_singleton in Hin as ->. done.
  - cbn. rewrite Hid', Hid. unfold id, saved_id. by destruct old.
  - cbn. by rewrite Hcont', Hcont.
  - cbn. rewrite Hsync, Hid, insert_insert_eq. unfold id, saved_id, row, upserted, saved_row. by destruct old.
  - exists m'. split; [exact Hm'|]. intros sc k. rewrite Hl, Hid. unfold id, saved_id. by destruct old.
Qed.

(** What deleting leaves. A deletion that is not refused removes the row
    with everything that refers to it and no secret of another scope; when the
    store of secrets does not fail, none of the pipeline's own is left. *)
Theorem Destroy_forgets caller id (s : api S) m :
  db_faults (sv_db (ap_svc s)) = [] -> PipelinesController.secretsMgr c = true ->
  holds (ap_mgr s) m -> scope_ok (S := S) (PipelineScope id) ->
  exists a s', Destroy c caller id s = (Ok a, s') /\
  (refuses a /\ untouched s s' \/ a = ANoContent /\
    let d := sv_db (ap_svc s) in
    (exists row, db_pipelines d !! id = Some row /\ visible caller (pipelineScan.toStorage row) = true) /\
    ap_svc s' = set_db (delete_pipeline id d) (ap_svc s) /\
    exists m', holds (ap_mgr s') m' /\ m' ⊆ m /\
      (forall slot, slot.1 <> PipelineScope id -> m' !! slot = m !! slot) /\
      (healthy (ap_mgr s) -> forall k, m' !! (PipelineScope id, k) = None)).
Proof.
  intros Hf Hmgr Hm Hok. set (d := sv_db (ap_svc s)) in *. unfold Destroy.
  destruct (GetPipeline_read id d) as [Hs Hr]. apply (untouched_db (GetPipeline id) s) in Hs. revert Hs Hr.
  unfold bind at 1, attempt at 1, on_db at 1 2. cbn [get_db put_db api_has_db].
  fold d. destruct (GetPipeline id d) as [[p|e] d1]; cbn; intros Hu Hr.
  2: { eexists _, _. split; [done|]. left. split; [|done]. apply lookup_failed_refuses. unfold refuses; cbn; lia. }
  destruct Hr as (row & Hrow & ->). destruct (visible caller (pipelineScan.toStorage row)) eqn:Hv.
  2: { destruct (denied_answer _ _ Hv) as (a & -> & Ha). eexists _, _. split; [done|]. by left. }
  rewrite (proj1 (visible_iff _ _) Hv). apply untouched_quiet in Hu; [|done]. cbn in Hu.
  assert (Hdel : DeletePipeline id d = (Ok tt, delete_pipeline id d)).
  { unfold DeletePipeline. run_sql Hf. rewrite Hrow. simpl. by run_sql Hf. }
  unfold bind, attempt, on_db at 1. cbn [get_db put_db api_has_db ap_svc ap_mgr]. rewrite Hu.
  fold d. rewrite Hdel, Hmgr. unfold ignore, on_secrets. cbn.
  pose proof (DeleteScope_spec (PipelineScope id) (ap_mgr s) m Hok Hm) as Hd.
  destruct (mgr_DeleteByScope _ _) as [r mgr']. eexists _, _. split; [done|]. right. split; [done|].
  split; [by exists row|]. split; [done|].
  destruct Hd as [[_ Hh]|[[Hno _] (m' & Hsub & Hout & Hh)]].
  - eexists. split; [exact Hh|]. split; [apply map_filter_subseteq|]. split.
    + intros slot Hne. destruct (m !! slot) as [v|] eqn:Hslot.
      * by apply map_lookup_filter_Some.
      * apply map_lookup_filter_None. by left.
    + intros _ k. apply map_lookup_filter_None. right. by intros v _ ?.
  - exists m'. split; [done|]. split; [done|]. split; [done|]. by intros ?.
Qed.
End properties.

(** ** Witnesses

    An access expression is the mail address of the one user it lets in; the
    store of secrets is SQLite. *)
Definition ex_lang : AccessLang := {|
  access_program := string;
  access_Compile := fun e => if decide (e = "bad") then Err (EMsg "unexpected token") else Ok e;
  access_Run := fun e user => Ok (bool_decide (User.Email user = e)) |}.

Section witnesses.
#[local] Existing Instances plain_crypto ex_lang ex_engine ex_clock counter_ids stable_order
  ex_text some_map_order toy_sha.
#[local] Instance ex_manager : SecretsManager (backend sdb) := sqlite_manager "k".
#[local] Instance ex_backend : SecretBackend (backend sdb) := sqlite_backend "k".

Definition ex_caller (email : string) : Caller.t :=
  Caller.mk (Some (User.mk email "" "" "" "github" "" [] [] ∅ [])) None false "req1".
Definition ex_row (id name rbac : string) : pipelineScan.t :=
  pipelineScan.mk id name "old" ContentTypeYAML "docker" 0 1 rbac "serial" "" 0 10 10.
Definition ex_api_db : db :=
  set_pipelines (fun _ => <["p1" := ex_row "p1" "build" "alice"]> {["p2" := ex_row "p2" "deploy" ""]})
    empty_db.
Definition ex_stored : backend sdb :=
  (run_ops [OpSet (PipelineScope "p1") "token" "s3cret"; OpSet (PipelineScope "p1") "driver" "docker"] ex_sdb).2.
Definition ex_api (faults : list bool) : api (backend sdb) :=
  mkApi (NewExecutionService (set_faults faults ex_api_db) 2 0 AllFeatures) ex_stored.
Definition ex_config : PipelinesController.t := PipelinesController.mk ["*"] AllFeatures "docker" true.
Definition ex_request : PipelineRequest.t :=
  PipelineRequest.mk "new" "js" "" "" (Some "hook") {["token" := "s3cret2"]} None None None None None.

Lemma ex_api_wf faults : pipelines_wf (sv_db (ap_svc (ex_api faults))).
Proof.
  split; simpl.
  - apply map_Forall_insert_2; [|apply map_Forall_singleton]; done.
  - intros id1 p1 id2 p2. rewrite !lookup_insert_Some, !lookup_singleton_Some. naive_solver.
Qed.
Definition ex_secret_map : secret_map :=
  (spec_ops [OpSet (PipelineScope "p1") "token" "s3cret"; OpSet (PipelineScope "p1") "driver" "docker"] ∅).2.
Lemma ex_stored_holds : holds ex_stored ex_secret_map.
Proof.
  apply run_ops_refine; [by apply Forall_true|split; [done|apply plain_random_fine]|].
  by apply (sqlite_holds_new "k" ex_sdb).
Qed.

Lemma ex_scope id : scope_ok (S := backend sdb) (PipelineScope id).
Proof. exact Logic.I. Qed.

Lemma ex_denied : visible (ex_caller "bob") (pipelineScan.toStorage (ex_row "p1" "build" "alice")) = false.
Proof. reflexivity. Qed.


Lemma Upsert_saves_witness :
  let s' := (Upsert ex_config (fun _ => Ok []) (ex_caller "alice") "build" (Ok ex_request) (ex_api [])).2 in
  pipelineScan.Content <$> db_pipelines (sv_db (ap_svc s')) !! "p1" = Some "new" /\
  exists m', holds (ap_mgr s') m' /\ m' !! (PipelineScope "p1", "token") = Some "s3cret2" /\
    m' !! (PipelineScope "p1", "webhook_secret") = Some "hook".
Proof.
  cbv zeta.
  destruct (Upsert_saves ex_config (fun _ => Ok []) (ex_caller "alice") "build" (Ok ex_request) (ex_api [])
    ex_secret_map eq_refl (ex_api_wf _) ex_stored_holds (fun _ _ => ex_scope _) (fun _ _ => ex_scope _))
    as (a & s' & He & Ha).
  assert (Hr : status_code a = 200%Z).
  { assert (Ok a = (Upsert ex_config (fun _ => Ok []) (ex_caller "alice") "build" (Ok ex_request) (ex_api [])).1)
      as Hc by by rewrite He.
    vm_compute in Hc. injection Hc as ->. reflexivity. }
  rewrite He. cbn [snd]. destruct Ha as [Ha|(req & r & [= <-] & _ & _ & _ & _ & Hrow & m' & Hm' & Hl)].
  { unfold refuses in Ha. lia. }
  split; [rewrite Hrow; vm_compute; reflexivity|]. exists m'. split; [exact Hm'|].
  split; rewrite Hl; vm_compute; reflexivity.
Defined.

Lemma Destroy_forgets_witness :
  let s' := (Destroy ex_config (ex_caller "alice") "p1" (ex_api [])).2 in
  db_pipelines (sv_db (ap_svc s')) !! "p1" = None /\
  exists m', holds (ap_mgr s') m' /\ m' !! (PipelineScope "p1", "token") = None.
Proof.
  cbv zeta.
  destruct (Destroy_forgets ex_config (ex_caller "alice") "p1" (ex_api []) ex_secret_map
    eq_refl eq_refl ex_stored_holds (ex_scope _)) as (a & s' & He & Ha).
  assert (Hr : status_code a = 204%Z).
  { assert (Ok a = (Destroy ex_config (ex_caller "alice") "p1" (ex_api [])).1) as Hc by by rewrite He.
    vm_compute in Hc. injection Hc as ->. reflexivity. }
  rewrite He. cbn [snd]. destruct Ha as [[Ha _]|(_ & _ & Hs & m' & Hm' & _ & _ & Hnone)].
  { unfold refuses in Ha. lia. }
  split; [rewrite Hs; vm_compute; reflexivity|]. exists m'. split; [exact Hm'|].
  apply Hnone. split; [reflexivity|apply plain_random_fine].
Defined.

(** ** What the handlers do where they should not *)

(** The check of the secrets comes before the check of access: a denied caller
    learns the name of a stored secret. *)
Lemma denied_learns_key :
  (Upsert ex_config (fun _ => Ok []) (ex_caller "bob") "build"
     (Ok (PipelineRequest.mk "new" "js" "" "" None {["x" := "y"]} None None None None None)) (ex_api [])).1 =
  Ok (AError 400 ("missing existing secret key " ++ q "token"
                  ++ ": all existing secrets must be included on update")).
Proof. vm_compute. reflexivity. Qed.

(** The expression is checked after the pipeline is saved: the request is
    refused and the pipeline is there, open to everybody. *)
Definition ex_refused_save :=
  Upsert ex_config (fun _ => Ok []) (ex_caller "alice") "fresh"
    (Ok (PipelineRequest.mk "new" "js" "" "" None ∅ None (Some "bad") None None None)) (ex_api []).
Lemma refused_save_stays :
  status_code <$> (match ex_refused_save.1 with Ok a => Some a | Err _ => None end) = Some 400%Z /\
  pipelineScan.RBACExpression <$> rows_named "fresh" (sv_db (ap_svc ex_refused_save.2)) = [""].
Proof. split; vm_compute; reflexivity. Qed.

(** The lookup of the stored id is allowed to fail: the answer is 200 with an
    id nobody has, under which the secrets are stored. *)
Definition ex_misplaced :=
  Upsert ex_config (fun _ => Ok []) (ex_caller "bob") "deploy"
    (Ok (PipelineRequest.mk "new" "js" "" "" None {["k" := "v"]} None None None None None))
    (ex_api [false; false; true]).
Definition answered_id (a : result answer) : option string :=
  match a with Ok (APipeline r) => Some (PipelineAPIResponse.ID r) | _ => None end.
Lemma failed_lookup_misplaces :
  let id := PipelineID "deploy" "new" in
  answered_id ex_misplaced.1 = Some id /\
  db_pipelines (sv_db (ap_svc ex_misplaced.2)) !! id = None /\
  (mgr_Get (PipelineScope id) "k" (ap_mgr ex_misplaced.2)).1 = Ok "v".
Proof. split; [|split]; vm_compute; reflexivity. Qed.

(** The answer to a save describes the pipeline as not paused. *)
Definition ex_resaved :=
  Upsert ex_config (fun _ => Ok []) (ex_caller "bob") "deploy"
    (Ok (PipelineRequest.mk "new" "js" "" "" None ∅ None None None None None)) (ex_api []).
Lemma save_answers_unpaused :
  match ex_resaved.1 with Ok (APipeline r) => PipelineAPIResponse.Paused r = false | _ => False end /\
  pipelineScan.Paused <$> db_pipelines (sv_db (ap_svc ex_resaved.2)) !! "p2" = Some 1%Z.
Proof. split; vm_compute; reflexivity. Qed.
End witnesses.
