(* ===== verification/RunsApi.v ===== *)
(** * The runs API and the uploads of a synchronous run

    Status, tasks, stop and resume of a run (server/api_runs_controller.go), the
    switch of a schedule (server/api_schedules_controller.go), and the endpoint
    that runs a pipeline at once on an uploaded working directory
    (server/api_pipelines_run.go). [capped_upload]: what the cap on an upload
    lets through; [denied_changes_nothing]: which requests on a pipeline and its
    runs its access expression refuses; [Stop_settles]: what stopping a run
    does. *)
From S2P Require Import Prelude Storage Json Db GoStrings Runs Paging Tasks Pipelines Config.
From S2P Require Import Sql Schedules Server Admission Execution Secrets Tokens Encryption SecretStore Shares.
From S2P Require Import Ids PipelinesApi.
From Stdlib Require Import Ascii.
Open Scope string_scope.

#[local] Existing Instance server_namespace.

(** ** Answers *)
Module APIRunTask.
Record t := mk { Path : string; Payload : json }.
End APIRunTask.

Inductive run_answer : Type :=
  | RunError (code : Z) (error : string)
  | RunText (code : Z) (msg : string)                                  (* htmx *)
  | RunQueueFull (in_flight max_in_flight max_queue_size : Z)          (* 429 *)
  | RunStatus_ (run : PipelineRun.t)                                   (* 200 *)
  | RunTasks (l : list APIRunTask.t)                                   (* 200 *)
  | RunTaskPage (page : PaginationResult.t APIRunTask.t)               (* 200 *)
  | RunAction (runID status : string)                                  (* 200 *)
  | RunToast (trigger : string)                                        (* 200, htmx *)
  | RunOk                                                              (* 200 *)
  | RunStream (pipeline : Pipeline.t) (run : PipelineRun.t) (args : list string). (* 200, events *)

Definition run_code (a : run_answer) : Z :=
  match a with
  | RunError code _ | RunText code _ => code
  | RunQueueFull _ _ _ => 429
  | _ => 200
  end.

Definition run_internal : run_answer := RunError 500 "internal server error".
Definition run_lookup_failed (what : string) (e : err) : run_answer :=
  if errors_Is e SNotFound then RunError 404 (what ++ " not found") else run_internal.

(** The refusal of [checkPipelineRBAC], as an answer of this API. *)
Definition of_refusal (a : answer) : run_answer := RunError (status_code a)
  (match a with AError _ msg => msg | _ => "" end).

(** ** Strings *)

(** [strings.Index] and the slice from there: the suffix that begins with the
    first occurrence. *)
Fixpoint from_first (s sub : string) : option string :=
  if HasPrefix s sub then Some s
  else match s with EmptyString => None | String _ s' => from_first s' sub end.

Definition normalizeRunTaskPath (path runPrefix : string) : string :=
  default path (from_first path runPrefix).

Section runs_api.
Context `{!AccessLang, !TemplateEngine, !UniqueIDs, !OrderBy, !JsonText, !MapOrder}.

(** [None]: access granted. *)
Definition checkRunRBAC (caller : Caller.t) (run : PipelineRun.t) : ST svc (option run_answer) :=
  let! found := attempt (on_db (GetPipeline (PipelineRun.PipelineID run))) in
  ret match found with
      | Err e => Some (run_lookup_failed "pipeline" e)
      | Ok p => of_refusal <$> checkPipelineRBAC caller p
      end.

Definition Status (caller : Caller.t) (runID : string) : ST svc run_answer :=
  let! found := attempt (on_db (GetRun runID)) in
  match found with
  | Err e => ret (run_lookup_failed "run" e)
  | Ok run =>
      let! denied := checkRunRBAC caller run in
      match denied with Some a => ret a | None => ret (RunStatus_ run) end
  end.

Definition to_task (prefix : string) (r : Result.t) : APIRunTask.t :=
  APIRunTask.mk (normalizeRunTaskPath (Result.Path r) prefix) (JObj (Result.Payload r)).

Definition tasksPaginated (prefix page perPage : string) : ST svc run_answer :=
  let '(page, perPage) := parsePagination page perPage in
  let! found := attempt (on_db (GetAllPaginated prefix ["*"] page perPage)) in
  ret match found with
      | Err _ => run_internal
      | Ok paged => RunTaskPage (PaginationResult.mk (to_task prefix <$> PaginationResult.Items paged)
          (PaginationResult.Page paged) (PaginationResult.PerPage paged)
          (PaginationResult.TotalItems paged) (PaginationResult.TotalPages paged)
          (PaginationResult.HasNext paged))
      end.

Definition tasksByPath (prefix taskPath : string) : ST svc run_answer :=
  let lookupPath := if negb (HasPrefix taskPath "/") then prefix ++ TrimPrefix taskPath "/" else taskPath in
  if negb (HasPrefix lookupPath prefix) then ret (RunError 400 "task path must be scoped to the run")
  else
    let! found := attempt (on_db (Get lookupPath)) in
    ret match found with
        | Err e => run_lookup_failed "task" e
        | Ok payload => RunTasks [APIRunTask.mk lookupPath payload]
        end.

(** The query parameters are empty when absent. *)
Definition Tasks (caller : Caller.t) (runID path page perPage : string) : ST svc run_answer :=
  let! found := attempt (on_db (GetRun runID)) in
  match found with
  | Err e => ret (run_lookup_failed "run" e)
  | Ok run =>
      let! denied := checkRunRBAC caller run in
      match denied with
      | Some a => ret a
      | None =>
          let prefix := "/pipeline/" ++ runID ++ "/" in
          if decide (path <> "") then tasksByPath prefix path
          else if decide (page <> "" \/ perPage <> "") then tasksPaginated prefix page perPage
          else
            let! found := attempt (on_db (GetAll prefix ["*"])) in
            ret (match found with
                 | Err _ => run_internal | Ok results => RunTasks (to_task prefix <$> results) end)
      end
  end.

(** ** Stopping *)
Definition stopOrphanedRun (caller : Caller.t) (runID : string) : ST svc run_answer :=
  ignore (on_db (UpdateStatusForPrefix ("/pipeline/" ++ runID ++ "/") ["pending"; "running"] "aborted")) ;;;
  let! updated := attempt (on_db (UpdateRunStatus runID RunStatusFailed "Run stopped by user")) in
  ret match updated with
      | Err _ => run_internal
      | Ok _ => if Caller.htmx caller then RunToast (toast "Run stopped") else RunAction runID "stopped"
      end.

Definition Stop (caller : Caller.t) (runID : string) : ST svc run_answer :=
  let! found := attempt (on_db (GetRun runID)) in
  match found with
  | Err e => ret (run_lookup_failed "run" e)
  | Ok run =>
      let! denied := checkRunRBAC caller run in
      match denied with
      | Some a => ret a
      | None =>
          if decide (PipelineRun.Status run <> RunStatusRunning /\ PipelineRun.Status run <> RunStatusQueued)
          then ret (RunError 409 "run is not currently in flight")
          else
            let! stopped := attempt (StopRun runID) in
            match stopped with
            | Err e => if errors_Is e SRunNotInFlight then stopOrphanedRun caller runID else ret run_internal
            | Ok _ => ret (if Caller.htmx caller then RunToast (toast "Stopping run...")
                           else RunAction runID "stopping")
            end
      end
  end.

(** ** Resuming *)
Definition respondQueueFull (caller : Caller.t) : ST svc run_answer :=
  if Caller.htmx caller then ret (RunText 429 "Execution queue is full")
  else gets (fun s => RunQueueFull (sv_inFlight s) (sv_maxInFlight s) (sv_maxQueueSize s)).

Definition resumeValidate (caller : Caller.t) (runID : string)
    : ST svc (PipelineRun.t * Pipeline.t + run_answer) :=
  let! found := attempt (on_db (GetRun runID)) in
  match found with
  | Err e => ret (inr (run_lookup_failed "run" e))
  | Ok run =>
      if decide (PipelineRun.Status run <> RunStatusFailed) then
        ret (inr (RunError 409 "only failed runs can be resumed"))
      else
        let! found := attempt (on_db (GetPipeline (PipelineRun.PipelineID run))) in
        ret match found with
            | Err _ => inr run_internal
            | Ok p => match checkPipelineRBAC caller p with
                      | Some denied => inr (of_refusal denied) | None => inl (run, p) end
            end
  end.

Definition Resume (features : list Feature) (caller : Caller.t) (runID : string) : ST svc run_answer :=
  if negb (IsFeatureEnabled FeatureResume features) then ret (RunError 403 "resume feature is not enabled")
  else
    let! valid := resumeValidate caller runID in
    match valid with
    | inr a => ret a
    | inl (run, p) =>
        let actor := (RequestActorFromContext (Caller.actor caller)).1 in
        let! resumed := attempt (ResumePipeline (Caller.requestID caller) actor p run) in
        match resumed with
        | Err e => if errors_Is e SQueueFull then respondQueueFull caller else ret run_internal
        | Ok _ => ret (if Caller.htmx caller then RunToast (toast "Resuming run...")
                       else RunAction runID "resuming")
        end
    end.

(** ** Schedules: the body is what decoding gives *)
Definition UpdateEnabled (id : string) (body : result bool) : ST svc run_answer :=
  match body with
  | Err e => ret (RunError 400 ("invalid request body: " ++ Error e))
  | Ok enabled =>
      let! updated := attempt (on_db (UpdateScheduleEnabled id enabled)) in
      ret match updated with
          | Err e => run_lookup_failed "schedule" e
          | Ok _ => RunOk
          end
  end.
End runs_api.

(** ** Uploads

    A reader answers [Read] of a buffer of [n] bytes. *)
Inductive io_error : Type :=
  | EOF                      (* io.EOF *)
  | WorkdirTooLarge          (* ErrWorkdirTooLarge *)
  | ReadFailed (e : err).

Class Reader (R : Type) : Type := {
  Read : nat -> R -> list ascii * option io_error * R }.

Definition DefaultMaxWorkdirBytes : Z := 2 ^ 30.

Record capped (R : Type) := mkCapped { cp_inner : R; cp_cap : Z; cp_read : Z }.
Arguments mkCapped {R}.
Arguments cp_inner {R}.
Arguments cp_cap {R}.
Arguments cp_read {R}.

Definition ends_or_goes_on (e : option io_error) : bool :=
  match e with None | Some EOF => true | _ => false end.
Definition wrap_read (e : option io_error) : option io_error :=
  match e with Some (ReadFailed e) => Some (ReadFailed (EWrap "cappedRead" e)) | _ => e end.

Definition cappedRead {R} `{!Reader R} (n : nat) (c : capped R)
    : list ascii * option io_error * capped R :=
  let remaining := (cp_cap c - cp_read c)%Z in
  if (remaining <=? 0)%Z then ([], Some WorkdirTooLarge, c)
  else
    let n := if (remaining <? Z.of_nat n)%Z then Z.to_nat remaining else n in
    let '(data, e, inner) := Read n (cp_inner c) in
    let total := (cp_read c + Z.of_nat (length data))%Z in
    if (cp_cap c <=? total)%Z && ends_or_goes_on e then
      let '(peek, _, inner) := Read 1 inner in
      if negb (bool_decide (peek = [])) then (data, Some WorkdirTooLarge, mkCapped inner (cp_cap c) total)
      else (data, wrap_read e, mkCapped inner (cp_cap c) total)
    else (data, wrap_read e, mkCapped inner (cp_cap c) total).

(** What the multipart reader gives: the name of each part and its content. *)
Module part.
Record t := mk { FormName : string; Body : string }.
End part.

Section run_input.
Context {R : Type}.
(** [json.Unmarshal] into the arguments there are, the decoding of the other
    kind of body, and the opening of a compressed stream. *)
Context (unmarshal_args : string -> list string -> list string).
Context (zstd_NewReader : string -> result R).

Fixpoint parse_parts (maxWorkdirBytes : Z) (parts : list part.t) (args : list string)
    : list string * option (capped R) :=
  match parts with
  | [] => (args, None)
  | p :: parts =>
      if decide (part.FormName p = "args") then
        parse_parts maxWorkdirBytes parts (unmarshal_args (part.Body p) args)
      else if decide (part.FormName p = "workdir") then
        match zstd_NewReader (part.Body p) with
        | Err _ => parse_parts maxWorkdirBytes parts args
        | Ok zr => (args, Some (mkCapped zr maxWorkdirBytes 0))
        end
      else parse_parts maxWorkdirBytes parts args
  end.

(** [inl]: the parts of a multipart body; [inr]: the arguments of a JSON one. *)
Definition parseRunInput (maxWorkdirBytes : Z) (body : list part.t + list string)
    : list string * option (capped R) :=
  let maxWorkdirBytes := if (maxWorkdirBytes <=? 0)%Z then DefaultMaxWorkdirBytes else maxWorkdirBytes in
  match body with
  | inl parts => parse_parts maxWorkdirBytes parts []
  | inr args => (args, None)
  end.
End run_input.

Section run.
Context `{!AccessLang, !TemplateEngine, !UniqueIDs, !OrderBy, !JsonText, !MapOrder}.

(** Before the stream has begun. *)
Definition runHandleSyncError (e : err) : run_answer :=
  if errors_Is e SNotFound then RunError 404 "pipeline not found" else RunError 500 (Error e).

(** Up to the moment the stream of events begins. *)
Definition Run (caller : Caller.t) (name : string) (args : list string) : ST svc run_answer :=
  let! found := attempt (on_db (GetPipelineByName name)) in
  match found with
  | Err e => ret (run_lookup_failed "pipeline" e)
  | Ok p =>
      match checkPipelineRBAC caller p with
      | Some denied => ret (of_refusal denied)
      | None =>
          if Pipeline.Paused p then ret (RunError 409 "pipeline is paused")
          else
            let! admitted := attempt (RunByNameSync_admit
              (RequestActorFromContext (Caller.actor caller)).1 name args) in
            ret match admitted with
                | Err e => runHandleSyncError e
                | Ok (p, run) => RunStream p run args
                end
      end
  end.
End run.

(** ** The cap on an upload *)

(** A stream of bytes behind [Read]: what is read is what it contains, the end
    is announced at the end, and a read without an error brings something. *)
Class ByteStream (R : Type) `{!Reader R} : Type := {
  contents : R -> list ascii;
  Read_law : forall n r, let '(data, e, r') := Read n r in
    contents r = (data ++ contents r')%list /\ length data <= n /\
    match e with
    | None => n = 0 \/ data <> []
    | Some EOF => contents r' = []
    | Some _ => True
    end }.

(** Reading to the first error with buffers of any sizes. *)
Fixpoint drain {R} `{!Reader R} (sizes : nat -> nat) (fuel i : nat) (c : capped R)
    : option (list ascii * io_error) :=
  match fuel with
  | 0 => None
  | S fuel =>
      let '(data, e, c) := cappedRead (sizes i) c in
      match e with
      | Some e => Some (data, e)
      | None =>
          match drain sizes fuel (S i) c with
          | Some (rest, e) => Some ((data ++ rest)%list, e)
          | None => None
          end
      end
  end.

Section upload.
Context {R : Type} `{!Reader R, !ByteStream R}.

(** The stream never breaks off. *)
Definition sound_stream : Prop := forall n r, ends_or_goes_on (Read n r).1.2 = true.

(** One read of the capped stream. *)
Lemma cappedRead_cases n (c : capped R) :
  0 < n -> (cp_read c <= cp_cap c)%Z ->
  let '(data, e, c') := cappedRead n c in
  cp_cap c' = cp_cap c /\ cp_read c' = (cp_read c + Z.of_nat (length data))%Z /\
  (cp_read c' <= cp_cap c)%Z /\ data `prefix_of` contents (cp_inner c) /\
  (e = None -> data <> [] /\ contents (cp_inner c) = (data ++ contents (cp_inner c'))%list) /\
  (sound_stream ->
     match e with
     | None => True
     | Some EOF => contents (cp_inner c) = data
     | Some WorkdirTooLarge => cp_read c' = cp_cap c
     | Some (ReadFailed _) => False
     end).
Proof.
  intros Hn Hle. unfold cappedRead. destruct (Z.leb_spec (cp_cap c - cp_read c) 0) as [Hfull|Hroom].
  { cbn. split_and!; [done|lia|lia|apply prefix_nil|done|lia]. }
  set (n' := if (cp_cap c - cp_read c <? Z.of_nat n)%Z then Z.to_nat (cp_cap c - cp_read c) else n).
  assert (Hn' : 0 < n' /\ (Z.of_nat n' <= cp_cap c - cp_read c)%Z).
  { unfold n'. destruct (Z.ltb_spec (cp_cap c - cp_read c) (Z.of_nat n)); lia. }
  destruct Hn' as [Hpos Hmax]. unfold sound_stream.
  pose proof (Read_law n' (cp_inner c)) as Hlaw. 
  assert (Hends : sound_stream -> ends_or_goes_on (Read n' (cp_inner c)).1.2 = true) by (intros Hs; apply Hs).
  destruct (Read n' (cp_inner c)) as [[data e] r1]. destruct Hlaw as (Hcont & Hlen & He).
  assert (Hpre : data `prefix_of` contents (cp_inner c)) by (rewrite Hcont; by apply prefix_app_r).
  cbn [fst snd] in Hends. destruct (_ && ends_or_goes_on e) eqn:Hcap.
  - apply andb_true_iff in Hcap as [Hcap%Z.leb_le Hgo].
    pose proof (Read_law 1 r1) as Hpeek. destruct (Read 1 r1) as [[pk ep] r2]. destruct Hpeek as (Hpk & _ & _).
    destruct (decide (pk = [])) as [-> |Hne].
    + rewrite bool_decide_true by done. cbn. split_and!; [done|done|lia|done| |].
      * intros Hw. destruct e as [[]|]; try done. destruct He as [?|He]; [lia|]. split; [done|]. by rewrite Hcont, Hpk.
      * intros _. destruct e as [[]|]; try done. cbn. by rewrite Hcont, He, app_nil_r.
    + rewrite bool_decide_false by done. cbn. split_and!; [done|done|lia|done|done|]. intros _. lia.
  - cbn. split_and!; [done|done|lia|done| |].
    + intros Hw. destruct e as [[]|]; try done. destruct He as [?|He]; [lia|]. by split.
    + intros Hs. specialize (Hends Hs). destruct e as [[]|]; try done. cbn. by rewrite Hcont, He, app_nil_r.
Qed.

Lemma drain_cases sizes fuel : forall i (c : capped R),
  (forall i, 0 < sizes i) -> (cp_read c <= cp_cap c)%Z -> length (contents (cp_inner c)) < fuel ->
  exists out e, drain sizes fuel i c = Some (out, e) /\ out `prefix_of` contents (cp_inner c) /\
    let total := (cp_read c + Z.of_nat (length (contents (cp_inner c))))%Z in
    (cp_read c + Z.of_nat (length out) <= cp_cap c)%Z /\
    (sound_stream ->
       e = EOF /\ out = contents (cp_inner c) \/
       e = WorkdirTooLarge /\ (cp_read c + Z.of_nat (length out) = cp_cap c)%Z).
Proof.
  induction fuel as [|fuel IH]; intros i c Hsz Hle Hfuel; [lia|]. cbn [drain].
  pose proof (cappedRead_cases (sizes i) c (Hsz i) Hle) as Hread.
  destruct (cappedRead (sizes i) c) as [[data e] c'].
  destruct Hread as (Hcap & Hrd & Hle' & Hpre & Hgo & Hend). destruct e as [e|].
  - exists data, e. split; [done|]. split; [done|]. split; [lia|]. intros Hs. specialize (Hend Hs).
    destruct e; [by left|right; split; [done|lia]|done].
  - destruct (Hgo eq_refl) as [Hne Hcont]. rewrite Hcont, length_app in Hfuel.
    assert (length data <> 0) by by destruct data.
    destruct (IH (S i) c' Hsz ltac:(lia) ltac:(lia)) as (out & e & Hd & Hp & Hb & Hs). rewrite Hd.
    exists (data ++ out)%list, e. split; [done|]. split; [rewrite Hcont; by apply prefix_app|].
    rewrite length_app. split; [lia|]. intros Hsound. destruct (Hs Hsound) as [[-> ->]|[-> He]].
    + left. by rewrite Hcont.
    + right. split; [done|lia].
Qed.

(** C21: what the cap on an upload lets through. However the upload is cut into
    reads, reading it to the end stops; what has come through is a prefix of
    the decompressed stream and no longer than the cap (by default a
    gibibyte). When the stream does not break off, either all of it came
    through and the end is reported, or the cap was reached and the error says
    so. *)
Theorem capped_upload unmarshal_args (zstd_NewReader : string -> result R) maxWorkdirBytes body args c
    (sizes : nat -> nat) :
  (forall i, 0 < sizes i) ->
  parseRunInput unmarshal_args zstd_NewReader maxWorkdirBytes body = (args, Some c) ->
  let cap := if (maxWorkdirBytes <=? 0)%Z then DefaultMaxWorkdirBytes else maxWorkdirBytes in
  (exists parts p, body = inl parts /\ p ∈ parts /\ part.FormName p = "workdir" /\
     zstd_NewReader (part.Body p) = Ok (cp_inner c)) /\
  let data := contents (cp_inner c) in
  exists out e, drain sizes (S (length data)) 0 c = Some (out, e) /\
    out `prefix_of` data /\ (Z.of_nat (length out) <= cap)%Z /\
    (sound_stream ->
       e = EOF /\ out = data \/ e = WorkdirTooLarge /\ Z.of_nat (length out) = cap).
Proof.
  intros Hsz Hparse cap. unfold parseRunInput in Hparse. fold cap in Hparse.
  assert (Hcap : (0 < cap)%Z).
  { unfold cap, DefaultMaxWorkdirBytes. destruct (Z.leb_spec maxWorkdirBytes 0); lia. }
  destruct body as [parts|a]; [|done].
  assert (Hpart : exists p, p ∈ parts /\ part.FormName p = "workdir" /\
    exists zr, zstd_NewReader (part.Body p) = Ok zr /\ c = mkCapped zr cap 0).
  { revert Hparse. generalize (@nil string). clear -cap.
    induction parts as [|p parts IH]; intros acc; cbn [parse_parts]; [done|].
    assert (Hlater : forall acc, parse_parts unmarshal_args zstd_NewReader cap parts acc = (args, Some c) ->
      exists p0, p0 ∈ p :: parts /\ part.FormName p0 = "workdir" /\
        exists zr, zstd_NewReader (part.Body p0) = Ok zr /\ c = mkCapped zr cap 0).
    { intros acc' (p0 & Hin & ?)%IH. exists p0. split; [by right|done]. }
    destruct (decide _); [by apply Hlater|]. destruct (decide _) as [Hn|]; [|by apply Hlater].
    destruct (zstd_NewReader _) as [zr|] eqn:Hz; [|by apply Hlater]. intros [= _ <-].
    exists p. split; [by left|]. split; [done|]. by exists zr. }
  destruct Hpart as (p & Hin & Hname & zr & Hz & ->). split; [by exists parts, p|]. cbn [cp_inner]. cbv zeta.
  destruct (drain_cases sizes (S (length (contents zr))) 0 (mkCapped zr cap 0) Hsz ltac:(cbn; lia) ltac:(cbn; lia))
    as (out & e & Hd & Hp & Hb & Hs). exists out, e. cbn in Hb, Hs. split; [done|]. split; [done|].
  split; [lia|]. intros Hsound. destruct (Hs Hsound) as [?|[? ?]]; [by left|right]. split; [done|lia].
Qed.
End upload.

(** ** Stopping and access *)
Section runs_facts.
Context `{!AccessLang, !TemplateEngine, !UniqueIDs, !OrderBy, !JsonText, !MapOrder}.

Lemma GetRun_read runID d :
  same_data d (GetRun runID d).2 /\
  match (GetRun runID d).1 with
  | Ok run => exists row, db_runs d !! runID = Some row /\ run = pipelineRunScan.toStorage row
  | Err e => errors_Is e SNotFound = true -> db_runs d !! runID = None
  end.
Proof.
  unfold GetRun, bind, wrap. pose proof (query_read (fun d => db_runs d !! runID) d) as [Hs Hr].
  destruct (query _ d) as [[row|e] d']; cbn in *; [|by subst].
  destruct Hr as [fs ->]. cbn in *. destruct (db_runs d !! runID) as [r|]; (split; [exact Hs|]); [by exists r|done].
Qed.

(** An answer of 400 or more, with the service and the data as they were. *)
Definition run_refused (m : ST svc run_answer) (s : svc) : Prop :=
  exists a d, m s = (Ok a, set_db d s) /\ (400 <= run_code a)%Z /\ same_data (sv_db s) d.

Lemma run_lookup_refuses what e : (400 <= run_code (run_lookup_failed what e))%Z.
Proof. unfold run_lookup_failed. case_match; cbn; lia. Qed.

Lemma of_refusal_code a : (400 <= status_code a)%Z -> (400 <= run_code (of_refusal a))%Z.
Proof. done. Qed.

(** Every handler of a run looks it up and asks for access to its pipeline
    first. *)
Lemma run_guarded caller runID row prow (k : PipelineRun.t -> ST svc run_answer) s :
  db_runs (sv_db s) !! runID = Some row ->
  db_pipelines (sv_db s) !! pipelineRunScan.PipelineID row = Some prow ->
  visible caller (pipelineScan.toStorage prow) = false ->
  run_refused (let! found := attempt (on_db (GetRun runID)) in
               match found with
               | Err e => ret (run_lookup_failed "run" e)
               | Ok run =>
                   let! denied := checkRunRBAC caller run in
                   match denied with Some a => ret a | None => k run end
               end) s.
Proof.
  intros Hrow Hp Hv. unfold run_refused.
  destruct (GetRun_read runID (sv_db s)) as [Hs Hr]. unfold bind at 1, attempt at 1, on_db at 1.
  cbn [get_db put_db svc_has_db]. destruct (GetRun runID (sv_db s)) as [[run|e] d1]; cbn [fst snd] in *.
  2: { exists (run_lookup_failed "run" e), d1. split; [done|]. split; [apply run_lookup_refuses|done]. }
  destruct Hr as (row' & Hrow' & ->). simplify_eq.
  assert (Hp1 : db_pipelines d1 !! pipelineRunScan.PipelineID row = Some prow) by (destruct Hs as (fs & -> & _); exact Hp).
  unfold checkRunRBAC, bind, attempt, on_db, ret. cbn [get_db put_db svc_has_db sv_db set_db].
  destruct (GetPipeline_read (pipelineRunScan.PipelineID row) d1) as [Hs2 Hr2].
  cbn [pipelineRunScan.toStorage PipelineRun.PipelineID].
  destruct (GetPipeline _ d1) as [[p|e] d2]; cbn [fst snd] in *.
  - destruct Hr2 as (prow' & Hp2 & ->). simplify_eq. destruct (denied_answer _ _ Hv) as (a & Ha & Hc).
    rewrite Ha. cbn. exists (of_refusal a), d2. split; [done|]. split; [by apply of_refusal_code|by etrans].
  - exists (run_lookup_failed "pipeline" e), d2. split; [done|]. split; [apply run_lookup_refuses|by etrans].
Qed.

(** A caller whom the pipeline of a run denies cannot see, stop or resume it. *)
Lemma denied_run_refused caller runID row prow s :
  db_runs (sv_db s) !! runID = Some row ->
  db_pipelines (sv_db s) !! pipelineRunScan.PipelineID row = Some prow ->
  visible caller (pipelineScan.toStorage prow) = false ->
  run_refused (Status caller runID) s /\ run_refused (Stop caller runID) s /\
  forall path page perPage, run_refused (Tasks caller runID path page perPage) s.
Proof.
  intros Hrow Hp Hv. split; [|split; [|intros path page perPage]].
  - eapply (run_guarded _ _ _ _ (fun run => ret (RunStatus_ run)) s Hrow Hp Hv).
  - by apply (run_guarded _ _ _ _ _ s Hrow Hp Hv).
  - by apply (run_guarded _ _ _ _ _ s Hrow Hp Hv).
Qed.

(** Nor resume it: the refusals before the access is asked for are refusals. *)
Lemma denied_resume_refused features caller runID row prow s :
  db_runs (sv_db s) !! runID = Some row ->
  db_pipelines (sv_db s) !! pipelineRunScan.PipelineID row = Some prow ->
  visible caller (pipelineScan.toStorage prow) = false ->
  run_refused (Resume features caller runID) s.
Proof.
  intros Hrow Hp Hv. unfold run_refused, Resume.
  destruct (negb _). { exists (RunError 403 "resume feature is not enabled"), (sv_db s). by destruct s. }
  destruct (GetRun_read runID (sv_db s)) as [Hs Hr]. unfold resumeValidate, bind, attempt, on_db, ret.
  cbn [get_db put_db svc_has_db]. destruct (GetRun runID (sv_db s)) as [[run|e] d1]; cbn [fst snd] in *.
  2: { exists (run_lookup_failed "run" e), d1. split; [done|]. split; [apply run_lookup_refuses|done]. }
  destruct Hr as (row' & Hrow' & ->). simplify_eq. cbn [pipelineRunScan.toStorage PipelineRun.Status].
  case_decide; [by eexists _, d1|].
  assert (Hp1 : db_pipelines d1 !! pipelineRunScan.PipelineID row = Some prow) by (destruct Hs as (fs & -> & _); exact Hp).
  destruct (GetPipeline_read (pipelineRunScan.PipelineID row) d1) as [Hs2 Hr2].
  cbn [get_db put_db svc_has_db sv_db set_db pipelineRunScan.toStorage PipelineRun.PipelineID].
  destruct (GetPipeline _ d1) as [[p|e] d2]; cbn [fst snd] in *.
  - destruct Hr2 as (prow' & Hp2 & ->). simplify_eq. destruct (denied_answer _ _ Hv) as (a & Ha & Hc).
    rewrite Ha. cbn. exists (of_refusal a), d2. split; [done|]. split; [by apply of_refusal_code|by etrans].
  - exists run_internal, d2. split; [done|]. split; [done|by etrans].
Qed.

(** Nor run the pipeline by its name. *)
Lemma denied_Run_refused caller id row args s :
  pipelines_wf (sv_db s) -> db_pipelines (sv_db s) !! id = Some row ->
  visible caller (pipelineScan.toStorage row) = false ->
  run_refused (Run caller (pipelineScan.Name row) args) s.
Proof.
  intros Hwf Hrow Hv. unfold run_refused, Run.
  destruct (GetPipelineByName_read (pipelineScan.Name row) (sv_db s)) as [Hs Hr]. unfold bind, attempt, on_db, ret.
  cbn [get_db put_db svc_has_db]. destruct (GetPipelineByName _ _) as [[p|e] d1]; cbn [fst snd] in *.
  - destruct Hr as (row' & Hin & ->). rewrite (rows_named_unique _ id row) in Hin by done.
    apply list_elem_of_singleton in Hin as ->. destruct (denied_answer _ _ Hv) as (a & -> & Hc).
    exists (of_refusal a), d1. split; [done|]. split; [by apply of_refusal_code|done].
  - exists (run_lookup_failed "pipeline" e), d1. split; [done|]. split; [apply run_lookup_refuses|done].
Qed.

(** With a database that does not fail, what the lookups find decides. *)
Lemma guarded_quiet caller runID (k : PipelineRun.t -> ST svc run_answer) s :
  quiet s ->
  (let! found := attempt (on_db (GetRun runID)) in
   match found with
   | Err e => ret (run_lookup_failed "run" e)
   | Ok run =>
       let! denied := checkRunRBAC caller run in
       match denied with Some a => ret a | None => k run end
   end) s =
  match db_runs (sv_db s) !! runID with
  | None => (Ok (RunError 404 "run not found"), s)
  | Some row =>
      match db_pipelines (sv_db s) !! pipelineRunScan.PipelineID row with
      | None => (Ok (RunError 404 "pipeline not found"), s)
      | Some prow =>
          match checkPipelineRBAC caller (pipelineScan.toStorage prow) with
          | Some a => (Ok (of_refusal a), s)
          | None => k (pipelineRunScan.toStorage row) s
          end
      end
  end.
Proof.
  intros Hq. unfold quiet in Hq. assert (Hs : set_db (sv_db s) s = s) by by destruct s.
  unfold bind at 1, attempt, on_db, GetRun, wrap, bind at 1. cbn [get_db put_db svc_has_db].
  rewrite query_no_faults by done. destruct (db_runs (sv_db s) !! runID) as [row|].
  2: { unfold fail, ret. by rewrite Hs. }
  unfold ret at 1. rewrite Hs. unfold checkRunRBAC, bind, attempt, on_db, GetPipeline, wrap, bind.
  cbn [get_db put_db svc_has_db pipelineRunScan.toStorage PipelineRun.PipelineID].
  rewrite query_no_faults by done.
  destruct (db_pipelines (sv_db s) !! _) as [prow|]; unfold fail, ret; rewrite Hs; [|done].
  by destruct (checkPipelineRBAC caller _).
Qed.

(** The two writes of a stop. *)
Definition stopped_db (runID : string) (d : db) : db :=
  (UpdateRunStatus runID RunStatusFailed "Run stopped by user"
     (UpdateStatusForPrefix (run_prefix runID) ["pending"; "running"] "aborted" d).2).2.

Lemma UpdateRunStatus_tasks runID st msg d :
  db_faults d = [] -> db_tasks (UpdateRunStatus runID st msg d).2 = db_tasks d.
Proof. intros Hf. rewrite UpdateRunStatus_exact by done. repeat case_match; done. Qed.

(** A task that belongs to the run, by its path. *)
Definition of_run (runID path : string) : bool := GLOB (task_path (run_prefix runID) ++ "*") path.

Lemma stopped_db_facts runID d row :
  db_faults d = [] -> db_runs d !! runID = Some row ->
  (exists row', db_runs (stopped_db runID d) !! runID = Some row' /\
     pipelineRunScan.Status row' = RunStatusFailed /\
     pipelineRunScan.ErrorMessage row' = Some "Run stopped by user") /\
  (forall path t, db_tasks (stopped_db runID d) !! path = Some t -> of_run runID path = true ->
     taskRow.status t <> Some "pending" /\ taskRow.status t <> Some "running") /\
  (forall id, id <> runID -> db_runs (stopped_db runID d) !! id = db_runs d !! id).
Proof.
  intros Hf Hrow. unfold stopped_db.
  destruct (UpdateStatusForPrefix_runs (run_prefix runID) ["pending"; "running"] "aborted" d Hf) as [F R].
  destruct (UpdateRunStatus_rows runID RunStatusFailed "Run stopped by user" _ F) as [_ Hr]. cbv zeta in Hr.
  split; [|split].
  - rewrite Hr, R, Hrow. cbn [fmap option_fmap option_map]. eexists. split; [done|].
    by rewrite bool_decide_true.
  - intros path t. rewrite UpdateRunStatus_tasks by done. rewrite lookup_UpdateStatusForPrefix by done.
    destruct (db_tasks d !! path) as [t0|]; [|done]. cbn [fmap option_fmap option_map].
    unfold of_run. intros Ht Hg. injection Ht as <-. rewrite Hg, andb_true_r. unfold status_in.
    destruct (taskRow.status t0) as [st|] eqn:Hst; [|by rewrite Hst].
    case_bool_decide as Hin; [done|]. rewrite Hst. split; intros [= ->]; apply Hin; set_solver.
  - intros id Hne. rewrite Hr, R. destruct (db_runs d !! id); [|done].
    cbn [fmap option_fmap option_map]. by rewrite bool_decide_false.
Qed.

Lemma stopOrphanedRun_exact caller runID row s :
  quiet s -> db_runs (sv_db s) !! runID = Some row ->
  exists a, stopOrphanedRun caller runID s = (Ok a, set_db (stopped_db runID (sv_db s)) s) /\
    run_code a = 200%Z.
Proof.
  intros Hq Hrow. unfold stopOrphanedRun, ignore, bind, attempt, on_db. cbn [get_db put_db svc_has_db].
  destruct (UpdateStatusForPrefix_runs (run_prefix runID) ["pending"; "running"] "aborted" (sv_db s) Hq)
    as [F R]. unfold stopped_db. fold (run_prefix runID).
  destruct (UpdateStatusForPrefix (run_prefix runID) _ _ (sv_db s)) as [r1 d1]. cbn [fst snd sv_db set_db] in *.
  assert (Hok : (UpdateRunStatus runID RunStatusFailed "Run stopped by user" d1).1 = Ok tt).
  { rewrite UpdateRunStatus_exact by done. by rewrite R, Hrow. }
  change (sv_db (set_db d1 s)) with d1.
  destruct (UpdateRunStatus runID _ _ d1) as [r2 d2]. unfold fst in Hok. subst r2.
  eexists. split; [reflexivity|]. by destruct (Caller.htmx caller).
Qed.

(** A stop writes the same thing whether or not the run has a goroutine. *)
Lemma stop_branches caller runID row s :
  quiet s -> db_runs (sv_db s) !! runID = Some row ->
  exists a s',
    (let! stopped := attempt (StopRun runID) in
     match stopped with
     | Err e => if errors_Is e SRunNotInFlight then stopOrphanedRun caller runID else ret run_internal
     | Ok _ => ret (if Caller.htmx caller then RunToast (toast "Stopping run...")
                    else RunAction runID "stopping")
     end) s = (Ok a, s') /\
    run_code a = 200%Z /\ sv_db s' = stopped_db runID (sv_db s) /\
    forall g, sv_stopRegistry s !! runID = Some g -> g ∈ sv_cancelled s'.
Proof.
  intros Hq Hrow. unfold bind at 1, attempt at 1. rewrite StopRun_exact.
  destruct (sv_stopRegistry s !! runID) as [g|] eqn:Hg.
  - eexists _, _. split; [done|]. split; [by destruct (Caller.htmx caller)|]. split; [done|].
    intros g' [= <-]. cbn. set_solver.
  - change (errors_Is (ESentinel SRunNotInFlight) SRunNotInFlight) with true. cbv iota.
    destruct (stopOrphanedRun_exact caller runID row s Hq Hrow) as (a & -> & Hc). by exists a, (set_db (stopped_db runID (sv_db s)) s).
Qed.

(** What stopping a run does. With a database that does not fail, a stop is
    refused without effect when the run is unknown or over or the caller has no
    access to its pipeline; otherwise it succeeds, even when the run belongs to
    no goroutine: the run is recorded as failed with the reason, the context of
    its goroutine is cancelled, none of its tasks stays pending or running, and
    no other run changes. *)
Theorem Stop_settles caller runID (s : svc) :
  quiet s ->
  let allowed := exists row prow, db_runs (sv_db s) !! runID = Some row /\
    IsActive (pipelineRunScan.Status row) = true /\
    db_pipelines (sv_db s) !! pipelineRunScan.PipelineID row = Some prow /\
    visible caller (pipelineScan.toStorage prow) = true in
  exists a s', Stop caller runID s = (Ok a, s') /\
  (~ allowed /\ (400 <= run_code a)%Z /\ s' = s \/
   allowed /\ run_code a = 200%Z /\
   (exists row', db_runs (sv_db s') !! runID = Some row' /\
      pipelineRunScan.Status row' = RunStatusFailed /\
      pipelineRunScan.ErrorMessage row' = Some "Run stopped by user") /\
   (forall g, sv_stopRegistry s !! runID = Some g -> g ∈ sv_cancelled s') /\
   (forall path t, db_tasks (sv_db s') !! path = Some t -> of_run runID path = true ->
      taskRow.status t <> Some "pending" /\ taskRow.status t <> Some "running") /\
   (forall id, id <> runID -> db_runs (sv_db s') !! id = db_runs (sv_db s) !! id)).
Proof.
  intros Hq allowed. unfold Stop. rewrite guarded_quiet by done.
  destruct (db_runs (sv_db s) !! runID) as [row|] eqn:Hrow.
  2: { eexists _, _. split; [done|]. left. split; [|by split].
       intros (r & p & Hr & _). congruence. }
  destruct (db_pipelines (sv_db s) !! pipelineRunScan.PipelineID row) as [prow|] eqn:Hp.
  2: { eexists _, _. split; [done|]. left. split; [|by split].
       intros (r & p & Hr & _ & Hp' & _). congruence. }
  destruct (visible caller (pipelineScan.toStorage prow)) eqn:Hv.
  2: { destruct (denied_answer _ _ Hv) as (a & -> & Hc). eexists _, _. split; [done|]. left.
       split; [|split; [by apply of_refusal_code|done]]. intros (r & p & Hr & _ & Hp' & Hvis). congruence. }
  pose proof Hv as Hacc. rewrite visible_iff in Hacc. rewrite Hacc.
  cbn [pipelineRunScan.toStorage PipelineRun.Status].
  destruct (decide (_ /\ _)) as [[Hn1 Hn2]|Hact].
  { eexists _, _. split; [done|]. left. split; [|by split]. intros (r & p & Hr & Ha & _).
    simplify_eq. unfold IsActive in Ha. rewrite !bool_decide_false in Ha by done. done. }
  destruct (stop_branches caller runID row s Hq Hrow) as (a & s' & -> & Hcode & Hdb & Hcan).
  destruct (stopped_db_facts runID (sv_db s) row Hq Hrow) as (Hst & Htasks & Hothers).
  exists a, s'. split; [done|]. right. rewrite Hdb.
  split; [|by split_and!]. exists row, prow. split_and!; [done| |done|done].
  unfold IsActive. destruct (decide (pipelineRunScan.Status row = RunStatusQueued)) as [->|Hq1]; [done|].
  destruct (decide (pipelineRunScan.Status row = RunStatusRunning)) as [->|Hr1]; [done|]. by destruct Hact.
Qed.
End runs_facts.

(** ** What an access expression protects *)
Section denied.
Context `{!AccessLang, !TemplateEngine, !UniqueIDs, !OrderBy, !JsonText, !MapOrder, !Sha256, !Clockwork}.
Context {S : Type} `{!SecretsManager S, !SecretBackend S}.

(** C22: what an access expression protects. A caller whom a pipeline's
    expression denies is refused, with an answer of 400 or more that leaves the
    service, the database and the secrets as they were whatever statement fails,
    by each of these handlers: Show, Destroy, Pause, Unpause, Trigger,
    SeedJobPassed, Upsert under its name and Run of the pipeline, and Status,
    Tasks, Stop and Resume of each of its runs; and no page of Index lists the
    pipeline. *)
Theorem denied_changes_nothing c caller id row (s : api S) :
  pipelines_wf (sv_db (ap_svc s)) -> db_pipelines (sv_db (ap_svc s)) !! id = Some row ->
  scope_ok (S := S) (PipelineScope id) -> visible caller (pipelineScan.toStorage row) = false ->
  (forall r, refused (serve_pipeline c caller id r) s) /\
  (forall parse body, refused (Upsert c parse caller (pipelineScan.Name row) body) s) /\
  (forall args, run_refused (Run caller (pipelineScan.Name row) args) (ap_svc s)) /\
  (forall runID run, db_runs (sv_db (ap_svc s)) !! runID = Some run -> pipelineRunScan.PipelineID run = id ->
     run_refused (Status caller runID) (ap_svc s) /\ run_refused (Stop caller runID) (ap_svc s) /\
     (forall path page perPage, run_refused (Tasks caller runID path page perPage) (ap_svc s)) /\
     (forall features, run_refused (Resume features caller runID) (ap_svc s))) /\
  (forall fts page perPage, exists a s',
     Index fts caller page perPage s = (Ok a, s') /\ untouched s s' /\
     forall res it, a = APage res -> it ∈ PaginationResult.Items res -> PipelineAPIResponse.ID it <> id).
Proof.
  intros Hwf Hrow Hok Hv. destruct (denied_requests c caller id row s Hwf Hrow Hok Hv) as (Hserve & Hupsert & Hindex).
  split; [done|]. split; [done|]. split; [intros args; by apply (denied_Run_refused caller id)|].
  split; [|done]. intros runID run Hrun Hid. rewrite <- Hid in Hrow.
  destruct (denied_run_refused caller runID run row (ap_svc s) Hrun Hrow Hv) as (R1 & R2 & R3).
  split; [done|]. split; [done|]. split; [done|]. intros features. by eapply denied_resume_refused.
Qed.
End denied.

(** ** Witnesses *)
Section witnesses.
#[local] Existing Instances plain_crypto ex_lang ex_engine ex_clock counter_ids stable_order ex_text
  some_map_order toy_sha ex_manager ex_backend.

(** A stream of bytes that announces its end in a read of its own. *)
#[local] Instance ex_reader : Reader (list ascii) := {|
  Read := fun n r => (take n r, if decide (r = []) then Some EOF else None, drop n r) |}.
#[local] Instance ex_stream : ByteStream (list ascii).
Proof.
  refine {| contents := fun r => r |}. intros n r. cbn. split; [by rewrite take_drop|].
  split; [rewrite length_take; lia|]. destruct (decide (r = [])) as [->|Hne]; [by destruct n|].
  destruct n; [by left|right]. by destruct r.
Defined.

Definition ex_zstd (body : string) : result (list ascii) :=
  if decide (body = "not zstd") then Err (EMsg "magic number mismatch") else Ok (String.list_ascii_of_string body).
Definition ex_parts : list part.t := [part.mk "args" "[]"; part.mk "workdir" "not zstd"; part.mk "workdir" "abc"].
Definition ex_upload (max : Z) := parseRunInput (fun _ args => args) ex_zstd max (inl ex_parts).

Lemma ex_sound : sound_stream (R := list ascii).
Proof. intros n r. cbn. by destruct (decide (r = [])). Qed.

Lemma capped_upload_witness :
  exists c out e, ex_upload 2 = ([], Some c) /\ drain (fun _ => 5) 4 0 c = Some (out, e) /\
    out `prefix_of` String.list_ascii_of_string "abc" /\ (Z.of_nat (length out) <= 2)%Z /\ e = WorkdirTooLarge.
Proof.
  destruct (capped_upload (fun _ args => args) ex_zstd 2 (inl ex_parts) [] (mkCapped (String.list_ascii_of_string "abc") 2 0)
    (fun _ => 5) (fun _ => Nat.lt_0_succ 4) eq_refl) as (_ & out & e & Hd & Hp & Hle & Hs).
  exists (mkCapped (String.list_ascii_of_string "abc") 2 0), out, e. split; [reflexivity|]. split; [exact Hd|].
  split; [exact Hp|]. split; [exact Hle|]. destruct (Hs ex_sound) as [[_ Ho]|[He _]]; [|exact He].
  subst out. cbn in Hle. lia.
Defined.

(** An upload of exactly as many bytes as the cap allows is rejected when its
    end comes in a read of its own. *)
Lemma exact_cap_rejected :
  match (ex_upload 3).2 with
  | Some c => drain (fun _ => 5) 4 0 c = Some (String.list_ascii_of_string "abc", WorkdirTooLarge)
  | None => False
  end.
Proof. vm_compute. reflexivity. Qed.

Definition ex_run (id pid : string) : pipelineRunScan.t :=
  pipelineRunScan.mk id pid RunStatusRunning (Some 1%Z) None None TriggerTypeManual "" TriggerInput.empty "" 1.
Definition ex_runs_db : db :=
  upsert_task (task_path "/pipeline/r1/jobs/x") "r1" (JObj [("status", JStr "running")])
    (upsert_task (task_path "/pipeline/r2/jobs/x") "r2" (JObj [("status", JStr "running")])
      (set_runs (fun _ => <["r1" := ex_run "r1" "p2"]> {["r2" := ex_run "r2" "p1"]}) ex_api_db)).
Definition ex_runs : svc := NewExecutionService ex_runs_db 2 0 AllFeatures.

(** The run was left by another process. *)
Lemma Stop_settles_witness :
  let s' := (Stop (ex_caller "bob") "r1" ex_runs).2 in
  pipelineRunScan.Status <$> db_runs (sv_db s') !! "r1" = Some RunStatusFailed /\
  db_runs (sv_db s') !! "r2" = Some (ex_run "r2" "p1").
Proof.
  cbv zeta.
  destruct (Stop_settles (ex_caller "bob") "r1" ex_runs eq_refl) as (a & s' & He & Ha). rewrite He. cbn [snd].
  destruct Ha as [(Hno & _)|(_ & _ & (row' & Hrow & Hst & _) & _ & _ & Hothers)].
  { exfalso. apply Hno. exists (ex_run "r1" "p2"), (ex_row "p2" "deploy" ""). repeat split; vm_compute; reflexivity. }
  split; [by rewrite Hrow, <- Hst|]. rewrite Hothers by discriminate. vm_compute. reflexivity.
Defined.

(** Bob, whom p1 denies, and its run r2. *)
Definition ex_denied_api (faults : list bool) : api (backend sdb) :=
  mkApi (set_db (set_faults faults ex_runs_db) ex_runs) (ap_mgr (ex_api [])).
Lemma denied_changes_nothing_witness :
  refused (serve_pipeline ex_config (ex_caller "bob") "p1" ReqDestroy) (ex_denied_api [false; true]) /\
  run_refused (Run (ex_caller "bob") "build" []) (ap_svc (ex_denied_api [])) /\
  run_refused (Stop (ex_caller "bob") "r2") (ap_svc (ex_denied_api [])).
Proof.
  assert (Hwf : forall faults, pipelines_wf (sv_db (ap_svc (ex_denied_api faults)))) by (intros f; apply (ex_api_wf f)).
  split; [|split].
  - apply (denied_changes_nothing ex_config (ex_caller "bob") "p1" (ex_row "p1" "build" "alice")
      (ex_denied_api [false; true]) (Hwf _) eq_refl (ex_scope _) ex_denied).
  - apply (denied_changes_nothing ex_config (ex_caller "bob") "p1" (ex_row "p1" "build" "alice")
      (ex_denied_api []) (Hwf _) eq_refl (ex_scope _) ex_denied).
  - apply (denied_changes_nothing ex_config (ex_caller "bob") "p1" (ex_row "p1" "build" "alice")
      (ex_denied_api []) (Hwf _) eq_refl (ex_scope _) ex_denied) with (runID := "r2") (run := ex_run "r2" "p1");
      vm_compute; reflexivity.
Defined.

(** The path of a task is cleaned after it was checked: a caller with access to
    one run reads a task of a run whose pipeline denies him. *)
Lemma run_task_escapes :
  run_code <$> (match (Status (ex_caller "bob") "r2" ex_runs).1 with Ok a => Some a | Err _ => None end)
    = Some 403%Z /\
  (Tasks (ex_caller "bob") "r1" "/pipeline/r1/../r2/jobs/x" "" "" ex_runs).1 =
    Ok (RunTasks [APIRunTask.mk "/pipeline/r1/../r2/jobs/x" (JObj [("status", JStr "running")])]).
Proof. split; vm_compute; reflexivity. Qed.
End witnesses.
