(* ===== verification/Shell.v ===== *)
(** * Words for a shell (runtime/runner/image_build.go, runtime/agent/tools.go,
    runtime/agent/resultwriter.go)

    The builders of shell commands, with the reading a POSIX shell gives the
    part of its language they mean to use: words, single and double quotes,
    backslashes and operators. A text with an expansion, a pattern or a comment
    has no reading here. [ShellJoinArgs_reads]: joined arguments are read back;
    [result_command_reads]: so is the command that writes a result. *)
From S2P Require Import Prelude GoStrings Paging Sql Redaction Tasks Paths Config.
From Stdlib Require Import Ascii.
Open Scope string_scope.
#[local] Arguments String.append !_ _ / : simpl nomatch.

(** ** Builders *)

Definition apostrophe : ascii := "'"%char.
Definition backslash : ascii := "\"%char.
Definition newline : ascii := ascii_of_nat 10.
(** The lines of a script. *)
Definition lines (ls : list string) : string := Join ((fun l => l ++ String newline "") <$> ls) "".

(** [strings.ReplaceAll(s, "'", `'\''`)] between apostrophes. *)
Definition shellQuote (s : string) : string :=
  "'" ++ ReplaceByte s apostrophe "'\''" ++ "'".

Definition join_arg (arg : string) : string :=
  if bool_decide (arg = "--") || HasPrefix arg "-" then arg
  else "'" ++ ReplaceByte arg apostrophe "'\''" ++ "'".
Definition ShellJoinArgs (args : list string) : string := Join (join_arg <$> args) " ".

(** [strconv.Quote] of a printable ASCII string. *)
Fixpoint escape_quotes (s : string) : string :=
  match s with
  | EmptyString => ""
  | String a s' =>
      (if Ascii.eqb a quote || Ascii.eqb a backslash then String backslash (String a "") else String a "")
      ++ escape_quotes s'
  end.
Definition Quote (s : string) : string := String quote "" ++ escape_quotes s ++ String quote "".

Definition ResultJsonWriteCmd (mountName data : string) : string :=
  let escaped := "'" ++ ReplaceByte data apostrophe "'\''" ++ "'" in
  "mkdir -p " ++ Quote mountName ++ " && printf '%s' " ++ escaped ++ " > " ++ Quote mountName ++ "/result.json".

(** The first occurrence of [sub]: what is before it and what is after. *)
Fixpoint cut_at (s sub : string) : option (string * string) :=
  if HasPrefix s sub then Some ("", drop_string (String.length sub) s)
  else match s with
       | EmptyString => None
       | String a s' => prod_map (String a) id <$> cut_at s' sub
       end.

Definition find_tail : string := " -type f | sort | head -n 1000".
Definition BuildFindCommand (pattern path : string) : string :=
  if HasPrefix pattern "**/" then
    "find " ++ path ++ " -name '" ++ TrimPrefix pattern "**/" ++ "'" ++ find_tail
  else
    match cut_at pattern "/**/" with
    | Some (dir, namePattern) => "find " ++ path ++ "/" ++ dir ++ " -name '" ++ namePattern ++ "'" ++ find_tail
    | None =>
        if negb (Contains pattern "/") && Contains pattern "*" then
          "find " ++ path ++ " -maxdepth 1 -name '" ++ pattern ++ "'" ++ find_tail
        else "find " ++ path ++ " -path '*" ++ pattern ++ "*'" ++ find_tail
    end.

(** ** How a shell reads them (POSIX, Shell Command Language, 2.2 and 2.3) *)
Inductive token : Type := Word (w : string) | Operator (a : ascii).

(** Between words, in a word, in one kind of quotes, after a backslash. *)
Inductive reading : Type :=
  | Between | In (w : string) | Single (w : string) | Double (w : string)
  | Escaped (w : string) | DoubleEscaped (w : string).

(** The characters without a meaning to the shell. *)
Definition ordinary (a : ascii) : bool :=
  is_lower a || is_upper a || is_digit a
  || existsb (Ascii.eqb a) ["-"; "_"; "."; "/"; ":"; ","; "@"; "%"; "+"; "="]%char.
Definition operator (a : ascii) : bool :=
  existsb (Ascii.eqb a) ["|"; "&"; ";"; "<"; ">"]%char.
Definition expanding (a : ascii) : bool := Ascii.eqb a "$" || Ascii.eqb a "`".

Definition current (st : reading) : string := match st with In w => w | _ => "" end.
Definition end_word (st : reading) (ts : list token) : list token :=
  match st with In w => Word w :: ts | _ => ts end.
Definition push (w : string) (a : ascii) : string := w ++ String a "".

Fixpoint sh_read (st : reading) (s : string) : option (list token) :=
  match s with
  | EmptyString => match st with Between | In _ => Some (end_word st []) | _ => None end
  | String a s =>
      match st with
      | Single w => if Ascii.eqb a apostrophe then sh_read (In w) s else sh_read (Single (push w a)) s
      | Double w =>
          if Ascii.eqb a quote then sh_read (In w) s
          else if Ascii.eqb a backslash then sh_read (DoubleEscaped w) s
          else if expanding a then None
          else sh_read (Double (push w a)) s
      | DoubleEscaped w =>
          if Ascii.eqb a quote || Ascii.eqb a backslash then sh_read (Double (push w a)) s else None
      | Escaped w => sh_read (In (push w a)) s
      | Between | In _ =>
          if Ascii.eqb a " " then end_word st <$> sh_read Between s
          else if operator a then end_word st ∘ cons (Operator a) <$> sh_read Between s
          else if Ascii.eqb a apostrophe then sh_read (Single (current st)) s
          else if Ascii.eqb a quote then sh_read (Double (current st)) s
          else if Ascii.eqb a backslash then sh_read (Escaped (current st)) s
          else if ordinary a then sh_read (In (push (current st) a)) s
          else None
      end
  end.
Definition sh_tokens : string -> option (list token) := sh_read Between.

(** ** Facts *)
Lemma ReplaceByte_cons a s c new :
  ReplaceByte (String a s) c new = (if Ascii.eqb a c then new else String a "") ++ ReplaceByte s c new.
Proof. done. Qed.

Lemma push_append w a s : push w a ++ s = w ++ String a s.
Proof. unfold push. by rewrite append_assoc. Qed.

(** A state in which a word may begin or go on. *)
Definition open_state (st : reading) : bool := match st with Between | In _ => true | _ => false end.

Lemma read_single s t : forall w,
  sh_read (Single w) (ReplaceByte s apostrophe "'\''" ++ String apostrophe t) = sh_read (In (w ++ s)) t.
Proof.
  induction s as [|a s IH]; intros w; [by rewrite append_nil_r|].
  rewrite ReplaceByte_cons. destruct (Ascii.eqb_spec a apostrophe) as [->|Hne].
  - transitivity (sh_read (Single (push w apostrophe)) (ReplaceByte s apostrophe "'\''" ++ String apostrophe t));
      [reflexivity|]. rewrite IH. unfold push. by rewrite append_assoc.
  - cbn. destruct (Ascii.eqb_spec a apostrophe); [done|]. rewrite IH. unfold push. by rewrite append_assoc.
Qed.

Lemma read_shellQuote st s t :
  open_state st = true -> sh_read st (shellQuote s ++ t) = sh_read (In (current st ++ s)) t.
Proof.
  intros Hst. unfold shellQuote. cbn [String.append]. rewrite append_assoc.
  assert (He : sh_read st (String apostrophe (ReplaceByte s apostrophe "'\''" ++ "'" ++ t)) =
               sh_read (Single (current st)) (ReplaceByte s apostrophe "'\''" ++ String apostrophe t))
    by by destruct st.
  by rewrite <- read_single, <- He.
Qed.

Lemma ordinary_reads st a s :
  open_state st = true -> ordinary a = true -> sh_read st (String a s) = sh_read (In (push (current st) a)) s.
Proof.
  intros Hst Ha. assert (Hplain : Ascii.eqb a " " = false /\ operator a = false /\ Ascii.eqb a apostrophe = false /\
    Ascii.eqb a quote = false /\ Ascii.eqb a backslash = false).
  { revert Ha. clear. destruct a as [[] [] [] [] [] [] [] []]; vm_compute; intros; by repeat split. }
  destruct Hplain as (H1 & H2 & H3 & H4 & H5). destruct st; try done; cbn [sh_read current];
    by rewrite H1, H2, H3, H4, H5, Ha.
Qed.

(** A text of ordinary characters reads as itself. *)
Lemma read_ordinary s t : forall st, open_state st = true -> all_chars ordinary s = true -> s <> "" ->
  sh_read st (s ++ t) = sh_read (In (current st ++ s)) t.
Proof.
  induction s as [|a s IH]; intros st Hst Hs Hne; [done|]. cbn [all_chars] in Hs.
  apply andb_true_iff in Hs as [Ha Hs]. cbn [String.append]. rewrite ordinary_reads by done.
  destruct s as [|b s].
  - cbn. unfold push. done.
  - rewrite IH by done. cbn [current]. unfold push. by rewrite append_assoc.
Qed.

Lemma read_space st t : open_state st = true -> sh_read st (String " " t) = end_word st <$> sh_read Between t.
Proof. by destruct st. Qed.

Lemma read_double s t : forall w, all_chars (fun a => negb (expanding a)) s = true ->
  sh_read (Double w) (escape_quotes s ++ String quote t) = sh_read (In (w ++ s)) t.
Proof.
  induction s as [|a s IH]; intros w Hs; [by rewrite append_nil_r|].
  cbn [all_chars] in Hs. apply andb_true_iff in Hs as [Ha Hs]. apply negb_true_iff in Ha.
  replace (w ++ String a s) with (push w a ++ s) by by rewrite push_append.
  rewrite <- IH by done. cbn [escape_quotes].
  destruct (Ascii.eqb_spec a quote) as [->|Hq]; [reflexivity|].
  destruct (Ascii.eqb_spec a backslash) as [->|Hb]; [reflexivity|]. cbn [orb String.append sh_read].
  destruct (Ascii.eqb_spec a quote); [done|]. destruct (Ascii.eqb_spec a backslash); [done|]. by rewrite Ha.
Qed.

Lemma read_Quote st s t :
  open_state st = true -> all_chars (fun a => negb (expanding a)) s = true ->
  sh_read st (Quote s ++ t) = sh_read (In (current st ++ s)) t.
Proof.
  intros Hst Hs. unfold Quote. cbn [String.append]. rewrite append_assoc.
  rewrite <- (read_double s t (current st) Hs). by destruct st.
Qed.

(** The arguments that are passed as they are must be ordinary. *)
Definition passes (arg : string) : Prop := HasPrefix arg "-" = true -> all_chars ordinary arg = true.

Lemma read_join_arg arg t :
  passes arg -> sh_read Between (join_arg arg ++ t) = sh_read (In arg) t.
Proof.
  intros Hp. unfold join_arg. destruct (bool_decide (arg = "--") || HasPrefix arg "-") eqn:Hd.
  - apply orb_true_iff in Hd as [->%bool_decide_eq_true|Hd]; [by rewrite read_ordinary|].
    rewrite read_ordinary; [done|done|by apply Hp|by intros ->].
  - by apply (read_shellQuote Between).
Qed.

(** What may follow the last argument. *)
Definition after_word (t : string) : Prop := t = "" \/ exists t', t = String " " t'.

Lemma end_reads w t : after_word t -> sh_read (In w) t = cons (Word w) <$> sh_read Between t.
Proof. intros [->|(t' & ->)]; [done|]. cbn. by destruct (sh_read Between t'). Qed.

Lemma ShellJoinArgs_cons a b args :
  ShellJoinArgs (a :: b :: args) = join_arg a ++ String " " (ShellJoinArgs (b :: args)).
Proof. done. Qed.

Lemma ShellJoinArgs_then args t :
  args <> [] -> Forall passes args -> after_word t ->
  sh_read Between (ShellJoinArgs args ++ t) = app (Word <$> args) <$> sh_read Between t.
Proof.
  intros Hne Hp Ht. induction Hp as [|a args Ha Hp IH]; [done|]. destruct args as [|b args].
  - change (ShellJoinArgs [a]) with (join_arg a). rewrite read_join_arg by done. by apply end_reads.
  - rewrite ShellJoinArgs_cons, append_assoc, read_join_arg by done.
    change (String " " ?x ++ t) with (String " " (x ++ t)).
    rewrite read_space by done. rewrite IH by done.
    by destruct (sh_read Between t).
Qed.

(** Arguments joined for a shell are read back as they were, as long as the
    ones that begin with a dash have nothing to quote. *)
Lemma ShellJoinArgs_reads args :
  Forall passes args -> sh_tokens (ShellJoinArgs args) = Some (Word <$> args).
Proof.
  intros Hp. destruct (decide (args = [])) as [->|Hne]; [done|].
  unfold sh_tokens. rewrite <- (append_nil_r (ShellJoinArgs args)).
  rewrite ShellJoinArgs_then by (done || by left). cbn. by rewrite app_nil_r.
Qed.

Lemma chunk_and rest w :
  sh_read (In w) (" && printf '%s' " ++ rest) =
  app [Word w; Operator "&"; Operator "&"; Word "printf"; Word "%s"] <$> sh_read Between rest.
Proof.
  transitivity (cons (Word w) <$> (cons (Operator "&") <$> (cons (Operator "&") <$> (end_word Between <$>
    (cons (Word "printf") <$> (cons (Word "%s") <$> sh_read Between rest)))))); [reflexivity|].
  by destruct (sh_read Between rest).
Qed.

Lemma chunk_to rest w :
  sh_read (In w) (" > " ++ rest) = app [Word w; Operator ">"] <$> sh_read Between rest.
Proof.
  transitivity (cons (Word w) <$> (cons (Operator ">") <$> (end_word Between <$> sh_read Between rest)));
    [reflexivity|]. by destruct (sh_read Between rest).
Qed.

Lemma chunk_mkdir rest :
  sh_read Between ("mkdir -p " ++ rest) = app [Word "mkdir"; Word "-p"] <$> sh_read Between rest.
Proof.
  transitivity (cons (Word "mkdir") <$> (cons (Word "-p") <$> sh_read Between rest)); [reflexivity|].
  by destruct (sh_read Between rest).
Qed.

(** The command that writes the result: the data are one word, whatever they
    contain, and the mount is one word unless the shell would expand it. *)
Lemma result_command_reads mountName data :
  all_chars (fun a => negb (expanding a)) mountName = true ->
  sh_tokens (ResultJsonWriteCmd mountName data) =
    Some [Word "mkdir"; Word "-p"; Word mountName; Operator "&"; Operator "&";
          Word "printf"; Word "%s"; Word data; Operator ">"; Word (mountName ++ "/result.json")].
Proof.
  intros Hm. unfold ResultJsonWriteCmd, sh_tokens. cbv zeta.
  change ("'" ++ ReplaceByte data apostrophe "'\''" ++ "'") with (shellQuote data).
  rewrite chunk_mkdir, read_Quote by done. cbn [current]. rewrite chunk_and.
  rewrite (read_shellQuote Between) by done. cbn [current]. rewrite chunk_to, read_Quote by done. cbn [current].
  replace (sh_read (In ("" ++ mountName)) "/result.json") with (Some [Word (mountName ++ "/result.json")]); [done|].
  symmetry. etransitivity; [apply (read_ordinary "/result.json" "" (In mountName)); done|done].
Qed.

(** ** Commands made of parts

    [reads part w]: the text [part], in front of anything, is the word [w]. *)
Definition reads (part w : string) : Prop := forall t, sh_read Between (part ++ t) = sh_read (In w) t.

Lemma reads_ordinary w : w <> "" -> all_chars ordinary w = true -> reads w w.
Proof. intros Hne Ho t. by rewrite (read_ordinary w t Between). Qed.
Lemma reads_quoted w : reads (shellQuote w) w.
Proof. intros t. by rewrite (read_shellQuote Between). Qed.
Lemma reads_prefixed prefix w :
  prefix <> "" -> all_chars ordinary prefix = true -> reads (prefix ++ shellQuote w) (prefix ++ w).
Proof.
  intros Hne Ho t. rewrite append_assoc, (read_ordinary prefix _ Between) by done. by rewrite read_shellQuote.
Qed.

(** What a part of a command is: a word or an operator. *)
Definition yields (part : string) (tok : token) : Prop :=
  forall t, after_word t -> sh_read Between (part ++ t) = cons tok <$> sh_read Between t.
Lemma reads_yields part w : reads part w -> yields part (Word w).
Proof. intros Hr t Ht. by rewrite Hr, end_reads. Qed.
Lemma operator_yields a : operator a = true -> Ascii.eqb a " " = false -> yields (String a "") (Operator a).
Proof.
  intros Ho Hs t _. cbn [String.append sh_read]. rewrite Hs, Ho. by destruct (sh_read Between t).
Qed.

Lemma Join_yields parts toks : Forall2 yields parts toks -> sh_tokens (Join parts " ") = Some toks.
Proof.
  unfold sh_tokens. induction 1 as [|part tok parts toks Hw Hrest IH]; [done|].
  destruct parts as [|part' parts], toks as [|tok' toks]; try by inversion Hrest.
  - change (Join [part] " ") with part. rewrite <- (append_nil_r part), Hw by (by left). done.
  - change (Join (part :: part' :: parts) " ") with (part ++ String " " (Join (part' :: parts) " ")).
    rewrite Hw by (right; by eexists). rewrite read_space by done. by rewrite IH.
Qed.
Lemma Join_reads parts ws : Forall2 reads parts ws -> sh_tokens (Join parts " ") = Some (Word <$> ws).
Proof. intros Hr. apply Join_yields. induction Hr; constructor; [by apply reads_yields|done]. Qed.

(** ** What is not quoted *)

(** An argument that begins with a dash is passed to the shell as it is. *)
Lemma dash_argument_runs :
  sh_tokens (ShellJoinArgs ["--"; "-x; rm -rf src"; "."]) =
    Some [Word "--"; Word "-x"; Operator ";"; Word "rm"; Word "-rf"; Word "src"; Word "."].
Proof. vm_compute. reflexivity. Qed.

(** An apostrophe in a pattern ends the quotes around it. *)
Lemma find_pattern_runs :
  sh_tokens (BuildFindCommand "**/x'; rm -rf src; echo '" ".") =
    Some [Word "find"; Word "."; Word "-name"; Word "x"; Operator ";"; Word "rm"; Word "-rf"; Word "src";
          Operator ";"; Word "echo"; Word ""; Word "-type"; Word "f"; Operator "|"; Word "sort";
          Operator "|"; Word "head"; Word "-n"; Word "1000"].
Proof. vm_compute. reflexivity. Qed.

(** A mount's name is expanded by the shell that writes the result. *)
Lemma result_mount_expands : sh_tokens (ResultJsonWriteCmd "$HOME" "{}") = None.
Proof. vm_compute. reflexivity. Qed.
