(* ===== verification/Schema.v ===== *)
(** * The output schema of an agent (runtime/agent/schema/schema.go)

    A compact notation is expanded to a schema, and the text an agent answers
    with is checked against it. [validateValue_exact]: the checker accepts what
    conforms; [output_schema_exact]: through the expansion, it accepts what the
    notation describes. *)
From S2P Require Import Prelude GoStrings Config Redaction.
From Stdlib Require Import Ascii.
Open Scope string_scope.

(** ** Values

    What [json.Unmarshal] and the YAML parser put in an [interface{}]. A
    number is a finite float64, mantissa times a power of two. A map is an
    association list without repeated keys, in the order in which it happens to
    be iterated. *)
Module Float64.
Record t := mk { mantissa : Z; exponent : Z }.
Definition Trunc (f : t) : t :=
  if (0 <=? exponent f)%Z then f else mk (Z.quot (mantissa f) (2 ^ (- exponent f))) 0.
Definition eqb (f g : t) : bool :=
  let e := Z.min (exponent f) (exponent g) in
  (mantissa f * 2 ^ (exponent f - e) =? mantissa g * 2 ^ (exponent g - e))%Z.
(** It is a whole number. *)
Definition whole (f : t) : Prop :=
  (0 <= exponent f)%Z \/ exists n : Z, mantissa f = (n * 2 ^ (- exponent f))%Z.
Lemma eqb_Trunc f : eqb f (Trunc f) = true <-> whole f.
Proof.
  unfold eqb, Trunc, whole. destruct (Z.leb_spec 0 (exponent f)) as [He|He].
  - rewrite Z.eqb_refl. split; [by left|done].
  - cbn [mantissa exponent]. rewrite Z.min_l, Z.sub_diag, Z.pow_0_r, Z.mul_1_r by lia. replace (0 - exponent f)%Z with (- exponent f)%Z by lia. rewrite Z.eqb_eq. split.
    + intros Hm. right. by eexists.
    + intros [?|(n & Hm)]; [lia|]. rewrite Hm, Z.quot_mul; [done|]. apply Z.pow_nonzero; lia.
Qed.
End Float64.

Inductive value : Type :=
  | VNil
  | VBool (b : bool)
  | VNum (f : Float64.t)
  | VStr (s : string)
  | VArr (l : list value)
  | VMap (m : list (string * value)).

Fixpoint get (k : string) {A} (m : list (string * A)) : option A :=
  match m with
  | [] => None
  | (k', v) :: m => if decide (k = k') then Some v else get k m
  end.
Fixpoint put (k : string) {A} (v : A) (m : list (string * A)) : list (string * A) :=
  match m with
  | [] => [(k, v)]
  | (k', v') :: m => if decide (k = k') then (k, v) :: m else (k', v') :: put k v m
  end.

(** ** Schemas (genai.Schema) *)
Inductive Schema : Type := mkSchema {
  Type_ : string; Properties : list (string * Schema); Items : option Schema;
  Required : list string; Enum : list string; Description : string }.
Definition plain_schema (t : string) : Schema := mkSchema t [] None [] [] "".

Definition genaiTypes : list string := ["OBJECT"; "STRING"; "ARRAY"; "INTEGER"; "NUMBER"; "BOOLEAN"].
Definition typeMap : list (string * string) :=
  [("string", "STRING"); ("int", "INTEGER"); ("integer", "INTEGER"); ("number", "NUMBER");
   ("bool", "BOOLEAN"); ("boolean", "BOOLEAN")].

Definition isFullSchema (obj : list (string * value)) : bool :=
  match get "type" obj with Some (VStr t) => bool_decide (t ∈ genaiTypes) | _ => false end.

Definition expandTypeString (s : string) : Schema :=
  match get s typeMap with
  | Some t => plain_schema t
  | None =>
      if Contains s "|" then mkSchema "STRING" [] None [] (TrimSpace <$> Split s "|") ""
      else plain_schema "STRING"
  end.

(** *** A key of the notation *)
Definition key_isArray (rawKey : string) : bool := Contains rawKey "[]".
Definition key_isOptional (rawKey : string) : bool := HasSuffix rawKey "?".
Definition cleanKey (rawKey : string) : string := TrimSuffix (ReplaceAll rawKey "[]" "") "?".

Definition array_of (s : Schema) : Schema := mkSchema "ARRAY" [] (Some s) [] [] "".

Definition expand_property (rawKey : string) (schema : Schema) (acc : list (string * Schema) * list string)
    : list (string * Schema) * list string :=
  (put (cleanKey rawKey) (if key_isArray rawKey then array_of schema else schema) acc.1,
   if key_isOptional rawKey then acc.2 else (acc.2 ++ [cleanKey rawKey])%list).

Fixpoint expandValue (v : value) : Schema :=
  match v with
  | VStr s => expandTypeString s
  | VMap obj =>
      let '(properties, required) :=
        (fix go (obj : list (string * value)) (acc : list (string * Schema) * list string) :=
           match obj with
           | [] => acc
           | (rawKey, v) :: obj => go obj (expand_property rawKey (expandValue v) acc)
           end) obj ([], []) in
      mkSchema "OBJECT" properties None required [] ""
  | _ => plain_schema "STRING"
  end.
Definition expandObject (obj : list (string * value)) : Schema := expandValue (VMap obj).

Definition strings_of (v : option value) : list string :=
  match v with
  | Some (VArr l) => omap (fun v => match v with VStr s => Some s | _ => None end) l
  | _ => []
  end.
Definition string_or_empty (v : option value) : string := match v with Some (VStr s) => s | _ => "" end.

Fixpoint convertFullSchema (v : value) : Schema :=
  match v with
  | VMap obj =>
      let properties := (fix find (o : list (string * value)) :=
        match o with
        | [] => []
        | (k, v) :: o =>
            if decide (k = "properties") then
              match v with
              | VMap props => (fix each (ps : list (string * value)) :=
                  match ps with
                  | [] => []
                  | (k, pm) :: ps =>
                      match pm with VMap _ => (k, convertFullSchema pm) :: each ps | _ => each ps end
                  end) props
              | _ => []
              end
            else find o
        end) obj in
      let items := (fix find (o : list (string * value)) :=
        match o with
        | [] => None
        | (k, v) :: o =>
            if decide (k = "items") then match v with VMap _ => Some (convertFullSchema v) | _ => None end
            else find o
        end) obj in
      mkSchema (string_or_empty (get "type" obj)) properties items (strings_of (get "required" obj))
        (strings_of (get "enum" obj)) (string_or_empty (get "description" obj))
  | _ => plain_schema ""
  end.

(** [None]: a nil map. *)
Definition ExpandOutputSchema (input : option (list (string * value))) : option Schema :=
  (fun obj => if isFullSchema obj then convertFullSchema (VMap obj) else expandObject obj) <$> input.

(** ** Validation *)
Definition go_type (v : value) : string :=
  match v with
  | VNil => "<nil>" | VBool _ => "bool" | VNum _ => "float64" | VStr _ => "string"
  | VArr _ => "[]interface {}" | VMap _ => "map[string]interface {}"
  end.

Definition fieldPath (parent key : string) : string := if decide (parent = "") then key else parent ++ "." ++ key.

Section validation.
(** [%v] of a number. *)
Context (format_float : Float64.t -> string).

Definition expected (what : string) (v : value) (path : string) : option err :=
  Some (EMsg ("expected " ++ what ++ " at " ++ q path ++ ", got " ++ go_type v)).

Definition validateString (value : value) (s : Schema) (path : string) : option err :=
  match value with
  | VStr str =>
      if decide (Enum s <> [] /\ str ∉ Enum s) then
        Some (EMsg ("value " ++ q str ++ " at " ++ q path ++ " not in enum [" ++ Join (Enum s) " " ++ "]"))
      else None
  | _ => expected "string" value path
  end.
Definition validateInteger (value : value) (path : string) : option err :=
  match value with
  | VNum num =>
      if negb (Float64.eqb num (Float64.Trunc num)) then
        Some (EMsg ("expected integer at " ++ q path ++ ", got float " ++ format_float num))
      else None
  | _ => expected "integer" value path
  end.
Definition validateNumber (value : value) (path : string) : option err :=
  match value with VNum _ => None | _ => expected "number" value path end.
Definition validateBoolean (value : value) (path : string) : option err :=
  match value with VBool _ => None | _ => expected "boolean" value path end.

(** The first required field that is missing. *)
Fixpoint first_missing (obj : list (string * value)) (required : list string) : option string :=
  match required with
  | [] => None
  | req :: required => match get req obj with None => Some req | Some _ => first_missing obj required end
  end.

(** [validate] at each element, with its index in the path. *)
Fixpoint each_element (validate : value -> string -> option err) (path : string) (i : nat) (arr : list value)
    : option err :=
  match arr with
  | [] => None
  | elem :: arr =>
      match validate elem (path ++ "[" ++ Itoa (Z.of_nat i) ++ "]") with
      | Some e => Some e
      | None => each_element validate path (S i) arr
      end
  end.

Fixpoint validateValue (value : value) (s : Schema) (path : string) {struct s} : option err :=
  if decide (Type_ s = "OBJECT") then
    match value with
    | VMap obj =>
        match first_missing obj (Required s) with
        | Some req => Some (EMsg ("missing required field " ++ q (fieldPath path req)))
        | None =>
            (fix each (ps : list (string * Schema)) :=
               match ps with
               | [] => None
               | (key, propSchema) :: ps =>
                   match get key obj with
                   | None => each ps
                   | Some val =>
                       match validateValue val propSchema (fieldPath path key) with
                       | Some e => Some e
                       | None => each ps
                       end
                   end
               end) (Properties s)
        end
    | _ => expected "object" value path
    end
  else if decide (Type_ s = "ARRAY") then
    match value with
    | VArr arr =>
        match Items s with
        | None => None
        | Some items => each_element (fun elem path => validateValue elem items path) path 0 arr
        end
    | _ => expected "array" value path
    end
  else if decide (Type_ s = "STRING") then validateString value s path
  else if decide (Type_ s = "INTEGER") then validateInteger value path
  else if decide (Type_ s = "NUMBER") then validateNumber value path
  else if decide (Type_ s = "BOOLEAN") then validateBoolean value path
  else None.

(** [json.Unmarshal] of a text. *)
Context (unmarshal : string -> result value).

Definition ValidateJSON (jsonStr : string) (s : Schema) : option err :=
  match unmarshal jsonStr with
  | Err e => Some (EWrap "invalid JSON" e)
  | Ok parsed => validateValue parsed s ""
  end.
End validation.

(** ** What conforms to a schema *)
Inductive conforms : Schema -> value -> Prop :=
  | conforms_object s obj :
      Type_ s = "OBJECT" ->
      (forall req, req ∈ Required s -> is_Some (get req obj)) ->
      (forall key propSchema val, (key, propSchema) ∈ Properties s -> get key obj = Some val ->
         conforms propSchema val) ->
      conforms s (VMap obj)
  | conforms_array s arr :
      Type_ s = "ARRAY" ->
      (forall items elem, Items s = Some items -> elem ∈ arr -> conforms items elem) ->
      conforms s (VArr arr)
  | conforms_string s str : Type_ s = "STRING" -> Enum s = [] \/ str ∈ Enum s -> conforms s (VStr str)
  | conforms_integer s num : Type_ s = "INTEGER" -> Float64.whole num -> conforms s (VNum num)
  | conforms_number s num : Type_ s = "NUMBER" -> conforms s (VNum num)
  | conforms_boolean s b : Type_ s = "BOOLEAN" -> conforms s (VBool b)
  | conforms_other s v : Type_ s ∉ genaiTypes -> conforms s v.

(** Induction over a schema with its properties and its items. *)
Lemma Schema_nested_ind (P : Schema -> Prop)
    (step : forall s, Forall (fun ks => P ks.2) (Properties s) ->
       (forall items, Items s = Some items -> P items) -> P s) :
  forall s, P s.
Proof.
  fix IH 1. intros [t ps items req en de]. apply step; cbn [Properties Items].
  - induction ps as [|[k p] ps IHps]; constructor; [apply IH|apply IHps].
  - intros it. destruct items as [it'|]; [|discriminate]. intros [= <-]. exact (IH it').
Qed.

Lemma first_missing_none obj required :
  first_missing obj required = None <-> forall req, req ∈ required -> is_Some (get req obj).
Proof.
  induction required as [|r required IH]; cbn; [split; [set_solver|done]|].
  destruct (get r obj) as [v|] eqn:Hr.
  - rewrite IH. split; [intros H req [->|?]%elem_of_cons; eauto|intros H req ?; apply H; by right].
  - split; [done|]. intros H. destruct (H r ltac:(by left)) as [? ?]. congruence.
Qed.

Lemma each_element_none validate (ok : value -> Prop) path arr : forall i,
  (forall elem path, elem ∈ arr -> validate elem path = None <-> ok elem) ->
  each_element validate path i arr = None <-> forall elem, elem ∈ arr -> ok elem.
Proof.
  induction arr as [|elem arr IH]; intros i Hv; cbn; [split; [set_solver|done]|].
  assert (Hhead : forall p, validate elem p = None <-> ok elem) by (intros p; apply Hv; by left).
  specialize (IH (S i) (fun e p He => Hv e p ltac:(by right))).
  set (p := path ++ _). specialize (Hhead p). destruct (validate elem p) as [e|].
  - split; [done|]. intros H. by apply Hhead, H; left.
  - rewrite IH. split; [intros H x [->|?]%elem_of_cons; [by apply Hhead|by apply H]|].
    intros H x ?. apply H. by right.
Qed.

Section exactness.
Context (format_float : Float64.t -> string) (unmarshal : string -> result value).
Notation validate := (validateValue format_float).

(** The walk over the properties of an object. *)
Fixpoint each_property (obj : list (string * value)) (path : string) (ps : list (string * Schema)) : option err :=
  match ps with
  | [] => None
  | (key, propSchema) :: ps =>
      match get key obj with
      | None => each_property obj path ps
      | Some val =>
          match validate val propSchema (fieldPath path key) with
          | Some e => Some e
          | None => each_property obj path ps
          end
      end
  end.

Lemma each_property_none obj path ps :
  Forall (fun ks => forall v p, validate v ks.2 p = None <-> conforms ks.2 v) ps ->
  each_property obj path ps = None <->
    forall key propSchema val, (key, propSchema) ∈ ps -> get key obj = Some val -> conforms propSchema val.
Proof.
  induction 1 as [|[k s] ps Hs Hps IH]; cbn; [split; [set_solver|done]|]. cbn [snd] in Hs.
  destruct (get k obj) as [val|] eqn:Hk.
  - specialize (Hs val (fieldPath path k)). destruct (validate val s (fieldPath path k)) as [e|].
    + split; [done|]. intros H. apply Hs, (H k s val); [by left|done].
    + rewrite IH. split.
      * intros H k' s' v' [[= -> ->]|Hin]%elem_of_cons Hg; [|by eapply H]. simplify_eq. by apply Hs.
      * intros H k' s' v' Hin. apply (H k'). by right.
  - rewrite IH. split.
    + intros H k' s' v' [[= -> ->]|Hin]%elem_of_cons Hg; [congruence|by eapply H].
    + intros H k' s' v' Hin. apply (H k'). by right.
Qed.

Lemma validate_object obj s path :
  Type_ s = "OBJECT" ->
  validate (VMap obj) s path =
    match first_missing obj (Required s) with
    | Some req => Some (EMsg ("missing required field " ++ q (fieldPath path req)))
    | None => each_property obj path (Properties s)
    end.
Proof.
  intros Ht. destruct s as [t ps items req en de]. cbn [Type_] in Ht. subst t. cbn [validateValue Type_ Properties Required].
  destruct (first_missing obj req); [done|]. induction ps as [|[k s] ps IH]; [done|]. cbn.
  destruct (get k obj); [|done]. by destruct (validate _ s _).
Qed.

#[local] Ltac listed Ht :=
  exfalso; match goal with Hn : _ ∉ genaiTypes |- _ => apply Hn; rewrite Ht end;
  unfold genaiTypes; rewrite !elem_of_cons; tauto.

(** What a value of each type must be. *)
Lemma conforms_of_type s v :
  conforms s v <->
    if decide (Type_ s = "OBJECT") then exists obj, v = VMap obj /\
      (forall req, req ∈ Required s -> is_Some (get req obj)) /\
      (forall key propSchema val, (key, propSchema) ∈ Properties s -> get key obj = Some val ->
         conforms propSchema val)
    else if decide (Type_ s = "ARRAY") then exists arr, v = VArr arr /\
      forall items elem, Items s = Some items -> elem ∈ arr -> conforms items elem
    else if decide (Type_ s = "STRING") then exists str, v = VStr str /\ (Enum s = [] \/ str ∈ Enum s)
    else if decide (Type_ s = "INTEGER") then exists num, v = VNum num /\ Float64.whole num
    else if decide (Type_ s = "NUMBER") then exists num, v = VNum num
    else if decide (Type_ s = "BOOLEAN") then exists b, v = VBool b
    else True.
Proof.
  repeat (destruct (decide (Type_ s = _)) as [Ht|?]);
    (split; [inversion 1; subst; try congruence; try (by eauto); listed Ht|]).
  - intros (obj & -> & ? & ?). by apply conforms_object.
  - intros (arr & -> & ?). by apply conforms_array.
  - intros (str & -> & ?). by apply conforms_string.
  - intros (num & -> & ?). by apply conforms_integer.
  - intros (num & ->). by apply conforms_number.
  - intros (b & ->). by apply conforms_boolean.
  - intros _. apply conforms_other. unfold genaiTypes. rewrite !elem_of_cons, elem_of_nil. tauto.
Qed.

(** Checking a value finds an error exactly when it does not conform. *)
Lemma validateValue_exact : forall s v path, validate v s path = None <-> conforms s v.
Proof.
  apply (Schema_nested_ind (fun s => forall v path, validate v s path = None <-> conforms s v)).
  intros s IHp IHi v path. rewrite conforms_of_type. destruct (decide (Type_ s = "OBJECT")) as [Ht|Ho].
  { destruct v as [| | | | |obj].
    1-5: (destruct s; cbn in Ht; subst; split; [done|by intros (? & ? & _)]).
    rewrite validate_object by done. destruct (first_missing obj (Required s)) as [r|] eqn:Hm.
    - split; [done|]. intros (obj' & [= <-] & Hr%first_missing_none & _). congruence.
    - rewrite each_property_none by done. rewrite first_missing_none in Hm. split; [by exists obj|].
      by intros (obj' & [= <-] & _ & Hps). }
  assert (Hrest : validate v s path =
    if decide (Type_ s = "ARRAY") then
      match v with
      | VArr arr => match Items s with
                    | None => None
                    | Some items => each_element (fun elem path => validate elem items path) path 0 arr end
      | _ => expected "array" v path
      end
    else if decide (Type_ s = "STRING") then validateString v s path
    else if decide (Type_ s = "INTEGER") then validateInteger format_float v path
    else if decide (Type_ s = "NUMBER") then validateNumber v path
    else if decide (Type_ s = "BOOLEAN") then validateBoolean v path
    else None).
  { destruct s. cbn [validateValue Type_ Items] in *. by rewrite decide_False. }
  rewrite Hrest. repeat (destruct (decide (Type_ s = _))); [| | | | |done].
  - destruct v as [| | | |arr|]; try (split; [done|by intros (? & ? & _)]).
    destruct (Items s) as [items|] eqn:Hi.
    + rewrite (each_element_none _ (conforms items)) by (intros; by apply IHi). split.
      * intros H. exists arr. split; [done|]. intros items' elem [= <-]. by apply H.
      * intros (arr' & [= <-] & H). intros elem. by apply H.
    + split; [by exists arr|done].
  - unfold validateString. destruct v as [| | |str| |]; try (split; [done|by intros (? & ? & _)]).
    destruct (decide (Enum s <> [] /\ str ∉ Enum s)) as [[He Hn]|Hn].
    + split; [done|]. by intros (? & [= <-] & [?|?]).
    + split; [|done]. intros _. exists str. split; [done|]. destruct (decide (Enum s = [])); [by left|right].
      destruct (decide (str ∈ Enum s)); [done|]. by destruct Hn.
  - unfold validateInteger. destruct v as [| |num| | |]; try (split; [done|by intros (? & ? & _)]).
    destruct (Float64.eqb num (Float64.Trunc num)) eqn:Hf; cbn [negb].
    + apply Float64.eqb_Trunc in Hf. split; [by exists num|done].
    + split; [done|]. intros (? & [= <-] & Hw). apply Float64.eqb_Trunc in Hw. congruence.
  - unfold validateNumber. destruct v; try (split; [done|by intros (? & ?)]). split; [by eexists|done].
  - unfold validateBoolean. destruct v; try (split; [done|by intros (? & ?)]). split; [by eexists|done].
Qed.
End exactness.

(** ** What the compact notation describes *)
Inductive describes : value -> value -> Prop :=
  | describes_type t ty v :
      get t typeMap = Some ty -> conforms (plain_schema ty) v -> describes (VStr t) v
  | describes_enum t s :
      get t typeMap = None -> Contains t "|" = true -> s ∈ (TrimSpace <$> Split t "|") ->
      describes (VStr t) (VStr s)
  | describes_text t s : get t typeMap = None -> Contains t "|" = false -> describes (VStr t) (VStr s)
  | describes_other n s :
      match n with VStr _ | VMap _ => False | _ => True end -> describes n (VStr s)
  | describes_object fields obj :
      (forall rawKey n, (rawKey, n) ∈ fields -> key_isOptional rawKey = false -> is_Some (get (cleanKey rawKey) obj)) ->
      (forall rawKey n v, (rawKey, n) ∈ fields -> key_isArray rawKey = false -> get (cleanKey rawKey) obj = Some v ->
         describes n v) ->
      (forall rawKey n v, (rawKey, n) ∈ fields -> key_isArray rawKey = true -> get (cleanKey rawKey) obj = Some v ->
         is_Some (match v with VArr l => Some l | _ => None end)) ->
      (forall rawKey n l elem, (rawKey, n) ∈ fields -> key_isArray rawKey = true ->
         get (cleanKey rawKey) obj = Some (VArr l) -> elem ∈ l -> describes n elem) ->
      describes (VMap fields) (VMap obj).

(** No two keys of an object name the same field. *)
Fixpoint separate (n : value) : Prop :=
  match n with
  | VMap fields =>
      NoDup ((fun f => cleanKey f.1) <$> fields) /\
      (fix all (fields : list (string * value)) : Prop :=
         match fields with [] => True | (_, n) :: fields => separate n /\ all fields end) fields
  | _ => True
  end.

Lemma value_nested_ind (P : value -> Prop)
    (step_map : forall fields, Forall (fun f => P f.2) fields -> P (VMap fields))
    (step : forall n, match n with VMap _ => False | _ => True end -> P n) :
  forall n, P n.
Proof.
  fix IH 1. intros n. destruct n as [| | | | |fields]; try (by apply step). apply step_map.
  induction fields as [|[k n] fields IHf]; constructor; [apply IH|apply IHf].
Qed.

Lemma put_new k {A} (v : A) m : k ∉ m.*1 -> put k v m = (m ++ [(k, v)])%list.
Proof.
  induction m as [|[k' v'] m IH]; [done|]. cbn. rewrite not_elem_of_cons. intros [Hne Hn].
  rewrite decide_False by done. by rewrite IH.
Qed.

(** The properties of an object, key by key. *)
Fixpoint expand_fields (fields : list (string * value)) (acc : list (string * Schema) * list string)
    : list (string * Schema) * list string :=
  match fields with
  | [] => acc
  | (rawKey, v) :: fields => expand_fields fields (expand_property rawKey (expandValue v) acc)
  end.

Definition property_of (f : string * value) : string * Schema :=
  (cleanKey f.1, if key_isArray f.1 then array_of (expandValue f.2) else expandValue f.2).

Lemma expand_fields_exact fields : forall ps rq,
  NoDup (((fun f => cleanKey f.1) <$> fields) ++ ps.*1) ->
  expand_fields fields (ps, rq) =
    ((ps ++ (property_of <$> fields))%list,
     (rq ++ ((fun f => cleanKey f.1) <$> filter (fun f => key_isOptional f.1 = false) fields))%list).
Proof.
  induction fields as [|[raw n] fields IH]; intros ps rq Hnd; [by rewrite !app_nil_r|].
  cbn [expand_fields fmap list_fmap fst app] in *. apply NoDup_cons in Hnd as [Hn Hnd].
  rewrite not_elem_of_app in Hn. unfold expand_property. cbn [fst snd]. rewrite put_new by tauto.
  rewrite IH.
  - rewrite filter_cons. cbn [fst]. destruct (key_isOptional raw) eqn:Ho.
    + rewrite decide_False by done. f_equal. by rewrite <- app_assoc.
    + rewrite decide_True by done. cbn. f_equal; by rewrite <- app_assoc.
  - rewrite fmap_app. cbn. rewrite app_assoc. apply NoDup_app. split; [done|].
    split; [|apply NoDup_singleton]. intros k Hk ->%list_elem_of_singleton.
    apply elem_of_app in Hk. tauto.
Qed.

Lemma expandObject_exact fields :
  NoDup ((fun f => cleanKey f.1) <$> fields) ->
  expandValue (VMap fields) = mkSchema "OBJECT" (property_of <$> fields) None
    ((fun f => cleanKey f.1) <$> filter (fun f => key_isOptional f.1 = false) fields) [] "".
Proof.
  intros Hnd. transitivity (let '(ps, rq) := expand_fields fields ([], []) in mkSchema "OBJECT" ps None rq [] "").
  { cbn [expandValue]. generalize (@nil (string * Schema), @nil string). clear Hnd.
    induction fields as [|[raw n] fields IH]; intros acc; [done|]. cbn [expand_fields]. apply IH. }
  rewrite expand_fields_exact by by rewrite app_nil_r. done.
Qed.

Lemma conforms_array_of s v :
  conforms (array_of s) v <-> exists l, v = VArr l /\ forall elem, elem ∈ l -> conforms s elem.
Proof.
  rewrite conforms_of_type. cbn [array_of Type_]. rewrite decide_False, decide_True by done. split.
  - intros (l & -> & H). exists l. split; [done|]. intros elem. by apply H.
  - intros (l & -> & H). exists l. split; [done|]. intros items elem [= <-]. by apply H.
Qed.

Lemma conforms_STRING en v :
  conforms (mkSchema "STRING" [] None [] en "") v <-> exists str, v = VStr str /\ (en = [] \/ str ∈ en).
Proof. by rewrite conforms_of_type. Qed.

Lemma expandTypeString_exact t v : conforms (expandTypeString t) v <-> describes (VStr t) v.
Proof.
  unfold expandTypeString. destruct (get t typeMap) as [ty|] eqn:Hty.
  - split; [by apply describes_type|]. inversion 1; by simplify_eq.
  - destruct (Contains t "|") eqn:Hc; [|unfold plain_schema]; rewrite conforms_STRING; split.
    + intros (s & -> & [He|Hin]); [|by apply describes_enum].
      apply fmap_nil_inv in He. by destruct (Split_not_nil t "|").
    + inversion 1; subst; try congruence; eauto; done.
    + intros (s & -> & _). by apply describes_text.
    + inversion 1; subst; try congruence; eauto; done.
Qed.

(** The expansion of the notation accepts what the notation describes. *)
Lemma expandValue_exact : forall n, separate n -> forall v, conforms (expandValue n) v <-> describes n v.
Proof.
  apply (value_nested_ind (fun n => separate n -> forall v, conforms (expandValue n) v <-> describes n v)).
  2: { intros n Hn _ v. destruct n as [| | |t| |]; try done; [| | |apply expandTypeString_exact|].
       all: cbn [expandValue]; unfold plain_schema; rewrite conforms_STRING; split;
         [intros (s & -> & _); by apply describes_other|inversion 1; subst; eauto]. }
  intros fields IH [Hnd Hsep] v.
  assert (Hf : forall raw n, (raw, n) ∈ fields -> forall v, conforms (expandValue n) v <-> describes n v).
  { clear Hnd. induction IH as [|[raw n] fields Hh IH IHl]; [set_solver|]. destruct Hsep as [Hs Hsep].
    intros raw' n' [[= -> ->]|Hin]%elem_of_cons; [by apply Hh|]. by apply (IHl Hsep raw'). }
  clear IH Hsep. rewrite expandObject_exact by done. rewrite conforms_of_type. cbn [Type_ Required Properties].
  rewrite decide_True by done. split.
  - intros (obj & -> & Hreq & Hps). apply describes_object.
    + intros raw n Hin Hopt. apply Hreq. apply list_elem_of_fmap. exists (raw, n). split; [done|].
      by apply list_elem_of_filter.
    + intros raw n v Hin Harr Hg. apply (Hf raw n Hin). eapply Hps; [|exact Hg].
      apply list_elem_of_fmap. exists (raw, n). split; [|done]. unfold property_of. cbn [fst snd]. by rewrite Harr.
    + intros raw n v Hin Harr Hg. assert (Hc : conforms (array_of (expandValue n)) v).
      { eapply Hps; [|exact Hg]. apply list_elem_of_fmap. exists (raw, n). split; [|done].
        unfold property_of. cbn [fst snd]. by rewrite Harr. }
      apply conforms_array_of in Hc as (l & -> & _). by eexists.
    + intros raw n l elem Hin Harr Hg He. assert (Hc : conforms (array_of (expandValue n)) (VArr l)).
      { eapply Hps; [|exact Hg]. apply list_elem_of_fmap. exists (raw, n). split; [|done].
        unfold property_of. cbn [fst snd]. by rewrite Harr. }
      apply conforms_array_of in Hc as (l' & [= <-] & Hl). apply (Hf raw n Hin). by apply Hl.
  - inversion 1 as [| | |? ? Hno|? obj Hreq Hplain Harr Helem]; subst; [done|]. exists obj. split; [done|]. split.
    + intros req Hr. apply list_elem_of_fmap in Hr as ([raw n] & -> & [Ho Hin]%list_elem_of_filter).
      by apply (Hreq raw n).
    + intros key ps val Hin Hg. apply list_elem_of_fmap in Hin as ([raw n] & [= -> ->] & Hin). cbn [fst snd] in *.
      destruct (key_isArray raw) eqn:Ha.
      * destruct (Harr raw n val Hin Ha Hg) as [l Hl]. destruct val as [| | | |l'|]; try done.
        apply conforms_array_of. exists l'. split; [done|]. intros elem He. apply (Hf raw n Hin).
        by apply (Helem raw n l').
      * apply (Hf raw n Hin). by apply (Hplain raw n).
Qed.

(** C30: what an output schema accepts. A schema in the compact notation whose
    keys name different fields is expanded to one that an answer passes exactly
    when it is JSON and the value has the described shape: every field present
    that is not optional, arrays where the key says so and of the described
    elements, objects and enumerations at any depth, integers without a
    fraction. *)
Theorem output_schema_exact (format_float : Float64.t -> string) (unmarshal : string -> result value) fields :
  isFullSchema fields = false -> separate (VMap fields) ->
  exists s, ExpandOutputSchema (Some fields) = Some s /\
    forall text, ValidateJSON format_float unmarshal text s = None <->
      exists v, unmarshal text = Ok v /\ describes (VMap fields) v.
Proof.
  intros Hfull Hsep. exists (expandObject fields). split; [by cbn; rewrite Hfull|]. intros text.
  unfold ValidateJSON. destruct (unmarshal text) as [v|e].
  - rewrite validateValue_exact. unfold expandObject. rewrite expandValue_exact by done.
    split; [by exists v|by intros (? & [= <-] & ?)].
  - split; [done|by intros (? & ? & _)].
Qed.

(** ** Witnesses *)
Definition ex_notation : list (string * value) :=
  [("summary", VStr "string");
   ("issues[]", VMap [("severity", VStr "high|low"); ("line?", VStr "int")])].
Definition ex_answer (line : Float64.t) : value :=
  VMap [("summary", VStr "two issues");
        ("issues", VArr [VMap [("severity", VStr "low")]; VMap [("severity", VStr "high"); ("line", VNum line)]])].
Definition ex_unmarshal (text : string) : result value :=
  if decide (text = "whole") then Ok (ex_answer (Float64.mk 12 0))
  else if decide (text = "half") then Ok (ex_answer (Float64.mk 25 (-1)))
  else Err (EMsg "unexpected end of JSON input").
Definition ex_format (f : Float64.t) : string := Itoa (Float64.mantissa f).

Lemma ex_separate : separate (VMap ex_notation).
Proof.
  cbn. repeat split; try (apply (bool_decide_unpack (NoDup _)); vm_compute; exact Logic.I).
Qed.

Lemma output_schema_exact_witness :
  describes (VMap ex_notation) (ex_answer (Float64.mk 12 0)) /\
  ~ describes (VMap ex_notation) (ex_answer (Float64.mk 25 (-1))).
Proof.
  destruct (output_schema_exact ex_format ex_unmarshal ex_notation eq_refl ex_separate) as (s & Hs & Hok).
  injection Hs as <-. split.
  - destruct (proj1 (Hok "whole") ltac:(vm_compute; reflexivity)) as (v & Hv & Hd).
    vm_compute in Hv. injection Hv as <-. exact Hd.
  - intros Hd. pose proof (proj2 (Hok "half") (ex_intro _ _ (conj eq_refl Hd))) as He.
    vm_compute in He. discriminate.
Defined.

(** The question mark is only seen at the end of a key. *)
Lemma optional_array_order :
  Required (expandObject [("tags[]?", VStr "string")]) = [] /\
  Required (expandObject [("tags?[]", VStr "string")]) = ["tags"].
Proof. split; vm_compute; reflexivity. Qed.
