(* ===== verification/TaskLookup.v ===== *)
(** * Finding the tasks of a run by name (runtime/agent/internal/helpers/helpers.go
    and the storage tools of runtime/agent/tools.go)

    The tools that list the tasks of the run an agent belongs to and fetch the
    output of one of them. [Levenshtein_least]: the distance the search falls
    back on is the least number of edits; [FuzzyFindTask_best]: what the search
    finds; [loadTaskSummaries_exact]: what the list contains. *)
From S2P Require Import Prelude Storage Json Db GoStrings Sql Paging Tasks Paths Tokens Config.
From Stdlib Require Import Ascii.
Open Scope string_scope.

Module TaskSummary.
Record t := mk { Name : string; Index : Z; Status : string; StartedAt : string; Elapsed : string; Key : string }.
End TaskSummary.

Module getTaskResultOutput.
Record t := mk {
  Name : string; Index : Z; Status : string; ExitCode : Z; Stdout : string; Stderr : string;
  StartedAt : string; Elapsed : string; Truncated : bool }.
End getTaskResultOutput.

Definition TruncateStr (s : string) (maxBytes : Z) : string * bool :=
  if decide ((maxBytes <= 0)%Z \/ (Z.of_nat (String.length s) <= maxBytes)%Z) then (s, false)
  else (String.substring 0 (Z.to_nat maxBytes) s, true).

(** ** Edit distance, for ASCII names

    One row of the table from the row before it: [left] is the cell to the
    left, [prev] begins with the cell above it. *)
Fixpoint fill_row (ca : ascii) (left : nat) (prev : list nat) (b : string) : list nat :=
  match b, prev with
  | String cb b, diagonal :: ((above :: _) as prev) =>
      let cost := if Ascii.eqb ca cb then 0 else 1 in
      let cell := Nat.min (left + 1) (Nat.min (above + 1) (diagonal + cost)) in
      cell :: fill_row ca cell prev b
  | _, _ => []
  end.
Fixpoint fill_table (a : string) (i : nat) (prev : list nat) (b : string) : list nat :=
  match a with
  | EmptyString => prev
  | String ca a => fill_table a (S i) (S i :: fill_row ca (S i) prev b) b
  end.
Definition Levenshtein (a b : string) : nat :=
  let a := ToLower a in
  let b := ToLower b in
  if (String.length a =? 0)%nat then String.length b
  else if (String.length b =? 0)%nat then String.length a
  else nth (String.length b) (fill_table a 0 (seq 0 (S (String.length b))) b) 0.

(** ** Search *)
Fixpoint closest (name : string) (best : TaskSummary.t) (bestDist : nat) (tasks : list TaskSummary.t)
    : TaskSummary.t :=
  match tasks with
  | [] => best
  | t :: tasks =>
      let d := Levenshtein (TaskSummary.Name t) name in
      if (d <? bestDist)%nat then closest name t d tasks else closest name best bestDist tasks
  end.
Definition FuzzyFindTask (tasks : list TaskSummary.t) (name : string) : option TaskSummary.t :=
  match tasks with
  | [] => None
  | first :: rest =>
      match List.find (fun t => Contains (ToLower (TaskSummary.Name t)) (ToLower name)) tasks with
      | Some t => Some t
      | None => Some (closest name first (Levenshtein (TaskSummary.Name first) name) rest)
      end
  end.

(** ** Paths *)
Definition ParseTaskStepID (stepID : string) : Z * string :=
  match Split stepID "-" with
  | before :: after :: rest =>
      match ParseInt before with
      | Some n => (n, Join (after :: rest) "-")
      | None => ((-1)%Z, stepID)
      end
  | _ => ((-1)%Z, stepID)
  end.

(** A path that names a task, one that does not, and one on which the slice of
    its parts panics. *)
Inductive parsed : Type := NotTask | Parsed (index : Z) (name : string) | Panics.

Fixpoint index_of {A} (f : A -> bool) (l : list A) : option nat :=
  match l with [] => None | x :: l => if f x then Some 0 else S <$> index_of f l end.

Fixpoint first_index (parts : list string) (name : string) : parsed :=
  match parts with
  | [] => NotTask
  | p :: parts => match ParseInt p with Some idx => Parsed idx name | None => first_index parts name end
  end.

Definition is_kind (part : string) : bool := bool_decide (part = "tasks" \/ part = "agent").

Definition ParseTaskSummaryPath (p : string) : parsed :=
  let trimmed := TrimSpace (trim (Ascii.eqb "/") p) in
  if decide (trimmed = "") then NotTask
  else
    let parts := Split trimmed "/" in
    if decide ((length parts < 4)%nat \/ parts !! 0 <> Some "pipeline") then NotTask
    else if decide (parts !! 2 = Some "tasks") then
      let '(idx, name) := ParseTaskStepID (default "" (parts !! 3)) in Parsed idx name
    else if decide (parts !! 2 <> Some "jobs" \/ (length parts < 7)%nat) then NotTask
    else
      match index_of is_kind parts with
      | None => NotTask
      | Some kindIndex =>
          match parts !! S kindIndex with
          | None => NotTask
          | Some name =>
              if decide (name = "") then NotTask
              else if (kindIndex <? 4)%nat then Panics                    (* parts[4:kindIndex] *)
              else first_index (drop 4 (take kindIndex parts)) name
          end
      end.

(** ** The storage tools *)
Definition string_field (k : string) (payload : list (string * json)) : string :=
  match get_field k payload with Some (JStr s) => s | _ => "" end.

Definition to_summary (r : Result.t) (idx : Z) (name : string) : TaskSummary.t :=
  TaskSummary.mk name idx (string_field "status" (Result.Payload r)) (string_field "started_at" (Result.Payload r))
    (string_field "elapsed" (Result.Payload r)) (Result.Path r).

Notation summaries := (gmap (Z * string) TaskSummary.t).

(** The row with a start time is preferred, else the first one. *)
Definition better (t : TaskSummary.t) (existing : option TaskSummary.t) : bool :=
  match existing with
  | None => true
  | Some existing => negb (bool_decide (TaskSummary.StartedAt t = "")) && bool_decide (TaskSummary.StartedAt existing = "")
  end.

(** [None]: a panic. *)
Fixpoint collect_summaries (results : list Result.t) (bestByKey : summaries) : option summaries :=
  match results with
  | [] => Some bestByKey
  | r :: results =>
      match ParseTaskSummaryPath (Result.Path r) with
      | Panics => None
      | NotTask => collect_summaries results bestByKey
      | Parsed idx name =>
          let t := to_summary r idx name in
          collect_summaries results
            (if better t (bestByKey !! (idx, name)) then <[(idx, name) := t]> bestByKey else bestByKey)
      end
  end.

(** By index, then by name. *)
Definition summary_le (t u : TaskSummary.t) : Prop :=
  (TaskSummary.Index t < TaskSummary.Index u)%Z \/
  TaskSummary.Index t = TaskSummary.Index u /\ String.le (TaskSummary.Name t) (TaskSummary.Name u).
#[export] Instance summary_le_dec : RelDecision summary_le.
Proof. intros t u. unfold summary_le. apply _. Defined.

Section tools.
Context `{!Namespace, !OrderBy, !JsonText}.

Definition loadTaskSummaries (runID : string) : ST db (option (list TaskSummary.t)) :=
  let fields := ["status"; "started_at"; "elapsed"] in
  let! legacyResults := wrap "load legacy tasks" (GetAll ("/pipeline/" ++ runID ++ "/tasks/") fields) in
  let! jobResults := wrap "load job tasks" (GetAll ("/pipeline/" ++ runID ++ "/jobs/") fields) in
  ret (match collect_summaries (legacyResults ++ jobResults) ∅ with
       | None => None
       | Some bestByKey => Some (merge_sort summary_le (map_to_list bestByKey).*2)
       end).

(** [None] for the storage or an empty run id. *)
Definition list_tasks (run : option string) : ST db (option (list TaskSummary.t)) :=
  match run with None => ret (Some []) | Some runID => loadTaskSummaries runID end.


Definition task_key (runID : string) (t : TaskSummary.t) : string :=
  if decide (TaskSummary.Key t = "") then
    "/pipeline/" ++ runID ++ "/tasks/" ++ Itoa (TaskSummary.Index t) ++ "-" ++ TaskSummary.Name t
  else TaskSummary.Key t.

Definition task_result (matched : TaskSummary.t) (payload : json) (maxBytes : Z) : getTaskResultOutput.t :=
  let maxBytes := if (maxBytes <=? 0)%Z then 4096%Z else maxBytes in
  let fs := fields payload in
  let '(stdout, truncStdout) := TruncateStr (string_field "stdout" fs) maxBytes in
  let '(stderr, truncStderr) := TruncateStr (string_field "stderr" fs) maxBytes in
  getTaskResultOutput.mk (TaskSummary.Name matched) (TaskSummary.Index matched) (string_field "status" fs)
    (match get_field "code" fs with Some (JNum n) => n | _ => 0%Z end) stdout stderr
    (string_field "started_at" fs) (string_field "elapsed" fs) (truncStdout || truncStderr).

Definition get_task_result (run : option string) (name : string) (maxBytes : Z)
    : ST db (option getTaskResultOutput.t) :=
  match run with
  | None => fail (EMsg "task storage not available")
  | Some runID =>
      let! found := loadTaskSummaries runID in
      match found with
      | None => ret None
      | Some summaries =>
          match FuzzyFindTask summaries name with
          | None => fail (EMsg "no tasks found in current run")
          | Some matched =>
              let! payload := wrap ("get task " ++ q (TaskSummary.Name matched)) (Get (task_key runID matched)) in
              ret (Some (task_result matched payload maxBytes))
          end
      end
  end.
End tools.

(** ** The distance is the least number of edits *)
Notation chars := String.list_ascii_of_string.

Inductive edits : list ascii -> list ascii -> nat -> Prop :=
  | edits_none : edits [] [] 0
  | edits_keep x a b n : edits a b n -> edits (x :: a) (x :: b) n
  | edits_change x y a b n : edits a b n -> edits (x :: a) (y :: b) (S n)
  | edits_remove x a b n : edits a b n -> edits (x :: a) b (S n)
  | edits_insert y a b n : edits a b n -> edits a (y :: b) (S n).
#[local] Hint Constructors edits : core.

Lemma edits_app a b n : edits a b n -> forall a' b' m, edits a' b' m -> edits (a ++ a') (b ++ b') (n + m).
Proof. induction 1; cbn; intros; auto. Qed.

Lemma edits_rev a b n : edits a b n -> edits (rev a) (rev b) n.
Proof.
  induction 1 as [|x a b n _ IH|x y a b n _ IH|x a b n _ IH|y a b n _ IH]; cbn [rev]; [done| | | |].
  - replace n with (n + 0) by lia. apply edits_app; auto.
  - replace (S n) with (n + 1) by lia. apply edits_app; auto.
  - replace (S n) with (n + 1) by lia. rewrite <- (app_nil_r (rev b)). apply edits_app; auto.
  - replace (S n) with (n + 1) by lia. rewrite <- (app_nil_r (rev a)). apply edits_app; auto.
Qed.

(** The recurrence the table tabulates, from the ends of the two names. *)
Fixpoint dist (a : list ascii) : list ascii -> nat :=
  match a with
  | [] => fun b => length b
  | x :: a => fix row (b : list ascii) : nat :=
      match b with
      | [] => S (length a)
      | y :: b => Nat.min (row b + 1) (Nat.min (dist a (y :: b) + 1)
                    (dist a b + (if Ascii.eqb x y then 0 else 1)))
      end
  end.

Lemma dist_nil_r a : dist a [] = length a.
Proof. by destruct a. Qed.
Lemma dist_cons x a y b :
  dist (x :: a) (y :: b) = Nat.min (dist (x :: a) b + 1) (Nat.min (dist a (y :: b) + 1)
                             (dist a b + (if Ascii.eqb x y then 0 else 1))).
Proof. done. Qed.

Lemma edits_insert_all b : edits [] b (length b).
Proof. induction b; cbn; auto. Qed.

Lemma dist_edits a : forall b, edits a b (dist a b).
Proof.
  induction a as [|x a IHa]; intros b; [apply edits_insert_all|].
  induction b as [|y b IHb].
  - cbn. apply edits_remove. rewrite <- (dist_nil_r a). apply IHa.
  - rewrite dist_cons. destruct (Nat.min_spec (dist (x :: a) b + 1) (Nat.min (dist a (y :: b) + 1)
      (dist a b + (if Ascii.eqb x y then 0 else 1)))) as [[_ ->]|[_ ->]].
    { rewrite Nat.add_1_r. by apply edits_insert. }
    destruct (Nat.min_spec (dist a (y :: b) + 1) (dist a b + (if Ascii.eqb x y then 0 else 1))) as [[_ ->]|[_ ->]].
    { rewrite Nat.add_1_r. by apply edits_remove. }
    destruct (Ascii.eqb_spec x y) as [->|Hne]; [rewrite Nat.add_0_r; by apply edits_keep|].
    rewrite Nat.add_1_r. by apply edits_change.
Qed.

Lemma dist_remove x a : forall b, dist (x :: a) b <= S (dist a b).
Proof. intros [|y b]; [by rewrite !dist_nil_r|]. rewrite dist_cons. lia. Qed.
Lemma dist_insert a : forall y b, dist a (y :: b) <= S (dist a b).
Proof. destruct a as [|x a]; intros y b; [done|]. rewrite dist_cons. lia. Qed.

Lemma dist_least a b n : edits a b n -> dist a b <= n.
Proof.
  induction 1 as [|x a b n _ IH|x y a b n _ IH|x a b n _ IH|y a b n _ IH]; [done| | | |].
  - rewrite dist_cons, Ascii.eqb_refl. lia.
  - rewrite dist_cons. destruct (Ascii.eqb x y); lia.
  - pose proof (dist_remove x a b). lia.
  - pose proof (dist_insert a y b). lia.
Qed.

(** *** The rows of the table

    The cells of one row: the part of the first name read so far against each
    beginning of the second, both from the end. *)
Fixpoint cells (ra rb : list ascii) (b : string) : list nat :=
  dist ra rb :: match b with EmptyString => [] | String y b => cells ra (y :: rb) b end.

Lemma fill_row_cells ca ra b : forall rb,
  dist (ca :: ra) rb :: fill_row ca (dist (ca :: ra) rb) (cells ra rb b) b = cells (ca :: ra) rb b.
Proof.
  induction b as [|y b IH]; intros rb; [done|]. cbn [cells].
  rewrite <- (IH (y :: rb)). destruct b; reflexivity.
Qed.

Lemma cells_nil rb b : cells [] rb b = seq (length rb) (S (String.length b)).
Proof. revert rb. induction b as [|y b IH]; intros rb; [done|]. cbn [cells]. rewrite IH. done. Qed.

Lemma fill_table_cells a b : forall ra,
  fill_table a (length ra) (cells ra [] b) b = cells (rev (chars a) ++ ra) [] b.
Proof.
  induction a as [|ca a IH]; intros ra; [done|]. cbn [fill_table chars rev].
  pose proof (fill_row_cells ca ra b []) as Hrow. cbn [dist] in Hrow. rewrite Hrow.
  change (S (length ra)) with (length (ca :: ra)). rewrite IH. by rewrite <- app_assoc.
Qed.

Lemma nth_cells ra b : forall rb, nth (String.length b) (cells ra rb b) 0 = dist ra (rev (chars b) ++ rb).
Proof.
  induction b as [|y b IH]; intros rb; [done|]. cbn [cells String.length nth chars rev].
  rewrite IH. by rewrite <- app_assoc.
Qed.

Lemma length_chars s : length (chars s) = String.length s.
Proof. induction s; cbn; congruence. Qed.

Lemma Levenshtein_dist a b :
  Levenshtein a b = dist (rev (chars (ToLower a))) (rev (chars (ToLower b))).
Proof.
  unfold Levenshtein. cbv zeta. generalize (ToLower a) (ToLower b). clear a b. intros a b.
  destruct (Nat.eqb_spec (String.length a) 0) as [Ha|Ha].
  { destruct a; [|done]. cbn. by rewrite length_rev, length_chars. }
  destruct (Nat.eqb_spec (String.length b) 0) as [Hb|Hb].
  { destruct b; [|done]. rewrite dist_nil_r. by rewrite length_rev, length_chars. }
  change (seq 0 (S (String.length b))) with (seq (length (@nil ascii)) (S (String.length b))).
  rewrite <- cells_nil. change 0 with (length (@nil ascii)) at 1. rewrite fill_table_cells.
  by rewrite nth_cells, !app_nil_r.
Qed.

(** The distance of two names, ASCII capitals apart, is the least number of
    characters to change, remove or insert. *)
Lemma Levenshtein_least a b :
  edits (chars (ToLower a)) (chars (ToLower b)) (Levenshtein a b) /\
  forall n, edits (chars (ToLower a)) (chars (ToLower b)) n -> Levenshtein a b <= n.
Proof.
  rewrite Levenshtein_dist. split.
  - pose proof (edits_rev _ _ _ (dist_edits (rev (chars (ToLower a))) (rev (chars (ToLower b))))) as H.
    by rewrite !rev_involutive in H.
  - intros n Hn. by apply dist_least, edits_rev.
Qed.

(** ** What the search finds *)
Definition mentions (name : string) (t : TaskSummary.t) : bool :=
  Contains (ToLower (TaskSummary.Name t)) (ToLower name).

Lemma find_first {A} (f : A -> bool) l :
  match List.find f l with
  | Some x => exists before after, l = (before ++ x :: after)%list /\ f x = true /\
                forall y, y ∈ before -> f y = false
  | None => forall y, y ∈ l -> f y = false
  end.
Proof.
  induction l as [|x l IH]; cbn; [set_solver|]. destruct (f x) eqn:Hx.
  - exists [], l. split; [done|]. split; [done|set_solver].
  - destruct (List.find f l) as [y|].
    + destruct IH as (before & after & -> & Hy & Hb). exists (x :: before), after.
      split; [done|]. split; [done|]. intros z [->|?]%elem_of_cons; [done|by apply Hb].
    + intros y [->|?]%elem_of_cons; [done|by apply IH].
Qed.

Lemma closest_least name tasks : forall best,
  let t := closest name best (Levenshtein (TaskSummary.Name best) name) tasks in
  (t = best \/ t ∈ tasks) /\
  forall u, u = best \/ u ∈ tasks ->
    Levenshtein (TaskSummary.Name t) name <= Levenshtein (TaskSummary.Name u) name.
Proof.
  induction tasks as [|x tasks IH]; intros best; cbn [closest].
  - split; [by left|]. intros u [->|?]; [lia|set_solver].
  - destruct (Nat.ltb_spec (Levenshtein (TaskSummary.Name x) name) (Levenshtein (TaskSummary.Name best) name)) as [Hlt|Hge].
    + destruct (IH x) as [Hin Hle]. split; [set_solver|]. intros u [->|[->|Hu]%elem_of_cons].
      * pose proof (Hle x (or_introl eq_refl)). lia.
      * apply Hle. by left.
      * apply Hle. by right.
    + destruct (IH best) as [Hin Hle]. split; [set_solver|]. intros u [->|[->|Hu]%elem_of_cons].
      * apply Hle. by left.
      * pose proof (Hle best (or_introl eq_refl)). lia.
      * apply Hle. by right.
Qed.

(** Which task a name finds. Among the tasks of a run the search finds one
    as soon as there is one: the first whose name contains the query when some
    name does; otherwise one that no other beats, where the cost of a name is
    the least number of characters to change, remove or insert to turn it into
    the query. Case does not matter. *)
Theorem FuzzyFindTask_best tasks name :
  match FuzzyFindTask tasks name with
  | None => tasks = []
  | Some t =>
      (exists before after, tasks = (before ++ t :: after)%list /\ mentions name t = true /\
         forall u, u ∈ before -> mentions name u = false) \/
      t ∈ tasks /\ (forall u, u ∈ tasks -> mentions name u = false) /\
      exists n, edits (chars (ToLower (TaskSummary.Name t))) (chars (ToLower name)) n /\
        forall u m, u ∈ tasks -> edits (chars (ToLower (TaskSummary.Name u))) (chars (ToLower name)) m -> n <= m
  end.
Proof.
  unfold FuzzyFindTask. destruct tasks as [|first rest]; [done|].
  pose proof (find_first (mentions name) (first :: rest)) as Hf. unfold mentions in Hf at 1.
  destruct (List.find _ (first :: rest)) as [t|]; [by left|right].
  destruct (closest_least name rest first) as [Hin Hle]. set (t := closest name first _ rest) in *.
  split; [set_solver|]. split; [done|].
  exists (Levenshtein (TaskSummary.Name t) name). split; [apply Levenshtein_least|].
  intros u m Hu Hm. etrans; [apply (Hle u); set_solver|]. by apply (proj2 (Levenshtein_least _ _)).
Qed.

(** ** What the list contains *)
Definition summary_key (r : Result.t) : option (Z * string) :=
  match ParseTaskSummaryPath (Result.Path r) with Parsed idx name => Some (idx, name) | _ => None end.
Definition summary_of (r : Result.t) : option TaskSummary.t :=
  (fun k => to_summary r k.1 k.2) <$> summary_key r.
Definition panics_on (r : Result.t) : Prop := ParseTaskSummaryPath (Result.Path r) = Panics.
#[export] Instance panics_on_dec r : Decision (panics_on r).
Proof. unfold panics_on. destruct (ParseTaskSummaryPath _); [right|right|left]; done. Defined.

(** Every entry comes from a row, under the key its path names. *)
Definition from_rows (results : list Result.t) (m : summaries) : Prop :=
  map_Forall (fun k t => exists r, r ∈ results /\ summary_key r = Some k /\ t = to_summary r k.1 k.2) m.

Lemma collect_summaries_exact results : forall m,
  match collect_summaries results m with
  | None => exists r, r ∈ results /\ panics_on r
  | Some m' =>
      (forall r, r ∈ results -> ~ panics_on r) /\
      (forall k, is_Some (m' !! k) <-> is_Some (m !! k) \/ exists r, r ∈ results /\ summary_key r = Some k) /\
      (forall k t, m' !! k = Some t -> m !! k = Some t \/
         exists r, r ∈ results /\ summary_key r = Some k /\ t = to_summary r k.1 k.2) /\
      (forall k t, m' !! k = Some t -> TaskSummary.StartedAt t = "" ->
         (forall u, m !! k = Some u -> TaskSummary.StartedAt u = "") /\
         forall r, r ∈ results -> summary_key r = Some k -> string_field "started_at" (Result.Payload r) = "")
  end.
Proof.
  induction results as [|r results IH]; intros m; cbn [collect_summaries].
  { split; [set_solver|]. split; [set_solver|]. split; [by left|]. intros k t Hk Ht.
    split; [intros u Hu; by simplify_eq|set_solver]. }
  assert (Hr : forall k, summary_key r = Some k <-> ParseTaskSummaryPath (Result.Path r) = Parsed k.1 k.2).
  { intros [i n]. unfold summary_key. destruct (ParseTaskSummaryPath _); naive_solver. }
  unfold panics_on in *. destruct (ParseTaskSummaryPath (Result.Path r)) as [|idx name|] eqn:Hp.
  - specialize (IH m). destruct (collect_summaries results m) as [m'|]; [|set_solver].
    destruct IH as (H1 & H2 & H3 & H4). split_and!.
    + intros r' [->|?]%elem_of_cons; [congruence|by apply H1].
    + intros k. rewrite H2. setoid_rewrite elem_of_cons. split; [naive_solver|].
      intros [?|(r' & [->|?] & Hk)]; [by left|apply Hr in Hk; congruence|right; by exists r'].
    + intros k t Hk. destruct (H3 k t Hk) as [?|(r' & ? & ? & ?)]; [by left|right; exists r'; set_solver].
    + intros k t Hk Ht. destruct (H4 k t Hk Ht) as [Hu Hl]. split; [done|].
      intros r' [->|?]%elem_of_cons Hk'; [apply Hr in Hk'; congruence|by apply Hl].
  - set (t0 := to_summary r idx name). set (m0 := if better t0 (m !! (idx, name)) then _ else m).
    assert (Hkey : summary_key r = Some (idx, name)) by by apply Hr.
    specialize (IH m0). destruct (collect_summaries results m0) as [m'|]; [|set_solver].
    assert (Hm0 : forall k, k <> (idx, name) -> m0 !! k = m !! k).
    { intros k Hne. unfold m0. destruct (better _ _); [|done]. by apply lookup_insert_ne. }
    assert (Ht0 : (m0 !! (idx, name) = Some t0 /\ (forall u, m !! (idx, name) = Some u -> TaskSummary.StartedAt u = "")) \/
      exists u, m !! (idx, name) = Some u /\ m0 !! (idx, name) = Some u /\
        (TaskSummary.StartedAt u = "" -> TaskSummary.StartedAt t0 = "")).
    { unfold m0, better. destruct (m !! (idx, name)) as [u|] eqn:Hm; [|left; by rewrite lookup_insert_eq].
      destruct (decide (TaskSummary.StartedAt t0 = "")) as [E|E].
      { rewrite bool_decide_true by done. right. by exists u. }
      rewrite bool_decide_false by done. destruct (decide (TaskSummary.StartedAt u = "")) as [E2|E2].
      - rewrite bool_decide_true by done. left. cbn [negb andb]. rewrite lookup_insert_eq. split; [done|naive_solver].
      - rewrite bool_decide_false by done. right. by exists u. }
    clearbody m0.
    destruct IH as (H1 & H2 & H3 & H4). split_and!.
    + intros r' [->|?]%elem_of_cons; [congruence|by apply H1].
    + intros k. rewrite H2. setoid_rewrite elem_of_cons. destruct (decide (k = (idx, name))) as [->|Hne].
      * split; [intros _; right; exists r; naive_solver|]. intros _. left.
        destruct Ht0 as [[-> _]|(u & _ & -> & _)]; by eexists.
      * rewrite Hm0 by done. split; [naive_solver|].
        intros [?|(r' & [->|?] & Hk)]; [by left|congruence|right; by exists r'].
    + intros k t Hk. destruct (H3 k t Hk) as [Hold|(r' & ? & ? & ?)]; [|right; exists r'; set_solver].
      destruct (decide (k = (idx, name))) as [->|Hne]; [|left; by rewrite <- Hm0].
      destruct Ht0 as [[Ht0 _]|(u & Hu & Hu0 & _)]; [|left; congruence].
      right. exists r. split; [by left|]. split; [done|]. by simplify_eq.
    + intros k t Hk Ht. destruct (H4 k t Hk Ht) as [Hu Hl]. destruct (decide (k = (idx, name))) as [->|Hne].
      * destruct Ht0 as [[Ht0 Hold]|(u & Hmu & Hu0 & Himp)].
        { split; [done|]. intros r' [->|?]%elem_of_cons Hk'; [|by apply Hl]. by apply (Hu t0). }
        split; [intros u' Hu'; simplify_eq; by apply Hu|].
        intros r' [->|?]%elem_of_cons Hk'; [|by apply Hl]. apply Himp, Hu, Hu0.
      * split; [intros u; rewrite <- Hm0 by done; apply Hu|].
        intros r' [->|?]%elem_of_cons Hk'; [congruence|by apply Hl].
  - exists r. split; [by left|done].
Qed.

#[export] Instance summary_le_total : Total summary_le.
Proof.
  intros t u. unfold summary_le. destruct (Z.lt_trichotomy (TaskSummary.Index t) (TaskSummary.Index u)) as [?|[?|?]].
  - by do 2 left.
  - destruct (total String.le (TaskSummary.Name t) (TaskSummary.Name u)); [left|right]; by right.
  - right. by left.
Qed.
#[export] Instance summary_le_trans : Transitive summary_le.
Proof.
  unfold summary_le. intros t u v [?|[Htu Htu']] [?|[Huv Huv']]; [left; lia|left; lia|left; lia|].
  right. split; [lia|]. by etrans.
Qed.

Definition entry_key (t : TaskSummary.t) : Z * string := (TaskSummary.Index t, TaskSummary.Name t).

Section list_facts.
Context `{!Namespace, !OrderBy, !JsonText}.

(** The rows the list is made from. *)
Definition run_results (runID : string) (d : db) : list Result.t :=
  let rows prefix := to_result ["status"; "started_at"; "elapsed"] <$> glob_rows (task_path prefix ++ "*") d in
  app (rows ("/pipeline/" ++ runID ++ "/tasks/")) (rows ("/pipeline/" ++ runID ++ "/jobs/")).

(** What the list of a run's tasks contains. On a store that does not fail,
    either some row's path makes the reader of paths panic, or the list is
    sorted by index and name, has one entry for each task that a row of the run
    names and no others, each entry shows one such row, and it shows a row
    that has started if one has. *)
Theorem loadTaskSummaries_exact runID d :
  db_faults d = [] ->
  exists out, loadTaskSummaries runID d = (Ok out, d) /\
  match out with
  | None => exists r, r ∈ run_results runID d /\ panics_on r
  | Some l =>
      (forall r, r ∈ run_results runID d -> ~ panics_on r) /\
      StronglySorted summary_le l /\ NoDup (entry_key <$> l) /\
      (forall k, k ∈ (entry_key <$> l) <-> exists r, r ∈ run_results runID d /\ summary_key r = Some k) /\
      forall t, t ∈ l ->
        (exists r, r ∈ run_results runID d /\ summary_of r = Some t) /\
        (TaskSummary.StartedAt t = "" -> forall r, r ∈ run_results runID d -> summary_key r = Some (entry_key t) ->
           string_field "started_at" (Result.Payload r) = "")
  end.
Proof.
  intros Hf. unfold loadTaskSummaries, wrap, bind. rewrite !GetAll_no_faults by done. cbn [default_fields].
  unfold ret. eexists. split; [reflexivity|]. change (default_fields _) with ["status"; "started_at"; "elapsed"].
  fold (run_results runID d). pose proof (collect_summaries_exact (run_results runID d) ∅) as Hc.
  destruct (collect_summaries (run_results runID d) ∅) as [m|]; [|done]. destruct Hc as (Hp & Hk & Hv & Hs).
  set (l := merge_sort _ _). assert (Hperm : l ≡ₚ (map_to_list m).*2) by apply merge_sort_Permutation.
  assert (Hkey : forall k t, m !! k = Some t -> entry_key t = k).
  { intros k t Hm. destruct (Hv k t Hm) as [Hm'|(r & _ & _ & ->)]; [by rewrite lookup_empty in Hm'|]. by destruct k. }
  assert (Hin : forall t, t ∈ l <-> m !! entry_key t = Some t).
  { intros t. rewrite Hperm, list_elem_of_fmap. split.
    - intros ([k t'] & -> & Hkt%elem_of_map_to_list). cbn. by rewrite (Hkey k t').
    - intros Hm. exists (entry_key t, t). split; [done|]. by apply elem_of_map_to_list. }
  assert (Hkeys : entry_key <$> (map_to_list m).*2 = (map_to_list m).*1).
  { rewrite <- list_fmap_compose. apply list_fmap_ext. intros i [k t] Hi%list_elem_of_lookup_2.
    cbn. by apply Hkey, elem_of_map_to_list. }
  split; [done|]. split; [apply StronglySorted_merge_sort; apply _|]. split.
  { rewrite Hperm, Hkeys. apply NoDup_fst_map_to_list. }
  split.
  { intros k. transitivity (is_Some (m !! k)).
    - rewrite Hperm, Hkeys, list_elem_of_fmap. split.
      + intros ([k' t] & -> & Hkt%elem_of_map_to_list). by exists t.
      + intros [t Ht]. exists (k, t). split; [done|]. by apply elem_of_map_to_list.
    - rewrite Hk, lookup_empty. split; [by intros [[? ?]|?]|by right]. }
  intros t Ht%Hin. split.
  - destruct (Hv _ t Ht) as [Hm|(r & Hr & Hrk & Hrt)]; [by rewrite lookup_empty in Hm|]. exists r. split; [done|].
    unfold summary_of. rewrite Hrk. cbn. by f_equal.
  - intros Hst r Hr Hrk. by apply (Hs (entry_key t) t Ht Hst).
Qed.
End list_facts.

(** ** Witnesses *)
Section witnesses.
#[local] Existing Instances ex_ns ex_text stable_order.

Definition ex_row_of (status started : string) : json :=
  JObj (("status", JStr status) :: if decide (started = "") then [] else [("started_at", JStr started)]).
Definition ex_put (path : string) (payload : json) (d : db) : db := upsert_task path "r1" payload d.
Definition ex_job (job : string) : db :=
  ex_put ("/pipeline/r1/jobs/" ++ job ++ "/1/tasks/lint") (ex_row_of "running" "2024-05-01T10:00:00Z")
    (ex_put ("/pipeline/r1/jobs/" ++ job ++ "/0/tasks/build") (ex_row_of "success" "2024-05-01T09:00:00Z") empty_db).

Lemma loadTaskSummaries_exact_witness :
  exists l, (loadTaskSummaries "r1" (ex_job "ci")).1 = Ok (Some l) /\
    entry_key <$> l = [(0%Z, "build"); (1%Z, "lint")] /\ StronglySorted summary_le l.
Proof.
  destruct (loadTaskSummaries_exact "r1" (ex_job "ci") eq_refl) as (out & He & Hout).
  assert (Hl : (entry_key <$> default [] out) = [(0%Z, "build"); (1%Z, "lint")] /\ is_Some out).
  { apply (f_equal fst) in He. vm_compute in He. injection He as <-. split; [reflexivity|by eexists]. }
  destruct Hl as [Hl [l ->]]. exists l. rewrite He. split; [reflexivity|]. split; [exact Hl|].
  destruct Hout as (_ & Hs & _). exact Hs.
Defined.

(** In a job named "agent" or "tasks" the slice of the path's parts is out of
    range: listing the tasks of the run panics. *)
Lemma job_name_panics : (loadTaskSummaries "r1" (ex_job "agent")).1 = Ok None.
Proof. vm_compute. reflexivity. Qed.

(** The query is a part of a name before it is an approximation of one. *)
Lemma found_by_part_or_distance :
  let task name := TaskSummary.mk name 0 "" "" "" "" in
  TaskSummary.Name <$> FuzzyFindTask [task "test"; task "Build"; task "rebuild"] "BUILD" = Some "Build" /\
  TaskSummary.Name <$> FuzzyFindTask [task "test"; task "lint"] "lnit" = Some "lint".
Proof. split; vm_compute; reflexivity. Qed.
End witnesses.
