(* ===== verification/TerminalViews.v ===== *)
(** * Run pages (server/terminal.go, server/web_runs_controller.go,
    server/web_share_controller.go)

    What the pages of a run show: the tree of its tasks with their output as
    HTML, the counts of their states, and the same page for a share link with
    the secrets taken out. Templates, the rendering of terminal output and the
    full-text index are parameters. *)
From S2P Require Import Prelude Storage Json Db GoStrings Sql Paging Runs Tasks Pipelines Paths Server Tokens.
From S2P Require Import Redaction Encoding Encryption Secrets SecretStore Shares PipelinesApi TaskLookup Trees.
From Stdlib Require Import Ascii.
Open Scope string_scope.

(** ** Terminal output (terminal.go) *)
Module TerminalLogEntry.
Record t := mk { Type_ : string; Content : string }.
End TerminalLogEntry.

Definition entry_of (entry : json) : option TerminalLogEntry.t :=
  match entry with
  | JObj fs =>
      let '(ty, content) := (string_field "type" fs, string_field "content" fs) in
      if decide (ty = "" \/ content = "") then None else Some (TerminalLogEntry.mk ty content)
  | _ => None
  end.
(** [unmarshal_logs]: a text of JSON with entries. *)
Definition ParseTerminalLogs (unmarshal_logs : string -> result (list TerminalLogEntry.t)) (raw : option json)
    : list TerminalLogEntry.t :=
  match raw with
  | Some (JArr entries) => omap entry_of entries
  | Some (JStr text) => match unmarshal_logs text with Ok logs => logs | Err _ => [] end
  | _ => []
  end.

Definition SanitizeTerminalID (fullPath : string) : string :=
  trim_left (fun a => Ascii.eqb a "_") (ReplaceByte fullPath "/" "_").

(** [html.EscapeString] *)
Definition escape_char (a : ascii) : string :=
  if Ascii.eqb a "&" then "&amp;"
  else if Ascii.eqb a "'" then "&#39;"
  else if Ascii.eqb a "<" then "&lt;"
  else if Ascii.eqb a ">" then "&gt;"
  else if Ascii.eqb a (ascii_of_nat 34) then "&#34;"
  else String a "".
Fixpoint EscapeString (s : string) : string :=
  match s with EmptyString => "" | String a s => escape_char a ++ EscapeString s end.

Definition qt : string := String (ascii_of_nat 34) "".
Definition attr (name value : string) : string := name ++ "=" ++ qt ++ value ++ qt.
Definition line_id (safeID : string) (n : nat) : string := safeID ++ "-L" ++ Itoa (Z.of_nat n).
Definition wrap_line (safeID : string) (n : nat) (line : string) : string :=
  "<div " ++ attr "class" "term-line" ++ " " ++ attr "id" (line_id safeID n) ++ "><a " ++ attr "class" "term-line-num"
  ++ " " ++ attr "href" ("#" ++ line_id safeID n) ++ ">" ++ Itoa (Z.of_nat n) ++ "</a><span "
  ++ attr "class" "term-line-content" ++ ">" ++ line ++ "</span></div>".
Definition WrapTerminalLines (htmlContent terminalID : string) : string :=
  if decide (htmlContent = "") then ""
  else
    let safeID := EscapeString terminalID in
    foldr String.append "" (imap (fun i line => wrap_line safeID (S i) line) (Split htmlContent (ascii_of_nat 10))).

Section terminal.
Context (Render : string -> string) (unmarshal_logs : string -> result (list TerminalLogEntry.t)).
Definition ToTerminalHTML (text : string) : string := Render text.
Definition ToTerminalHTMLFromLogs (logs : list TerminalLogEntry.t) : string :=
  match logs with
  | [] => ""
  | _ => Render (foldr String.append "" (TerminalLogEntry.Content <$> logs))
  end.
(** The output of a task: its log entries or, without any, its streams, or else
    its error message. *)
Definition output_html (payload : list (string * json)) : string :=
  let html := ToTerminalHTMLFromLogs (ParseTerminalLogs unmarshal_logs (get_field "logs" payload)) in
  if decide (html = "") then
    let displayOutput := string_field "stdout" payload ++ string_field "stderr" payload in
    ToTerminalHTML (if decide (displayOutput = "") then string_field "error_message" payload else displayOutput)
  else html.
Definition still_running (payload : list (string * json)) : bool :=
  let status := string_field "status" payload in bool_decide (status = "running" \/ status = "").
Definition container (extra html : string) : string := "<div " ++ attr "class" "term-container" ++ extra ++ ">" ++ html ++ "</div>".
Definition reload (url : string) : string :=
  " " ++ attr "hx-get" url ++ " " ++ attr "hx-trigger" "load delay:2s" ++ " " ++ attr "hx-swap" "outerHTML".

(** The HTML of a row on a page; [redact] is applied to the HTML. *)
Definition row_html (terminalBaseURL : string) (redact : string -> string) (r : Result.t) : string :=
  let html := redact (WrapTerminalLines (output_html (Result.Payload r)) (SanitizeTerminalID (Result.Path r))) in
  container (if still_running (Result.Payload r) then reload (terminalBaseURL ++ EscapeString (Result.Path r)) else "") html.
(** That of the terminal fragment. *)
Definition fragment_html (lookupPath : string) (payload : list (string * json)) : string :=
  let html := WrapTerminalLines (output_html payload) (SanitizeTerminalID lookupPath) in
  container (if still_running payload then reload ("/terminal" ++ lookupPath) else "") html.
End terminal.

(** ** The tree of a page *)
Module TaskStats.
Record t := mk { Success : nat; Failure : nat; Pending : nat }.
Definition zero : t := mk 0 0 0.
Definition add (status : string) (s : t) : t :=
  if decide (status = "success") then mk (S (Success s)) (Failure s) (Pending s)
  else if decide (status = "failure" \/ status = "error") then mk (Success s) (S (Failure s)) (Pending s)
  else mk (Success s) (Failure s) (S (Pending s)).
End TaskStats.
Notation task_tree := (Tree (list (string * json))).

Fixpoint countTaskStatsRecursive (node : task_tree) (stats : TaskStats.t) : TaskStats.t :=
  match node with
  | mkTree name [] value _ =>
      if decide (name = "") then stats else TaskStats.add (string_field "status" value) stats
  | mkTree _ cs _ _ => foldl (fun stats child => countTaskStatsRecursive child stats) stats cs
  end.
Definition countTaskStats (tree : task_tree) : TaskStats.t := countTaskStatsRecursive tree TaskStats.zero.

Fixpoint injectTerminalHTML (htmlByPath : gmap string string) (node : task_tree) : task_tree :=
  match node with
  | mkTree name [] value fullPath =>
      match htmlByPath !! fullPath with
      | Some html => if decide (fullPath = "") then node
                     else mkTree name [] (set_field "terminalHTML" (JStr html) value) fullPath
      | None => node
      end
  | mkTree name cs value fullPath => mkTree name (map (injectTerminalHTML htmlByPath) cs) value fullPath
  end.

(** ** The pages (web_runs_controller.go, web_share_controller.go)

    The text of a graph, [TreeJSON], is a function of the tree and left out. *)
Inductive page : Type :=
  | TasksPage (readOnly : bool) (tree : task_tree) (path runID : string) (isActive : bool)
      (run : option PipelineRun.t) (pipeline : option Pipeline.t) (title : string) (stats : TaskStats.t)
  | GraphPage (tree : task_tree) (path runID : string) (isActive : bool)
      (run : option PipelineRun.t) (pipeline : option Pipeline.t) (title : string)
  | TasksPartialPage (code : Z) (pushUrl : option string) (tree : task_tree) (path runID : string)
      (isActive : bool) (run : option PipelineRun.t) (stats : TaskStats.t)
  | GraphPartialPage (code : Z) (tree : task_tree) (path runID : string) (isActive : bool)
      (run : option PipelineRun.t)
  | HTMLPage (code : Z) (html : string)
  | HTTPErrorPage (code : Z) (msg : string).

Definition terminal_fields : list string := ["logs"; "stdout"; "stderr"; "status"; "error_message"].
Definition tree_fields : list string := ["status"; "elapsed"; "started_at"; "usage"; "error_message"; "error_type"].
Definition isActive (run : option PipelineRun.t) : bool :=
  match run with
  | Some run => bool_decide (PipelineRun.Status run = RunStatusQueued \/ PipelineRun.Status run = RunStatusRunning)
  | None => false
  end.
Definition run_path (runID : string) : string := "/pipeline/" ++ runID ++ "/".
Definition title_of (title : string) (pipeline : option Pipeline.t) : string :=
  match pipeline with Some p => title ++ " — " ++ Pipeline.Name p | None => title end.
Definition stop_polling (active : bool) : Z := if active then 200 else 286.
Definition html_by_path (html : Result.t -> string) (rows : list Result.t) : gmap string string :=
  foldl (fun m r => <[Result.Path r := html r]> m) ∅ rows.

Section pages.
Context `{!Namespace, !OrderBy, !JsonText, !UniqueIDs}.
Context (Render : string -> string) (unmarshal_logs : string -> result (list TerminalLogEntry.t)).
(** [data_fts MATCH query], of the path and the text of a task. *)
Context (fts : string -> result (string * taskRow.t -> bool)).

(** Storage.Search: [LIKE] without an escape character. *)
Definition Search (prefix query_ : string) : ST db (list Result.t) :=
  if decide (query_ = "") then ret []
  else
    match fts (sanitizeFTSQuery query_) with
    | Err e => fail (EWrap "failed to search" e)
    | Ok matches =>
        let pattern := ReplaceByte (task_path prefix) "\" "\\" ++ "/%" in
        wrap "failed to search"
          (query (fun d => to_result ["status"; "elapsed"; "started_at"] <$>
             order_by (fun row => taskRow.ID row.2)
               (List.filter (fun row => matches row && LIKE row.1 pattern) (map_to_list (db_tasks d)))))
    end.

Context {S : Type} `{!HasDb S}.

Definition find_run (runID : string) : ST S (option PipelineRun.t) :=
  let! run := attempt (on_db (GetRun runID)) in
  ret match run with Ok run => Some run | Err _ => None end.
Definition find_pipeline (run : option PipelineRun.t) : ST S (option Pipeline.t) :=
  match run with
  | None => ret None
  | Some run =>
      if decide (PipelineRun.PipelineID run = "") then ret None
      else
        let! p := attempt (on_db (GetPipeline (PipelineRun.PipelineID run))) in
        ret match p with Ok p => Some p | Err _ => None end
  end.

Definition preloadTerminalHTMLWithOptions (lookupPath : string) (tree : task_tree) (terminalBaseURL : string)
    (redact : string -> string) : ST S task_tree :=
  let! rows := attempt (on_db (GetAll lookupPath terminal_fields)) in
  ret match rows with
      | Err _ => tree
      | Ok rows => injectTerminalHTML (html_by_path (row_html Render unmarshal_logs terminalBaseURL redact) rows) tree
      end.
Definition preloadTerminalHTML (lookupPath : string) (tree : task_tree) : ST S task_tree :=
  preloadTerminalHTMLWithOptions lookupPath tree "/terminal" id.

Definition Terminal (param : string) : ST S page :=
  let lookupPath := "/" ++ TrimPrefix param "/" in
  if decide (lookupPath = "/") then ret (HTMLPage 404 (container "" ""))
  else
    let! payload := attempt (on_db (Get lookupPath)) in
    ret match payload with
        | Err _ => HTMLPage 404 (container "" "")
        | Ok payload => HTMLPage 200 (fragment_html Render unmarshal_logs lookupPath (fields payload))
        end.

Definition Show (runID : string) : ST S page :=
  let lookupPath := run_path runID in
  let! results := wrap "could not get all results" (on_db (GetAll lookupPath tree_fields)) in
  let! run := find_run runID in
  let! pipeline := find_pipeline run in
  let tree := AsTree results in
  let stats := countTaskStats tree in
  let! tree := preloadTerminalHTML lookupPath tree in
  ret (TasksPage false tree lookupPath runID (isActive run) run pipeline (title_of "Tasks" pipeline) stats).

Definition Graph (runID : string) : ST S page :=
  let lookupPath := run_path runID in
  let! results := wrap "could not get all results" (on_db (GetAll lookupPath ["status"; "dependsOn"])) in
  let! run := find_run runID in
  let! pipeline := find_pipeline run in
  ret (GraphPage (AsTree results) lookupPath runID (isActive run) run pipeline (title_of "Task Graph" pipeline)).

Definition TasksPartial (runID q_ : string) : ST S page :=
  let lookupPath := run_path runID in
  if negb (bool_decide (q_ = "")) then
    let! results := wrap "could not search tasks" (on_db (Search ("pipeline/" ++ runID) q_)) in
    let tree := AsTree results in
    let stats := countTaskStats tree in
    let! tree := preloadTerminalHTML lookupPath tree in
    let! run := find_run runID in
    ret (TasksPartialPage 200 (Some ("/runs/" ++ runID ++ "/tasks?q=" ++ q_)) tree lookupPath runID (isActive run) run stats)
  else
    let! results := wrap "could not get all results" (on_db (GetAll lookupPath tree_fields)) in
    let! run := find_run runID in
    let tree := AsTree results in
    let stats := countTaskStats tree in
    let! tree := preloadTerminalHTML lookupPath tree in
    ret (TasksPartialPage (stop_polling (isActive run)) None tree lookupPath runID (isActive run) run stats).

Definition GraphData (runID : string) : ST S page :=
  let lookupPath := run_path runID in
  let! results := wrap "could not get all results" (on_db (GetAll lookupPath ["status"; "dependsOn"])) in
  let! run := find_run runID in
  ret (GraphPartialPage (stop_polling (isActive run)) (AsTree results) lookupPath runID (isActive run) run).
End pages.

(** The page of a share link. *)
Section shared.
Context `{!Namespace, !OrderBy, !JsonText, !UniqueIDs, !Crypto} {S : Type} `{!SecretsManager S}.
Context (Render : string -> string) (unmarshal_logs : string -> result (list TerminalLogEntry.t)).

Definition share_Show (configured : bool) (signingSecret : string) (now : time) (token : string) : ST (api S) page :=
  match validateToken signingSecret now token with
  | inr (ShareHTTPError code msg) => ret (HTTPErrorPage code msg)
  | inr (SharePath _) => ret (HTTPErrorPage 404 "not found")
  | inl runID =>
      let lookupPath := run_path runID in
      let! results := wrap "could not get all results" (on_db (GetAll lookupPath tree_fields)) in
      let! run := find_run runID in
      let! pipeline := find_pipeline run in
      let pipelineID := match run with Some run => PipelineRun.PipelineID run | None => "" end in
      let tree := AsTree results in
      let stats := countTaskStats tree in
      let! secretValues := on_secrets (collectSecretValues configured pipelineID) in
      let redact := fun html => RedactSecrets html secretValues in
      let! tree := preloadTerminalHTMLWithOptions Render unmarshal_logs lookupPath tree "/terminal" redact in
      ret (TasksPage true tree lookupPath runID false run pipeline (title_of "Tasks" pipeline) stats)
  end.
End shared.

(** ** Facts about the trees of pages *)
Notation leaf := (string * list (string * json))%type.

(** The counts of a page are those of its leaves. *)
Definition count_rows (rows : list leaf) (stats : TaskStats.t) : TaskStats.t :=
  foldl (fun stats row => TaskStats.add (string_field "status" row.2) stats) stats rows.
Lemma count_leaves tree : forall stats,
  named tree = true -> countTaskStatsRecursive tree stats = count_rows (leaves tree) stats.
Proof.
  induction tree as [n cs v fp IH] using Tree_ind'. intros stats Hn. destruct cs as [|c0 cs].
  - cbn in *. apply negb_true_iff, bool_decide_eq_false in Hn. by rewrite decide_False.
  - rewrite named_group in Hn by done. rewrite leaves_group by done. cbn [countTaskStatsRecursive].
    clear -IH Hn. revert stats. induction IH as [|c l Hc Hl IHl]; intros stats; [done|].
    cbn in Hn |- *. apply andb_true_iff in Hn as [Hx Hy]. rewrite Hc by done. rewrite IHl by done.
    unfold count_rows. by rewrite foldl_app.
Qed.

(** What is set on a leaf. *)
Definition injected (m : gmap string string) (l : leaf) : leaf :=
  (l.1, match m !! l.1 with
        | Some html => if decide (l.1 = "") then l.2 else set_field "terminalHTML" (JStr html) l.2
        | None => l.2
        end).
Lemma inject_leaves m tree : leaves (injectTerminalHTML m tree) = injected m <$> leaves tree.
Proof.
  induction tree as [n cs v fp IH] using Tree_ind'. destruct cs as [|c0 cs].
  - cbn. unfold injected. cbn. destruct (m !! fp) as [html|]; [by destruct (decide _)|done].
  - cbn [injectTerminalHTML]. rewrite !leaves_group by done.
    clear -IH. induction IH as [|c l Hc Hl IHl]; [done|]. cbn. by rewrite fmap_app, Hc, IHl.
Qed.

(** The HTML of a path is that of its last row. *)
Lemma html_by_path_Some html rows : forall (m : gmap string string) path h,
  foldl (fun m r => <[Result.Path r := html r]> m) m rows !! path = Some h ->
  m !! path = Some h \/ exists r, r ∈ rows /\ Result.Path r = path /\ h = html r.
Proof.
  induction rows as [|r rows IH]; intros m path h; [by left|]. cbn. intros [Hm|(r' & Hin & Hp & Hh)]%IH.
  - destruct (decide (Result.Path r = path)) as [<-|Hne].
    + rewrite lookup_insert_eq in Hm. injection Hm as <-. right. exists r. split; [left|done].
    + rewrite lookup_insert_ne in Hm by done. by left.
  - right. exists r'. split; [by right|done].
Qed.

(** A leaf shows a row, or nothing was run. *)
Lemma leaf_step_in {T} (row : list string * T) acc x : x ∈ leaf_step acc row -> x ∈ acc \/ x = row.
Proof.
  unfold leaf_step. destruct (split_last acc) as [[before [q w]]|] eqn:Hacc; [|by intros ->%list_elem_of_singleton; right].
  apply split_last_Some in Hacc as ->. destruct (decide _); [|destruct (decide _)]; set_solver.
Qed.
Lemma leaf_rows_in {T} (rows : list (string * T)) path v : (path, v) ∈ leaf_rows rows -> v ∈ rows.*2.
Proof.
  unfold leaf_rows. intros ([q w] & [= _ <-] & Hin)%list_elem_of_fmap.
  assert (Hall : forall acc, (q, v) ∈ foldl leaf_step acc (prod_map path_parts id <$> rows) ->
    (q, v) ∈ acc \/ v ∈ rows.*2).
  { clear Hin. induction rows as [|[p u] rows IH]; intros acc Hin; [by left|]. cbn in Hin |- *.
    destruct (IH _ Hin) as [[Ha|Ha]%leaf_step_in|Ha]; [by left| |by right; right].
    injection Ha as _ ->. right. left. }
  by destruct (Hall [] Hin) as [?%not_elem_of_nil|?].
Qed.
Lemma tree_leaf_payload (results : list Result.t) path v :
  (path, v) ∈ leaves (AsTree results) -> v = [] \/ exists r, r ∈ results /\ v = Result.Payload r.
Proof.
  unfold AsTree. destruct (decide (results = [])) as [->|Hne].
  - cbn. intros [= _ ->]%list_elem_of_singleton. by left.
  - rewrite Flatten_tree_leaves by (by destruct results). intros Hin%leaf_rows_in. right.
    rewrite <- list_fmap_compose in Hin. apply list_elem_of_fmap in Hin as (r & -> & Hr). by exists r.
Qed.

(** ** The run page *)
Section page_facts.
Context `{!Namespace, !OrderBy, !JsonText, !UniqueIDs} {S : Type} `{!HasDb S}.
Context (Render : string -> string) (unmarshal_logs : string -> result (list TerminalLogEntry.t)).

Lemma read_no_faults {A} (m : ST db A) (r : result A) (s : S) :
  m (get_db s) = (r, get_db s) -> on_db m s = (r, s).
Proof. intros Hm. unfold on_db. by rewrite Hm, put_get_db. Qed.

(** The rows, the run and the pipeline of a page. *)
Definition page_rows (runID : string) (fs : list string) (d : db) : list Result.t :=
  to_result fs <$> glob_rows (task_path (run_path runID) ++ "*") d.
Definition run_of (runID : string) (d : db) : option PipelineRun.t := pipelineRunScan.toStorage <$> db_runs d !! runID.
Definition pipeline_of (run : option PipelineRun.t) (d : db) : option Pipeline.t :=
  match run with
  | None => None
  | Some run =>
      if decide (PipelineRun.PipelineID run = "") then None
      else pipelineScan.toStorage <$> db_pipelines d !! PipelineRun.PipelineID run
  end.
(** The tree of a page, with the HTML of its tasks. *)
Definition page_tree (runID : string) (redact : string -> string) (d : db) : task_tree :=
  injectTerminalHTML
    (html_by_path (row_html Render unmarshal_logs "/terminal" redact) (page_rows runID terminal_fields d))
    (AsTree (page_rows runID tree_fields d)).

Lemma rows_read runID fs (s : S) :
  db_faults (get_db s) = [] -> fs <> [] ->
  on_db (GetAll (run_path runID) fs) s = (Ok (page_rows runID fs (get_db s)), s).
Proof.
  intros Hf Hne. apply read_no_faults. rewrite GetAll_no_faults by done.
  unfold default_fields, page_rows. by rewrite decide_False.
Qed.
Lemma run_read runID (s : S) : db_faults (get_db s) = [] -> find_run runID s = (Ok (run_of runID (get_db s)), s).
Proof.
  intros Hf. unfold find_run, bind, attempt.
  assert (Hr : on_db (GetRun runID) s =
    (match db_runs (get_db s) !! runID with Some r => Ok (pipelineRunScan.toStorage r) | None => Err (ESentinel SNotFound) end, s)).
  { apply read_no_faults. unfold GetRun, wrap, bind. rewrite query_no_faults by done. by destruct (_ !! runID). }
  rewrite Hr. unfold run_of. by destruct (_ !! runID).
Qed.
Lemma pipeline_read run (s : S) :
  db_faults (get_db s) = [] -> find_pipeline run s = (Ok (pipeline_of run (get_db s)), s).
Proof.
  intros Hf. destruct run as [run|]; [|done]. cbn. destruct (decide (PipelineRun.PipelineID run = "")) as [_|Hne]; [done|].
  unfold bind, attempt.
  assert (Hr : on_db (GetPipeline (PipelineRun.PipelineID run)) s =
    (match db_pipelines (get_db s) !! PipelineRun.PipelineID run with
     | Some p => Ok (pipelineScan.toStorage p) | None => Err (ESentinel SNotFound) end, s)).
  { apply read_no_faults. unfold GetPipeline, wrap, bind. rewrite query_no_faults by done. by destruct (_ !! _). }
  rewrite Hr. by destruct (_ !! _).
Qed.
Lemma preload_read runID tree redact (s : S) :
  db_faults (get_db s) = [] ->
  preloadTerminalHTMLWithOptions Render unmarshal_logs (run_path runID) tree "/terminal" redact s =
    (Ok (injectTerminalHTML (html_by_path (row_html Render unmarshal_logs "/terminal" redact)
           (page_rows runID terminal_fields (get_db s))) tree), s).
Proof.
  intros Hf. unfold preloadTerminalHTMLWithOptions, bind, attempt. by rewrite rows_read.
Qed.

(** The page of a run, without faults: nothing is written, the counts are those
    of the leaves, and each leaf carries the HTML of the last row of its path. *)
Theorem Show_reads runID (s : S) :
  db_faults (get_db s) = [] -> Forall has_plain_path ((fun r => (Result.Path r, Result.Payload r)) <$> page_rows runID tree_fields (get_db s)) ->
  page_rows runID tree_fields (get_db s) <> [] ->
  let d := get_db s in
  let run := run_of runID d in
  let rows := leaf_rows ((fun r => (Result.Path r, Result.Payload r)) <$> page_rows runID tree_fields d) in
  exists tree, Show Render unmarshal_logs runID s =
    (Ok (TasksPage false tree (run_path runID) runID (isActive run) run (pipeline_of run d)
       (title_of "Tasks" (pipeline_of run d)) (count_rows rows TaskStats.zero)), s) /\
    leaves tree = injected (html_by_path (row_html Render unmarshal_logs "/terminal" id) (page_rows runID terminal_fields d)) <$> rows.
Proof.
  intros Hf Hplain Hne. cbv zeta. exists (page_tree runID id (get_db s)).
  assert (Hrows : ((fun r => (Result.Path r, Result.Payload r)) <$> page_rows runID tree_fields (get_db s)) <> [])
    by (by destruct (page_rows _ _ _)).
  split.
  - unfold Show, wrap, bind. rewrite rows_read by done. rewrite run_read by done. rewrite pipeline_read by done.
    unfold preloadTerminalHTML. rewrite preload_read by done. unfold ret, countTaskStats.
    rewrite count_leaves by (by apply named_Flatten, named_tree). unfold AsTree at 2.
    by rewrite Flatten_tree_leaves.
  - unfold page_tree. rewrite inject_leaves. unfold AsTree. by rewrite Flatten_tree_leaves.
Qed.
End page_facts.

(** *** The rows of one run

    The rows of runs are kept under the id of their run, and ids have one length
    (nanoid draws a fixed number of characters). *)
Definition kept_by_run (n : nat) (d : db) : Prop :=
  map_Forall (fun path t => HasPrefix path "/pipeline/" = true -> run_row n path t) (db_tasks d).
Definition of_run (runID : string) (row : string * taskRow.t) : bool :=
  HasPrefix row.1 "/pipeline/" && bool_decide (taskRow.run_id row.2 = Some runID).
Definition own_rows `{!OrderBy} (runID : string) (fs : list string) (d : db) : list Result.t :=
  to_result fs <$> order_by (fun row => taskRow.ID row.2) (List.filter (of_run runID) (map_to_list (db_tasks d))).

(** The pattern of a plain id matches the rows of that run, and no others. *)
Lemma page_rows_own `{!Namespace, !OrderBy} runID fs d :
  namespace = "" -> plain runID = true -> kept_by_run (String.length runID) d ->
  page_rows runID fs d = own_rows runID fs d.
Proof.
  intros Hns Hp Hkept. unfold page_rows, own_rows, glob_rows. do 2 f_equal.
  apply List.filter_ext_in. intros [path t] Hin%list_elem_of_In%elem_of_map_to_list.
  unfold run_path, of_run. cbn [fst snd]. rewrite (task_path_run Hns runID Hp).
  rewrite GLOB_prefix by (by apply pipeline_prefix_literal).
  destruct (HasPrefix path "/pipeline/") eqn:Hd; cbn [andb].
  - by apply (run_row_prefix (String.length runID)); [apply (Hkept path t Hin Hd)|].
  - apply not_true_is_false. intros (rest & ->)%HasPrefix_inv.
    change (("/pipeline/" ++ runID) ++ rest) with ("/pipeline/" ++ (runID ++ rest)) in Hd.
    rewrite HasPrefix_append in Hd. discriminate Hd.
Qed.

(** ** The shared page *)
Lemma tree_fields_no_html row : get_field "terminalHTML" (select_payload tree_fields row) = None.
Proof. reflexivity. Qed.

Section shared_facts.
Context `{!Namespace, !OrderBy, !JsonText, !UniqueIDs, !Crypto} {S : Type} `{!SecretsManager S, !SecretBackend S}.
Context (Render : string -> string) (unmarshal_logs : string -> result (list TerminalLogEntry.t)).

(** A leaf's HTML is that of a row of its path. *)
Lemma page_leaf_html runID redact d path v html :
  (path, v) ∈ leaves (page_tree Render unmarshal_logs runID redact d) ->
  get_field "terminalHTML" v = Some (JStr html) ->
  exists r, r ∈ page_rows runID terminal_fields d /\ Result.Path r = path /\
    html = row_html Render unmarshal_logs "/terminal" redact r.
Proof.
  unfold page_tree. rewrite inject_leaves. intros ([p w] & Hinj & Hin)%list_elem_of_fmap Hhtml.
  unfold injected in Hinj. cbn [fst snd] in Hinj. injection Hinj as -> Hv.
  assert (Hnone : get_field "terminalHTML" w = None).
  { apply tree_leaf_payload in Hin as [->|(r & Hr & ->)]; [done|].
    apply list_elem_of_fmap in Hr as (row & -> & _). apply tree_fields_no_html. }
  destruct (html_by_path _ _ !! p) as [h|] eqn:Hh; [|by subst v; rewrite Hnone in Hhtml].
  destruct (decide (p = "")); [by subst v; rewrite Hnone in Hhtml|].
  subst v. rewrite get_set_field_eq in Hhtml. injection Hhtml as ->.
  apply html_by_path_Some in Hh as [Hh|(r & Hr & Hp & ->)]; [by rewrite lookup_empty in Hh|]. by exists r.
Qed.

Definition run_pipeline (runID : string) (d : db) : string :=
  match run_of runID d with Some run => PipelineRun.PipelineID run | None => "" end.

(** C32: the page of a share link shows the run of its token and that run only:
    the leaves of its tree are those of the tree of the rows of that run, each
    with the terminal output of the row of its path. The page changes neither
    the database nor the secrets, and in the terminal output of each task no
    value of a secret of the run's pipeline or of a global one is left that
    redaction can hide, as long as the stores answer. The output of a task that
    has not ended carries the attributes that reload it, although the controller
    says that a shared page never does. *)
Theorem shared_page_redacted signingSecret now token runID (s : api S) m :
  namespace = "" -> plain runID = true -> kept_by_run (String.length runID) (get_db s) ->
  scope_ok (S := S) GlobalScope -> scope_ok (S := S) (PipelineScope (run_pipeline runID (get_db s))) ->
  holds (ap_mgr s) m -> healthy (ap_mgr s) -> db_faults (get_db s) = [] ->
  validateToken signingSecret now token = inl runID ->
  let pipeline := pipeline_of (run_of runID (get_db s)) (get_db s) in
  let tasks := AsTree (own_rows runID tree_fields (get_db s)) in
  exists tree values s',
    share_Show Render unmarshal_logs true signingSecret now token s =
      (Ok (TasksPage true tree (run_path runID) runID false (run_of runID (get_db s)) pipeline
         (title_of "Tasks" pipeline) (countTaskStats tasks)), s') /\
    ap_svc s' = ap_svc s /\ holds (ap_mgr s') m /\
    leaves tree = injected (html_by_path (row_html Render unmarshal_logs "/terminal" (fun html => RedactSecrets html values))
      (own_rows runID terminal_fields (get_db s))) <$> leaves tasks /\
    forall path v html, (path, v) ∈ leaves tree -> get_field "terminalHTML" v = Some (JStr html) ->
      exists r body, r ∈ own_rows runID terminal_fields (get_db s) /\ Result.Path r = path /\
        html = container (if still_running (Result.Payload r) then reload ("/terminal" ++ EscapeString path) else "") body /\
        forall secret, secret_of m GlobalScope secret \/ secret_of m (PipelineScope (run_pipeline runID (get_db s))) secret ->
          redactable secret = true -> Contains body secret = false.
Proof.
  intros Hns Hplain Hkept Hg Hp Hm Hh Hf Htok. cbv zeta. unfold share_Show. rewrite Htok.
  pose proof (collect_scopes_spec m [GlobalScope; PipelineScope (run_pipeline runID (get_db s))] [] (ap_mgr s) Hm) as Hc.
  unfold wrap at 1, bind at 1. rewrite rows_read by done. unfold bind at 1. rewrite run_read by done.
  unfold bind at 1. rewrite pipeline_read by done. unfold bind at 1, on_secrets, collectSecretValues. cbn [negb].
  fold (run_pipeline runID (get_db s)).
  destruct (collect_scopes _ _ (ap_mgr s)) as [r s1]. destruct Hc as (Hm1 & values & -> & _ & Hall); [by repeat constructor|].
  unfold bind. rewrite preload_read by done. rewrite <- !page_rows_own by done.
  eexists _, values, _. split; [reflexivity|]. split; [done|]. split; [exact Hm1|].
  split; [cbn [get_db api_has_db]; apply inject_leaves|].
  intros path v html Hin Hhtml. destruct (page_leaf_html _ _ _ _ _ _ Hin Hhtml) as (row & Hr & Hpath & ->).
  exists row, (RedactSecrets (WrapTerminalLines (output_html Render unmarshal_logs (Result.Payload row))
    (SanitizeTerminalID (Result.Path row))) values).
  split; [exact Hr|]. split; [exact Hpath|]. split; [unfold row_html; by rewrite Hpath|].
  intros secret Hsec Hred. apply RedactSecrets_hidden; [|done]. apply (Hall Hh). right.
  destruct Hsec as [Hs|Hs]; eexists; (split; [|exact Hs]); [by left|by right; left].
Qed.
End shared_facts.

(** ** Witnesses *)
Section witnesses.
#[local] Existing Instances plain_crypto plain_text ex_text stable_order counter_ids.
#[local] Instance view_ns : Namespace := "".
#[local] Instance view_manager : SecretsManager (backend sdb) := sqlite_manager "k".
#[local] Instance view_backend : SecretBackend (backend sdb) := sqlite_backend "k".

Definition ex_unmarshal (text : string) : result (list TerminalLogEntry.t) := Err (EMsg "no JSON").
Definition view_task (id : Z) (status stdout message : string) : taskRow.t :=
  let payload := JObj [("status", JStr status); ("stdout", JStr stdout); ("error_message", JStr message)] in
  taskRow.mk id (Some "r1") (Some status) None None (Some message) None payload.
Definition view_db (faults : list bool) : db :=
  set_faults faults
    (set_runs (fun _ => {["r1" := pipelineRunScan.mk "r1" "p1" RunStatusRunning (Some 5%Z) None None TriggerTypeManual
                "" TriggerInput.empty "" 4%Z]})
      (set_tasks (fun _ => list_to_map
         [("/pipeline/r1/jobs/a/0/t", view_task 1 "failure" "the s3cret and p&w" "no s3cret");
          ("/pipeline/r1/jobs/b/0/t", view_task 2 "running" "hello" "")]) empty_db)).
Definition view_ops : list secret_op :=
  [OpSet GlobalScope "token" "s3cret"; OpSet (PipelineScope "p1") "password" "p&w"].
Definition view_api (faults : list bool) : api (backend sdb) :=
  mkApi (NewExecutionService (view_db faults) 2 0 AllFeatures) (run_ops view_ops ex_sdb).2.
Definition view_map : secret_map := (spec_ops view_ops ∅).2.

Lemma view_stored : holds (ap_mgr (view_api [])) view_map /\ healthy (ap_mgr (view_api [])).
Proof.
  split.
  - apply run_ops_refine; [by apply Forall_true|split; [done|apply plain_random_fine]|].
    by apply (sqlite_holds_new "k" ex_sdb).
  - apply run_ops_healthy. split; [done|apply plain_random_fine].
Qed.

(** The texts of the leaves of a page. *)
Definition leaf_texts (key : string) (answer : result page) : list (option json) :=
  match answer with
  | Ok (TasksPage _ tree _ _ _ _ _ _ _) => (fun l => get_field key l.2) <$> leaves tree
  | _ => []
  end.
Definition view_page (Render : string -> string) (faults : list bool) : result page :=
  (share_Show Render ex_unmarshal true ex_secret 5 ex_token (view_api faults)).1.
Definition some_leaf (key text : string) (answer : result page) : bool :=
  existsb (fun v => match v with Some (JStr s) => Contains s text | _ => false end) (leaf_texts key answer).

Lemma view_kept : kept_by_run (String.length "r1") (view_db []).
Proof.
  intros path t Hin%elem_of_map_to_list _.
  assert (Hall : Forall (fun row => run_row 2 row.1 row.2) (map_to_list (db_tasks (view_db [])))).
  { vm_compute. repeat constructor; (eexists _, _; repeat split; reflexivity). }
  rewrite Forall_forall in Hall. exact (Hall _ Hin).
Qed.

Lemma shared_page_redacted_witness :
  exists tree s', share_Show id ex_unmarshal true ex_secret 5 ex_token (view_api []) =
    (Ok (TasksPage true tree "/pipeline/r1/" "r1" false (run_of "r1" (view_db [])) None "Tasks" (TaskStats.mk 0 1 1)), s') /\
  holds (ap_mgr s') view_map /\
  (leaves tree).*1 = ["/pipeline/r1/jobs/a/0/t"; "/pipeline/r1/jobs/b/0/t"] /\
  forall path v html, (path, v) ∈ leaves tree -> get_field "terminalHTML" v = Some (JStr html) ->
    exists extra body, html = container extra body /\ Contains body "s3cret" = false /\ Contains body "p&w" = false.
Proof.
  destruct view_stored as [Hm Hh].
  assert (Hscope : forall scope, scope_ok (S := backend sdb) scope) by (intros scope; exact Logic.I).
  assert (Htok : validateToken ex_secret 5 ex_token = inl "r1") by (vm_compute; reflexivity).
  destruct (shared_page_redacted id ex_unmarshal ex_secret 5 ex_token "r1" (view_api []) view_map
    (eq_refl : @namespace view_ns = "") eq_refl view_kept (Hscope _) (Hscope _) Hm Hh eq_refl Htok)
    as (tree & values & s' & Hshow & _ & Hm' & Hrows & Hleaves).
  exists tree, s'. split; [|split; [exact Hm'|split]].
  - rewrite Hshow. vm_compute. reflexivity.
  - rewrite Hrows, <- list_fmap_compose. unfold injected. cbn [compose fst]. vm_compute. reflexivity.
  - intros path v html Hin Hhtml. destruct (Hleaves path v html Hin Hhtml) as (r & body & _ & _ & -> & Hbody).
    eexists _, body. split; [reflexivity|]. split; apply Hbody.
    + left. exists "token". split; reflexivity.
    + reflexivity.
    + right. exists "password". split; vm_compute; reflexivity.
    + reflexivity.
Defined.

(** The message of a failed task is shown as it is. *)
Lemma shared_message_unredacted :
  some_leaf "error_message" "s3cret" (view_page id []) = true /\
  some_leaf "terminalHTML" "s3cret" (view_page id []) = false.
Proof. vm_compute. done. Qed.

(** Redaction sees the HTML: with a renderer that escapes, a secret with a
    character that HTML escapes is left in it. *)
Lemma escaped_secret_unredacted :
  some_leaf "terminalHTML" (EscapeString "p&w") (view_page EscapeString []) = true.
Proof. vm_compute. reflexivity. Qed.

(** The page of a run that is running reloads its tasks. *)
Lemma shared_page_reloads : some_leaf "terminalHTML" "hx-get" (view_page id []) = true.
Proof. vm_compute. reflexivity. Qed.

(** When the run cannot be read its pipeline's secrets are not known, and the
    page is shown all the same. *)
Lemma unread_run_unredacted :
  some_leaf "terminalHTML" "p&w" (view_page id [false; true]) = true.
Proof. vm_compute. reflexivity. Qed.

(** The path of a run is a pattern. *)
Lemma wildcard_shows_all_runs :
  length (page_rows "*" tree_fields (view_db [])) = 2 /\ run_of "*" (view_db []) = None.
Proof. vm_compute. done. Qed.
End witnesses.
