(* ===== verification/PipelineViews.v ===== *)
(** * Pipeline pages (server/web_pipelines_controller.go, server/web_job_summary.go)

    The list of pipelines, the page of one pipeline with a summary of its jobs,
    and the parts of it that are fetched alone. Templates are left out: a page
    is the data they are given. [ready_to_fire_fires]: what the page says of a
    job is what the execution service does. *)
From S2P Require Import Prelude Storage Json Db GoStrings Paging Runs Tasks Pipelines Config Server.
From S2P Require Import Admission Passed Execution Secrets Tokens SecretStore PipelinesApi.
Open Scope string_scope.

(** ** Summaries of jobs (web_job_summary.go) *)
Module TriggerChip.
Record t := mk { Kind : string; Detail : string }.
End TriggerChip.
Module JobSummary.
Record t := mk {
  Name : string; TriggerChips : list TriggerChip.t; LatestRun : option PipelineRun.t;
  WaitingOn : list string; ReadyToFire : bool; HasTriggersPassed : bool }.
End JobSummary.

Definition joinNames (names : list string) : string := Join names ", ".

Definition webhook_chip (w : WebhookTriggerConfig.t) : TriggerChip.t :=
  let filter := WebhookTriggerConfig.Filter w in
  TriggerChip.mk "webhook" (if decide (filter = "") then "" else "filter: " ++ filter).
Definition schedule_chip (s : ScheduleTriggerConfig.t) : TriggerChip.t :=
  let '(cron, every) := (ScheduleTriggerConfig.Cron s, ScheduleTriggerConfig.Every s) in
  TriggerChip.mk "schedule"
    (if negb (bool_decide (cron = "")) then "cron: " ++ cron
     else if negb (bool_decide (every = "")) then "every: " ++ every else "").
Definition chip_of {A} (chip : A -> TriggerChip.t) (o : option A) : list TriggerChip.t :=
  match o with Some a => [chip a] | None => [] end.
Definition buildTriggerChips (job : Job.t) : list TriggerChip.t :=
  match Job.Triggers job with
  | None => [TriggerChip.mk "manual" ""]
  | Some t =>
      let chips :=
        (chip_of webhook_chip (Triggers.Webhook t) ++ chip_of schedule_chip (Triggers.Schedule t)
         ++ (if decide (Triggers.Passed t = []) then [] else [TriggerChip.mk "passed" (joinNames (Triggers.Passed t))]))%list in
      if decide (chips = []) then [TriggerChip.mk "manual" ""] else chips
  end.

(** ** The list of pipelines *)
Module PipelineRow.
Record t := mk { Pipeline_ : Pipeline.t; LatestRun : option PipelineRun.t; DriverName : string }.
End PipelineRow.

Definition active_row (row : PipelineRow.t) : bool :=
  match PipelineRow.LatestRun row with
  | Some run => bool_decide (PipelineRun.Status run = RunStatusRunning \/ PipelineRun.Status run = RunStatusQueued)
  | None => false
  end.
Definition hasActiveRunInRows (rows : list PipelineRow.t) : bool := existsb active_row rows.

Definition buildPipelinesURL (q_ : string) (page perPage : Z) : string :=
  let url := "/pipelines/" in
  if decide (q_ <> "" \/ (page > 1)%Z \/ perPage <> 20%Z)
  then url ++ "?q=" ++ q_ ++ "&page=" ++ Itoa page ++ "&per_page=" ++ Itoa perPage else url.

(** What the templates are given. *)
Inductive view : Type :=
  | PipelinesPage (pushUrl : option string) (rows : list PipelineRow.t)
      (pagination : PaginationResult.t Pipeline.t) (query : string) (hasActiveRuns : bool)
  | PipelineDetailPage (p : Pipeline.t) (driverName : string) (runs : PaginationResult.t PipelineRun.t)
      (query : string) (hasWebhookSecret : bool) (jobSummaries : list JobSummary.t)
  | RunsSectionPage (pushUrl : option string) (pipelineID : string)
      (runs : PaginationResult.t PipelineRun.t) (query : string)
  | SourcePage (p : Pipeline.t)
  | TextPage (code : Z) (text : string)
  | RefusedPage (a : answer).

Section views.
Context `{!AccessLang, !UniqueIDs, !OrderBy} {S : Type} `{!SecretsManager S}.
Context (c : PipelinesController.t) (ParseConfig : string -> result Config.t).
(** The full-text indices of the pipelines and of the runs. *)
Context (fts : string -> pipelineScan.t -> bool) (fts_runs : string -> pipelineRunScan.t -> bool).

(** Storage.SearchRunsByPipeline *)
Definition SearchRunsByPipeline (pipelineID q_ : string) (page perPage : Z)
    : ST db (PaginationResult.t PipelineRun.t) :=
  paginatedSearch fts_runs
    (fun d => newest_first (select_runs (fun r => bool_decide (pipelineRunScan.PipelineID r = pipelineID)) d))
    pipelineRunScan.toStorage page perPage q_.

Fixpoint waiting_on (pipelineID : string) (since : time) (upstreams : list string) : ST (api S) (list string) :=
  match upstreams with
  | [] => ret []
  | upstream :: upstreams =>
      let! fresh := attempt (on_db (GetSuccessfulJobRunSince pipelineID upstream since)) in
      let! waiting := waiting_on pipelineID since upstreams in
      ret match fresh with Ok (Some _) => waiting | _ => upstream :: waiting end
  end.
Definition evaluateFreshness (pipelineID : string) (job : Job.t) (latest : option PipelineRun.t)
    : ST (api S) (list string * bool) :=
  let since := match latest with Some run => PipelineRun.CreatedAt run | None => time_Zero end in
  let! waiting := waiting_on pipelineID since (passed_of job) in
  ret (waiting, bool_decide (waiting = [])).

Definition job_summary (pipelineID : string) (job : Job.t) : ST (api S) JobSummary.t :=
  let! latest := attempt (on_db (GetMostRecentJobRun pipelineID (Job.Name job))) in
  let latest := match latest with Ok latest => latest | Err _ => None end in
  if has_passed job then
    let! fresh := evaluateFreshness pipelineID job latest in
    ret (JobSummary.mk (Job.Name job) (buildTriggerChips job) latest fresh.1 fresh.2 true)
  else ret (JobSummary.mk (Job.Name job) (buildTriggerChips job) latest [] false false).
Fixpoint job_summaries (pipelineID : string) (jobs : list Job.t) : ST (api S) (list JobSummary.t) :=
  match jobs with
  | [] => ret []
  | job :: jobs =>
      let! summary := job_summary pipelineID job in
      let! summaries := job_summaries pipelineID jobs in
      ret (summary :: summaries)
  end.
Definition buildJobSummaries (p : Pipeline.t) : ST (api S) (list JobSummary.t) :=
  if negb (bool_decide (Pipeline.ContentType p = ContentTypeYAML)) then ret []
  else
    match ParseConfig (Pipeline.Content p) with
    | Err _ => ret []
    | Ok cfg => job_summaries (Pipeline.ID p) (Config.Jobs cfg)
    end.

Definition pipeline_row (p : Pipeline.t) : ST (api S) PipelineRow.t :=
  let driverName :=
    if negb (bool_decide (Pipeline.Driver p = "")) then Pipeline.Driver p
    else if negb (bool_decide (PipelinesController.DefaultDriver c = "")) then PipelinesController.DefaultDriver c
    else "default" in
  let! res := attempt (on_db (SearchRunsByPipeline (Pipeline.ID p) "" 1 1)) in
  ret (PipelineRow.mk p (match res with Ok res => head (PaginationResult.Items res) | Err _ => None end) driverName).
Fixpoint buildPipelineRows (pipelines : list Pipeline.t) : ST (api S) (list PipelineRow.t) :=
  match pipelines with
  | [] => ret []
  | p :: pipelines =>
      let! row := pipeline_row p in
      let! rows := buildPipelineRows pipelines in
      ret (row :: rows)
  end.

Definition filterRowsByRBAC (caller : Caller.t) (rows : list PipelineRow.t) : list PipelineRow.t :=
  List.filter (fun row => visible caller (PipelineRow.Pipeline_ row)) rows.

(** GET /pipelines/. A search always answers with a page. *)
Definition web_Index (caller : Caller.t) (q_ page perPage : string) : ST (api S) view :=
  let '(page, perPage) := parsePagination page perPage in
  let! result := wrap "could not list pipelines" (on_db (SearchPipelines fts q_ page perPage)) in
  let! rows := buildPipelineRows (PaginationResult.Items result) in
  let rows := filterRowsByRBAC caller rows in
  ret (PipelinesPage (if Caller.htmx caller then Some (buildPipelinesURL q_ page perPage) else None)
    rows result q_ (hasActiveRunInRows rows)).

Definition pipelineHasWebhookSecret (p : Pipeline.t) : ST (api S) bool :=
  if negb (PipelinesController.secretsMgr c) then ret false
  else
    let! secret := attempt (on_secrets (mgr_Get (PipelineScope (Pipeline.ID p)) "webhook_secret")) in
    ret match secret with Ok secret => negb (bool_decide (secret = "")) | Err _ => false end.

(** The pipeline of a page, when the caller may see it. *)
Definition with_pipeline (caller : Caller.t) (id : string) (k : Pipeline.t -> ST (api S) view) : ST (api S) view :=
  let! found := attempt (on_db (GetPipeline id)) in
  match found with
  | Err e =>
      if errors_Is e SNotFound then ret (TextPage 404 "Pipeline not found")
      else fail (EWrap "could not get pipeline" e)
  | Ok p =>
      match checkPipelineRBAC caller p with
      | Some refusal => ret (RefusedPage refusal)
      | None => k p
      end
  end.

(** GET /pipelines/:id/ *)
Definition web_Show (caller : Caller.t) (id q_ page perPage : string) : ST (api S) view :=
  with_pipeline caller id (fun p =>
    let '(page, perPage) := parsePagination page perPage in
    let! result := wrap "could not list runs" (on_db (SearchRunsByPipeline id q_ page perPage)) in
    let driverName := if negb (bool_decide (Pipeline.Driver p = "")) then Pipeline.Driver p
                      else PipelinesController.DefaultDriver c in
    let! jobSummaries := buildJobSummaries p in
    let! hasSecret := pipelineHasWebhookSecret p in
    ret (PipelineDetailPage p driverName result q_ hasSecret jobSummaries)).

(** GET /pipelines/:id/runs-section *)
Definition RunsSection (id page perPage : string) : ST (api S) view :=
  let '(page, perPage) := parsePagination page perPage in
  let! result := wrap "could not list runs" (on_db (SearchRunsByPipeline id "" page perPage)) in
  ret (RunsSectionPage None id result "").

(** GET /pipelines/:id/runs-search *)
Definition RunsSearch (id q_ page perPage : string) : ST (api S) view :=
  let '(page, perPage) := parsePagination page perPage in
  let! result := wrap "could not search runs" (on_db (SearchRunsByPipeline id q_ page perPage)) in
  ret (RunsSectionPage
    (Some ("/pipelines/" ++ id ++ "/?q=" ++ q_ ++ "&page=" ++ Itoa page ++ "&per_page=" ++ Itoa perPage))
    id result q_).

(** GET /pipelines/:id/source *)
Definition Source (caller : Caller.t) (id : string) : ST (api S) view :=
  with_pipeline caller id (fun p => ret (SourcePage p)).
End views.

(** ** What the page says of a job *)
Section freshness.
Context `{!UniqueIDs, !OrderBy, !JsonText, !TemplateEngine} {S : Type}.
Implicit Types s : api S.

Lemma api_same s : mkApi (ap_svc s) (ap_mgr s) = s.
Proof. by destruct s. Qed.
Lemma on_db_api {A} (m : ST db A) s (r : result A) :
  m (sv_db (ap_svc s)) = (r, sv_db (ap_svc s)) -> on_db m s = (r, s).
Proof. intros Hm. unfold on_db. cbn. rewrite Hm. by rewrite set_db_same, api_same. Qed.

Definition fresh_since (pid : string) (since : time) (d : db) (u : string) : bool :=
  negb (bool_decide (successes_since pid u since d = [])).
Lemma waiting_on_spec pid since us s :
  quiet (ap_svc s) -> Forall (fun u => u <> "") us ->
  waiting_on pid since us s =
    (Ok (List.filter (fun u => negb (fresh_since pid since (sv_db (ap_svc s)) u)) us), s).
Proof.
  intros Hq. induction 1 as [|u us Hu Hus IH]; [done|]. cbn [waiting_on]. unfold bind at 1, attempt.
  rewrite (on_db_api _ s _ (GetSuccessfulJobRunSince_exact pid u since _ Hq Hu)).
  unfold bind at 1. rewrite IH. unfold ret. cbn [List.filter]. fold (successes_since pid u since (sv_db (ap_svc s))).
  assert (Hu' : fresh_since pid since (sv_db (ap_svc s)) u = match head (successes_since pid u since (sv_db (ap_svc s))) with Some _ => true | None => false end)
    by (unfold fresh_since; by destruct (successes_since pid u since (sv_db (ap_svc s)))).
  rewrite Hu'. by destruct (head _).
Qed.

(** C33: the summary of a job waits for exactly the jobs without a success that
    is newer than every run of the job; and what it says is what happens: a job
    it shows as ready to fire, of which no run is active, is fired by the next
    evaluation, with one fresh run for each job it waits for, and a job that is
    not ready is left alone. *)
Theorem ready_to_fire_fires pipeline job completedRun s :
  quiet (ap_svc s) -> ids_ok (sv_db (ap_svc s)) -> created_ok (sv_db (ap_svc s)) ->
  Job.Name job <> "" -> passed_of job <> [] -> Forall (fun u => u <> "") (passed_of job) ->
  let pid := Pipeline.ID pipeline in
  let d := sv_db (ap_svc s) in
  exists summary, job_summary pid job s = (Ok summary, s) /\
    (forall u, u ∈ JobSummary.WaitingOn summary <->
       u ∈ passed_of job /\ forall r, ~ fresh_success pid (Job.Name job) u d r) /\
    (JobSummary.ReadyToFire summary = true ->
     (forall r, job_run pid (Job.Name job) d r -> IsActive (pipelineRunScan.Status r) = false) ->
     exists ids,
       evaluatePassedDownstream pipeline job completedRun (ap_svc s) =
         firePassedDownstream pipeline job completedRun ids (ap_svc s) /\
       Forall2 (fun u id => exists r, db_runs d !! id = Some r /\ fresh_success pid (Job.Name job) u d r)
         (passed_of job) ids) /\
    (JobSummary.ReadyToFire summary = false ->
     evaluatePassedDownstream pipeline job completedRun (ap_svc s) = (Ok tt, ap_svc s)).
Proof.
  intros Hq Hids Hc Hname Hpassed Hups. cbv zeta.
  set (pid := Pipeline.ID pipeline). set (d := sv_db (ap_svc s)).
  set (last := head (newest_first (select_runs (fun r =>
    bool_decide (pipelineRunScan.PipelineID r = pid) && targets_job (Job.Name job) r) d))).
  assert (Hfresh : forall u, fresh_since pid (since_of last) d u = true <-> exists r, fresh_success pid (Job.Name job) u d r).
  { intros u. unfold fresh_since. rewrite negb_true_iff, bool_decide_eq_false.
    pose proof (fun r => elem_of_successes_since pid (Job.Name job) u (since_of last) d r
      (fun r Hr => since_iff pid (Job.Name job) d r Hc Hr)) as Hin.
    destruct (successes_since pid u (since_of last) d) as [|r rows].
    - split; [done|]. intros [r Hr%Hin]. by apply elem_of_nil in Hr.
    - split; [|done]. intros _. exists r. apply Hin. left. }
  assert (Hwait : forall u, u ∈ List.filter (fun u => negb (fresh_since pid (since_of last) d u)) (passed_of job) <->
    u ∈ passed_of job /\ forall r, ~ fresh_success pid (Job.Name job) u d r).
  { intros u. rewrite !list_elem_of_In, filter_In, <- !list_elem_of_In, negb_true_iff, <- not_true_iff_false, Hfresh. naive_solver. }
  destruct (evaluatePassedDownstream_ready (ap_svc s) pipeline job completedRun Hq Hids Hc Hname Hups) as [Hidle Hready].
  assert (Hhas : has_passed job = true) by (unfold has_passed; by destruct (passed_of job)).
  eexists. split.
  { unfold job_summary. unfold bind at 1, attempt at 1.
    rewrite (on_db_api _ s _ (GetMostRecentJobRun_exact pid (Job.Name job) _ Hq Hname)). fold d. fold last.
    rewrite Hhas. unfold evaluateFreshness. rewrite bind_bind. unfold bind at 1.
    replace (match pipelineRunScan.toStorage <$> last with Some run => PipelineRun.CreatedAt run | None => time_Zero end)
      with (since_of last) by (by destruct last).
    rewrite waiting_on_spec by done. reflexivity. }
  cbn [JobSummary.WaitingOn JobSummary.ReadyToFire fst snd]. split; [exact Hwait|]. split.
  - rewrite bool_decide_eq_true. intros Hnil Hno. apply Hready. split; [exact Hno|].
    intros u Hu. apply Hfresh. destruct (fresh_since pid (since_of last) d u) eqn:Hf; [done|].
    assert (Hin : u ∈ List.filter (fun u => negb (fresh_since pid (since_of last) d u)) (passed_of job)).
    { rewrite list_elem_of_In, filter_In, <- list_elem_of_In. by rewrite Hf. }
    fold d in Hnil. rewrite Hnil in Hin. by apply elem_of_nil in Hin.
  - rewrite bool_decide_eq_false. intros Hne. apply Hidle. intros [_ Hall].
    fold d in Hne. destruct (List.filter _ (passed_of job)) as [|u us]; [by destruct Hne|].
    destruct (proj1 (Hwait u) ltac:(left)) as [Hin Hno]. destruct (Hall u Hin) as [r Hr]. by destruct (Hno r).
Qed.
End freshness.

(** ** What the pages hide *)
Section guards.
Context `{!AccessLang, !UniqueIDs, !OrderBy} {S : Type} `{!SecretsManager S}.
Context (c : PipelinesController.t) (ParseConfig : string -> result Config.t).
Context (fts : string -> pipelineScan.t -> bool) (fts_runs : string -> pipelineRunScan.t -> bool).

(** A page that shows a pipeline shows it to callers its access expression
    admits; the list leaves the others out. *)
Definition shows_visible (caller : Caller.t) (v : view) : Prop :=
  match v with
  | PipelinesPage _ rows _ _ _ => Forall (fun row => visible caller (PipelineRow.Pipeline_ row) = true) rows
  | PipelineDetailPage p _ _ _ _ _ | SourcePage p => visible caller p = true
  | _ => True
  end.
Lemma check_visible caller p : checkPipelineRBAC caller p = None -> visible caller p = true.
Proof.
  unfold checkPipelineRBAC, visible. destruct (decide _); [done|]. destruct (Caller.user caller); [|done].
  by destruct (EvaluateAccess _ _) as [[]|].
Qed.
Lemma with_pipeline_shows caller id k s :
  (forall p s v s', visible caller p = true -> k p s = (Ok v, s') -> shows_visible caller v) ->
  forall v s', with_pipeline (S := S) caller id k s = (Ok v, s') -> shows_visible caller v.
Proof.
  intros Hk v s'. unfold with_pipeline, bind, attempt. destruct (on_db _ s) as [[p|e] s1]; cbn.
  - destruct (checkPipelineRBAC caller p) as [refusal|] eqn:Hc; [by intros [= <- _]|].
    apply Hk. by apply check_visible.
  - by destruct (errors_Is e SNotFound); [intros [= <- _]|].
Qed.
Lemma web_Show_shows caller id q_ page perPage s v s' :
  web_Show c ParseConfig fts_runs caller id q_ page perPage s = (Ok v, s') -> shows_visible caller v.
Proof.
  apply with_pipeline_shows. clear. intros p s v s' Hv. destruct (parsePagination page perPage) as [n m].
  unfold bind at 1. destruct (wrap _ _ s) as [[result|e] s1]; [|done].
  unfold bind at 1. destruct (buildJobSummaries ParseConfig p s1) as [[sums|e] s2]; [|done].
  unfold bind. destruct (pipelineHasWebhookSecret c p s2) as [[has|e] s3]; [|done]. by intros [= <- _].
Qed.
Lemma Source_shows caller id (s : api S) v s' : Source caller id s = (Ok v, s') -> shows_visible caller v.
Proof. apply with_pipeline_shows. by intros p s0 v0 s1 Hv [= <- _]. Qed.
Lemma web_Index_shows caller q_ page perPage (s : api S) v s' :
  web_Index c fts fts_runs caller q_ page perPage s = (Ok v, s') -> shows_visible caller v.
Proof.
  unfold web_Index. destruct (parsePagination page perPage) as [n m].
  unfold bind at 1. destruct (wrap _ _ s) as [[result|e] s1]; [|done].
  unfold bind. destruct (buildPipelineRows c fts_runs (PaginationResult.Items result) s1) as [[rows|e] s2]; [|done].
  intros [= <- _]. apply Forall_forall. intros row. unfold filterRowsByRBAC.
  by rewrite list_elem_of_In, filter_In; intros [_ Hv].
Qed.
End guards.

(** ** Witnesses *)
Section witnesses.
#[local] Existing Instances ex_lang ex_engine counter_ids stable_order ex_json_text.
Definition ex_pages : api (backend sdb) := mkApi ex_passed_svc ex_sdb.

Lemma ready_to_fire_fires_witness :
  exists summary ids, job_summary "p1" ex_passed_job ex_pages = (Ok summary, ex_pages) /\
    JobSummary.ReadyToFire summary = true /\
    evaluatePassedDownstream (ex_mode_pipeline "") ex_passed_job None ex_passed_svc =
      firePassedDownstream (ex_mode_pipeline "") ex_passed_job None ids ex_passed_svc /\
    length ids = 1.
Proof.
  destruct (ready_to_fire_fires (ex_mode_pipeline "") ex_passed_job None ex_pages) as (summary & Hs & _ & Hfire & _).
  - reflexivity.
  - apply map_Forall_insert_2; [done|]. by apply map_Forall_singleton.
  - apply map_Forall_insert_2; [done|]. by apply map_Forall_singleton.
  - discriminate.
  - discriminate.
  - repeat constructor. discriminate.
  - assert (Hr : JobSummary.ReadyToFire summary = true).
    { assert (Hv : (job_summary (Pipeline.ID (ex_mode_pipeline "")) ex_passed_job ex_pages).1 = Ok summary) by (by rewrite Hs).
      vm_compute in Hv. injection Hv as <-. reflexivity. }
    destruct (Hfire Hr) as (ids & He & Hall).
    + intros r ([id Hid] & _). simpl in Hid. rewrite lookup_insert_Some, lookup_singleton_Some in Hid.
      by destruct Hid as [[_ <-]|[_ [_ <-]]].
    + exists summary, ids. split; [exact Hs|]. split; [exact Hr|]. split; [exact He|]. by apply Forall2_length in Hall.
Defined.

(** The runs of a pipeline are shown to everybody. *)
Definition ex_hidden : api (backend sdb) :=
  mkApi (NewExecutionService (set_runs (fun _ => {["r1" := ex_done "r1" "build" 9]}) ex_api_db) 2 0 AllFeatures) ex_sdb.
Lemma runs_section_unguarded :
  visible (ex_caller "bob") (pipelineScan.toStorage (ex_row "p1" "build" "alice")) = false /\
  exists runs, (RunsSection (fun _ _ => false) "p1" "" "" ex_hidden).1 = Ok (RunsSectionPage None "p1" runs "") /\
    PipelineRun.ID <$> PaginationResult.Items runs = ["r1"].
Proof. split; [reflexivity|]. eexists. split; vm_compute; reflexivity. Qed.
End witnesses.
