(* ===== verification/Metrics.v ===== *)
(** * The metrics page (server/web_metrics_controller.go)

    Counts of runs, averages and the widths of bars. [buildData_counts]: the
    counts are those of the rows, and the widths of the bars add up to at most
    a hundred per cent. *)
From S2P Require Import Prelude Storage Json Db GoStrings Paging Runs Pipelines Config Server.
From S2P Require Import Admission Execution SecretStore PipelinesApi PipelineViews.
Open Scope string_scope.
#[local] Open Scope Z_scope.

(** int is taken as unbounded: counts of rows stay far below its width. *)
Definition pct (part total : Z) : Z := if decide (total = 0) then 0 else Z.quot (part * 100) total.

Module PipelineMetrics.
Record t := mk {
  Pipeline_ : Pipeline.t; TotalRuns : Z; SuccessRuns : Z; FailedRuns : Z; SkippedRuns : Z;
  AvgDuration : Z; LastRun : option PipelineRun.t }.
End PipelineMetrics.

Definition success_rate (success failed : Z) : Z :=
  let completed := success + failed in
  if decide (completed = 0) then 0 else Z.quot (success * 100) completed.
Definition SuccessRate (p : PipelineMetrics.t) : Z :=
  success_rate (PipelineMetrics.SuccessRuns p) (PipelineMetrics.FailedRuns p).

(** [d.Round(time.Second)], half away from zero. *)
Definition round_second (d : Z) : Z :=
  let r := Z.rem d nanosPerSecond in
  if decide (d < 0) then (if decide (-r + -r < nanosPerSecond) then d - r else d - r - nanosPerSecond)
  else if decide (r + r < nanosPerSecond) then d - r else d + nanosPerSecond - r.
Definition AvgDurationStr (p : PipelineMetrics.t) : string :=
  let avg := PipelineMetrics.AvgDuration p in
  if decide (avg = 0) then "—"
  else
    let secs := Z.quot (round_second avg) nanosPerSecond in
    let h := Z.quot secs 3600 in
    let m := Z.rem (Z.quot secs 60) 60 in
    let s := Z.rem secs 60 in
    (if decide (h > 0) then Itoa h ++ "h " ++ Itoa m ++ "m " ++ Itoa s ++ "s"
     else if decide (m > 0) then Itoa m ++ "m " ++ Itoa s ++ "s"
     else Itoa s ++ "s")%string.

Module FailedRunRow.
Record t := mk { Run : PipelineRun.t; PipelineName : string }.
End FailedRunRow.
Module MetricsDashboardData.
Record t := mk {
  TotalPipelines : Z; TotalRuns : Z; InFlight : Z; MaxInFlight : Z;
  Queued : Z; Running : Z; Success : Z; Failed : Z; Skipped : Z;
  PipelineMetrics_ : list PipelineMetrics.t; RecentFailures : list FailedRunRow.t;
  InFlightPct : Z; SuccessPct : Z; FailedPct : Z; SkippedPct : Z; RunningPct : Z; QueuedPct : Z }.
End MetricsDashboardData.
Definition OverallSuccessRate (d : MetricsDashboardData.t) : Z :=
  success_rate (MetricsDashboardData.Success d) (MetricsDashboardData.Failed d).

(** The counters of the loop over the runs. *)
Module run_counts.
Record t := mk {
  success : Z; failed : Z; skipped : Z; durationSum : Z; durationCount : Z; lastRun : option PipelineRun.t }.
End run_counts.
Definition count_run (n : run_counts.t) (run : PipelineRun.t) : run_counts.t :=
  let 'run_counts.mk ok bad skip sum count last := n in
  let '(ok, bad, skip) :=
    match PipelineRun.Status run with
    | RunStatusSuccess => (ok + 1, bad, skip)
    | RunStatusFailed => (ok, bad + 1, skip)
    | RunStatusSkipped => (ok, bad, skip + 1)
    | RunStatusQueued | RunStatusRunning => (ok, bad, skip)
    end in
  let '(sum, count) :=
    match PipelineRun.StartedAt run, PipelineRun.CompletedAt run with
    | Some started, Some completed => (sum + (completed - started), count + 1)
    | _, _ => (sum, count)
    end in
  run_counts.mk ok bad skip sum count (match last with None => Some run | _ => last end).
Definition count_runs (runs : list PipelineRun.t) : run_counts.t :=
  foldl count_run (run_counts.mk 0 0 0 0 0 None) runs.

Section metrics.
Context `{!OrderBy, !UniqueIDs} {S : Type}.
Context (fts : string -> pipelineScan.t -> bool) (fts_runs : string -> pipelineRunScan.t -> bool).

Definition computePipelineMetrics (p : Pipeline.t) : ST (api S) PipelineMetrics.t :=
  let! runs := attempt (on_db (SearchRunsByPipeline fts_runs (Pipeline.ID p) "" 1 100)) in
  ret match runs with
      | Err _ => PipelineMetrics.mk p 0 0 0 0 0 None
      | Ok runs =>
          let n := count_runs (PaginationResult.Items runs) in
          PipelineMetrics.mk p (PaginationResult.TotalItems runs)
            (run_counts.success n) (run_counts.failed n) (run_counts.skipped n)
            (if decide (run_counts.durationCount n > 0)
             then Z.quot (run_counts.durationSum n) (run_counts.durationCount n) else 0)
            (run_counts.lastRun n)
      end.
Fixpoint pipeline_metrics (ps : list Pipeline.t) : ST (api S) (list PipelineMetrics.t) :=
  match ps with
  | [] => ret []
  | p :: ps =>
      let! pm := computePipelineMetrics p in
      let! rest := pipeline_metrics ps in
      ret (pm :: rest)
  end.

Fixpoint recent_failures (nameByID : gmap string string) (runs : list PipelineRun.t)
    : ST (api S) (list FailedRunRow.t) :=
  match runs with
  | [] => ret []
  | run :: runs =>
      let name := default "" (nameByID !! PipelineRun.PipelineID run) in
      let! name :=
        (if decide (name = "") then
           let! p := attempt (on_db (GetPipeline (PipelineRun.PipelineID run))) in
           ret match p with Ok p => Pipeline.Name p | Err _ => name end
         else ret name) in
      let! rest := recent_failures nameByID runs in
      ret (FailedRunRow.mk run name :: rest)
  end.

Definition count_of (stats : gmap RunStatus Z) (status : RunStatus) : Z := default 0 (stats !! status).
Definition bar (data total : Z) : Z := if decide (total > 0) then pct data total else 0.

Definition buildData : ST (api S) MetricsDashboardData.t :=
  let! inFlight := gets (fun s => sv_inFlight (ap_svc s)) in
  let! maxInFlight := gets (fun s => sv_maxInFlight (ap_svc s)) in
  let! stats := wrap "get run stats" (on_db GetRunStats) in
  let count := count_of stats in
  let totalRuns := map_fold (fun _ n sum => sum + n) 0 stats in
  let! result := wrap "search pipelines" (on_db (SearchPipelines fts "" 1 1)) in
  let! allPipelines := wrap "search pipelines" (on_db (SearchPipelines fts "" 1 200)) in
  let pipelines := PaginationResult.Items allPipelines in
  let! metrics := pipeline_metrics pipelines in
  let nameByID := foldl (fun m p => <[Pipeline.ID p := Pipeline.Name p]> m) ∅ pipelines in
  let! recentFailed := wrap "get runs by status" (on_db (GetRunsByStatus RunStatusFailed 10)) in
  let! failures := recent_failures nameByID recentFailed in
  ret {|
    MetricsDashboardData.TotalPipelines := PaginationResult.TotalItems result;
    MetricsDashboardData.TotalRuns := totalRuns;
    MetricsDashboardData.InFlight := inFlight; MetricsDashboardData.MaxInFlight := maxInFlight;
    MetricsDashboardData.Queued := count RunStatusQueued; MetricsDashboardData.Running := count RunStatusRunning;
    MetricsDashboardData.Success := count RunStatusSuccess; MetricsDashboardData.Failed := count RunStatusFailed;
    MetricsDashboardData.Skipped := count RunStatusSkipped;
    MetricsDashboardData.PipelineMetrics_ := metrics; MetricsDashboardData.RecentFailures := failures;
    MetricsDashboardData.InFlightPct := bar inFlight maxInFlight;
    MetricsDashboardData.SuccessPct := bar (count RunStatusSuccess) totalRuns;
    MetricsDashboardData.FailedPct := bar (count RunStatusFailed) totalRuns;
    MetricsDashboardData.SkippedPct := bar (count RunStatusSkipped) totalRuns;
    MetricsDashboardData.RunningPct := bar (count RunStatusRunning) totalRuns;
    MetricsDashboardData.QueuedPct := bar (count RunStatusQueued) totalRuns |}.
End metrics.

(** ** The counts *)
Definition sum_counts (m : gmap RunStatus Z) : Z := map_fold (fun _ n sum => sum + n) 0 m.
Definition bump (st : RunStatus) (m : gmap RunStatus Z) : gmap RunStatus Z :=
  partial_alter (fun c => Some (default 0 c + 1)) st m.

Lemma sum_counts_insert st n m : m !! st = None -> sum_counts (<[st := n]> m) = sum_counts m + n.
Proof.
  intros Hm. unfold sum_counts. rewrite map_fold_insert_L; [done| |done]. intros. lia.
Qed.
Lemma sum_counts_delete st m : sum_counts m = sum_counts (delete st m) + count_of m st.
Proof.
  unfold count_of. destruct (m !! st) as [n|] eqn:Hm; [|rewrite delete_id by done; cbn; lia].
  rewrite <- (insert_delete_id m st n Hm) at 1. by rewrite sum_counts_insert by apply lookup_delete_eq.
Qed.
Lemma sum_counts_bump st m : sum_counts (bump st m) = sum_counts m + 1.
Proof.
  rewrite (sum_counts_delete st (bump st m)), (sum_counts_delete st m). unfold bump, count_of.
  rewrite delete_partial_alter_eq, lookup_partial_alter_eq. cbn. unfold default. lia.
Qed.
Definition stats_of (rows : list pipelineRunScan.t) : gmap RunStatus Z :=
  foldr (fun r m => bump (pipelineRunScan.Status r) m) ∅ rows.
Lemma stats_total rows : sum_counts (stats_of rows) = Z.of_nat (length rows).
Proof. induction rows as [|r rows IH]; [done|]. cbn [stats_of foldr length]. fold (stats_of rows). rewrite sum_counts_bump. lia. Qed.

Definition with_state (st : RunStatus) (rows : list pipelineRunScan.t) : Z :=
  Z.of_nat (length (List.filter (fun r => bool_decide (pipelineRunScan.Status r = st)) rows)).
Lemma stats_count st rows : count_of (stats_of rows) st = with_state st rows.
Proof.
  unfold with_state. induction rows as [|r rows IH]; [done|]. cbn [stats_of foldr List.filter]. fold (stats_of rows).
  unfold count_of, bump in *. destruct (decide (pipelineRunScan.Status r = st)) as [<-|Hne].
  - rewrite lookup_partial_alter_eq, bool_decide_true by done. cbn [length default]. unfold default, id in *. lia.
  - rewrite lookup_partial_alter_ne, bool_decide_false by done. done.
Qed.

(** ** The widths *)
Lemma pct_bounds part total : 0 <= part <= total -> 0 <= pct part total <= 100.
Proof.
  intros Hp. unfold pct. destruct (decide (total = 0)) as [->|Hne]; [lia|].
  split; [apply Z.quot_pos; lia|]. apply Z.quot_le_upper_bound; lia.
Qed.
Lemma bar_sum parts total :
  Forall (fun p => 0 <= p) parts -> foldr Z.add 0 parts <= total -> foldr Z.add 0 ((fun p => bar p total) <$> parts) <= 100.
Proof.
  intros Hpos Hsum. unfold bar. destruct (decide (total > 0)) as [Ht|Ht].
  - assert (Hall : total * foldr Z.add 0 ((fun p => pct p total) <$> parts) <= 100 * foldr Z.add 0 parts).
    { clear Hsum. induction Hpos as [|p parts Hp _ IH]; cbn [fmap list_fmap foldr]; [lia|].
      unfold pct at 1. rewrite decide_False by lia. rewrite Z.quot_div_nonneg by lia.
      pose proof (Z.mul_div_le (p * 100) total ltac:(lia)). rewrite Z.mul_add_distr_l. lia. }
    nia.
  - clear Hsum. induction parts as [|p parts IH]; cbn; [lia|]. inversion Hpos; subst. by apply IH.
Qed.

Lemma success_rate_bounds success failed : 0 <= success -> 0 <= failed -> 0 <= success_rate success failed <= 100.
Proof. intros Hs Hf. apply (pct_bounds success (success + failed)). lia. Qed.
Lemma states_total rows :
  with_state RunStatusSuccess rows + (with_state RunStatusFailed rows + (with_state RunStatusSkipped rows
    + (with_state RunStatusRunning rows + with_state RunStatusQueued rows))) <= Z.of_nat (length rows).
Proof.
  unfold with_state. induction rows as [|r rows IH]; [done|]. cbn [List.filter].
  repeat case_bool_decide; try congruence; cbn [length]; lia.
Qed.

(** ** The page *)
Section facts.
Context `{!OrderBy, !UniqueIDs} {S : Type}.
Context (fts : string -> pipelineScan.t -> bool) (fts_runs : string -> pipelineRunScan.t -> bool).
Implicit Types s : api S.

Lemma paginatedSearch_read {R T} (f : string -> R -> bool) (select : db -> list R) (convert : R -> T) page perPage q_ d :
  db_faults d = [] -> exists r, paginatedSearch f select convert page perPage q_ d = (Ok r, d).
Proof.
  intros Hf. unfold paginatedSearch. cbv zeta. unfold bind, wrap. rewrite query_no_faults by done.
  rewrite query_no_faults by done. by eexists.
Qed.
Lemma search_read {R T} (f : string -> R -> bool) (select : db -> list R) (convert : R -> T) page perPage q_ s :
  db_faults (sv_db (ap_svc s)) = [] ->
  exists r, on_db (paginatedSearch f select convert page perPage q_) s = (Ok r, s).
Proof.
  intros Hf. destruct (paginatedSearch_read f select convert page perPage q_ _ Hf) as [r Hr].
  exists r. by apply on_db_api.
Qed.
Lemma pipeline_metrics_read ps s :
  db_faults (sv_db (ap_svc s)) = [] -> exists l, pipeline_metrics fts_runs ps s = (Ok l, s).
Proof.
  intros Hf. induction ps as [|p ps [l IH]]; [by eexists|]. cbn [pipeline_metrics]. unfold bind at 1.
  unfold computePipelineMetrics, attempt, bind at 1.
  destruct (search_read fts_runs (fun d => newest_first (select_runs (fun r =>
    bool_decide (pipelineRunScan.PipelineID r = Pipeline.ID p)) d)) pipelineRunScan.toStorage 1 100 "" s Hf) as [r Hr].
  unfold SearchRunsByPipeline. rewrite Hr. unfold ret. unfold bind. rewrite IH. by eexists.
Qed.
Lemma recent_failures_read names runs s :
  db_faults (sv_db (ap_svc s)) = [] -> exists l, recent_failures names runs s = (Ok l, s).
Proof.
  intros Hf. induction runs as [|run runs [l IH]]; [by eexists|]. cbn [recent_failures]. unfold bind at 1.
  assert (Hname : exists name, (if decide (default "" (names !! PipelineRun.PipelineID run) = "") then
      bind (attempt (on_db (GetPipeline (PipelineRun.PipelineID run)))) (fun p =>
        ret match p with Ok p => Pipeline.Name p | Err _ => default "" (names !! PipelineRun.PipelineID run) end)
      else ret (default "" (names !! PipelineRun.PipelineID run))) s = (Ok name, s)).
  { destruct (decide _); [|by eexists]. unfold bind, attempt.
    assert (Hr : exists r, GetPipeline (PipelineRun.PipelineID run) (sv_db (ap_svc s)) = (r, sv_db (ap_svc s))).
    { unfold GetPipeline, bind, wrap. rewrite query_no_faults by done. destruct (db_pipelines _ !! _); eexists; reflexivity. }
    destruct Hr as [r Hr]. rewrite (on_db_api _ s r Hr). by eexists. }
  destruct Hname as [name ->]. unfold bind. rewrite IH. by eexists.
Qed.

(** Without faults the page is made and nothing changes; its total and its
    counts by status are those of the rows, the widths of its bars add up to at
    most a hundred, and so is the overall rate. *)
Theorem buildData_counts s :
  db_faults (sv_db (ap_svc s)) = [] ->
  exists data, buildData fts fts_runs s = (Ok data, s) /\
    let rows := run_rows (sv_db (ap_svc s)) in
    MetricsDashboardData.TotalRuns data = Z.of_nat (length rows) /\
    MetricsDashboardData.Queued data = with_state RunStatusQueued rows /\
    MetricsDashboardData.Running data = with_state RunStatusRunning rows /\
    MetricsDashboardData.Success data = with_state RunStatusSuccess rows /\
    MetricsDashboardData.Failed data = with_state RunStatusFailed rows /\
    MetricsDashboardData.Skipped data = with_state RunStatusSkipped rows /\
    MetricsDashboardData.SuccessPct data + MetricsDashboardData.FailedPct data + MetricsDashboardData.SkippedPct data
      + MetricsDashboardData.RunningPct data + MetricsDashboardData.QueuedPct data <= 100 /\
    0 <= OverallSuccessRate data <= 100.
Proof.
  intros Hf. unfold buildData.
  assert (Hstats : on_db GetRunStats s = (Ok (stats_of (run_rows (sv_db (ap_svc s)))), s)).
  { apply on_db_api. unfold GetRunStats, wrap. by rewrite query_no_faults. }
  destruct (search_read fts (fun d => order_by (fun p => (- pipelineScan.CreatedAt p)%Z) (pipeline_rows d))
    pipelineScan.toStorage 1 1 "" s Hf) as [r1 Hr1].
  destruct (search_read fts (fun d => order_by (fun p => (- pipelineScan.CreatedAt p)%Z) (pipeline_rows d))
    pipelineScan.toStorage 1 200 "" s Hf) as [r2 Hr2].
  destruct (pipeline_metrics_read (PaginationResult.Items r2) s Hf) as [metrics Hm].
  assert (Hfail : exists l, on_db (GetRunsByStatus RunStatusFailed 10) s = (Ok l, s)).
  { eexists. apply on_db_api. unfold GetRunsByStatus, wrap. by rewrite query_no_faults. }
  destruct Hfail as [failed Hfailed].
  set (names := foldl (fun m p => <[Pipeline.ID p := Pipeline.Name p]> m) (∅ : gmap string string) (PaginationResult.Items r2)).
  destruct (recent_failures_read names failed s Hf) as [failures Hfs].
  eexists. split.
  { unfold bind, wrap, gets. rewrite Hstats. unfold SearchPipelines. rewrite Hr1, Hr2, Hm, Hfailed. fold names.
    rewrite Hfs. reflexivity. }
  cbn [MetricsDashboardData.TotalRuns MetricsDashboardData.Queued MetricsDashboardData.Running
       MetricsDashboardData.Success MetricsDashboardData.Failed MetricsDashboardData.Skipped
       MetricsDashboardData.SuccessPct MetricsDashboardData.FailedPct MetricsDashboardData.SkippedPct
       MetricsDashboardData.RunningPct MetricsDashboardData.QueuedPct].
  fold (sum_counts (stats_of (run_rows (sv_db (ap_svc s))))). rewrite stats_total, !stats_count.
  set (rows := run_rows (sv_db (ap_svc s))).
  pose proof (success_rate_bounds (with_state RunStatusSuccess rows) (with_state RunStatusFailed rows)
    ltac:(unfold with_state; lia) ltac:(unfold with_state; lia)) as Hrate.
  split_and!; try done.
  - pose proof (bar_sum [with_state RunStatusSuccess rows; with_state RunStatusFailed rows; with_state RunStatusSkipped rows;
      with_state RunStatusRunning rows; with_state RunStatusQueued rows] (Z.of_nat (length rows))) as Hbar.
    cbn [fmap list_fmap foldr] in Hbar. rewrite !Z.add_0_r in Hbar. rewrite <- !Z.add_assoc.
    apply Hbar; [repeat constructor; unfold with_state; lia|]. apply states_total.
  - apply Hrate.
  - apply Hrate.
Qed.
End facts.

(** ** Witnesses *)
Section witnesses.
#[local] Existing Instances ex_lang ex_engine counter_ids stable_order.
Lemma ex_metrics_read :
  exists data, buildData (fun _ _ => false) (fun _ _ => false) ex_hidden = (Ok data, ex_hidden) /\
    MetricsDashboardData.TotalRuns data = 1 /\ MetricsDashboardData.Success data = 1.
Proof.
  destruct (buildData_counts (fun _ _ => false) (fun _ _ => false) ex_hidden eq_refl) as (data & Hd & Ht & _ & _ & Hs & _).
  exists data. split; [exact Hd|]. rewrite Ht, Hs. split; vm_compute; reflexivity.
Qed.

(** The page names every pipeline, to every caller. *)
Lemma metrics_name_all :
  match (buildData (fun _ _ => false) (fun _ _ => false) ex_hidden).1 with
  | Ok data => (fun m => Pipeline.Name (PipelineMetrics.Pipeline_ m)) <$> MetricsDashboardData.PipelineMetrics_ data
  | Err _ => []
  end = ["build"; "deploy"].
Proof. vm_compute. reflexivity. Qed.

Example AvgDurationStr_examples :
  AvgDurationStr <$> ((fun d => PipelineMetrics.mk (pipelineScan.toStorage (ex_row "p1" "build" "")) 0 0 0 0 d None)
    <$> [0; 499999999; 3661500000000; 59500000000; -1500000000]) = ["—"; "0s"; "1h 1m 2s"; "1m 0s"; "-2s"].
Proof. vm_compute. reflexivity. Qed.
End witnesses.
