(* ===== verification/Routing.v ===== *)
(** * Routes, the server's start and the MCP tools (server/router.go, server/mcp_server.go)

    The table of routes with the group each belongs to and the middleware in
    front of the group, what the server does before it serves, and the tools
    for MCP clients. How a path is matched to a route is the router library's.
    [anonymous_sees_public]: what is served without a login. *)
From S2P Require Import Prelude Storage Json Db GoStrings Sql Paging Runs Tasks Pipelines Config Server.
From S2P Require Import Admission Passed Execution Tokens Auth PipelinesApi PipelineViews TerminalViews.
From Stdlib Require Import Ascii.
Open Scope string_scope.

(** ** Routes *)
Inductive group : Type :=
  | Open_           (* the router itself *)
  | Web
  | Api
  | BearerToken.    (* behind the MCP library's middleware *)
#[export] Instance group_eq_dec : EqDecision group.
Proof. solve_decision. Defined.

Module Route.
Record t := mk { Method : string; Path : string; Group : group; Handler : string }.
End Route.
Definition GET := Route.mk "GET".
Definition POST := Route.mk "POST".
Definition PUT := Route.mk "PUT".
Definition DELETE := Route.mk "DELETE".
Definition Any := Route.mk "*".
Definition api_path (p : string) : string := "/api" ++ p.

Definition APIPipelines_routes : list Route.t :=
  [GET (api_path "/pipelines") Api "Index"; GET (api_path "/pipelines/:id") Api "Show";
   PUT (api_path "/pipelines/:name") Api "Upsert"; DELETE (api_path "/pipelines/:id") Api "Destroy";
   POST (api_path "/pipelines/:id/trigger") Api "Trigger"; POST (api_path "/pipelines/:id/pause") Api "Pause";
   POST (api_path "/pipelines/:id/unpause") Api "Unpause"; POST (api_path "/pipelines/:name/run") Api "Run";
   POST (api_path "/pipelines/:id/jobs/:name/seed-passed") Api "SeedJobPassed";
   GET (api_path "/pipelines/:id/schedules") Api "ListSchedules"].
Definition APIRuns_routes : list Route.t :=
  [GET (api_path "/runs/:run_id/status") Api "Status"; GET (api_path "/runs/:run_id/tasks") Api "Tasks";
   POST (api_path "/runs/:run_id/stop") Api "Stop"; POST (api_path "/runs/:run_id/resume") Api "Resume"].
Definition APIGates_routes : list Route.t :=
  [GET (api_path "/runs/:run_id/gates") Api "ListByRun"; POST (api_path "/gates/:gate_id/approve") Api "Approve";
   POST (api_path "/gates/:gate_id/reject") Api "Reject"].
Definition APIDrivers_routes : list Route.t := [GET (api_path "/drivers") Api "Drivers"].
Definition APIFeatures_routes : list Route.t := [GET (api_path "/features") Api "Features"].
Definition Schedule_routes : list Route.t := [PUT (api_path "/schedules/:id/enabled") Api "UpdateEnabled"].
Definition APIWebhooks_routes : list Route.t := [Any "/api/webhooks/:id" Open_ "Webhook"].
Definition WebPipelines_routes : list Route.t :=
  [GET "/pipelines/" Web "web_Index"; GET "/pipelines/:id/" Web "web_Show";
   GET "/pipelines/:id/runs-section" Web "RunsSection"; GET "/pipelines/:id/runs-section/" Web "RunsSection";
   GET "/pipelines/:id/runs-search" Web "RunsSearch"; GET "/pipelines/:id/runs-search/" Web "RunsSearch";
   GET "/pipelines/:id/source" Web "Source"; GET "/pipelines/:id/source/" Web "Source"].
Definition WebRuns_routes : list Route.t :=
  [GET "/runs/:id/tasks" Web "TasksPage"; GET "/runs/:id/graph" Web "Graph";
   GET "/runs/:id/tasks-partial" Web "TasksPartial"; GET "/runs/:id/tasks-partial/" Web "TasksPartial";
   GET "/runs/:id/graph-data" Web "GraphData"; GET "/runs/:id/graph-data/" Web "GraphData";
   GET "/terminal/*" Web "Terminal"].
Definition WebMetrics_routes : list Route.t := [GET "/metrics/" Web "Metrics"; GET "/metrics/content" Web "MetricsContent"].
Definition WebShare_routes : list Route.t := [GET "/share/:token/tasks" Open_ "SharePage"].
Definition APIShare_routes : list Route.t := [POST (api_path "/runs/:run_id/share") Api "CreateShare"].

Definition registerRoutes : list Route.t :=
  (APIPipelines_routes ++ APIRuns_routes ++ APIGates_routes ++ APIDrivers_routes ++ APIFeatures_routes
   ++ Schedule_routes ++ APIWebhooks_routes ++ WebPipelines_routes ++ WebRuns_routes ++ WebMetrics_routes
   ++ WebShare_routes ++ APIShare_routes)%list.

(** The login flows; [RegisterRoutes] of server/auth/handlers.go. *)
Definition auth_routes : list Route.t :=
  [GET "/auth/login" Open_ "LoginPage"; GET "/auth/logout" Open_ "Logout"; GET "/auth/:provider" Open_ "BeginAuth";
   GET "/auth/:provider/callback" Open_ "Callback"; GET "/auth/user" Open_ "CurrentUser";
   POST "/auth/cli/begin" Open_ "CLIBegin"; GET "/auth/cli/poll" Open_ "CLIPoll";
   GET "/auth/cli/approve" Open_ "CLIApprove"; POST "/auth/cli/approve" Open_ "CLIApproveConfirm";
   GET "/oauth/authorize" Open_ "HandleAuthorize"; POST "/oauth/token" Open_ "HandleToken";
   POST "/oauth/register" Open_ "HandleRegister"].
Definition static_routes : list Route.t :=
  [GET "/static/*" Open_ "Static"; GET "/docs" Open_ "DocsRedirect"; GET "/docs/*" Open_ "Docs";
   GET "/health" Open_ "Health"; GET "/health/" Open_ "Health"].
Definition mcp_routes (oauth : bool) : list Route.t :=
  let g := if oauth then BearerToken else Web in [Any "/mcp" g "MCP"; Any "/mcp/*" g "MCP"].
Definition oauth_routes : list Route.t :=
  (auth_routes ++
   [GET "/.well-known/oauth-protected-resource" Open_ "ProtectedResourceMetadata";
    GET "/.well-known/oauth-authorization-server" Open_ "AuthServerMetadata"])%list.
Definition routes (oauth : bool) : list Route.t :=
  (static_routes ++ (if oauth then oauth_routes else []) ++ mcp_routes oauth ++ [GET "/" Web "Root"] ++ registerRoutes)%list.

(** ** The middleware of the groups *)
Module RouterOptions.
Record t := mk { AuthConfig_ : option AuthConfig.t; BasicAuthUsername : string; BasicAuthPassword : string }.
End RouterOptions.

Section guards.
Context `{!AccessLang, !JWT}.
(** The library's basic authentication and its bearer tokens: the credentials
    of a request; whether its token verifies and has the scopes. *)
Context (basic_credentials : AuthRequest -> option (string * string)).
Context (RequireBearerToken : (string -> result (list string * time * string)) -> list string -> AuthRequest -> bool).

Definition newBasicAuthMiddleware (username password : string) (ctx : AuthContext.t) (r : AuthRequest)
    : AuthContext.t + denial :=
  if decide (username = "" \/ password = "") then inl ctx
  else
    match basic_credentials r with
    | Some (u, p) =>
        if decide (u = username /\ p = password) then
          inl (AuthContext.mk (AuthContext.user ctx) (WithRequestActor (AuthContext.actor ctx) (RequestActor.mk "basic" u)))
        else inr (DenyPage 401 "Unauthorized")
    | None => inr (DenyPage 401 "Unauthorized")
    end.

Definition oauth_config (opts : RouterOptions.t) : option AuthConfig.t :=
  match RouterOptions.AuthConfig_ opts with
  | Some cfg => if HasOAuthProviders cfg then Some cfg else None
  | None => None
  end.
(** What stands in front of the handler of a route. *)
Definition guard (opts : RouterOptions.t) (now : time) (g : group) (r : AuthRequest) : AuthContext.t + denial :=
  match g, oauth_config opts with
  | Open_, _ => inl AuthContext.empty
  | BearerToken, Some cfg =>
      if RequireBearerToken (MCPTokenVerifier (AuthConfig.SessionSecret cfg) now) [MCPScope] r
      then inl AuthContext.empty else inr (DenyPage 401 "Unauthorized")
  | _, Some cfg => authMiddleware cfg now r
  | _, None =>
      newBasicAuthMiddleware (RouterOptions.BasicAuthUsername opts) (RouterOptions.BasicAuthPassword opts)
        AuthContext.empty r
  end.

Definition public_paths : list string :=
  ["/static/*"; "/docs"; "/docs/*"; "/health"; "/health/"; "/api/webhooks/:id"; "/share/:token/tasks";
   "/.well-known/oauth-protected-resource"; "/.well-known/oauth-authorization-server";
   "/auth/login"; "/auth/logout"; "/auth/:provider"; "/auth/:provider/callback"; "/auth/user";
   "/auth/cli/begin"; "/auth/cli/poll"; "/auth/cli/approve"; "/oauth/authorize"; "/oauth/token"; "/oauth/register"].

(** With OAuth, a request that speaks for no user and has no token for MCP
    clients reaches the handlers of the public paths only. *)
Theorem anonymous_sees_public opts cfg now r rt ctx :
  oauth_config opts = Some cfg ->
  (forall user, ~ speaks_for cfg now r user) ->
  RequireBearerToken (MCPTokenVerifier (AuthConfig.SessionSecret cfg) now) [MCPScope] r = false ->
  rt ∈ routes true -> guard opts now (Route.Group rt) r = inl ctx ->
  Route.Path rt ∈ public_paths.
Proof.
  intros Hcfg Hnone Hbearer Hrt Hguard.
  assert (Hprov : HasOAuthProviders cfg = true).
  { unfold oauth_config in Hcfg. destruct (RouterOptions.AuthConfig_ opts) as [c|]; [|done].
    destruct (HasOAuthProviders c) eqn:Hp; [by simplify_eq|done]. }
  assert (Hauth : forall ctx, authMiddleware cfg now r <> inl ctx).
  { intros ctx' Ha. unfold authMiddleware in Ha.
    destruct (RequireAuth _ _ _ r) as [c|d] eqn:Hr; [|done].
    apply RequireAuth_exact in Hr as (user & Hs & _); [|done]. by destruct (Hnone user). }
  unfold guard in Hguard. rewrite Hcfg in Hguard.
  assert (Hopen : Route.Group rt = Open_).
  { destruct (Route.Group rt); [done| | |]; [by apply Hauth in Hguard..|]. by rewrite Hbearer in Hguard. }
  clear -Hrt Hopen.
  assert (Hall : Forall (fun rt => Route.Group rt = Open_ -> Route.Path rt ∈ public_paths) (routes true)).
  { apply (bool_decide_unpack _). vm_compute. exact Logic.I. }
  rewrite Forall_forall in Hall. by apply Hall.
Qed.
End guards.

(** ** The tools for MCP clients (mcp_server.go) *)
Inductive mcp_answer : Type :=
  | McpRun (run : PipelineRun.t)
  | McpResults (l : list Result.t)
  | McpTask (path : string) (payload : json)
  | McpRuns (page : PaginationResult.t PipelineRun.t)
  | McpPipelines (page : PaginationResult.t Pipeline.t).

Module searchTasksInput.
Record t := mk { RunID : string; PipelineID : string; Query : string; Page : option Z; PerPage : option Z }.
End searchTasksInput.
Definition given_page (d : Z) (o : option Z) : Z :=
  match o with Some n => if (0 <? n)%Z then n else d | None => d end.

Section tools.
Context `{!Namespace, !OrderBy, !JsonText, !UniqueIDs}.
Context (fts : string -> pipelineScan.t -> bool) (fts_runs : string -> pipelineRunScan.t -> bool).
Context (fts_tasks : string -> result (string * taskRow.t -> bool)).

Definition get_run (runID : string) : ST db mcp_answer :=
  let! run := wrap "could not get run" (GetRun runID) in ret (McpRun run).

Definition list_run_tasks_fields : list string :=
  ["status"; "elapsed"; "started_at"; "type"; "text"; "tokensUsed"; "duration"; "logs"; "dependsOn"].
Definition list_run_tasks (runID : string) : ST db mcp_answer :=
  let! results := wrap "could not get tasks" (GetAll (run_path runID) list_run_tasks_fields) in
  ret (McpResults results).

Definition get_run_task (runID path : string) : ST db mcp_answer :=
  if decide (path = "") then fail (EMsg "path is required")
  else
    let prefix := run_path runID in
    let lookupPath := if HasPrefix path "/" then path else prefix ++ TrimPrefix path "/" in
    if negb (HasPrefix lookupPath prefix) then fail (EMsg "task path must be scoped to the run")
    else
      let! payload := wrap "could not get task" (Get lookupPath) in
      ret (McpTask lookupPath payload).

Definition searchTasksByRun (input : searchTasksInput.t) : ST db mcp_answer :=
  let! results := wrap "could not search tasks"
    (Search fts_tasks (run_path (searchTasksInput.RunID input)) (searchTasksInput.Query input)) in
  ret (McpResults results).
Definition searchTasksByPipeline (input : searchTasksInput.t) : ST db mcp_answer :=
  let! results := wrap "could not search runs"
    (SearchRunsByPipeline fts_runs (searchTasksInput.PipelineID input) (searchTasksInput.Query input)
       (given_page 1 (searchTasksInput.Page input)) (given_page 20 (searchTasksInput.PerPage input))) in
  ret (McpRuns results).
Definition search_tasks (input : searchTasksInput.t) : ST db mcp_answer :=
  if decide (searchTasksInput.RunID input = "" /\ searchTasksInput.PipelineID input = "") then
    fail (EMsg "either run_id or pipeline_id must be provided")
  else if decide (searchTasksInput.RunID input <> "") then searchTasksByRun input
  else searchTasksByPipeline input.

Definition search_pipelines (query_ : string) (page perPage : option Z) : ST db mcp_answer :=
  let! result := wrap "could not search pipelines"
    (SearchPipelines fts query_ (given_page 1 page) (given_page 20 perPage)) in
  ret (McpPipelines result).
End tools.

(** ** The start of the server (NewRouter) *)
Section start.
Context `{!UniqueIDs, !OrderBy, !JsonText, !TemplateEngine, !MapOrder}.
Context (ParseConfig : string -> result Config.t) (fts : string -> pipelineScan.t -> bool).

(** The queue processor runs from here on. *)
Definition recover_all : ST svc unit :=
  RecoverOrphanedRuns ;;;
  recoverPassedTriggers ParseConfig fts.

(** What the scheduler calls for a schedule that is due. *)
Definition triggerFn (sched : Schedule.t) : ST svc unit :=
  let! pipeline := wrap ("scheduler: pipeline " ++ Schedule.PipelineID sched ++ " not found")
    (on_db (GetPipeline (Schedule.PipelineID sched))) in
  if Pipeline.Paused pipeline then ret tt
  else
    TriggerScheduledPipeline pipeline (Schedule.Name sched) (Schedule.JobName sched) ;;;
    ret tt.
Definition startSchedulerIfEnabled (features : list Feature) : option (Schedule.t -> ST svc unit) :=
  if IsFeatureEnabled FeatureSchedules features then Some triggerFn else None.

Lemma triggerFn_steps sched : by_calls (triggerFn sched).
Proof.
  unfold triggerFn. by_calls_tac.
Qed.
End start.

(** ** Witnesses *)
Section witnesses.
#[local] Existing Instances ex_lang ex_engine counter_ids stable_order ex_json_text some_map_order.
#[local] Instance route_ns : Namespace := "".

(** The queue processor is started before the recovery: a queued run that it
    has already started is taken for an orphan, and marked as failed. *)
Definition ex_queued_run : pipelineRunScan.t :=
  pipelineRunScan.mk "r1" "p2" RunStatusQueued None None None TriggerTypeManual "" TriggerInput.empty "" 4%Z.
Definition ex_start : svc :=
  NewExecutionService (set_runs (fun _ => {["r1" := ex_queued_run]}) ex_api_db) 2 5 AllFeatures.
Definition before_recovery : svc :=
  foldl (fun s ev => serve ex_parse ev s) ex_start [EvTick; EvPhase 0 None; EvPhase 0 None].
Definition after_recovery : svc := serve ex_parse EvRecover before_recovery.
Lemma recovery_fails_live_run :
  (pipelineRunScan.Status <$> db_runs (sv_db before_recovery) !! "r1") = Some RunStatusRunning /\
  (pipelineRunScan.Status <$> db_runs (sv_db after_recovery) !! "r1") = Some RunStatusFailed /\
  (g_phase <$> sv_goroutines after_recovery !! 0) = Some PhRunning.
Proof. vm_compute. done. Qed.

(** A path of a task may lead out of the run. *)
Lemma get_run_task_leaves_run :
  (get_run_task "r9" "../r1/jobs/a/0/t" (view_db [])).1 =
    Ok (McpTask "/pipeline/r9/../r1/jobs/a/0/t"
      (JObj [("status", JStr "failure"); ("stdout", JStr "the s3cret and p&w"); ("error_message", JStr "no s3cret")])).
Proof. vm_compute. reflexivity. Qed.

(** The tools do not ask who is asking: the pipelines of others are found. *)
Lemma search_pipelines_unguarded :
  match (search_pipelines (fun _ _ => true) "" None None ex_api_db).1 with
  | Ok (McpPipelines page) => Pipeline.Name <$> PaginationResult.Items page
  | _ => []
  end = ["build"; "deploy"].
Proof. vm_compute. reflexivity. Qed.
End witnesses.
