(* ===== verification/AgentLoop.v ===== *)
(** * The loop of an agent (runtime/agent: limits.go, audit.go, agent_helpers.go,
    result.go, and the follow-up of agent.go)

    A run of an agent reads the events its runner produces, one model answer
    after another, counts what they cost against two limits, and keeps the
    text, the usage and the audit log. The runner, the sandbox, the store and
    the callbacks are a host state [S] behind a class. [executeAgentLoop_stops]: the
    loop ends within its limits whatever the model answers;
    [executeAgentLoop_explains]: the audit log accounts for the result. *)
From S2P Require Import Prelude Storage Json Db GoStrings Paging Config.
From Stdlib Require Import Ascii.
Open Scope string_scope.

(** [int32] arithmetic. *)
Definition int32 (n : Z) : Z := ((n + 2 ^ 31) mod 2 ^ 32 - 2 ^ 31)%Z.

(** ** Data *)
Module AgentUsage.
Record t := mk { PromptTokens : Z; CompletionTokens : Z; TotalTokens : Z; LLMRequests : Z; ToolCallCount : Z }.
Definition zero : t := mk 0 0 0 0 0.
End AgentUsage.

Module AuditUsage.
Record t := mk { PromptTokens : Z; CompletionTokens : Z; TotalTokens : Z }.
End AuditUsage.

Module AuditEvent.
Record t := mk {
  Timestamp : string; InvocationID : string; Author : string; Type_ : string; Text : string;
  ToolName : string; ToolCallID : string; ToolArgs : option json; ToolResult : option json;
  Usage : option AuditUsage.t }.
Definition note (timestamp author type text : string) : t := mk timestamp "" author type text "" "" None None None.
End AuditEvent.

Module AgentResult.
Record t := mk { Text : string; Status : string; Usage : AgentUsage.t; AuditLog : list AuditEvent.t }.
End AgentResult.

Module AgentLimitsConfig.
Record t := mk { MaxTurns : Z; MaxTotalTokens : Z }.
End AgentLimitsConfig.

Module AgentContextGuardConfig.
Record t := mk { Strategy : string; MaxTurns : Z; MaxTokens : Z }.
End AgentContextGuardConfig.

(** What the runner yields (session.Event): [UsageMetadata] comes with the
    answer of a model, [Timestamp] is absent when it is zero, [IsFinalResponse]
    is what the method answers. *)
Module Part.
Record t := mk {
  FunctionCall : option (string * string * json);        (* name, id, arguments *)
  FunctionResponse : option (string * string * json);    (* name, id, response *)
  Text : string }.
End Part.
Module Event.
Record t := mk {
  InvocationID : string; Author : string; Timestamp : option string; IsFinalResponse : bool;
  UsageMetadata : option (Z * Z * Z);                    (* prompt, candidates, total *)
  Content : option (list Part.t) }.
End Event.

(** ** Limits *)
Definition DefaultLimitsMaxTurns : Z := 50.
Definition DefaultContextGuardMaxTurns : Z := 30.
Definition DefaultContextGuardMaxTokens : Z := 128000.
Definition limitWarningTurnsBefore : Z := 2.

Definition EffectiveLimits (cfg : option AgentLimitsConfig.t) : Z * Z :=
  match cfg with
  | None => (DefaultLimitsMaxTurns, 0%Z)
  | Some cfg =>
      (if (AgentLimitsConfig.MaxTurns cfg <=? 0)%Z then DefaultLimitsMaxTurns else AgentLimitsConfig.MaxTurns cfg,
       AgentLimitsConfig.MaxTotalTokens cfg)
  end.

Definition NormalizeContextGuardConfig (cg : option AgentContextGuardConfig.t) : result (string * Z) :=
  match cg with
  | None => Ok ("", 0%Z)
  | Some cg =>
      let strategy := ToLower (TrimSpace (AgentContextGuardConfig.Strategy cg)) in
      let strategy := if decide (strategy = "") then
          (if (0 <? AgentContextGuardConfig.MaxTurns cg)%Z then "sliding_window" else "threshold")
        else strategy in
      if decide (strategy = "sliding_window") then
        Ok (strategy, if (AgentContextGuardConfig.MaxTurns cg <=? 0)%Z then DefaultContextGuardMaxTurns
                      else AgentContextGuardConfig.MaxTurns cg)
      else if decide (strategy = "threshold") then
        Ok (strategy, if (AgentContextGuardConfig.MaxTokens cg <=? 0)%Z then DefaultContextGuardMaxTokens
                      else AgentContextGuardConfig.MaxTokens cg)
      else Err (EMsg ("invalid context_guard strategy " ++ q (AgentContextGuardConfig.Strategy cg)
                      ++ ": expected " ++ q "threshold" ++ " or " ++ q "sliding_window"))
  end.

(** An option of the guard. *)
Inductive AgentOption : Type := WithSlidingWindow (turns : Z) | WithMaxTokens (tokens : Z).
Definition resolveContextGuardOptions (cg : option AgentContextGuardConfig.t) : result (list AgentOption) :=
  match NormalizeContextGuardConfig cg with
  | Err e => Err e
  | Ok (strategy, value) =>
      if decide (strategy = "") then Ok []
      else if decide (strategy = "sliding_window") then Ok [WithSlidingWindow value]
      else if decide (strategy = "threshold") then Ok [WithMaxTokens value]
      else Err (EMsg ("unsupported context_guard strategy " ++ q strategy))
  end.

(** ** The host

    [host_run] starts the runner over, [host_next] runs the agent up to its next
    event: a model answer, the call of a tool or its result. The callbacks may be absent in the code; then they do
    nothing. *)
Class AgentHost (S : Type) : Type := {
  host_run : option string -> S -> S;                  (* runner.Run, with a new message *)
  host_next : S -> S * option (Event.t + err);
  host_cancel : S -> S;
  host_now : S -> string;                              (* time.Now().UTC(), RFC 3339 *)
  OnUsage : AgentUsage.t -> S -> S;
  OnAuditEvent : AuditEvent.t -> S -> S;
  OnOutput : string -> string -> S -> S }.

(** What a run accumulates, with the host beside it. *)
Record running {S : Type} : Type := mkRunning {
  textBuilder : string; resultBuilder : string; usage : AgentUsage.t; auditEvents : list AuditEvent.t; host : S }.
Arguments running : clear implicits.
Arguments mkRunning {S}.

Section loop.
Context {S : Type} `{!AgentHost S}.
Implicit Types r : running S.

Definition set_host (s : S) r : running S :=
  mkRunning (textBuilder r) (resultBuilder r) (usage r) (auditEvents r) s.
Definition set_usage u r : running S :=
  mkRunning (textBuilder r) (resultBuilder r) u (auditEvents r) (host r).
Definition reset_result r : running S :=
  mkRunning (textBuilder r) "" (usage r) (auditEvents r) (host r).

Definition EmitUsageSnapshot r : running S := set_host (OnUsage (usage r) (host r)) r.

Definition AppendAuditEvent (event : AuditEvent.t) r : running S :=
  mkRunning (textBuilder r) (resultBuilder r) (usage r) (auditEvents r ++ [event])
    (OnAuditEvent event (host r)).

Definition accumulateUsage (meta : Z * Z * Z) r : running S :=
  let '(prompt, candidates, total) := meta in
  let u := usage r in
  EmitUsageSnapshot (set_usage (AgentUsage.mk
    (int32 (AgentUsage.PromptTokens u + prompt)) (int32 (AgentUsage.CompletionTokens u + candidates))
    (int32 (AgentUsage.TotalTokens u + total)) (AgentUsage.LLMRequests u + 1) (AgentUsage.ToolCallCount u)) r).

Definition count_tool_call r : running S :=
  let u := usage r in
  set_usage (AgentUsage.mk (AgentUsage.PromptTokens u) (AgentUsage.CompletionTokens u)
    (AgentUsage.TotalTokens u) (AgentUsage.LLMRequests u) (AgentUsage.ToolCallCount u + 1)) r.

Definition processTextOutput (text : string) (event : AuditEvent.t) r : running S :=
  AppendAuditEvent event
    (mkRunning (textBuilder r ++ text) (resultBuilder r) (usage r) (auditEvents r)
       (OnOutput "stdout" text (host r))).

Definition write_result (text : string) r : running S :=
  mkRunning (textBuilder r) (resultBuilder r ++ text) (usage r) (auditEvents r) (host r).

Definition process_call (ev : Event.t) (ts : string) (part : Part.t) r : running S :=
  match Part.FunctionCall part with
  | None => r
  | Some (name, id, args) =>
      EmitUsageSnapshot (AppendAuditEvent (AuditEvent.mk ts (Event.InvocationID ev) (Event.Author ev)
        "tool_call" "" name id (Some args) None None) (count_tool_call r))
  end.
Definition process_response (ev : Event.t) (ts : string) (part : Part.t) r : running S :=
  match Part.FunctionResponse part with
  | None => r
  | Some (name, id, response) =>
      AppendAuditEvent (AuditEvent.mk ts (Event.InvocationID ev) (Event.Author ev)
        "tool_response" "" name id None (Some response) None) r
  end.
Definition process_text (ev : Event.t) (ts : string) (eventUsage : option AuditUsage.t) (part : Part.t) r
    : running S :=
  let isFinal := Event.IsFinalResponse ev in
  let r := processTextOutput (Part.Text part)
    (AuditEvent.mk ts (Event.InvocationID ev) (Event.Author ev) (if isFinal then "model_final" else "model_text")
       (Part.Text part) "" "" None None eventUsage) r in
  if isFinal then write_result (Part.Text part) r else r.

(** The usage of the event goes with its first text. *)
Fixpoint process_parts (ev : Event.t) (ts : string) (eventUsage : option AuditUsage.t) (parts : list Part.t) r
    : running S :=
  match parts with
  | [] => r
  | part :: parts =>
      let r := process_response ev ts part (process_call ev ts part r) in
      if decide (Part.Text part = "") then process_parts ev ts eventUsage parts r
      else process_parts ev ts None parts (process_text ev ts eventUsage part r)
  end.

Definition processEventParts (ev : Event.t) (eventUsage : option AuditUsage.t) r : running S :=
  match Event.Content ev with
  | None => r
  | Some parts => process_parts ev (default (host_now (host r)) (Event.Timestamp ev)) eventUsage parts r
  end.

(** [(exceeded, warned)] *)
Definition checkAgentLimits (turnCount maxTurns maxTotalTokens : Z) (warningInjected : bool) r
    : bool * bool * running S :=
  let warn text r := AppendAuditEvent (AuditEvent.note (host_now (host r)) "system" "limit_warning" text) r in
  let total := AgentUsage.TotalTokens (usage r) in
  if (0 <? maxTotalTokens)%Z && (maxTotalTokens <=? total)%Z then
    (true, warningInjected,
     warn ("Total token budget exhausted (" ++ Itoa total ++ "/" ++ Itoa maxTotalTokens
           ++ " tokens used). Stopping agent.") r)
  else
    let '(warned, r) :=
      if negb warningInjected && (turnCount =? maxTurns - limitWarningTurnsBefore)%Z then
        (true, warn ("You are approaching your turn limit (" ++ Itoa turnCount ++ "/" ++ Itoa maxTurns
           ++ " turns used). Please wrap up your current task and provide a final response within the next "
           ++ Itoa limitWarningTurnsBefore ++ " turn(s).") r)
      else (false, r) in
    if (maxTurns <=? turnCount)%Z then
      (true, warned,
       warn ("Turn limit reached (" ++ Itoa turnCount ++ "/" ++ Itoa maxTurns ++ "). Stopping agent.") r)
    else (false, warned, r).

Definition audit_usage (meta : Z * Z * Z) : AuditUsage.t :=
  let '(prompt, candidates, total) := meta in AuditUsage.mk prompt candidates total.

(** The result says whether a limit was exceeded. [None]: out of fuel. *)
Fixpoint agent_loop (fuel : nat) (maxTurns maxTotalTokens turnCount : Z) (warningInjected : bool) r
    : option (result bool * running S) :=
  match fuel with
  | O => None
  | Datatypes.S fuel =>
      let '(s, item) := host_next (host r) in
      let r := set_host s r in
      match item with
      | None => Some (Ok false, r)
      | Some (inr e) =>
          if errors_Is e SCanceled then Some (Ok false, r) else Some (Err (EWrap "agent: run failed" e), r)
      | Some (inl ev) =>
          match Event.UsageMetadata ev with
          | None => agent_loop fuel maxTurns maxTotalTokens turnCount warningInjected (processEventParts ev None r)
          | Some meta =>
              let turnCount := (turnCount + 1)%Z in
              let '(exceeded, warned, r) :=
                checkAgentLimits turnCount maxTurns maxTotalTokens warningInjected (accumulateUsage meta r) in
              if exceeded then Some (Ok true, r)
              else agent_loop fuel maxTurns maxTotalTokens turnCount (warningInjected || warned)
                     (processEventParts ev (Some (audit_usage meta)) r)
          end
      end
  end.

Definition executeAgentLoop (fuel : nat) (maxTurns maxTotalTokens : Z) r : option (result bool * running S) :=
  prod_map id (fun r => set_host (host_cancel (host r)) r)
    <$> agent_loop fuel maxTurns maxTotalTokens 0 false (set_host (host_run None (host r)) r).
End loop.

(** ** The log explains the result

    What the audit log says: the text of the model, the text of its final
    responses since the last follow-up, the number of tool calls. *)
Definition log_text (e : AuditEvent.t) : string :=
  if decide (AuditEvent.Type_ e = "model_text" \/ AuditEvent.Type_ e = "model_final") then AuditEvent.Text e else "".
Definition log_result (result : string) (e : AuditEvent.t) : string :=
  if decide (AuditEvent.Type_ e = "validation_followup") then ""
  else if decide (AuditEvent.Type_ e = "model_final") then result ++ AuditEvent.Text e else result.
Definition log_calls (e : AuditEvent.t) : Z := if decide (AuditEvent.Type_ e = "tool_call") then 1 else 0.

Definition explained_text (log : list AuditEvent.t) : string := foldl (fun text e => text ++ log_text e) "" log.
Definition explained_result (log : list AuditEvent.t) : string := foldl log_result "" log.
Definition explained_calls (log : list AuditEvent.t) : Z := foldl (fun n e => n + log_calls e)%Z 0%Z log.

Record explains {S} (r : running S) : Prop := {
  explains_text : textBuilder r = explained_text (auditEvents r);
  explains_result : resultBuilder r = explained_result (auditEvents r);
  explains_calls : AgentUsage.ToolCallCount (usage r) = explained_calls (auditEvents r) }.

(** The types that say nothing of the three. *)
Definition silent (e : AuditEvent.t) : Prop :=
  AuditEvent.Type_ e ∉ ["model_text"; "model_final"; "tool_call"; "validation_followup"].

Ltac other_type := unfold silent; cbn [AuditEvent.Type_ AuditEvent.note]; apply (bool_decide_unpack _); vm_compute; exact Logic.I.

Section facts.
Context {S : Type} `{!AgentHost S}.
Implicit Types r : running S.

Lemma silent_log e : silent e -> log_text e = "" /\ (forall s, log_result s e = s) /\ log_calls e = 0%Z.
Proof.
  unfold silent, log_text, log_result, log_calls. rewrite !not_elem_of_cons. intros (H1 & H2 & H3 & H4 & _).
  rewrite decide_False by tauto. split; [done|]. split; [intros s; by rewrite !decide_False|by rewrite decide_False].
Qed.

(** Appending one event, with the change of the builders it stands for. *)
Lemma explains_append r r' e :
  explains r -> auditEvents r' = (auditEvents r ++ [e])%list ->
  textBuilder r' = textBuilder r ++ log_text e -> resultBuilder r' = log_result (resultBuilder r) e ->
  AgentUsage.ToolCallCount (usage r') = (AgentUsage.ToolCallCount (usage r) + log_calls e)%Z ->
  explains r'.
Proof.
  intros [Ht Hr Hc] Ha Ht' Hr' Hc'. unfold explained_text, explained_result, explained_calls in *.
  split; rewrite Ha; unfold explained_text, explained_result, explained_calls; rewrite foldl_snoc.
  - by rewrite Ht', Ht.
  - by rewrite Hr', Hr.
  - by rewrite Hc', Hc.
Qed.

Lemma explains_ext r r' :
  explains r -> auditEvents r' = auditEvents r -> textBuilder r' = textBuilder r ->
  resultBuilder r' = resultBuilder r -> AgentUsage.ToolCallCount (usage r') = AgentUsage.ToolCallCount (usage r) ->
  explains r'.
Proof. intros [Ht Hr Hc] Ha Ht' Hr' Hc'. split; rewrite Ha; congruence. Qed.

Lemma explains_set_host s r : explains r -> explains (set_host s r).
Proof. intros H. by apply (explains_ext r). Qed.

Lemma explains_silent e r : silent e -> explains r -> explains (AppendAuditEvent e r).
Proof.
  intros (Ht & Hr & Hc)%silent_log H. apply (explains_append r _ e); cbn; [done|done| | |].
  - by rewrite Ht, append_nil_r.
  - by rewrite Hr.
  - by rewrite Hc, Z.add_0_r.
Qed.

Lemma note_silent ts author ty text :
  ty ∉ ["model_text"; "model_final"; "tool_call"; "validation_followup"] -> silent (AuditEvent.note ts author ty text).
Proof. done. Qed.

Lemma explains_accumulate meta r : explains r -> explains (accumulateUsage meta r).
Proof. intros H. destruct meta as [[p c] t]. by apply (explains_ext r). Qed.

Lemma explains_call ev ts part r : explains r -> explains (process_call ev ts part r).
Proof.
  intros H. unfold process_call. destruct (Part.FunctionCall part) as [[[name id] args]|]; [|done].
  apply explains_set_host. eapply (explains_append r); [done|done|cbn; by rewrite append_nil_r|done|done].
Qed.
Lemma explains_response ev ts part r : explains r -> explains (process_response ev ts part r).
Proof.
  intros H. unfold process_response. destruct (Part.FunctionResponse part) as [[[name id] args]|]; [|done].
  apply explains_silent; [other_type|done].
Qed.
Lemma explains_text_part ev ts eu part r : explains r -> explains (process_text ev ts eu part r).
Proof.
  intros H. unfold process_text, processTextOutput.
  destruct (Event.IsFinalResponse ev); (eapply (explains_append r); [done|done|done|done|cbn; by rewrite Z.add_0_r]).
Qed.

Lemma explains_parts ev ts parts : forall eu r, explains r -> explains (process_parts ev ts eu parts r).
Proof.
  induction parts as [|part parts IH]; intros eu r H; [done|]. cbn [process_parts].
  assert (H' : explains (process_response ev ts part (process_call ev ts part r)))
    by by apply explains_response, explains_call.
  destruct (decide (Part.Text part = "")); apply IH; [done|by apply explains_text_part].
Qed.

Lemma explains_event ev eu r : explains r -> explains (processEventParts ev eu r).
Proof. intros H. unfold processEventParts. destruct (Event.Content ev); [by apply explains_parts|done]. Qed.

Lemma explains_limits turn maxTurns maxTotal warned r :
  explains r -> explains (checkAgentLimits turn maxTurns maxTotal warned r).2.
Proof.
  intros H. unfold checkAgentLimits. cbv zeta. destruct (_ && _); [apply explains_silent; [other_type|done]|].
  destruct (negb warned && _); destruct (maxTurns <=? turn)%Z; cbn [snd];
    repeat (apply explains_silent; [other_type|]); done.
Qed.

Lemma explains_loop fuel maxTurns maxTotal : forall turn warned r res r',
  explains r -> agent_loop fuel maxTurns maxTotal turn warned r = Some (res, r') -> explains r'.
Proof.
  induction fuel as [|fuel IH]; intros turn warned r res r' H; [done|]. cbn [agent_loop].
  destruct (host_next (host r)) as [s item]. pose proof (explains_set_host s r H) as Hs.
  destruct item as [[ev|e]|]; [| |by intros [= <- <-]].
  2: { destruct (errors_Is e SCanceled); by intros [= <- <-]. }
  destruct (Event.UsageMetadata ev) as [meta|]; [|by apply IH, explains_event].
  pose proof (explains_limits (turn + 1) maxTurns maxTotal warned (accumulateUsage meta (set_host s r))
    (explains_accumulate meta _ Hs)) as Hl.
  destruct (checkAgentLimits _ _ _ _ _) as [[exceeded warned'] r1]. cbn [snd] in Hl.
  destruct exceeded; [by intros [= <- <-]|]. by apply IH, explains_event.
Qed.

(** The log only grows. *)
Definition grows r r' : Prop := auditEvents r `prefix_of` auditEvents r'.
#[export] Instance grows_preorder : PreOrder grows.
Proof. unfold grows. split; [by intros r|intros r1 r2 r3; apply PreOrder_Transitive]. Qed.

Lemma grows_append e r : grows r (AppendAuditEvent e r).
Proof. by eexists. Qed.
Lemma grows_accumulate meta r : grows r (accumulateUsage meta r).
Proof. destruct meta as [[p c] t]. exists []. by rewrite app_nil_r. Qed.
Lemma grows_parts ev ts parts : forall eu r, grows r (process_parts ev ts eu parts r).
Proof.
  induction parts as [|part parts IH]; intros eu r; [reflexivity|]. cbn [process_parts].
  transitivity (process_call ev ts part r).
  { unfold process_call. destruct (Part.FunctionCall part) as [[[name id] args]|]; [by eexists|reflexivity]. }
  transitivity (process_response ev ts part (process_call ev ts part r)).
  { unfold process_response at 1. destruct (Part.FunctionResponse part) as [[[name id] args]|];
      [apply grows_append|reflexivity]. }
  destruct (decide (Part.Text part = "")); [apply IH|]. etransitivity; [|apply IH].
  unfold process_text, processTextOutput. destruct (Event.IsFinalResponse ev); by eexists.
Qed.
Lemma grows_event ev eu r : grows r (processEventParts ev eu r).
Proof. unfold processEventParts. destruct (Event.Content ev); [apply grows_parts|reflexivity]. Qed.

(** What the log of a stopped agent ends with. *)
Definition ends_stopped r : Prop :=
  exists log e, auditEvents r = (log ++ [e])%list /\ AuditEvent.Type_ e = "limit_warning".
Lemma limits_stop turn maxTurns maxTotal warned r :
  (checkAgentLimits turn maxTurns maxTotal warned r).1.1 = true ->
  ends_stopped (checkAgentLimits turn maxTurns maxTotal warned r).2.
Proof.
  unfold checkAgentLimits. cbv zeta. destruct (_ && _); [intros _; by eexists _, _|].
  destruct (negb warned && _); destruct (maxTurns <=? turn)%Z; cbn [fst snd]; [intros _; by eexists _, _|done| |done].
  intros _. by eexists _, _.
Qed.
Lemma loop_stops fuel maxTurns maxTotal : forall turn warned r r',
  agent_loop fuel maxTurns maxTotal turn warned r = Some (Ok true, r') -> ends_stopped r'.
Proof.
  induction fuel as [|fuel IH]; intros turn warned r r'; [done|]. cbn [agent_loop].
  destruct (host_next (host r)) as [s item]. destruct item as [[ev|e]|]; [|by destruct (errors_Is e SCanceled)|done].
  destruct (Event.UsageMetadata ev) as [meta|]; [|apply IH].
  pose proof (limits_stop (turn + 1) maxTurns maxTotal warned (accumulateUsage meta (set_host s r))) as Hl.
  destruct (checkAgentLimits _ _ _ _ _) as [[exceeded warned'] r1]. cbn [fst snd] in Hl.
  destruct exceeded; [|apply IH]. intros [= <-]. by apply Hl.
Qed.

(** Of the whole loop: the log accounts for what it has recorded, a failed run
    included, and when a limit stopped it the log ends with its warning. *)
Lemma executeAgentLoop_explains fuel maxTurns maxTotal r res r' :
  explains r -> executeAgentLoop fuel maxTurns maxTotal r = Some (res, r') -> explains r'.
Proof.
  unfold executeAgentLoop. intros H. destruct (agent_loop _ _ _ _ _ _) as [[res1 r1]|] eqn:He; [|done].
  intros [= _ <-]. apply explains_set_host. eapply explains_loop; [|exact He]. by apply explains_set_host.
Qed.
Lemma executeAgentLoop_ends_stopped fuel maxTurns maxTotal r r' :
  executeAgentLoop fuel maxTurns maxTotal r = Some (Ok true, r') -> ends_stopped r'.
Proof.
  unfold executeAgentLoop. destruct (agent_loop _ _ _ _ _ _) as [[res1 r1]|] eqn:He; [|done].
  intros [= -> <-]. exact (loop_stops _ _ _ _ _ _ _ He).
Qed.
End facts.

(** ** The loop ends within its limits

    A runner that answers: between two answers of a model it yields finitely
    many other events. [pending] bounds how many can still come, [most] how
    many can come after an answer; the callbacks do not change it. *)
Class Answering (S : Type) `{!AgentHost S} : Type := {
  pending : S -> nat;
  most : nat;
  pending_next : forall s, match host_next s with
    | (s', Some (inl ev)) =>
        match Event.UsageMetadata ev with None => pending s' < pending s | Some _ => pending s' <= most end
    | _ => True
    end;
  pending_OnUsage : forall u s, pending (OnUsage u s) = pending s;
  pending_OnAuditEvent : forall e s, pending (OnAuditEvent e s) = pending s;
  pending_OnOutput : forall stream data s, pending (OnOutput stream data s) = pending s }.

Section stops.
Context {S : Type} `{!AgentHost S, !Answering S}.
Implicit Types r : running S.

Definition requests r : Z := AgentUsage.LLMRequests (usage r).

(** Handling an event neither asks the model nor changes what is pending. *)
Definition keeps_pace r r' : Prop :=
  pending (host r') = pending (host r) /\ requests r' = requests r /\
  AgentUsage.TotalTokens (usage r') = AgentUsage.TotalTokens (usage r).
#[export] Instance keeps_pace_preorder : PreOrder keeps_pace.
Proof. unfold keeps_pace. split; [done|]. intros r1 r2 r3 (? & ? & ?) (? & ? & ?). split_and!; congruence. Qed.

Lemma pace_append e r : keeps_pace r (AppendAuditEvent e r).
Proof. split; [apply pending_OnAuditEvent|done]. Qed.
Lemma pace_call ev ts part r : keeps_pace r (process_call ev ts part r).
Proof.
  unfold process_call. destruct (Part.FunctionCall part) as [[[name id] args]|]; [|done].
  split; [|done]. cbn. by rewrite pending_OnUsage, pending_OnAuditEvent.
Qed.
Lemma pace_response ev ts part r : keeps_pace r (process_response ev ts part r).
Proof. unfold process_response. destruct (Part.FunctionResponse part) as [[[name id] args]|]; [apply pace_append|done]. Qed.
Lemma pace_text ev ts eu part r : keeps_pace r (process_text ev ts eu part r).
Proof.
  unfold process_text, processTextOutput. destruct (Event.IsFinalResponse ev);
    (split; [cbn; by rewrite pending_OnAuditEvent, pending_OnOutput|done]).
Qed.
Lemma pace_parts ev ts parts : forall eu r, keeps_pace r (process_parts ev ts eu parts r).
Proof.
  induction parts as [|part parts IH]; intros eu r; [done|]. cbn [process_parts].
  etransitivity; [apply (pace_call ev ts part)|]. etransitivity; [apply (pace_response ev ts part)|].
  destruct (decide (Part.Text part = "")); [apply IH|]. etransitivity; [apply pace_text|apply IH].
Qed.
Lemma pace_event ev eu r : keeps_pace r (processEventParts ev eu r).
Proof. unfold processEventParts. destruct (Event.Content ev); [apply pace_parts|done]. Qed.

(** When a limit stops the loop. *)
Definition over_budget (maxTotal : Z) r : Prop :=
  (0 < maxTotal)%Z /\ (maxTotal <= AgentUsage.TotalTokens (usage r))%Z.
Definition over_limit (turn maxTurns maxTotal : Z) r : Prop := (maxTurns <= turn)%Z \/ over_budget maxTotal r.

Lemma limits_exact turn maxTurns maxTotal warned r :
  let '(exceeded, _, r') := checkAgentLimits turn maxTurns maxTotal warned r in
  keeps_pace r r' /\ (exceeded = true <-> over_limit turn maxTurns maxTotal r).
Proof.
  unfold checkAgentLimits, over_limit, over_budget. cbv zeta.
  destruct (Z.ltb_spec 0 maxTotal), (Z.leb_spec maxTotal (AgentUsage.TotalTokens (usage r))); cbn [andb].
  1: { split; [apply pace_append|]. split; [by right|done]. }
  all: match goal with |- context [let '(_, _) := ?w in _] =>
         assert (Hw : keeps_pace r w.2) by (destruct (negb warned && _); [apply pace_append|reflexivity]);
         destruct w as [warned' r1]; cbn [snd] in Hw end.
  all: destruct (Z.leb_spec maxTurns turn);
    (split; [try (etransitivity; [exact Hw|apply pace_append]); exact Hw|]).
  all: split; [done || by left|]; intros [?|[? ?]]; done || lia.
Qed.

Definition turns_left (maxTurns turn : Z) : nat := Z.to_nat (maxTurns - turn).

Lemma agent_loop_ends maxTurns maxTotal : forall fuel turn warned r,
  (turn < maxTurns)%Z ->
  turns_left maxTurns turn * (most + 1) + pending (host r) < fuel ->
  exists res r', agent_loop fuel maxTurns maxTotal turn warned r = Some (res, r') /\
    let turn' := (turn + (requests r' - requests r))%Z in
    (turn <= turn' <= maxTurns)%Z /\
    (res = Ok true -> (requests r < requests r')%Z /\ over_limit turn' maxTurns maxTotal r') /\
    (res <> Ok true -> (turn' < maxTurns)%Z /\
       (requests r' = requests r -> AgentUsage.TotalTokens (usage r') = AgentUsage.TotalTokens (usage r)) /\
       ((requests r < requests r')%Z -> ~ over_budget maxTotal r')).
Proof.
  induction fuel as [|fuel IH]; intros turn warned r Hturn Hfuel; [lia|]. cbn [agent_loop].
  pose proof (pending_next (host r)) as Hnext. destruct (host_next (host r)) as [s item].
  destruct item as [[ev|e]|].
  - revert Hnext. destruct (Event.UsageMetadata ev) as [meta|]; intros Hnext.
    + set (r1 := accumulateUsage meta (set_host s r)).
      assert (Hr1 : pending (host r1) = pending s /\ requests r1 = (requests r + 1)%Z).
      { unfold r1. destruct meta as [[p c] t]. cbn. by rewrite pending_OnUsage. }
      pose proof (limits_exact (turn + 1) maxTurns maxTotal warned r1) as Hl.
      destruct (checkAgentLimits (turn + 1) maxTurns maxTotal warned r1) as [[exceeded warned'] r2].
      destruct Hl as [(Hp2 & Hq2 & Ht2) Hex]. destruct Hr1 as [Hp1 Hq1]. destruct exceeded.
      * eexists _, _. split; [done|]. cbv zeta. replace (turn + (requests r2 - requests r))%Z with (turn + 1)%Z by lia.
        split; [lia|]. split; [|done]. intros _. unfold over_limit, over_budget in *. rewrite Ht2.
        split; [lia|by apply Hex].
      * assert (Hunder : (turn + 1 < maxTurns)%Z).
        { destruct (Z.lt_ge_cases (turn + 1) maxTurns); [done|]. assert (false = true); [|done]. apply Hex. by left. }
        set (r3 := processEventParts ev (Some (audit_usage meta)) r2).
        assert (Hbudget : ~ over_budget maxTotal r1).
        { intros Hb. assert (false = true); [|done]. apply Hex. by right. }
        destruct (pace_event ev (Some (audit_usage meta)) r2) as (Hp3 & Hq3 & Ht3). fold r3 in Hp3, Hq3, Ht3.
        destruct (IH (turn + 1)%Z (warned || warned') r3 Hunder) as (res & r' & Hrun & Hb & Hyes & Hno).
        { unfold turns_left in *. rewrite Hp3, Hp2, Hp1.
          replace (Z.to_nat (maxTurns - turn)) with (1 + Z.to_nat (maxTurns - (turn + 1))) in Hfuel by lia. nia. }
        exists res, r'. split; [done|]. cbv zeta in *.
        replace (turn + (requests r' - requests r))%Z with (turn + 1 + (requests r' - requests r3))%Z by lia.
        split; [lia|]. split; [intros Hr; destruct (Hyes Hr); split; [lia|done]|].
        intros Hr. destruct (Hno Hr) as (Hlt & Hsame & Hover). split; [done|]. split; [lia|]. intros _.
        destruct (decide (requests r' = requests r3)) as [He|Hne]; [|apply Hover; lia].
        unfold over_budget in *. by rewrite (Hsame He), Ht3, Ht2.
    + set (r1 := processEventParts ev None (set_host s r)).
      destruct (pace_event ev None (set_host s r)) as (Hp1 & Hq1 & Ht1). fold r1 in Hp1, Hq1, Ht1.
      change (host (set_host s r)) with s in Hp1.
      change (requests (set_host s r)) with (requests r) in Hq1.
      destruct (IH turn warned r1 Hturn) as (res & r' & Hrun & Hb & Hyes & Hno).
      { rewrite Hp1. lia. }
      exists res, r'. split; [done|]. cbv zeta in *. rewrite <- Hq1. split; [lia|]. split; [done|].
      intros Hr. destruct (Hno Hr) as (Hlt & Hsame & Hover). split; [done|]. split; [|done].
      intros He. rewrite (Hsame He). exact Ht1.
  - destruct (errors_Is e SCanceled); (eexists _, _; split; [done|]); cbv zeta; change (requests (set_host s r)) with (requests r); (split; [lia|split; [done|intros _; split; [lia|split; [done|lia]]]]).
  - eexists _, _. split; [done|]. cbv zeta. change (requests (set_host s r)) with (requests r).
    split; [lia|split; [done|intros _; split; [lia|split; [done|lia]]]].
Qed.

(** Fuel for the whole loop. *)
Definition loop_fuel (maxTurns : Z) r : nat := 
  Datatypes.S (Z.to_nat maxTurns * (most + 1) + pending (host_run None (host r))).

(** C29: the loop of an agent ends within its limits. Whatever the model
    answers, with a runner that yields finitely many events between two
    answers the loop stops, after at most as many answers as the limit on turns
    allows (fifty when none is configured). It reports an exceeded limit exactly
    when the last answer was the last turn or used up the tokens of the budget,
    if there is one; the log then ends with the warning that says so. *)
Theorem executeAgentLoop_stops limits (r : running S) :
  let '(maxTurns, maxTotal) := EffectiveLimits limits in
  forall fuel, loop_fuel maxTurns r <= fuel ->
  exists res r', executeAgentLoop fuel maxTurns maxTotal r = Some (res, r') /\
    let turns := (requests r' - requests r)%Z in
    (0 <= turns <= maxTurns)%Z /\
    (res = Ok true <-> turns = maxTurns \/
       (0 < turns)%Z /\ (0 < maxTotal)%Z /\ (maxTotal <= AgentUsage.TotalTokens (usage r'))%Z) /\
    (res = Ok true -> ends_stopped r').
Proof.
  destruct (EffectiveLimits limits) as [maxTurns maxTotal] eqn:He. intros fuel Hfuel.
  assert (Hpos : (0 < maxTurns)%Z).
  { unfold EffectiveLimits in He. destruct limits as [cfg|]; [|by injection He as <- _].
    destruct (Z.leb_spec (AgentLimitsConfig.MaxTurns cfg) 0); injection He as <- _; [done|lia]. }
  destruct (agent_loop_ends maxTurns maxTotal fuel 0 false (set_host (host_run None (host r)) r) Hpos)
    as (res & r' & Hrun & Hb & Hyes & Hno).
  { unfold loop_fuel, turns_left in *. rewrite Z.sub_0_r. cbn [host set_host]. lia. }
  unfold executeAgentLoop. rewrite Hrun. exists res, (set_host (host_cancel (host r')) r').
  split; [reflexivity|]. cbv zeta in *.
  change (requests (set_host _ r')) with (requests r').
  change (requests (set_host _ r)) with (requests r) in *. rewrite Z.add_0_l in *. split; [done|].
  split; [|intros ->; exact (loop_stops _ _ _ _ _ _ _ Hrun)].
  split.
  - intros Hr. destruct (Hyes Hr) as (Hlt & [?|?]); [left; lia|right]. split; [lia|done].
  - intros Hover. assert (Hr : res = Ok true \/ res <> Ok true) by (destruct res as [[]|]; [by left|by right..]).
    destruct Hr as [?|Hr]; [done|exfalso]. destruct (Hno Hr) as (Hlt & _ & Hbudget). destruct Hover as [?|(? & ?)]; [lia|].
    apply Hbudget; [lia|done].
Qed.
End stops.

(** ** Witnesses

    A runner that answers from a list: each turn is an answer of the model,
    perhaps the response of a tool after it, and when the list is over the run
    ends or fails. A new message is answered from a second list. The state keeps what the callbacks were told. *)
Module ExTurn.
Record t := mk { tokens : Z; final : bool; parts : list Part.t; response : option Part.t }.
End ExTurn.
Module ExHost.
Record t := mk { turns : list ExTurn.t; queued : option Part.t; ending : option err;
                 seen : list AuditEvent.t; said : string; more : list ExTurn.t }.
Definition go (turns : list ExTurn.t) (queued : option Part.t) (s : t) : t :=
  mk turns queued (ending s) (seen s) (said s) (more s).
End ExHost.
Definition ex_event (usage : option (Z * Z * Z)) (final : bool) (parts : list Part.t) : Event.t :=
  Event.mk "inv" "coder" None final usage (Some parts).

#[export] Instance ex_host : AgentHost ExHost.t := {|
  host_run := fun msg s => match msg with None => s | Some _ => ExHost.go (ExHost.more s) None s end;
  host_next := fun s =>
    match ExHost.queued s, ExHost.turns s with
    | Some part, turns => (ExHost.go turns None s, Some (inl (ex_event None false [part])))
    | None, turn :: turns =>
        (ExHost.go turns (ExTurn.response turn) s,
         Some (inl (ex_event (Some (ExTurn.tokens turn, 0%Z, ExTurn.tokens turn)) (ExTurn.final turn)
                      (ExTurn.parts turn))))
    | None, [] => (s, inr <$> ExHost.ending s)
    end;
  host_cancel := id;
  host_now := fun _ => "2024-05-01T09:00:00Z";
  OnUsage := fun _ s => s;
  OnAuditEvent := fun e s => ExHost.mk (ExHost.turns s) (ExHost.queued s) (ExHost.ending s)
    (ExHost.seen s ++ [e]) (ExHost.said s) (ExHost.more s);
  OnOutput := fun _ data s => ExHost.mk (ExHost.turns s) (ExHost.queued s) (ExHost.ending s)
    (ExHost.seen s) (ExHost.said s ++ data) (ExHost.more s) |}.

#[export] Instance ex_answering : Answering ExHost.t.
Proof.
  refine {| pending := fun s => match ExHost.queued s with Some _ => 1 | None => 0 end; most := 1 |}; try done.
  intros [turns queued ending seen said more]. cbn. destruct queued; [cbn; lia|].
  destruct turns as [|turn turns]; [by destruct ending|]. cbn. destruct (ExTurn.response turn); lia.
Defined.

Definition ex_says (text : string) : Part.t := Part.mk None None text.
Definition ex_calls : ExTurn.t :=
  ExTurn.mk 7 false [Part.mk (Some ("grep", "call-1", JObj [("pattern", JStr "TODO")])) None ""]
    (Some (Part.mk None (Some ("grep", "call-1", JObj [("count", JNum 0)])) "")).
Definition ex_answers (text : string) : ExTurn.t := ExTurn.mk 5 true [ex_says text] None.
Definition ex_start (turns : list ExTurn.t) (ending : option err) : running ExHost.t :=
  mkRunning "" "" AgentUsage.zero [] (ExHost.mk turns None ending [] "" []).

(** A model that calls tools for ever is stopped after its three turns. *)
Lemma executeAgentLoop_stops_witness :
  exists res r', executeAgentLoop 7 3 0 (ex_start (repeat ex_calls 10) None) = Some (res, r') /\
    requests r' = 3%Z /\ res = Ok true.
Proof.
  pose proof (executeAgentLoop_stops (Some (AgentLimitsConfig.mk 3 0)) (ex_start (repeat ex_calls 10) None)) as Hall.
  change (EffectiveLimits _) with (3%Z, 0%Z) in Hall. cbv beta iota in Hall.
  assert (Hfuel : loop_fuel 3 (ex_start (repeat ex_calls 10) None) <= 7) by (apply Nat.leb_le; vm_compute; reflexivity).
  destruct (Hall 7 Hfuel) as (res & r' & He & Hb & Hyes & _).
  exists res, r'. split; [exact He|].
  assert (Hres : res = Ok true).
  { assert (Hc : fst <$> executeAgentLoop 7 3 0 (ex_start (repeat ex_calls 10) None) = Some (Ok true))
      by (vm_compute; reflexivity).
    rewrite He in Hc. by injection Hc. }
  destruct (proj1 Hyes Hres) as [Ht|(? & ? & ?)]; [|lia]. split; [|done]. cbn in Ht. unfold requests in *. lia.
Defined.

(** ** What the loop does where it should not *)
Definition ex_outcome (maxTurns : Z) (turns : list ExTurn.t) (ending : option err) : option (result bool * string) :=
  prod_map id resultBuilder <$> executeAgentLoop 20 maxTurns 0 (ex_start turns ending).

(** The answer of the last turn is counted against the limit before it is
    read: an agent that answers in its last turn, and any agent with one turn,
    has exceeded the limit and has no text. *)
Lemma last_answer_is_lost :
  ex_outcome 1 [ex_answers "done"] None = Some (Ok true, "") /\
  ex_outcome 2 [ex_calls; ex_answers "done"] None = Some (Ok true, "") /\
  ex_outcome 3 [ex_calls; ex_answers "done"] None = Some (Ok false, "done").
Proof. split_and!; vm_compute; reflexivity. Qed.

(** A run that was cancelled ends like one that succeeded. *)
Lemma cancelled_run_succeeds :
  ex_outcome 3 [ex_calls] (Some (EWrap "generate" (ESentinel SCanceled))) = Some (Ok false, "").
Proof. vm_compute. reflexivity. Qed.

(** The token count is 32 bits wide: it can wrap below the budget. *)
Lemma token_budget_wraps :
  (fst <$> executeAgentLoop 20 9 2147483647 (ex_start [ExTurn.mk 2000000000 false [] None;
     ExTurn.mk 2000000000 false [] None; ex_answers "done"] None)) = Some (Ok false).
Proof. vm_compute. reflexivity. Qed.
