(* ===== verification/Containers.v ===== *)
(** * Containers and their logs (orchestra/orchestrator.go, orchestra/task.go,
    and the helpers of runtime/runner/pipeline.go)

    The interface of a container driver, implemented outside this repository's
    core by docker, kubernetes, fly and others: a class of operations on the
    outside world [W]. Polling is a loop over [Status]; the log helpers collect
    the output of one container, chunk by chunk. *)
From S2P Require Import Prelude Storage Json GoStrings Config.
Open Scope string_scope.

(** ** orchestra *)
Module ContainerMount.
Record t := mk { Name : string; Path : string; SizeGB : Z }.
End ContainerMount.

Module ContainerTask.
Record t := mk {
    Command : list string; Limits : ContainerLimits.t; Env : gmap string string; ID : string;
    Image : string; Mounts : list ContainerMount.t; Privileged : bool; Stdin : option string;
    User : string; WorkDir : string }.
End ContainerTask.

Module Volume.
Record t := mk { Name : string; Path : string }.
End Volume.

(** What happens while a container runs: a chunk of one of its two streams, or
    a tick of the timer that publishes the logs so far. *)
Inductive stream_event : Type :=
  | Chunk (stream data : string)
  | Tick2s.

(** A context is the timeout it carries, if any. The operations answer
    [context.DeadlineExceeded] or [context.Canceled] when it ends. [Status]
    answers the exit code once the container is done. [Stream] is what happens
    until the poll of the container has its answer, and what still happens until
    the goroutines that stream and tick have stopped. *)
Class ContainerDriver (W : Type) : Type := {
  cd_RunContainer : option Z -> ContainerTask.t -> W -> W * result string;
  cd_GetContainer : string -> W -> W * result string;
  cd_Status : option Z -> string -> W -> W * result (option Z);
  cd_Stream : option Z -> string -> W -> W * (list stream_event * list stream_event);
  cd_Logs : option Z -> string -> W -> W * (string * string * result unit);
  cd_Cleanup : string -> W -> W * result unit;
  cd_CreateVolume : string -> Z -> W -> W * result Volume.t;
  cd_CleanupVolume : Volume.t -> W -> W * result unit;
  cd_Exec : option Z -> string -> list string -> gmap string string -> string -> option string ->
    W -> W * (string * string * result Z) }.

(** [ctx.Err()] of the context of the whole run: a run is stopped while the
    outside world is used. *)
Class Cancellation (W : Type) : Type := ctx_Err : W -> option err.

(** [container.Logs] into two fresh buffers, which are not used when it fails. *)
Definition read_Logs {W} `{!ContainerDriver W} (ctx : option Z) (id : string) (w : W)
    : W * result (string * string) :=
  let '(w, (stdout, stderr, r)) := cd_Logs ctx id w in
  (w, match r with Ok _ => Ok (stdout, stderr) | Err e => Err e end).

(** [errors.Is(err, DeadlineExceeded) || errors.Is(err, Canceled)] *)
Definition is_abort (e : err) : bool :=
  errors_Is e SDeadlineExceeded || errors_Is e SCanceled.

Section polling.
Context {W : Type} `{!ContainerDriver W}.

(** [for { status, err := container.Status(ctx); ... }]: the first answer that
    is an error or an exit code. [None]: not within [fuel] polls. *)
Fixpoint poll_status (fuel : nat) (ctx : option Z) (id : string) (w : W)
    : W * option (result Z) :=
  match fuel with
  | O => (w, None)
  | S fuel =>
      match cd_Status ctx id w with
      | (w, Err e) => (w, Some (Err e))
      | (w, Ok (Some code)) => (w, Some (Ok code))
      | (w, Ok None) => poll_status fuel ctx id w
      end
  end.
End polling.

(** Containers end or fail: [cd_polls] bounds the polls of a container. *)
Class EndingContainers (W : Type) `{!ContainerDriver W} : Type := {
  cd_polls : option Z -> string -> W -> nat;
  cd_ends : forall ctx id w, is_Some (poll_status (cd_polls ctx id w) ctx id w).2 }.

(** The whole loop. *)
Definition waitForContainer {W} `{!ContainerDriver W, !EndingContainers W} (ctx : option Z)
    (id : string) (w : W) : W * result Z :=
  match poll_status (cd_polls ctx id w) ctx id w with
  | (w, Some r) => (w, r)
  | (w, None) => (w, Err (ESentinel SDeadlineExceeded))    (* excluded by [cd_ends] *)
  end.

(** The loop stops with the first definite answer, reached after answers
    "still running" only. *)
Inductive polled {W} `{!ContainerDriver W} (ctx : option Z) (id : string) : W -> W -> result Z -> Prop :=
  | polled_err w w' e : cd_Status ctx id w = (w', Err e) -> polled ctx id w w' (Err e)
  | polled_done w w' code : cd_Status ctx id w = (w', Ok (Some code)) -> polled ctx id w w' (Ok code)
  | polled_again w w' w'' r :
      cd_Status ctx id w = (w', Ok None) -> polled ctx id w' w'' r -> polled ctx id w w'' r.

Lemma poll_status_polled {W} `{!ContainerDriver W} fuel ctx id : forall w w' r,
  poll_status fuel ctx id w = (w', Some r) -> polled ctx id w w' r.
Proof.
  induction fuel as [|fuel IH]; intros w w' r; [done|]. cbn [poll_status].
  destruct (cd_Status ctx id w) as [w1 [[code|]|e]] eqn:E; intros Hp; simplify_eq.
  - by apply polled_done.
  - eapply polled_again; [done|by apply IH].
  - by apply polled_err.
Qed.

Lemma waitForContainer_polled {W} `{!ContainerDriver W, !EndingContainers W} ctx id w :
  polled ctx id w (waitForContainer ctx id w).1 (waitForContainer ctx id w).2.
Proof.
  unfold waitForContainer. pose proof (cd_ends ctx id w) as [r Hr].
  destruct (poll_status _ ctx id w) as [w' o] eqn:E. simpl in *. subst o.
  by eapply poll_status_polled.
Qed.

(** ** Log entries *)
Module TaskLogEntry.
Record t := mk { Type_ : string; Content : string }.
End TaskLogEntry.

(** The entry slice is kept newest first. *)
Definition append_entry (rlogs : list TaskLogEntry.t) (stream data : string)
    : list TaskLogEntry.t :=
  match rlogs with
  | e :: rlogs' =>
      if decide (TaskLogEntry.Type_ e = stream)
      then TaskLogEntry.mk stream (TaskLogEntry.Content e ++ data) :: rlogs'
      else TaskLogEntry.mk stream data :: rlogs
  | [] => [TaskLogEntry.mk stream data]
  end.
Definition AppendLogEntry (logs : list TaskLogEntry.t) (stream data : string)
    : list TaskLogEntry.t :=
  if decide (data = "") then logs else reverse (append_entry (reverse logs) stream data).

Fixpoint joinTaskLogs (logs : list TaskLogEntry.t) (stream : string) : string :=
  match logs with
  | [] => ""
  | e :: logs =>
      (if decide (TaskLogEntry.Type_ e = stream) then TaskLogEntry.Content e else "")
      ++ joinTaskLogs logs stream
  end.

Definition preferCompleteOutput (streamed final : string) : string :=
  if (String.length streamed <? String.length final)%nat then final else streamed.

(** What is missing from the streamed output: the rest of the final one, all
    of it when the streamed one is not its beginning. *)
Definition missing_output (streamed final : string) : option string :=
  if (String.length final <=? String.length streamed)%nat then None
  else if HasPrefix final streamed then Some (drop_string (String.length streamed) final)
  else Some final.
Definition emitMissingOutput (streamed final stream : string) (logs : list TaskLogEntry.t)
    : list TaskLogEntry.t :=
  match missing_output streamed final with
  | Some data => AppendLogEntry logs stream data
  | None => logs
  end.

Definition buildTaskLogs (stdout stderr : string) : list TaskLogEntry.t :=
  (if decide (stdout = "") then [] else [TaskLogEntry.mk "stdout" stdout])
  ++ (if decide (stderr = "") then [] else [TaskLogEntry.mk "stderr" stderr]).

Definition reconcileTaskLogs (logs : list TaskLogEntry.t) (stdout stderr : string)
    : list TaskLogEntry.t :=
  if decide (logs = []) then buildTaskLogs stdout stderr
  else if (String.length (joinTaskLogs logs "stdout") <? String.length stdout)%nat
       || (String.length (joinTaskLogs logs "stderr") <? String.length stderr)%nat
  then buildTaskLogs stdout stderr
  else logs.

Definition entry_json (e : TaskLogEntry.t) : json :=
  JObj [("type", JStr (TaskLogEntry.Type_ e)); ("content", JStr (TaskLogEntry.Content e))].
Definition logs_json (logs : list TaskLogEntry.t) : json := JArr (entry_json <$> logs).

(** [d.Round(time.Second)], then hours, minutes and seconds. *)
Definition round_second (d : Z) : Z :=
  let r := Z.rem d nanosPerSecond in
  if (d <? 0)%Z then
    if (- r + - r <? nanosPerSecond)%Z then (d - r)%Z else (d - r - nanosPerSecond)%Z
  else if (r + r <? nanosPerSecond)%Z then (d - r)%Z else (d - r + nanosPerSecond)%Z.
Definition formatElapsed (d : Z) : string :=
  let seconds := Z.quot (round_second d) nanosPerSecond in
  let h := Z.quot seconds 3600 in
  let m := Z.rem (Z.quot seconds 60) 60 in
  let s := Z.rem seconds 60 in
  if (0 <? h)%Z then Itoa h ++ "h " ++ Itoa m ++ "m " ++ Itoa s ++ "s"
  else if (0 <? m)%Z then Itoa m ++ "m " ++ Itoa s ++ "s"
  else Itoa s ++ "s".

(** ** Facts about logs *)
Lemma joinTaskLogs_app l1 l2 stream :
  joinTaskLogs (l1 ++ l2) stream = joinTaskLogs l1 stream ++ joinTaskLogs l2 stream.
Proof. induction l1 as [|e l1 IH]; [done|]. simpl. by rewrite IH, append_assoc. Qed.

Lemma append_string_nil s t : s ++ t = "" -> s = "" /\ t = "".
Proof. by destruct s. Qed.

Lemma AppendLogEntry_cases logs stream data :
  data <> "" ->
  (exists l e, logs = (l ++ [e])%list /\ TaskLogEntry.Type_ e = stream /\
     AppendLogEntry logs stream data
     = (l ++ [TaskLogEntry.mk stream (TaskLogEntry.Content e ++ data)])%list) \/
  (AppendLogEntry logs stream data = (logs ++ [TaskLogEntry.mk stream data])%list /\
   forall e, last logs = Some e -> TaskLogEntry.Type_ e <> stream).
Proof.
  intros Hd. unfold AppendLogEntry. rewrite decide_False by done.
  destruct logs as [|e l _] using rev_ind; [by right|].
  rewrite reverse_snoc. simpl. case_decide as Ht.
  - left. exists l, e. by rewrite reverse_cons, reverse_involutive.
  - right. rewrite !reverse_cons, reverse_involutive. split; [done|].
    intros e'. rewrite last_snoc. by intros [= <-].
Qed.

(** Appending a chunk appends it to its stream and leaves the other alone. *)
Lemma joinTaskLogs_append logs stream data s :
  joinTaskLogs (AppendLogEntry logs stream data) s =
  joinTaskLogs logs s ++ (if decide (stream = s) then data else "").
Proof.
  destruct (decide (data = "")) as [->|Hd].
  { unfold AppendLogEntry. rewrite decide_True by done. case_decide; by rewrite append_nil_r. }
  destruct (AppendLogEntry_cases logs stream data Hd) as [(l & e & -> & Ht & ->)|[-> _]];
    rewrite !joinTaskLogs_app; simpl; rewrite ?Ht; case_decide; by rewrite ?append_nil_r, ?append_assoc.
Qed.

(** No empty entry, and no two neighbours of one stream. *)
Definition condensed (logs : list TaskLogEntry.t) : Prop :=
  (forall e, e ∈ logs -> TaskLogEntry.Content e <> "") /\
  forall i e e', logs !! i = Some e -> logs !! S i = Some e' ->
    TaskLogEntry.Type_ e <> TaskLogEntry.Type_ e'.

Lemma condensed_snoc l e :
  condensed l -> TaskLogEntry.Content e <> "" ->
  (forall e', last l = Some e' -> TaskLogEntry.Type_ e' <> TaskLogEntry.Type_ e) ->
  condensed (l ++ [e]).
Proof.
  intros [Hne Hadj] He Hlast. split.
  - intros x [Hx| ->%list_elem_of_singleton]%elem_of_app; [by apply Hne|done].
  - intros i x x' Hx Hx'. apply lookup_app_Some in Hx' as [Hx'|[Hge Hx']].
    + apply (Hadj i); [|done]. rewrite lookup_app_l in Hx; [done|].
      apply lookup_lt_Some in Hx'. lia.
    + apply list_lookup_singleton_Some in Hx' as [Hi <-].
      rewrite lookup_app_l in Hx by lia. apply Hlast. rewrite last_lookup.
      replace (pred (length l)) with i by lia. done.
Qed.

Lemma condensed_prefix l1 l2 : condensed (l1 ++ l2) -> condensed l1.
Proof.
  intros [Hne Hadj]. split; [set_solver|].
  intros i e e' Hi Hi'. apply (Hadj i); by apply lookup_app_l_Some.
Qed.

Lemma AppendLogEntry_condensed logs stream data :
  condensed logs -> condensed (AppendLogEntry logs stream data).
Proof.
  intros Hc. destruct (decide (data = "")) as [->|Hd].
  { unfold AppendLogEntry. by rewrite decide_True. }
  destruct (AppendLogEntry_cases logs stream data Hd) as [(l & e & -> & Ht & ->)|[-> Hlast]].
  - apply condensed_snoc; simpl.
    + by eapply condensed_prefix.
    + intros He%append_string_nil. by destruct He.
    + intros e' He'. destruct Hc as [_ Hadj]. rewrite last_lookup in He'. rewrite <- Ht.
      apply lookup_lt_Some in He' as Hlt.
      apply (Hadj (pred (length l))); [by rewrite lookup_app_l|].
      rewrite lookup_app_r by lia. by replace (S (pred (length l)) - length l) with 0 by lia.
  - by apply condensed_snoc.
Qed.
