(* ===== verification/TaskRunner.v ===== *)
(** * Running one container task (runtime/runner/pipeline.go, sandbox.go)

    [PipelineRunner.Run]: resolve the secrets of the environment, start the
    container, follow its output, wait for it, redact what it printed and
    record the outcome in the task's row. The methods are functions on the
    runner's state; [Run] is [startRun], up to the start of the container,
    followed by [finishRun], so that two runs of one runner can be interleaved
    between the two. OnOutput callbacks only forward chunks and are left out. *)
From S2P Require Import Prelude Storage Json Db GoStrings Tasks Config Secrets.
From S2P Require Import Ids Redaction Containers.
Open Scope string_scope.

Module RunInput.
Record t := mk {
    Path : string; Args : list string; User : string; Limits : ContainerLimits.t;
    Env : gmap string string; Image : string; Mounts : gmap string Volume.t; Name : string;
    Privileged : bool; Stdin : string; WorkDir : string; Timeout : string; StorageKey : string }.
Definition with_env (env : gmap string string) (i : t) : t :=
  mk (Path i) (Args i) (User i) (Limits i) env (Image i) (Mounts i) (Name i) (Privileged i)
    (Stdin i) (WorkDir i) (Timeout i) (StorageKey i).
End RunInput.

Inductive RunStatus_ : Type := RunAbort | RunComplete.
#[export] Instance RunStatus__eq_dec : EqDecision RunStatus_.
Proof. solve_decision. Defined.

Module RunResult.
Record t := mk { Code : Z; Stderr : string; Stdout : string; Status : RunStatus_ }.
(** [&RunResult{Status: RunAbort}] *)
Definition aborted : t := mk 0 "" "" RunAbort.
End RunResult.

(** [t.UTC().Format(time.RFC3339)] *)
Class Stamp : Type := stamp : time -> string.

(** [err.Error()]: the text of a sentinel is a parameter, [%w] appends it. *)
Class SentinelText : Type := sentinel_text : sentinel -> string.
Fixpoint Error `{!SentinelText} (e : err) : string :=
  match e with
  | ESentinel s => sentinel_text s
  | EMsg msg => msg
  | EWrap msg e => msg ++ ": " ++ Error e
  end.

(** The fields set once, before the first task. *)
Module PipelineRunner.
Record t := mk {
    namespace : string; runID : string; pipelineID : string; secretsManager : option Manager;
    has_storage : bool; preseededVolumes : gmap string Volume.t;
    agentFunc : option (json -> result json) }.
End PipelineRunner.

Record runner_state {W : Type} : Type := mkRunner {
  tr_db : db;
  tr_secretValues : list string;
  tr_callIndex : Z;
  tr_volumes : list Volume.t;
  tr_world : W }.
Arguments runner_state : clear implicits.

Section task_runner.
Context `{!Namespace, !OrderBy, !JsonText, !MapOrder, !Clockwork, !Sha256, !Stamp, !SentinelText}.
Context {W : Type} `{!ContainerDriver W, !EndingContainers W, !Cancellation W}.
Context (c : PipelineRunner.t).

Notation RS := (runner_state W).
Definition set_tr_db d (s : RS) : RS :=
  mkRunner W d (tr_secretValues s) (tr_callIndex s) (tr_volumes s) (tr_world s).
Definition set_secretValues l (s : RS) : RS :=
  mkRunner W (tr_db s) l (tr_callIndex s) (tr_volumes s) (tr_world s).
Definition set_volumes l (s : RS) : RS :=
  mkRunner W (tr_db s) (tr_secretValues s) (tr_callIndex s) l (tr_world s).
Definition set_tr_world w (s : RS) : RS :=
  mkRunner W (tr_db s) (tr_secretValues s) (tr_callIndex s) (tr_volumes s) w.

#[export] Instance runner_has_db : HasDb RS.
Proof. refine {| get_db := tr_db; put_db := set_tr_db |}; try done. by intros []. Defined.

(** A call of the driver. *)
Definition driver {A} (f : W -> W * result A) : ST RS A := fun s =>
  let '(w, r) := f (tr_world s) in (r, set_tr_world w s).
Definition observe {A} (f : W -> W * A) : ST RS A := fun s =>
  let '(w, a) := f (tr_world s) in (Ok a, set_tr_world w s).
Definition now : ST RS time := gets (fun s => db_now (tr_db s)).

(** ** Secrets *)
Fixpoint load_keys (get : Manager) (keys : list string) (result : gmap string string)
    : Prelude.result (gmap string string) :=
  match keys with
  | [] => Ok result
  | key :: keys =>
      let scope := PipelineScope (PipelineRunner.pipelineID c) in
      match get scope key with
      | Ok val => load_keys get keys (<[key := val]> result)
      | Err e =>
          if negb (errors_Is e SSecretNotFound) then
            Err (EWrap ("could not retrieve secret " ++ q key ++ " from scope " ++ q scope) e)
          else
            match get GlobalScope key with
            | Ok val => load_keys get keys (<[key := val]> result)
            | Err e =>
                if negb (errors_Is e SSecretNotFound) then
                  Err (EWrap ("could not retrieve secret " ++ q key ++ " from scope "
                              ++ q GlobalScope) e)
                else Err (EWrap ("secret " ++ q key ++ " not found in scopes " ++ q scope
                                 ++ " or " ++ q GlobalScope) (ESentinel SSecretNotFound))
            end
      end
  end.
Definition loadSecrets (requestedKeys : list string) : result (gmap string string) :=
  match PipelineRunner.secretsManager c with
  | None => Ok ∅
  | Some get => load_keys get requestedKeys ∅
  end.

(** [secret:KEY] *)
Definition secret_key (value : string) : option string :=
  if HasPrefix value SecretPrefix then Some (TrimPrefix value SecretPrefix) else None.
Definition secret_keys (env : gmap string string) : list string :=
  omap (fun '(_, value) => secret_key value) (map_range env).

(** One entry of the environment: its secret, if it names one that was loaded. *)
Definition resolved_secret (secretMap : gmap string string) (value : string) : option string :=
  secret_key value ≫= fun key => secretMap !! key.
Definition resolve_env (secretMap env : gmap string string) : gmap string string :=
  (fun value => default value (resolved_secret secretMap value)) <$> env.
Definition resolved_values (secretMap env : gmap string string) : list string :=
  omap (fun '(_, value) => resolved_secret secretMap value) (map_range env).

(** ** The task's row *)
Definition taskStorageKey (stepID : string) : string :=
  if decide (PipelineRunner.runID c = "") then ""
  else "/pipeline/" ++ PipelineRunner.runID c ++ "/tasks/" ++ stepID.

(** Errors of the store are only logged. The write is made with the context of
    the run: once that is cancelled, no statement is carried out. *)
Definition setTaskStatus (key : string) (payload : list (string * json)) : ST RS unit :=
  if bool_decide (key = "") || negb (PipelineRunner.has_storage c) then ret tt
  else
    let! cancelled := gets (fun s => ctx_Err (tr_world s)) in
    match cancelled with
    | Some _ => ret tt
    | None => ignore (on_db (Set_ key (JObj payload)))
    end.

Definition injectSecrets (input : RunInput.t) (storageKey : string) : ST RS RunInput.t :=
  let env := RunInput.Env input in
  match PipelineRunner.secretsManager c with
  | None => ret input
  | Some _ =>
      let secretKeys := secret_keys env in
      if decide (secretKeys = []) then ret input
      else
        match loadSecrets secretKeys with
        | Err e =>
            setTaskStatus storageKey
              [("status", JStr "error");
               ("logs", logs_json [TaskLogEntry.mk "stderr" (Error e)])] ;;;
            fail (EWrap ("failed to load secrets for task " ++ q (RunInput.Name input)) e)
        | Ok secretMap =>
            modify (fun s => set_secretValues
              (tr_secretValues s ++ resolved_values secretMap env) s) ;;;
            ret (RunInput.with_env (resolve_env secretMap env) input)
        end
  end.

(** ** The container *)
Definition container_task (taskID : string) (input : RunInput.t) : ContainerTask.t :=
  ContainerTask.mk (RunInput.Path input :: RunInput.Args input) (RunInput.Limits input)
    (RunInput.Env input) (RunInput.Name input ++ "-" ++ taskID) (RunInput.Image input)
    ((fun '(path, volume) => ContainerMount.mk (Volume.Name volume) path 0)
       <$> map_range (RunInput.Mounts input))
    (RunInput.Privileged input)
    (if decide (RunInput.Stdin input = "") then None else Some (RunInput.Stdin input))
    (RunInput.User input) (RunInput.WorkDir input).

Definition createRunContainer (ctx : option Z) (taskID : string) (input : RunInput.t)
    : ST RS string :=
  wrap "run container" (driver (cd_RunContainer ctx (container_task taskID input))).

(** A container that was started, or the result of a run that ended before. *)
Record started : Type := mkStarted {
  st_ctx : option Z;
  st_container : string;
  st_key : string }.

(** The timeout of the context: none, or a positive duration. *)
Definition run_context (timeout : string) : result (option Z) :=
  if decide (timeout = "") then Ok None
  else match ParseDuration timeout with
       | Err e => Err (EWrap "could not parse timeout" e)
       | Ok d => Ok (if (0 <? d)%Z then Some d else None)
       end.

Definition next_index : ST RS Z := fun s =>
  (Ok (tr_callIndex s),
   mkRunner W (tr_db s) (tr_secretValues s) (tr_callIndex s + 1) (tr_volumes s) (tr_world s)).

Definition lift {A} (r : result A) : ST RS A := fun s => (r, s).

Definition startRun (input : RunInput.t) : ST RS (RunResult.t + started) :=
  let! ctx := lift (run_context (RunInput.Timeout input)) in
  let! i := next_index in
  let stepID := Itoa i ++ "-" ++ RunInput.Name input in
  let taskID := DeterministicTaskID (PipelineRunner.namespace c) (PipelineRunner.runID c) stepID
                  (RunInput.Name input) in
  let storageKey := if decide (RunInput.StorageKey input = "") then taskStorageKey stepID
                    else RunInput.StorageKey input in
  let! input := injectSecrets input storageKey in
  setTaskStatus storageKey [("status", JStr "pending")] ;;;
  let! container := attempt (createRunContainer ctx taskID input) in
  match container with
  | Ok id => ret (inr (mkStarted ctx id storageKey))
  | Err e =>
      if is_abort e then
        setTaskStatus storageKey [("status", JStr "abort")] ;;;
        ret (inl RunResult.aborted)
      else
        setTaskStatus storageKey [("status", JStr "error")] ;;;
        fail (EWrap "could not run container" e)
  end.

(** ** Waiting and finishing *)

(** [time.Since(taskStartedAt)] *)
Definition elapsed (startedAt : time) : ST RS string :=
  let! t := now in ret (formatElapsed (t - startedAt)).

(** The streamed output and the entries, chunk by chunk; each tick publishes
    the entries so far. *)
Record streamed : Type := mkStreamed {
  sd_logs : list TaskLogEntry.t; sd_stdout : string; sd_stderr : string }.

Definition stream_chunk (stream data : string) (sd : streamed) : streamed :=
  mkStreamed (AppendLogEntry (sd_logs sd) stream data)
    (if decide (stream = "stdout") then sd_stdout sd ++ data else sd_stdout sd)
    (if decide (stream = "stderr") then sd_stderr sd ++ data else sd_stderr sd).

Fixpoint follow (key : string) (startedAt : time) (events : list stream_event) (sd : streamed)
    : ST RS streamed :=
  match events with
  | [] => ret sd
  | Chunk stream data :: events => follow key startedAt events (stream_chunk stream data sd)
  | Tick2s :: events =>
      (if decide (sd_logs sd = []) then ret tt
       else setTaskStatus key
              [("status", JStr "running"); ("started_at", JStr (stamp startedAt));
               ("logs", logs_json (sd_logs sd))]) ;;;
      follow key startedAt events sd
  end.

Definition ended_status (status : string) (startedAt : time) (rest : list (string * json))
    (key : string) : ST RS unit :=
  let! took := elapsed startedAt in
  setTaskStatus key
    ([("status", JStr status); ("started_at", JStr (stamp startedAt)); ("elapsed", JStr took)]
     ++ rest)%list.

(** [inl tt]: errContainerAborted. *)
Definition pollContainerStatus (ctx : option Z) (id key : string) (startedAt : time)
    : ST RS (unit + Z) :=
  let! answer := attempt (driver (waitForContainer ctx id)) in
  match answer with
  | Ok code => ret (inr code)
  | Err e =>
      if is_abort e then ended_status "abort" startedAt [] key ;;; ret (inl tt)
      else
        ended_status "error" startedAt [] key ;;;
        fail (EWrap "could not get container status" e)
  end.

Definition redact_entry (values : list string) (e : TaskLogEntry.t) : TaskLogEntry.t :=
  TaskLogEntry.mk (TaskLogEntry.Type_ e) (RedactSecrets (TaskLogEntry.Content e) values).

(** The secret values are dropped once used. *)
Definition buildFinalResult (code : Z) (sd : streamed) (finalStdout finalStderr key : string)
    (startedAt : time) : ST RS RunResult.t :=
  let stdout := preferCompleteOutput (sd_stdout sd) finalStdout in
  let stderr := preferCompleteOutput (sd_stderr sd) finalStderr in
  let! values := gets tr_secretValues in
  modify (set_secretValues []) ;;;
  let stdout := RedactSecrets stdout values in
  let stderr := RedactSecrets stderr values in
  let logs := reconcileTaskLogs (redact_entry values <$> sd_logs sd) stdout stderr in
  let status := if (code =? 0)%Z then "success" else "failure" in
  ended_status status startedAt [("code", JNum code); ("logs", logs_json logs)] key ;;;
  ret (RunResult.mk code stderr stdout RunComplete).

Definition waitAndFinalizeRun (h : started) : ST RS RunResult.t :=
  let key := st_key h in
  let! startedAt := now in
  setTaskStatus key [("status", JStr "running"); ("started_at", JStr (stamp startedAt))] ;;;
  let! events := observe (cd_Stream (st_ctx h) (st_container h)) in
  let! sd := follow key startedAt events.1 (mkStreamed [] "" "") in
  let! polled := attempt (pollContainerStatus (st_ctx h) (st_container h) key startedAt) in
  let! sd := follow key startedAt events.2 sd in          (* cancelTicker, streamWg.Wait *)
  match polled with
  | Err e => fail e
  | Ok (inl _) => ret RunResult.aborted
  | Ok (inr code) =>
      let! logs := attempt (driver (read_Logs (st_ctx h) (st_container h))) in
      match logs with
      | Err e =>
          if is_abort e then
            ended_status "abort" startedAt [("logs", logs_json (sd_logs sd))] key ;;;
            ret RunResult.aborted
          else
            ended_status "error" startedAt [("logs", logs_json (sd_logs sd))] key ;;;
            fail (EWrap "could not get container logs" e)
      | Ok (finalStdout, finalStderr) =>
          let logs := emitMissingOutput (sd_stdout sd) finalStdout "stdout" (sd_logs sd) in
          let logs := emitMissingOutput (sd_stderr sd) finalStderr "stderr" logs in
          buildFinalResult code (mkStreamed logs (sd_stdout sd) (sd_stderr sd))
            finalStdout finalStderr key startedAt
      end
  end.

(** [defer container.Cleanup]: on every path. *)
Definition finishRun (h : started) : ST RS RunResult.t :=
  let! r := attempt (waitAndFinalizeRun h) in
  ignore (driver (cd_Cleanup (st_container h))) ;;;
  lift r.

Definition Run (input : RunInput.t) : ST RS RunResult.t :=
  let! started := startRun input in
  match started with
  | inl r => ret r
  | inr h => finishRun h
  end.

(** ** Volumes, agents and sandboxes *)
Definition CreateVolume (name : string) (size : Z) : ST RS Volume.t :=
  match PipelineRunner.preseededVolumes c !! name with
  | Some vol => modify (fun s => set_volumes (tr_volumes s ++ [vol]) s) ;;; ret vol
  | None =>
      let! vol := wrap "could not create volume" (driver (cd_CreateVolume name size)) in
      modify (fun s => set_volumes (tr_volumes s ++ [vol]) s) ;;; ret vol
  end.

(** Every volume is cleaned up, whatever happens to the others. *)
Fixpoint cleanup_all (vols : list Volume.t) : ST RS (list err) :=
  match vols with
  | [] => ret []
  | vol :: vols =>
      let! r := attempt (driver (cd_CleanupVolume vol)) in
      let! errs := cleanup_all vols in
      ret (match r with Ok _ => errs | Err e => e :: errs end)
  end.
Definition CleanupVolumes : ST RS unit :=
  let! vols := gets tr_volumes in
  let! errs := cleanup_all vols in
  modify (set_volumes []) ;;;
  match errs with
  | [] => ret tt
  | e :: _ => fail (EWrap ("failed to cleanup " ++ Itoa (Z.of_nat (length errs)) ++ " volumes") e)
  end.

Definition RunAgent (configJSON : json) : ST RS json :=
  match PipelineRunner.agentFunc c with
  | None => fail (EMsg "agent execution not configured on this runner")
  | Some f => lift (f configJSON)
  end.

(** [resolveSecretEnv]: when a secret cannot be loaded the environment is left
    as it is. *)
Definition resolveSecretEnv (env : gmap string string) : ST RS (gmap string string) :=
  let secretKeys := secret_keys env in
  if decide (secretKeys = []) then ret env
  else
    match loadSecrets secretKeys with
    | Err _ => ret env
    | Ok secretMap =>
        modify (fun s => set_secretValues (tr_secretValues s ++ resolved_values secretMap env) s) ;;;
        ret (resolve_env secretMap env)
    end.

Definition Exec (sandbox : string) (input : RunInput.t) : ST RS RunResult.t :=
  let! ctx := lift (match run_context (RunInput.Timeout input) with
                    | Err (EWrap _ e) => Err (EWrap "sandbox exec: invalid timeout" e)
                    | r => r end) in
  let! env := match PipelineRunner.secretsManager c with
              | Some _ => resolveSecretEnv (RunInput.Env input) | None => ret (RunInput.Env input)
              end in
  let! answer := observe (cd_Exec ctx sandbox (RunInput.Path input :: RunInput.Args input) env
    (RunInput.WorkDir input)
    (if decide (RunInput.Stdin input = "") then None else Some (RunInput.Stdin input))) in
  match answer with
  | (_, _, Err e) =>
      if is_abort e then ret RunResult.aborted else fail (EWrap "sandbox exec" e)
  | (stdout, stderr, Ok code) =>
      let! values := gets tr_secretValues in
      modify (set_secretValues []) ;;;
      ret (RunResult.mk code (RedactSecrets stderr values) (RedactSecrets stdout values) RunComplete)
  end.
End task_runner.

(** ** Facts *)
Section facts.
Context `{!Namespace, !OrderBy, !JsonText, !MapOrder, !Clockwork, !Sha256, !Stamp, !SentinelText}.
Context {W : Type} `{!ContainerDriver W, !EndingContainers W, !Cancellation W}.
Context (c : PipelineRunner.t) (Hstore : PipelineRunner.has_storage c = true).
Notation RS := (runner_state W).
Implicit Types s : RS.

(** A cancelled context stays cancelled. *)
Context (Hstays : forall id w, ctx_Err w <> None -> ctx_Err (cd_Cleanup id w).1 <> None).
Definition stopped (s : RS) : Prop := ctx_Err (tr_world s) <> None.

(** The field [k] of the task's row. *)
Definition stored_field (key k : string) (s : RS) : option json :=
  match db_tasks (tr_db s) !! task_path key with
  | Some t => get_field k (fields (taskRow.payload t))
  | None => None
  end.

Definition quiet (s : RS) : Prop := db_faults (tr_db s) = [].

Definition publish (key : string) (ps : list (string * json)) (s : RS) : RS :=
  set_tr_db (upsert_task (task_path key) (extractRunID (task_path key)) (JObj ps) (tr_db s)) s.

Lemma publish_quiet key ps s : quiet s -> quiet (publish key ps s).
Proof. unfold quiet, publish. simpl. by rewrite upsert_task_faults. Qed.

(** A write of the row, or none when the run is stopped. *)
Lemma setTaskStatus_post key ps s Q :
  key <> "" -> quiet s ->
  (ctx_Err (tr_world s) = None -> Q (Ok tt) (publish key ps s)) -> (stopped s -> Q (Ok tt) s) ->
  post (setTaskStatus c key ps) s Q.
Proof.
  intros Hk Hq Hlive Hstop. unfold setTaskStatus. rewrite bool_decide_eq_false_2, Hstore by done.
  cbn [orb negb]. apply post_bind. unfold post at 1. cbn [gets fst snd]. unfold stopped in Hstop.
  destruct (ctx_Err (tr_world s)) as [e|]; [by apply Hstop|].
  unfold post, ignore, on_db. cbn [get_db put_db runner_has_db]. rewrite Set_no_faults by done.
  by apply Hlive.
Qed.

(** A value that a merge patch stores as it is. *)
Definition flat (v : json) : Prop :=
  match v with JNull | JObj _ => False | _ => True end.

Lemma stored_field_publish key k v ps s :
  NoDup ps.*1 -> get_field k ps = Some v -> flat v ->
  stored_field key k (publish key ps s) = Some v.
Proof.
  intros Hnd Hk Hv. unfold stored_field, publish. simpl.
  destruct (lookup_upsert_task (task_path key) (extractRunID (task_path key)) (JObj ps) (tr_db s))
    as (t & -> & ->).
  destruct (db_tasks (tr_db s) !! task_path key) as [old|]; [|done].
  rewrite jsonb_patch_obj. simpl. rewrite get_patch_fields, Hk by done. by destruct v.
Qed.

(** *** Every run settles its row *)
Definition outcome_status (r : result RunResult.t) : string :=
  match r with
  | Err _ => "error"
  | Ok res =>
      match RunResult.Status res with
      | RunAbort => "abort"
      | RunComplete => if (RunResult.Code res =? 0)%Z then "success" else "failure"
      end
  end.
Definition settled (key : string) (r : result RunResult.t) (s : RS) : Prop :=
  quiet s /\ stored_field key "status" s = Some (JStr (outcome_status r)).
(** A tick that comes after the poll has failed, and before the ticker has
    stopped, writes "running" over the outcome. *)
Definition reopened (late : list stream_event) (key : string) (r : result RunResult.t) (s : RS) : Prop :=
  quiet s /\ Tick2s ∈ late /\ stored_field key "status" s = Some (JStr "running") /\
  forall res, r = Ok res -> RunResult.Status res = RunAbort.

(** The run was stopped before its outcome could be written: the row says what
    it said last. *)
Definition early (prior : option json) (key : string) (s : RS) : Prop :=
  stored_field key "status" s ∈ [prior; Some (JStr "pending"); Some (JStr "running")].
Definition unwritten (prior : option json) (key : string) (s : RS) : Prop :=
  quiet s /\ stopped s /\ early prior key s.
(** The row has its outcome, or will never have it. *)
Definition ended (prior : option json) (key : string) (r : result RunResult.t) (s : RS) : Prop :=
  settled key r s \/ unwritten prior key s.

Lemma early_publish prior key status ps s :
  NoDup ps.*1 -> get_field "status" ps = Some (JStr status) -> status ∈ ["pending"; "running"] ->
  early prior key (publish key ps s).
Proof.
  intros Hnd Hg Hin. unfold early. rewrite (stored_field_publish key "status" (JStr status)) by done.
  apply elem_of_cons in Hin as [->|Hin%list_elem_of_singleton]; [by right; left|subst; by right; right; left].
Qed.

Lemma ended_status_post status startedAt rest key s Q :
  key <> "" -> quiet s -> NoDup (["status"; "started_at"; "elapsed"] ++ rest.*1) ->
  (forall took, let ps := ([("status", JStr status); ("started_at", JStr (stamp startedAt));
                      ("elapsed", JStr took)] ++ rest)%list in
     NoDup ps.*1 -> ctx_Err (tr_world s) = None -> Q (Ok tt) (publish key ps s)) ->
  (stopped s -> Q (Ok tt) s) ->
  post (ended_status c status startedAt rest key) s Q.
Proof.
  intros Hk Hq Hnd HQ Hstop. unfold ended_status, elapsed. do 2 apply post_bind.
  unfold post at 1. simpl. apply setTaskStatus_post; [done..| |done]. intros Hlive. by apply HQ.
Qed.

Lemma follow_post key startedAt events s Q : forall sd,
  key <> "" -> quiet s ->
  (forall sd' s', quiet s' -> tr_secretValues s' = tr_secretValues s -> tr_world s' = tr_world s ->
     s' = s \/ Tick2s ∈ events /\ stored_field key "status" s' = Some (JStr "running") ->
     Q (Ok sd') s') ->
  post (follow c key startedAt events sd) s Q.
Proof.
  revert s. induction events as [|[stream data|] events IH]; intros s sd Hk Hq HQ.
  - by apply HQ; [..|left].
  - simpl. apply IH; [done..|]. intros sd' s' Hq' Hv' Hw' [->|[Hin Hs]]; apply HQ; try done; [by left|].
    right. split; [by right|done].
  - simpl. apply post_bind.
    assert (Hskip : post (follow c key startedAt events sd) s Q).
    { apply IH; [done..|]. intros sd' s' Hq' Hv' Hw' [->|[Hin Hs]]; apply HQ; try done; [by left|].
      right. split; [by right|done]. }
    case_decide; [exact Hskip|]. apply setTaskStatus_post; [done..| |intros _; exact Hskip].
    intros _. apply IH; [done|by apply publish_quiet|].
    intros sd' s' Hq' Hv' Hw' Hor. apply HQ; [done..|]. right. split; [by left|].
    destruct Hor as [->|[_ Hs]]; [|done].
    apply stored_field_publish; [by apply (bool_decide_unpack _)|done..].
Qed.

(** The row after the last write of a run: its outcome, or what it said. *)
Lemma settled_end prior status startedAt rest key s r Q :
  key <> "" -> quiet s -> early prior key s -> NoDup (["status"; "started_at"; "elapsed"] ++ rest.*1) ->
  outcome_status r = status ->
  (forall s', ended prior key r s' -> Q (Ok tt) s') ->
  post (ended_status c status startedAt rest key) s Q.
Proof.
  intros Hk Hq He Hnd Ho HQ. apply ended_status_post; [done..| |].
  - intros took ps Hps _. apply HQ. left. split; [by apply publish_quiet|].
    rewrite Ho. by apply stored_field_publish.
  - intros Hstop. apply HQ. by right.
Qed.

Lemma driver_post {A} (f : W -> W * result A) s Q :
  (forall w, Q (f (tr_world s)).2 (set_tr_world w s)) -> post (driver f) s Q.
Proof. intros HQ. unfold post, driver. specialize (HQ (f (tr_world s)).1). by destruct (f _). Qed.

Lemma pollContainerStatus_post prior ctx id key startedAt s Q :
  key <> "" -> quiet s -> early prior key s ->
  (forall s', ended prior key (Ok RunResult.aborted) s' -> Q (Ok (inl tt)) s') ->
  (forall e s', ended prior key (Err e) s' -> Q (Err e) s') ->
  (forall code w, Q (Ok (inr code)) (set_tr_world w s)) ->
  post (pollContainerStatus c ctx id key startedAt) s Q.
Proof.
  intros Hk Hq He Habort Herr Hok. unfold pollContainerStatus.
  apply post_bind, post_attempt, driver_post. intros w.
  destruct (waitForContainer _ _ _).2 as [code|e]; [apply Hok|].
  destruct (is_abort e); apply post_bind.
  - apply (settled_end prior "abort" _ _ _ _ (Ok RunResult.aborted));
      [done|done|done|by apply (bool_decide_unpack _)|done|].
    intros s' Hs'. by apply Habort.
  - eapply (settled_end prior "error" _ _ _ _ (Err (EWrap "could not get container status" e)));
      [done|done|done|by apply (bool_decide_unpack _)|done|].
    intros s' Hs'. by apply Herr.
Qed.

(** *** A finished run shows no secret *)
Definition hides (vs : list string) (text : string) : Prop :=
  forall v, v ∈ vs -> redactable v = true -> Contains text v = false.

Lemma hides_redacted vs text : hides vs (RedactSecrets text vs).
Proof. intros v. apply RedactSecrets_hidden. Qed.

Lemma reconcile_hides vs logs stdout stderr e :
  (forall e, e ∈ logs -> hides vs (TaskLogEntry.Content e)) -> hides vs stdout -> hides vs stderr ->
  e ∈ reconcileTaskLogs logs stdout stderr -> hides vs (TaskLogEntry.Content e).
Proof.
  intros Hl Ho He. assert (Hb : e ∈ buildTaskLogs stdout stderr -> hides vs (TaskLogEntry.Content e)).
  { unfold buildTaskLogs. intros Hin. repeat case_decide; set_solver. }
  unfold reconcileTaskLogs. case_decide; [done|]. case_match; [done|]. apply Hl.
Qed.

Definition hidden (vs : list string) (key : string) (res : RunResult.t) (s : RS) : Prop :=
  hides vs (RunResult.Stdout res) /\ hides vs (RunResult.Stderr res) /\ tr_secretValues s = [] /\
  (ctx_Err (tr_world s) = None -> exists logs, stored_field key "logs" s = Some (logs_json logs) /\
    forall e, e ∈ logs -> hides vs (TaskLogEntry.Content e)).

(** What holds when a run with the secrets [vs] ends. *)
Definition concluded (prior : option json) (vs : list string) (late : list stream_event) (key : string)
    (r : result RunResult.t) (s : RS) : Prop :=
  (ended prior key r s \/ reopened late key r s) /\
  forall res, r = Ok res -> RunResult.Status res = RunComplete -> hidden vs key res s.

Lemma concluded_abort prior vs late key s :
  ended prior key (Ok RunResult.aborted) s -> concluded prior vs late key (Ok RunResult.aborted) s.
Proof. intros Hs. split; [by left|]. by intros res [= <-]. Qed.
Lemma concluded_err prior vs late key e s :
  ended prior key (Err e) s -> concluded prior vs late key (Err e) s.
Proof. intros Hs. split; [by left|done]. Qed.

(** The ticker's last turns after a failed poll. *)
Lemma settled_follow prior key startedAt late sd s r :
  key <> "" -> ended prior key r s -> (forall res, r = Ok res -> RunResult.Status res = RunAbort) ->
  post (follow c key startedAt late sd) s (fun a s' =>
    (exists sd', a = Ok sd') /\ (ended prior key r s' \/ reopened late key r s')).
Proof.
  intros Hk He Hr. assert (Hq : quiet s) by (by destruct He as [[? _]|[? _]]).
  apply follow_post; [done..|]. intros sd' s' Hq' _ Hw [->|[Hin Hs']];
    (split; [by eexists|]); [by left|by right].
Qed.

Lemma buildFinalResult_post prior code sd fo fe key startedAt s :
  key <> "" -> quiet s -> early prior key s ->
  post (buildFinalResult c code sd fo fe key startedAt) s
    (fun r s' => forall late, concluded prior (tr_secretValues s) late key r s').
Proof.
  intros Hk Hq He. unfold buildFinalResult. set (vs := tr_secretValues s).
  do 2 (apply post_bind; unfold post at 1; simpl).
  set (stdout := RedactSecrets (preferCompleteOutput (sd_stdout sd) fo) vs).
  set (stderr := RedactSecrets (preferCompleteOutput (sd_stderr sd) fe) vs).
  set (logs := reconcileTaskLogs _ _ _).
  assert (Hlogs : forall e, e ∈ logs -> hides vs (TaskLogEntry.Content e)).
  { intros e. apply reconcile_hides; [|apply hides_redacted..].
    intros e' (e0 & -> & _)%list_elem_of_fmap. apply hides_redacted. }
  apply post_bind, ended_status_post; [done..|by apply (bool_decide_unpack _)| |].
  - intros took ps Hps _. unfold post. simpl. intros late. split.
    + left. left. split; [by apply publish_quiet|]. apply stored_field_publish; [done| |done].
      simpl. by destruct (code =? 0)%Z.
    + intros res [= <-] _. split_and!; [apply hides_redacted..|done|]. intros _.
      exists logs. split; [|done]. by apply stored_field_publish.
  - intros Hstop. unfold post. simpl. intros late. split; [left; by right|].
    intros res [= <-] _. split_and!; [apply hides_redacted..|done|]. intros Hlive. by destruct Hstop.
Qed.

(** What the container's stream and the ticker still do after the poll. *)
Definition late_events (h : started) (s : RS) : list stream_event :=
  (cd_Stream (st_ctx h) (st_container h) (tr_world s)).2.2.

Lemma waitAndFinalizeRun_post prior h s :
  st_key h <> "" -> quiet s -> early prior (st_key h) s ->
  post (waitAndFinalizeRun c h) s (concluded prior (tr_secretValues s) (late_events h s) (st_key h)).
Proof.
  intros Hk Hq He. unfold waitAndFinalizeRun. set (vs := tr_secretValues s).
  apply post_bind. unfold post at 1. simpl. apply post_bind.
  eapply (post_mono _ _ (fun r s0 => r = Ok tt /\ quiet s0 /\ early prior (st_key h) s0 /\
    tr_secretValues s0 = vs /\ tr_world s0 = tr_world s)).
  { apply setTaskStatus_post; [done..| |]; intros _; split_and!; try done; [by apply publish_quiet|].
    eapply early_publish; [by apply (bool_decide_unpack _)|done|set_solver]. }
  intros r0 s0 (-> & Hq0 & He0 & Hv0 & Hw0). clear Hq He.
  apply post_bind. unfold post at 1. unfold observe, late_events. rewrite Hw0.
  destruct (cd_Stream _ _ _) as [w [before late]]. simpl.
  apply post_bind, follow_post; [done..|]. intros sd s1 Hq1 Hvs _ Hor1.
  assert (He1 : early prior (st_key h) s1).
  { destruct Hor1 as [->|[_ Hr]]; [done|]. unfold early. rewrite Hr. by right; right; left. }
  simpl in Hvs. rewrite Hv0 in Hvs. apply post_bind, post_attempt, (pollContainerStatus_post prior); [done..| | |].
  - intros s2 Hs2. apply post_bind. eapply post_mono;
      [eapply (settled_follow prior _ _ _ _ _ (Ok RunResult.aborted)); [done..|by intros res [= <-]]|].
    intros ? s3 [[sd' ->] Hs3]. split; [done|]. by intros res [= <-].
  - intros e s2 Hs2. apply post_bind. eapply post_mono; [by eapply settled_follow|].
    intros ? s3 [[sd' ->] Hs3]. by split.
  - intros code w1. apply post_bind, follow_post; [done..|]. intros sd2 s2 Hq2 Hvs2 _ Hor2.
    simpl in Hvs2. rewrite Hvs in Hvs2. clear Hvs.
    assert (He2 : early prior (st_key h) s2).
    { destruct Hor2 as [->|[_ Hr]]; [exact He1|]. unfold early. rewrite Hr. by right; right; left. }
    apply post_bind, post_attempt, driver_post. intros w2.
    destruct (read_Logs _ _ _).2 as [[fo fe]|e].
    + rewrite <- Hvs2. eapply post_mono;
        [exact (buildFinalResult_post prior _ _ _ _ _ _ (set_tr_world w2 s2) Hk Hq2 He2)|].
      intros r s3 Hr. apply Hr.
    + destruct (is_abort e); apply post_bind.
      * apply (settled_end prior "abort" _ _ _ _ (Ok RunResult.aborted));
          [done|done|done|by apply (bool_decide_unpack _)|done|]. intros. by apply concluded_abort.
      * apply (settled_end prior "error" _ _ _ _ (Err (EWrap "could not get container logs" e)));
          [done|done|done|by apply (bool_decide_unpack _)|done|]. intros. by apply concluded_err.
Qed.

(** Whatever the outcome, the container is cleaned up last. *)
Definition cleaned (id : string) (s : RS) : Prop := exists w, tr_world s = (cd_Cleanup id w).1.

(** The clean-up of the container does not touch the row. *)
Lemma concluded_world prior vs late key r id s :
  concluded prior vs late key r s ->
  concluded prior vs late key r (set_tr_world (cd_Cleanup id (tr_world s)).1 s).
Proof.
  intros [Hend Hhid]. split.
  - destruct Hend as [[Hs|(Hq & Hstop & He)]|Hre]; [by left; left| |by right].
    left. right. split; [done|]. split; [|done]. by apply Hstays.
  - intros res Hr Hc. destruct (Hhid res Hr Hc) as (Ho & He & Hv & Hl). split_and!; [done..|].
    intros Hlive. apply Hl. destruct (ctx_Err (tr_world s)) eqn:Hx; [|done].
    exfalso. apply (Hstays id (tr_world s)); [congruence|exact Hlive].
Qed.

Lemma finishRun_post prior h s :
  st_key h <> "" -> quiet s -> early prior (st_key h) s ->
  post (finishRun c h) s (fun r s' =>
    concluded prior (tr_secretValues s) (late_events h s) (st_key h) r s' /\
    cleaned (st_container h) s').
Proof.
  intros Hk Hq He. unfold finishRun. apply post_bind, post_attempt.
  eapply post_mono; [by apply (waitAndFinalizeRun_post prior)|]. intros r s1 Hr. cbv beta.
  apply post_bind, post_ignore. unfold post, driver, lift.
  pose proof (concluded_world prior _ _ _ r (st_container h) s1 Hr) as Hc.
  destruct (cd_Cleanup _ (tr_world s1)) as [w a] eqn:E. simpl. split; [exact Hc|].
  exists (tr_world s1). by rewrite E.
Qed.

(** *** Starting *)
Definition run_key (input : RunInput.t) (s : RS) : string :=
  if decide (RunInput.StorageKey input = "")
  then taskStorageKey c (Itoa (tr_callIndex s) ++ "-" ++ RunInput.Name input)
  else RunInput.StorageKey input.

(** The values the environment of [input] refers to. *)
Definition secrets_of (input : RunInput.t) : list string :=
  match loadSecrets c (secret_keys (RunInput.Env input)) with
  | Ok secretMap => resolved_values secretMap (RunInput.Env input)
  | Err _ => []
  end.

Lemma resolved_values_nil secretMap env : secret_keys env = [] -> resolved_values secretMap env = [].
Proof.
  unfold secret_keys, resolved_values. generalize (map_range env) as l.
  induction l as [|[k v] l IH]; [done|]. simpl. unfold resolved_secret.
  destruct (secret_key v); simpl; [done|]. apply IH.
Qed.

Lemma secrets_of_none input : PipelineRunner.secretsManager c = None -> secrets_of input = [].
Proof.
  intros Em. unfold secrets_of, loadSecrets. rewrite Em. unfold resolved_values.
  generalize (map_range (RunInput.Env input)) as l. induction l as [|[k v] l IH]; [done|]. simpl.
  unfold resolved_secret. destruct (secret_key v); simpl; [by rewrite lookup_empty|done].
Qed.

Lemma injectSecrets_post prior input key s :
  key <> "" -> quiet s -> early prior key s ->
  post (injectSecrets c input key) s (fun r s' =>
    match r with
    | Ok input' => quiet s' /\ early prior key s' /\
        tr_secretValues s' = (tr_secretValues s ++ secrets_of input)%list
    | Err e => ended prior key (Err e) s'
    end).
Proof.
  intros Hk Hq He. unfold injectSecrets.
  destruct (PipelineRunner.secretsManager c) as [get|] eqn:Em.
  - case_decide as Hn.
    + unfold post. simpl. split_and!; [done..|]. unfold secrets_of. rewrite Hn.
      unfold loadSecrets. rewrite Em. simpl. rewrite resolved_values_nil by done. by rewrite app_nil_r.
    + unfold secrets_of, loadSecrets. rewrite Em. destruct (load_keys c get _ ∅) as [m|e] eqn:El.
      * unfold post. simpl. by split_and!.
      * apply post_bind, setTaskStatus_post; [done..| |].
        -- intros _. left. split; [by apply publish_quiet|].
           by apply stored_field_publish; [apply (bool_decide_unpack _)|..].
        -- intros Hstop. by right.
  - unfold post. simpl. split_and!; [done..|]. by rewrite secrets_of_none, app_nil_r.
Qed.

(** What the row says before the run. *)
Definition prior_status (input : RunInput.t) (s : RS) : option json :=
  stored_field (run_key input s) "status" s.

Lemma startRun_post input s ctx :
  run_context (RunInput.Timeout input) = Ok ctx -> run_key input s <> "" -> quiet s ->
  post (startRun c input) s (fun r s' =>
    match r with
    | Ok (inr h) => st_key h = run_key input s /\ quiet s' /\
        early (prior_status input s) (run_key input s) s' /\
        tr_secretValues s' = (tr_secretValues s ++ secrets_of input)%list
    | Ok (inl res) =>
        ended (prior_status input s) (run_key input s) (Ok res) s' /\ RunResult.Status res = RunAbort
    | Err e => ended (prior_status input s) (run_key input s) (Err e) s'
    end).
Proof.
  intros Hctx Hk Hq. unfold startRun, prior_status. apply post_bind. unfold post at 1. unfold lift at 1 2.
  rewrite Hctx. cbn [fst snd]. apply post_bind. unfold post at 1. cbn [next_index fst snd].
  change (if decide (RunInput.StorageKey input = "") then _ else _) with (run_key input s).
  set (key := run_key input s) in *. set (prior := stored_field key "status" s).
  set (s0 := mkRunner W _ _ _ _ _).
  assert (He0 : early prior key s0) by (left).
  apply post_bind. eapply post_mono; [by apply (injectSecrets_post prior)|].
  intros [input'|e] s1 Hs1; [|exact Hs1]. destruct Hs1 as (Hq1 & He1 & Hv1).
  apply post_bind. eapply (post_mono _ _ (fun r s2 => r = Ok tt /\ quiet s2 /\ early prior key s2 /\
    tr_secretValues s2 = tr_secretValues s1)).
  { apply setTaskStatus_post; [done..| |]; intros _; split_and!; try done; [by apply publish_quiet|].
    eapply early_publish; [by apply (bool_decide_unpack _)|done|set_solver]. }
  intros r2 s2 (-> & Hq2 & He2 & Hv2). apply post_bind, post_attempt.
  unfold createRunContainer, wrap, driver, post at 1.
  destruct (cd_RunContainer _ _ _) as [w [id|e]]; cbn [fst snd].
  - unfold post. simpl. split_and!; [done..|]. by rewrite Hv2.
  - destruct (is_abort _); apply post_bind, setTaskStatus_post; try done.
    + intros _. split; [|done]. left. split; [by apply (publish_quiet key)|].
      by apply stored_field_publish; [apply NoDup_singleton|..].
    + intros Hstop. split; [|done]. by right.
    + intros _. left. split; [by apply (publish_quiet key)|].
      by apply stored_field_publish; [apply NoDup_singleton|..].
    + intros Hstop. by right.
Qed.

(** The late events of the container that was started, if one was. *)
Definition late_of (r : result (RunResult.t + started) * RS) : list stream_event :=
  match r with (Ok (inr h), s1) => late_events h s1 | _ => [] end.

Lemma Run_post input s ctx :
  run_context (RunInput.Timeout input) = Ok ctx -> run_key input s <> "" -> quiet s ->
  post (Run c input) s (fun r s' =>
    concluded (prior_status input s) (tr_secretValues s ++ secrets_of input)
      (late_of (startRun c input s)) (run_key input s) r s' /\
    forall h s1, startRun c input s = (Ok (inr h), s1) -> cleaned (st_container h) s').
Proof.
  intros Hctx Hk Hq. pose proof (startRun_post input s ctx Hctx Hk Hq) as Hstart.
  unfold post in Hstart. unfold Run, bind, post.
  destruct (startRun c input s) as [[[res|h]|e] s1]; cbn [fst snd] in *.
  - destruct Hstart as [Hs Ha]. cbn [ret fst snd]. split; [|done]. split; [by left|].
    intros ? [= <-]. by rewrite Ha.
  - destruct Hstart as (Hkey & Hq1 & He1 & Hvs). rewrite <- Hkey, <- Hvs in *.
    destruct (finishRun_post (prior_status input s) h s1 Hk Hq1 He1) as [Hc Hclean].
    split; [exact Hc|]. by intros ? ? [= <- <-].
  - split; [|done]. by apply concluded_err.
Qed.

(** C25: Whatever happens to a task (a secret that cannot be loaded, a container
    that cannot be started, a failing or a cancelled poll, unreadable logs, an
    exit code), a container that was started has been cleaned up last, and when
    the run's own context is still live at the end the status stored last is the
    one that goes with what [Run] returns; the one exception is a poll that
    failed with a tick of the log timer still under way, which leaves the row
    running. When the run has been stopped meanwhile, its outcome is not
    written any more: the row has its outcome, or says pending, running or what
    it said before the run. *)
Theorem Run_settles input s ctx r s' :
  run_context (RunInput.Timeout input) = Ok ctx -> run_key input s <> "" -> quiet s ->
  Run c input s = (r, s') ->
  (stored_field (run_key input s) "status" s' = Some (JStr (outcome_status r)) \/
   reopened (late_of (startRun c input s)) (run_key input s) r s' \/
   stopped s' /\ stored_field (run_key input s) "status" s' ∈
     [prior_status input s; Some (JStr "pending"); Some (JStr "running")]) /\
  forall h s1, startRun c input s = (Ok (inr h), s1) -> cleaned (st_container h) s'.
Proof.
  intros Hctx Hk Hq Hrun. pose proof (Run_post input s ctx Hctx Hk Hq) as Hpost.
  unfold post in Hpost. rewrite Hrun in Hpost. destruct Hpost as [[Hend _] Hclean]. split; [|done].
  destruct Hend as [[[_ Hs]|(_ & Hstop & He)]|Hre]; [by left|by right; right|by right; left].
Qed.

(** C26: Once a task has completed, neither the output it returns nor, unless
    the run was stopped before the final entries could be written, any log entry
    of its row contains one of the secrets of its environment (nor one held from
    before), and the runner holds no secret any more. *)
Theorem Run_hides_secrets input s ctx res s' :
  run_context (RunInput.Timeout input) = Ok ctx -> run_key input s <> "" -> quiet s ->
  Run c input s = (Ok res, s') -> RunResult.Status res = RunComplete ->
  hidden (tr_secretValues s ++ secrets_of input) (run_key input s) res s'.
Proof.
  intros Hctx Hk Hq Hrun Hdone. pose proof (Run_post input s ctx Hctx Hk Hq) as Hpost.
  unfold post in Hpost. rewrite Hrun in Hpost. destruct Hpost as [[_ Hhid] _]. by apply Hhid.
Qed.

(** *** The log entries are the output *)
Definition collect (events : list stream_event) : streamed :=
  foldl (fun sd ev => match ev with Chunk stream data => stream_chunk stream data sd | Tick2s => sd end)
    (mkStreamed [] "" "") events.

Lemma follow_collects key startedAt events sd s sd' s' :
  follow c key startedAt events sd s = (Ok sd', s') ->
  sd' = foldl (fun sd ev => match ev with Chunk stream data => stream_chunk stream data sd
                                        | Tick2s => sd end) sd events.
Proof.
  revert sd s. induction events as [|[stream data|] events IH]; intros sd s; simpl.
  - by intros [= <- _].
  - apply IH.
  - unfold bind at 1. case_decide; [apply IH|]. destruct (setTaskStatus _ _ _ s) as [[]]; [apply IH|done].
Qed.

Definition streams_ok (sd : streamed) : Prop :=
  condensed (sd_logs sd) /\ joinTaskLogs (sd_logs sd) "stdout" = sd_stdout sd /\
  joinTaskLogs (sd_logs sd) "stderr" = sd_stderr sd.

Lemma collect_ok events : streams_ok (collect events).
Proof.
  unfold collect. assert (Hsd : streams_ok (mkStreamed [] "" "")).
  { split_and!; [|done..]. split; [by intros e ?%elem_of_nil|done]. }
  revert Hsd. generalize (mkStreamed [] "" ""). induction events as [|[stream data|] events IH];
    intros sd Hsd; simpl; [done| |by apply IH].
  apply IH. destruct Hsd as (Hc & Ho & He). split_and!; simpl.
  - by apply AppendLogEntry_condensed.
  - rewrite joinTaskLogs_append, Ho. case_decide; by rewrite ?append_nil_r.
  - rewrite joinTaskLogs_append, He. case_decide; by rewrite ?append_nil_r.
Qed.

(** The entries after the missing output of one stream is added. *)
Lemma emitMissingOutput_ok logs streamed final stream other :
  condensed logs -> joinTaskLogs logs stream = streamed -> HasPrefix final streamed = true ->
  condensed (emitMissingOutput streamed final stream logs) /\
  joinTaskLogs (emitMissingOutput streamed final stream logs) other
  = (if decide (stream = other) then final else joinTaskLogs logs other) /\
  preferCompleteOutput streamed final = final.
Proof.
  intros Hc Hj Hp. unfold emitMissingOutput, missing_output, preferCompleteOutput.
  apply HasPrefix_inv in Hp as [rest ->].
  rewrite String_length_append. destruct (Nat.leb_spec (String.length streamed + String.length rest)
    (String.length streamed)) as [Hle|Hlt].
  - assert (rest = "") as -> by (destruct rest; [done|simpl in Hle; lia]).
    rewrite append_nil_r. split_and!; [done| |by destruct (_ <? _)%nat].
    by case_decide; subst.
  - rewrite HasPrefix_append, drop_string_append, (proj2 (Nat.ltb_lt _ _)) by lia.
    split_and!; [by apply AppendLogEntry_condensed| |done].
    rewrite joinTaskLogs_append. by case_decide; subst; rewrite ?append_nil_r.
Qed.

(** When what was streamed is the beginning of the complete output, the log
    entries published at the end are the complete output: joined per stream
    they are exactly stdout and stderr, with no empty entry and no two
    neighbours of one stream, however the chunks were cut and interleaved. *)
Theorem logs_complete events stdout stderr :
  let sd := collect events in
  HasPrefix stdout (sd_stdout sd) = true -> HasPrefix stderr (sd_stderr sd) = true ->
  let logs := reconcileTaskLogs
    (emitMissingOutput (sd_stderr sd) stderr "stderr"
      (emitMissingOutput (sd_stdout sd) stdout "stdout" (sd_logs sd)))
    (preferCompleteOutput (sd_stdout sd) stdout) (preferCompleteOutput (sd_stderr sd) stderr) in
  joinTaskLogs logs "stdout" = stdout /\ joinTaskLogs logs "stderr" = stderr /\ condensed logs.
Proof.
  intros sd Ho He. destruct (collect_ok events : streams_ok sd) as (Hc & Hjo & Hje).
  set (l1 := emitMissingOutput (sd_stdout sd) stdout "stdout" (sd_logs sd)).
  destruct (emitMissingOutput_ok (sd_logs sd) _ _ "stdout" "stdout" Hc Hjo Ho) as (Hc1 & H1o & Hp1).
  destruct (emitMissingOutput_ok (sd_logs sd) _ _ "stdout" "stderr" Hc Hjo Ho) as (_ & H1e & _).
  fold l1 in Hc1, H1o, H1e. simpl in H1o, H1e. rewrite Hje in H1e.
  set (l2 := emitMissingOutput (sd_stderr sd) stderr "stderr" l1).
  destruct (emitMissingOutput_ok l1 _ _ "stderr" "stderr" Hc1 H1e He) as (Hc2 & H2e & Hp2).
  destruct (emitMissingOutput_ok l1 _ _ "stderr" "stdout" Hc1 H1e He) as (_ & H2o & _).
  fold l2 in Hc2, H2e, H2o. simpl in H2e, H2o. rewrite H1o in H2o.
  rewrite Hp1, Hp2. unfold reconcileTaskLogs. case_decide as Hnil.
  - rewrite Hnil in H2o, H2e. simpl in H2o, H2e. rewrite <- H2o, <- H2e.
    split_and!; [done..|]. by rewrite Hnil in Hc2.
  - rewrite H2o, H2e, !Nat.ltb_irrefl. done.
Qed.
End facts.

(** ** Witnesses *)

(** A driver whose containers run for [w] polls, print [events], and answer
    [logs] at the end. *)
Section example_driver.
Context (events late : list stream_event) (logs : string * string * result unit).
Definition ex_driver : ContainerDriver nat := {|
  cd_RunContainer := fun _ t w => (w, Ok (ContainerTask.ID t));
  cd_GetContainer := fun id w => (w, Ok id);
  cd_Status := fun _ _ w => match w with O => (O, Ok (Some 0%Z)) | S w => (w, Ok None) end;
  cd_Stream := fun _ _ w => (w, (events, late));
  cd_Logs := fun _ _ w => (w, logs);
  cd_Cleanup := fun _ w => (S w, Ok tt);
  cd_CreateVolume := fun name _ w => (w, Ok (Volume.mk name "/vol"));
  cd_CleanupVolume := fun _ w => (w, Ok tt);
  cd_Exec := fun _ _ _ _ _ _ w => (w, ("", "", Ok 0%Z)) |}.

Lemma ex_driver_ends ctx id w :
  is_Some (@poll_status nat ex_driver (S w) ctx id w).2.
Proof. induction w as [|w IH]; [by eexists|exact IH]. Qed.
Definition ex_ending : @EndingContainers nat ex_driver :=
  {| cd_polls := fun _ _ w => S w; cd_ends := ex_driver_ends |}.
End example_driver.

Definition ex_clock : Clockwork :=
  {| cron_next := fun _ => None; ParseDuration := fun _ => Err (EMsg "bad duration") |}.
Definition ex_sha : Sha256 :=
  {| sha256_hex := fun _ => zeros 64; sha256_hex_length := fun _ => eq_refl |}.
Definition ex_runner_ns : Namespace := "".
Definition ex_runner_text : JsonText := fun _ => "".
Definition ex_stamp : Stamp := Itoa.
(** A run that nobody stops. *)
Definition ex_live : Cancellation nat := fun _ => None.
Definition ex_sentinel : SentinelText := fun _ => "sentinel".
#[local] Existing Instances ex_clock ex_sha ex_runner_ns ex_runner_text ex_stamp ex_sentinel ex_live
  stable_order some_map_order.

Definition ex_manager : Manager := fun scope key =>
  if decide (key = "TOKEN" \/ key = "driver_config")
  then Ok "hunter2-hunter2-hunter2" else Err (ESentinel SSecretNotFound).
Definition ex_config : PipelineRunner.t :=
  PipelineRunner.mk "ns" "r1" "p1" (Some ex_manager) true ∅ None.
Definition ex_input (name : string) : RunInput.t :=
  RunInput.mk "sh" ["-c"; "echo $TOKEN"] "" ContainerLimits.zero {["TOKEN" := "secret:TOKEN"]}
    "busybox" ∅ name false "" "" "" "".
Definition ex_runner : runner_state nat := mkRunner nat empty_db [] 0 [] 2.
Definition ex_secret : string := "hunter2-hunter2-hunter2".
Definition ex_events : list stream_event :=
  [Chunk "stdout" "token: hunter2-"; Tick2s; Chunk "stdout" "hunter2-hunter2"].
Definition ex_logs : string * string * result unit := ("token: " ++ ex_secret ++ "!", "", Ok tt).
Definition ex_run (events : list stream_event) (logs : string * string * result unit) :
    result RunResult.t * runner_state nat :=
  Run (ContainerDriver0 := ex_driver events [] logs) (EndingContainers0 := ex_ending events [] logs)
    ex_config (ex_input "build") ex_runner.

Lemma ex_stays (id : string) (w : nat) :
  @ctx_Err _ ex_live w <> None ->
  @ctx_Err _ ex_live (@cd_Cleanup nat (ex_driver ex_events [] ex_logs) id w).1 <> None.
Proof. by intros H. Defined.

Lemma Run_settles_witness :
  stored_field "/pipeline/r1/tasks/0-build" "status" (ex_run ex_events ex_logs).2
  = Some (JStr "success").
Proof.
  destruct (ex_run ex_events ex_logs) as [r s'] eqn:E.
  pose proof (Run_settles (ContainerDriver0 := ex_driver ex_events [] ex_logs)
    (EndingContainers0 := ex_ending ex_events [] ex_logs) ex_config eq_refl ex_stays (ex_input "build")
    ex_runner None r s' eq_refl ltac:(vm_compute; discriminate) eq_refl E)
    as [[Hs|[(_ & _ & _ & Hr)|[Hstop _]]] _]; [| |by destruct Hstop];
    vm_compute in E; injection E as <- <-; [exact Hs|by discriminate (Hr _ eq_refl)].
Defined.

Lemma Run_hides_secrets_witness :
  match ex_run ex_events ex_logs with
  | (Ok res, s') => Contains (RunResult.Stdout res) ex_secret = false /\ tr_secretValues s' = []
  | _ => False
  end.
Proof.
  destruct (ex_run ex_events ex_logs) as [[res|e] s'] eqn:E; [|vm_compute in E; discriminate].
  assert (Hdone : RunResult.Status res = RunComplete) by (vm_compute in E; by injection E as <- _).
  destruct (Run_hides_secrets (ContainerDriver0 := ex_driver ex_events [] ex_logs)
    (EndingContainers0 := ex_ending ex_events [] ex_logs) ex_config eq_refl ex_stays (ex_input "build")
    ex_runner None res s' eq_refl ltac:(vm_compute; discriminate) eq_refl E Hdone) as (Ho & _ & Hv & _).
  split; [|exact Hv]. apply Ho; [|reflexivity].
  change (ex_secret ∈ [ex_secret]). by apply list_elem_of_singleton.
Defined.

(** ** Where secrets are stored all the same *)

(** The contents of the stored entries of a stream, joined as a page shows them. *)
Definition shown (key stream : string) (s : runner_state nat) : string :=
  match stored_field key "logs" s with
  | Some (JArr l) => Join (omap (fun e =>
      match get_field "type" (fields e), get_field "content" (fields e) with
      | Some (JStr t), Some (JStr content) => if decide (t = stream) then Some content else None
      | _, _ => None
      end) l) ""
  | _ => ""
  end.

(** Redaction happens only at the end of a completed run: when the final logs
    cannot be read, the entries are stored as they were printed. *)
Lemma failed_logs_keep_secret :
  let s' := (ex_run ex_events ("", "", Err (EMsg "gone"))).2 in
  stored_field "/pipeline/r1/tasks/0-build" "status" s' = Some (JStr "error") /\
  Contains (shown "/pipeline/r1/tasks/0-build" "stdout" s') ex_secret = true.
Proof. vm_compute. split; reflexivity. Qed.

(** Entries are redacted one by one: a secret that another stream's output cuts
    in two stays readable in the stored entries. *)
Lemma interleaved_output_keeps_secret :
  let events := [Chunk "stdout" "hunter2-hun"; Chunk "stderr" "warning"; Chunk "stdout" "ter2-hunter2"] in
  let s' := (ex_run events (ex_secret, "warning", Ok tt)).2 in
  stored_field "/pipeline/r1/tasks/0-build" "status" s' = Some (JStr "success") /\
  Contains (shown "/pipeline/r1/tasks/0-build" "stdout" s') ex_secret = true.
Proof. vm_compute. split; reflexivity. Qed.

(** The secrets are the runner's, not the run's: of two overlapping runs, the
    first to end drops the values the second one still needs. *)
Lemma overlapping_runs_leak :
  let start input := startRun (ContainerDriver0 := ex_driver ex_events [] ex_logs) ex_config input in
  let finish h := finishRun (ContainerDriver0 := ex_driver ex_events [] ex_logs)
    (EndingContainers0 := ex_ending ex_events [] ex_logs) ex_config h in
  let two := let! a := start (ex_input "a") in let! b := start (ex_input "b") in
    match a, b with
    | inr a, inr b => let! _ := finish a in finish b
    | _, _ => fail (EMsg "not started")
    end in
  match (two ex_runner).1 with
  | Ok res => Contains (RunResult.Stdout res) ex_secret = true
  | Err _ => False
  end.
Proof. vm_compute. reflexivity. Qed.

(** A tick that is under way when the poll fails writes its snapshot after the
    outcome: the run has failed and its row says running, for good. *)
Definition ex_failing_driver (late : list stream_event) : ContainerDriver nat := {|
  cd_RunContainer := fun _ t w => (w, Ok (ContainerTask.ID t));
  cd_GetContainer := fun id w => (w, Ok id);
  cd_Status := fun _ _ w => (w, Err (ESentinel SCanceled));
  cd_Stream := fun _ _ w => (w, (ex_events, late));
  cd_Logs := fun _ _ w => (w, ex_logs);
  cd_Cleanup := fun _ w => (S w, Ok tt);
  cd_CreateVolume := fun name _ w => (w, Ok (Volume.mk name "/vol"));
  cd_CleanupVolume := fun _ w => (w, Ok tt);
  cd_Exec := fun _ _ _ _ _ _ w => (w, ("", "", Ok 0%Z)) |}.
Definition ex_failing_ending (late : list stream_event) : @EndingContainers nat (ex_failing_driver late).
Proof. refine {| cd_polls := fun _ _ _ => 1 |}. intros ctx id w. by eexists. Defined.
Definition ex_failing_run (late : list stream_event) : result RunResult.t * runner_state nat :=
  Run (ContainerDriver0 := ex_failing_driver late) (EndingContainers0 := ex_failing_ending late)
    ex_config (ex_input "build") ex_runner.
Lemma late_tick_reopens :
  (ex_failing_run [Tick2s]).1 = Ok RunResult.aborted /\
  stored_field "/pipeline/r1/tasks/0-build" "status" (ex_failing_run []).2 = Some (JStr "abort") /\
  stored_field "/pipeline/r1/tasks/0-build" "status" (ex_failing_run [Tick2s]).2
  = Some (JStr "running").
Proof. vm_compute. split_and!; reflexivity. Qed.

(** Stopping a run cancels its context: the poll fails with it, and the outcome
    that [pollContainerStatus] then writes does not reach the store any more. The
    container is gone and the row says running. *)
Section stopped_run.
(** The world is the number of polls left until the run is stopped. *)
#[local] Instance ex_stop : Cancellation nat | 0 :=
  fun w => if (w =? 0)%nat then Some (ESentinel SCanceled) else None.
Definition ex_stopped_driver : ContainerDriver nat := {|
  cd_RunContainer := fun _ t w => (w, Ok (ContainerTask.ID t));
  cd_GetContainer := fun id w => (w, Ok id);
  cd_Status := fun _ _ w =>
    match w with 1 | O => (O, Err (ESentinel SCanceled)) | S w => (w, Ok None) end;
  cd_Stream := fun _ _ w => (w, (ex_events, []));
  cd_Logs := fun _ _ w => (w, ex_logs);
  cd_Cleanup := fun _ w => (w, Ok tt);
  cd_CreateVolume := fun name _ w => (w, Ok (Volume.mk name "/vol"));
  cd_CleanupVolume := fun _ w => (w, Ok tt);
  cd_Exec := fun _ _ _ _ _ _ w => (w, ("", "", Ok 0%Z)) |}.
Lemma ex_stopped_ends ctx id w : is_Some (@poll_status nat ex_stopped_driver (S w) ctx id w).2.
Proof. induction w as [|[|w] IH]; [by eexists..|exact IH]. Qed.
Definition ex_stopped_ending : @EndingContainers nat ex_stopped_driver :=
  {| cd_polls := fun _ _ w => S w; cd_ends := ex_stopped_ends |}.
Lemma stopped_run_keeps_running :
  let '(r, s) := Run (ContainerDriver0 := ex_stopped_driver) (EndingContainers0 := ex_stopped_ending)
    ex_config (ex_input "build") ex_runner in
  r = Ok RunResult.aborted /\
  stored_field "/pipeline/r1/tasks/0-build" "status" s = Some (JStr "running").
Proof. vm_compute. split; reflexivity. Qed.
End stopped_run.

Lemma logs_complete_witness :
  let sd := collect [Chunk "stdout" "a"; Chunk "stderr" "w"; Tick2s; Chunk "stdout" "b"] in
  let logs := reconcileTaskLogs
    (emitMissingOutput (sd_stderr sd) "w" "stderr"
      (emitMissingOutput (sd_stdout sd) "abc" "stdout" (sd_logs sd)))
    (preferCompleteOutput (sd_stdout sd) "abc") (preferCompleteOutput (sd_stderr sd) "w") in
  joinTaskLogs logs "stdout" = "abc" /\ joinTaskLogs logs "stderr" = "w".
Proof.
  destruct (logs_complete [Chunk "stdout" "a"; Chunk "stderr" "w"; Tick2s; Chunk "stdout" "b"]
    "abc" "w" eq_refl eq_refl) as (Ho & He & _). by split.
Defined.

(** A key reserved for the system, which [ResolveSecretString] refuses, is
    resolved for a task. *)
Lemma loadSecrets_system_key :
  IsSystemKey "driver_config" = true /\
  loadSecrets ex_config ["driver_config"] = Ok {["driver_config" := ex_secret]} /\
  ResolveSecretString (Some ex_manager) "p1" (SecretPrefix ++ "driver_config")
  = Err (EMsg ("secret key " ++ q "driver_config" ++ " is reserved for system use")).
Proof. split_and!; [reflexivity..|]. by apply ResolveSecretString_system. Qed.
