(* ===== verification/AgentTools.v ===== *)
(** * The tools of an agent (runtime/agent: tools.go, memory.go, model/model.go)

    The tools that run a script in the sandbox, the tools over the table of
    memories, and the choice of a model. The sandbox is a host state [S] behind
    a class; what the script does in it is not modelled, how the shell reads it
    is that of Shell.v. [grep_script_reads]: the arguments of a search reach
    grep as they are; [recall_memory_scoped]: what an agent can be reminded of. *)
From S2P Require Import Prelude Storage Json Db GoStrings Paging Ids Sha Memories Sql Redaction Config Secrets Encoding.
From S2P Require Import Paths Containers TaskRunner Shell Schema TaskLookup.
From Stdlib Require Import Ascii.
Open Scope string_scope.

(** ** The sandbox *)
Module ExecInput.
Record t := mk { Path : string; Args : list string; Env : gmap string string; Output : bool; Timeout : string }.
End ExecInput.

Class Sandbox (S : Type) : Type := sandbox_Exec : ExecInput.t -> ST S RunResult.t.

Module runCommandOutput.
Record t := mk { Stdout : string; Stderr : string; ExitCode : Z }.
Definition of_result (r : RunResult.t) : t := mk (RunResult.Stdout r) (RunResult.Stderr r) (RunResult.Code r).
End runCommandOutput.
Module readFileInput.
Record t := mk { Path : string; Offset : Z; Limit : Z }.
End readFileInput.
Module readFileOutput.
Record t := mk { Path : string; Content : string }.
End readFileOutput.
Module grepInput.
Record t := mk { Pattern : string; Path : string; GlobFilter : string; CaseInsensitive : bool; MaxResults : Z }.
End grepInput.
Module grepOutput.
Record t := mk { Matches : string; Count : Z }.
End grepOutput.
Module globInput.
Record t := mk { Pattern : string; Path : string }.
End globInput.
Module globOutput.
Record t := mk { Files : list string; Count : Z }.
End globOutput.
Module writeFileInput.
Record t := mk { FilePath : string; Content : string }.
End writeFileInput.
Module writeFileOutput.
Record t := mk { Path : string; Written : bool; PreviousContent : string; IsNew : bool }.
End writeFileOutput.
Module ToolDef.
Record t := mk {
  Name : string; Prompt : string; Model : string; Image : string; StorageKeyPrefix : string; IsTask : bool;
  Description : string; CommandPath : string; CommandArgs : list string; Env : gmap string string }.
End ToolDef.

Definition DefaultToolTimeout : string := "60s".
Definition DefaultRunScriptTimeout : string := "300s".
Definition writeFilePreviousContentMaxBytes : Z := 4096.

Definition EffectiveToolTimeouts (configTimeout : string) : string * string :=
  (if decide (configTimeout = "") then DefaultToolTimeout else configTimeout,
   if decide (configTimeout = "") then DefaultRunScriptTimeout else configTimeout).

(** [strings.TrimRight(s, "\n")];
    [strings.Count(s, "\n")]. *)
Definition TrimNewlines : string -> string := trim_right (Ascii.eqb newline).
Fixpoint CountByte (s : string) (c : ascii) : Z :=
  match s with EmptyString => 0 | String a s => (if Ascii.eqb a c then 1 else 0) + CountByte s c end%Z.

Section sandbox_tools.
Context {S : Type} `{!Sandbox S}.

Definition execScriptWithEnv (script : string) (output : bool) (timeout toolName : string) (env : gmap string string)
    : ST S RunResult.t :=
  let! result := wrap "exec" (sandbox_Exec (ExecInput.mk "/bin/sh" ["-c"; script] env output timeout)) in
  if decide (RunResult.Status result = RunAbort) then fail (EMsg (toolName ++ " timed out after " ++ timeout))
  else ret result.
Definition execScript (script : string) (output : bool) (timeout toolName : string) : ST S RunResult.t :=
  execScriptWithEnv script output timeout toolName ∅.

Definition run_script (timeout script : string) : ST S runCommandOutput.t :=
  let! result := execScript script true timeout "run_script" in
  ret (runCommandOutput.of_result result).

Definition backslash_n : string := String backslash "n".
Definition backslash_t : string := String backslash "t".
Definition read_file_script (input : readFileInput.t) : string :=
  let offset := if (readFileInput.Offset input <=? 0)%Z then 1%Z else readFileInput.Offset input in
  let limit := if (readFileInput.Limit input <=? 0)%Z then 2000%Z else readFileInput.Limit input in
  let last := int64_wrap (int64_wrap (offset + limit) - 1) in
  "awk 'NR>=" ++ Itoa offset ++ " && NR<=" ++ Itoa last ++ " {printf " ++ String quote "" ++ "%6d" ++ backslash_t
  ++ "%s" ++ backslash_n ++ String quote "" ++ ", NR, $0}' " ++ readFileInput.Path input.
Definition read_file (timeout : string) (input : readFileInput.t) : ST S readFileOutput.t :=
  let! result := execScript (read_file_script input) true timeout "read_file" in
  if negb (RunResult.Code result =? 0)%Z then
    fail (EMsg ("read_file: " ++ readFileInput.Path input ++ " exited " ++ Itoa (RunResult.Code result) ++ ": "
                ++ RunResult.Stderr result))
  else ret (readFileOutput.mk (readFileInput.Path input) (RunResult.Stdout result)).

Definition dot_if_empty (path : string) : string := if decide (path = "") then "." else path.

Definition grep_args (input : grepInput.t) : list string :=
  (["-rn"] ++ (if grepInput.CaseInsensitive input then ["-i"] else [])
   ++ (if decide (grepInput.GlobFilter input = "") then [] else ["--include=" ++ grepInput.GlobFilter input]%string)
   ++ ["--"; grepInput.Pattern input; dot_if_empty (grepInput.Path input)])%list.
Definition grep_limit (input : grepInput.t) : Z :=
  if (grepInput.MaxResults input <=? 0)%Z then 100%Z else grepInput.MaxResults input.
Definition grep_script (input : grepInput.t) : string :=
  "grep " ++ ShellJoinArgs (grep_args input) ++ " | head -n " ++ Itoa (grep_limit input).
Definition grep_output (stdout : string) : grepOutput.t :=
  let matches := TrimNewlines stdout in
  grepOutput.mk matches (if decide (matches = "") then 0 else CountByte matches newline + 1)%Z.
Definition grep (timeout : string) (input : grepInput.t) : ST S grepOutput.t :=
  let! result := execScript (grep_script input) true timeout "grep" in
  if negb (RunResult.Code result =? 0)%Z && negb (RunResult.Code result =? 1)%Z then
    fail (EMsg ("grep exited " ++ Itoa (RunResult.Code result) ++ ": " ++ RunResult.Stderr result))
  else ret (grep_output (RunResult.Stdout result)).

Definition glob_output (stdout : string) : globOutput.t :=
  let output := TrimNewlines stdout in
  if decide (output = "") then globOutput.mk [] 0
  else let files := Split output newline in globOutput.mk files (Z.of_nat (length files)).
Definition glob (timeout : string) (input : globInput.t) : ST S globOutput.t :=
  let! result := execScript (BuildFindCommand (globInput.Pattern input) (dot_if_empty (globInput.Path input)))
                   true timeout "glob" in
  if negb (RunResult.Code result =? 0)%Z then
    fail (EMsg ("glob exited " ++ Itoa (RunResult.Code result) ++ ": " ++ RunResult.Stderr result))
  else ret (glob_output (RunResult.Stdout result)).

Definition write_script (input : writeFileInput.t) : string :=
  let path := writeFileInput.FilePath input in
  "mkdir -p " ++ String quote "" ++ "$(dirname '" ++ path ++ "')" ++ String quote "" ++ " && printf '%s' '"
  ++ StdEncode (bytes (writeFileInput.Content input)) ++ "' | base64 -d > '" ++ path ++ "'".
(** The previous content: none when it cannot be read or is empty. *)
Definition previous_content (read : result RunResult.t) : string * bool :=
  match read with
  | Ok r =>
      if bool_decide (RunResult.Code r = 0%Z) && negb (bool_decide (RunResult.Stdout r = "")) then
        ((TruncateStr (RunResult.Stdout r) writeFilePreviousContentMaxBytes).1, false)
      else ("", true)
  | Err _ => ("", true)
  end.
Definition write_file (timeout : string) (input : writeFileInput.t) : ST S writeFileOutput.t :=
  let! read := attempt (execScript ("cat '" ++ writeFileInput.FilePath input ++ "' 2>/dev/null") false timeout
                          "write_file_read") in
  let '(previousContent, isNew) := previous_content read in
  let! result := execScript (write_script input) true timeout "write_file" in
  if negb (RunResult.Code result =? 0)%Z then
    fail (EMsg ("write_file: exited " ++ Itoa (RunResult.Code result) ++ ": " ++ RunResult.Stderr result))
  else ret (writeFileOutput.mk (writeFileInput.FilePath input) true previousContent isNew).

Definition task_script (toolDef : ToolDef.t) : string :=
  match ToolDef.CommandArgs toolDef with
  | [] => ToolDef.CommandPath toolDef
  | args => ToolDef.CommandPath toolDef ++ " " ++ ShellJoinArgs args
  end.
Definition task_env (toolDef : ToolDef.t) (request : string) : gmap string string :=
  if decide (request = "") then ToolDef.Env toolDef else <["TOOL_REQUEST" := request]> (ToolDef.Env toolDef).
Definition task_tool (timeout : string) (toolDef : ToolDef.t) (request : string) : ST S runCommandOutput.t :=
  let! result := execScriptWithEnv (task_script toolDef) true timeout (ToolDef.Name toolDef)
                   (task_env toolDef request) in
  ret (runCommandOutput.of_result result).
End sandbox_tools.

(** ** Memories (memory.go) *)
Module AgentMemoryConfig.
Record t := mk { Enabled : bool; MaxRecall : Z; MaxContentBytes : Z }.
End AgentMemoryConfig.
Module recallMemoryInput.
Record t := mk { Query : string; Tags : list string; Limit : Z }.
End recallMemoryInput.
Module recalledMemory.
Record t := mk { Content : string; Tags : list string; CreatedAt : string; RecallCount : Z; LastRecalled : string }.
End recalledMemory.
Module saveMemoryInput.
Record t := mk { Content : string; Tags : list string }.
End saveMemoryInput.

Definition defaultMemoryMaxRecall : Z := 5.
Definition defaultMemoryMaxContentBytes : Z := 4096.

(** The fields of the configuration memory depends on. *)
Module MemoryScope.
Record t := mk { Memory : option AgentMemoryConfig.t; has_storage : bool; PipelineID : string; Name : string }.
End MemoryScope.

Definition memoryAvailable (config : MemoryScope.t) : bool :=
  match MemoryScope.Memory config with Some m => AgentMemoryConfig.Enabled m | None => false end
  && MemoryScope.has_storage config && negb (bool_decide (MemoryScope.PipelineID config = ""))
  && negb (bool_decide (MemoryScope.Name config = "")).

Definition positive_or (n default : Z) : Z := if (0 <? n)%Z then n else default.
Definition memoryLimits (config : MemoryScope.t) : Z * Z :=
  match MemoryScope.Memory config with
  | None => (defaultMemoryMaxRecall, defaultMemoryMaxContentBytes)
  | Some m => (positive_or (AgentMemoryConfig.MaxRecall m) defaultMemoryMaxRecall,
               positive_or (AgentMemoryConfig.MaxContentBytes m) defaultMemoryMaxContentBytes)
  end.

Section memory_tools.
Context `{!Sha256, !OrderBy, !Stamp}.
Context (fts : string -> memoryRow.t -> bool) (rank : string -> memoryRow.t -> Z).

Definition to_recalled (m : AgentMemory.t) : recalledMemory.t :=
  recalledMemory.mk (AgentMemory.Content m) (AgentMemory.Tags m) (stamp (AgentMemory.CreatedAt m))
    (AgentMemory.RecallCount m) (match AgentMemory.LastRecalled m with Some t => stamp t | None => "" end).

Definition recall_limit (config : MemoryScope.t) (input : recallMemoryInput.t) : Z :=
  let '(maxRecall, _) := memoryLimits config in
  let limit := recallMemoryInput.Limit input in
  if (limit <=? 0)%Z || (maxRecall <? limit)%Z then maxRecall else limit.

Definition recall_memory (config : MemoryScope.t) (input : recallMemoryInput.t) : ST db (list recalledMemory.t) :=
  if negb (memoryAvailable config) then fail (EMsg "agent memory not available")
  else
    let! memories := wrap "recall_memory" (RecallAgentMemories fts rank (MemoryScope.PipelineID config)
      (MemoryScope.Name config) (recallMemoryInput.Query input) (recallMemoryInput.Tags input)
      (recall_limit config input)) in
    ret (to_recalled <$> memories).

(** The answer says whether the content was already there. *)
Definition save_memory (config : MemoryScope.t) (input : saveMemoryInput.t) : ST db bool :=
  if negb (memoryAvailable config) then fail (EMsg "agent memory not available")
  else if decide (saveMemoryInput.Content input = "") then fail (EMsg "content is required")
  else
    let '(_, maxContentBytes) := memoryLimits config in
    if (maxContentBytes <? Z.of_nat (String.length (saveMemoryInput.Content input)))%Z then
      fail (EMsg ("content exceeds max " ++ Itoa maxContentBytes ++ " bytes"))
    else
      let! saved := wrap "save_memory" (SaveAgentMemory (MemoryScope.PipelineID config) (MemoryScope.Name config)
        (saveMemoryInput.Content input) (saveMemoryInput.Tags input)) in
      ret saved.2.
End memory_tools.

(** ** The model (model/model.go) *)
Module LLMConfig.
Record t := mk { Temperature : option Float64.t; MaxTokens : Z }.
End LLMConfig.
Module ThinkingConfig.
Record t := mk { Budget : Z; Level : string }.
End ThinkingConfig.

Definition DefaultBaseURLs : list (string * string) :=
  [("openrouter", "https://openrouter.ai/api/v1"); ("ollama", "http://localhost:11434/v1");
   ("openai", "https://api.openai.com/v1")].

Definition SplitModel (model : string) : string * string := default (model, model) (cut_at model "/").

Definition ResolveSecret (sm : option Manager) (pipelineID key : string) : string :=
  match sm with
  | None => ""
  | Some get =>
      let global := match get GlobalScope key with Ok val => val | Err _ => "" end in
      if decide (pipelineID = "") then global
      else match get (PipelineScope pipelineID) key with Ok val => val | Err _ => global end
  end.

(** The environment variable that stands in for a missing secret, and the key:
    [getenv] is [os.Getenv]. *)
Fixpoint ToUpper (s : string) : string :=
  match s with
  | EmptyString => ""
  | String a s =>
      String (if is_lower a then ascii_of_nat (nat_of_ascii a - 32) else a) (ToUpper s)
  end.
Definition api_key (getenv : string -> string) (sm : option Manager) (pipelineID provider : string) : string :=
  let apiKey := ResolveSecret sm pipelineID ("agent/" ++ provider) in
  if decide (apiKey = "") then getenv (ToUpper (ReplaceByte provider "-" "_") ++ "_API_KEY") else apiKey.

(** What the two constructors of a model are given. *)
Inductive LLM : Type :=
  | genaianthropic (APIKey ModelName : string) (MaxOutputTokens ThinkingBudgetTokens : Z)
  | genaiopenai (APIKey BaseURL ModelName : string).

Definition base_url (baseURLOverrides : list (string * string)) (provider : string) : string :=
  let override := default "" (get provider baseURLOverrides) in
  if decide (override = "") then default "" (get provider DefaultBaseURLs) else override.

Definition Resolve (provider modelName apiKey : string) (llmCfg : option LLMConfig.t)
    (thinkingCfg : option ThinkingConfig.t) (baseURLOverrides : list (string * string)) : result LLM :=
  if decide (provider = "anthropic") then
    let maxOutput := match llmCfg with
      | Some c => if (0 <? LLMConfig.MaxTokens c)%Z then LLMConfig.MaxTokens c else 0%Z | None => 0%Z end in
    match thinkingCfg with
    | Some t =>
        if (0 <? ThinkingConfig.Budget t)%Z then
          Ok (genaianthropic apiKey modelName (if decide (maxOutput = 0%Z) then 8192%Z else maxOutput)
                (ThinkingConfig.Budget t))
        else Ok (genaianthropic apiKey modelName maxOutput 0)
    | None => Ok (genaianthropic apiKey modelName maxOutput 0)
    end
  else
    let baseURL := base_url baseURLOverrides provider in
    if decide (baseURL = "") then
      Err (EMsg ("unknown provider " ++ q provider ++ ": set a base URL or use anthropic/openai/openrouter/ollama"))
    else Ok (genaiopenai apiKey baseURL modelName).

Definition HarmCategoryFromString (s : string) : string := "HARM_CATEGORY_" ++ ToUpper s.
Definition HarmThresholdFromString (s : string) : string := ToUpper s.

Module GenerateContentConfig.
Record t := mk {
  Temperature : option Float64.t; MaxOutputTokens : Z; Thinking : option (Z * string);
  SafetySettings : list (string * string) }.
End GenerateContentConfig.
(** [safety] in the order of the iteration. [None]: nil. *)
Definition BuildGenerateContentConfig (provider : string) (llmCfg : option LLMConfig.t)
    (thinkingCfg : option ThinkingConfig.t) (safety : list (string * string)) : option GenerateContentConfig.t :=
  let temperature := mbind LLMConfig.Temperature llmCfg in
  let maxTokens := match llmCfg with
    | Some c => if (0 <? LLMConfig.MaxTokens c)%Z then LLMConfig.MaxTokens c else 0%Z | None => 0%Z end in
  let thinking := match thinkingCfg with
    | Some t => if decide (provider = "anthropic") then None
                else Some (ThinkingConfig.Budget t, ToUpper (ThinkingConfig.Level t))
    | None => None end in
  let has := match temperature with Some _ => true | None => false end || (0 <? maxTokens)%Z
             || match thinking with Some _ => true | None => false end || negb (bool_decide (safety = [])) in
  if has then Some (GenerateContentConfig.mk temperature maxTokens thinking
                      (prod_map HarmCategoryFromString HarmThresholdFromString <$> safety))
  else None.

(** ** Facts *)
Lemma CountByte_Split s c : length (Split s c) = Datatypes.S (Z.to_nat (CountByte s c)) /\ (0 <= CountByte s c)%Z.
Proof.
  induction s as [|a s [IH Hs]]; [done|]. cbn [CountByte Split]. destruct (Ascii.eqb a c).
  - cbn [length]. rewrite IH. lia.
  - destruct (Split s c) as [|w ws]; [done|]. cbn [length] in *. lia.
Qed.

(** The count of a search is the number of its lines. *)
Lemma grep_output_counts stdout :
  let out := grep_output stdout in
  grepOutput.Matches out <> "" ->
  grepOutput.Count out = Z.of_nat (length (Split (grepOutput.Matches out) newline)).
Proof.
  unfold grep_output. cbn. intros Hm. rewrite decide_False by done.
  destruct (CountByte_Split (TrimNewlines stdout) newline) as [-> ?]. lia.
Qed.

Lemma chunk_head rest :
  sh_read Between (" | head -n " ++ rest) = app [Operator "|"; Word "head"; Word "-n"] <$> sh_read Between rest.
Proof.
  transitivity (end_word Between <$> (cons (Operator "|") <$> (end_word Between <$>
    (cons (Word "head") <$> (cons (Word "-n") <$> sh_read Between rest))))); [reflexivity|]. by destruct (sh_read Between rest).
Qed.

Lemma read_number n : (0 < n)%Z -> sh_read Between (Itoa n) = Some [Word (Itoa n)].
Proof.
  intros Hn. pose proof (Itoa_digits n ltac:(lia)) as Hd.
  rewrite <- (append_nil_r (Itoa n)) at 1. rewrite (read_ordinary (Itoa n) "" Between); [done|done| |].
  - eapply all_chars_impl; [|exact Hd]. intros a Ha. unfold ordinary. by rewrite Ha, orb_true_r.
  - intros He. pose proof (read_Itoa n ltac:(lia)) as Hr. rewrite He in Hr. cbn in Hr. lia.
Qed.

Lemma grep_limit_pos input : (0 < grep_limit input)%Z.
Proof. unfold grep_limit. destruct (Z.leb_spec (grepInput.MaxResults input) 0); lia. Qed.

(** A search reaches grep as it was asked for: the pattern and the path are one
    argument each, unless they begin with a dash and hold a character that
    means something to the shell. *)
Lemma grep_script_reads input :
  Forall passes (grep_args input) ->
  sh_tokens (grep_script input) =
    Some (Word "grep" :: (Word <$> grep_args input)
          ++ [Operator "|"; Word "head"; Word "-n"; Word (Itoa (grep_limit input))])%list.
Proof.
  intros Hp. unfold sh_tokens, grep_script.
  change ("grep " ++ ?t) with (String "g" (String "r" (String "e" (String "p" (String " " t))))).
  transitivity (cons (Word "grep") <$> sh_read Between
    (ShellJoinArgs (grep_args input) ++ " | head -n " ++ Itoa (grep_limit input))); [reflexivity|].
  rewrite ShellJoinArgs_then; [|done|done|by right; eexists].
  rewrite chunk_head, read_number by apply grep_limit_pos. done.
Qed.

(** *** Memories *)
Section memory_facts.
Context `{!Sha256, !OrderBy, !Stamp}.
Context (fts : string -> memoryRow.t -> bool) (rank : string -> memoryRow.t -> Z).

Lemma recall_rows_scoped pipelineID agentName query tags limit d kr :
  kr ∈ recall_rows fts rank pipelineID agentName query tags limit d ->
  kr.1.1 = (pipelineID, agentName) /\ db_memories d !! kr.1 = Some kr.2.
Proof.
  intros Hkr. assert (Hs : kr ∈ scope_rows pipelineID agentName d).
  { unfold recall_rows in Hkr. apply elem_of_take in Hkr as (i & Hi%list_elem_of_lookup_2 & _).
    revert Hi. case_decide; rewrite order_by_perm; [done|]. rewrite !list_elem_of_In, filter_In. tauto. }
  unfold scope_rows in Hs. apply list_elem_of_In, filter_In in Hs as [Hin Hf].
  apply andb_true_iff in Hf as [Hpid%bool_decide_eq_true Hname%bool_decide_eq_true].
  apply list_elem_of_In in Hin. destruct kr as [[[p a] h] r]. cbn in *. subst. split; [done|].
  by apply elem_of_map_to_list in Hin.
Qed.

(** What an agent can be reminded of: at most as many lessons as its
    configuration allows, each of them one that was saved for this agent in this
    pipeline; and looking for them changes nothing but how often they have been
    recalled. *)
Definition same_lesson (r r' : memoryRow.t) : Prop :=
  memoryRow.Content r = memoryRow.Content r' /\ memoryRow.Tags r = memoryRow.Tags r' /\
  memoryRow.ID r = memoryRow.ID r' /\ memoryRow.CreatedAt r = memoryRow.CreatedAt r'.
Definition lessons_kept (d d' : db) : Prop :=
  forall k, option_Forall2 same_lesson (db_memories d !! k) (db_memories d' !! k).

Lemma same_lesson_refl r : same_lesson r r.
Proof. done. Qed.
Lemma lessons_kept_refl d : lessons_kept d d.
Proof. intros k. destruct (db_memories d !! k); by constructor. Qed.

Lemma bump_kept now (ids : list Z) d : lessons_kept d
  (set_memories (fmap (fun r => if bool_decide (memoryRow.ID r ∈ ids) then bump now r else r)) d).
Proof.
  intros k. cbn. rewrite lookup_fmap. destruct (db_memories d !! k); cbn; constructor. by case_bool_decide.
Qed.

Lemma kept_trans d1 d2 d3 : lessons_kept d1 d2 -> lessons_kept d2 d3 -> lessons_kept d1 d3.
Proof.
  intros Hl Hr k. specialize (Hl k). specialize (Hr k).
  destruct Hl as [r1 r2 Hl|]; inversion Hr as [? r3 Hr'|]; subst; constructor.
  unfold same_lesson in *. destruct Hl as (? & ? & ? & ?), Hr' as (? & ? & ? & ?). split_and!; congruence.
Qed.

(** A statement that fails leaves the rows alone, and so does a read. *)
Lemma post_exec {A} (f : ST db A) d (Q : result A -> db -> Prop) :
  (forall d', db_memories d' = db_memories d -> post f d' Q) ->
  (forall e d', db_memories d' = db_memories d -> Q (Err e) d') -> post (exec f) d Q.
Proof. intros Hok Herr. unfold post, exec. destruct (db_faults d) as [|[] fs]; [by apply Hok|by apply Herr|by apply Hok]. Qed.

Lemma post_wrap {S A} msg (m : ST S A) s (Q : result A -> S -> Prop) :
  post m s (fun r s' => Q (match r with Ok a => Ok a | Err e => Err (EWrap msg e) end) s') -> post (wrap msg m) s Q.
Proof. unfold post, wrap. by destruct (m s) as [[a|e] s']. Qed.

Lemma kept_memories d d' : db_memories d' = db_memories d -> lessons_kept d d'.
Proof. intros He k. rewrite He. apply lessons_kept_refl. Qed.

Lemma RecallAgentMemories_post pipelineID agentName query_ tags limit d :
  post (RecallAgentMemories fts rank pipelineID agentName query_ tags limit) d (fun r d' =>
    lessons_kept d d' /\ forall found, r = Ok found -> exists rows now,
      found = (fun kr => memory_toStorage kr.1 (bump now kr.2)) <$> rows /\
      rows = recall_rows fts rank pipelineID agentName query_ tags
               (if (limit <=? 0)%Z then 5%Z else limit) d).
Proof.
  unfold RecallAgentMemories.
  case_decide; [split; [apply lessons_kept_refl|done]|]. case_decide; [split; [apply lessons_kept_refl|done]|].
  set (n := if (limit <=? 0)%Z then 5%Z else limit).
  assert (Hrows : forall d', db_memories d' = db_memories d ->
    recall_rows fts rank pipelineID agentName query_ tags n d'
    = recall_rows fts rank pipelineID agentName query_ tags n d).
  { intros d' He. unfold recall_rows, scope_rows. by rewrite He. }
  apply post_bind, post_wrap, post_exec; [|by intros e d' He; split; [apply kept_memories|]].
  intros d1 H1d. cbn. rewrite (Hrows d1 H1d). case_decide as Hnil.
  { split; [by apply kept_memories|]. intros found [= <-]. exists [], 0%Z. by rewrite Hnil. }
  apply post_bind. cbn. apply post_bind, post_wrap, post_exec.
  - intros d2 H2d. cbn. split.
    + eapply kept_trans; [by apply kept_memories; rewrite H2d|apply bump_kept].
    + intros found [= <-]. eexists _, _. done.
  - intros e d2 H2d. split; [apply kept_memories; congruence|done].
Qed.

Lemma recall_memory_scoped config input d :
  post (recall_memory fts rank config input) d (fun r d' =>
    lessons_kept d d' /\
    forall found, r = Ok found ->
      memoryAvailable config = true /\
      (Z.of_nat (length found) <= (memoryLimits config).1)%Z /\
      forall m, m ∈ found -> exists hash row,
        db_memories d !! (MemoryScope.PipelineID config, MemoryScope.Name config, hash) = Some row /\
        recalledMemory.Content m = memoryRow.Content row /\ recalledMemory.Tags m = memoryRow.Tags row).
Proof.
  unfold recall_memory. destruct (memoryAvailable config) eqn:Ha; cbn [negb].
  2: { split; [apply lessons_kept_refl|done]. }
  apply post_bind, post_wrap.
  eapply post_mono; [apply RecallAgentMemories_post|]. intros [ms|e] d' [Hk Hms]; [|done].
  split; [done|]. intros found [= <-]. split; [done|]. destruct (Hms ms eq_refl) as (rows & now & -> & Hrows).
  assert (Hlim : (0 < recall_limit config input <= (memoryLimits config).1)%Z).
  { assert (0 < (memoryLimits config).1)%Z.
    { unfold memoryLimits, positive_or. destruct (MemoryScope.Memory config); cbn; [|done].
      destruct (Z.ltb_spec 0 (AgentMemoryConfig.MaxRecall t)); done. }
    unfold recall_limit. destruct (memoryLimits config) as [maxRecall maxBytes]; cbn in *.
    destruct (Z.leb_spec (recallMemoryInput.Limit input) 0), (Z.ltb_spec maxRecall (recallMemoryInput.Limit input));
      cbn [orb]; lia. }
  split.
  - rewrite !length_fmap, Hrows. unfold recall_rows. rewrite length_take.
    destruct (Z.leb_spec (recall_limit config input) 0); lia.
  - intros m (am & -> & (kr & -> & Hkr)%list_elem_of_fmap)%list_elem_of_fmap.
    rewrite Hrows in Hkr. apply recall_rows_scoped in Hkr as [Hscope Hrow].
    destruct kr as [[[p a] hash] row]. cbn in Hscope, Hrow. injection Hscope as -> ->. by exists hash, row.
Qed.
End memory_facts.

(** ** What the tools and the model's set-up do where they should not *)

(** The comment says that an Anthropic model needs more output tokens than
    thinking tokens; the default does not see to it. *)
Lemma thinking_budget_over_limit :
  Resolve "anthropic" "claude" "key" None (Some (ThinkingConfig.mk 10000 "")) [] =
    Ok (genaianthropic "key" "claude" 8192 10000).
Proof. reflexivity. Qed.

(** An empty secret of the pipeline hides the global one. *)
Lemma empty_secret_hides_global :
  ResolveSecret (Some (fun scope _ => Ok (if decide (scope = GlobalScope) then "sk-1" else ""))) "p1" "agent/openai" = "".
Proof. reflexivity. Qed.

(** The last line of a read is computed in 64 bits: from a line near the end of
    them nothing is read. *)
Lemma read_window_wraps :
  read_file_script (readFileInput.mk "src/a.go" 9223372036854775807 10) =
    "awk 'NR>=9223372036854775807 && NR<=-9223372036854775800 {printf " ++ String quote "" ++ "%6d" ++ backslash_t
    ++ "%s" ++ backslash_n ++ String quote "" ++ ", NR, $0}' src/a.go".
Proof. vm_compute. reflexivity. Qed.
