(* ===== verification/BuildImage.v ===== *)
(** * Building an image (runtime/runner/image_build.go,
    runtime/backwards/build_image_handler.go)

    A build step becomes a privileged task that runs buildkit; its command is a
    shell script made of the step's parameters, and the digest is read back from
    what the script prints. The runner is a parameter, the handler a process
    like those of Steps.v. [build_command_reads]: whatever the parameters
    contain, the shell gives each of them to buildctl as one argument. *)
From S2P Require Import Prelude Storage Json Db GoStrings Paging Sql Tasks Config Procs Secrets Steps.
From S2P Require Import Containers TaskRunner Shell StepProps.
From Stdlib Require Import Ascii.
Open Scope string_scope.
#[local] Arguments String.append !_ _ / : simpl nomatch.

(** ** Paths *)
(** What is after the last slash, and what is before it with the slash. *)
Definition last_element (p : string) : string := default "" (last (Split p "/")).
Definition before_last (p : string) : string :=
  match Split p "/" with
  | [_] => ""
  | parts => Join (removelast parts) "/" ++ "/"
  end.
(** [path.Dir], [path.Base] and [path.Join] of two paths. *)
Definition path_Dir (p : string) : string := Clean (before_last p).
Definition path_Base (p : string) : string :=
  if decide (p = "") then "."
  else
    let trimmed := trim_right (fun a => Ascii.eqb a "/") p in
    if decide (trimmed = "") then "/" else last_element trimmed.
Definition path_Join (a b : string) : string :=
  if decide (a = "") then (if decide (b = "") then "" else Clean b)
  else if decide (b = "") then Clean a
  else Clean (a ++ "/" ++ b).

(** ** The build (image_build.go) *)
Definition BuildKitDefaultImage : string := "moby/buildkit:latest".

Module BuildImageRegistryAuth.
Record t := mk { Registry : string; Username : string; Password : string; Insecure : bool }.
End BuildImageRegistryAuth.
Module BuildImageInput.
Record t := mk {
  Name : string; Context_ : string; Dockerfile : string; Tag : string; Push : bool;
  BuildArgs : gmap string string; Target : string; Platforms : list string; Image : string;
  Inputs : gmap string Volume.t; Caches : gmap string Volume.t; Env : gmap string string;
  RegistryAuth : option BuildImageRegistryAuth.t; Timeout : string; Limits : ContainerLimits.t;
  StorageKey : string }.
End BuildImageInput.
Module BuildImageResult.
Record t := mk { Ref : string; Digest : string; Result_ : RunResult.t }.
End BuildImageResult.

Definition is_blank (a : ascii) : bool :=
  existsb (Ascii.eqb a) [" "%char; newline; ascii_of_nat 13; ascii_of_nat 9].

Definition validateBuildImageInput (input : BuildImageInput.t) : result unit :=
  if decide (BuildImageInput.Tag input = "") then Err (EMsg "build image: tag is required")
  else if decide (BuildImageInput.Context_ input = "") then Err (EMsg "build image: context is required")
  else if negb (all_chars (fun a => negb (is_blank a)) (BuildImageInput.Tag input)) then
    Err (EMsg ("build image: tag " ++ q (BuildImageInput.Tag input) ++ " contains whitespace"))
  else Ok tt.

Definition registryFromTag (tag : string) : string :=
  match cut_at tag "/" with
  | None => "docker.io"
  | Some (first, _) =>
      if Contains first "." || Contains first ":" || bool_decide (first = "localhost") then first else "docker.io"
  end.

Definition buildImageEnv (input : BuildImageInput.t) : gmap string string :=
  match BuildImageInput.RegistryAuth input with
  | None => BuildImageInput.Env input
  | Some auth =>
      let set k v env := if decide (v = "") then env else <[k := v]> env in
      set "POCKETCI_BUILDKIT_PASSWORD" (BuildImageRegistryAuth.Password auth)
        (set "POCKETCI_BUILDKIT_USERNAME" (BuildImageRegistryAuth.Username auth) (BuildImageInput.Env input))
  end.

(** A cache takes the place of an input with its name. *)
Definition buildImageMounts (input : BuildImageInput.t) : gmap string Volume.t :=
  BuildImageInput.Caches input ∪ BuildImageInput.Inputs input.

(** *** The script *)

Definition image_output (input : BuildImageInput.t) : string :=
  "type=image,name=" ++ BuildImageInput.Tag input ++ ",push=" ++ (if BuildImageInput.Push input then "true" else "false")
  ++ match BuildImageInput.RegistryAuth input with
     | Some auth => if BuildImageRegistryAuth.Insecure auth then ",registry.insecure=true" else ""
     | None => ""
     end.
Definition build_args (input : BuildImageInput.t) : list string :=
  (fun k => "build-arg:" ++ k ++ "=" ++ default "" (BuildImageInput.BuildArgs input !! k))
    <$> merge_sort String.le (map_to_list (BuildImageInput.BuildArgs input)).*1.

Definition build_parts (input : BuildImageInput.t) (contextPath dfDir dfName : string) : list string :=
  (["buildctl-daemonless.sh"; "build"; "--frontend"; "dockerfile.v0";
    "--local"; "context=" ++ shellQuote contextPath; "--local"; "dockerfile=" ++ shellQuote dfDir;
    "--opt"; "filename=" ++ shellQuote dfName; "--output"; shellQuote (image_output input)]%string
   ++ (if decide (BuildImageInput.Target input = "") then []
       else ["--opt"; "target=" ++ shellQuote (BuildImageInput.Target input)]%string)
   ++ mjoin ((fun plat => ["--opt"; "platform=" ++ shellQuote plat]%string) <$> BuildImageInput.Platforms input)
   ++ mjoin ((fun arg => ["--opt"; shellQuote arg]) <$> build_args input)
   ++ ["--metadata-file"; "/tmp/pocketci-buildkit-meta.json"])%list.

Definition dq : string := String quote "".
Definition has_credentials (input : BuildImageInput.t) : bool :=
  match BuildImageInput.RegistryAuth input with
  | Some auth => negb (bool_decide (BuildImageRegistryAuth.Username auth = "" /\ BuildImageRegistryAuth.Password auth = ""))
  | None => false
  end.
Definition login_script (registry : string) : string :=
  lines ["mkdir -p /root/.docker";
    "auth=$(printf '%s:%s' " ++ dq ++ "${POCKETCI_BUILDKIT_USERNAME:-}" ++ dq ++ " " ++ dq
      ++ "${POCKETCI_BUILDKIT_PASSWORD:-}" ++ dq ++ " | base64 | tr -d '" ++ String backslash "n')";
    "printf '{" ++ dq ++ "auths" ++ dq ++ ":{" ++ Quote registry ++ ":{" ++ dq ++ "auth" ++ dq ++ ":" ++ dq ++ "%s" ++ dq
      ++ "}}}" ++ String backslash "n' " ++ dq ++ "$auth" ++ dq ++ " > /root/.docker/config.json"].
Definition debug_script : string :=
  lines ["echo " ++ dq ++ "[debug] /var/lib/buildkit contents:" ++ dq
      ++ "; ls -la /var/lib/buildkit/ 2>/dev/null | head -20 || echo " ++ dq ++ "[debug] dir missing" ++ dq;
    "echo " ++ dq ++ "[debug] /var/lib/buildkit total size: $(du -sh /var/lib/buildkit 2>/dev/null || echo unknown)" ++ dq].
Definition metadata_script : string :=
  lines ["if [ -f /tmp/pocketci-buildkit-meta.json ]; then"; "  echo POCKETCI_IMAGE_METADATA_BEGIN";
    "  cat /tmp/pocketci-buildkit-meta.json"; "  echo"; "  echo POCKETCI_IMAGE_METADATA_END"; "fi"].

Definition build_command (input : BuildImageInput.t) (contextPath dfDir dfName : string) : string :=
  Join (build_parts input contextPath dfDir dfName) " ".
Definition buildImageScript (input : BuildImageInput.t) (contextPath dfDir dfName registry : string) : string :=
  lines ["set -eu"] ++ debug_script
  ++ (if negb (bool_decide (registry = "")) && has_credentials input then login_script registry else "")
  ++ lines [build_command input contextPath dfDir dfName] ++ metadata_script.

Definition context_path (input : BuildImageInput.t) : string :=
  let c := BuildImageInput.Context_ input in
  if HasPrefix c "/" || HasPrefix c "./" then c else "./" ++ c.
Definition dockerfile_of (input : BuildImageInput.t) : string :=
  if decide (BuildImageInput.Dockerfile input = "") then "Dockerfile" else BuildImageInput.Dockerfile input.
Definition registry_of (input : BuildImageInput.t) : string :=
  let registry := match BuildImageInput.RegistryAuth input with
    | Some auth => BuildImageRegistryAuth.Registry auth | None => "" end in
  if decide (registry = "") then registryFromTag (BuildImageInput.Tag input) else registry.

Definition buildImageRunInput (input : BuildImageInput.t) : RunInput.t :=
  let contextPath := context_path input in
  let dockerfile := dockerfile_of input in
  let script := buildImageScript input contextPath (path_Join contextPath (path_Dir dockerfile)) (path_Base dockerfile)
                  (registry_of input) in
  RunInput.mk "sh" ["-c"; script] "" (BuildImageInput.Limits input) (buildImageEnv input)
    (if decide (BuildImageInput.Image input = "") then BuildKitDefaultImage else BuildImageInput.Image input)
    (buildImageMounts input) (BuildImageInput.Name input) true "" "" (BuildImageInput.Timeout input)
    (BuildImageInput.StorageKey input).

(** *** The digest *)
Definition begin_mark : string := "POCKETCI_IMAGE_METADATA_BEGIN".
Definition end_mark : string := "POCKETCI_IMAGE_METADATA_END".
(** [\s] *)
Definition is_re_space (a : ascii) : bool :=
  existsb (Ascii.eqb a) [" "%char; ascii_of_nat 9; newline; ascii_of_nat 12; ascii_of_nat 13].
(** [\}\s*END] with the shortest text before it. *)
Fixpoint upto_end (s : string) : option string :=
  match s with
  | EmptyString => None
  | String a s =>
      if Ascii.eqb a "}" && HasPrefix (trim_left is_re_space s) end_mark then Some "}"
      else String a <$> upto_end s
  end.
(** The first place at which the pattern matches. *)
Fixpoint find_metadata (s : string) : option string :=
  let here := if HasPrefix s begin_mark then
      let body := trim_left is_re_space (TrimPrefix s begin_mark) in
      if HasPrefix body "{" then upto_end body else None
    else None in
  match here, s with
  | Some m, _ => Some m
  | None, String _ s => find_metadata s
  | None, EmptyString => None
  end.

Section build.
Context (parse_json : string -> result json).
Definition extractBuildImageDigest (stdout : string) : string :=
  match find_metadata stdout with
  | None => ""
  | Some text =>
      match parse_json text with
      | Ok j => match get_field "containerimage.digest" (fields j) with Some (JStr digest) => digest | _ => "" end
      | Err _ => ""
      end
  end.

(** The result comes with the error when the build fails. *)
Context {W : Type} (Run : RunInput.t -> W -> W * result RunResult.t).
Definition BuildImage_ (input : BuildImageInput.t) (w : W) : W * (option BuildImageResult.t * option err) :=
  match validateBuildImageInput input with
  | Err e => (w, (None, Some e))
  | Ok _ =>
      let '(w, ran) := Run (buildImageRunInput input) w in
      let tag := BuildImageInput.Tag input in
      (w, match ran with
          | Err e => (None, Some (EWrap ("build image " ++ q tag) e))
          | Ok result =>
              if decide (RunResult.Status result = RunAbort) then (Some (BuildImageResult.mk tag "" result), None)
              else if negb (RunResult.Code result =? 0)%Z then
                (Some (BuildImageResult.mk tag "" result),
                 Some (EMsg ("build image " ++ q tag ++ " failed with exit code " ++ Itoa (RunResult.Code result))))
              else (Some (BuildImageResult.mk tag (extractBuildImageDigest (RunResult.Stdout result)) result), None)
          end)
  end.
End build.

(** ** The handler (build_image_handler.go) *)
Module BuildImageRegistry.
Record t := mk { Hostname : string; Username : string; Password : string; Insecure : bool }.
End BuildImageRegistry.
(** All the fields of config.BuildImageConfig; the one of Config.v has those
    the other steps look at. *)
Module BuildImageStep.
Record t := mk {
  Name : string; Context_ : string; Dockerfile : string; Tag : string; Push : bool;
  BuildArgs : gmap string string; Target : string; Platforms : list string; Image : string;
  Inputs : list Input.t; Caches : list Cache.t; Env : gmap string string; Registry : option BuildImageRegistry.t;
  Timeout : Z; ContainerLimits : ContainerLimits.t; Limits : ContainerLimits.t }.
Definition EffectiveLimits (b : t) : ContainerLimits.t :=
  if limits_set (Limits b) then Limits b else ContainerLimits b.
End BuildImageStep.

Definition buildImageStepName (cfg : option BuildImageStep.t) : string :=
  match cfg with
  | None => "build_image"
  | Some cfg => if decide (BuildImageStep.Name cfg = "") then sanitizeCachePath (BuildImageStep.Tag cfg)
                else BuildImageStep.Name cfg
  end.
Definition buildImageRegistryFromConfig (reg : option BuildImageRegistry.t) : option BuildImageRegistryAuth.t :=
  (fun r => BuildImageRegistryAuth.mk (BuildImageRegistry.Hostname r) (BuildImageRegistry.Username r)
              (BuildImageRegistry.Password r) (BuildImageRegistry.Insecure r)) <$> reg.
(** The last mount of a path wins. *)
Definition mountsToVolumeResults (mounts : list Mount.t) : gmap string Volume.t :=
  foldl (fun m mount => <[Mount.Path mount := Volume.mk (Mount.Name mount) (Mount.Path mount)]> m) ∅ mounts.

Section handler.
Context {W : Type} `{!Driver W, !Format, !Namespace, !OrderBy, !JsonText}.
Context (RunID JobName PipelineID : string) (runCacheRestoreTask : string -> string -> proc (jobctx W) serr).
Context (parse_json : string -> result json) (Run : RunInput.t -> W -> W * result RunResult.t).
Notation process := (proc (jobctx W) serr).

Definition build_input (cfg : BuildImageStep.t) (name storageKey : string) (env : gmap string string)
    (inputMounts cacheMounts : list Mount.t) : BuildImageInput.t := {|
  BuildImageInput.Name := name; BuildImageInput.Context_ := BuildImageStep.Context_ cfg;
  BuildImageInput.Dockerfile := BuildImageStep.Dockerfile cfg; BuildImageInput.Tag := BuildImageStep.Tag cfg;
  BuildImageInput.Push := BuildImageStep.Push cfg; BuildImageInput.BuildArgs := BuildImageStep.BuildArgs cfg;
  BuildImageInput.Target := BuildImageStep.Target cfg; BuildImageInput.Platforms := BuildImageStep.Platforms cfg;
  BuildImageInput.Image := BuildImageStep.Image cfg;
  BuildImageInput.Inputs := mountsToVolumeResults inputMounts;
  BuildImageInput.Caches := mountsToVolumeResults cacheMounts;
  BuildImageInput.Env := env;
  BuildImageInput.RegistryAuth := buildImageRegistryFromConfig (BuildImageStep.Registry cfg);
  BuildImageInput.Timeout :=
    if (0 <? BuildImageStep.Timeout cfg)%Z then Duration_String (BuildImageStep.Timeout cfg) else "";
  BuildImageInput.Limits := BuildImageStep.EffectiveLimits cfg;
  BuildImageInput.StorageKey := storageKey |}.

Definition build_row (cfg : BuildImageStep.t) (startedAt t : time) (result : option BuildImageResult.t)
    (runErr : option err) : list (string * json) :=
  ([("status", JStr (match runErr with Some _ => "failure" | None => "success" end));
    ("started_at", JStr (RFC3339 startedAt)); ("elapsed", JStr (Duration_String (t - startedAt)));
    ("tag", JStr (BuildImageStep.Tag cfg))]
   ++ match result with Some r => [("digest", JStr (BuildImageResult.Digest r))] | None => [] end)%list.

Definition build_and_record (cfg : BuildImageStep.t) (name key : string) (startedAt : time) (input : BuildImageInput.t)
    : process :=
  on_world (BuildImage_ parse_json Run input) (fun '(result, runErr) =>
  Steps.now (fun t =>
  Set_ignored key (build_row cfg startedAt t result runErr)
    (PRet (match runErr with Some _ => Some (TaskFailedError name 1) | None => None end)))).

Definition build_image_Execute (cfg : option BuildImageStep.t) (pathPrefix : string) : process :=
  match cfg with
  | None => PRet (Some (SPlain (EMsg "build_image: missing config")))
  | Some cfg =>
      if decide (BuildImageStep.Tag cfg = "") then
        PRet (Some (TaskErroredError "build_image" (Some (SPlain (EMsg "tag is required")))))
      else if decide (BuildImageStep.Context_ cfg = "") then
        PRet (Some (TaskErroredError "build_image" (Some (SPlain (EMsg "context is required")))))
      else
        let name := buildImageStepName (Some cfg) in
        let key := BaseStorageKey RunID JobName ++ "/" ++ pathPrefix ++ "/build_image/" ++ name in
        appendExecutedTask name
        (act (resolve_known RunID ((fun i => (Input.Name i, Input.SizeGB i)) <$> BuildImageStep.Inputs cfg))
         (fun inputMounts =>
         resolveCaches runCacheRestoreTask name pathPrefix (BuildImageStep.Caches cfg) (fun cacheMounts =>
         Steps.now (fun startedAt =>
         Set_or "storage set pending" key
           [("status", JStr "pending"); ("started_at", JStr (RFC3339 startedAt))]
         (get_ctx (fun s => resolveEnvSecrets PipelineID (SecretsManager (jc_world s)) name (BuildImageStep.Env cfg))
          (fun env =>
          match env with
          | Err e => Set_ignored key [("status", JStr "failure")] (PRet (Some (TaskErroredError name (Some (SPlain e)))))
          | Ok env =>
              build_and_record cfg name key startedAt (build_input cfg name key env inputMounts cacheMounts)
          end))))))
  end.
End handler.

(** ** What the shell makes of the command *)

(** The arguments of buildctl. *)
Definition build_words (input : BuildImageInput.t) (contextPath dfDir dfName : string) : list string :=
  (["buildctl-daemonless.sh"; "build"; "--frontend"; "dockerfile.v0";
    "--local"; "context=" ++ contextPath; "--local"; "dockerfile=" ++ dfDir;
    "--opt"; "filename=" ++ dfName; "--output"; image_output input]%string
   ++ (if decide (BuildImageInput.Target input = "") then []
       else ["--opt"; "target=" ++ BuildImageInput.Target input]%string)
   ++ mjoin ((fun plat => ["--opt"; "platform=" ++ plat]%string) <$> BuildImageInput.Platforms input)
   ++ mjoin ((fun arg => ["--opt"; arg]) <$> build_args input)
   ++ ["--metadata-file"; "/tmp/pocketci-buildkit-meta.json"])%list.

#[local] Ltac plain := apply reads_ordinary; [done|vm_compute; reflexivity].
#[local] Ltac prefixed := apply reads_prefixed; [done|vm_compute; reflexivity].

Lemma Forall2_options {A} (f g : A -> string) l :
  (forall x, reads (f x) (g x)) ->
  Forall2 reads (mjoin ((fun x => ["--opt"; f x]) <$> l)) (mjoin ((fun x => ["--opt"; g x]) <$> l)).
Proof.
  intros Hfg. induction l as [|x l IH]; [constructor|]. cbn.
  constructor; [plain|]. constructor; [apply Hfg|exact IH].
Qed.

(** Whatever the parameters of a build contain, the shell gives each of
    them to buildctl as one argument: no context, Dockerfile, tag, target,
    platform or build argument can add an argument or a command. *)
Theorem build_command_reads input contextPath dfDir dfName :
  sh_tokens (build_command input contextPath dfDir dfName) =
    Some (Word <$> build_words input contextPath dfDir dfName).
Proof.
  apply Join_reads. unfold build_parts, build_words.
  apply Forall2_app; [repeat (constructor; [first [plain|prefixed|apply reads_quoted]|]); constructor|].
  apply Forall2_app; [destruct (decide _); [constructor|constructor; [plain|constructor; [prefixed|constructor]]]|].
  apply Forall2_app; [apply Forall2_options; intros plat; prefixed|].
  apply Forall2_app; [apply (Forall2_options shellQuote id); intros arg; apply reads_quoted|].
  repeat (constructor; [plain|]). constructor.
Qed.

(** ** What a build does where it should not *)
#[local] Existing Instances ex_driver ex_format.
#[local] Instance ex_build_namespace : Namespace := "ci".
#[local] Instance ex_build_text : JsonText := fun _ => "json".

Definition ex_build (tag : string) : BuildImageStep.t := {|
  BuildImageStep.Name := "image"; BuildImageStep.Context_ := "src"; BuildImageStep.Dockerfile := "";
  BuildImageStep.Tag := tag; BuildImageStep.Push := false; BuildImageStep.BuildArgs := {["V" := "it's; rm -rf /"]};
  BuildImageStep.Target := ""; BuildImageStep.Platforms := []; BuildImageStep.Image := "";
  BuildImageStep.Inputs := [Input.mk "src" 0]; BuildImageStep.Caches := []; BuildImageStep.Env := ∅;
  BuildImageStep.Registry := None; BuildImageStep.Timeout := 60000000000;
  BuildImageStep.ContainerLimits := ContainerLimits.zero; BuildImageStep.Limits := ContainerLimits.zero |}.

(** The process of the step, with the outcome of its container. *)
Definition ex_build_step (tag : string) (outcome : RunResult.t) : proc (jobctx unit) serr :=
  @build_image_Execute unit ex_driver ex_format _ _ "r1" "build" "p1" ex_restore
    (fun _ => Ok (JObj [("containerimage.digest", JStr "sha256:0")])) (fun _ w => (w, Ok outcome))
    (Some (ex_build tag)) "0".
Definition ex_build_outcome (tag : string) (outcome : RunResult.t) : option (option serr * option string) :=
  (exec (replicate 8 CAct) ex_job (ex_build_step tag outcome)) ≫= (fun c =>
    match c.2 with
    | PRet e => Some (e, row_status "/pipeline/r1/jobs/build/0/build_image/image" (jc_db c.1))
    | _ => None
    end).

(** A build that times out, or is stopped, ends as a success. *)
Lemma aborted_build_succeeds :
  ex_build_outcome "app:1" RunResult.aborted = Some (None, Some "success") /\
  ex_build_outcome "app:1" (RunResult.mk 1 "" "" RunComplete) = Some (Some (TaskFailedError "image" 1), Some "failure").
Proof. split; vm_compute; reflexivity. Qed.

(** A comma in a tag adds an attribute to the output: this tag is pushed
    although the step says not to. *)
Lemma tag_adds_attributes :
  validateBuildImageInput (build_input (ex_build "app,push=true") "image" "" ∅ [] []) = Ok tt /\
  image_output (build_input (ex_build "app,push=true") "image" "" ∅ [] []) =
    "type=image,name=app,push=true,push=false".
Proof. split; vm_compute; reflexivity. Qed.

(** The digest is read from what the script prints, whatever is around it. *)
Lemma digest_is_found :
  find_metadata (lines ["building"; begin_mark; "{a: {}}"; ""; end_mark; "done"]) = Some "{a: {}}".
Proof. vm_compute. reflexivity. Qed.
