(* ===== verification/CacheTasks.v ===== *)
(** * Cache tasks (runtime/runner/cache_op.go, runtime/backwards/cache_tasks.go)

    A cache volume is restored from an object store the first time a job sees
    it, and persisted when the job ends, each by a container that runs a shell
    script. The runner is a parameter; what of a job concerns its caches is
    behind a class. [cache_commands_read]: the commands of the scripts get the
    volume, the endpoint and the key as they are. *)
From S2P Require Import Prelude Storage Json Db GoStrings Paging Sql Tasks Config Procs Secrets Steps.
From S2P Require Import Containers TaskRunner Shell BuildImage.
From Stdlib Require Import Ascii.
Open Scope string_scope.
#[local] Arguments String.append !_ _ / : simpl nomatch.

(** ** The operation (cache_op.go) *)
Definition CacheOpDefaultImage : string := "peakcom/s5cmd:v2.3.0".

Inductive CacheOpDirection : Type := CacheRestoreDirection | CachePersistDirection | OtherDirection (d : string).
#[export] Instance CacheOpDirection_eq_dec : EqDecision CacheOpDirection.
Proof. solve_decision. Defined.
Definition direction_text (d : CacheOpDirection) : string :=
  match d with CacheRestoreDirection => "restore" | CachePersistDirection => "persist" | OtherDirection d => d end.

Module CacheOpInput.
Record t := mk {
  Name : string; Volume_ : Volume.t; MountName : string; Direction : CacheOpDirection; Endpoint : string;
  Bucket : string; Key : string; AccessKeyID : string; SecretAccessKey : string; Region : string; Image : string;
  Env : gmap string string; Limits : ContainerLimits.t; Timeout : string; StorageKey : string }.
Definition with_direction (d : CacheOpDirection) (i : t) : t :=
  mk (Name i) (Volume_ i) (MountName i) d (Endpoint i) (Bucket i) (Key i) (AccessKeyID i) (SecretAccessKey i)
    (Region i) (Image i) (Env i) (Limits i) (Timeout i) (StorageKey i).
End CacheOpInput.

Definition validateCacheOpInput (input : CacheOpInput.t) : result unit :=
  if decide (CacheOpInput.Name input = "") then Err (EMsg "cache op: name is required")
  else if decide (Volume.Name (CacheOpInput.Volume_ input) = "") then Err (EMsg "cache op: volume is required")
  else if decide (CacheOpInput.Bucket input = "") then Err (EMsg "cache op: bucket is required")
  else if decide (CacheOpInput.Key input = "") then Err (EMsg "cache op: key is required")
  else match CacheOpInput.Direction input with
       | OtherDirection d => Err (EMsg ("cache op: direction must be " ++ q "restore" ++ " or " ++ q "persist"
                                        ++ ", got " ++ q d))
       | _ => Ok tt
       end.

Definition cacheOpEnv (input : CacheOpInput.t) : gmap string string :=
  let set k v env := if decide (v = "") then env else <[k := v]> env in
  let region := if decide (CacheOpInput.Region input = "") then "us-east-1" else CacheOpInput.Region input in
  <["AWS_REGION" := region]> (<["AWS_DEFAULT_REGION" := region]>
    (set "AWS_SECRET_ACCESS_KEY" (CacheOpInput.SecretAccessKey input)
      (set "AWS_ACCESS_KEY_ID" (CacheOpInput.AccessKeyID input) (CacheOpInput.Env input)))).

(** *** The script *)
Definition endpoint_flag (input : CacheOpInput.t) : string :=
  if decide (CacheOpInput.Endpoint input = "") then ""
  else "--endpoint-url " ++ shellQuote (CacheOpInput.Endpoint input) ++ " ".
Definition s3Url (input : CacheOpInput.t) : string :=
  "s3://" ++ CacheOpInput.Bucket input ++ "/" ++ CacheOpInput.Key input.

Definition script_head : list string :=
  ["set -eu"; "set -o pipefail"; "if ! command -v s5cmd >/dev/null 2>&1 && [ -x /s5cmd ]; then";
   "  ln -sf /s5cmd /usr/local/bin/s5cmd"; "fi"; "if ! command -v zstd >/dev/null 2>&1; then";
   "  echo '[cache] installing zstd via apk'"; "  apk add --no-cache zstd 1>/dev/null"; "fi"].
Definition mkdir_command (mountPath : string) : string := "mkdir -p " ++ shellQuote mountPath.
Definition persist_command (input : CacheOpInput.t) (mountPath : string) : string :=
  "tar cf - -C " ++ shellQuote mountPath ++ " . | zstd -T0 | s5cmd " ++ endpoint_flag input
  ++ "pipe --concurrency 10 " ++ shellQuote (s3Url input).
Definition download_command (input : CacheOpInput.t) : string :=
  "s5cmd " ++ endpoint_flag input ++ "cp " ++ shellQuote (s3Url input) ++ " ./cache.tar.zst".
Definition extract_command (mountPath : string) : string :=
  "zstd -dc ./cache.tar.zst | tar xf - -C " ++ shellQuote mountPath.

Definition report_line (verb mountName url : string) : string :=
  "echo '[cache] " ++ verb ++ " " ++ mountName ++ (if decide (verb = "persisting") then " to " else " from ") ++ url ++ "'".
Definition cacheOpScript (input : CacheOpInput.t) (mountName : string) : string :=
  let mountPath := "./" ++ mountName in
  lines (script_head ++ match CacheOpInput.Direction input with
  | CachePersistDirection =>
      [mkdir_command mountPath; report_line "persisting" mountName (s3Url input);
       persist_command input mountPath; "echo '[cache] persist complete'"]%string
  | CacheRestoreDirection =>
      [mkdir_command mountPath; report_line "restoring" mountName (s3Url input);
       "if ! " ++ download_command input ++ " 2>/tmp/cache-stderr; then";
       "  rm -f ./cache.tar.zst";
       "  if grep -q -E 'Not Found|NoSuchKey|404|object not found' /tmp/cache-stderr 2>/dev/null; then";
       "    echo '[cache] miss (no prior data)'"; "    exit 1"; "  fi";
       "  echo '[cache] restore download failed:' 1>&2"; "  cat /tmp/cache-stderr 1>&2"; "  exit 2"; "fi";
       "if ! " ++ extract_command mountPath ++ " 2>/tmp/cache-extract-err; then";
       "  rm -rf " ++ shellQuote mountPath ++ "/* " ++ shellQuote mountPath ++ "/.[!.]* 2>/dev/null || true";
       "  rm -f ./cache.tar.zst";
       "  echo '[cache] restore extract failed (likely corrupted archive); volume cleared' 1>&2";
       "  cat /tmp/cache-extract-err 1>&2 || true"; "  exit 2"; "fi";
       "rm -f ./cache.tar.zst"; "echo '[cache] restore complete'"]%string
  | OtherDirection _ => []
  end)%list.

Definition cacheOpRunInput (input : CacheOpInput.t) : RunInput.t :=
  let mountName := if decide (CacheOpInput.MountName input = "") then Volume.Name (CacheOpInput.Volume_ input)
                   else CacheOpInput.MountName input in
  RunInput.mk "sh" ["-c"; cacheOpScript input mountName] "" (CacheOpInput.Limits input) (cacheOpEnv input)
    (if decide (CacheOpInput.Image input = "") then CacheOpDefaultImage else CacheOpInput.Image input)
    {[mountName := CacheOpInput.Volume_ input]} (CacheOpInput.Name input) false "" "" (CacheOpInput.Timeout input)
    (CacheOpInput.StorageKey input).

Section operation.
Context {W : Type} (Run : RunInput.t -> W -> W * result RunResult.t).

(** The result comes with the error of a failed command. *)
Definition runCacheOp (input : CacheOpInput.t) (w : W) : W * (option RunResult.t * option err) :=
  match validateCacheOpInput input with
  | Err e => (w, (None, Some e))
  | Ok _ =>
      let '(w, ran) := Run (cacheOpRunInput input) w in
      let what := "cache " ++ direction_text (CacheOpInput.Direction input) ++ " " ++ q (CacheOpInput.Name input) in
      (w, match ran with
          | Err e => (None, Some (EWrap what e))
          | Ok result =>
              if decide (RunResult.Status result = RunAbort) then (Some result, None)
              else if negb (RunResult.Code result =? 0)%Z then
                (Some result, Some (EMsg (what ++ " failed with exit code " ++ Itoa (RunResult.Code result))))
              else (Some result, None)
          end)
  end.
Definition CacheRestore (input : CacheOpInput.t) : W -> W * (option RunResult.t * option err) :=
  runCacheOp (CacheOpInput.with_direction CacheRestoreDirection input).
Definition CachePersist (input : CacheOpInput.t) : W -> W * (option RunResult.t * option err) :=
  runCacheOp (CacheOpInput.with_direction CachePersistDirection input).
End operation.

(** ** The tasks of a job (cache_tasks.go) *)
Module CacheS3Config.
Record t := mk {
  Endpoint : string; Region : string; Bucket : string; Prefix : string; AccessKeyID : string; SecretAccessKey : string }.
End CacheS3Config.

Definition cacheS3Key (cfg : CacheS3Config.t) (pipelineID jobName volumeName : string) : string :=
  Join ((if decide (CacheS3Config.Prefix cfg = "") then []
         else [trim (fun a => Ascii.eqb a "/") (CacheS3Config.Prefix cfg)])
        ++ [sanitizeCachePath pipelineID; sanitizeCachePath jobName; volumeName ++ ".tar.zst"]%string)%list "/".

Definition cacheOpDefaultMemory : Z := 1073741824.
Definition cacheOpDefaultCPU : Z := 4.

(** What of a job concerns its caches: the store, the volumes that were
    restored, the volumes that exist. *)
Class CacheState (W : Type) : Type := {
  cs_CacheS3 : W -> option CacheS3Config.t;
  cs_CacheRestored : W -> gset string;
  cs_set_restored : gset string -> W -> W;
  cs_CacheVolumes : W -> list string }.

Section tasks.
Context {W : Type} `{!CacheState W} (Run : RunInput.t -> W -> W * result RunResult.t).
Context (RunID JobName PipelineID : string).

Definition cacheOpInputBase (cfg : CacheS3Config.t) (volName storageKey : string) : CacheOpInput.t := {|
  CacheOpInput.Name := volName; CacheOpInput.Volume_ := Volume.mk volName ""; CacheOpInput.MountName := "";
  CacheOpInput.Direction := OtherDirection ""; CacheOpInput.Endpoint := CacheS3Config.Endpoint cfg;
  CacheOpInput.Bucket := CacheS3Config.Bucket cfg; CacheOpInput.Key := cacheS3Key cfg PipelineID JobName volName;
  CacheOpInput.AccessKeyID := CacheS3Config.AccessKeyID cfg;
  CacheOpInput.SecretAccessKey := CacheS3Config.SecretAccessKey cfg; CacheOpInput.Region := CacheS3Config.Region cfg;
  CacheOpInput.Image := ""; CacheOpInput.Env := ∅;
  CacheOpInput.Limits := ContainerLimits.mk cacheOpDefaultCPU "shared" cacheOpDefaultMemory;
  CacheOpInput.Timeout := ""; CacheOpInput.StorageKey := storageKey |}.

(** Errors are logged only. *)
Definition runCacheRestoreTask (volName stepPathPrefix : string) (w : W) : W :=
  match cs_CacheS3 w with
  | None => w
  | Some cfg =>
      if decide (volName ∈ cs_CacheRestored w) then w
      else
        let w := cs_set_restored ({[ volName ]} ∪ cs_CacheRestored w) w in
        let key := BaseStorageKey RunID JobName ++ "/" ++ stepPathPrefix ++ "/cache/restore/" ++ volName in
        (CacheRestore Run (cacheOpInputBase cfg volName key) w).1
  end.

Fixpoint persist_all (cfg : CacheS3Config.t) (volNames : list string) (w : W) : W :=
  match volNames with
  | [] => w
  | volName :: volNames =>
      let key := BaseStorageKey RunID JobName ++ "/cache/persist/" ++ volName in
      persist_all cfg volNames (CachePersist Run (cacheOpInputBase cfg volName key) w).1
  end.
Definition runCachePersistTasks (w : W) : W :=
  match cs_CacheS3 w with None => w | Some cfg => persist_all cfg (cs_CacheVolumes w) w end.
End tasks.

(** ** What the shell makes of the commands *)
Definition endpoint_words (input : CacheOpInput.t) : list token :=
  if decide (CacheOpInput.Endpoint input = "") then [] else [Word "--endpoint-url"; Word (CacheOpInput.Endpoint input)].
Definition endpoint_parts (input : CacheOpInput.t) : list string :=
  if decide (CacheOpInput.Endpoint input = "") then [] else ["--endpoint-url"; shellQuote (CacheOpInput.Endpoint input)].

#[local] Ltac part :=
  first [apply reads_yields, reads_ordinary; [done|vm_compute; reflexivity]
        |apply reads_yields, reads_quoted | apply operator_yields; reflexivity].
#[local] Ltac parts := repeat (constructor; [part|]); constructor.

Lemma endpoint_yields input : Forall2 yields (endpoint_parts input) (endpoint_words input).
Proof. unfold endpoint_parts, endpoint_words. destruct (decide _); parts. Qed.

(** Whatever the name of a volume, the endpoint, the bucket and the key
    contain, the commands that move a cache get each of them as one argument:
    none can add an argument or a command to them. *)
Theorem cache_commands_read input mountPath :
  sh_tokens (mkdir_command mountPath) = Some [Word "mkdir"; Word "-p"; Word mountPath] /\
  sh_tokens (persist_command input mountPath) = Some
    ([Word "tar"; Word "cf"; Word "-"; Word "-C"; Word mountPath; Word "."; Operator "|"; Word "zstd"; Word "-T0";
      Operator "|"; Word "s5cmd"] ++ endpoint_words input
     ++ [Word "pipe"; Word "--concurrency"; Word "10"; Word (s3Url input)])%list /\
  sh_tokens (download_command input) = Some
    (Word "s5cmd" :: endpoint_words input ++ [Word "cp"; Word (s3Url input); Word "./cache.tar.zst"])%list /\
  sh_tokens (extract_command mountPath) = Some
    [Word "zstd"; Word "-dc"; Word "./cache.tar.zst"; Operator "|"; Word "tar"; Word "xf"; Word "-"; Word "-C";
     Word mountPath].
Proof.
  split_and!.
  - apply (Join_yields ["mkdir"; "-p"; shellQuote mountPath]). parts.
  - replace (persist_command input mountPath) with (Join (["tar"; "cf"; "-"; "-C"; shellQuote mountPath; "."; "|";
      "zstd"; "-T0"; "|"; "s5cmd"] ++ endpoint_parts input ++ ["pipe"; "--concurrency"; "10"; shellQuote (s3Url input)])%list " ").
    { apply Join_yields. apply Forall2_app; [parts|]. apply Forall2_app; [apply endpoint_yields|parts]. }
    unfold persist_command, endpoint_flag, endpoint_parts. destruct (decide _); [reflexivity|].
    rewrite !append_assoc. reflexivity.
  - replace (download_command input) with (Join ("s5cmd" :: endpoint_parts input ++
      ["cp"; shellQuote (s3Url input); "./cache.tar.zst"])%list " ").
    { apply Join_yields. constructor; [part|]. apply Forall2_app; [apply endpoint_yields|parts]. }
    unfold download_command, endpoint_flag, endpoint_parts. destruct (decide _); [reflexivity|].
    rewrite !append_assoc. reflexivity.
  - apply (Join_yields ["zstd"; "-dc"; "./cache.tar.zst"; "|"; "tar"; "xf"; "-"; "-C"; shellQuote mountPath]). parts.
Qed.

(** ** What they do where they should not *)

(** The names of jobs and pipelines are made plain for the key: two jobs, or
    two pipelines, can have the same one, and overwrite each other's caches. *)
Lemma cache_keys_collide :
  cacheS3Key (CacheS3Config.mk "" "" "b" "" "" "") "p1" "build.arm" "cache-go" =
  cacheS3Key (CacheS3Config.mk "" "" "b" "" "" "") "p1" "build-arm" "cache-go".
Proof. vm_compute. reflexivity. Qed.

(** The line that reports progress quotes nothing: an apostrophe in the prefix
    or the bucket ends the text. *)
Lemma cache_report_runs :
  sh_tokens (report_line "persisting" "v" "s3://b/x'; rm -rf .; echo '/k") =
    Some [Word "echo"; Word "[cache] persisting v to s3://b/x"; Operator ";"; Word "rm"; Word "-rf"; Word ".";
          Operator ";"; Word "echo"; Word "/k"].
Proof. vm_compute. reflexivity. Qed.
