(* ===== verification/NotifyStep.v ===== *)
(** * Notifications (runtime/jsapi/notify.go, runtime/backwards/notify_handler.go)

    The notifier with its configurations, its secrets and its context, and the
    handler of a notify step as a process. Templates, the adapters and the
    services behind them are parameters. *)
From S2P Require Import Prelude Storage Json Db GoStrings Tasks Config Procs Secrets Steps StepProps.
Open Scope string_scope.

(** ** The notifier (notify.go) *)
Module NotifyConfig.
Record t := mk {
  Type_ : string; Token : string; Webhook : string; URL : string; Channels : list string;
  Headers : gmap string string; Method : string; Recipients : list string; SMTPHost : string; From_ : string;
  Username : string }.
Definition with_secrets (token webhook url username : string) (headers : gmap string string) (c : t) : t :=
  mk (Type_ c) token webhook url (Channels c) headers (Method c) (Recipients c) (SMTPHost c) (From_ c) username.
End NotifyConfig.

Module NotifyContext.
Record t := mk {
  PipelineName : string; JobName : string; BuildID : string; Status : string; StartTime : string; EndTime : string;
  Duration : string; Environment : gmap string string; TaskResults : list (string * json) }.
Definition running (jobName : string) (c : t) : t :=
  mk (PipelineName c) jobName (BuildID c) "running" (StartTime c) (EndTime c) (Duration c) (Environment c)
    (TaskResults c).
End NotifyContext.

Module Notifier.
Record t := mk {
  configs : gmap string NotifyConfig.t; adapters : gset string; context : NotifyContext.t; Disabled : bool;
  secretsManager : option Manager; pipelineID : string }.
Definition SetConfigs (configs : gmap string NotifyConfig.t) (n : t) : t :=
  mk configs (adapters n) (context n) (Disabled n) (secretsManager n) (pipelineID n).
Definition SetContext (context : NotifyContext.t) (n : t) : t :=
  mk (configs n) (adapters n) context (Disabled n) (secretsManager n) (pipelineID n).
Definition UpdateContext (updates : NotifyContext.t -> NotifyContext.t) (n : t) : t :=
  SetContext (updates (context n)) n.
Definition GetConfig (name : string) (n : t) : option NotifyConfig.t := configs n !! name.
Definition SetSecretsManager (mgr : option Manager) (pipelineID : string) (n : t) : t :=
  mk (configs n) (adapters n) (context n) (Disabled n) mgr pipelineID.
End Notifier.

Definition resolve_field (mgr : Manager) (pipelineID name value : string) : result string :=
  match ResolveSecretString (Some mgr) pipelineID value with
  | Err e => Err (EWrap ("notification field " ++ q name) e)
  | Ok (resolved, _) => Ok resolved
  end.
(** The headers, in the order of a map: the error of one of those that fail. *)
Definition resolve_headers (mgr : Manager) (pipelineID : string) (headers : gmap string string)
    : result (gmap string string) :=
  map_fold (fun k v acc =>
    result_bind acc (fun resolved =>
      match ResolveSecretString (Some mgr) pipelineID v with
      | Err e => Err (EWrap ("notification header " ++ q k) e)
      | Ok (val, _) => Ok (<[k := val]> resolved)
      end)) (Ok ∅) headers.
Definition resolveConfigSecrets (n : Notifier.t) (config : NotifyConfig.t) : result NotifyConfig.t :=
  match Notifier.secretsManager n with
  | None => Ok config
  | Some mgr =>
      let field := resolve_field mgr (Notifier.pipelineID n) in
      result_bind (field "token" (NotifyConfig.Token config)) (fun token =>
      result_bind (field "webhook" (NotifyConfig.Webhook config)) (fun webhook =>
      result_bind (field "url" (NotifyConfig.URL config)) (fun url =>
      result_bind (field "username" (NotifyConfig.Username config)) (fun username =>
      result_bind (resolve_headers mgr (Notifier.pipelineID n) (NotifyConfig.Headers config)) (fun headers =>
      Ok (NotifyConfig.with_secrets token webhook url username headers config))))))
  end.

(** Templates with their context; an adapter configured for a service; the
    delivery of a message. *)
Class NotifyServices (W : Type) : Type := {
  template_Parse : string -> result unit;
  template_Execute : string -> NotifyContext.t -> result string;
  adapter_Configure : NotifyConfig.t -> result unit;
  service_Send : NotifyConfig.t -> string -> W -> W * result unit }.

Section notifier.
Context {W : Type} `{!NotifyServices W}.

Definition RenderTemplate (templateStr : string) (n : Notifier.t) : result string :=
  match template_Parse templateStr with
  | Err e => Err (EWrap "could not parse template" e)
  | Ok _ =>
      match template_Execute templateStr (Notifier.context n) with
      | Err e => Err (EWrap "could not execute template" e)
      | Ok text => Ok text
      end
  end.

(** Everything up to the service: its configuration and the message. *)
Definition prepare_send (name message : string) (n : Notifier.t) : result (NotifyConfig.t * string) :=
  if Notifier.Disabled n then Err (EMsg "notifications feature is not enabled")
  else
    match Notifier.GetConfig name n with
    | None => Err (EMsg ("notification config " ++ q name ++ " not found"))
    | Some config =>
        match resolveConfigSecrets n config with
        | Err e => Err (EWrap ("could not resolve secrets for notification " ++ q name) e)
        | Ok config =>
            match RenderTemplate message n with
            | Err e => Err (EWrap "could not render message template" e)
            | Ok renderedMessage =>
                if decide (NotifyConfig.Type_ config ∈ Notifier.adapters n) then
                  match adapter_Configure config with
                  | Err e => Err (EWrap ("could not configure " ++ NotifyConfig.Type_ config ++ " service") e)
                  | Ok _ => Ok (config, renderedMessage)
                  end
                else Err (EMsg ("unsupported notification type: " ++ NotifyConfig.Type_ config))
            end
        end
    end.
Definition Send (name message : string) (n : Notifier.t) (w : W) : W * result unit :=
  match prepare_send name message n with
  | Err e => (w, Err e)
  | Ok (config, renderedMessage) =>
      let '(w, sent) := service_Send config renderedMessage w in
      (w, match sent with Err e => Err (EWrap "could not send notification" e) | Ok _ => Ok tt end)
  end.

(** In order, up to the first that fails. *)
Fixpoint send_all (names : list string) (message : string) (n : Notifier.t) (w : W) : W * result unit :=
  match names with
  | [] => (w, Ok tt)
  | name :: names =>
      match Send name message n w with
      | (w, Err e) => (w, Err e)
      | (w, Ok _) => send_all names message n w
      end
  end.
End notifier.

(** *** The bindings of the notifier (NotifyRuntime)

    A promise is resolved or rejected with its value; [None] is a send that
    nobody waits for. *)
Module NotifyResult.
Record t := mk { Success : bool; Error : string }.
End NotifyResult.
Inductive settled : Type := Resolved (v : NotifyResult.t) | Rejected (v : NotifyResult.t).
(** The fields of a partial update; [None] is a map that is not given. *)
Module PartialContext.
Record t := mk {
  PipelineName : string; JobName : string; BuildID : string; Status : string; StartTime : string; EndTime : string;
  Duration : string; Environment : option (gmap string string); TaskResults : option (list (string * json)) }.
End PartialContext.

Definition NewNotifier (names : gset string) : Notifier.t :=
  Notifier.mk ∅ names (NotifyContext.mk "" "" "" "" "" "" "" ∅ []) false None "".
Definition runtime_Configure (backends : option (gmap string NotifyConfig.t)) (context : option NotifyContext.t)
    (n : Notifier.t) : Notifier.t :=
  let n := match backends with Some b => Notifier.SetConfigs b n | None => n end in
  match context with Some c => Notifier.SetContext c n | None => n end.
Definition or_else (new old : string) : string := if decide (new = "") then old else new.
Definition apply_partial (partial : PartialContext.t) (c : NotifyContext.t) : NotifyContext.t :=
  NotifyContext.mk
    (or_else (PartialContext.PipelineName partial) (NotifyContext.PipelineName c))
    (or_else (PartialContext.JobName partial) (NotifyContext.JobName c))
    (or_else (PartialContext.BuildID partial) (NotifyContext.BuildID c))
    (or_else (PartialContext.Status partial) (NotifyContext.Status c))
    (NotifyContext.StartTime c)
    (or_else (PartialContext.EndTime partial) (NotifyContext.EndTime c))
    (or_else (PartialContext.Duration partial) (NotifyContext.Duration c))
    (default (NotifyContext.Environment c) (PartialContext.Environment partial))
    (default (NotifyContext.TaskResults c) (PartialContext.TaskResults partial)).
Definition runtime_UpdateContext (partial : PartialContext.t) : Notifier.t -> Notifier.t :=
  Notifier.UpdateContext (apply_partial partial).
Definition runtime_UpdateStatus (status : string) : Notifier.t -> Notifier.t :=
  Notifier.UpdateContext (fun c => NotifyContext.mk (NotifyContext.PipelineName c) (NotifyContext.JobName c)
    (NotifyContext.BuildID c) status (NotifyContext.StartTime c) (NotifyContext.EndTime c)
    (NotifyContext.Duration c) (NotifyContext.Environment c) (NotifyContext.TaskResults c)).
Definition runtime_UpdateJobName (jobName : string) : Notifier.t -> Notifier.t :=
  Notifier.UpdateContext (fun c => NotifyContext.mk (NotifyContext.PipelineName c) jobName
    (NotifyContext.BuildID c) (NotifyContext.Status c) (NotifyContext.StartTime c) (NotifyContext.EndTime c)
    (NotifyContext.Duration c) (NotifyContext.Environment c) (NotifyContext.TaskResults c)).

Section runtime.
Context {W : Type} `{!NotifyServices W} (error_text : err -> string).

(** The promise of an asynchronous send is resolved whatever becomes of it. *)
Definition runtime_Send (name message : string) (async : bool) (n : Notifier.t) (w : W) : W * settled :=
  let '(w, sent) := Send name message n w in
  (w, if async then Resolved (NotifyResult.mk true "")
      else match sent with
           | Err e => Rejected (NotifyResult.mk false (error_text e))
           | Ok _ => Resolved (NotifyResult.mk true "")
           end).
(** Every name is tried; the number of those that failed. *)
Fixpoint send_each (names : list string) (message : string) (n : Notifier.t) (w : W) : W * nat :=
  match names with
  | [] => (w, 0)
  | name :: names =>
      let '(w, sent) := Send name message n w in
      let '(w, errs) := send_each names message n w in
      (w, match sent with Err _ => S errs | Ok _ => errs end)
  end.
Definition runtime_SendMultiple (names : list string) (message : string) (async : bool) (n : Notifier.t) (w : W)
    : W * settled :=
  let '(w, errs) := send_each names message n w in
  (w, if negb (errs =? 0)%nat && negb async then
        Rejected (NotifyResult.mk false (Itoa (Z.of_nat errs) ++ " notification(s) failed"))
      else Resolved (NotifyResult.mk true "")).
End runtime.

(** ** The handler (notify_handler.go) *)
Class NotifyHost (W : Type) : Type := {
  nh_Notifier : W -> option Notifier.t;
  nh_set_notifier : Notifier.t -> W -> W;
  nh_loadRawBytesFromVolume : string -> W -> W * result string;
  (** The goroutines of an asynchronous step, one for each name. *)
  nh_spawn : list string -> string -> W -> W }.

Definition notifyIdentifier (step : Step) : string :=
  match NotifyNames step with [] => "unknown" | names => Join names "-" end.

Section handler.
Context {W : Type} `{!Driver W, !Format, !Namespace, !OrderBy, !JsonText, !NotifyServices W, !NotifyHost W}.
Context (RunID JobName : string).
Notation process := (proc (jobctx W) serr).

Definition notify_message (step : Step) (messageFile : string) (w : W) : W * result string :=
  if decide (messageFile = "") then (w, Ok (Message step)) else nh_loadRawBytesFromVolume messageFile w.

Definition notify_send (step : Step) (message : string) (w : W) : W * result unit :=
  if Async step then (nh_spawn (NotifyNames step) message w, Ok tt)
  else match nh_Notifier w with
       | None => (w, Ok tt)
       | Some n => send_all (NotifyNames step) message n w
       end.

Definition notify_Execute (step : Step) (messageFile pathPrefix : string) : process :=
  let identifier := notifyIdentifier step in
  let key := BaseStorageKey RunID JobName ++ "/" ++ pathPrefix ++ "/notify/" ++ identifier in
  let failed := PRet (Some (TaskFailedError ("notify/" ++ identifier) 1)) in
  let fail_with_row := Set_ignored key [("status", JStr "failure")] failed in
  Set_or "storage set pending" key [("status", JStr "pending")]
  (get_ctx (fun s => nh_Notifier (jc_world s)) (fun notifier =>
   match notifier with
   | None => fail_with_row
   | Some n =>
       on_world (fun w => (nh_set_notifier (Notifier.UpdateContext (NotifyContext.running JobName) n) w, tt)) (fun _ =>
       on_world (notify_message step messageFile) (fun message =>
       match message with
       | Err _ => fail_with_row
       | Ok message =>
           on_world (notify_send step message) (fun sent =>
           Set_ignored key
             [("status", JStr (statusFromErr (match sent with Err e => Some (SPlain e) | Ok _ => None end)))]
             (match sent with Err _ => failed | Ok _ => PRet None end))
       end))
   end)).
End handler.

(** ** Facts *)
Section facts.
Context {W : Type} `{!NotifyServices W}.

(** A notifier that is switched off reaches no service. *)
Lemma disabled_sends_nothing names message n w :
  Notifier.Disabled n = true -> (send_all names message n w).1 = w.
Proof. intros Hd. destruct names as [|name names]; [done|]. cbn. unfold Send, prepare_send. by rewrite Hd. Qed.

(** What a service is given: the configuration saved under the name, with its
    secrets, and the rendered message. *)
Lemma prepare_send_exact name message n config rendered :
  prepare_send name message n = Ok (config, rendered) ->
  exists saved, Notifier.GetConfig name n = Some saved /\ resolveConfigSecrets n saved = Ok config /\
    RenderTemplate message n = Ok rendered /\ NotifyConfig.Type_ config ∈ Notifier.adapters n.
Proof.
  unfold prepare_send. destruct (Notifier.Disabled n); [done|].
  destruct (Notifier.GetConfig name n) as [saved|] eqn:Hs; [|done].
  destruct (resolveConfigSecrets n saved) as [config'|e] eqn:Hr; [|done].
  destruct (RenderTemplate message n) as [rendered'|e]; [|done].
  destruct (decide _); [|done]. destruct (adapter_Configure config'); [|done].
  intros [= <- <-]. by exists saved.
Qed.
End facts.

(** ** What the step does where it should not *)

(** A partial update leaves the start time as it is, whatever it says. *)
Lemma start_time_is_kept partial n :
  NotifyContext.StartTime (Notifier.context (runtime_UpdateContext partial n)) =
  NotifyContext.StartTime (Notifier.context n).
Proof. reflexivity. Qed.
#[local] Existing Instances ex_driver ex_format.
#[local] Instance ex_notify_namespace : Namespace := "ci".
#[local] Instance ex_notify_text : JsonText := fun _ => "json".
#[local] Instance ex_services : NotifyServices unit := {|
  template_Parse := fun _ => Ok tt; template_Execute := fun text _ => Ok text;
  adapter_Configure := fun _ => Ok tt; service_Send := fun _ _ w => (w, Ok tt) |}.
(** The runners of YAML pipelines are made without a notifier. *)
#[local] Instance ex_yaml_host : NotifyHost unit := {|
  nh_Notifier := fun _ => None; nh_set_notifier := fun _ w => w;
  nh_loadRawBytesFromVolume := fun _ w => (w, Ok ""); nh_spawn := fun _ _ w => w |}.

Definition ex_notify_step : Step :=
  mkStep None "" 0 None None "" "" "" false "" "" "" None "" (GetConfig_ (agent_step "a" None)) "" None None
    (NString "slack") "done" false [] None None None None None [] [] 0 false [] false 0 0.

(** No constructor of a YAML pipeline's runner passes a notifier: each of its
    notify steps fails. *)
Lemma yaml_notify_fails :
  (exec (replicate 3 CAct) ex_job (notify_Execute "r1" "build" ex_notify_step "" "0")) ≫= (fun c =>
    match c.2 with
    | PRet e => Some (e, row_status "/pipeline/r1/jobs/build/0/notify/slack" (jc_db c.1))
    | _ => None
    end) = Some (Some (TaskFailedError "notify/slack" 1), Some "failure").
Proof. vm_compute. reflexivity. Qed.
