(* ===== verification/Agent.v ===== *)
(** * Running an agent (runtime/agent: agent.go, agent_helpers.go, context.go,
    subagent.go, system_prompt.go, validation.go, resultwriter.go)

    A run starts a sandbox, chooses a model, tells it what the run of the
    pipeline has done so far, lets it work within its limits (AgentLoop.v),
    checks its answer, asks once more when the answer will not do, and writes
    the result. The runner of the agents' framework, the sandbox, the store and
    the expression language are the host. [RunAgent_answers]: what the result of
    a run says. *)
From S2P Require Import Prelude Storage Json Db GoStrings Paging Tasks Config Secrets Schema TaskLookup.
From S2P Require Import Containers TaskRunner Shell AgentTools AgentLoop.
From Stdlib Require Import Ascii.
Open Scope string_scope.

(** ** Configuration *)
Module AgentContextTask.
Record t := mk { Name : string; Field : string }.
End AgentContextTask.
Module AgentContextFile.
Record t := mk { Path : string; MaxBytes : Z }.
End AgentContextFile.
Module AgentContext.
Record t := mk { Tasks : list AgentContextTask.t; Files : list AgentContextFile.t; MaxBytes : Z }.
End AgentContext.
Module AgentValidationConfig.
Record t := mk { Expr : string; Prompt : string }.
End AgentValidationConfig.

(** [Mounts] in the order of an iteration. *)
Module AgentConfig.
Record t := mk {
  Name : string; Prompt : string; Model : string; Image : string; Mounts : list (string * Volume.t);
  OutputVolumePath : string; LLM : option LLMConfig.t; Thinking : option ThinkingConfig.t;
  Safety : list (string * string); ContextGuard : option AgentContextGuardConfig.t;
  Limits : option AgentLimitsConfig.t; Context_ : option AgentContext.t;
  Validation : option AgentValidationConfig.t; Tools : list ToolDef.t;
  OutputSchema : option (list (string * value)); ToolTimeout : string; Memory : option AgentMemoryConfig.t;
  has_storage : bool; RunID : string; PipelineID : string; TriggeredBy : string;
  BaseURLOverrides : list (string * string) }.
End AgentConfig.
Definition memory_scope (config : AgentConfig.t) : MemoryScope.t :=
  MemoryScope.mk (AgentConfig.Memory config) (AgentConfig.has_storage config) (AgentConfig.PipelineID config)
    (AgentConfig.Name config).
(** The run whose tasks can be looked up. *)
Definition known_run (config : AgentConfig.t) : option string :=
  if AgentConfig.has_storage config && negb (bool_decide (AgentConfig.RunID config = "")) then
    Some (AgentConfig.RunID config)
  else None.

(** ** The system instruction *)
Definition line (s : string) : string := s ++ String newline "".
Definition line_if (value label : string) : string := if decide (value = "") then "" else line (label ++ value).

Definition instruction_environment (config : AgentConfig.t) : string :=
  line_if (AgentConfig.Image config) "Container image: " ++ line_if (AgentConfig.RunID config) "Pipeline run ID: "
  ++ line_if (AgentConfig.PipelineID config) "Pipeline ID: "
  ++ line_if (AgentConfig.TriggeredBy config) "Triggered by: ".
Definition instruction_section (name body : string) : string :=
  line "" ++ line ("<" ++ name ++ ">") ++ body ++ line ("</" ++ name ++ ">").
Definition instruction_tools : string := instruction_section "tools"
  (line "Use dedicated tools instead of run_script when possible:"
   ++ line "- To read files use read_file instead of cat, head, or sed."
   ++ line "- To search file contents use grep instead of shell grep or rg."
   ++ line "- To find files by name use glob instead of shell find or ls."
   ++ line "- To write files use write_file instead of shell redirection."
   ++ line "- Use run_script only for commands that have no dedicated tool (e.g. git).").
Definition instruction_efficiency (maxTurns : Z) : string := instruction_section "efficiency"
  (line "- Each tool call costs one LLM round-trip. Minimise calls."
   ++ line "- Combine sequential shell steps into one run_script call with 'set -e'."
   ++ line "- If context already contains the data you need, do not re-read it."
   ++ line ("- Budget: " ++ Itoa maxTurns ++ " turns.")).

(** [schemaJSON]: the schema's JSON text, [None] when it cannot be encoded. *)
Definition BuildSystemInstruction (schemaJSON : Schema -> option string) (config : AgentConfig.t) (maxTurns : Z)
    (expandedSchema : option Schema) : string :=
  let env := instruction_environment config in
  line "You are an AI agent operating inside a CI/CD pipeline run. Use the tools available to you to complete the task described in the user message."
  ++ (if decide (env = "") then "" else instruction_section "environment" env)
  ++ (match AgentConfig.Mounts config with
      | [] => ""
      | mounts => instruction_section "volumes" (Join ((fun m => line ("- " ++ m.1 ++ "/")) <$> mounts) "")
      end)
  ++ instruction_tools ++ instruction_efficiency maxTurns
  ++ match mbind schemaJSON expandedSchema with
     | None => ""
     | Some text => instruction_section "output_format"
         (line "Your FINAL response must be valid JSON conforming to this schema:" ++ line text
          ++ line "Do not include any text outside the JSON object.")
     end.

(** ** Where the result goes *)
Fixpoint mount_of (value : string) (mounts : list (string * Volume.t)) : option string :=
  match mounts with
  | [] => None
  | (mountPath, volume) :: mounts =>
      if bool_decide (Volume.Path volume = value \/ Volume.Name volume = value) then Some mountPath
      else mount_of value mounts
  end.
Definition ResolveOutputMountPath (config : AgentConfig.t) : string :=
  let value := TrimSpace (AgentConfig.OutputVolumePath config) in
  if decide (value = "") then ""
  else if bool_decide (value ∈ (AgentConfig.Mounts config).*1) then value
  else default value (mount_of value (AgentConfig.Mounts config)).

Definition composePrompt (base request : string) : string :=
  if decide (request = "") then base
  else if decide (base = "") then request
  else base ++ String newline (String newline ("Specific request: " ++ request)).

(** ** The host of a run

    What the run calls besides the runner: the sandbox's driver, the agents'
    framework (each constructor may fail), the store, the clock. *)
Inductive tool : Type :=
  | BaseTool (name : string)
  | TaskTool (toolDef : ToolDef.t)
  | SharedSubAgent (subCfg : ToolDef.t) (llm : LLM) (tools : list tool)
  | OwnSubAgent (subCfg : ToolDef.t) (subModel : string).

Class AgentEnv (S : Type) `{!AgentHost S} : Type := {
  env_sandbox :: Sandbox S;
  env_StartSandbox : string -> string -> list (string * Volume.t) -> ST S unit;     (* image, name, mounts *)
  env_Close : S -> S;
  env_NewTool : string -> ST S unit;
  env_NewAgent : string -> LLM -> string -> list tool -> option GenerateContentConfig.t -> ST S unit;
  env_NewSession : ST S unit;
  env_NewRunner : list AgentOption -> ST S unit;
  env_AppendEvent : Event.t -> ST S unit;                (* session.Service, with the session of the run *)
  env_uuid : ST S string;
  env_db : forall A, ST db A -> ST S A;
  env_elapsed : string -> S -> string }.                 (* helpers.FormatDuration of the time since *)
Arguments env_db {S _ _ A}.

Section run.
Context {S : Type} `{!AgentHost S, !AgentEnv S}.
Context `{!Namespace, !OrderBy, !JsonText, !SentinelText}.
Context (getenv : string -> string) (sm : option Manager).
Context (schemaJSON : Schema -> option string) (format_float : Float64.t -> string).
Context (unmarshal : string -> result value).
(** expr.Compile and expr.Run: of the text and the status. [None]: no boolean. *)
Context (expr_Compile : string -> result unit) (expr_Run : string -> string -> string -> result (option bool)).
Implicit Types r : running S.

Definition on_host {A} (m : ST S A) r : result A * running S :=
  let '(a, s) := m (host r) in (a, set_host s r).

(** *** Tools *)
Fixpoint new_tools (names : list string) : ST S (list tool) :=
  match names with
  | [] => ret []
  | name :: names =>
      wrap ("failed to create " ++ name ++ " tool") (env_NewTool name) ;;;
      let! tools := new_tools names in
      ret (BaseTool name :: tools)
  end.
Definition buildMemoryTools (config : AgentConfig.t) : ST S (list tool) :=
  if memoryAvailable (memory_scope config) then new_tools ["recall_memory"; "save_memory"] else ret [].
Definition buildSandboxTools (config : AgentConfig.t) : ST S (list tool) :=
  let! tools := new_tools ["run_script"; "read_file"; "grep"; "glob"; "write_file"; "list_tasks"; "get_task_result"] in
  let! memoryTools := buildMemoryTools config in
  ret (tools ++ memoryTools)%list.

Definition buildSubAgentTool (pipelineID : string) (subCfg : ToolDef.t) (parentConfig : AgentConfig.t) : ST S tool :=
  let subImage := if decide (ToolDef.Image subCfg = "") then AgentConfig.Image parentConfig else ToolDef.Image subCfg in
  let subModel := if decide (ToolDef.Model subCfg = "") then AgentConfig.Model parentConfig else ToolDef.Model subCfg in
  if decide (subImage <> AgentConfig.Image parentConfig) then
    env_NewTool (ToolDef.Name subCfg) ;;; ret (OwnSubAgent subCfg subModel)
  else
    let '(provider, modelName) := SplitModel subModel in
    match Resolve provider modelName (api_key getenv sm pipelineID provider) None None
            (AgentConfig.BaseURLOverrides parentConfig) with
    | Err e => fail (EWrap "resolve model" e)
    | Ok subLLM =>
        let! subTools := wrap "sub-agent tools" (buildSandboxTools parentConfig) in
        wrap "create sub-agent" (env_NewAgent (ToolDef.Name subCfg) subLLM (ToolDef.Prompt subCfg) subTools None) ;;;
        env_NewTool (ToolDef.Name subCfg) ;;;
        ret (SharedSubAgent subCfg subLLM subTools)
    end.

Fixpoint new_config_tools (pipelineID : string) (config : AgentConfig.t) (defs : list ToolDef.t) : ST S (list tool) :=
  match defs with
  | [] => ret []
  | toolDef :: defs =>
      let! tool := wrap ("agent: tool " ++ q (ToolDef.Name toolDef))
        (if ToolDef.IsTask toolDef then env_NewTool (ToolDef.Name toolDef) ;;; ret (TaskTool toolDef)
         else buildSubAgentTool pipelineID toolDef config) in
      let! tools := new_config_tools pipelineID config defs in
      ret (tool :: tools)
  end.
Definition buildAgentTools (pipelineID : string) (config : AgentConfig.t) : ST S (list tool) :=
  let! tools := wrap "agent" (buildSandboxTools config) in
  let! more := new_config_tools pipelineID config (AgentConfig.Tools config) in
  ret (tools ++ more)%list.

(** The runner is made a second time when there is a guard. *)
Definition setupAgentSession (config : AgentConfig.t) : ST S unit :=
  wrap "agent: failed to create session" env_NewSession ;;;
  wrap "agent: failed to create runner" (env_NewRunner []) ;;;
  match AgentConfig.ContextGuard config with
  | None => ret tt
  | Some cg =>
      match resolveContextGuardOptions (Some cg) with
      | Err e => fail (EWrap "agent" e)
      | Ok opts => wrap "agent: failed to create runner with context guard" (env_NewRunner opts)
      end
  end.

(** *** What the agent is told before its first turn *)
Definition seedSessionWithPrompt (config : AgentConfig.t) (now : string) r : running S :=
  let r := (on_host (let! userInvID := env_uuid in
    env_AppendEvent (Event.mk userInvID "user" None false None
      (Some [Part.mk None None (AgentConfig.Prompt config)]))) r).2 in
  AppendAuditEvent (AuditEvent.note now "user" "user_message" (AgentConfig.Prompt config)) r.

(** The roles of the two events and their flags are left out. *)
Definition injectSyntheticToolCall (agentName toolName : string) (args result : json) : ST S unit :=
  let! callID := env_uuid in
  let! invocationID := env_uuid in
  wrap "append synthetic call event" (env_AppendEvent (Event.mk invocationID agentName None false None
    (Some [Part.mk (Some (toolName, callID, args)) None ""]))) ;;;
  wrap "append synthetic response event" (env_AppendEvent (Event.mk invocationID agentName None false None
    (Some [Part.mk None (Some (toolName, callID, result)) ""]))).

Definition inject (config : AgentConfig.t) (now toolName : string) (args result : json) r : running S :=
  AppendAuditEvent (AuditEvent.mk now "" (AgentConfig.Name config) "pre_context" "" toolName "" (Some args)
                      (Some result) None)
    (on_host (injectSyntheticToolCall (AgentConfig.Name config) toolName args result) r).2.

Definition str_if (k v : string) : list (string * json) := if decide (v = "") then [] else [(k, JStr v)].
Definition TaskSummaryToMap (t : TaskSummary.t) : json :=
  JObj ([("name", JStr (TaskSummary.Name t)); ("index", JNum (TaskSummary.Index t));
         ("status", JStr (TaskSummary.Status t))]
        ++ str_if "started_at" (TaskSummary.StartedAt t) ++ str_if "elapsed" (TaskSummary.Elapsed t))%list.

(** A panic of the look-up ends the run with it. *)
Definition task_summaries (runID : string) r : result (list TaskSummary.t) * running S :=
  let '(found, r) := on_host (env_db (loadTaskSummaries runID)) r in
  (match found with
   | Ok (Some summaries) => Ok summaries
   | Ok None => Err (ESentinel SPanic)
   | Err e => Err e
   end, r).
Definition panicked {A} (a : result A) : bool := match a with Err (ESentinel SPanic) => true | _ => false end.

Definition injectListTasksContext (config : AgentConfig.t) (now : string) r : result unit * running S :=
  match known_run config with
  | None => (Ok tt, r)
  | Some runID =>
      let '(found, r) := task_summaries runID r in
      match found with
      | Ok [] => (Ok tt, r)
      | Ok summaries =>
          (Ok tt, inject config now "list_tasks" (JObj [])
                    (JObj [("tasks", JArr (TaskSummaryToMap <$> summaries))]) r)
      | Err e => (if panicked found then Err e else Ok tt, r)
      end
  end.

Definition limit_or_default (maxBytes : Z) : Z := if (maxBytes <=? 0)%Z then 4096%Z else maxBytes.

Definition task_context (runID : string) (matched : TaskSummary.t) (field : string) (maxBytes : Z) (payload : json)
    : json :=
  let fs := fields payload in
  let stdout := if decide (field = "stderr") then "" else string_field "stdout" fs in
  let stderr := if decide (field = "stdout") then "" else string_field "stderr" fs in
  JObj ([("name", JStr (TaskSummary.Name matched)); ("index", JNum (TaskSummary.Index matched))]
        ++ (match get_field "status" fs with Some (JStr s) => [("status", JStr s)] | _ => [] end)
        ++ (match get_field "code" fs with Some (JNum v) => [("exit_code", JNum v)] | _ => [] end)
        ++ str_if "stdout" (TruncateStr stdout maxBytes).1 ++ str_if "stderr" (TruncateStr stderr maxBytes).1)%list.

Definition buildTaskContextResult (runID : string) (summaries : list TaskSummary.t) (ct : AgentContextTask.t)
    (maxBytes : Z) r : option (json * json) * running S :=
  match FuzzyFindTask summaries (AgentContextTask.Name ct) with
  | None => (None, r)
  | Some matched =>
      let '(payload, r) := on_host (env_db (Get (task_key runID matched))) r in
      match payload with
      | Err _ => (None, r)
      | Ok payload =>
          (Some (task_context runID matched (AgentContextTask.Field ct) maxBytes payload,
                 JObj [("name", JStr (AgentContextTask.Name ct))]), r)
      end
  end.
Fixpoint inject_tasks (config : AgentConfig.t) (now runID : string) (summaries : list TaskSummary.t) (maxBytes : Z)
    (tasks : list AgentContextTask.t) r : running S :=
  match tasks with
  | [] => r
  | ct :: tasks =>
      let '(built, r) := buildTaskContextResult runID summaries ct maxBytes r in
      inject_tasks config now runID summaries maxBytes tasks
        (match built with
         | None => r
         | Some (result, args) => inject config now "get_task_result" args result r
         end)
  end.
Definition injectTaskContexts (config : AgentConfig.t) (now : string) r : result unit * running S :=
  match AgentConfig.Context_ config, known_run config with
  | Some ctx, Some runID =>
      let '(found, r) := task_summaries runID r in
      match found with
      | Err e => if panicked found then (Err e, r) else (Ok tt, inject_tasks config now runID []
                   (limit_or_default (AgentContext.MaxBytes ctx)) (AgentContext.Tasks ctx) r)
      | Ok summaries => (Ok tt, inject_tasks config now runID summaries
                           (limit_or_default (AgentContext.MaxBytes ctx)) (AgentContext.Tasks ctx) r)
      end
  | _, _ => (Ok tt, r)
  end.

Definition file_bytes (ctx : AgentContext.t) (cf : AgentContextFile.t) : Z :=
  if (AgentContextFile.MaxBytes cf <=? 0)%Z then limit_or_default (AgentContext.MaxBytes ctx)
  else AgentContextFile.MaxBytes cf.
Fixpoint inject_files (config : AgentConfig.t) (now : string) (ctx : AgentContext.t)
    (files : list AgentContextFile.t) r : running S :=
  match files with
  | [] => r
  | cf :: files =>
      let path := AgentContextFile.Path cf in
      let '(res, r) := on_host (sandbox_Exec (ExecInput.mk "/bin/sh" ["-c"; "cat " ++ path] ∅ false "")) r in
      inject_files config now ctx files
        (match res with
         | Ok res =>
             if (RunResult.Code res =? 0)%Z then
               let '(content, truncated) := TruncateStr (RunResult.Stdout res) (file_bytes ctx cf) in
               inject config now "read_file" (JObj [("path", JStr path)])
                 (JObj ([("path", JStr path); ("content", JStr content)]
                        ++ if truncated then [("truncated", JBool true)] else [])%list) r
             else r
         | Err _ => r
         end)
  end.
Definition injectFileContexts (config : AgentConfig.t) (now : string) r : running S :=
  match AgentConfig.Context_ config with
  | None => r
  | Some ctx => inject_files config now ctx (AgentContext.Files ctx) r
  end.

(** *** Checking the answer *)
Definition followUpText : string :=
  "You have not provided a final text response yet. Please produce your complete response now based on the information you have gathered.".
Definition schemaFollowUp (e : err) : string :=
  "Your response is not valid JSON conforming to the required schema. Error: " ++ Error e
  ++ ". Please output ONLY a valid JSON object matching the schema, with no surrounding text.".

Definition evalValidation (expression text status : string) : result bool :=
  match expr_Compile expression with
  | Err e => Err (EWrap "validation compile" e)
  | Ok _ =>
      match expr_Run expression text status with
      | Err e => Err (EWrap "validation eval" e)
      | Ok None => Err (EMsg "expected bool from expression")
      | Ok (Some b) => Ok b
      end
  end.

Definition system_note (type text : string) r : running S :=
  AppendAuditEvent (AuditEvent.note (host_now (host r)) "system" type text) r.

(** The second half: the expression. *)
Definition evaluate_expression (config : AgentConfig.t) (text : string) r : bool * string * running S :=
  match AgentConfig.Validation config with
  | None => (false, "", r)
  | Some v =>
      if decide (AgentValidationConfig.Expr v = "") then (false, "", r)
      else
        let prompt := if decide (AgentValidationConfig.Prompt v = "") then followUpText
                      else AgentValidationConfig.Prompt v in
        match evalValidation (AgentValidationConfig.Expr v) text "success" with
        | Err e => (true, prompt, system_note "validation_error" ("Validation expression error: " ++ Error e) r)
        | Ok true => (false, followUpText, r)
        | Ok false => (true, prompt, r)
        end
  end.
Definition evaluateValidation (config : AgentConfig.t) (expandedSchema : option Schema) r
    : bool * string * running S :=
  let text := resultBuilder r in
  if decide (text = "") then (true, followUpText, r)
  else
    match mbind (ValidateJSON format_float unmarshal text) expandedSchema with
    | Some e => (true, schemaFollowUp e, system_note "schema_validation_error" (schemaFollowUp e) r)
    | None => evaluate_expression config text r
    end.

(** [None]: out of fuel; there is no other bound. *)
Fixpoint follow_up_loop (fuel : nat) r : option (result unit * running S) :=
  match fuel with
  | O => None
  | Datatypes.S fuel =>
      let '(s, item) := host_next (host r) in
      let r := set_host s r in
      match item with
      | None => Some (Ok tt, r)
      | Some (inr e) => if errors_Is e SCanceled then Some (Ok tt, r) else Some (Err e, r)
      | Some (inl ev) =>
          let r := match Event.UsageMetadata ev with None => r | Some meta => accumulateUsage meta r end in
          follow_up_loop fuel (processEventParts ev None r)
      end
  end.

Definition runValidationFollowUp (fuel : nat) (config : AgentConfig.t) (expandedSchema : option Schema) r
    : option (result unit * running S) :=
  let '(needsFollowUp, text, r) := evaluateValidation config expandedSchema r in
  if negb needsFollowUp then Some (Ok tt, r)
  else
    let r := reset_result (system_note "validation_followup" text r) in
    follow_up_loop fuel (set_host (host_run (Some text) (host r)) r).

(** *** The result *)
Definition result_text (status finalText : string) : string :=
  json_text (JObj [("status", JStr status); ("text", JStr finalText)]).
(** The answer of the sandbox is never nil without an error. *)
Definition writeResultJSON (outputMountPath status finalText : string) r : result unit * running S :=
  let '(res, r) := on_host (sandbox_Exec (ExecInput.mk "sh"
    ["-c"; ResultJsonWriteCmd outputMountPath (result_text status finalText)] ∅ false "")) r in
  (match res with
   | Err e => Err (EWrap "agent: write result.json" e)
   | Ok res =>
       if negb (RunResult.Code res =? 0)%Z then
         Err (EMsg ("agent: write result.json failed with exit code " ++ Itoa (RunResult.Code res) ++ ": "
                    ++ RunResult.Stderr res))
       else Ok tt
   end, r).

Definition buildAgentResult (config : AgentConfig.t) (limitExceeded : bool) r : result AgentResult.t * running S :=
  let finalText := resultBuilder r in
  let status := if limitExceeded then "limit_exceeded" else "success" in
  let outputMountPath := ResolveOutputMountPath config in
  let '(written, r) :=
    if decide (outputMountPath = "") then (Ok tt, r) else writeResultJSON outputMountPath status finalText r in
  (match written with
   | Err e => Err e
   | Ok _ => Ok (AgentResult.mk finalText status (usage r) (auditEvents r))
   end, r).

(** *** The run *)

(** From the session on. *)
Definition converse (fuel : nat) (config : AgentConfig.t) (now : string) (maxTurns maxTotalTokens : Z)
    (expandedSchema : option Schema) r : option (result AgentResult.t * running S) :=
  let r := seedSessionWithPrompt config now r in
  let '(injected, r) := injectListTasksContext config now r in
  match injected with
  | Err e => Some (Err e, r)
  | Ok _ =>
      let '(injected, r) := injectTaskContexts config now r in
      match injected with
      | Err e => Some (Err e, r)
      | Ok _ =>
          match executeAgentLoop fuel maxTurns maxTotalTokens (injectFileContexts config now r) with
          | None => None
          | Some (Err e, r) => Some (Err e, r)
          | Some (Ok true, r) => Some (buildAgentResult config true r)
          | Some (Ok false, r) =>
              match runValidationFollowUp fuel config expandedSchema r with
              | None => None
              | Some (Err e, r) => Some (Err (EWrap "agent: follow-up run failed" e), r)
              | Some (Ok _, r) => Some (buildAgentResult config false r)
              end
          end
      end
  end.

(** From the sandbox on: what can fail before the session. *)
Definition prepare (pipelineID provider modelName apiKey : string) (config : AgentConfig.t) (maxTurns : Z)
    (expandedSchema : option Schema) : ST S unit :=
  match Resolve provider modelName apiKey (AgentConfig.LLM config) (AgentConfig.Thinking config)
          (AgentConfig.BaseURLOverrides config) with
  | Err e => fail (EWrap "agent" e)
  | Ok llmModel =>
      let! tools := buildAgentTools pipelineID config in
      wrap "agent: failed to create agent" (env_NewAgent (AgentConfig.Name config) llmModel
        (BuildSystemInstruction schemaJSON config maxTurns expandedSchema) tools
        (BuildGenerateContentConfig provider (AgentConfig.LLM config) (AgentConfig.Thinking config)
           (AgentConfig.Safety config))) ;;;
      setupAgentSession config
  end.

(** The sandbox is closed whatever happens. *)
Definition RunAgent (fuel : nat) (pipelineID : string) (config : AgentConfig.t) (s : S)
    : option (result AgentResult.t * S) :=
  let '(provider, modelName) := SplitModel (AgentConfig.Model config) in
  let apiKey := api_key getenv sm pipelineID provider in
  match env_StartSandbox (AgentConfig.Image config) (AgentConfig.Name config) (AgentConfig.Mounts config) s with
  | (Err e, s) => Some (Err (EWrap "agent: failed to start sandbox" e), s)
  | (Ok _, s) =>
      let '(maxTurns, maxTotalTokens) := EffectiveLimits (AgentConfig.Limits config) in
      let expandedSchema := ExpandOutputSchema (AgentConfig.OutputSchema config) in
      let '(prepared, s) := prepare pipelineID provider modelName apiKey config maxTurns expandedSchema s in
      match prepared with
      | Err e => Some (Err e, env_Close s)
      | Ok _ =>
          prod_map id (fun r => env_Close (host r)) <$>
            converse fuel config (host_now s) maxTurns maxTotalTokens expandedSchema
              (mkRunning "" "" AgentUsage.zero [] s)
      end
  end.
End run.

(** ** Sub-agents (subagent.go) *)

(** The JSON of an audit log and of a usage; empty fields are left out. *)
Definition usage_json (u : AgentUsage.t) : json :=
  JObj [("promptTokens", JNum (AgentUsage.PromptTokens u)); ("completionTokens", JNum (AgentUsage.CompletionTokens u));
        ("totalTokens", JNum (AgentUsage.TotalTokens u)); ("llmRequests", JNum (AgentUsage.LLMRequests u));
        ("toolCallCount", JNum (AgentUsage.ToolCallCount u))].
Definition audit_usage_json (u : AuditUsage.t) : json :=
  JObj [("promptTokens", JNum (AuditUsage.PromptTokens u)); ("completionTokens", JNum (AuditUsage.CompletionTokens u));
        ("totalTokens", JNum (AuditUsage.TotalTokens u))].
Definition json_if (k : string) (v : option json) : list (string * json) :=
  match v with Some (JObj (_ :: _) as v) => [(k, v)] | _ => [] end.
Definition event_json (e : AuditEvent.t) : json :=
  JObj (str_if "timestamp" (AuditEvent.Timestamp e) ++ str_if "invocationId" (AuditEvent.InvocationID e)
        ++ str_if "author" (AuditEvent.Author e) ++ [("type", JStr (AuditEvent.Type_ e))]
        ++ str_if "text" (AuditEvent.Text e) ++ str_if "toolName" (AuditEvent.ToolName e)
        ++ str_if "toolCallId" (AuditEvent.ToolCallID e) ++ json_if "toolArgs" (AuditEvent.ToolArgs e)
        ++ json_if "toolResult" (AuditEvent.ToolResult e)
        ++ json_if "usage" (audit_usage_json <$> AuditEvent.Usage e))%list.

Module callAgentOutput.
Record t := mk { Result_ : string; Status : string }.
End callAgentOutput.

(** A sub-agent in its parent's container reports to nobody. *)
Definition quiet {S} (h : AgentHost S) : AgentHost S := {|
  host_run := host_run; host_next := host_next; host_cancel := host_cancel; host_now := host_now;
  OnUsage := fun _ s => s; OnAuditEvent := fun _ s => s; OnOutput := fun _ _ s => s |}.

(** The row of a sub-agent. Of the tools of an agent these alone write rows, and
    each writes only its own. *)
Definition sub_agent_key (prefix name : string) : string := prefix ++ "/sub-agents/" ++ name ++ "/run".

Section sub_agents.
Context {S : Type} (h : AgentHost S) `{!AgentEnv S}.
Context `{!Namespace, !OrderBy, !JsonText, !SentinelText}.
Implicit Types r : running S.

Definition persistSubAgentProgress (subCfg : ToolDef.t) (parentConfig : AgentConfig.t) (status text startedAt : string) r
    : running S :=
  if bool_decide (ToolDef.StorageKeyPrefix subCfg = "") || negb (AgentConfig.has_storage parentConfig) then r
  else
    let storageKey := sub_agent_key (ToolDef.StorageKeyPrefix subCfg) (ToolDef.Name subCfg) in
    (on_host (env_db (Set_ storageKey (JObj
       [("status", JStr status); ("stdout", JStr text); ("usage", usage_json (usage r));
        ("audit_log", JArr (event_json <$> auditEvents r)); ("started_at", JStr startedAt);
        ("elapsed", JStr (env_elapsed startedAt (host r)))]))) r).2.

(** One pass of the sub-agent's runner. *)
Fixpoint sub_agent_loop (fuel : nat) (subCfg : ToolDef.t) (parentConfig : AgentConfig.t) (startedAt : string) r
    : option (result unit * running S) :=
  match fuel with
  | O => None
  | Datatypes.S fuel =>
      let '(s, item) := @host_next S h (host r) in
      let r := set_host s r in
      match item with
      | None => Some (Ok tt, r)
      | Some (inr e) => Some (Err e, r)
      | Some (inl ev) =>
          let r := match Event.UsageMetadata ev with
                   | None => r | Some meta => @accumulateUsage S (quiet h) meta r end in
          let r := @processEventParts S (quiet h) ev None r in
          let r := match Event.UsageMetadata ev with
                   | None => r
                   | Some _ => persistSubAgentProgress subCfg parentConfig "running" (textBuilder r) startedAt r
                   end in
          sub_agent_loop fuel subCfg parentConfig startedAt r
      end
  end.

Definition subFollowUp : string :=
  "You have completed your tool calls. Now provide your complete response summarizing your findings.".
(** An error ends it, unreported. *)
Definition runSubAgentFollowUp (fuel : nat) (subCfg : ToolDef.t) (parentConfig : AgentConfig.t) (startedAt : string) r
    : option (running S) :=
  snd <$> sub_agent_loop fuel subCfg parentConfig startedAt (set_host (@host_run S h (Some subFollowUp) (host r)) r).

Definition finish_sub_agent (subCfg : ToolDef.t) (parentConfig : AgentConfig.t) (startedAt : string) r
    : result callAgentOutput.t * running S :=
  let finalText := if decide (resultBuilder r = "") then textBuilder r else resultBuilder r in
  let status := if decide (finalText = "" /\ AgentUsage.ToolCallCount (usage r) = 0%Z
                           /\ AgentUsage.LLMRequests (usage r) = 0%Z) then "error" else "success" in
  (Ok (callAgentOutput.mk finalText status),
   persistSubAgentProgress subCfg parentConfig status finalText startedAt r).

Definition converse_sub_agent (fuel : nat) (subCfg : ToolDef.t) (parentConfig : AgentConfig.t)
    (startedAt prompt : string) (s : S) : option (result callAgentOutput.t * running S) :=
  let r := @AppendAuditEvent S (quiet h) (AuditEvent.note startedAt "user" "user_message" prompt)
             (mkRunning "" "" AgentUsage.zero [] s) in
  match sub_agent_loop fuel subCfg parentConfig startedAt (set_host (@host_run S h (Some prompt) (host r)) r) with
  | None => None
  | Some (Err e, r) => Some (Err (EWrap "sub-agent run" e), r)
  | Some (Ok _, r) =>
      let followed := if decide (resultBuilder r = "") then runSubAgentFollowUp fuel subCfg parentConfig startedAt r
                      else Some r in
      finish_sub_agent subCfg parentConfig startedAt <$> followed
  end.
Definition executeSharedSubAgent (fuel : nat) (subCfg : ToolDef.t) (parentConfig : AgentConfig.t) (request : string)
    (s : S) : option (result callAgentOutput.t * S) :=
  let prompt := composePrompt (ToolDef.Prompt subCfg) request in
  let startedAt := @host_now S h s in
  match (wrap "create session" env_NewSession ;;; wrap "create runner" (env_NewRunner [])) s with
  | (Err e, s) => Some (Err e, s)
  | (Ok _, s) => prod_map id host <$> converse_sub_agent fuel subCfg parentConfig startedAt prompt s
  end.

(** In its own container: an agent of its own, with neither limits nor tools
    of the configuration. *)
Definition call_agent_config (subCfg : ToolDef.t) (subModel request : string) (parent : AgentConfig.t) : AgentConfig.t :=
  {| AgentConfig.Name := ToolDef.Name subCfg; AgentConfig.Prompt := composePrompt (ToolDef.Prompt subCfg) request;
     AgentConfig.Model := subModel; AgentConfig.Image := ToolDef.Image subCfg;
     AgentConfig.Mounts := AgentConfig.Mounts parent; AgentConfig.OutputVolumePath := "";
     AgentConfig.LLM := None; AgentConfig.Thinking := None; AgentConfig.Safety := [];
     AgentConfig.ContextGuard := None; AgentConfig.Limits := None; AgentConfig.Context_ := None;
     AgentConfig.Validation := None; AgentConfig.Tools := []; AgentConfig.OutputSchema := None;
     AgentConfig.ToolTimeout := ""; AgentConfig.Memory := None;
     AgentConfig.has_storage := AgentConfig.has_storage parent; AgentConfig.RunID := AgentConfig.RunID parent;
     AgentConfig.PipelineID := AgentConfig.PipelineID parent; AgentConfig.TriggeredBy := AgentConfig.TriggeredBy parent;
     AgentConfig.BaseURLOverrides := [] |}.
End sub_agents.

(** A call of a sub-agent with a container of its own. *)
Definition call_agent {S} (h : AgentHost S) `{!AgentEnv S} `{!Namespace, !OrderBy, !JsonText, !SentinelText}
    getenv sm schemaJSON format_float unmarshal expr_Compile expr_Run (fuel : nat) (pipelineID : string)
    (subCfg : ToolDef.t) (subModel : string) (parentConfig : AgentConfig.t) (request : string) (s : S)
    : option (result callAgentOutput.t * S) :=
  let startedAt := host_now s in
  match RunAgent getenv sm schemaJSON format_float unmarshal expr_Compile expr_Run fuel pipelineID
          (call_agent_config subCfg subModel request parentConfig) s with
  | None => None
  | Some (Err e, s) => Some (Err e, s)
  | Some (Ok res, s) =>
      Some (Ok (callAgentOutput.mk (AgentResult.Text res) (AgentResult.Status res)),
            host (persistSubAgentProgress h subCfg parentConfig (AgentResult.Status res) (AgentResult.Text res) startedAt
                    (mkRunning "" "" (AgentResult.Usage res) (AgentResult.AuditLog res) s)))
  end.

(** ** What the result of a run says *)
Section facts.
Context {S : Type} `{!AgentHost S, !AgentEnv S}.
Context `{!Namespace, !OrderBy, !JsonText, !SentinelText}.
Context (getenv : string -> string) (sm : option Manager).
Context (schemaJSON : Schema -> option string) (format_float : Float64.t -> string).
Context (unmarshal : string -> result value).
Context (expr_Compile : string -> result unit) (expr_Run : string -> string -> string -> result (option bool)).
Implicit Types r : running S.

(** What is told before the first turn is not part of the answer. *)
Lemma explains_on_host {A} (m : ST S A) r : explains r -> explains (on_host m r).2.
Proof. intros Hx. unfold on_host. destruct (m (host r)) as [a s]. by apply explains_set_host. Qed.
Lemma explains_note ts author ty text r :
  silent (AuditEvent.note ts author ty text) -> explains r -> explains (AppendAuditEvent (AuditEvent.note ts author ty text) r).
Proof. apply explains_silent. Qed.
Lemma explains_inject config now toolName args res r : explains r -> explains (inject config now toolName args res r).
Proof. intros Hx. apply explains_silent; [other_type|by apply explains_on_host]. Qed.
Lemma explains_seed config now r : explains r -> explains (seedSessionWithPrompt config now r).
Proof. intros Hx. apply explains_silent; [other_type|by apply explains_on_host]. Qed.
Lemma explains_summaries runID r : explains r -> explains (task_summaries runID r).2.
Proof.
  intros Hx. unfold task_summaries. pose proof (explains_on_host (env_db (loadTaskSummaries runID)) r Hx) as Hy.
  by destruct (on_host _ r).
Qed.
Lemma explains_list_tasks config now r : explains r -> explains (injectListTasksContext config now r).2.
Proof.
  intros Hx. unfold injectListTasksContext. destruct (known_run config) as [runID|]; [|done].
  pose proof (explains_summaries runID r Hx) as Hy. destruct (task_summaries runID r) as [[[|t ts]|e] r1]; [done| |done].
  by apply explains_inject.
Qed.
Lemma explains_inject_tasks config now runID summaries maxBytes tasks : forall r,
  explains r -> explains (inject_tasks config now runID summaries maxBytes tasks r).
Proof.
  induction tasks as [|ct tasks IH]; intros r Hx; [done|]. cbn [inject_tasks].
  assert (Hy : explains (buildTaskContextResult runID summaries ct maxBytes r).2).
  { unfold buildTaskContextResult. destruct (FuzzyFindTask _ _) as [t|]; [|done].
    pose proof (explains_on_host (env_db (Get (task_key runID t))) r Hx) as Hz. by destruct (on_host _ r) as [[?|?] ?]. }
  destruct (buildTaskContextResult _ _ _ _ _) as [[[res args]|] r1]; apply IH; [by apply explains_inject|done].
Qed.
Lemma explains_task_contexts config now r : explains r -> explains (injectTaskContexts config now r).2.
Proof.
  intros Hx. unfold injectTaskContexts. destruct (AgentConfig.Context_ config) as [ctx|]; [|done].
  destruct (known_run config) as [runID|]; [|done]. pose proof (explains_summaries runID r Hx) as Hy.
  destruct (task_summaries runID r) as [found r1]. destruct found as [ts|e]; [by apply explains_inject_tasks|].
  destruct (panicked (Err e)); [done|by apply explains_inject_tasks].
Qed.
Lemma explains_inject_files config now ctx files : forall r,
  explains r -> explains (inject_files config now ctx files r).
Proof.
  induction files as [|cf files IH]; intros r Hx; [done|]. cbn [inject_files].
  set (m := sandbox_Exec _). pose proof (explains_on_host m r Hx) as Hy. destruct (on_host m r) as [[res|e] r1]; [|by apply IH].
  apply IH. destruct (RunResult.Code res =? 0)%Z; [|done]. destruct (TruncateStr _ _). by apply explains_inject.
Qed.
Lemma explains_file_contexts config now r : explains r -> explains (injectFileContexts config now r).
Proof. intros Hx. unfold injectFileContexts. destruct (AgentConfig.Context_ config); [by apply explains_inject_files|done]. Qed.

(** *** An accepted answer *)
Definition accepted (config : AgentConfig.t) (expandedSchema : option Schema) (text : string) : Prop :=
  text <> "" /\
  (forall s, expandedSchema = Some s -> exists v, unmarshal text = Ok v /\ conforms s v) /\
  (forall v, AgentConfig.Validation config = Some v -> AgentValidationConfig.Expr v <> "" ->
     expr_Compile (AgentValidationConfig.Expr v) = Ok tt /\
     expr_Run (AgentValidationConfig.Expr v) text "success" = Ok (Some true)).

Notation evaluate := (evaluateValidation format_float unmarshal expr_Compile expr_Run).

Lemma ValidateJSON_exact text sch :
  ValidateJSON format_float unmarshal text sch = None <-> exists v, unmarshal text = Ok v /\ conforms sch v.
Proof.
  unfold ValidateJSON. destruct (unmarshal text) as [v|e]; [|split; [done|by intros (? & ? & ?)]].
  rewrite validateValue_exact. split; [by exists v|by intros (? & [= <-] & ?)].
Qed.

(** The check neither changes the answer nor what it cost, and asks for no
    follow-up exactly when the answer is accepted. *)
Lemma evaluate_exact config expandedSchema r :
  let '(needs, _, r') := evaluate config expandedSchema r in
  (needs = false -> accepted config expandedSchema (resultBuilder r)) /\
  (accepted config expandedSchema (resultBuilder r) -> needs = false) /\ (explains r -> explains r').
Proof.
  unfold evaluateValidation, accepted. destruct (decide (resultBuilder r = "")) as [He|He]; [split_and!; [done|by intros [? _]|done]|].
  destruct (mbind (ValidateJSON format_float unmarshal (resultBuilder r)) expandedSchema) as [e|] eqn:Hv.
  { split; [done|]. split; [|intros Hx; apply explains_silent; [other_type|done]].
    intros (_ & Hs & _). destruct expandedSchema as [sch|]; [|done]. cbn in Hv.
    specialize (Hs sch eq_refl). apply ValidateJSON_exact in Hs. congruence. }
  assert (Hs : forall sch, expandedSchema = Some sch -> exists v, unmarshal (resultBuilder r) = Ok v /\ conforms sch v).
  { intros sch ->. by apply ValidateJSON_exact. }
  unfold evaluate_expression. destruct (AgentConfig.Validation config) as [v|]; [|by split_and!].
  destruct (decide (AgentValidationConfig.Expr v = "")) as [Hemp|Hemp].
  { split_and!; try done. intros _. split_and!; try done. intros v' [= <-] ?. done. }
  unfold evalValidation. destruct (expr_Compile (AgentValidationConfig.Expr v)) as [[]|e] eqn:Hc.
  - destruct (expr_Run _ _ _) as [[[]|]|e] eqn:Hr; cbn; split_and!; try done.
    + intros _. split_and!; try done. intros v' [= <-] _. done.
    + intros (_ & _ & Ha). destruct (Ha v eq_refl Hemp). congruence.
    + intros (_ & _ & Ha). destruct (Ha v eq_refl Hemp). congruence.
    + intros Hx. apply explains_silent; [other_type|done].
    + intros (_ & _ & Ha). destruct (Ha v eq_refl Hemp). congruence.
    + intros Hx. apply explains_silent; [other_type|done].
  - split; [done|]. split; [|intros Hx; apply explains_silent; [other_type|done]].
    intros (_ & _ & Ha). destruct (Ha v eq_refl Hemp). congruence.
Qed.

Lemma follow_up_facts fuel : forall r res r',
  follow_up_loop fuel r = Some (res, r') -> (explains r -> explains r') /\ grows r r'.
Proof.
  induction fuel as [|fuel IH]; intros r res r'; [done|]. cbn [follow_up_loop].
  destruct (host_next (host r)) as [s item].
  assert (Hs : (explains r -> explains (set_host s r)) /\ grows r (set_host s r)).
  { split; [apply explains_set_host|]. exists []. by rewrite app_nil_r. }
  destruct item as [[ev|e]|]; [|destruct (errors_Is e SCanceled); by intros [= _ <-]|by intros [= _ <-]].
  intros [Hx Hg]%IH. destruct Hs as [Hs1 Hs2].
  destruct (Event.UsageMetadata ev) as [meta|].
  - split; [intros ?; by apply Hx, explains_event, explains_accumulate, Hs1|].
    etransitivity; [exact Hs2|]. etransitivity; [apply (grows_accumulate meta)|]. etransitivity; [apply grows_event|done].
  - split; [intros ?; by apply Hx, explains_event, Hs1|].
    etransitivity; [exact Hs2|]. etransitivity; [apply grows_event|done].
Qed.

(** Asked once more, the agent starts its answer over. *)
Definition asked_again (log : list AuditEvent.t) : Prop :=
  exists e, e ∈ log /\ AuditEvent.Type_ e = "validation_followup".

Lemma explains_followup_note text r :
  explains r -> explains (reset_result (system_note "validation_followup" text r)).
Proof.
  intros Hx. eapply (explains_append r); [done|done| |done|cbn; by rewrite Z.add_0_r].
  cbn. by rewrite append_nil_r.
Qed.

Notation follow_up := (runValidationFollowUp format_float unmarshal expr_Compile expr_Run).

Lemma runValidationFollowUp_facts fuel config expandedSchema r r' :
  explains r -> follow_up fuel config expandedSchema r = Some (Ok tt, r') ->
  explains r' /\ (accepted config expandedSchema (resultBuilder r') \/ asked_again (auditEvents r')).
Proof.
  intros Hx. unfold runValidationFollowUp.
  pose proof (evaluate_exact config expandedSchema r) as He.
  assert (Hsame : resultBuilder (evaluate config expandedSchema r).2 = resultBuilder r).
  { unfold evaluateValidation, evaluate_expression. repeat case_match; done. }
  destruct (evaluate config expandedSchema r) as [[needs text] r1]. destruct He as (Hacc & _ & Hr1).
  cbn [snd] in Hsame. destruct needs; cbn [negb].
  - intros [Hx' Hg]%follow_up_facts. split; [by apply Hx', explains_set_host, explains_followup_note, Hr1|].
    right. exists (AuditEvent.note (host_now (host r1)) "system" "validation_followup" text).
    split; [|done]. destruct Hg as [l Hg]. rewrite Hg. apply elem_of_app. left.
    apply elem_of_app. right. by apply list_elem_of_singleton.
  - intros [= <-]. split; [by apply Hr1|]. left. rewrite Hsame. by apply Hacc.
Qed.

Lemma buildAgentResult_result config exceeded r res r' :
  buildAgentResult config exceeded r = (Ok res, r') ->
  AgentResult.Text res = resultBuilder r /\ AgentResult.Usage res = usage r /\
  AgentResult.AuditLog res = auditEvents r /\
  AgentResult.Status res = if exceeded then "limit_exceeded" else "success".
Proof.
  unfold buildAgentResult. destruct (decide _) as [_|_]; [by intros [= <- _]|].
  unfold writeResultJSON, on_host. destruct (sandbox_Exec _ _) as [res1 s]. destruct res1 as [res1|e]; [|done].
  destruct (negb _); [done|]. by intros [= <- _].
Qed.

(** What a result says. *)
Definition says (config : AgentConfig.t) (expandedSchema : option Schema) (res : AgentResult.t) : Prop :=
  let log := AgentResult.AuditLog res in
  AgentResult.Text res = explained_result log /\
  AgentUsage.ToolCallCount (AgentResult.Usage res) = explained_calls log /\
  (AgentResult.Status res = "limit_exceeded" /\
     (exists before e, log = (before ++ [e])%list /\ AuditEvent.Type_ e = "limit_warning") \/
   AgentResult.Status res = "success" /\
     (accepted config expandedSchema (AgentResult.Text res) \/ asked_again log)).

Lemma converse_says fuel config now maxTurns maxTotal expandedSchema r res r' :
  explains r ->
  converse format_float unmarshal expr_Compile expr_Run fuel config now maxTurns maxTotal expandedSchema r
    = Some (Ok res, r') ->
  says config expandedSchema res.
Proof.
  intros Hx. unfold converse.
  pose proof (explains_list_tasks config now _ (explains_seed config now r Hx)) as Hl.
  destruct (injectListTasksContext config now _) as [[[]|e] r1]; [|done]. cbn [snd] in Hl.
  pose proof (explains_task_contexts config now r1 Hl) as Ht.
  destruct (injectTaskContexts config now r1) as [[[]|e] r2]; [|done]. cbn [snd] in Ht.
  pose proof (explains_file_contexts config now r2 Ht) as Hf.
  destruct (executeAgentLoop fuel maxTurns maxTotal (injectFileContexts config now r2)) as [[out r3]|] eqn:Hrun; [|done].
  pose proof (executeAgentLoop_explains fuel maxTurns maxTotal _ out r3 Hf Hrun) as Hx3.
  unfold says. destruct out as [[]|e]; [| |done].
  - intros [= (Htext & Hu & Hlog & Hst)%buildAgentResult_result]. rewrite Htext, Hu, Hlog, Hst.
    split; [apply Hx3|]. split; [apply Hx3|]. left. split; [done|]. by apply (executeAgentLoop_ends_stopped fuel maxTurns maxTotal _ r3 Hrun).
  - destruct (runValidationFollowUp _ _ _ _ _ _ _ _) as [[[[]|e] r4]|] eqn:Hfu; [|done|done].
    destruct (runValidationFollowUp_facts fuel config expandedSchema r3 r4 Hx3 Hfu) as [Hx4 Hok].
    intros [= (Htext & Hu & Hlog & Hst)%buildAgentResult_result]. rewrite Htext, Hu, Hlog, Hst.
    split; [apply Hx4|]. split; [apply Hx4|]. by right.
Qed.

Lemma converse_log fuel config now maxTurns maxTotal expandedSchema r res r' :
  converse format_float unmarshal expr_Compile expr_Run fuel config now maxTurns maxTotal expandedSchema r
    = Some (Ok res, r') -> auditEvents r' = AgentResult.AuditLog res.
Proof.
  assert (Hb : forall exceeded r1, buildAgentResult config exceeded r1 = (Ok res, r') ->
    auditEvents r' = AgentResult.AuditLog res).
  { intros exceeded r1 Hb. pose proof (buildAgentResult_result config exceeded r1 res r' Hb) as (_ & _ & -> & _).
    revert Hb. unfold buildAgentResult. destruct (decide _); [by intros [= _ <-]|]. unfold writeResultJSON, on_host.
    destruct (sandbox_Exec _ _) as [res1 s]. destruct res1; [|done]. destruct (negb _); [done|]. by intros [= _ <-]. }
  unfold converse. destruct (injectListTasksContext _ _ _) as [[[]|e] r1]; [|done].
  destruct (injectTaskContexts _ _ _) as [[[]|e] r2]; [|done].
  destruct (executeAgentLoop _ _ _ _) as [[[[]|e] r3]|]; [| |done|done].
  - intros [= Hr]. by eapply Hb.
  - destruct (runValidationFollowUp _ _ _ _ _ _ _ _) as [[[[]|e] r4]|]; [|done|done]. intros [= Hr]. by eapply Hb.
Qed.

(** C27: what the result of an agent's run says. Its text is what the final
    answers in the audit log say and its count of tool calls is that of the
    log. Its status is limit_exceeded only when the log ends with the warning
    of a limit; otherwise it is success, and then the text conforms to the
    output schema and satisfies the validation expression, or the log shows
    that the agent was asked once more. *)
Theorem RunAgent_answers fuel pipelineID config s res s' :
  RunAgent getenv sm schemaJSON format_float unmarshal expr_Compile expr_Run fuel pipelineID config s
    = Some (Ok res, s') ->
  says config (ExpandOutputSchema (AgentConfig.OutputSchema config)) res.
Proof.
  unfold RunAgent. destruct (SplitModel (AgentConfig.Model config)) as [provider modelName].
  destruct (env_StartSandbox _ _ _ s) as [[[]|e] s1]; [|done].
  destruct (EffectiveLimits (AgentConfig.Limits config)) as [maxTurns maxTotal].
  destruct (prepare _ _ _ _ _ _ _ _ _ _ s1) as [[[]|e] s2]; [|done].
  destruct (converse _ _ _ _ _ _ _ _ _ _ _) as [[out r']|] eqn:Hc; [|done]. intros [= -> _].
  eapply converse_says; [|exact Hc]. by split.
Qed.
End facts.

(** ** What the callbacks are told

    [watch l s]: the host was told the events [l], in this order. Each callback
    and each call of the host keeps track of them; the store is only read. *)
Definition only_reads (d d' : db) : Prop := db_tasks d' = db_tasks d /\ (db_faults d = [] -> d' = d).
#[export] Instance only_reads_preorder : PreOrder only_reads.
Proof.
  unfold only_reads. split; [done|]. intros d1 d2 d3 [Ht1 Hx] [Ht2 Hy]. split; [congruence|].
  intros Hq. specialize (Hx Hq). subst d2. auto.
Qed.
Lemma reads_query {A} (f : db -> A) : preserves only_reads (query f).
Proof.
  intros d. split; [|intros Hq; by rewrite query_no_faults].
  unfold query, exec. by destruct (db_faults d) as [|[] fs].
Qed.
Lemma reads_Get `{!Namespace} key : preserves only_reads (Get key).
Proof.
  apply preserves_bind; [apply _|apply preserves_wrap, reads_query|]. intros [row|]; [apply preserves_ret|apply preserves_fail].
Qed.
Lemma reads_summaries `{!Namespace, !OrderBy, !JsonText} runID : preserves only_reads (loadTaskSummaries runID).
Proof.
  assert (Hall : forall key fields, preserves only_reads (GetAll key fields)) by (intros; apply preserves_wrap, reads_query).
  apply preserves_bind; [apply _|by apply preserves_wrap|]. intros legacy.
  apply preserves_bind; [apply _|by apply preserves_wrap|]. intros results. apply preserves_ret.
Qed.

Definition keeps_watch {S} (watch : list AuditEvent.t -> S -> Prop) (s s' : S) : Prop := forall l, watch l s -> watch l s'.
#[export] Instance keeps_watch_preorder {S} (watch : list AuditEvent.t -> S -> Prop) : PreOrder (keeps_watch watch).
Proof. unfold keeps_watch. split; [intros s l Hl; exact Hl|intros s1 s2 s3 ? ?; auto]. Qed.

Class Observer (S : Type) `{!AgentHost S, !AgentEnv S} : Type := {
  watch : list AuditEvent.t -> S -> Prop;
  watch_event : forall l e s, watch l s -> watch (l ++ [e]) (OnAuditEvent e s);
  watch_usage : forall u s, keeps_watch watch s (OnUsage u s);
  watch_output : forall stream data s, keeps_watch watch s (OnOutput stream data s);
  watch_run : forall msg s, keeps_watch watch s (host_run msg s);
  watch_next : forall s, keeps_watch watch s (host_next s).1;
  watch_cancel : forall s, keeps_watch watch s (host_cancel s);
  watch_close : forall s, keeps_watch watch s (env_Close s);
  watch_exec : forall input, preserves (keeps_watch watch) (sandbox_Exec input);
  watch_start : forall image name mounts, preserves (keeps_watch watch) (env_StartSandbox image name mounts);
  watch_tool : forall name, preserves (keeps_watch watch) (env_NewTool name);
  watch_agent : forall name llm text tools cfg, preserves (keeps_watch watch) (env_NewAgent name llm text tools cfg);
  watch_session : preserves (keeps_watch watch) env_NewSession;
  watch_runner : forall opts, preserves (keeps_watch watch) (env_NewRunner opts);
  watch_append : forall ev, preserves (keeps_watch watch) (env_AppendEvent ev);
  watch_uuid : preserves (keeps_watch watch) env_uuid;
  watch_db : forall A (m : ST db A), preserves only_reads m -> preserves (keeps_watch watch) (env_db m) }.

Section observed.
Context {S : Type} `{!AgentHost S, !AgentEnv S, !Observer S}.
Context `{!Namespace, !OrderBy, !JsonText, !SentinelText}.
Context (getenv : string -> string) (sm : option Manager).
Context (schemaJSON : Schema -> option string) (format_float : Float64.t -> string).
Context (unmarshal : string -> result value).
Context (expr_Compile : string -> result unit) (expr_Run : string -> string -> string -> result (option bool)).
Implicit Types r : running S.

Ltac quiet :=
  repeat first
    [ assumption | apply watch_exec | apply watch_start | apply watch_tool | apply watch_agent | apply watch_session
    | apply watch_runner | apply watch_append | apply watch_uuid | apply watch_db
    | apply preserves_ret; apply _ | apply preserves_fail; apply _
    | apply preserves_wrap | apply preserves_bind; [apply _| |intros ?]
    | match goal with Hq : forall _, preserves _ _ |- _ => apply Hq end ].

Definition agrees r : Prop := watch (auditEvents r) (host r).

Lemma agrees_host s r : keeps_watch watch (host r) s -> agrees r -> agrees (set_host s r).
Proof. intros Hs Hr. by apply Hs. Qed.
Lemma agrees_append e r : agrees r -> agrees (AppendAuditEvent e r).
Proof. apply watch_event. Qed.
Lemma agrees_on_host {A} (m : ST S A) r : preserves (keeps_watch watch) m -> agrees r -> agrees (on_host m r).2.
Proof. intros Hm Hr. unfold on_host. specialize (Hm (host r)). destruct (m (host r)) as [a s]. by apply agrees_host. Qed.
Lemma agrees_accumulate meta r : agrees r -> agrees (accumulateUsage meta r).
Proof. destruct meta as [[p c] t]. intros Hr. apply agrees_host; [apply watch_usage|done]. Qed.

Lemma agrees_parts ev ts parts : forall eu r, agrees r -> agrees (process_parts ev ts eu parts r).
Proof.
  induction parts as [|part parts IH]; intros eu r Hr; [done|]. cbn [process_parts].
  assert (Hc : agrees (process_call ev ts part r)).
  { unfold process_call. destruct (Part.FunctionCall part) as [[[name id] args]|]; [|done].
    apply agrees_host; [apply watch_usage|by apply agrees_append]. }
  assert (Hp : agrees (process_response ev ts part (process_call ev ts part r))).
  { unfold process_response. destruct (Part.FunctionResponse part) as [[[name id] args]|]; [by apply agrees_append|done]. }
  destruct (decide (Part.Text part = "")); apply IH; [done|].
  revert Hp. generalize (process_response ev ts part (process_call ev ts part r)). intros r1 Hp.
  unfold process_text, processTextOutput.
  assert (Ht : agrees (AppendAuditEvent (AuditEvent.mk ts (Event.InvocationID ev) (Event.Author ev)
      (if Event.IsFinalResponse ev then "model_final" else "model_text") (Part.Text part) "" "" None None eu)
      (mkRunning (textBuilder r1 ++ Part.Text part) (resultBuilder r1) (usage r1) (auditEvents r1)
         (OnOutput "stdout" (Part.Text part) (host r1))))).
  { apply agrees_append. by apply watch_output. }
  destruct (Event.IsFinalResponse ev); exact Ht.
Qed.
Lemma agrees_event ev eu r : agrees r -> agrees (processEventParts ev eu r).
Proof. intros Hr. unfold processEventParts. destruct (Event.Content ev); [by apply agrees_parts|done]. Qed.

Lemma agrees_next r : agrees r -> agrees (set_host (host_next (host r)).1 r).
Proof. intros Hr. apply agrees_host; [apply watch_next|done]. Qed.

Lemma agrees_limits turn maxTurns maxTotal warned r :
  agrees r -> agrees (checkAgentLimits turn maxTurns maxTotal warned r).2.
Proof.
  intros Hr. unfold checkAgentLimits. cbv zeta. destruct (_ && _); [by apply agrees_append|].
  destruct (negb warned && _); destruct (maxTurns <=? turn)%Z; cbn [snd]; repeat apply agrees_append; done.
Qed.

Lemma agrees_loop fuel maxTurns maxTotal : forall turn warned r res r',
  agrees r -> agent_loop fuel maxTurns maxTotal turn warned r = Some (res, r') -> agrees r'.
Proof.
  induction fuel as [|fuel IH]; intros turn warned r res r' Hr; [done|]. cbn [agent_loop].
  pose proof (agrees_next r Hr) as Hn. destruct (host_next (host r)) as [s item]. cbn [fst] in Hn.
  destruct item as [[ev|e]|]; [|destruct (errors_Is e SCanceled); by intros [= _ <-]|by intros [= _ <-]].
  destruct (Event.UsageMetadata ev) as [meta|]; [|by apply IH, agrees_event].
  pose proof (agrees_limits (turn + 1) maxTurns maxTotal warned _ (agrees_accumulate meta _ Hn)) as Hl.
  destruct (checkAgentLimits _ _ _ _ _) as [[exceeded warned'] r1]. cbn [snd] in Hl.
  destruct exceeded; [by intros [= _ <-]|]. by apply IH, agrees_event.
Qed.
Lemma executeAgentLoop_agrees fuel maxTurns maxTotal r res r' :
  agrees r -> executeAgentLoop fuel maxTurns maxTotal r = Some (res, r') -> agrees r'.
Proof.
  unfold executeAgentLoop. intros Hr. destruct (agent_loop _ _ _ _ _ _) as [[res1 r1]|] eqn:He; [|done].
  intros [= _ <-]. apply agrees_host; [apply watch_cancel|]. eapply agrees_loop; [|exact He].
  apply agrees_host; [apply watch_run|done].
Qed.
Lemma agrees_follow_up fuel : forall r res r',
  agrees r -> follow_up_loop fuel r = Some (res, r') -> agrees r'.
Proof.
  induction fuel as [|fuel IH]; intros r res r' Hr; [done|]. cbn [follow_up_loop].
  pose proof (agrees_next r Hr) as Hn. destruct (host_next (host r)) as [s item]. cbn [fst] in Hn.
  destruct item as [[ev|e]|]; [|destruct (errors_Is e SCanceled); by intros [= _ <-]|by intros [= _ <-]].
  apply IH, agrees_event. destruct (Event.UsageMetadata ev); [by apply agrees_accumulate|done].
Qed.

Lemma agrees_inject config now toolName args res r : agrees r -> agrees (inject config now toolName args res r).
Proof.
  intros Hr. apply agrees_append, agrees_on_host; [|done]. unfold injectSyntheticToolCall. quiet.
Qed.
Lemma agrees_seed config now r : agrees r -> agrees (seedSessionWithPrompt config now r).
Proof. intros Hr. apply agrees_append, agrees_on_host; [quiet|done]. Qed.
Lemma agrees_summaries runID r : agrees r -> agrees (task_summaries runID r).2.
Proof.
  intros Hr. unfold task_summaries. pose proof (agrees_on_host (env_db (loadTaskSummaries runID)) r) as Hy.
  destruct (on_host _ r). apply Hy; [apply watch_db, reads_summaries|done].
Qed.
Lemma agrees_list_tasks config now r : agrees r -> agrees (injectListTasksContext config now r).2.
Proof.
  intros Hr. unfold injectListTasksContext. destruct (known_run config) as [runID|]; [|done].
  pose proof (agrees_summaries runID r Hr) as Hy. destruct (task_summaries runID r) as [[[|t ts]|e] r1]; [done| |done].
  by apply agrees_inject.
Qed.
Lemma agrees_inject_tasks config now runID summaries maxBytes tasks : forall r,
  agrees r -> agrees (inject_tasks config now runID summaries maxBytes tasks r).
Proof.
  induction tasks as [|ct tasks IH]; intros r Hr; [done|]. cbn [inject_tasks].
  assert (Hy : agrees (buildTaskContextResult runID summaries ct maxBytes r).2).
  { unfold buildTaskContextResult. destruct (FuzzyFindTask _ _) as [t|]; [|done].
    pose proof (agrees_on_host (env_db (Get (task_key runID t))) r ltac:(apply watch_db, reads_Get) Hr) as Hz.
    by destruct (on_host _ r) as [[?|?] ?]. }
  destruct (buildTaskContextResult _ _ _ _ _) as [[[res args]|] r1]; apply IH; [by apply agrees_inject|done].
Qed.
Lemma agrees_task_contexts config now r : agrees r -> agrees (injectTaskContexts config now r).2.
Proof.
  intros Hr. unfold injectTaskContexts. destruct (AgentConfig.Context_ config) as [ctx|]; [|done].
  destruct (known_run config) as [runID|]; [|done]. pose proof (agrees_summaries runID r Hr) as Hy.
  destruct (task_summaries runID r) as [found r1]. destruct found as [ts|e]; [by apply agrees_inject_tasks|].
  destruct (panicked (Err e)); [done|by apply agrees_inject_tasks].
Qed.
Lemma agrees_inject_files config now ctx files : forall r,
  agrees r -> agrees (inject_files config now ctx files r).
Proof.
  induction files as [|cf files IH]; intros r Hr; [done|]. cbn [inject_files].
  set (m := sandbox_Exec _). pose proof (agrees_on_host m r (watch_exec _) Hr) as Hy.
  destruct (on_host m r) as [[res|e] r1]; [|by apply IH].
  apply IH. destruct (RunResult.Code res =? 0)%Z; [|done]. destruct (TruncateStr _ _). by apply agrees_inject.
Qed.

Lemma agrees_evaluate config expandedSchema r :
  agrees r -> agrees (evaluateValidation format_float unmarshal expr_Compile expr_Run config expandedSchema r).2.
Proof.
  intros Hr. unfold evaluateValidation, evaluate_expression. repeat case_match; try done; by apply agrees_append.
Qed.
Lemma agrees_validation fuel config expandedSchema r res r' :
  agrees r -> runValidationFollowUp format_float unmarshal expr_Compile expr_Run fuel config expandedSchema r
    = Some (res, r') -> agrees r'.
Proof.
  intros Hr. unfold runValidationFollowUp. pose proof (agrees_evaluate config expandedSchema r Hr) as He.
  destruct (evaluateValidation _ _ _ _ _ _ _) as [[needs text] r1]. cbn [snd] in He.
  destruct needs; cbn [negb]; [|by intros [= _ <-]]. apply agrees_follow_up.
  apply agrees_host; [apply watch_run|]. by apply (agrees_append (AuditEvent.note (host_now (host r1)) "system" "validation_followup" text) r1).
Qed.
Lemma agrees_result config exceeded r res r' :
  agrees r -> buildAgentResult config exceeded r = (res, r') -> agrees r'.
Proof.
  intros Hr. unfold buildAgentResult. destruct (decide _) as [_|_]; [by intros [= _ <-]|]. unfold writeResultJSON.
  set (m := sandbox_Exec _). pose proof (agrees_on_host m r (watch_exec _) Hr) as Hy.
  destruct (on_host m r) as [res1 r1]. by intros [= _ <-].
Qed.

Lemma converse_agrees fuel config now maxTurns maxTotal expandedSchema r res r' :
  agrees r ->
  converse format_float unmarshal expr_Compile expr_Run fuel config now maxTurns maxTotal expandedSchema r
    = Some (res, r') -> agrees r'.
Proof.
  intros Hr. unfold converse.
  pose proof (agrees_list_tasks config now _ (agrees_seed config now r Hr)) as Hl.
  destruct (injectListTasksContext config now _) as [[[]|e] r1]; [|by intros [= _ <-]]. cbn [snd] in Hl.
  pose proof (agrees_task_contexts config now r1 Hl) as Ht.
  destruct (injectTaskContexts config now r1) as [[[]|e] r2]; [|by intros [= _ <-]]. cbn [snd] in Ht.
  assert (Hf : agrees (injectFileContexts config now r2)).
  { unfold injectFileContexts. destruct (AgentConfig.Context_ config); [by apply agrees_inject_files|done]. }
  destruct (executeAgentLoop fuel maxTurns maxTotal (injectFileContexts config now r2)) as [[out r3]|] eqn:Hrun; [|done].
  pose proof (executeAgentLoop_agrees fuel maxTurns maxTotal _ out r3 Hf Hrun) as Hx3.
  destruct out as [[]|e]; [| |by intros [= _ <-]].
  - intros [= Hb]. by eapply agrees_result.
  - destruct (runValidationFollowUp _ _ _ _ _ _ _ _) as [[fu r4]|] eqn:Hfu; [|done].
    pose proof (agrees_validation fuel config expandedSchema r3 fu r4 Hx3 Hfu) as Hx4.
    destruct fu as [[]|e]; [|by intros [= _ <-]]. intros [= Hb]. by eapply agrees_result.
Qed.

Lemma prepare_told pipelineID provider modelName apiKey config maxTurns expandedSchema :
  preserves (keeps_watch watch)
    (prepare getenv sm schemaJSON pipelineID provider modelName apiKey config maxTurns expandedSchema).
Proof.
  assert (Hnew : forall names, preserves (keeps_watch watch) (new_tools names)).
  { induction names as [|name names IH]; cbn [new_tools]; quiet. }
  assert (Hsandbox : preserves (keeps_watch watch) (buildSandboxTools config)).
  { unfold buildSandboxTools, buildMemoryTools. destruct (memoryAvailable _); quiet. }
  assert (Hsub : forall def, preserves (keeps_watch watch) (buildSubAgentTool getenv sm pipelineID def config)).
  { intros def. unfold buildSubAgentTool. destruct (decide _); [quiet|].
    destruct (SplitModel _). destruct (Resolve _ _ _ _ _ _); quiet. }
  assert (Hdefs : forall defs, preserves (keeps_watch watch) (new_config_tools getenv sm pipelineID config defs)).
  { induction defs as [|def defs IH]; cbn [new_config_tools]; [quiet|].
    apply preserves_bind; [apply _| |intros ?; quiet].
    apply preserves_wrap; destruct (ToolDef.IsTask def); quiet. }
  unfold prepare. destruct (Resolve _ _ _ _ _ _); [|apply preserves_fail].
  apply preserves_bind; [apply _|unfold buildAgentTools; quiet|]. intros tools.
  apply preserves_bind; [apply _|quiet|]. intros _. unfold setupAgentSession.
  apply preserves_bind; [apply _|quiet|]. intros _.
  apply preserves_bind; [apply _|quiet|]. intros _.
  destruct (AgentConfig.ContextGuard config); [|quiet].
  destruct (resolveContextGuardOptions _); quiet.
Qed.

(** An observer was told the events that the run leaves, and when the run ends
    with a result these are its audit log. *)
Theorem RunAgent_reports fuel pipelineID config s out s' :
  watch [] s ->
  RunAgent getenv sm schemaJSON format_float unmarshal expr_Compile expr_Run fuel pipelineID config s
    = Some (out, s') ->
  exists log, watch log s' /\ forall res, out = Ok res -> AgentResult.AuditLog res = log.
Proof.
  intros Hs. unfold RunAgent. destruct (SplitModel (AgentConfig.Model config)) as [provider modelName].
  pose proof (watch_start (AgentConfig.Image config) (AgentConfig.Name config) (AgentConfig.Mounts config) s [] Hs) as Hst.
  destruct (env_StartSandbox _ _ _ s) as [[[]|e] s1]; [|by intros [= <- <-]; exists []].
  destruct (EffectiveLimits (AgentConfig.Limits config)) as [maxTurns maxTotal].
  match goal with |- context [prepare ?a ?b ?c ?d ?e ?f ?g ?h ?i ?j s1] =>
    pose proof (prepare_told d e f g h i j s1 [] Hst) as Hp; destruct (prepare a b c d e f g h i j s1) as [[[]|err] s2] end;
    [|intros [= <- <-]; exists []; split; [by apply watch_close|done]].
  destruct (converse _ _ _ _ _ _ _ _ _ _ _) as [[res r']|] eqn:Hc; [|done]. intros [= -> <-].
  assert (Hr : agrees (mkRunning "" "" AgentUsage.zero [] s2)) by exact Hp.
  pose proof (converse_agrees _ _ _ _ _ _ _ _ _ Hr Hc) as Ha.
  exists (auditEvents r'). split; [by apply watch_close|]. intros res ->. symmetry. by eapply converse_log.
Qed.
End observed.

(** ** Witnesses

    The runner of AgentLoop.v, a sandbox whose commands end as [ended] says, an
    empty store. *)
Section witnesses.
Context (ended : RunResult.t).

Definition ex_env : AgentEnv ExHost.t := {|
  env_sandbox := fun _ s => (Ok ended, s);
  env_StartSandbox := fun _ _ _ => ret tt;
  env_Close := id;
  env_NewTool := fun _ => ret tt;
  env_NewAgent := fun _ _ _ _ _ => ret tt;
  env_NewSession := ret tt;
  env_NewRunner := fun _ => ret tt;
  env_AppendEvent := fun _ => ret tt;
  env_uuid := ret "uuid";
  env_db := fun A m s => ((m empty_db).1, s);
  env_elapsed := fun _ _ => "1s" |}.
End witnesses.

Definition ex_ok : RunResult.t := RunResult.mk 0 "" "{}" RunComplete.
Definition ex_agent (schema : option (list (string * value))) (limits : option AgentLimitsConfig.t) : AgentConfig.t := {|
  AgentConfig.Name := "coder"; AgentConfig.Prompt := "Fix the build"; AgentConfig.Model := "openai/gpt";
  AgentConfig.Image := "alpine"; AgentConfig.Mounts := [("out", Volume.mk "out" "/vol/out")];
  AgentConfig.OutputVolumePath := "/vol/out"; AgentConfig.LLM := None; AgentConfig.Thinking := None;
  AgentConfig.Safety := []; AgentConfig.ContextGuard := None; AgentConfig.Limits := limits;
  AgentConfig.Context_ := None; AgentConfig.Validation := None; AgentConfig.Tools := [];
  AgentConfig.OutputSchema := schema; AgentConfig.ToolTimeout := ""; AgentConfig.Memory := None;
  AgentConfig.has_storage := false; AgentConfig.RunID := "r1"; AgentConfig.PipelineID := "p1";
  AgentConfig.TriggeredBy := "manual"; AgentConfig.BaseURLOverrides := [] |}.

(** The texts of the model are strings of JSON or nothing at all. *)
Definition ex_parse (text : string) : result value :=
  if HasPrefix text "{" then Ok (VMap [("summary", VStr text)]) else Err (EMsg "invalid character").
Notation ex_run ended schema limits s :=
  (@RunAgent ExHost.t ex_host (ex_env ended) "ci" stable_order (fun _ => "json") (fun _ => "error")
    (fun _ => "sk-1") None (fun _ => Some "{}") ex_format ex_parse (fun _ => Ok tt) (fun _ _ _ => Ok None)
    40 "p1" (ex_agent schema limits) s).

Definition ex_schema : option (list (string * value)) := Some [("summary", VStr "string")].
Definition ex_state (turns more : list ExTurn.t) (ending : option err) : ExHost.t := ExHost.mk turns None ending [] "" more.

(** The status, the text, the number of model requests and the types of the log. *)
Definition ex_report (out : option (result AgentResult.t * ExHost.t))
    : option (result (string * string * Z * list string)) :=
  (fun o => match o.1 with
     | Err e => Err e
     | Ok res => Ok (AgentResult.Status res, AgentResult.Text res, AgentUsage.LLMRequests (AgentResult.Usage res),
                     AuditEvent.Type_ <$> AgentResult.AuditLog res)
     end) <$> out.

Definition ex_text (out : option (result AgentResult.t * ExHost.t)) : option string :=
  match out with Some (Ok res, _) => Some (AgentResult.Text res) | _ => None end.

(** An agent that calls a tool and answers as it should. *)
Lemma RunAgent_answers_witness :
  exists res s', ex_run ex_ok ex_schema None (ex_state [ex_calls; ex_answers "{}"] [] None) = Some (Ok res, s') /\
    AgentResult.Text res = "{}" /\ says ex_parse (fun _ => Ok tt) (fun _ _ _ => Ok None) (ex_agent ex_schema None)
      (ExpandOutputSchema ex_schema) res.
Proof.
  assert (Hc : ex_text (ex_run ex_ok ex_schema None (ex_state [ex_calls; ex_answers "{}"] [] None)) = Some "{}")
    by (vm_compute; reflexivity).
  destruct (ex_run ex_ok ex_schema None _) as [[[res|e] s']|] eqn:He; [|done|done].
  exists res, s'. split; [done|]. split; [by injection Hc|].
  exact (@RunAgent_answers ExHost.t ex_host (ex_env ex_ok) "ci" stable_order (fun _ => "json") (fun _ => "error")
           (fun _ => "sk-1") None (fun _ => Some "{}") ex_format ex_parse (fun _ => Ok tt) (fun _ _ _ => Ok None)
           40 "p1" (ex_agent ex_schema None) _ res s' He).
Defined.

(** ** What a run does where it should not *)

(** The answer to the follow-up is not checked again. *)
Lemma follow_up_unchecked :
  ex_report (ex_run ex_ok ex_schema None (ex_state [ex_answers "no"] [ex_answers "still no"] None)) =
    Some (Ok ("success", "still no", 2%Z,
              ["user_message"; "model_final"; "schema_validation_error"; "validation_followup"; "model_final"])).
Proof. vm_compute. reflexivity. Qed.

(** The follow-up has no limits: an agent with three turns makes nineteen
    requests, and ends as a success without an answer. *)
Lemma follow_up_unlimited :
  (fun r => match r with Ok (status, text, n, _) => Some (status, text, n) | Err _ => None end) <$>
    ex_report (ex_run ex_ok None (Some (AgentLimitsConfig.mk 3 0)) (ex_state [ex_calls] (repeat ex_calls 18) None)) =
    Some (Some ("success", "", 19%Z)).
Proof. vm_compute. reflexivity. Qed.

(** A run that was stopped: the loop and the follow-up are cut short, the
    command that writes the result is aborted, and its exit code is zero. *)
Lemma stopped_run_succeeds :
  ex_report (ex_run RunResult.aborted ex_schema None (ex_state [] [] (Some (ESentinel SCanceled)))) =
    Some (Ok ("success", "", 0%Z, ["user_message"; "validation_followup"])).
Proof. vm_compute. reflexivity. Qed.

