(* ===== verification/AgentStep.v ===== *)
(** * Agent steps (runtime/backwards/agent_handler.go)

    The handler of an agent step: it finds the step's configuration, its tools
    and its volumes, runs the agent (Agent.v) with callbacks that keep what they
    are told and write it to the store, at most twice a second, and records how
    it ended. The whole step is one transition of the job: what the siblings of
    a parallel group do meanwhile is left out. YAML, the driver's reading of a
    file and the download of one are parameters. [Execute_records]: what the
    step leaves in the store. *)
From S2P Require Import Prelude Storage Json Db GoStrings Paging Tasks Config Secrets Procs Steps Schema TaskLookup.
From S2P Require Import Containers TaskRunner Shell AgentTools AgentLoop Agent Paths StepProps.
From Stdlib Require Import Ascii.
Open Scope string_scope.

(** ** The step

    The fields that a file may give, or that a tool may have, and those that
    only the step has. *)
Module AgentFields.
Record t := mk {
  Agent : string; Task : string; Prompt : string; Model : string; File : string; URI : string;
  Config : option TaskConfig.t; Context_ : option AgentContext.t; Description : string }.
Definition with_prompt (prompt : string) (s : t) : t :=
  mk (Agent s) (Task s) prompt (Model s) (File s) (URI s) (Config s) (Context_ s) (Description s).
Definition with_merged (prompt model : string) (cfg : option TaskConfig.t) (ctx : option AgentContext.t) (s : t) : t :=
  mk (Agent s) (Task s) prompt model (File s) (URI s) cfg ctx (Description s).
End AgentFields.
Module AgentStep.
Record t := mk {
  fields : AgentFields.t; PromptFile : string; LLM : option LLMConfig.t; Thinking : option ThinkingConfig.t;
  Safety : list (string * string); ContextGuard : option AgentContextGuardConfig.t;
  Limits : option AgentLimitsConfig.t; Validation : option AgentValidationConfig.t;
  Memory : option AgentMemoryConfig.t; ToolTimeout : string; OutputSchema : option (list (string * value));
  Tools : list AgentFields.t }.
Definition with_fields (f : AgentFields.t) (s : t) : t :=
  mk f (PromptFile s) (LLM s) (Thinking s) (Safety s) (ContextGuard s) (Limits s) (Validation s) (Memory s)
    (ToolTimeout s) (OutputSchema s) (Tools s).
Definition Agent_ (s : t) : string := AgentFields.Agent (fields s).
End AgentStep.

(** The resources of a run. *)
Module agentRunContext.
Record t := mk {
  tools : list ToolDef.t; mounts : gmap string Volume.t; outputVolumePath : string; storageKey : string;
  hooksStorageKey : string; auditBaseKey : string }.
End agentRunContext.

(** ** The world of a run

    Each call of the agents' framework, the sandbox or the driver may take time
    and, through the tools of the agent, change its memories. [aw_next] runs the
    agent up to its next event; the strings are what its tools put out. *)
Class AgentWorld (W : Type) : Type := {
  aw_run : option string -> db * W -> db * W;
  aw_next : db * W -> (db * W) * (list (string * string) * option (Event.t + err));
  aw_cancel : db * W -> db * W;
  aw_Close : db * W -> db * W;
  aw_Exec : ExecInput.t -> ST (db * W) RunResult.t;
  aw_StartSandbox : string -> string -> list (string * Volume.t) -> ST (db * W) unit;
  aw_NewTool : string -> ST (db * W) unit;
  aw_NewAgent : string -> LLM -> string -> list tool -> option GenerateContentConfig.t -> ST (db * W) unit;
  aw_NewSession : ST (db * W) unit;
  aw_NewRunner : list AgentOption -> ST (db * W) unit;
  aw_AppendEvent : Event.t -> ST (db * W) unit;
  aw_uuid : ST (db * W) string;
  aw_elapsed : string -> time -> string;
  aw_UTC : time -> string;
  aw_ReadFile : string -> string -> ST (db * W) string;         (* of a volume *)
  aw_Fetch : string -> ST (db * W) string }.

(** What YAML makes of a text. *)
Class AgentYaml : Type := {
  yaml_fields : string -> result (list (string * value));
  yaml_config : string -> result (option TaskConfig.t);
  yaml_context : string -> result (option AgentContext.t);
  yaml_task : string -> result TaskConfig.t }.

Section loading.
Context {W : Type} `{!AgentWorld W, !AgentYaml} (RunID : string).
Notation job := (jobctx W).

Definition on_pair {A} (m : ST (db * W) A) : ST job A := fun s =>
  let '(r, (d, w)) := m (jc_db s, jc_world s) in (r, set_world w (set_jc_db d s)).

(** *** Files (task_handler.go) *)
Definition loadRawBytesFromVolume (filePath : string) : ST job string :=
  match cut_at filePath "/" with
  | None => fail (EMsg ("invalid file path " ++ q filePath ++ ": expected mount-name/path"))
  | Some (mountName, relativePath) =>
      let! known := gets jc_KnownVolumes in
      match known !! mountName with
      | None => fail (EMsg ("volume " ++ q mountName ++ " not found in known volumes"))
      | Some volName => on_pair (aw_ReadFile volName relativePath)
      end
  end.
Definition loadAgentConfig (step : AgentFields.t) : ST job (option string) :=
  if negb (bool_decide (AgentFields.File step = "")) then
    let! contents := loadRawBytesFromVolume (AgentFields.File step) in ret (Some contents)
  else if negb (bool_decide (AgentFields.URI step = "")) then
    match parseURI (AgentFields.URI step) with
    | Err e => fail e
    | Ok (schemeFile, path) => let! contents := loadRawBytesFromVolume path in ret (Some contents)
    | Ok (schemeHTTP, uri) => let! contents := on_pair (aw_Fetch uri) in ret (Some contents)
    end
  else ret None.

(** *** Merging *)
Definition string_field (k : string) (m : list (string * value)) : option string :=
  match Schema.get k m with Some (VStr s) => Some s | _ => None end.
(** A value read a second time from the text, if the key is there at all. *)
Definition typed_field {A} (k : string) (m : list (string * value)) (parsed : result (option A)) : option A :=
  match Schema.get k m, parsed with Some _, Ok v => v | _, _ => None end.

Definition mergeAgentFromContents (contents : string) (inlineStep : AgentFields.t) : AgentFields.t :=
  match yaml_fields contents with
  | Err _ => inlineStep
  | Ok fileFields =>
      let prompt := AgentFields.Prompt inlineStep in
      AgentFields.with_merged
        (match string_field "prompt" fileFields with
         | None => prompt
         | Some p => if decide (prompt = "") then p else p ++ String newline prompt
         end)
        (if decide (AgentFields.Model inlineStep = "") then default "" (string_field "model" fileFields)
         else AgentFields.Model inlineStep)
        (match AgentFields.Config inlineStep with
         | Some cfg => Some cfg
         | None => typed_field "config" fileFields (yaml_config contents)
         end)
        (match AgentFields.Context_ inlineStep with
         | Some ctx => Some ctx
         | None => typed_field "context" fileFields (yaml_context contents)
         end) inlineStep
  end.
Definition mergeAgentExternalConfig (step : AgentFields.t) : ST job AgentFields.t :=
  let! contents := loadAgentConfig step in
  ret (match contents with None => step | Some contents => mergeAgentFromContents contents step end).

Definition loadAgentStep (step : AgentStep.t) : ST job AgentStep.t :=
  let f := AgentStep.fields step in
  if negb (bool_decide (AgentFields.File f = "" /\ AgentFields.URI f = "")) then
    let! merged := mergeAgentExternalConfig f in ret (AgentStep.with_fields merged step)
  else if negb (bool_decide (AgentStep.PromptFile step = "")) then
    let! contents := wrap ("loading prompt_file " ++ q (AgentStep.PromptFile step))
                       (loadRawBytesFromVolume (AgentStep.PromptFile step)) in
    ret (AgentStep.with_fields (AgentFields.with_prompt contents f) step)
  else ret step.

(** *** Tools *)
Definition resolveAgentImage (cfg : option TaskConfig.t) : string :=
  match cfg with
  | None => "busybox"
  | Some cfg =>
      if negb (bool_decide (TaskConfig.Image cfg = "")) then TaskConfig.Image cfg
      else default "busybox" (ImageResource.Source (TaskConfig.ImageResource cfg) !! "repository")
  end.
Definition tool_image (cfg : option TaskConfig.t) : string :=
  let image := resolveAgentImage cfg in if decide (image = "busybox") then "" else image.

Definition resolveAgentToolDef (tool : AgentFields.t) (storageKeyPrefix : string) : ST job ToolDef.t :=
  let! subStep := wrap ("resolving agent tool " ++ q (AgentFields.Agent tool)) (mergeAgentExternalConfig tool) in
  ret (ToolDef.mk (AgentFields.Agent subStep) (AgentFields.Prompt subStep) (AgentFields.Model subStep)
         (tool_image (AgentFields.Config subStep)) storageKeyPrefix false "" "" [] ∅).

Definition merge_task_config (cfg fileCfg : TaskConfig.t) : TaskConfig.t :=
  TaskConfig.mk (TaskConfig.Caches cfg) (TaskConfig.ContainerLimits cfg) (TaskConfig.Limits cfg) (TaskConfig.Env cfg)
    (if decide (TaskConfig.Image cfg = "") then TaskConfig.Image fileCfg else TaskConfig.Image cfg)
    (TaskConfig.ImageResource cfg) (TaskConfig.Inputs cfg) (TaskConfig.Outputs cfg) (TaskConfig.Platform cfg)
    (match TaskConfig.Run cfg with Some run => Some run | None => TaskConfig.Run fileCfg end).
(** A file that cannot be read, or understood, is passed over. *)
Definition mergeTaskConfigFromFile (tool : AgentFields.t) (taskConfig : option TaskConfig.t)
    : ST job (option TaskConfig.t) :=
  let! loaded := attempt (loadAgentConfig tool) in
  ret (match loaded with
       | Ok (Some contents) =>
           match yaml_task contents with
           | Err _ => taskConfig
           | Ok fileCfg => Some (match taskConfig with None => fileCfg | Some cfg => merge_task_config cfg fileCfg end)
           end
       | _ => taskConfig
       end).
Definition resolveTaskToolDef (tool : AgentFields.t) (storageKeyPrefix : string) : ST job ToolDef.t :=
  let! taskConfig := mergeTaskConfigFromFile tool (AgentFields.Config tool) in
  let run := taskConfig ≫= TaskConfig.Run in
  ret (ToolDef.mk (AgentFields.Task tool) "" ""
         (match taskConfig with None => "" | Some _ => tool_image taskConfig end) storageKeyPrefix true
         (AgentFields.Description tool) (default "" (TaskConfigRun.Path <$> run)) (default [] (TaskConfigRun.Args <$> run))
         (default ∅ (TaskConfig.Env <$> taskConfig))).

(** A tool that is neither is passed over. *)
Fixpoint resolveAgentTools (tools : list AgentFields.t) (storageKeyPrefix : string) : ST job (list ToolDef.t) :=
  match tools with
  | [] => ret []
  | tool :: tools =>
      if negb (bool_decide (AgentFields.Agent tool = "")) then
        let! def := resolveAgentToolDef tool storageKeyPrefix in
        let! defs := resolveAgentTools tools storageKeyPrefix in ret (def :: defs)
      else if negb (bool_decide (AgentFields.Task tool = "")) then
        let! def := resolveTaskToolDef tool storageKeyPrefix in
        let! defs := resolveAgentTools tools storageKeyPrefix in ret (def :: defs)
      else resolveAgentTools tools storageKeyPrefix
  end.

(** *** Volumes *)
Definition mount_known (known : gmap string string) (name : string) (mounts : gmap string Volume.t) : gmap string Volume.t :=
  match known !! name with Some volName => <[name := Volume.mk volName ""]> mounts | None => mounts end.
Definition input_mounts (known : gmap string string) (step : AgentFields.t) : gmap string Volume.t :=
  let inputs := match AgentFields.Config step with Some cfg => Input.Name <$> TaskConfig.Inputs cfg | None => [] end in
  let tasks := match AgentFields.Context_ step with
    | Some ctx => AgentContextTask.Name <$> AgentContext.Tasks ctx | None => [] end in
  foldl (fun m name => match m !! name with Some _ => m | None => mount_known known name m end)
    (foldl (fun m name => mount_known known name m) ∅ inputs) tasks.
Definition agent_outputs (step : AgentFields.t) : list string :=
  match AgentFields.Config step with
  | Some cfg => match TaskConfig.Outputs cfg with
                | [] => [AgentFields.Agent step] | outputs => Output.Name <$> outputs end
  | None => [AgentFields.Agent step]
  end.
Fixpoint mount_outputs (outputs : list string) (mounts : gmap string Volume.t) : ST job (gmap string Volume.t) :=
  match outputs with
  | [] => ret mounts
  | name :: outputs =>
      let! known := gets jc_KnownVolumes in
      let volName := default (resourceVolumeName RunID name) (known !! name) in
      modify (fun s => set_known (<[name := volName]> (jc_KnownVolumes s)) s) ;;;
      mount_outputs outputs (<[name := Volume.mk volName ""]> mounts)
  end.
Definition resolveAgentMounts (step : AgentFields.t) : ST job (gmap string Volume.t * string) :=
  let! known := gets jc_KnownVolumes in
  let! mounts := mount_outputs (agent_outputs step) (input_mounts known step) in
  ret (mounts, default "" (head (agent_outputs step))).

Definition run_key (JobName pathPrefix : string) : string := BaseStorageKey RunID JobName ++ "/" ++ pathPrefix ++ "/run".
Definition prepareAgentRun (JobName : string) (step : AgentStep.t) (pathPrefix : string) : ST job agentRunContext.t :=
  let hooksStorageKey := BaseStorageKey RunID JobName ++ "/" ++ pathPrefix in
  let! tools := wrap "resolving tools" (resolveAgentTools (AgentStep.Tools step) hooksStorageKey) in
  let! res := wrap "resolving mounts" (resolveAgentMounts (AgentStep.fields step)) in
  ret (agentRunContext.mk tools res.1 res.2 (run_key JobName pathPrefix) hooksStorageKey
         ("/agent-audit/" ++ RunID ++ "/jobs/" ++ JobName ++ "/" ++ pathPrefix ++ "/events")).
End loading.

(** ** What the callbacks keep (agentRunState, throttledPersister) *)
Record agent_run {W : Type} : Type := mkAgentRun {
  ar_ctx : jobctx W; accumulatedOutput : string; latestUsage : option AgentUsage.t; auditLog : list AuditEvent.t;
  lastPersistAt : option time; pending : bool }.
Arguments agent_run : clear implicits.
Arguments mkAgentRun {W}.

Definition persist_interval : Z := 500000000.
Definition audit_json (log : list AuditEvent.t) : json :=
  match log with [] => JNull | _ => JArr (event_json <$> log) end.
Definition usage_or_null (u : option AgentUsage.t) : json := match u with Some u => usage_json u | None => JNull end.
Definition json_or_null (j : option json) : json := default JNull j.

Section callbacks.
Context {W : Type} `{!AgentWorld W, !Cancellation W, !Format, !Namespace, !OrderBy, !JsonText}.
Context (storageKey auditBaseKey : string) (startedAt : time).
Implicit Types r : agent_run W.

Definition run_ctx (f : jobctx W -> jobctx W) r : agent_run W :=
  mkAgentRun (f (ar_ctx r)) (accumulatedOutput r) (latestUsage r) (auditLog r) (lastPersistAt r) (pending r).
(** A call of the store with the context of the step. *)
Definition on_store {A} (m : ST db A) : ST (jobctx W) A := fun s =>
  on_db (with_ctx (if ctx_Err (jc_world s) then true else false) m) s.
(** The error is dropped. *)
Definition write_row (key : string) (row : list (string * json)) (s : jobctx W) : jobctx W :=
  (on_store (Set_ key (JObj row)) s).2.

Definition running_row r : list (string * json) :=
  [("status", JStr "running"); ("started_at", JStr (RFC3339 startedAt)); ("stdout", JStr (accumulatedOutput r));
   ("usage", usage_or_null (latestUsage r)); ("audit_log", audit_json (auditLog r))].
Definition doPersist r : agent_run W :=
  run_ctx (write_row storageKey (running_row r))
    (mkAgentRun (ar_ctx r) (accumulatedOutput r) (latestUsage r) (auditLog r) (Some (db_now (jc_db (ar_ctx r)))) false).
(** The time since the zero time is longer than any interval. *)
Definition too_soon r : bool :=
  match lastPersistAt r with
  | None => false
  | Some last => (db_now (jc_db (ar_ctx r)) - last <? persist_interval)%Z
  end.
Definition trigger r : agent_run W :=
  if too_soon r then
    mkAgentRun (ar_ctx r) (accumulatedOutput r) (latestUsage r) (auditLog r) (lastPersistAt r) true
  else doPersist r.
Definition flush r : agent_run W := if pending r then doPersist r else r.

Definition audit_row (idx : nat) (event : AuditEvent.t) : list (string * json) :=
  [("timestamp", JStr (AuditEvent.Timestamp event)); ("invocationId", JStr (AuditEvent.InvocationID event));
   ("author", JStr (AuditEvent.Author event)); ("type", JStr (AuditEvent.Type_ event));
   ("text", JStr (AuditEvent.Text event)); ("toolName", JStr (AuditEvent.ToolName event));
   ("toolCallId", JStr (AuditEvent.ToolCallID event)); ("toolArgs", json_or_null (AuditEvent.ToolArgs event));
   ("toolResult", json_or_null (AuditEvent.ToolResult event));
   ("usage", json_or_null (audit_usage_json <$> AuditEvent.Usage event)); ("index", JNum (Z.of_nat idx))].
Definition audit_key (idx : nat) : string := auditBaseKey ++ "/" ++ Itoa (Z.of_nat idx).

Definition on_usage (u : AgentUsage.t) r : agent_run W :=
  trigger (mkAgentRun (ar_ctx r) (accumulatedOutput r) (Some u) (auditLog r) (lastPersistAt r) (pending r)).
Definition on_audit_event (event : AuditEvent.t) r : agent_run W :=
  trigger (run_ctx (write_row (audit_key (length (auditLog r))) (audit_row (length (auditLog r)) event))
    (mkAgentRun (ar_ctx r) (accumulatedOutput r) (latestUsage r) (auditLog r ++ [event]) (lastPersistAt r) (pending r))).
Definition on_output (data : string) r : agent_run W :=
  trigger (mkAgentRun (ar_ctx r) (accumulatedOutput r ++ data) (latestUsage r) (auditLog r) (lastPersistAt r) (pending r)).

Definition on_run {A} (m : ST (jobctx W) A) : ST (agent_run W) A := fun r =>
  let '(a, s) := m (ar_ctx r) in (a, run_ctx (fun _ => s) r).
Definition step_pair (f : db * W -> db * W) : agent_run W -> agent_run W :=
  run_ctx (fun s => let '(d, w) := f (jc_db s, jc_world s) in set_world w (set_jc_db d s)).
Definition run_now r : time := db_now (jc_db (ar_ctx r)).

Definition handler_host : AgentHost (agent_run W) := {|
  host_run := fun msg => step_pair (aw_run msg);
  host_next := fun r =>
    let '((d, w), (chunks, item)) := aw_next (jc_db (ar_ctx r), jc_world (ar_ctx r)) in
    (foldl (fun r chunk => on_output chunk.2 r) (run_ctx (fun s => set_world w (set_jc_db d s)) r) chunks, item);
  host_cancel := step_pair aw_cancel;
  host_now := fun r => aw_UTC (run_now r);
  OnUsage := on_usage;
  OnAuditEvent := on_audit_event;
  OnOutput := fun _ => on_output |}.
Definition handler_env : @AgentEnv (agent_run W) handler_host := {|
  env_sandbox := fun input => on_run (on_pair (aw_Exec input));
  env_StartSandbox := fun image name mounts => on_run (on_pair (aw_StartSandbox image name mounts));
  env_Close := step_pair aw_Close;
  env_NewTool := fun name => on_run (on_pair (aw_NewTool name));
  env_NewAgent := fun name llm text tools cfg => on_run (on_pair (aw_NewAgent name llm text tools cfg));
  env_NewSession := on_run (on_pair aw_NewSession);
  env_NewRunner := fun opts => on_run (on_pair (aw_NewRunner opts));
  env_AppendEvent := fun ev => on_run (on_pair (aw_AppendEvent ev));
  env_uuid := on_run (on_pair aw_uuid);
  env_db := fun A m => on_run (on_store m);
  env_elapsed := fun since r => aw_elapsed since (run_now r) |}.
End callbacks.

(** ** The handler *)
Section handler.
Context {W : Type} `{!AgentWorld W, !Cancellation W, !AgentYaml, !Driver W, !Format, !Namespace, !OrderBy, !JsonText, !SentinelText}.
Context (RunID JobName PipelineID : string) (AgentBaseURLs : list (string * string)).
Context (getenv : string -> string) (schemaJSON : Schema -> option string) (format_float : Float64.t -> string).
Context (unmarshal : string -> result value).
Context (expr_Compile : string -> result unit) (expr_Run : string -> string -> string -> result (option bool)).
Notation job := (jobctx W).

Definition buildAgentConfig (step : AgentStep.t) (arc : agentRunContext.t) : AgentConfig.t :=
  let f := AgentStep.fields step in {|
  AgentConfig.Name := AgentFields.Agent f; AgentConfig.Prompt := AgentFields.Prompt f;
  AgentConfig.Model := AgentFields.Model f; AgentConfig.Image := resolveAgentImage (AgentFields.Config f);
  AgentConfig.Mounts := map_to_list (agentRunContext.mounts arc);
  AgentConfig.OutputVolumePath := agentRunContext.outputVolumePath arc; AgentConfig.LLM := AgentStep.LLM step;
  AgentConfig.Thinking := AgentStep.Thinking step; AgentConfig.Safety := AgentStep.Safety step;
  AgentConfig.ContextGuard := AgentStep.ContextGuard step; AgentConfig.Limits := AgentStep.Limits step;
  AgentConfig.Context_ := AgentFields.Context_ f; AgentConfig.Validation := AgentStep.Validation step;
  AgentConfig.Tools := agentRunContext.tools arc; AgentConfig.OutputSchema := AgentStep.OutputSchema step;
  AgentConfig.ToolTimeout := AgentStep.ToolTimeout step; AgentConfig.Memory := AgentStep.Memory step;
  AgentConfig.has_storage := true; AgentConfig.RunID := RunID; AgentConfig.PipelineID := PipelineID;
  AgentConfig.TriggeredBy := ""; AgentConfig.BaseURLOverrides := AgentBaseURLs |}.

Definition agent_failure_row (startedAt t : time) (runErr : err) (r : agent_run W) : list (string * json) :=
  [("status", JStr "failure"); ("started_at", JStr (RFC3339 startedAt)); ("elapsed", JStr (Duration_String (t - startedAt)));
   ("stdout", JStr (accumulatedOutput r)); ("error_message", JStr (SError (SPlain runErr)));
   ("usage", usage_or_null (latestUsage r)); ("audit_log", audit_json (auditLog r))].
Definition final_row (startedAt t : time) (result : AgentResult.t) (r : agent_run W) : list (string * json) :=
  [("status", JStr (if decide (AgentResult.Status result = "limit_exceeded") then "limit_exceeded" else "success"));
   ("started_at", JStr (RFC3339 startedAt)); ("elapsed", JStr (Duration_String (t - startedAt)));
   ("stdout", JStr (AgentResult.Text result));
   ("usage", usage_json (default (AgentResult.Usage result) (latestUsage r)));
   ("audit_log", audit_json (AgentResult.AuditLog result))].
Definition finalizeAgentRun (name storageKey : string) (startedAt : time) (out : result AgentResult.t) (r : agent_run W)
    : option serr * job :=
  let t := run_now r in
  match out with
  | Err e => (Some (TaskFailedError name 1), write_row storageKey (agent_failure_row startedAt t e r) (ar_ctx r))
  | Ok result =>
      let r := flush storageKey startedAt r in
      (None, write_row storageKey (final_row startedAt t result r) (ar_ctx r))
  end.

(** [None]: out of fuel, for the number of the agent's events. A panic leaves
    the handler as it leaves the run. *)
Definition run_and_finalize (fuel : nat) (step : AgentStep.t) (arc : agentRunContext.t) (s : job)
    : option (option serr * job) :=
  let key := agentRunContext.storageKey arc in
  let startedAt := db_now (jc_db s) in
  let s := write_row key [("status", JStr "pending"); ("started_at", JStr (RFC3339 startedAt))] s in
  (fun '(out, r) => if panicked out then (Some (SPlain (ESentinel SPanic)), ar_ctx r)
                    else finalizeAgentRun (AgentStep.Agent_ step) key startedAt out r) <$>
    @RunAgent (agent_run W) (handler_host key (agentRunContext.auditBaseKey arc) startedAt)
      (handler_env key (agentRunContext.auditBaseKey arc) startedAt) _ _ _ _
      getenv (SecretsManager (jc_world s)) schemaJSON format_float unmarshal expr_Compile expr_Run
      fuel PipelineID (buildAgentConfig step arc) (mkAgentRun s "" None [] None false).

Definition agent_Execute (fuel : nat) (step : AgentStep.t) (pathPrefix : string) (s : job)
    : option (option serr * job) :=
  match loadAgentStep step s with
  | (Err e, s) => Some (Some (TaskErroredError (AgentStep.Agent_ step) (Some (SPlain e))), s)
  | (Ok agentStep, s) =>
      let s := set_executed (jc_ExecutedTasks s ++ [AgentStep.Agent_ agentStep])%list s in
      match prepareAgentRun RunID JobName agentStep pathPrefix s with
      | (Err e, s) => Some (Some (TaskErroredError (AgentStep.Agent_ agentStep) (Some (SPlain e))), s)
      | (Ok arc, s) => run_and_finalize fuel agentStep arc s
      end
  end.
End handler.

(** ** The rows of sub-agents *)
Section sub_agent_rows.
Context {W : Type} `{!AgentWorld W, !Cancellation W, !Format, !Namespace, !OrderBy, !JsonText}.

(** Only the row at [path] may differ. *)
Definition same_but (path : string) (d d' : db) : Prop :=
  forall other, other <> path -> db_tasks d' !! other = db_tasks d !! other.
#[export] Instance same_but_preorder path : PreOrder (same_but path).
Proof. unfold same_but. split; [done|]. intros d1 d2 d3 Hx Hy other Hne. by rewrite Hy, Hx. Qed.
#[export] Instance same_but_faults path : FaultInsensitive (same_but path).
Proof. by intros d fs. Qed.
Lemma Set_same_but key contents : preserves (same_but (task_path key)) (Set_ key contents).
Proof.
  apply preserves_bind; [apply _|apply preserves_wrap, preserves_update; [apply _..|]|intros _].
  - intros d other Hne. by rewrite lookup_upsert_task_ne.
  - apply preserves_bind; [apply _|apply preserves_wrap, preserves_update; [apply _..|done]|intros _].
    apply preserves_wrap, preserves_update; [apply _..|done].
Qed.
Lemma on_store_same_but {A} path (m : ST db A) (s : jobctx W) :
  preserves (same_but path) m -> same_but path (jc_db s) (jc_db (on_store m s).2).
Proof.
  intros Hm. unfold on_store, on_db, with_ctx. destruct (ctx_Err (jc_world s)) as [e|]; cbn.
  - specialize (Hm (set_faults (true :: db_faults (jc_db s)) (jc_db s))). by destruct (m _).
  - specialize (Hm (jc_db s)). by destruct (m _).
Qed.

(** The progress of a sub-agent changes no other row. *)
Lemma persist_own_row storageKey auditBaseKey startedAt subCfg parentConfig status text at_ (r : running (agent_run W)) :
  same_but (task_path (sub_agent_key (ToolDef.StorageKeyPrefix subCfg) (ToolDef.Name subCfg)))
    (jc_db (ar_ctx (host r)))
    (jc_db (ar_ctx (host (@persistSubAgentProgress _ (handler_host storageKey auditBaseKey startedAt)
      (handler_env storageKey auditBaseKey startedAt) _ _ subCfg parentConfig status text at_ r)))).
Proof.
  unfold persistSubAgentProgress. destruct (bool_decide _ || _); [done|].
  unfold on_host. cbn [env_db handler_env]. unfold on_run.
  pose proof (fun row => on_store_same_but _ (Set_ (sub_agent_key (ToolDef.StorageKeyPrefix subCfg) (ToolDef.Name subCfg)) row)
    (ar_ctx (host r)) (Set_same_but _ _)) as Hs.
  match goal with |- context [on_store (Set_ _ ?row) _] => specialize (Hs row) end.
  destruct (on_store _ _) as [a s]. exact Hs.
Qed.
End sub_agent_rows.

(** ** The trail of a run

    [trail l d]: the store works, and the rows below the base key are those of
    the events [l]. *)
Section trail.
Context {W : Type} `{!AgentWorld W, !Cancellation W, !Format, !Namespace, !OrderBy, !JsonText}.
Context (storageKey auditBaseKey : string) (startedAt : time).
Context (prefix : string) (names : list string) (prior : option json).
Implicit Types (r : agent_run W) (s : jobctx W).

Definition trail (l : list AuditEvent.t) (d : db) : Prop :=
  quiet_db d /\
  (forall i e, l !! i = Some e -> exists t,
     db_tasks d !! task_path (audit_key auditBaseKey i) = Some t /\ taskRow.payload t = JObj (audit_row i e)) /\
  (forall i, length l <= i -> db_tasks d !! task_path (audit_key auditBaseKey i) = None).

(** The rows of the step and of its events. *)
Definition own_row (path : string) : Prop :=
  path = task_path storageKey \/ exists i, path = task_path (audit_key auditBaseKey i).
(** The keys of the events differ from each other and from that of the run, and
    none of them is that of a sub-agent. *)
Definition keys_apart : Prop :=
  (forall i j, task_path (audit_key auditBaseKey i) = task_path (audit_key auditBaseKey j) -> i = j) /\
  (forall i, task_path (audit_key auditBaseKey i) <> task_path storageKey) /\
  (forall name, name ∈ names -> ~ own_row (task_path (sub_agent_key prefix name))).
Hypothesis Hapart : keys_apart.

(** What the row of the step says of it. *)
Definition said (d : db) : option json :=
  match db_tasks d !! task_path storageKey with
  | Some t => get_field "status" (fields (taskRow.payload t))
  | None => None
  end.

Lemma trail_same l d d' :
  (forall path, own_row path -> db_tasks d' !! path = db_tasks d !! path) -> (quiet_db d -> quiet_db d') ->
  trail l d -> trail l d'.
Proof.
  intros Hsame Hq (Hqd & Hrows & Hfresh). split; [auto|].
  split; intros i; [intros e|]; rewrite Hsame by (right; by eexists); auto.
Qed.
Lemma trail_write l row d : trail l d -> trail l (Set_ storageKey row d).2.
Proof.
  intros (Hq & Hrows & Hfresh). split; [by apply quiet_set|]. rewrite Set_no_faults by done. cbn [snd].
  split; intros i; [intros e|]; rewrite lookup_upsert_task_ne by apply Hapart; auto.
Qed.
Lemma trail_event l e d :
  trail l d -> trail (l ++ [e]) (Set_ (audit_key auditBaseKey (length l)) (JObj (audit_row (length l) e)) d).2.
Proof.
  intros (Hq & Hrows & Hfresh). split; [by apply quiet_set|]. rewrite Set_no_faults by done. cbn [snd].
  assert (Hne : forall i, i <> length l ->
    task_path (audit_key auditBaseKey i) <> task_path (audit_key auditBaseKey (length l)))
    by (intros i Hi Heq; by apply Hapart in Heq).
  split.
  - intros i e' Hi. apply lookup_app_Some in Hi as [Hi|[Hlen Hi]].
    + rewrite lookup_upsert_task_ne by (apply Hne; apply lookup_lt_Some in Hi; lia). by apply Hrows.
    + destruct (i - length l) as [|k] eqn:Hk; [|done]. injection Hi as <-. assert (i = length l) as -> by lia.
      destruct (lookup_upsert_task (task_path (audit_key auditBaseKey (length l)))
        (extractRunID (task_path (audit_key auditBaseKey (length l)))) (JObj (audit_row (length l) e)) d) as (t & Ht & Hp).
      exists t. split; [done|]. by rewrite Hp, Hfresh.
  - intros i Hi. rewrite length_app in Hi. cbn in Hi. rewrite lookup_upsert_task_ne by (apply Hne; lia).
    apply Hfresh. lia.
Qed.
Lemma said_event i row d : quiet_db d -> said (Set_ (audit_key auditBaseKey i) row d).2 = said d.
Proof.
  intros Hq. unfold said. rewrite Set_no_faults by done. cbn [snd].
  rewrite lookup_upsert_task_ne; [done|]. intros Heq. by apply (proj1 (proj2 Hapart) i).
Qed.
Lemma said_write st row d :
  quiet_db d -> NoDup row.*1 -> get_field "status" row = Some (JStr st) ->
  said (Set_ storageKey (JObj row) d).2 = Some (JStr st).
Proof.
  intros Hq Hnd Hk. unfold said. rewrite Set_no_faults by done. cbn [snd].
  destruct (lookup_upsert_task (task_path storageKey) (extractRunID (task_path storageKey)) (JObj row) d) as (t & -> & ->).
  destruct (db_tasks d !! task_path storageKey) as [old|]; [|done].
  rewrite jsonb_patch_obj. simpl. by rewrite get_patch_fields, Hk.
Qed.

(** *** The context of the step *)
Definition stopped s : Prop := ctx_Err (jc_world s) <> None.

Lemma write_row_live key row s :
  ctx_Err (jc_world s) = None -> write_row key row s = set_jc_db (Set_ key (JObj row) (jc_db s)).2 s.
Proof. intros Hl. unfold write_row, on_store. rewrite Hl. unfold on_db, with_ctx. cbn. by destruct (Set_ _ _ _). Qed.
Lemma write_row_stopped key row s : stopped s -> write_row key row s = s.
Proof.
  unfold stopped, write_row, on_store. destruct (ctx_Err (jc_world s)) as [e|]; [|done]. intros _.
  destruct s as [d]. by destruct d.
Qed.
Lemma write_row_world key row s : jc_world (write_row key row s) = jc_world s.
Proof.
  destruct (ctx_Err (jc_world s)) eqn:Hs; [rewrite write_row_stopped; [done|by unfold stopped; rewrite Hs]|].
  by rewrite write_row_live.
Qed.

(** The events whose rows are written: all of them, or those before the step
    was stopped. The row of the step says that it is pending or running; when
    the step was stopped before that could be written, what it said before. *)
Definition told (l : list AuditEvent.t) s : Prop :=
  (exists n, trail (take n l) (jc_db s) /\ (length l <= n \/ stopped s)) /\
  (said (jc_db s) ∈ [Some (JStr "pending"); Some (JStr "running")] \/ stopped s /\ said (jc_db s) = prior).
Definition tracked (l : list AuditEvent.t) r : Prop := auditLog r = l /\ told l (ar_ctx r).

Lemma told_quiet l s : told l s -> quiet_db (jc_db s).
Proof. by intros [(n & [Hq _] & _) _]. Qed.

Lemma told_write l st row s :
  NoDup row.*1 -> get_field "status" row = Some (JStr st) -> st ∈ ["pending"; "running"] ->
  told l s -> told l (write_row storageKey row s).
Proof.
  intros Hnd Hst Hin Hs. pose proof (told_quiet l s Hs) as Hq. destruct Hs as [(n & Ht & Hn) Hsaid].
  destruct (ctx_Err (jc_world s)) eqn:Hc; [rewrite write_row_stopped; [by split; [exists n|]|by unfold stopped; rewrite Hc]|].
  rewrite write_row_live by done. split; [exists n; split; [by apply trail_write|done]|]. left. cbn.
  rewrite (said_write st) by done. set_solver.
Qed.
Lemma told_event l e s :
  told l s -> told (l ++ [e]) (write_row (audit_key auditBaseKey (length l)) (audit_row (length l) e) s).
Proof.
  intros Hs. pose proof (told_quiet l s Hs) as Hq. destruct Hs as [(n & Ht & Hn) Hsaid].
  destruct (ctx_Err (jc_world s)) eqn:Hc.
  - assert (Hstop : stopped s) by (by unfold stopped; rewrite Hc). rewrite write_row_stopped by done.
    split; [|done]. exists (n `min` length l). split; [|by right].
    rewrite take_app_le by lia. destruct (decide (n <= length l)) as [Hle|Hgt].
    + by rewrite Nat.min_l by lia.
    + rewrite Nat.min_r by lia. rewrite take_ge in Ht by lia. by rewrite take_ge by lia.
  - destruct Hn as [Hn|Hstop]; [|by destruct Hstop]. rewrite write_row_live by done.
    rewrite take_ge in Ht by lia. split.
    + exists (S (length l)). rewrite take_ge by (rewrite length_app; cbn; lia).
      split; [by apply trail_event|left; rewrite length_app; cbn; lia].
    + cbn. rewrite said_event by done. exact Hsaid.
Qed.

Lemma tracked_persist l r : tracked l r -> tracked l (doPersist storageKey startedAt r).
Proof.
  intros [Hl Ht]. split; [done|]. unfold doPersist. cbn [run_ctx ar_ctx].
  apply (told_write l "running"); [by apply (bool_decide_unpack _)|done|set_solver|done].
Qed.
Lemma tracked_trigger l r : tracked l r -> tracked l (trigger storageKey startedAt r).
Proof. unfold trigger. destruct (too_soon r); [done|apply tracked_persist]. Qed.
Lemma tracked_output l data r : tracked l r -> tracked l (on_output storageKey startedAt data r).
Proof. intros Hr. by apply tracked_trigger. Qed.
Lemma tracked_event l e r : tracked l r -> tracked (l ++ [e]) (on_audit_event storageKey auditBaseKey startedAt e r).
Proof. intros [<- Ht]. apply tracked_trigger. split; [done|]. by apply told_event. Qed.

(** A world whose calls leave the tasks alone and the store working, and in
    which a stopped step stays stopped. While the agent runs, its sub-agents
    write their rows. *)
Definition steady (rows : string -> Prop) (p p' : db * W) : Prop :=
  (forall path, rows path -> db_tasks p'.1 !! path = db_tasks p.1 !! path) /\ (quiet_db p.1 -> quiet_db p'.1) /\
  (ctx_Err p.2 <> None -> ctx_Err p'.2 <> None).
#[export] Instance steady_preorder rows : PreOrder (steady rows).
Proof.
  unfold steady. split; [done|]. intros p1 p2 p3 (Ht & Hq & Hs) (Ht' & Hq' & Hs'). split; [|auto].
  intros path Hp. rewrite Ht' by done. auto.
Qed.
Notation still := (steady (fun _ => True)).
Definition no_sub_agent (path : string) : Prop := forall name, name ∈ names -> path <> task_path (sub_agent_key prefix name).
Lemma still_steady rows p p' : still p p' -> steady rows p p'.
Proof. intros (Ht & Hqs). split; [|done]. intros path _. by apply Ht. Qed.

Class SteadyWorld : Prop := {
  steady_run : forall msg p, steady no_sub_agent p (aw_run msg p);
  steady_next : forall p, steady no_sub_agent p (aw_next p).1;
  steady_cancel : forall p, steady no_sub_agent p (aw_cancel p);
  steady_close : forall p, still p (aw_Close p);
  steady_exec : forall input, preserves still (aw_Exec input);
  steady_start : forall image name mounts, preserves still (aw_StartSandbox image name mounts);
  steady_tool : forall name, preserves still (aw_NewTool name);
  steady_agent : forall name llm text tools cfg, preserves still (aw_NewAgent name llm text tools cfg);
  steady_session : preserves still aw_NewSession;
  steady_runner : forall opts, preserves still (aw_NewRunner opts);
  steady_append : forall ev, preserves still (aw_AppendEvent ev);
  steady_uuid : preserves still aw_uuid;
  steady_file : forall vol path, preserves still (aw_ReadFile vol path);
  steady_fetch : forall uri, preserves still (aw_Fetch uri) }.
Context `{!SteadyWorld}.

Lemma no_sub_agent_own path : own_row path -> no_sub_agent path.
Proof. intros Ho name Hn ->. by apply (proj2 (proj2 Hapart) name Hn). Qed.
Lemma told_step l s d w :
  steady no_sub_agent (jc_db s, jc_world s) (d, w) -> told l s -> told l (set_world w (set_jc_db d s)).
Proof.
  intros (Ht & Hq & Hstop) [(n & Htr & Hn) Hsaid].
  assert (Hkeep : stopped s -> stopped (set_world w (set_jc_db d s))) by exact Hstop.
  assert (Hown : forall path, own_row path -> db_tasks d !! path = db_tasks (jc_db s) !! path)
    by (intros path Ho; apply Ht, no_sub_agent_own, Ho).
  split; [exists n; split; [by apply (trail_same _ (jc_db s))|naive_solver]|].
  assert (Hsame : said d = said (jc_db s)) by (unfold said; rewrite Hown by (by left); done).
  cbn. rewrite Hsame. naive_solver.
Qed.
Lemma tracked_step f : (forall p, steady no_sub_agent p (f p)) -> forall r, keeps_watch tracked r (step_pair f r).
Proof.
  intros Hf r l [Hl Ht]. split; [done|]. specialize (Hf (jc_db (ar_ctx r), jc_world (ar_ctx r))).
  unfold step_pair. cbn. destruct (f _) as [d w]. by apply told_step.
Qed.
Lemma tracked_pair {A} (m : ST (db * W) A) : preserves still m -> preserves (keeps_watch tracked) (on_run (on_pair m)).
Proof.
  intros Hm r l [Hl Ht]. unfold on_run, on_pair. specialize (Hm (jc_db (ar_ctx r), jc_world (ar_ctx r))).
  destruct (m _) as [a [d w]]. split; [done|]. apply told_step; [by apply still_steady|done].
Qed.
Lemma tracked_reads {A} (m : ST db A) : preserves only_reads m -> preserves (keeps_watch tracked) (on_run (on_store m)).
Proof.
  intros Hm r l [Hl Ht]. split; [unfold on_run; by destruct (on_store m _)|].
  pose proof (told_quiet l _ Ht) as Hq. unfold on_run, on_store, on_db, with_ctx. cbn.
  destruct (ctx_Err (jc_world (ar_ctx r))) as [e|] eqn:Hc.
  - set (d0 := set_faults (true :: db_faults (jc_db (ar_ctx r))) (jc_db (ar_ctx r))).
    destruct (Hm d0) as [Hsame _]. destruct (m d0) as [a d]. cbn in Hsame |- *.
    pose proof (told_step l (ar_ctx r) (set_faults (db_faults (jc_db (ar_ctx r))) d) (jc_world (ar_ctx r))) as Hstep.
    destruct (ar_ctx r). apply Hstep; [|done]. unfold steady. cbn in *. rewrite Hsame. done.
  - destruct (Hm (jc_db (ar_ctx r))) as [_ Hsame]. destruct (m _) as [a d]. cbn in Hsame |- *.
    rewrite (Hsame Hq). by destruct (ar_ctx r).
Qed.

#[local] Existing Instances handler_host handler_env.
Definition run_observer : @Observer (agent_run W) (handler_host storageKey auditBaseKey startedAt)
    (handler_env storageKey auditBaseKey startedAt).
Proof.
  refine {| watch := tracked |}.
  - intros l e r. apply tracked_event.
  - intros u r l Hr. by apply tracked_trigger.
  - intros stream data r l. apply tracked_output.
  - intros msg. apply (tracked_step (aw_run msg)), steady_run.
  - intros r l [Hl Ht]. cbn. pose proof (steady_next (jc_db (ar_ctx r), jc_world (ar_ctx r))) as Hn.
    destruct (aw_next _) as [[d w] [chunks item]]. cbn [fst] in Hn |- *.
    assert (Hr1 : tracked l (run_ctx (fun s => set_world w (set_jc_db d s)) r)) by (split; [done|by apply told_step]).
    revert Hr1. generalize (run_ctx (fun s => set_world w (set_jc_db d s)) r). clear -Hapart.
    induction chunks as [|c chunks IH]; intros r Hr; [done|]. by apply IH, tracked_output.
  - apply (tracked_step aw_cancel), steady_cancel.
  - apply (tracked_step aw_Close). intros p. apply still_steady, steady_close.
  - intros input. apply tracked_pair, steady_exec.
  - intros image name mounts. apply tracked_pair, steady_start.
  - intros name. apply tracked_pair, steady_tool.
  - intros name llm text tools cfg. apply tracked_pair, steady_agent.
  - apply tracked_pair, steady_session.
  - intros opts. apply tracked_pair, steady_runner.
  - intros ev. apply tracked_pair, steady_append.
  - apply tracked_pair, steady_uuid.
  - intros A m. apply tracked_reads.
Defined.
End trail.
Notation still := (steady (fun _ => True)).

(** *** Loading leaves the rows alone *)
Section loads.
Context {W : Type} `{!AgentWorld W, !Cancellation W, !AgentYaml, !Namespace} (hooks : string) (names : list string).
Context `{!SteadyWorld hooks names}.

Definition job_steady (s s' : jobctx W) : Prop := still (jc_db s, jc_world s) (jc_db s', jc_world s').
#[export] Instance job_steady_preorder : PreOrder job_steady.
Proof. unfold job_steady. split; [intros s; reflexivity|intros s1 s2 s3 ? ?; by etrans]. Qed.

Lemma steady_pair {A} (m : ST (db * W) A) : preserves still m -> preserves job_steady (on_pair m).
Proof.
  intros Hm s. unfold on_pair. specialize (Hm (jc_db s, jc_world s)). destruct (m _) as [a [d w]]. exact Hm.
Qed.

Ltac loads :=
  repeat first
    [ assumption | match goal with Hq : forall _, preserves _ _ |- _ => apply Hq end
    | apply steady_pair, (steady_file hooks names) | apply steady_pair, (steady_fetch hooks names)
    | apply preserves_ret; apply _ | apply preserves_fail; apply _ | apply preserves_gets; apply _
    | apply preserves_wrap | apply preserves_attempt | apply preserves_bind; [apply _| |intros ?] ].

Lemma loadRawBytes_steady path : preserves job_steady (loadRawBytesFromVolume path).
Proof.
  unfold loadRawBytesFromVolume. destruct (cut_at path "/") as [[mountName relativePath]|]; loads.
  destruct (_ !! mountName); loads.
Qed.
Lemma loadAgentConfig_steady step : preserves job_steady (loadAgentConfig step).
Proof.
  pose proof loadRawBytes_steady as Hraw. unfold loadAgentConfig. destruct (negb _); [loads|]. destruct (negb _); [|loads].
  destruct (parseURI _) as [[[] uri]|e]; loads.
Qed.
Lemma merge_steady step : preserves job_steady (mergeAgentExternalConfig step).
Proof. pose proof loadAgentConfig_steady as Hload. unfold mergeAgentExternalConfig. loads. Qed.
Lemma loadAgentStep_steady step : preserves job_steady (loadAgentStep step).
Proof.
  pose proof loadRawBytes_steady as Hraw. pose proof merge_steady as Hmerge. unfold loadAgentStep. cbv zeta.
  destruct (negb _); [loads|]. destruct (negb _); loads.
Qed.
Lemma resolveAgentTools_steady tools prefix : preserves job_steady (resolveAgentTools tools prefix).
Proof.
  pose proof loadAgentConfig_steady as Hload. pose proof merge_steady as Hmerge.
  assert (Hagent : forall tool, preserves job_steady (resolveAgentToolDef tool prefix))
    by (intros tool; unfold resolveAgentToolDef; loads).
  assert (Htask : forall tool, preserves job_steady (resolveTaskToolDef tool prefix))
    by (intros tool; unfold resolveTaskToolDef, mergeTaskConfigFromFile; loads).
  induction tools as [|tool tools IH]; cbn [resolveAgentTools]; [loads|].
  destruct (negb _); [loads|]. destruct (negb _); loads.
Qed.
Lemma mount_outputs_steady RunID outputs : forall mounts, preserves job_steady (mount_outputs RunID outputs mounts).
Proof.
  induction outputs as [|name outputs IH]; intros mounts; cbn [mount_outputs]; [loads|].
  apply preserves_bind; [apply _|loads|]. intros known. apply preserves_bind; [apply _|by intros s|]. intros _. apply IH.
Qed.
Lemma prepareAgentRun_steady RunID JobName step prefix : preserves job_steady (prepareAgentRun RunID JobName step prefix).
Proof.
  pose proof (mount_outputs_steady RunID) as Hmount. unfold prepareAgentRun, resolveAgentMounts. cbv zeta.
  apply preserves_bind; [apply _|apply preserves_wrap, resolveAgentTools_steady|]. intros tools. loads. apply Hmount.
Qed.
Lemma prepareAgentRun_keys RunID JobName step prefix s arc s' :
  prepareAgentRun RunID JobName step prefix s = (Ok arc, s') ->
  agentRunContext.storageKey arc = run_key RunID JobName prefix /\
  agentRunContext.auditBaseKey arc = "/agent-audit/" ++ RunID ++ "/jobs/" ++ JobName ++ "/" ++ prefix ++ "/events".
Proof.
  unfold prepareAgentRun, bind, ret.
  destruct (wrap _ (resolveAgentTools _ _) s) as [[tools|e] s1]; [|done].
  destruct (wrap _ (resolveAgentMounts _ _) s1) as [[res|e] s2]; [|done]. by intros [= <- _].
Qed.
End loads.

(** *** What a step leaves in the store *)
Section recorded.
Context `{!Namespace, !OrderBy, !JsonText}.

(** The row of a key has a field with this value. *)
Definition shows (key k : string) (v : json) (d : db) : Prop :=
  exists fs, (Get key d).1 = Ok (JObj fs) /\ get_field k fs = Some v.
(** A value that a merge takes as it is. *)
Definition whole (v : json) : Prop := forall acc, patch_value acc v = Some v.

Lemma row_shows key row d k v :
  quiet_db d -> NoDup row.*1 -> get_field k row = Some v -> whole v -> shows key k v (Set_ key (JObj row) d).2.
Proof.
  intros Hq Hnd Hk Hv. unfold shows. rewrite Get_no_faults by (by apply quiet_set). rewrite Set_no_faults by done. cbn [snd fst].
  destruct (lookup_upsert_task (task_path key) (extractRunID (task_path key)) (JObj row) d) as (t & -> & ->).
  destruct (db_tasks d !! task_path key) as [old|]; [|by exists row].
  rewrite jsonb_patch_obj. eexists. split; [done|]. rewrite get_patch_fields by done. by rewrite Hk, Hv.
Qed.
Lemma whole_string s : whole (JStr s).
Proof. by intros acc. Qed.
Lemma whole_log log : log <> [] -> whole (audit_json log).
Proof. destruct log; [done|by intros _ acc]. Qed.
End recorded.

Section facts.
Context {W : Type} `{!AgentWorld W, !Cancellation W, !AgentYaml, !Driver W, !Format, !Namespace, !OrderBy, !JsonText, !SentinelText}.
Context (RunID JobName PipelineID : string) (AgentBaseURLs : list (string * string)).
Context (getenv : string -> string) (schemaJSON : Schema -> option string) (format_float : Float64.t -> string).
Context (unmarshal : string -> result value).
Context (expr_Compile : string -> result unit) (expr_Run : string -> string -> string -> result (option bool)).
Notation Execute := (agent_Execute RunID JobName PipelineID AgentBaseURLs getenv schemaJSON format_float unmarshal
                       expr_Compile expr_Run).

(** The step, and the sub-agents among its tools. *)
Context (pathPrefix : string) (names : list string).
Definition hooks_key : string := BaseStorageKey RunID JobName ++ "/" ++ pathPrefix.
Definition audit_base : string :=
  "/agent-audit/" ++ RunID ++ "/jobs/" ++ JobName ++ "/" ++ pathPrefix ++ "/events".
Context `{!SteadyWorld hooks_key names}.
Notation key := (run_key RunID JobName pathPrefix).
Notation base := audit_base.
Context (Hapart : keys_apart key base hooks_key names).

(** The row of the step shows the log, and how the step ended. *)
Definition ended_as (e : option serr) (log : list AuditEvent.t) (d : db) : Prop :=
  (log <> [] -> shows key "audit_log" (audit_json log) d) /\
  ((e = None /\ (shows key "status" (JStr "success") d \/ shows key "status" (JStr "limit_exceeded") d)) \/
   (exists name, e = Some (TaskFailedError name 1) /\ shows key "status" (JStr "failure") d)).
(** What a step leaves that was told the events [log]: while its context is
    live, all their rows and, unless it panicked, the outcome in its own; of a
    stopped step the rows of the first events, and a row that does not say how
    it ended. *)
Definition recorded (prior : option json) (e : option serr) (log : list AuditEvent.t) (s : jobctx W) : Prop :=
  (exists n, trail base (take n log) (jc_db s) /\ (length log <= n \/ stopped s)) /\
  ((ctx_Err (jc_world s) = None /\ e <> Some (SPlain (ESentinel SPanic)) /\ ended_as e log (jc_db s)) \/
   (e = Some (SPlain (ESentinel SPanic)) \/ stopped s) /\
   (said key (jc_db s) ∈ [Some (JStr "pending"); Some (JStr "running")] \/
    stopped s /\ said key (jc_db s) = prior)).

Lemma told_recorded prior e log s :
  told key base prior log s -> e = Some (SPlain (ESentinel SPanic)) \/ stopped s -> recorded prior e log s.
Proof. intros [Hn Hsaid] He. split; [done|]. by right. Qed.

(** The last row of a step. *)
Lemma last_row prior e log row s :
  told key base prior log s -> e <> Some (SPlain (ESentinel SPanic)) -> 
  (forall d, quiet_db d -> ended_as e log (Set_ key (JObj row) d).2) ->
  recorded prior e log (write_row key row s).
Proof.
  intros Ht He Hrow. pose proof (told_quiet _ _ _ _ _ Ht) as Hq. destruct (ctx_Err (jc_world s)) eqn:Hc.
  - assert (Hstop : stopped s) by (by unfold stopped; rewrite Hc). rewrite write_row_stopped by done.
    apply told_recorded; [done|by right].
  - rewrite write_row_live by done. destruct Ht as [(n & Ht & Hn) _]. split.
    + exists n. split; [by eapply trail_write|done].
    + left. split_and!; [exact Hc|exact He|]. by apply Hrow.
Qed.

Lemma finalize_records prior name startedAt out (r : agent_run W) log :
  tracked key base prior log r -> (forall res, out = Ok res -> AgentResult.AuditLog res = log) ->
  recorded prior (finalizeAgentRun name key startedAt out r).1 log (finalizeAgentRun name key startedAt out r).2.
Proof.
  intros Hr Hout. unfold finalizeAgentRun. destruct out as [res|err].
  - specialize (Hout res eq_refl). cbv zeta. set (r' := flush key startedAt r).
    assert (Hr' : tracked key base prior log r')
      by (unfold r', flush; destruct (pending r); [by eapply tracked_persist|done]).
    cbn [fst snd]. apply last_row; [by destruct Hr'|done|]. intros d Hq. split.
    + intros Hne. apply row_shows; [done|by apply (bool_decide_unpack _)| |by apply whole_log]. cbn. by rewrite Hout.
    + left. split; [done|].
      destruct (decide (AgentResult.Status res = "limit_exceeded")) as [Hs|Hs]; [right|left];
        (apply row_shows; [done|by apply (bool_decide_unpack _)| |apply whole_string]); cbn; by destruct (decide (AgentResult.Status res = "limit_exceeded")).
  - destruct Hr as [Hl Ht]. cbn [fst snd]. apply last_row; [done|done|]. intros d Hq. split.
    + intros Hne. apply row_shows; [done|by apply (bool_decide_unpack _)| |by apply whole_log]. cbn. by rewrite Hl.
    + right. exists name. split; [done|]. apply row_shows; [done|by apply (bool_decide_unpack _)|done|apply whole_string].
Qed.

Lemma told_start s :
  trail base [] (jc_db s) ->
  told key base (said key (jc_db s)) [] (write_row key [("status", JStr "pending"); ("started_at", JStr (RFC3339 (db_now (jc_db s))))] s).
Proof.
  intros Ht. pose proof (proj1 Ht) as Hq. destruct (ctx_Err (jc_world s)) eqn:Hc.
  - assert (Hstop : stopped s) by (by unfold stopped; rewrite Hc). rewrite write_row_stopped by done.
    split; [exists 0; split; [done|by right]|by right].
  - rewrite write_row_live by done. split; [exists 0; split; [by eapply trail_write|left; cbn; lia]|]. left. cbn.
    rewrite (said_write key "pending") by first [done|by apply (bool_decide_unpack _)]. by left.
Qed.

Lemma run_records fuel step arc s e s' :
  agentRunContext.storageKey arc = key -> agentRunContext.auditBaseKey arc = base -> trail base [] (jc_db s) ->
  run_and_finalize RunID PipelineID AgentBaseURLs getenv schemaJSON format_float unmarshal expr_Compile expr_Run
    fuel step arc s = Some (e, s') ->
  exists log, recorded (said key (jc_db s)) e log s'.
Proof.
  intros Hkey Hbase Ht. unfold run_and_finalize. rewrite Hkey, Hbase. cbv zeta.
  pose proof (told_start s Ht) as Hs1. set (s1 := write_row key _ s) in *. set (prior := said key (jc_db s)) in *.
  set (startedAt := db_now (jc_db s)).
  assert (Hr1 : tracked key base prior [] (mkAgentRun s1 "" None [] None false)) by (by split).
  intros Hrun. apply fmap_Some in Hrun as ([out r] & Hrun & Heq).
  eapply (@RunAgent_reports _ _ _ (run_observer key base startedAt hooks_key names prior Hapart))
    in Hrun as (log & Hw & Hlog); [|exact Hr1].
  exists log. destruct (panicked out).
  - injection Heq as -> ->. destruct Hw as [_ Hw]. apply told_recorded; [done|by left].
  - pose proof (finalize_records prior (AgentStep.Agent_ step) startedAt out r log Hw Hlog) as Hf.
    rewrite <- Heq in Hf. exact Hf.
Qed.

(** C28: in a working store, an agent step that gets as far as its run leaves
    its trail, whatever rows its sub-agents write meanwhile: while its context is
    live the row of each event the callbacks were told, in order, holds that
    event, there are no other such rows, and the row of the step shows the same
    log, with the status failure exactly when the step fails; after a panic it
    still says pending or running. A step that is stopped leaves the rows of a
    first part of its events, and its row does not say how it ended. A step that
    ends before its run leaves no row. *)
Theorem Execute_records fuel step s e s' :
  quiet_db (jc_db s) ->
  (forall i, db_tasks (jc_db s) !! task_path (audit_key base i) = None) ->
  Execute fuel step pathPrefix s = Some (e, s') ->
  (exists name err, e = Some (TaskErroredError name (Some (SPlain err))) /\
     forall path, db_tasks (jc_db s') !! path = db_tasks (jc_db s) !! path) \/
  exists log, recorded (said key (jc_db s)) e log s'.
Proof.
  intros Hq Hfresh. unfold agent_Execute.
  pose proof (loadAgentStep_steady hooks_key names step s) as (Hd1 & Hq1 & _).
  destruct (loadAgentStep step s) as [[agentStep|err] s1]; cbn in Hd1, Hq1;
    [|intros [= <- <-]; left; eexists _, _; split; [done|intros path; by apply Hd1]].
  set (s2 := set_executed _ s1).
  pose proof (prepareAgentRun_steady hooks_key names RunID JobName agentStep pathPrefix s2) as (Hd2 & Hq2 & _).
  destruct (prepareAgentRun RunID JobName agentStep pathPrefix s2) as [[arc|err] s3] eqn:Hp; cbn in Hd2, Hq2;
    [|intros [= <- <-]; left; eexists _, _; split; [done|intros path; rewrite Hd2 by done; by apply Hd1]].
  apply prepareAgentRun_keys in Hp as [Hkey Hbase]. intros Hrun. right.
  assert (Hsaid : said key (jc_db s3) = said key (jc_db s)) by (unfold said; by rewrite Hd2, Hd1).
  rewrite <- Hsaid. eapply run_records; [exact Hkey|exact Hbase| |exact Hrun]. split; [by apply Hq2, Hq1|].
  split; [by intros ? ? ?|]. intros i _. by rewrite Hd2, Hd1.
Qed.
End facts.

(** *** Keys of plain names

    The namespace is empty, as by default; the prefix of a step is a path of
    plain components. *)
Section keys.
Context `{!Namespace} (RunID JobName : string) (prefix : list string).
Hypothesis (Hns : namespace = "") (Hrun : plain RunID = true) (Hjob : plain JobName = true).
Hypothesis (Hne : prefix <> []) (Hprefix : Forall (fun s => plain s = true) prefix).
Context (names : list string) (Hnames : Forall (fun s => plain s = true) names).

Definition audit_parts (i : nat) : list string :=
  ["agent-audit"; RunID; "jobs"; JobName] ++ prefix ++ ["events"; Itoa (Z.of_nat i)].
Definition run_parts : list string := ["pipeline"; RunID; "jobs"; JobName] ++ prefix ++ ["run"].

Lemma Join_app l l' : l <> [] -> l' <> [] -> Join (l ++ l')%list "/" = Join l "/" ++ "/" ++ Join l' "/".
Proof.
  intros Hl Hl'. induction l as [|x l IH]; [done|]. destruct l as [|y l].
  - destruct l' as [|z l']; [done|]. reflexivity.
  - cbn [app]. rewrite !Join_cons2. cbn [app] in IH. rewrite IH by done. by rewrite !append_assoc.
Qed.
Lemma audit_key_parts i : audit_key (audit_base RunID JobName (Join prefix "/")) i = slash_path (audit_parts i).
Proof.
  unfold audit_key, audit_base, slash_path, audit_parts. rewrite !Join_app by (first [done|by destruct prefix]).
  change (Join ["agent-audit"; RunID; "jobs"; JobName] "/") with ("agent-audit/" ++ RunID ++ "/jobs/" ++ JobName).
  change (Join ["events"; Itoa (Z.of_nat i)] "/") with ("events/" ++ Itoa (Z.of_nat i)).
  rewrite ?append_assoc. reflexivity.
Qed.
Lemma run_key_parts : run_key RunID JobName (Join prefix "/") = slash_path run_parts.
Proof.
  unfold run_key, BaseStorageKey, slash_path, run_parts. rewrite !Join_app by (first [done|by destruct prefix]).
  change (Join ["pipeline"; RunID; "jobs"; JobName] "/") with ("pipeline/" ++ RunID ++ "/jobs/" ++ JobName).
  rewrite ?append_assoc. reflexivity.
Qed.
Lemma audit_parts_plain i : Forall (fun s => plain s = true) (audit_parts i).
Proof.
  unfold audit_parts. repeat (apply Forall_cons; split; [done|]). apply Forall_app. split; [done|].
  repeat (apply Forall_cons; split; [first [done|apply (plain_zero_pad 0); lia]|]). constructor.
Qed.
Lemma run_parts_plain : Forall (fun s => plain s = true) run_parts.
Proof.
  unfold run_parts. repeat (apply Forall_cons; split; [done|]). apply Forall_app. split; [done|].
  repeat (apply Forall_cons; split; [done|]). constructor.
Qed.
Definition sub_agent_parts (name : string) : list string :=
  ["pipeline"; RunID; "jobs"; JobName] ++ prefix ++ ["sub-agents"; name; "run"].
Lemma sub_agent_key_parts name :
  sub_agent_key (hooks_key RunID JobName (Join prefix "/")) name = slash_path (sub_agent_parts name).
Proof.
  unfold sub_agent_key, hooks_key, BaseStorageKey, slash_path, sub_agent_parts.
  rewrite !Join_app by (first [done|by destruct prefix]).
  change (Join ["pipeline"; RunID; "jobs"; JobName] "/") with ("pipeline/" ++ RunID ++ "/jobs/" ++ JobName).
  change (Join ["sub-agents"; name; "run"] "/") with ("sub-agents/" ++ name ++ "/run").
  rewrite ?append_assoc. reflexivity.
Qed.
Lemma sub_agent_parts_plain name : name ∈ names -> Forall (fun s => plain s = true) (sub_agent_parts name).
Proof.
  intros Hn. unfold sub_agent_parts. repeat (apply Forall_cons; split; [done|]). apply Forall_app. split; [done|].
  apply Forall_cons. split; [done|]. apply Forall_cons. split; [|by apply Forall_singleton].
  by eapply Forall_forall in Hnames.
Qed.
Lemma plain_keys_apart :
  keys_apart (run_key RunID JobName (Join prefix "/")) (audit_base RunID JobName (Join prefix "/"))
    (hooks_key RunID JobName (Join prefix "/")) names.
Proof.
  pose proof audit_parts_plain as Ha. pose proof run_parts_plain as Hr.
  split_and!; [intros i j|intros i|intros name Hn].
  - rewrite !audit_key_parts, !task_path_parts by done. intros Heq%slash_path_inj; [|done..].
    injection Heq as Heq. apply app_inv_head in Heq. injection Heq as Heq. apply Itoa_inj in Heq; lia.
  - rewrite audit_key_parts, run_key_parts, !task_path_parts by done. by intros Heq%slash_path_inj.
  - pose proof (sub_agent_parts_plain name Hn) as Hs. unfold own_row.
    rewrite sub_agent_key_parts, run_key_parts, !task_path_parts by done. intros [Heq|[i Heq]].
    + apply slash_path_inj in Heq; [|done..]. injection Heq as Heq. by apply app_inv_head in Heq.
    + rewrite audit_key_parts, task_path_parts in Heq by done. by apply slash_path_inj in Heq.
Qed.
End keys.

(** ** Witnesses

    The runner of AgentLoop.v; each event takes 0.4 seconds, and meanwhile the
    sub-agent "helper" writes its row. Nobody stops the step. *)
#[local] Instance ex_live_step : Cancellation ExHost.t := fun _ => None.
#[local] Existing Instances ex_ns Tasks.ex_text stable_order StepProps.ex_format ex_sentinel.
Definition ex_job_result : RunResult.t := RunResult.mk 0 "" "{}" RunComplete.
#[local] Instance ex_agent_world : AgentWorld ExHost.t := {|
  aw_run := fun msg p => (p.1, host_run msg p.2);
  aw_next := fun p => let '(w, item) := host_next p.2 in
    let d := (Set_ "/pipeline/r1/jobs/build/0/sub-agents/helper/run" (JObj [("status", JStr "success")]) p.1).2 in
    ((set_now (db_now d + 400000000) d, w), ([], item));
  aw_cancel := id; aw_Close := id;
  aw_Exec := fun _ => ret ex_job_result;
  aw_StartSandbox := fun _ _ _ => ret tt; aw_NewTool := fun _ => ret tt; aw_NewAgent := fun _ _ _ _ _ => ret tt;
  aw_NewSession := ret tt; aw_NewRunner := fun _ => ret tt; aw_AppendEvent := fun _ => ret tt;
  aw_uuid := ret "uuid"; aw_elapsed := fun _ _ => "1s"; aw_UTC := fun _ => "2024-05-01T09:00:00Z";
  aw_ReadFile := fun _ _ => ret "prompt: x"; aw_Fetch := fun _ => fail (EMsg "offline") |}.
#[local] Instance ex_steady : SteadyWorld (W := ExHost.t) (hooks_key "r1" "build" "0") ["helper"].
Proof.
  split; intros; try (intros p); try (split; [by intros|split; [intros Hq; exact Hq|by intros]]).
  destruct p as [d w]. unfold aw_next, ex_agent_world. cbn [fst snd]. destruct (host_next w) as [w' item]. cbn [fst].
  split; [|split; [intros Hq; cbn; by apply quiet_set|by intros]].
  intros path Hp. cbn. apply Set_same_but, (Hp "helper"). by left.
Qed.
(** A text in which YAML finds nothing wrong, and one in which it does. *)
#[local] Instance ex_yaml : AgentYaml := {|
  yaml_fields := fun text => if HasPrefix text "prompt: " then Ok [("prompt", VStr (TrimPrefix text "prompt: "))]
                             else Err (EMsg "cannot unmarshal");
  yaml_config := fun _ => Ok None; yaml_context := fun _ => Ok None; yaml_task := fun _ => Err (EMsg "cannot unmarshal") |}.
#[local] Instance ex_agent_driver : Driver ExHost.t := {|
  Steps.RunContainer := fun _ w => (w, Ok 0); Steps.Wait_ := fun _ _ w => (w, ([], JNull, Exited 0 "" ""));
  Steps.CreateVolume := fun _ _ w => (w, Ok tt);
  ReadConfig := fun _ w => (w, Err (EMsg "none")); FetchConfig := fun _ w => (w, Err (EMsg "none"));
  SecretsManager := fun _ => None |}.

Definition ex_fields : AgentFields.t := AgentFields.mk "coder" "" "Fix the build" "openai/gpt" "" "" None None "".
Definition ex_agent_step (limits : option AgentLimitsConfig.t) : AgentStep.t :=
  AgentStep.mk ex_fields "" None None [] None limits None None "" None
    [AgentFields.mk "helper" "" "Look into it" "" "" "" None None ""].
Definition ex_agent_job (turns more : list ExTurn.t) (ending : option err) : jobctx ExHost.t :=
  mkCtx ExHost.t empty_db [] ∅ 0 FailureKindNone ∅ ∅ (ex_state turns more ending).
Notation ex_step limits s :=
  (agent_Execute "r1" "build" "p1" [] (fun _ => "sk-1") (fun _ => Some "{}") Schema.ex_format
    ex_parse (fun _ => Ok tt) (fun _ _ _ => Ok None) 40 (ex_agent_step limits) "0" s).

Definition ex_answer_job : jobctx ExHost.t := ex_agent_job [ex_calls; ex_answers "{}"] [] None.

(** An agent that calls a tool and answers, while its sub-agent writes its row. *)
Lemma Execute_records_witness :
  exists s' log, ex_step None ex_answer_job = Some (None, s') /\
    recorded "r1" "build" "0" None None log s' /\ row_status (sub_agent_key (hooks_key "r1" "build" "0") "helper") (jc_db s') = Some "success".
Proof.
  assert (Hc : (fun o => (o.1, row_status (sub_agent_key (hooks_key "r1" "build" "0") "helper") (jc_db o.2))) <$> ex_step None ex_answer_job
               = Some (None, Some "success")) by (vm_compute; reflexivity).
  destruct (ex_step None ex_answer_job) as [[e s']|] eqn:He; [|discriminate Hc]. injection Hc as -> Hrow. exists s'.
  assert (Hk : keys_apart (run_key "r1" "build" "0") (audit_base "r1" "build" "0") (hooks_key "r1" "build" "0") ["helper"]).
  { apply (plain_keys_apart "r1" "build" ["0"]); [reflexivity..|discriminate| |];
      (apply Forall_cons; split; [reflexivity|apply Forall_nil_2]). }
  assert (Hf : forall i, db_tasks (jc_db ex_answer_job) !! task_path (audit_key (audit_base "r1" "build" "0") i) = None)
    by (intros i; apply lookup_empty).
  destruct (Execute_records "r1" "build" "p1" [] (fun _ => "sk-1") (fun _ => Some "{}") Schema.ex_format
    ex_parse (fun _ => Ok tt) (fun _ _ _ => Ok None) "0" ["helper"] Hk 40 _ ex_answer_job None s' eq_refl Hf He)
    as [(name & err & Hx & _)|[log Hlog]]; [discriminate Hx|].
  exists log. split; [reflexivity|]. split; [exact Hlog|exact Hrow].
Defined.

(** What the store has of the step: its status, the types of its log, and the
    indices of the rows of the events. *)
Definition ex_row_log (key : string) (d : db) : list string :=
  match (Get key d).1 with
  | Ok (JObj fs) => match get_field "audit_log" fs with
      | Some (JArr l) => (fun j => match get_field "type" (fields j) with Some (JStr t) => t | _ => "" end) <$> l
      | _ => [] end
  | _ => []
  end.
Definition ex_outcome (o : option (option serr * jobctx ExHost.t)) : option (option serr * option string * list string) :=
  (fun '(e, s) => (e, row_status (run_key "r1" "build" "0") (jc_db s), ex_row_log (run_key "r1" "build" "0") (jc_db s))) <$> o.

(** ** What a step does where it should not *)

(** An agent that is stopped at a limit ends as a success, with or without an
    answer: the steps after it run. *)
Lemma limited_agent_succeeds :
  ex_outcome (ex_step (Some (AgentLimitsConfig.mk 1 0)) (ex_agent_job [ex_calls; ex_calls] [] None)) =
    Some (None, Some "limit_exceeded", ["user_message"; "limit_warning"]).
Proof. vm_compute. reflexivity. Qed.

(** The image of a task keeps the tag of its repository; that of an agent
    loses it. *)
Lemma agent_image_loses_tag :
  let cfg := TaskConfig.mk [] ContainerLimits.zero ContainerLimits.zero ∅ ""
    (ImageResource.mk {["repository" := "golang"; "tag" := "1.22"]} "registry-image") [] [] "" None in
  resolveAgentImage (Some cfg) = "golang" /\ resolveImage (Some cfg) = "golang:1.22".
Proof. split; vm_compute; reflexivity. Qed.

(** A file that is not YAML is passed over: the agent runs without it. *)
Lemma broken_file_is_ignored : mergeAgentFromContents "{" ex_fields = ex_fields.
Proof. vm_compute. reflexivity. Qed.
