(* ===== verification/Resources.v ===== *)
(** * Resources: get and put steps (runtime/backwards/get_handler.go,
    put_handler.go, resource_helpers.go, resources/registry.go)

    A get step asks a resource for its versions, chooses one, fetches it into a
    volume and records it; a put step pushes a new version and fetches it back.
    Native resources are Go values of a registry, the others run in containers.
    The handlers are written once against [StepContext], the accesses they make
    to the job's state, and used in two ways: as processes of the job that the
    goroutines of other steps interleave with, and alone, as functions on the
    state. [Alone_sound] relates the two. *)
From stdpp Require Import relations.
From S2P Require Import Prelude Storage Json Db GoStrings Sql Tasks Config Secrets Paths.
From S2P Require Import ResourceStore Containers Procs Steps StepProps.
Open Scope string_scope.

(** ** The registry of native resources *)

(** [Check], [In] and [Out] on the outside world; the metadata of a version is
    not used by the steps. *)
Record NativeResource {W : Type} : Type := mkNative {
  res_Name : string;
  res_Check : option (gmap string json) -> option version_map ->
    W -> W * result (list (option version_map));
  res_In : Volume.t -> option (gmap string json) -> option version_map ->
    option (gmap string string) -> W -> W * result unit;
  res_Out : option Volume.t -> option (gmap string json) -> option (gmap string string) ->
    W -> W * result (option version_map) }.
Arguments NativeResource : clear implicits.

Module Registry.
Section registry.
Context {W : Type}.
Definition t : Type := gmap string (NativeResource W).

(** [None]: a name registered twice panics. *)
Definition NewRegistry (list : list (NativeResource W)) : option t :=
  foldl (fun m r => m ≫= fun m =>
    match m !! res_Name r with Some _ => None | None => Some (<[res_Name r := r]> m) end)
    (Some ∅) list.
Definition Get (r : t) (name : string) : result (NativeResource W) :=
  match r !! name with
  | Some res => Ok res
  | None => Err (EMsg ("unknown resource type: " ++ name))
  end.
Definition IsNative (r : t) (name : string) : bool := bool_decide (is_Some (r !! name)).
Definition List (r : t) : list string := merge_sort String.le (map_to_list r).*1.
End registry.
Arguments t : clear implicits.
End Registry.

(** ** Configured resources *)
Definition findResource (rs : list Resource.t) (name : string) : result Resource.t :=
  match List.find (fun r => bool_decide (Resource.Name r = name)) rs with
  | Some r => Ok r
  | None => Err (EMsg ("resource " ++ q name ++ " not found"))
  end.
Definition findResourceType (rts : list ResourceType.t) (typeName : string) : result ResourceType.t :=
  match List.find (fun rt => bool_decide (ResourceType.Name rt = typeName)) rts with
  | Some rt => Ok rt
  | None => Err (EMsg ("resource type " ++ q typeName ++ " not found"))
  end.
Definition image_of (rt : ResourceType.t) : string :=
  default "" (as_string (ResourceType.Source rt ≫= (.!! "repository"))).

(** JSON: a nil map is null. *)
Definition any_map_json (m : option (gmap string json)) : json :=
  match m with Some m => JObj (map_to_list m) | None => JNull end.
Definition version_json (v : option version_map) : json :=
  match v with Some _ => versionToAnyMap v | None => JNull end.

(** [json.Marshal] of a container's input, [json.Unmarshal] of what it prints. *)
Class ResourceText : Type := {
  marshal_json : json -> string;
  parse_versions : string -> result (list (option version_map));
  parse_pushed : string -> result (option version_map) }.

(** ** The accesses of a handler *)
Class StepContext (W : Type) (M : Type -> Type) : Type := {
  sc_store :: Store M;
  sc_local : forall {A}, (jobctx W -> jobctx W * A) -> M A }.

Section context.
Context {W : Type} {M : Type -> Type} `{!StepContext W M}.
Definition sc_known (name : string) : M (option string) :=
  sc_local (W := W) (fun s => (s, jc_KnownVolumes s !! name)).
Definition sc_learn (name volName : string) : M unit :=
  sc_local (W := W) (fun s => (set_known (<[name := volName]> (jc_KnownVolumes s)) s, tt)).
Definition sc_executed (name : string) : M unit :=
  sc_local (W := W) (fun s => (set_executed (jc_ExecutedTasks s ++ [name])%list s, tt)).
Definition sc_world {A} (f : W -> W * A) : M A :=
  sc_local (fun s => let '(w, a) := f (jc_world s) in (set_world w s, a)).
End context.

(** *** As processes *)
Definition Process (W A : Type) : Type := (A -> proc (jobctx W) serr) -> proc (jobctx W) serr.
#[export] Instance process_store {W} `{!Namespace, !JsonText} : Store (Process W) := {|
  st_ret := fun A a k => k a;
  st_bind := fun A B m f k => m (fun a => f a k);
  st_get := fun key k => act (fun s => let '(r, s) := on_db (Get key) s in (s, r)) k;
  st_set := fun key payload k => act (fun s => let '(r, s) := on_db (Set_ key payload) s in (s, r)) k;
  st_now := fun k => act (fun s => (s, db_now (jc_db s))) k |}.
#[export] Instance process_context {W} `{!Namespace, !JsonText} : StepContext W (Process W) := {|
  sc_store := process_store;
  sc_local := fun A f k => act f k |}.

(** *** Alone *)
Definition Alone (W A : Type) : Type := jobctx W -> A * jobctx W.
#[export] Instance alone_store {W} `{!Namespace, !JsonText} : Store (Alone W) := {|
  st_ret := fun A a s => (a, s);
  st_bind := fun A B m f s => let '(a, s') := m s in f a s';
  st_get := fun key => on_db (Get key);
  st_set := fun key payload => on_db (Set_ key payload);
  st_now := fun s => (db_now (jc_db s), s) |}.
#[export] Instance alone_context {W} `{!Namespace, !JsonText} : StepContext W (Alone W) := {|
  sc_store := alone_store;
  sc_local := fun A f s => let '(s', a) := f s in (a, s') |}.

(** ** Waiting for a container

    Before each poll the context is looked at. *)
Section waiting.
Context {W : Type} `{!ContainerDriver W, !Cancellation W}.
Fixpoint poll_resource (fuel : nat) (id : string) (w : W) : W * option (result Z) :=
  match fuel with
  | 0 => (w, None)
  | S fuel =>
      match ctx_Err w with
      | Some e => (w, Some (Err (EWrap "context cancelled" e)))
      | None =>
          match cd_Status None id w with
          | (w, Err e) => (w, Some (Err (EWrap "container status" e)))
          | (w, Ok (Some code)) => (w, Some (Ok code))
          | (w, Ok None) => poll_resource fuel id w
          end
      end
  end.

Definition wait_resource `{!EndingContainers W} (id : string) (w : W) : W * result Z :=
  match poll_resource (cd_polls None id w) id w with
  | (w, Some r) => (w, r)
  | (w, None) => (w, Err (ESentinel SDeadlineExceeded))   (* excluded by [poll_resource_ends] *)
  end.

(** As many polls as a container can take are enough. *)
Lemma poll_resource_ends fuel id : forall w,
  is_Some (poll_status fuel None id w).2 -> is_Some (poll_resource fuel id w).2.
Proof.
  induction fuel as [|fuel IH]; intros w; [done|]. cbn [poll_status poll_resource].
  destruct (ctx_Err w); [by eexists|]. destruct (cd_Status None id w) as [w' [[code|]|e]];
    [by eexists|apply IH|by eexists].
Qed.
End waiting.

(** ** The handlers *)
Section handlers.
Context {W : Type} {M : Type -> Type} `{!StepContext W M}.
Context `{!ContainerDriver W, !EndingContainers W, !Cancellation W, !VersionText, !ResourceText, !Format}.
Context (registry : Registry.t W) (Resources : list Resource.t) (ResourceTypes : list ResourceType.t).
Context (RunID JobName PipelineID : string).

Notation world := (sc_world (W := W) (M := M)).

(** The output of a container that was started; the buffers of a failed read
    are used as they are. *)
Definition container_output (taskName id : string) : M (result string) :=
  let? code := with_message ("wait for container " ++ q taskName) (world (wait_resource id)) in
  let+ logs := world (cd_Logs None id) in
  let '(stdout, stderr, _) := logs in
  st_ret (if (code =? 0)%Z then Ok stdout
          else Err (EMsg ("container " ++ q taskName ++ " exited with code " ++ Itoa code
                          ++ ": " ++ stderr))).

Definition runResourceContainer (taskName image : string) (command : list string)
    (mounts : list ContainerMount.t) (stdinData : string) : M (result string) :=
  let task := ContainerTask.mk command ContainerLimits.zero ∅ (JobName ++ "-" ++ taskName) image
                mounts false (Some stdinData) "" "" in
  let? id := with_message ("run container " ++ q taskName) (world (cd_RunContainer None task)) in
  let+ output := container_output taskName id in
  let+ _ := world (cd_Cleanup id) in
  st_ret output.

Definition fetchNativeResource (resource : Resource.t) (version : option version_map)
    (params : option (gmap string string)) : M (result unit) :=
  let name := Resource.Name resource in
  let volName := resourceVolumeName RunID name in
  let? vol := with_message ("create volume for " ++ q name) (world (cd_CreateVolume volName 0)) in
  let+ _ := sc_learn (W := W) name volName in
  let? res := with_message ("get native resource " ++ q (Resource.Type_ resource))
    (st_ret (Registry.Get registry (Resource.Type_ resource))) in
  let? _ := with_message ("native fetch " ++ q name)
    (world (res_In res vol (Resource.Source resource) version params)) in
  let+ _ := sc_executed (W := W) ("get-" ++ name) in
  st_ret (Ok tt).

Definition fetchContainerResource (resource : Resource.t) (resourceType : ResourceType.t)
    (version : option version_map) (resourceName pathPrefix : string) : M (result unit) :=
  let volName := resourceVolumeName RunID resourceName in
  let+ _ := sc_learn (W := W) resourceName volName in
  let stdinData := marshal_json (JObj [("source", any_map_json (Resource.Source resource));
                                       ("version", version_json version)]) in
  let? _ := with_message ("container fetch " ++ q resourceName)
    (runResourceContainer ("get-" ++ resourceName ++ "-" ++ pathPrefix) (image_of resourceType)
       ["/opt/resource/in"; "./" ++ resourceName] [ContainerMount.mk volName resourceName 0]
       stdinData) in
  let+ _ := sc_executed (W := W) ("get-" ++ resourceName) in
  st_ret (Ok tt).

(** *** get *)
Definition checkNative (resource : Resource.t) (lastKnownVersion : option version_map)
    : M (result (list (option version_map))) :=
  let? res := with_message ("get native resource " ++ q (Resource.Type_ resource))
    (st_ret (Registry.Get registry (Resource.Type_ resource))) in
  let? versions := with_message ("native check " ++ q (Resource.Name resource))
    (world (res_Check res (Resource.Source resource) lastKnownVersion)) in
  let+ _ := sc_executed (W := W) ("check-" ++ Resource.Name resource) in
  st_ret (Ok versions).

Definition checkContainer (resource : Resource.t) (resourceType : ResourceType.t)
    (lastKnownVersion : option version_map) (pathPrefix : string)
    : M (result (list (option version_map))) :=
  let name := Resource.Name resource in
  let stdinData := marshal_json (JObj (("source", any_map_json (Resource.Source resource)) ::
    match lastKnownVersion with Some _ => [("version", version_json lastKnownVersion)] | None => [] end)) in
  let? stdout := with_message ("container check " ++ q name)
    (runResourceContainer ("check-" ++ name ++ "-" ++ pathPrefix) (image_of resourceType)
       ["/opt/resource/check"] [] stdinData) in
  let+ _ := sc_executed (W := W) ("check-" ++ name) in
  with_message ("parse check output for " ++ q name) (st_ret (parse_versions stdout)).

(** [resourceType] is nil for a native resource. *)
Definition checkVersions (resource : Resource.t) (resourceType : option ResourceType.t)
    (lastKnownVersion : option version_map) (pathPrefix : string)
    : M (result (list (option version_map))) :=
  match resourceType with
  | None => checkNative resource lastKnownVersion
  | Some rt => checkContainer resource rt lastKnownVersion pathPrefix
  end.

(** [versions[len(versions)-1]] of a list that is not empty. *)
Definition last_version (versions : list (option version_map)) : option version_map :=
  default None (last versions).

(** The first version that was not stored yet, or the last one. *)
Definition choose_every (stored : list StoredVersion.t) (versions : list (option version_map))
    : option version_map :=
  let processed := (fun sv => marshal_version (StoredVersion.Version sv)) <$> stored in
  match List.find (fun v => bool_decide (marshal_version v ∉ processed)) versions with
  | Some v => v
  | None => last_version versions
  end.

Definition resolveEveryVersion (scopedName : string) (versions : list (option version_map))
    : M (result (option version_map)) :=
  let? stored := with_message "list stored versions" (ListResourceVersions scopedName 0) in
  st_ret (Ok (choose_every stored versions)).

Definition resolveVersionToFetch (step : Step) (resource : Resource.t)
    (resourceType : option ResourceType.t) (scopedName pathPrefix : string)
    : M (result (option version_map)) :=
  let versionMode := GetVersionMode (GetConfig_ step) in
  if decide (versionMode = "pinned") then
    st_ret (match GetPinnedVersion (GetConfig_ step) with
            | Some pinned => Ok (Some pinned)
            | None => Err (EMsg ("pinned version is nil for resource " ++ q (Resource.Name resource)))
            end)
  else
    let? lastKnownVersion :=
      (if decide (versionMode = "every") then
         let? stored := with_message "get latest stored version"
           (GetLatestResourceVersion scopedName) in
         st_ret (Ok (stored ≫= StoredVersion.Version))
       else st_ret (Ok None)) in
    let? versions := checkVersions resource resourceType lastKnownVersion pathPrefix in
    match versions with
    | [] => st_ret (Err (EMsg ("no versions found for resource " ++ q (Resource.Name resource))))
    | _ =>
        if decide (versionMode = "every") then resolveEveryVersion scopedName versions
        else st_ret (Ok (last_version versions))
    end.

Definition resource_key (kind pathPrefix resourceName : string) : string :=
  BaseStorageKey RunID JobName ++ "/" ++ pathPrefix ++ "/" ++ kind ++ "/" ++ resourceName.
Definition resource_row (status resourceName : string) : list (string * json) :=
  [("status", JStr status); ("resource", JStr resourceName)].

(** The native resource, or the type whose image runs it. *)
Definition find_type (msg : string) (resource : Resource.t) : result (option ResourceType.t) :=
  if Registry.IsNative registry (Resource.Type_ resource) then Ok None
  else match findResourceType ResourceTypes (Resource.Type_ resource) with
       | Ok rt => Ok (Some rt)
       | Err e => Err (EWrap msg e)
       end.

Definition fetch (resource : Resource.t) (resourceType : option ResourceType.t)
    (version : option version_map) (params : option (gmap string string))
    (resourceName pathPrefix : string) : M (result unit) :=
  match resourceType with
  | None => fetchNativeResource resource version params
  | Some rt => fetchContainerResource resource rt version resourceName pathPrefix
  end.

(** A failed push or fetch is recorded in the step's row. *)
Definition or_error_row {A B} (msg key resourceName : string) (m : M (result A))
    (k : A -> M (result B)) : M (result B) :=
  let+ r := m in
  match r with
  | Ok a => k a
  | Err e =>
      let+ _ := st_set key (JObj (resource_row "error" resourceName
                                  ++ [("error", JStr (SError (SPlain e)))])) in
      st_ret (Err (EWrap msg e))
  end.

(** From the fetched version on. *)
Definition record_version (kind key resourceName : string) (version : option version_map)
    : M (result unit) :=
  let? _ := with_message (kind ++ " step save version")
    (SaveResourceVersion (getScopedResourceName PipelineID resourceName) version JobName) in
  with_message "storage set success"
    (st_set key (JObj (resource_row "success" resourceName ++ [("version", versionToAnyMap version)]))).

Definition get_Execute (step : Step) (pathPrefix : string) : M (result unit) :=
  let resourceName := Get_ step in
  let key := resource_key "get" pathPrefix resourceName in
  let? _ := with_message "storage set pending"
    (st_set key (JObj (resource_row "pending" resourceName))) in
  let? resource := with_message "get step" (st_ret (findResource Resources resourceName)) in
  let? resourceType := st_ret (find_type "get step" resource) in
  let? version := with_message "get step resolve version"
    (resolveVersionToFetch step resource resourceType
       (getScopedResourceName PipelineID resourceName) pathPrefix) in
  or_error_row "get step fetch" key resourceName
    (fetch resource resourceType version (Params step) resourceName pathPrefix)
    (fun _ => record_version "get" key resourceName version).

(** *** put *)
Definition pushNative (resource : Resource.t) (params : option (gmap string string))
    : M (result (option version_map)) :=
  let? res := with_message ("get native resource " ++ q (Resource.Type_ resource))
    (st_ret (Registry.Get registry (Resource.Type_ resource))) in
  let+ volName := sc_known (W := W) (Resource.Name resource) in
  let+ volCtx := match volName with
    | None => st_ret None
    | Some volName =>
        let+ vol := world (cd_CreateVolume volName 0) in
        st_ret (match vol with Ok vol => Some vol | Err _ => None end)
    end in
  let? version := with_message ("native push " ++ q (Resource.Name resource))
    (world (res_Out res volCtx (Resource.Source resource) params)) in
  let+ _ := sc_executed (W := W) ("put-" ++ Resource.Name resource) in
  st_ret (Ok version).

Definition pushContainer (resource : Resource.t) (resourceType : ResourceType.t)
    (params : option (gmap string string)) (resourceName pathPrefix : string)
    : M (result (option version_map)) :=
  let volName := resourceVolumeName RunID resourceName in
  let+ _ := sc_learn (W := W) resourceName volName in
  let stdinData := marshal_json (JObj (("source", any_map_json (Resource.Source resource)) ::
    match params with
    | Some params => [("params", JObj (prod_map id JStr <$> map_to_list params))]
    | None => []
    end)) in
  let? stdout := with_message ("container push " ++ q resourceName)
    (runResourceContainer ("put-" ++ resourceName ++ "-" ++ pathPrefix) (image_of resourceType)
       ["/opt/resource/out"; "./" ++ resourceName] [ContainerMount.mk volName resourceName 0]
       stdinData) in
  let+ _ := sc_executed (W := W) ("put-" ++ resourceName) in
  with_message ("parse push output for " ++ q resourceName) (st_ret (parse_pushed stdout)).

Definition push (resource : Resource.t) (resourceType : option ResourceType.t)
    (params : option (gmap string string)) (resourceName pathPrefix : string)
    : M (result (option version_map)) :=
  match resourceType with
  | None => pushNative resource params
  | Some rt => pushContainer resource rt params resourceName pathPrefix
  end.

Definition put_Execute (step : Step) (pathPrefix : string) : M (result unit) :=
  let resourceName := Put_ step in
  let key := resource_key "put" pathPrefix resourceName in
  let? _ := with_message "storage set pending"
    (st_set key (JObj (resource_row "pending" resourceName))) in
  let? resource := with_message "put step" (st_ret (findResource Resources resourceName)) in
  let? resourceType := st_ret (find_type "put step" resource) in
  or_error_row "put step push" key resourceName
    (push resource resourceType (Params step) resourceName pathPrefix)
    (fun version =>
       let noGet := match PutConfig_ step with Some c => PutConfig.NoGet c | None => false end in
       or_error_row "put step implicit get" key resourceName
         (if noGet then st_ret (Ok tt)
          else fetch resource resourceType version None resourceName pathPrefix)
         (fun _ => record_version "put" key resourceName version)).
End handlers.

(** ** The handlers do not look at how their accesses are run

    A relation between two interpretations of the accesses that holds of each
    access, and that sequencing preserves, holds of every handler. *)
Record monad_relation {M N : Type -> Type} `{!Store M, !Store N}
    (R : forall A, M A -> N A -> Prop) : Prop := {
  rel_ret : forall A (a : A), R A (st_ret a) (st_ret a);
  rel_bind : forall A B m n (f : A -> M B) (g : A -> N B),
    R A m n -> (forall a, R B (f a) (g a)) -> R B (st_bind m f) (st_bind n g) }.
Record store_relation {M N : Type -> Type} `{!Store M, !Store N}
    (R : forall A, M A -> N A -> Prop) : Prop := {
  rel_monad : monad_relation R;
  rel_get : forall key, R _ (st_get key) (st_get key);
  rel_set : forall key payload, R _ (st_set key payload) (st_set key payload);
  rel_now : R _ st_now st_now }.

(** The accesses to the job's own state that leave the database alone. *)
Definition local_access {W A : Type} (f : jobctx W -> jobctx W * A) : Prop :=
  forall s, jc_db (f s).1 = jc_db s.
Definition local_relation {W : Type} {M N : Type -> Type} `{!StepContext W M, !StepContext W N}
    (R : forall A, M A -> N A -> Prop) : Prop :=
  forall A (f : jobctx W -> jobctx W * A), local_access f -> R A (sc_local f) (sc_local f).

Create HintDb rel discriminated.

Section monad_relation.
Context {M N : Type -> Type} `{!Store M, !Store N} (R : forall A, M A -> N A -> Prop).
Context (HM : monad_relation R).
Arguments R {A} _ _.

Lemma rel_or_return {A B} m n (f : A -> M (result B)) (g : A -> N (result B)) :
  R m n -> (forall a, R (f a) (g a)) -> R (or_return m f) (or_return n g).
Proof.
  intros Hm Hf. apply (rel_bind _ HM); [done|]. intros [a|e]; [apply Hf|apply (rel_ret _ HM)].
Qed.
Lemma rel_with_message {A} msg (m : M (result A)) n :
  R m n -> R (with_message msg m) (with_message msg n).
Proof. intros Hm. apply (rel_bind _ HM); [done|]. intros r. apply (rel_ret _ HM). Qed.
End monad_relation.

Section store_relation.
Context {M N : Type -> Type} `{!Store M, !Store N, !VersionText} (R : forall A, M A -> N A -> Prop).
Context (HR : store_relation R).
Arguments R {A} _ _.
Let HM := rel_monad _ HR.

Ltac rel_step :=
  first [ apply (rel_or_return _ HM) | apply (rel_with_message _ HM) | apply (rel_bind _ HM)
        | apply (rel_ret _ HM) | apply (rel_get _ HR) | apply (rel_set _ HR) | apply (rel_now _ HR)
        | solve [auto with rel] | progress intros | progress case_match ].

Lemma rel_safeStorageGet key : R (safeStorageGet key) (safeStorageGet key).
Proof. unfold safeStorageGet. repeat rel_step. Qed.
Hint Resolve rel_safeStorageGet : rel.
Lemma rel_getMetaCount name : R (getMetaCount name) (getMetaCount name).
Proof. unfold getMetaCount. repeat rel_step. Qed.
Hint Resolve rel_getMetaCount : rel.
Lemma rel_insertVersion name dk vj v job now :
  R (insertVersion name dk vj v job now) (insertVersion name dk vj v job now).
Proof. unfold insertVersion. repeat rel_step. Qed.
Hint Resolve rel_insertVersion : rel.
Lemma rel_updateExistingDedupEntry entry name vj job now :
  R (updateExistingDedupEntry entry name vj job now) (updateExistingDedupEntry entry name vj job now).
Proof. unfold updateExistingDedupEntry. repeat rel_step. Qed.
Hint Resolve rel_updateExistingDedupEntry : rel.
Lemma rel_SaveResourceVersion name v job :
  R (SaveResourceVersion name v job) (SaveResourceVersion name v job).
Proof. unfold SaveResourceVersion. repeat rel_step. Qed.
Lemma rel_GetLatestResourceVersion name :
  R (GetLatestResourceVersion name) (GetLatestResourceVersion name).
Proof. unfold GetLatestResourceVersion. repeat rel_step. Qed.
Lemma rel_list_versions name n : forall i, R (list_versions name i n) (list_versions name i n).
Proof. induction n as [|n IH]; intros i; cbn [list_versions]; repeat rel_step. Qed.
Hint Resolve rel_list_versions : rel.
Lemma rel_ListResourceVersions name limit :
  R (ListResourceVersions name limit) (ListResourceVersions name limit).
Proof. unfold ListResourceVersions. repeat rel_step. Qed.
End store_relation.

Section local_relation.
Context {W : Type} {M N : Type -> Type} `{!StepContext W M, !StepContext W N}.
Context `{!ContainerDriver W, !EndingContainers W, !Cancellation W, !VersionText, !ResourceText, !Format}.
Context (registry : Registry.t W) (RunID JobName : string).
Context (R : forall A, M A -> N A -> Prop) (HM : monad_relation R) (HL : local_relation (W := W) R).
Arguments R {A} _ _.

Lemma rel_world {A} (f : W -> W * A) : R (sc_world f) (sc_world f).
Proof. apply HL. intros s. by destruct (f (jc_world s)). Qed.
Lemma rel_known name : R (sc_known (W := W) name) (sc_known (W := W) name).
Proof. by apply HL. Qed.
Lemma rel_learn name vol : R (sc_learn (W := W) name vol) (sc_learn (W := W) name vol).
Proof. by apply HL. Qed.
Lemma rel_executed name : R (sc_executed (W := W) name) (sc_executed (W := W) name).
Proof. by apply HL. Qed.

Ltac rel_step :=
  first [ apply rel_world | apply rel_known | apply rel_learn | apply rel_executed
        | apply (rel_or_return _ HM) | apply (rel_with_message _ HM)
        | apply (rel_bind _ HM) | apply (rel_ret _ HM)
        | solve [auto with rel] | progress intros | progress case_match ].

Lemma rel_runResourceContainer taskName image command mounts stdinData :
  R (runResourceContainer JobName taskName image command mounts stdinData)
    (runResourceContainer JobName taskName image command mounts stdinData).
Proof. unfold runResourceContainer, container_output. repeat rel_step. Qed.
Hint Resolve rel_runResourceContainer : rel.

Lemma rel_fetch resource rt version params name prefix :
  R (fetch registry RunID JobName resource rt version params name prefix)
    (fetch registry RunID JobName resource rt version params name prefix).
Proof. unfold fetch, fetchNativeResource, fetchContainerResource. repeat rel_step. Qed.
Hint Resolve rel_fetch : rel.

Lemma rel_push resource rt params name prefix :
  R (push registry RunID JobName resource rt params name prefix)
    (push registry RunID JobName resource rt params name prefix).
Proof. unfold push, pushNative, pushContainer. repeat rel_step. Qed.
Hint Resolve rel_push : rel.

Lemma rel_checkVersions resource rt last prefix :
  R (checkVersions registry JobName resource rt last prefix)
    (checkVersions registry JobName resource rt last prefix).
Proof. unfold checkVersions, checkNative, checkContainer. cbv zeta. repeat rel_step. Qed.
End local_relation.

Record context_relation {W : Type} {M N : Type -> Type} `{!StepContext W M, !StepContext W N}
    (R : forall A, M A -> N A -> Prop) : Prop := {
  ctx_store : store_relation R;
  ctx_local : local_relation (W := W) R }.

Section context_relation.
Context {W : Type} {M N : Type -> Type} `{!StepContext W M, !StepContext W N}.
Context `{!ContainerDriver W, !EndingContainers W, !Cancellation W, !VersionText, !ResourceText, !Format}.
Context (registry : Registry.t W) (Resources : list Resource.t) (ResourceTypes : list ResourceType.t).
Context (RunID JobName PipelineID : string).
Context (R : forall A, M A -> N A -> Prop) (HR : context_relation (W := W) R).
Arguments R {A} _ _.
Let HS := ctx_store _ HR.
Let HM := rel_monad _ HS.
Let HL := ctx_local _ HR.

Ltac rel_step :=
  first [ apply (rel_SaveResourceVersion _ HS) | apply (rel_GetLatestResourceVersion _ HS)
        | apply (rel_ListResourceVersions _ HS) | apply (rel_checkVersions _ _ _ HM HL)
        | apply (rel_fetch _ _ _ _ HM HL) | apply (rel_push _ _ _ _ HM HL)
        | apply (rel_or_return _ HM) | apply (rel_with_message _ HM)
        | apply (rel_bind _ HM) | apply (rel_ret _ HM) | apply (rel_get _ HS)
        | apply (rel_set _ HS) | apply (rel_now _ HS)
        | solve [auto with rel] | progress intros | progress case_match ].

Lemma rel_resolveVersionToFetch step resource rt scoped prefix :
  R (resolveVersionToFetch registry JobName step resource rt scoped prefix)
    (resolveVersionToFetch registry JobName step resource rt scoped prefix).
Proof.
  unfold resolveVersionToFetch, resolveEveryVersion.
  cbv zeta. repeat rel_step.
Qed.
Hint Resolve rel_resolveVersionToFetch : rel.

Lemma rel_record_version kind key name version :
  R (record_version (W := W) JobName PipelineID kind key name version)
    (record_version (W := W) JobName PipelineID kind key name version).
Proof. unfold record_version. repeat rel_step. Qed.
Hint Resolve rel_record_version : rel.

Lemma rel_or_error_row {A B} msg key name m n (f : A -> M (result B)) (g : A -> N (result B)) :
  R m n -> (forall a, R (f a) (g a)) ->
  R (or_error_row (W := W) msg key name m f) (or_error_row (W := W) msg key name n g).
Proof. intros Hm Hf. unfold or_error_row. repeat rel_step. Qed.

Lemma rel_get_Execute step prefix :
  R (get_Execute registry Resources ResourceTypes RunID JobName PipelineID step prefix)
    (get_Execute registry Resources ResourceTypes RunID JobName PipelineID step prefix).
Proof. unfold get_Execute. cbv zeta. repeat first [apply rel_or_error_row | rel_step]. Qed.
Lemma rel_put_Execute step prefix :
  R (put_Execute registry Resources ResourceTypes RunID JobName PipelineID step prefix)
    (put_Execute registry Resources ResourceTypes RunID JobName PipelineID step prefix).
Proof. unfold put_Execute. cbv zeta. repeat first [apply rel_or_error_row | rel_step]. Qed.
End context_relation.

(** *** The functions of the version store, on the database of the job *)
Section lifts.
Context {W : Type} `{!Namespace, !JsonText, !VersionText}.

Definition lifts (A : Type) (m : Alone W A) (n : Calls A) : Prop :=
  forall s, m s = ((n (jc_db s)).1, set_jc_db (n (jc_db s)).2 s).

Lemma lifts_relation : store_relation lifts.
Proof.
  split; [split|..].
  - intros A a s. by destruct s.
  - intros A B m n f g Hm Hf s. simpl. rewrite Hm. destruct (n (jc_db s)) as [a d]. simpl.
    by rewrite Hf.
  - intros key s. simpl. unfold on_db. simpl. by destruct (Get key _).
  - intros key payload s. simpl. unfold on_db. simpl. by destruct (Set_ key payload _).
  - intros s. by destruct s.
Qed.
End lifts.

(** ** As part of a job *)
Section sound.
Context {W : Type} `{!Namespace, !JsonText}.
Context (P : db -> Prop).
Let I : jobctx W -> Prop := fun s => P (jc_db s).
Context (P_set : forall key payload d, P d -> P (Set_ key payload d).2).
Context (P_get : forall key d, P d -> P (Get key d).2).

(** The process keeps every such invariant of the database, and run by itself
    it does what the function does. *)
Definition sound (A : Type) (p : Process W A) (m : Alone W A) : Prop :=
  (forall k, (forall a, keeps I (k a)) -> keeps I (p k)) /\
  (forall Q s k, wp I Q (m s).2 (k (m s).1) -> wp I Q s (p k)).

Lemma sound_act {A} (f : jobctx W -> jobctx W * A) :
  (forall s, I s -> I (f s).1) -> sound A (act f) (fun s => ((f s).2, (f s).1)).
Proof.
  intros Hf. split.
  - intros k Hk. by apply keeps_bind_act.
  - intros Q s k Hk. by apply wp_act_eq.
Qed.

Lemma sound_ext {A} (p : Process W A) m m' : (forall s, m s = m' s) -> sound A p m -> sound A p m'.
Proof. intros Hm [Hk Hw]. split; [done|]. intros Q s k. rewrite <- Hm. apply Hw. Qed.

Lemma sound_context : context_relation (W := W) sound.
Proof.
  split; [split; [split|..]|].
  - intros A a. split; [intros k Hk; apply Hk|by intros Q s k].
  - intros A B m n f g [Hk Hw] Hf. split.
    + intros k HB. apply Hk. intros a. by apply Hf.
    + intros Q s k Hq. apply Hw. apply Hf. simpl in Hq. by destruct (n s).
  - intros key. eapply sound_ext; [|apply sound_act].
    + intros s. simpl. by destruct (on_db _ s).
    + intros s HP. unfold I, on_db in *. simpl. specialize (P_get key (jc_db s) HP).
      by destruct (Get key _).
  - intros key payload. eapply sound_ext; [|apply sound_act].
    + intros s. simpl. by destruct (on_db _ s).
    + intros s HP. unfold I, on_db in *. simpl. specialize (P_set key payload (jc_db s) HP).
      by destruct (Set_ key payload _).
  - eapply sound_ext; [|by apply sound_act]. done.
  - intros A f Hf. eapply sound_ext; [|apply sound_act].
    + intros s. simpl. by destruct (f s).
    + intros s. unfold I. by rewrite Hf.
Qed.
End sound.

(** The handlers of get and put steps among those a job runs. *)
Section job.
Context {W : Type} `{!Namespace, !JsonText}.
Context `{!ContainerDriver W, !EndingContainers W, !Cancellation W, !VersionText, !ResourceText, !Format}.
Context (registry : Registry.t W) (Resources : list Resource.t) (ResourceTypes : list ResourceType.t).
Context (RunID JobName PipelineID : string).
Context (rest : string -> Step -> string -> proc (jobctx W) serr).

Definition ended (r : result unit) : proc (jobctx W) serr :=
  PRet (match r with Ok _ => None | Err e => Some (SPlain e) end).

Definition resource_Execute (stepType : string) (step : Step) (pathPrefix : string)
    : proc (jobctx W) serr :=
  if decide (stepType = "get") then
    get_Execute (M := Process W) registry Resources ResourceTypes RunID JobName PipelineID
      step pathPrefix ended
  else if decide (stepType = "put") then
    put_Execute (M := Process W) registry Resources ResourceTypes RunID JobName PipelineID
      step pathPrefix ended
  else rest stepType step pathPrefix.

Context (P : db -> Prop).
Context (P_set : forall key payload d, P d -> P (Set_ key payload d).2).
Context (P_get : forall key d, P d -> P (Get key d).2).
Context (P_rest : forall ty step prefix, keeps (fun s => P (jc_db s)) (rest ty step prefix)).

Lemma keeps_resource_Execute ty step prefix :
  keeps (fun s => P (jc_db s)) (resource_Execute ty step prefix).
Proof.
  pose proof (sound_context (W := W) P P_set P_get) as HR. unfold resource_Execute.
  assert (He : forall r, keeps (fun s => P (jc_db s)) (ended r)) by (intros r; constructor).
  case_decide; [|case_decide; [|done]].
  - by apply (rel_get_Execute registry Resources ResourceTypes RunID JobName PipelineID _ HR).
  - by apply (rel_put_Execute registry Resources ResourceTypes RunID JobName PipelineID _ HR).
Qed.

Lemma wp_get_Execute Q s step prefix :
  (forall r s', get_Execute (M := Alone W) registry Resources ResourceTypes RunID JobName PipelineID
     step prefix s = (r, s') -> Q s' (match r with Ok _ => None | Err e => Some (SPlain e) end)) ->
  wp (fun s => P (jc_db s)) Q s (resource_Execute "get" step prefix).
Proof.
  intros HQ. pose proof (sound_context (W := W) P P_set P_get) as HR.
  unfold resource_Execute. rewrite decide_True by done.
  destruct (rel_get_Execute registry Resources ResourceTypes RunID JobName PipelineID _ HR
    step prefix) as [_ Hw].
  apply Hw. constructor. apply HQ, surjective_pairing.
Qed.
End job.

(** ** What a get step does

    The handlers run alone, on a store that does not fail. *)
Section untouched.
Context {W : Type} `{!Namespace, !JsonText}.
Context `{!ContainerDriver W, !EndingContainers W, !Cancellation W, !VersionText, !ResourceText, !Format}.
Context (registry : Registry.t W) (RunID JobName : string).

Definition untouched (A : Type) (m _ : Alone W A) : Prop := forall s, jc_db (m s).2 = jc_db s.
Lemma untouched_monad :
  @monad_relation _ _ (@sc_store W _ alone_context) (@sc_store W _ alone_context) untouched.
Proof.
  split; [done|]. intros A B m n f g Hm Hf s. simpl. specialize (Hm s).
  destruct (m s) as [a s']. simpl in *. by rewrite (Hf a s').
Qed.
Lemma untouched_local : local_relation (W := W) untouched.
Proof. intros A f Hf s. simpl. specialize (Hf s). by destruct (f s). Qed.

(** Checking, fetching and pushing are between the resource, the containers and
    the job's volumes. *)
Lemma checkVersions_db resource rt last prefix s :
  jc_db (checkVersions (M := Alone W) registry JobName resource rt last prefix s).2 = jc_db s.
Proof. apply (rel_checkVersions registry JobName _ untouched_monad untouched_local). Qed.
Lemma fetch_db resource rt version params name prefix s :
  jc_db (fetch (M := Alone W) registry RunID JobName resource rt version params name prefix s).2
  = jc_db s.
Proof. apply (rel_fetch registry RunID JobName _ untouched_monad untouched_local). Qed.
End untouched.

Lemma patch_fresh_strings (l : list (string * string)) : forall acc : list (string * json),
  NoDup (acc.*1 ++ l.*1)%list ->
  patch_fields (prod_map id JStr <$> l) acc = (acc ++ (prod_map id JStr <$> l))%list.
Proof.
  induction l as [|[k v] l IH]; intros acc Hnd; [by rewrite app_nil_r|].
  rewrite fmap_cons. cbn [patch_fields prod_map id fst snd].
  assert (Hk : k ∉ acc.*1) by (apply NoDup_app in Hnd as (_ & Hd & _); intros Hin;
    apply (Hd k Hin), elem_of_cons; by left).
  rewrite (get_field_not_in k acc Hk). simpl.
  assert (Hset : forall v, set_field k v acc = (acc ++ [(k, v)])%list).
  { intros w. clear -Hk. induction acc as [|[k' v'] acc IH]; [done|]. simpl in *.
    apply not_elem_of_cons in Hk as [Hne Hk]. rewrite decide_False by done. by rewrite IH. }
  rewrite Hset, IH.
  - by rewrite <- (assoc_L app).
  - rewrite fmap_app. simpl. by rewrite <- (assoc_L app).
Qed.

Lemma versionToAnyMap_fresh v : patch_value None (versionToAnyMap v) = Some (versionToAnyMap v).
Proof.
  unfold versionToAnyMap, patch_value. rewrite jsonb_patch_obj. simpl. do 2 f_equal.
  rewrite patch_fresh_strings; [done|]. apply NoDup_fst_map_to_list.
Qed.

(** *** The row of the step *)
Section rows.
Context {W : Type} `{!Namespace, !OrderBy, !JsonText, !VersionText} (Hns : namespace = "").
Implicit Types s : jobctx W.

(** A run, a job, a prefix and a resource whose names are path components. *)
Record step_names (runID job prefix name : string) : Prop := {
  sn_run : plain runID = true;
  sn_job : plain job = true;
  sn_prefix : plain prefix = true;
  sn_name : plain name = true }.

Lemma resource_key_path runID job kind prefix name :
  step_names runID job prefix name -> plain kind = true ->
  task_path (resource_key runID job kind prefix name)
  = slash_path ["pipeline"; runID; "jobs"; job; prefix; kind; name].
Proof.
  intros [] Hkind. rewrite <- task_path_parts; [|done..|by repeat constructor].
  f_equal. unfold resource_key, BaseStorageKey, slash_path. cbn [Join].
  rewrite ?append_assoc. reflexivity.
Qed.

Lemma resource_key_not_rv runID job kind prefix name n k :
  step_names runID job prefix name -> plain kind = true -> name_ok n -> key_ok k ->
  task_path (key_string n k) <> task_path (resource_key runID job kind prefix name).
Proof.
  intros Hsn Hkind (p & r & Hp & Hr & ->) Hk Heq.
  rewrite resource_key_path, key_string_parts, task_path_parts in Heq
    by (done || by apply key_parts_plain).
  apply slash_path_inj in Heq; [done|done|by apply key_parts_plain|done|].
  destruct Hsn. by repeat constructor.
Qed.

Definition put_step_row (key : string) (p : json) s : jobctx W :=
  set_jc_db (upsert_task (task_path key) (extractRunID (task_path key)) p (jc_db s)) s.
Definition step_row (key : string) s : option json :=
  taskRow.payload <$> db_tasks (jc_db s) !! task_path key.
Definition row_field (key k : string) s : option json :=
  step_row key s ≫= fun p => get_field k (fields p).

Lemma alone_set key p s :
  quiet_db (jc_db s) -> st_set (M := Alone W) key p s = (Ok tt, put_step_row key p s).
Proof. intros Hq. simpl. unfold on_db. simpl. by rewrite Set_no_faults. Qed.

Lemma put_step_row_quiet key p s : quiet_db (jc_db s) -> quiet_db (jc_db (put_step_row key p s)).
Proof. unfold quiet_db. simpl. by rewrite upsert_task_faults. Qed.
Lemma put_step_row_now key p s : db_now (jc_db (put_step_row key p s)) = db_now (jc_db s).
Proof. simpl. unfold upsert_task. by case_match. Qed.

Lemma row_field_put key ps k v s :
  NoDup ps.*1 -> get_field k ps = Some v ->
  row_field key k (put_step_row key (JObj ps) s)
  = match step_row key s with Some _ => patch_value (row_field key k s) v | None => Some v end.
Proof.
  intros Hnd Hk. unfold row_field, step_row, put_step_row. simpl.
  destruct (lookup_upsert_task (task_path key) (extractRunID (task_path key)) (JObj ps) (jc_db s))
    as (t & -> & Ht). cbn [fmap option_fmap option_map mbind option_bind]. rewrite Ht.
  destruct (db_tasks (jc_db s) !! task_path key) as [old|]; [|exact Hk].
  rewrite jsonb_patch_obj. cbn [fields]. by rewrite get_patch_fields, Hk.
Qed.

Lemma row_field_put_absent key ps k s :
  NoDup ps.*1 -> get_field k ps = None ->
  row_field key k (put_step_row key (JObj ps) s) = row_field key k s.
Proof.
  intros Hnd Hk. unfold row_field, step_row, put_step_row. simpl.
  destruct (lookup_upsert_task (task_path key) (extractRunID (task_path key)) (JObj ps) (jc_db s))
    as (t & -> & Ht). cbn [fmap option_fmap option_map mbind option_bind]. rewrite Ht.
  destruct (db_tasks (jc_db s) !! task_path key) as [old|]; [|exact Hk].
  rewrite jsonb_patch_obj. cbn [fields mbind option_bind]. by rewrite get_patch_fields, Hk.
Qed.

Lemma step_row_put_other key key' p s :
  task_path key' <> task_path key -> step_row key' (put_step_row key p s) = step_row key' s.
Proof. intros Hne. unfold step_row. simpl. by rewrite lookup_upsert_task_ne. Qed.

(** The version rows do not see it, nor it them. *)
Lemma represents_put_step runID job kind prefix name n l p s :
  step_names runID job prefix name -> plain kind = true -> name_ok n ->
  represents (row (jc_db s) n) l ->
  represents (row (jc_db (put_step_row (resource_key runID job kind prefix name) p s)) n) l.
Proof.
  intros Hsn Hkind Hn. apply represents_ext. intros k Hk. unfold row. simpl.
  rewrite lookup_upsert_task_ne; [done|]. by apply resource_key_not_rv.
Qed.
End rows.

(** *** The next version *)
Section next.
Context `{!VersionText}.
Implicit Types (l : list StoredVersion.t) (h : list version_map).

(** The JSON texts tell the versions apart. *)
Definition texts_tell (stored versions : list (option version_map)) : Prop :=
  forall v w, v ∈ stored -> w ∈ versions -> marshal_version v = marshal_version w -> v = w.

Lemma choose_every_cases l versions :
  texts_tell (StoredVersion.Version <$> l) versions ->
  (exists pre v post, versions = (pre ++ v :: post)%list /\
     (forall u, u ∈ pre -> u ∈ StoredVersion.Version <$> l) /\
     v ∉ StoredVersion.Version <$> l /\ choose_every l versions = v) \/
  (forall u, u ∈ versions -> u ∈ StoredVersion.Version <$> l) /\
  choose_every l versions = last_version versions.
Proof.
  intros Htell. unfold choose_every.
  assert (((fun sv => marshal_version (StoredVersion.Version sv)) <$> l)
    = marshal_version <$> (StoredVersion.Version <$> l)) as -> by (by rewrite <- list_fmap_compose).
  revert Htell. generalize (StoredVersion.Version <$> l). clear l. intros stored.
  generalize (last_version versions) as z. intros z.
  induction versions as [|v versions IH]; intros Htell;
    [right; split; [by intros u ?%not_elem_of_nil|done]|]. cbn [List.find].
  assert (Hin : marshal_version v ∈ marshal_version <$> stored <-> v ∈ stored).
  { rewrite list_elem_of_fmap. split; [|eauto]. intros (w & Heq & Hw).
    rewrite <- (Htell w v Hw (list_elem_of_here _ _) (eq_sym Heq)) in *. done. }
  destruct (bool_decide_reflect (marshal_version v ∉ marshal_version <$> stored)) as [Hn|Hn].
  - left. exists [], v, versions. rewrite Hin in Hn. split_and!; [done| |done..].
    by intros u ?%not_elem_of_nil.
  - apply dec_stable in Hn. rewrite Hin in Hn.
    destruct IH as [(pre & w & post & -> & Hpre & Hw & Hc)|[Hall Hc]];
      [intros u w Hu Hw; apply Htell; [done|by right]| |].
    + left. exists (v :: pre), w, post. split_and!; [done| |done|done].
      intros u [->|Hu]%elem_of_cons; auto.
    + right. split; [|done]. intros u [->|Hu]%elem_of_cons; auto.
Qed.

Lemma save_versions v job now l :
  StoredVersion.Version <$> Spec.save v job now l =
    if decide (Some v ∈ StoredVersion.Version <$> l) then StoredVersion.Version <$> l
    else ((StoredVersion.Version <$> l) ++ [Some v])%list.
Proof.
  unfold Spec.save. destruct (list_find (Spec.is_version v) l) as [[i sv]|] eqn:Hf.
  - apply list_find_Some in Hf as (Hi & Hv & _). rewrite decide_True.
    + rewrite list_fmap_insert. apply list_insert_id. by rewrite list_lookup_fmap, Hi.
    + apply list_elem_of_fmap. exists sv. split; [done|]. by eapply list_elem_of_lookup_2.
  - apply list_find_None in Hf. rewrite Forall_forall in Hf. rewrite decide_False, fmap_app; [done|].
    intros (sv & Hv & Hin)%list_elem_of_fmap. by apply (Hf sv).
Qed.

(** The stored versions are [k] consecutive ones of the history [h]. *)
Definition window h (a k : nat) : list (option version_map) := Some <$> take k (drop a h).

Lemma window_fresh h a k v i :
  NoDup h -> h !! i = Some v -> a + k <= i -> Some v ∉ window h a k.
Proof.
  intros Hnd Hi Hle (w & [= <-] & (j & Hj)%list_elem_of_lookup_1)%list_elem_of_fmap.
  apply lookup_take_Some in Hj as [Hj Hlt]. rewrite lookup_drop in Hj.
  pose proof (NoDup_lookup h _ _ _ Hnd Hi Hj). lia.
Qed.

Lemma window_last h a k : window h a (S k) =
  match h !! (a + k) with Some v => (window h a k ++ [Some v])%list | None => window h a k end.
Proof.
  unfold window. destruct (h !! (a + k)) as [v|] eqn:E.
  - by rewrite (take_S_r _ _ v), fmap_app by (by rewrite lookup_drop).
  - apply lookup_ge_None in E. rewrite !take_ge; [done|..]; rewrite length_drop; lia.
Qed.

(** The resource answers with what follows the last stored version, itself
    included: the choice is the next one, or the last again. *)
(** Versions that have their own hash have their own text. *)
Lemma hash_injective_texts h (stored versions : list (option version_map)) :
  hash_injective h -> (forall v, v ∈ (stored ++ versions)%list -> exists u, v = Some u /\ u ∈ h) ->
  texts_tell stored versions.
Proof.
  intros Hinj Hall v w Hv Hw Heq.
  destruct (Hall v) as (v' & -> & Hv'); [set_solver|]. destruct (Hall w) as (w' & -> & Hw'); [set_solver|].
  f_equal. apply Hinj; [done..|]. unfold version_hash. by rewrite Heq.
Qed.
Lemma window_elem h a k v : v ∈ window h a k -> exists u, v = Some u /\ u ∈ h.
Proof.
  intros (u & -> & Hu)%list_elem_of_fmap. exists u. split; [done|]. by eapply subseteq_drop, subseteq_take.
Qed.

Lemma choose_next h a k l :
  NoDup h -> hash_injective h -> StoredVersion.Version <$> l = window h a k -> 0 < k -> a + k <= length h ->
  exists v, h !! min (a + k) (length h - 1) = Some v /\
    choose_every l (Some <$> drop (a + k - 1) h) = Some v /\
    forall job now, StoredVersion.Version <$> Spec.save v job now l = window h a (S k).
Proof.
  intros Hnd Hinj Hl Hk Hle.
  assert (Htell : texts_tell (StoredVersion.Version <$> l) (Some <$> drop (a + k - 1) h)).
  { apply (hash_injective_texts h); [done|]. rewrite Hl. intros v [Hv|Hv]%elem_of_app; [by eapply window_elem|].
    apply list_elem_of_fmap in Hv as (u & -> & Hu). exists u. split; [done|]. by eapply subseteq_drop. }
  destruct (lookup_lt_is_Some_2 h (a + k - 1)) as [u Hu]; [lia|].
  assert (Huin : Some u ∈ window h a k).
  { apply list_elem_of_fmap_2, list_elem_of_lookup. exists (k - 1). apply lookup_take_Some.
    rewrite lookup_drop. split; [rewrite <- Hu; f_equal; lia|lia]. }
  assert (Hdrop : drop (a + k - 1) h = u :: drop (a + k) h).
  { rewrite (drop_S h u (a + k - 1) Hu). do 2 f_equal. lia. }
  destruct (choose_every_cases l (Some <$> drop (a + k - 1) h) Htell)
    as [(pre & v & post & Heq & Hpre & Hv & ->)|[Hall ->]]; rewrite Hl in *.
  - rewrite Hdrop, fmap_cons in Heq.
    destruct pre as [|u' pre]; simplify_eq/=; [done|].
    destruct (drop (a + k) h) as [|w t] eqn:Hd; [by destruct pre|].
    assert (Hw : h !! (a + k) = Some w) by (rewrite <- (Nat.add_0_r (a + k)), <- lookup_drop, Hd; done).
    assert (Hlt : a + k < length h) by (by eapply lookup_lt_Some).
    pose proof (window_fresh h a k w _ Hnd Hw (le_n _)) as Hf.
    rewrite Nat.min_l by lia.
    destruct pre as [|w' pre]; simplify_eq/=.
    + exists w. split_and!; [done..|]. intros job now. rewrite save_versions, Hl, decide_False by done.
      by rewrite window_last, Hw.
    + destruct (Hf (Hpre _ ltac:(right; left))).
  - assert (Hend : length h <= a + k).
    { destruct (decide (a + k < length h)) as [Hlt|]; [|lia].
      destruct (lookup_lt_is_Some_2 h (a + k) Hlt) as [w Hw].
      destruct (window_fresh h a k w _ Hnd Hw (le_n _)). apply Hall, list_elem_of_fmap_2.
      apply list_elem_of_lookup. exists 1. rewrite lookup_drop, <- Hw. f_equal. lia. }
    exists u. rewrite Nat.min_r by lia.
    replace (length h - 1) with (a + k - 1) by lia. split_and!; [done| |].
    + unfold last_version. rewrite Hdrop, (drop_ge h (a + k)) by lia. done.
    + intros job now. rewrite save_versions, Hl, decide_True by done.
      rewrite window_last. by rewrite (proj2 (lookup_ge_None h (a + k))) by lia.
Qed.
End next.

(** *** Recording a version *)
Section recording.
Context {W : Type} `{!Namespace, !OrderBy, !JsonText, !VersionText} (Hns : namespace = "").
Context (JobName PipelineID prefix : string).
Implicit Types s : jobctx W.

Lemma alone_or_return {A B} (m : Alone W (result A)) (k : A -> Alone W (result B)) a s s' :
  m s = (Ok a, s') -> or_return (Store0 := sc_store (W := W)) m k s = k a s'.
Proof. intros Hm. unfold or_return. simpl. by rewrite Hm. Qed.
Lemma alone_with_message {A} msg (m : Alone W (result A)) a s s' :
  m s = (Ok a, s') -> with_message (Store0 := sc_store (W := W)) msg m s = (Ok a, s').
Proof. intros Hm. unfold with_message. simpl. by rewrite Hm. Qed.

Lemma alone_Save name v job s d' :
  SaveResourceVersion (M := Calls) name v job (jc_db s) = (Ok tt, d') ->
  SaveResourceVersion (M := Alone W) name v job s = (Ok tt, set_jc_db d' s).
Proof.
  intros Hc. rewrite (rel_SaveResourceVersion lifts lifts_relation name v job s). by rewrite Hc.
Qed.
Lemma alone_Latest name s l :
  quiet_db (jc_db s) -> represents (row (jc_db s) name) l ->
  GetLatestResourceVersion (M := Alone W) name s = (Ok (last l), s).
Proof.
  intros Hq Hr. rewrite (rel_GetLatestResourceVersion lifts lifts_relation name s).
  rewrite (GetLatestResourceVersion_represents _ _ l) by done. by destruct s.
Qed.
Lemma alone_List name s l :
  quiet_db (jc_db s) -> represents (row (jc_db s) name) l ->
  ListResourceVersions (M := Alone W) name 0 s = (Ok l, s).
Proof.
  intros Hq Hr. rewrite (rel_ListResourceVersions lifts lifts_relation name 0 s).
  rewrite (ListResourceVersions_represents _ _ l) by done. by destruct s.
Qed.

(** Recording a version that was fetched. *)
Lemma record_version_stored runID kind name v s l :
  let scoped := getScopedResourceName PipelineID name in
  step_names runID JobName prefix name -> plain kind = true -> name_ok scoped ->
  quiet_db (jc_db s) -> represents (row (jc_db s) scoped) l -> no_collision v l ->
  let key := resource_key runID JobName kind prefix name in
  exists s', record_version (W := W) (M := Alone W) JobName PipelineID kind key name (Some v) s
             = (Ok tt, s') /\
    quiet_db (jc_db s') /\
    represents (row (jc_db s') scoped) (Spec.save v JobName (RFC3339Nano (db_now (jc_db s))) l) /\
    row_field key "status" s' = Some (JStr "success") /\
    (row_field key "version" s = None ->
     row_field key "version" s' = Some (versionToAnyMap (Some v))) /\
    forall key', other_path scoped (task_path key') -> task_path key' <> task_path key ->
      step_row key' s' = step_row key' s.
Proof.
  intros scoped Hsn Hkind Hn Hq Hr Hnc key.
  destruct (SaveResourceVersion_represents Hns (jc_db s) scoped l v JobName)
    as (d' & Hsave & Hq' & _ & Hr' & _ & Hframe); [done..|].
  set (s1 := set_jc_db d' s).
  set (p := JObj (resource_row "success" name ++ [("version", versionToAnyMap (Some v))])).
  exists (put_step_row key p s1). split_and!.
  - unfold record_version.
    rewrite (alone_or_return _ _ tt s s1) by (by apply alone_with_message, alone_Save).
    by apply alone_with_message, alone_set.
  - by apply put_step_row_quiet.
  - by apply represents_put_step.
  - unfold p. erewrite row_field_put; [|by apply (bool_decide_unpack _)|reflexivity].
    by destruct (step_row key s1).
  - intros Hrow. unfold p. erewrite row_field_put; [|by apply (bool_decide_unpack _)|reflexivity].
    assert (Hpath : other_path scoped (task_path key)) by
      (intros k Hk Heq; by apply (resource_key_not_rv Hns runID JobName kind prefix name scoped k)).
    assert (row_field key "version" s1 = None) as ->.
    { unfold row_field, step_row in *. simpl. by rewrite Hframe. }
    destruct (step_row key s1); [apply versionToAnyMap_fresh|done].
  - intros key' Hother Hne. rewrite step_row_put_other by done.
    unfold step_row. simpl. by rewrite Hframe.
Qed.

End recording.

(** *** [version: every] *)
Section every.
Context {W : Type} `{!Namespace, !OrderBy, !JsonText}.
Context `{!ContainerDriver W, !EndingContainers W, !Cancellation W, !VersionText, !ResourceText, !Format}.
Context (Hns : namespace = "").
Context (registry : Registry.t W) (Resources : list Resource.t) (ResourceTypes : list ResourceType.t).
Context (JobName PipelineID : string) (step : Step) (prefix : string).
Implicit Types s : jobctx W.

Notation get_step := (fun runID => get_Execute (W := W) (M := Alone W) registry Resources
  ResourceTypes runID JobName PipelineID step prefix).
Let scoped : string := getScopedResourceName PipelineID (Get_ step).
Let get_key (runID : string) : string := resource_key runID JobName "get" prefix (Get_ step).
Notation stored s := (row (jc_db s) scoped).

(** The resource, and what is assumed of it: it is reachable, and a check with
    a version answers with the history from that version on. *)
Context (resource : Resource.t) (rt : option ResourceType.t) (h : list version_map).
Context (Hfind : findResource Resources (Get_ step) = Ok resource).
Context (Htype : find_type registry ResourceTypes "get step" resource = Ok rt).
Context (Hmode : GetVersionMode (GetConfig_ step) = "every").
Context (Hcheck : forall i v s, h !! i = Some v ->
  (checkVersions (M := Alone W) registry JobName resource rt (Some v) prefix s).1
  = Ok (Some <$> drop i h)).
Context (Hfetch : forall runID v s,
  (fetch (M := Alone W) registry runID JobName resource rt v (Params step) (Get_ step) prefix s).1
  = Ok tt).
Context (Hnd : NoDup h) (Hinj : hash_injective h).

Lemma window_no_collision l a k v :
  StoredVersion.Version <$> l = window h a k -> v ∈ h -> no_collision v l.
Proof.
  intros Hl Hv sv Hin Heq. apply (list_elem_of_fmap_2 StoredVersion.Version) in Hin as Hv'.
  rewrite Hl in Hv'. apply list_elem_of_fmap in Hv' as (u & Hu & Hut).
  unfold Spec.is_version. rewrite Hu in *. f_equal. apply Hinj; [|done|done].
  by eapply subseteq_drop, subseteq_take.
Qed.

Lemma last_window h' a k v :
  0 < k -> a + k <= length h' -> last (window h' a k) = Some v ->
  exists u, v = Some u /\ h' !! (a + k - 1) = Some u.
Proof.
  intros Hk Hle. unfold window. rewrite fmap_last, last_lookup, length_take, length_drop.
  rewrite Nat.min_l by lia. intros (u & Hu & ->)%fmap_Some. exists u. split; [done|].
  apply lookup_take_Some in Hu as [Hu _]. rewrite lookup_drop in Hu. rewrite <- Hu. f_equal. lia.
Qed.

Lemma resolve_every s l a k :
  name_ok scoped -> quiet_db (jc_db s) -> represents (stored s) l ->
  StoredVersion.Version <$> l = window h a k -> 0 < k -> a + k <= length h ->
  exists s' v, resolveVersionToFetch (W := W) (M := Alone W) registry JobName step resource rt
                 scoped prefix s = (Ok (Some v), s') /\
    jc_db s' = jc_db s /\ h !! min (a + k) (length h - 1) = Some v /\
    forall job now, StoredVersion.Version <$> Spec.save v job now l = window h a (S k).
Proof.
  intros Hn Hq Hr Hl Hk Hle. unfold resolveVersionToFetch. rewrite Hmode, decide_False by done.
  rewrite !(decide_True (P := "every" = "every")) by done.
  destruct (choose_next h a k l Hnd Hinj Hl Hk Hle) as (v & Hv & Hc & Hs).
  assert (Hlast : exists sv u, last l = Some sv /\ StoredVersion.Version sv = Some u /\
                    h !! (a + k - 1) = Some u).
  { destruct (last l) as [sv|] eqn:El.
    - assert (Hlv : last (window h a k) = Some (StoredVersion.Version sv))
        by (by rewrite <- Hl, fmap_last, El).
      apply last_window in Hlv as (u & ? & ?); [|done..]. by exists sv, u.
    - apply last_None in El as ->. apply (f_equal length) in Hl.
      unfold window in Hl. rewrite !length_fmap, length_take, length_drop in Hl. simpl in Hl. lia. }
  destruct Hlast as (sv & u & El & Hu & Hhu).
  pose proof (Hcheck _ _ s Hhu) as Hch.
  pose proof (checkVersions_db registry JobName resource rt (Some u) prefix s) as Hdb.
  destruct (checkVersions (M := Alone W) _ _ _ _ (Some u) _ s) as [r s1] eqn:E1. simpl in Hch, Hdb. subst r.
  exists s1, v. split_and!; [|done..].
  erewrite alone_or_return.
  2:{ cbv beta. erewrite alone_or_return by (by apply alone_with_message, alone_Latest).
      rewrite El. simpl. by rewrite Hu. }
  rewrite (alone_or_return _ _ _ _ _ E1).
  destruct (Some <$> drop (a + k - 1) h) as [|x xs] eqn:Ed.
  { apply (f_equal length) in Ed. rewrite length_fmap, length_drop in Ed.
    apply lookup_lt_Some in Hhu. simpl in Ed. lia. }
  rewrite decide_True by done. unfold resolveEveryVersion. erewrite alone_or_return.
  2:{ apply alone_with_message, alone_List; by rewrite Hdb. }
  by rewrite <- Hc.
Qed.

(** One run of the step. *)
Record fetched (runID : string) (v : version_map) s s' : Prop := {
  fe_status : row_field (get_key runID) "status" s' = Some (JStr "success");
  fe_version : row_field (get_key runID) "version" s = None ->
    row_field (get_key runID) "version" s' = Some (versionToAnyMap (Some v));
  fe_frame : forall key, other_path scoped (task_path key) ->
    task_path key <> task_path (get_key runID) -> step_row key s' = step_row key s }.

Lemma get_next runID s l a k :
  step_names runID JobName prefix (Get_ step) -> name_ok scoped ->
  quiet_db (jc_db s) -> represents (stored s) l ->
  StoredVersion.Version <$> l = window h a k -> 0 < k -> a + k <= length h ->
  exists s' l' v, get_step runID s = (Ok tt, s') /\ quiet_db (jc_db s') /\
    represents (stored s') l' /\ StoredVersion.Version <$> l' = window h a (S k) /\
    h !! min (a + k) (length h - 1) = Some v /\ fetched runID v s s'.
Proof.
  intros Hsn Hn Hq Hr Hl Hk Hle. unfold get_Execute. fold (get_key runID).
  set (p := JObj (resource_row "pending" (Get_ step))).
  set (s1 := put_step_row (get_key runID) p s).
  erewrite alone_or_return by (by apply alone_with_message, alone_set).
  rewrite Hfind. erewrite alone_or_return by reflexivity.
  rewrite Htype. erewrite alone_or_return by reflexivity.
  destruct (resolve_every s1 l a k) as (s2 & v & Hres & Hdb & Hv & Hsave);
    [done|by apply put_step_row_quiet|by apply represents_put_step|done..|].
  erewrite alone_or_return by (by apply alone_with_message, Hres).
  pose proof (Hfetch runID (Some v) s2) as Hf.
  pose proof (fetch_db registry runID JobName resource rt (Some v) (Params step) (Get_ step)
    prefix s2) as Hfdb.
  unfold or_error_row. cbn [st_bind sc_store alone_context alone_store].
  destruct (fetch (M := Alone W) _ _ _ _ _ (Some v) _ _ _ s2) as [r s3]. simpl in Hf, Hfdb. subst r.
  assert (Hdb3 : jc_db s3 = jc_db s1) by (by rewrite Hfdb).
  destruct (record_version_stored Hns JobName PipelineID prefix runID "get" (Get_ step) v s3 l) as (s4 & Hrec & Hq4 & Hr4 & Hst & Hver & Hfr);
    try (rewrite Hdb3); [done..|by apply put_step_row_quiet|by apply represents_put_step| |].
  { eapply window_no_collision; [done|]. by eapply list_elem_of_lookup_2. }
  exists s4, (Spec.save v JobName (RFC3339Nano (db_now (jc_db s1))) l), v.
  assert (Hrow : forall key k', row_field key k' s3 = row_field key k' s1)
    by (intros; unfold row_field, step_row; by rewrite Hdb3).
  split_and!; [done|done|by rewrite <- Hdb3|done|done|]. split; [done|..].
  - intros Hnone. apply Hver. rewrite Hrow. unfold s1, p.
    by rewrite row_field_put_absent by (done || by apply (bool_decide_unpack _)).
  - intros key Hother Hne. rewrite Hfr by done.
    transitivity (step_row key s1); [unfold step_row; by rewrite Hdb3|]. by apply step_row_put_other.
Qed.

Lemma window_min a k : window h a k = window h a (min k (length h - a)).
Proof.
  unfold window. f_equal. destruct (decide (k <= length h - a)) as [Hle|Hgt].
  - by rewrite Nat.min_l.
  - rewrite Nat.min_r by lia. rewrite !take_ge; [done|..]; rewrite length_drop; lia.
Qed.

Fixpoint run_gets (runIDs : list string) : Alone W (list (result unit)) :=
  match runIDs with
  | [] => st_ret []
  | runID :: runIDs =>
      let+ r := get_step runID in
      let+ rs := run_gets runIDs in
      st_ret (r :: rs)
  end.

Lemma get_key_inj r r' :
  step_names r JobName prefix (Get_ step) -> step_names r' JobName prefix (Get_ step) ->
  task_path (get_key r) = task_path (get_key r') -> r = r'.
Proof.
  intros Hr Hr'. unfold get_key. rewrite !resource_key_path by done.
  intros He%slash_path_inj; [by simplify_eq|done| |done|]; [destruct Hr|destruct Hr'];
    by repeat constructor.
Qed.

Lemma run_gets_spec runIDs s l a k :
  NoDup runIDs -> Forall (fun runID => step_names runID JobName prefix (Get_ step)) runIDs ->
  name_ok scoped -> quiet_db (jc_db s) ->
  (forall runID, runID ∈ runIDs -> step_row (get_key runID) s = None) ->
  represents (stored s) l -> StoredVersion.Version <$> l = window h a k -> 0 < k -> a < length h ->
  exists s' l', run_gets runIDs s = (replicate (length runIDs) (Ok tt), s') /\
    represents (stored s') l' /\ StoredVersion.Version <$> l' = window h a (k + length runIDs) /\
    (forall key, other_path scoped (task_path key) ->
       (forall runID, runID ∈ runIDs -> task_path key <> task_path (get_key runID)) ->
       step_row key s' = step_row key s) /\
    forall j runID, runIDs !! j = Some runID ->
      exists v, h !! min (a + k + j) (length h - 1) = Some v /\
        row_field (get_key runID) "status" s' = Some (JStr "success") /\
        row_field (get_key runID) "version" s' = Some (versionToAnyMap (Some v)).
Proof.
  intros Hnodup Hall Hn. revert s l k. induction runIDs as [|r rs IH];
    intros s l k Hq Hfresh Hr Hl Hk Ha.
  { exists s, l. rewrite Nat.add_0_r. by split_and!. }
  apply NoDup_cons in Hnodup as [Hnew Hnodup]. apply Forall_cons in Hall as [Hsn Hall].
  destruct (get_next r s l a (min k (length h - a)))
    as (s1 & l1 & v & Hrun & Hq1 & Hr1 & Hl1 & Hv & Hfe); [done..|by rewrite <- window_min|lia|lia|].
  assert (Hkeys : forall r', r' ∈ rs -> task_path (get_key r') <> task_path (get_key r)).
  { intros r' Hr' Heq. rewrite Forall_forall in Hall. apply get_key_inj in Heq;
      [by subst|by apply Hall|done]. }
  assert (Hothers : forall r', step_names r' JobName prefix (Get_ step) ->
    other_path scoped (task_path (get_key r'))).
  { intros r' Hsn' k' Hk' Heq.
    by apply (resource_key_not_rv Hns r' JobName "get" prefix (Get_ step) scoped k'). }
  destruct (IH Hnodup Hall s1 l1 (S k)) as (s' & l' & Hruns & Hr' & Hl' & Hframe & Hrows);
    [done| |done| |lia|done|].
  { intros r' Hin. rewrite (fe_frame _ _ _ _ Hfe); [apply Hfresh; by right| |by apply Hkeys].
    rewrite Forall_forall in Hall. by apply Hothers, Hall. }
  { rewrite Hl1, (window_min a (S k)), (window_min a (S (min _ _))). f_equal. lia. }
  exists s', l'. split_and!; [|done| | |].
  - cbn [run_gets st_bind sc_store alone_context alone_store]. rewrite Hrun. by rewrite Hruns.
  - rewrite Hl'. f_equal. simpl. lia.
  - intros key Hother Hne. rewrite Hframe; [apply (fe_frame _ _ _ _ Hfe)|done|]; try done;
      intros; apply Hne; set_solver.
  - intros [|j] runID Hj; simplify_eq/=.
    + exists v. split; [rewrite <- Hv; f_equal; lia|].
      assert (Hsame : step_row (get_key runID) s' = step_row (get_key runID) s1)
        by (apply Hframe; [by apply Hothers|]; intros r' Hin Heq; by apply (Hkeys r')).
      unfold row_field. rewrite Hsame. split; [by apply (fe_status _ _ _ _ Hfe)|].
      apply (fe_version _ _ _ _ Hfe). unfold row_field. rewrite Hfresh; [done|by left].
    + destruct (Hrows j runID Hj) as (w & Hw & Hst). exists w. split; [|done].
      rewrite <- Hw. f_equal. lia.
Qed.

(** C31: With [version: every], one run after the other fetches the versions of
    a resource in order: each run the version that follows the last one
    stored, none skipped and none twice, until the history is exhausted, from
    where on every run fetches the last one again. Each run ends as a success
    with its version in its row, and the stored versions grow accordingly. *)
Theorem get_every_in_order runIDs s l a k :
  NoDup runIDs -> Forall (fun runID => step_names runID JobName prefix (Get_ step)) runIDs ->
  name_ok scoped -> quiet_db (jc_db s) ->
  (forall runID, runID ∈ runIDs -> step_row (get_key runID) s = None) ->
  represents (stored s) l -> StoredVersion.Version <$> l = window h a k -> 0 < k -> a < length h ->
  exists s', run_gets runIDs s = (replicate (length runIDs) (Ok tt), s') /\
    (exists l', represents (stored s') l' /\
       StoredVersion.Version <$> l' = window h a (k + length runIDs)) /\
    forall j runID, runIDs !! j = Some runID ->
      exists v, h !! min (a + k + j) (length h - 1) = Some v /\
        row_field (get_key runID) "status" s' = Some (JStr "success") /\
        row_field (get_key runID) "version" s' = Some (versionToAnyMap (Some v)).
Proof.
  intros. destruct (run_gets_spec runIDs s l a k) as (s' & l' & ? & ? & ? & _ & ?); [done..|].
  exists s'. split_and!; [done|by exists l'|done].
Qed.
End every.

(** *** put *)
Section put.
Context {W : Type} `{!Namespace, !OrderBy, !JsonText}.
Context `{!ContainerDriver W, !EndingContainers W, !Cancellation W, !VersionText, !ResourceText, !Format}.
Context (Hns : namespace = "").
Context (registry : Registry.t W) (Resources : list Resource.t) (ResourceTypes : list ResourceType.t).
Context (RunID JobName PipelineID : string) (step : Step) (prefix : string).
Implicit Types s : jobctx W.
Let scoped : string := getScopedResourceName PipelineID (Put_ step).
Let key : string := resource_key RunID JobName "put" prefix (Put_ step).

(** The version that was pushed. *)
Definition pushed (resource : Resource.t) (rt : option ResourceType.t) s
    : result (option version_map) * jobctx W :=
  push (M := Alone W) registry RunID JobName resource rt (Params step) (Put_ step) prefix s.
(** What is fetched back: exactly that version, unless [no_get] is set. *)
Definition fetched_back (resource : Resource.t) (rt : option ResourceType.t)
    (v : option version_map) s : result unit * jobctx W :=
  if match PutConfig_ step with Some c => PutConfig.NoGet c | None => false end then (Ok tt, s)
  else fetch (M := Alone W) registry RunID JobName resource rt v None (Put_ step) prefix s.

(** The row after a failed push or fetch. *)
Definition failed_row (e : err) s : jobctx W :=
  put_step_row key (JObj (resource_row "error" (Put_ step) ++ [("error", JStr (SError (SPlain e)))])) s.

Lemma or_error_row_run {A B} msg (m : Alone W (result A)) (k : A -> Alone W (result B)) s :
  quiet_db (jc_db (m s).2) ->
  or_error_row (W := W) msg key (Put_ step) m k s =
    match m s with
    | (Ok a, s') => k a s'
    | (Err e, s') => (Err (EWrap msg e), failed_row e s')
    end.
Proof.
  intros Hq. unfold or_error_row. cbn [st_bind sc_store alone_context alone_store].
  destruct (m s) as [[a|e] s']; [done|]. simpl in Hq. unfold failed_row.
  rewrite (alone_set key _ s' Hq). done.
Qed.

Lemma push_db resource rt s : jc_db (pushed resource rt s).2 = jc_db s.
Proof. apply (rel_push registry RunID JobName _ untouched_monad untouched_local). Qed.
Lemma fetched_back_db resource rt v s : jc_db (fetched_back resource rt v s).2 = jc_db s.
Proof. unfold fetched_back. case_match; [done|apply fetch_db]. Qed.

(** A put step, on every branch: a failed push or a failed implicit get is
    recorded in the step's row and returned; otherwise the version that was
    pushed is the one fetched back, the one recorded among the stored versions
    of the resource and the one in the row of the step, which is a success. *)
Theorem put_Execute_outcome resource rt s l :
  step_names RunID JobName prefix (Put_ step) -> name_ok scoped ->
  findResource Resources (Put_ step) = Ok resource ->
  find_type registry ResourceTypes "put step" resource = Ok rt ->
  quiet_db (jc_db s) -> represents (row (jc_db s) scoped) l ->
  let s1 := put_step_row key (JObj (resource_row "pending" (Put_ step))) s in
  let run := put_Execute (M := Alone W) registry Resources ResourceTypes RunID JobName PipelineID
               step prefix s in
  match pushed resource rt s1 with
  | (Err e, s2) => run = (Err (EWrap "put step push" e), failed_row e s2)
  | (Ok version, s2) =>
      match fetched_back resource rt version s2 with
      | (Err e, s3) => run = (Err (EWrap "put step implicit get" e), failed_row e s3)
      | (Ok _, s3) =>
          forall v, version = Some v -> no_collision v l ->
          exists s', run = (Ok tt, s') /\
            represents (row (jc_db s') scoped)
              (Spec.save v JobName (RFC3339Nano (db_now (jc_db s3))) l) /\
            row_field key "status" s' = Some (JStr "success") /\
            (row_field key "version" s = None ->
             row_field key "version" s' = Some (versionToAnyMap (Some v)))
      end
  end.
Proof.
  intros Hsn Hn Hfind Htype Hq Hr s1 run.
  assert (Hq1 : quiet_db (jc_db s1)) by (by apply put_step_row_quiet).
  assert (Hrun : run = or_error_row (W := W) "put step push" key (Put_ step) (pushed resource rt)
    (fun version => or_error_row (W := W) "put step implicit get" key (Put_ step)
       (fetched_back resource rt version)
       (fun _ => record_version (M := Alone W) JobName PipelineID "put" key (Put_ step) version)) s1).
  { unfold run, put_Execute. fold key.
    erewrite alone_or_return by (by apply alone_with_message, alone_set).
    rewrite Hfind. erewrite alone_or_return by reflexivity.
    rewrite Htype. erewrite alone_or_return by reflexivity.
    unfold fetched_back, pushed. by destruct (PutConfig_ step) as [[? ? []]|]. }
  clearbody run. subst run.
  rewrite or_error_row_run by (by rewrite push_db).
  pose proof (push_db resource rt s1) as Hdb1.
  destruct (pushed resource rt s1) as [[version|e] s2]; [|done]. simpl in Hdb1.
  rewrite or_error_row_run by (by rewrite fetched_back_db, Hdb1).
  pose proof (fetched_back_db resource rt version s2) as Hdb2. rewrite Hdb1 in Hdb2.
  destruct (fetched_back resource rt version s2) as [[[]|e] s3]; [|done]. simpl in Hdb2.
  intros v -> Hnc.
  destruct (record_version_stored Hns JobName PipelineID prefix RunID "put" (Put_ step) v s3 l)
    as (s' & Hrec & _ & Hr' & Hst & Hver & _); rewrite ?Hdb2; [done..|by apply represents_put_step|done|].
  exists s'. split_and!; [done| |done|].
  - by rewrite <- Hdb2.
  - intros Hnone. apply Hver. transitivity (row_field key "version" s1).
    + unfold row_field, step_row. by rewrite Hdb2.
    + unfold s1. by rewrite row_field_put_absent by (done || by apply (bool_decide_unpack _)).
Qed.
End put.

(** ** Witnesses *)
#[local] Existing Instances ex_versions_ns ex_versions_text ex_version_text stable_order.

Lemma ex_root_namespace : namespace = "".
Proof. reflexivity. Qed.

(** A native resource with a fixed history, on a world where nothing fails. *)
Definition ex_v3 : version_map := {["ref" := "c3"]}.
Definition ex_history : list version_map := [ex_v1; ex_v2; ex_v3].
Fixpoint since (v : option version_map) (h : list version_map) : list version_map :=
  match h with
  | [] => []
  | w :: h => if decide (v = Some w) then w :: h else since v h
  end.
Definition ex_resource_of (check : option version_map -> result (list (option version_map)))
    : NativeResource unit :=
  mkNative unit "history" (fun _ v w => (w, check v)) (fun _ _ _ _ w => (w, Ok tt))
    (fun _ _ _ w => (w, Ok (Some ex_v2))).
Definition ex_native : NativeResource unit :=
  ex_resource_of (fun v => Ok (match v with
    | None => [last ex_history]
    | Some _ => Some <$> since v ex_history
    end)).
Definition ex_registry (r : NativeResource unit) : Registry.t unit := {["history" := r]}.
Definition ex_containers : ContainerDriver unit := {|
  cd_RunContainer := fun _ t w => (w, Ok (ContainerTask.ID t));
  cd_GetContainer := fun id w => (w, Ok id);
  cd_Status := fun _ _ w => (w, Ok (Some 0%Z));
  cd_Stream := fun _ _ w => (w, ([], []));
  cd_Logs := fun _ _ w => (w, ("", "", Ok tt));
  cd_Cleanup := fun _ w => (w, Ok tt);
  cd_CreateVolume := fun name _ w => (w, Ok (Volume.mk name "/vol"));
  cd_CleanupVolume := fun _ w => (w, Ok tt);
  cd_Exec := fun _ _ _ _ _ _ w => (w, ("", "", Ok 0%Z)) |}.
Definition ex_containers_end : @EndingContainers unit ex_containers.
Proof. refine {| cd_polls := fun _ _ _ => 1 |}. intros ctx id w. by eexists. Defined.
Definition ex_cancel : Cancellation unit := fun _ => None.
Definition ex_resource_text : ResourceText := {|
  marshal_json := fun _ => ""; parse_versions := fun _ => Err (EMsg "no JSON");
  parse_pushed := fun _ => Err (EMsg "no JSON") |}.
#[local] Existing Instances ex_containers ex_containers_end ex_cancel ex_resource_text ex_format.

Definition ex_repo : Resource.t := Resource.mk "repo" None "history".
Definition ex_get_step (name resource : string) (v : version) : Step :=
  mkStep None "" 0 None None "" "" "" false "" "" "" None name (GetConfig.mk resource [] false v)
    "" None None NNil "" false [] None None None None None [] [] 0 false [] false 0 0.
Definition ex_put_step : Step :=
  mkStep None "" 0 None None "" "" "" false "" "" "" None "" (GetConfig.mk "" [] false VNil)
    "repo" None None NNil "" false [] None None None None None [] [] 0 false [] false 0 0.

(** The job of the runs; the first version was stored before. *)
Definition ex_seeded : db :=
  (SaveResourceVersion (M := Calls) "p/repo" (Some ex_v1) "seed" empty_db).2.
Definition ex_state (d : db) : jobctx unit := mkCtx unit d [] ∅ 0 FailureKindNone ∅ ∅ tt.

Lemma ex_history_injective : hash_injective ex_history.
Proof.
  apply hash_injective_NoDup, (bool_decide_unpack _). vm_compute. exact Logic.I.
Qed.

Lemma ex_seeded_represents :
  quiet_db ex_seeded /\
  exists l, represents (row ex_seeded "p/repo") l /\
    StoredVersion.Version <$> l = window ex_history 0 1.
Proof.
  assert (Hempty : represents (row empty_db "p/repo") []).
  { apply represents_empty. intros k _. unfold row. cbn [db_tasks empty_db].
    by rewrite lookup_empty. }
  assert (Hn : name_ok "p/repo") by (exists "p", "repo"; split_and!; reflexivity).
  assert (Hnc : no_collision ex_v1 []) by (intros sv Hin; destruct (proj1 (elem_of_nil sv) Hin)).
  destruct (SaveResourceVersion_represents ex_root_namespace empty_db "p/repo" [] ex_v1
    "seed" eq_refl Hn Hempty Hnc) as (d' & Hs & Hq & _ & Hr & _).
  assert (ex_seeded = d') as -> by exact (f_equal snd Hs). split; [exact Hq|].
  exists (Spec.save ex_v1 "seed" (RFC3339Nano (db_now empty_db)) []). by split.
Qed.

Lemma since_drop i v : ex_history !! i = Some v -> since (Some v) ex_history = drop i ex_history.
Proof. intros Hi. do 3 (destruct i as [|i]; [by injection Hi as <-|]). by destruct i. Qed.

Definition ex_every : Step := ex_get_step "repo" "" (VString "every").
Lemma get_every_in_order_witness :
  match run_gets (ex_registry ex_native) [ex_repo] [] "build" "p" ex_every "0" ["r1"; "r2"; "r3"]
          (ex_state ex_seeded) with
  | (rs, s') => rs = [Ok tt; Ok tt; Ok tt] /\
      row_field "/pipeline/r1/jobs/build/0/get/repo" "version" s' = Some (versionToAnyMap (Some ex_v2)) /\
      row_field "/pipeline/r3/jobs/build/0/get/repo" "version" s' = Some (versionToAnyMap (Some ex_v3))
  end.
Proof.
  destruct ex_seeded_represents as (Hq & l & Hr & Hl).
  destruct (get_every_in_order ex_root_namespace (ex_registry ex_native) [ex_repo] []
    "build" "p" ex_every "0" ex_repo None ex_history) with (runIDs := ["r1"; "r2"; "r3"])
    (s := ex_state ex_seeded) (l := l) (a := 0) (k := 1) as (s' & -> & _ & Hrows).
  - reflexivity.
  - reflexivity.
  - reflexivity.
  - intros i v s Hi. rewrite <- (since_drop i v Hi). reflexivity.
  - reflexivity.
  - by apply (bool_decide_unpack _).
  - exact ex_history_injective.
  - by apply (bool_decide_unpack _).
  - repeat apply Forall_cons_2; try apply Forall_nil_2; split; reflexivity.
  - apply getScopedResourceName_ok; [reflexivity|right; reflexivity].
  - exact Hq.
  - intros r Hin. repeat (apply elem_of_cons in Hin as [->|Hin]; [reflexivity|]).
    destruct (proj1 (elem_of_nil _) Hin).
  - exact Hr.
  - exact Hl.
  - lia.
  - simpl. lia.
  - split; [reflexivity|].
    destruct (Hrows 0 "r1" eq_refl) as (v & [= <-] & _ & H1).
    destruct (Hrows 2 "r3" eq_refl) as (w & [= <-] & _ & H3). exact (conj H1 H3).
Defined.

Lemma put_Execute_outcome_witness :
  let '(r, s') := put_Execute (M := Alone unit) (ex_registry ex_native) [ex_repo] [] "r1" "build" "p"
    ex_put_step "0" (ex_state ex_seeded) in
  r = Ok tt /\
  row_field "/pipeline/r1/jobs/build/0/put/repo" "version" s' = Some (versionToAnyMap (Some ex_v2)).
Proof.
  destruct ex_seeded_represents as (Hq & l & Hr & Hl).
  pose proof (put_Execute_outcome ex_root_namespace (ex_registry ex_native) [ex_repo] []
    "r1" "build" "p" ex_put_step "0" ex_repo None (ex_state ex_seeded) l) as Hput.
  destruct (Hput ltac:(split; reflexivity)
    ltac:(apply getScopedResourceName_ok; [reflexivity|right; reflexivity])
    eq_refl eq_refl Hq Hr ex_v2 eq_refl)
    as (s' & -> & _ & _ & Hrow).
  - eapply (window_no_collision ex_history ex_history_injective); [exact Hl|]. right; by left.
  - split; [reflexivity|]. by apply Hrow.
Defined.

(** ** What the tests do not show *)
Definition ex_get_once (registry : Registry.t unit) (job : string) (step : Step) (s : jobctx unit)
    : result unit * jobctx unit :=
  get_Execute (M := Alone unit) registry [ex_repo] [] "r1" job "p" step "0" s.

(** The step [get: source, resource: repo], which validation resolves to the
    resource repo ([Validate.get_ref]), is looked up under its own name. *)
Lemma get_ignores_resource :
  (ex_get_once (ex_registry ex_native) "build" (ex_get_step "source" "repo" VNil)
     (ex_state empty_db)).1
  = Err (EWrap "get step" (EMsg ("resource " ++ q "source" ++ " not found"))).
Proof. reflexivity. Qed.

(** A check that fails ends the step and leaves its row pending. *)
Lemma failed_check_stays_pending :
  let '(r, s') := ex_get_once (ex_registry (ex_resource_of (fun _ => Err (EMsg "unreachable"))))
    "build" (ex_get_step "repo" "" VNil) (ex_state empty_db) in
  (exists e, r = Err e) /\
  row_field "/pipeline/r1/jobs/build/0/get/repo" "status" s' = Some (JStr "pending").
Proof. vm_compute. split; [by eexists|reflexivity]. Qed.

(** The stored versions belong to the pipeline: of two jobs that each ask for
    every version, each version reaches only one. *)
Lemma every_is_shared :
  let '(_, s1) := ex_get_once (ex_registry ex_native) "build" ex_every (ex_state ex_seeded) in
  let '(_, s2) := ex_get_once (ex_registry ex_native) "deploy" ex_every s1 in
  row_field "/pipeline/r1/jobs/build/0/get/repo" "version" s2 = Some (versionToAnyMap (Some ex_v2)) /\
  row_field "/pipeline/r1/jobs/deploy/0/get/repo" "version" s2 = Some (versionToAnyMap (Some ex_v3)).
Proof. vm_compute. split; reflexivity. Qed.
