(* ===== verification/ResumeState.v ===== *)
(** * The state of a resumable run (runtime/runner/state.go)

    The steps of a run in the order they were created, their transitions, and
    their JSON form. *)
From S2P Require Import Prelude Storage Json JsonCodec GoStrings.
From S2P Require Import Containers TaskRunner.
Open Scope string_scope.

(** Statuses and kinds are strings, and a loaded state may hold any. *)
Definition StepStatusPending : string := "pending".
Definition StepStatusRunning : string := "running".
Definition StepStatusCompleted : string := "completed".
Definition StepStatusFailed : string := "failed".
Definition StepStatusAborted : string := "aborted".
Definition StepKindRun : string := "run".
Definition StepKindAgent : string := "agent".

Module StepState.
Record t := mk {
    StepID : string; Name : string; Kind : string; Status : string; ContainerID : string;
    TaskID : string; StartedAt : option time; CompletedAt : option time; ExitCode : option Z;
    Result : option RunResult.t; AgentResultJSON : option json; Error : string }.
End StepState.

Module VolumeState.
Record t := mk { Name : string; Path : string }.
End VolumeState.

Module PipelineState.
Record t := mk {
    RunID : string; Steps : gmap string StepState.t; StepOrder : list string;
    Volumes : gmap string VolumeState.t; StartedAt : option time; CompletedAt : option time;
    ResumeEnabled : bool }.
End PipelineState.

(** ** Steps *)
Definition IsTerminal_step (s : StepState.t) : bool :=
  bool_decide (StepState.Status s ∈ [StepStatusCompleted; StepStatusFailed; StepStatusAborted]).

Definition IsResumable (s : StepState.t) : bool :=
  bool_decide (StepState.Status s = StepStatusRunning)
  && negb (bool_decide (StepState.ContainerID s = "")).

Definition CanSkip (s : StepState.t) : bool :=
  if decide (StepState.Status s <> StepStatusCompleted) then false
  else if decide (StepState.Kind s = StepKindAgent)
  then bool_decide (is_Some (StepState.AgentResultJSON s))
  else bool_decide (is_Some (StepState.Result s)).

Definition ShouldRetry (s : StepState.t) : bool :=
  bool_decide (StepState.Status s = StepStatusFailed)
  || bool_decide (StepState.Status s = StepStatusAborted).

Definition MarkForRetry (s : StepState.t) : StepState.t :=
  StepState.mk (StepState.StepID s) (StepState.Name s) (StepState.Kind s) StepStatusPending ""
    (StepState.TaskID s) (StepState.StartedAt s) None None None None "".

(** ** Runs *)
Definition NewPipelineState (runID : string) (resumeEnabled : bool) (now : time)
    : PipelineState.t :=
  PipelineState.mk runID ∅ [] ∅ (Some now) None resumeEnabled.

Definition GetStep (p : PipelineState.t) (stepID : string) : option StepState.t :=
  PipelineState.Steps p !! stepID.

Definition put_steps (steps : gmap string StepState.t) (order : list string) (p : PipelineState.t)
    : PipelineState.t :=
  PipelineState.mk (PipelineState.RunID p) steps order (PipelineState.Volumes p)
    (PipelineState.StartedAt p) (PipelineState.CompletedAt p) (PipelineState.ResumeEnabled p).

Definition SetStep (p : PipelineState.t) (state : StepState.t) : PipelineState.t :=
  let id := StepState.StepID state in
  put_steps (<[id := state]> (PipelineState.Steps p))
    (match PipelineState.Steps p !! id with
     | Some _ => PipelineState.StepOrder p
     | None => (PipelineState.StepOrder p ++ [id])%list
     end) p.

(** A write through the pointer held in the map. *)
Definition update_step (stepID : string) (f : StepState.t -> StepState.t) (p : PipelineState.t)
    : PipelineState.t :=
  put_steps (alter f stepID (PipelineState.Steps p)) (PipelineState.StepOrder p) p.

(** [LastStep] answers nil on an empty order. *)
Definition LastStep (p : PipelineState.t) : option StepState.t :=
  last (PipelineState.StepOrder p) ≫= fun id => PipelineState.Steps p !! id.

(** [None]: the nil pointer of a missing step is dereferenced. *)
Fixpoint in_progress (steps : gmap string StepState.t) (order : list string)
    : option (list StepState.t) :=
  match order with
  | [] => Some []
  | id :: order =>
      match steps !! id with
      | None => None
      | Some step =>
          rest ← in_progress steps order;
          Some (if decide (StepState.Status step = StepStatusRunning) then step :: rest else rest)
      end
  end.
Definition InProgressSteps (p : PipelineState.t) : option (list StepState.t) :=
  in_progress (PipelineState.Steps p) (PipelineState.StepOrder p).

(** ** JSON *)

(** [time.Time] in JSON is RFC 3339 with nanoseconds. [json.RawMessage] stands
    for the value it is the text of. *)
Class ResumeText : Type := {
  time_text : time -> string;
  parse_time : string -> option time;
  parse_time_text : forall t, parse_time (time_text t) = Some t }.

Section codecs.
Context `{!ResumeText}.

Definition json_time (v : json) : option time := json_string v ≫= parse_time.
Definition time_codec : JsonCodec time.
Proof.
  refine {| to_json := fun t => JStr (time_text t); of_json := json_time; storable := fun _ => True |};
    [by intros; constructor|].
  intros t v _ He. apply jequiv_scalar in He; [subst v; apply parse_time_text|intros Ho; exact Ho].
Defined.

(** *** RunResult *)
Definition RunStatus_text (s : RunStatus_) : string :=
  match s with RunAbort => "abort" | RunComplete => "complete" end.
Definition parse_RunStatus (s : string) : option RunStatus_ :=
  if decide (s = "abort") then Some RunAbort
  else if decide (s = "complete") then Some RunComplete else None.

Definition result_specs (r : RunResult.t) : list (string * option json) :=
  [("code", Some (to_json (RunResult.Code r))); ("stderr", Some (to_json (RunResult.Stderr r)));
   ("stdout", Some (to_json (RunResult.Stdout r)));
   ("status", Some (to_json (RunStatus_text (RunResult.Status r))))].
Definition json_result (v : json) : option RunResult.t :=
  match v with
  | JObj fs =>
      code ← read "code" 0%Z fs; stderr ← read "stderr" "" fs; stdout ← read "stdout" "" fs;
      status ← read "status" "" fs; status ← parse_RunStatus status;
      Some (RunResult.mk code stderr stdout status)
  | _ => None
  end.

Lemma json_result_written r v :
  jequiv (JObj (written (result_specs r))) v -> json_result v = Some r.
Proof.
  intros He. destruct (jequiv_not_object _ _ He) as [gs ->]. unfold json_result.
  assert (Hnd : NoDup (result_specs r).*1) by (by apply (bool_decide_unpack _)).
  rewrite (read_written _ _ Hnd He "code" 0%Z (RunResult.Code r)) by done.
  rewrite (read_written _ _ Hnd He "stderr" "" (RunResult.Stderr r)) by done.
  rewrite (read_written _ _ Hnd He "stdout" "" (RunResult.Stdout r)) by done.
  rewrite (read_written _ _ Hnd He "status" "" (RunStatus_text (RunResult.Status r))) by done.
  destruct r as [c e o []]; reflexivity.
Qed.

#[export] Instance result_codec : JsonCodec RunResult.t.
Proof.
  refine {| to_json := fun r => JObj (written (result_specs r)); of_json := json_result;
            storable := fun _ => True |}.
  - intros r _. apply tidy_written; [by apply (bool_decide_unpack _)|].
    repeat constructor; intros v [= <-]; constructor.
  - intros r v _. apply json_result_written.
Defined.

(** *** StepState *)
Definition omit_empty (s : string) : option json := if decide (s = "") then None else Some (JStr s).

Definition step_specs (s : StepState.t) : list (string * option json) :=
  [("step_id", Some (to_json (StepState.StepID s))); ("name", Some (to_json (StepState.Name s)));
   ("kind", Some (to_json (StepState.Kind s))); ("status", Some (to_json (StepState.Status s)));
   ("container_id", omit_empty (StepState.ContainerID s));
   ("task_id", omit_empty (StepState.TaskID s));
   ("started_at", @to_json _ time_codec <$> StepState.StartedAt s);
   ("completed_at", @to_json _ time_codec <$> StepState.CompletedAt s);
   ("exit_code", to_json <$> StepState.ExitCode s); ("result", to_json <$> StepState.Result s);
   ("agent_result", StepState.AgentResultJSON s); ("error", omit_empty (StepState.Error s))].

Definition json_step (v : json) : option StepState.t :=
  match v with
  | JObj fs =>
      id ← read "step_id" "" fs; name ← read "name" "" fs; kind ← read "kind" "" fs;
      status ← read "status" "" fs; container ← read "container_id" "" fs;
      task ← read "task_id" "" fs; started ← @read_ptr _ time_codec "started_at" fs;
      completed ← @read_ptr _ time_codec "completed_at" fs; code ← read_ptr "exit_code" fs;
      res ← read_ptr "result" fs; error ← read "error" "" fs;
      Some (StepState.mk id name kind status container task started completed code res
              (get_field "agent_result" fs) error)
  | _ => None
  end.

(** A step without an agent's result. *)
Definition storable_step (s : StepState.t) : Prop := StepState.AgentResultJSON s = None.

Lemma read_omit_empty specs gs k s :
  NoDup specs.*1 -> jequiv (JObj (written specs)) (JObj gs) ->
  spec_get k specs = omit_empty s -> read k "" gs = Some s.
Proof.
  intros Hnd He Hk. unfold omit_empty in Hk. case_decide as Hs.
  - subst s. by apply (read_omitted specs gs Hnd He).
  - by apply (read_written specs gs Hnd He).
Qed.

Lemma json_step_written s v :
  storable_step s -> jequiv (JObj (written (step_specs s))) v -> json_step v = Some s.
Proof.
  intros Ha He. destruct (jequiv_not_object _ _ He) as [gs ->]. unfold json_step.
  assert (Hnd : NoDup (step_specs s).*1) by (by apply (bool_decide_unpack _)).
  rewrite (read_written _ _ Hnd He "step_id" "" (StepState.StepID s)) by done.
  rewrite (read_written _ _ Hnd He "name" "" (StepState.Name s)) by done.
  rewrite (read_written _ _ Hnd He "kind" "" (StepState.Kind s)) by done.
  rewrite (read_written _ _ Hnd He "status" "" (StepState.Status s)) by done.
  rewrite (read_omit_empty _ _ "container_id" (StepState.ContainerID s) Hnd He) by done.
  rewrite (read_omit_empty _ _ "task_id" (StepState.TaskID s) Hnd He) by done.
  rewrite (read_ptr_written (JsonCodec0 := time_codec) _ _ Hnd He "started_at"
             (StepState.StartedAt s)) by done.
  rewrite (read_ptr_written (JsonCodec0 := time_codec) _ _ Hnd He "completed_at"
             (StepState.CompletedAt s)) by done.
  rewrite (read_ptr_written _ _ Hnd He "exit_code" (StepState.ExitCode s)) by done.
  rewrite (read_ptr_written _ _ Hnd He "result" (StepState.Result s)) by done.
  rewrite (read_omit_empty _ _ "error" (StepState.Error s) Hnd He) by done.
  pose proof (read_field _ _ Hnd He "agent_result") as Hf. cbn in Hf.
  unfold storable_step in Ha. rewrite Ha in Hf. rewrite Hf. cbn. by destruct s; simpl in *; subst.
Qed.

Lemma omit_empty_tidy s v : omit_empty s = Some v -> tidy v.
Proof. unfold omit_empty. case_decide; [done|]. intros [= <-]. constructor. Qed.
Lemma fmap_tidy {A} `{!JsonCodec A} (o : option A) v :
  (forall a, storable a) -> to_json <$> o = Some v -> tidy v.
Proof. intros Hs. destruct o; [|done]. intros [= <-]. by apply to_json_tidy. Qed.

#[export] Instance step_codec : JsonCodec StepState.t.
Proof.
  refine {| to_json := fun s => JObj (written (step_specs s)); of_json := json_step;
            storable := storable_step |}.
  - intros s Ha. apply tidy_written; [by apply (bool_decide_unpack _)|].
    unfold step_specs, storable_step in *. rewrite Ha.
    repeat apply Forall_cons_2; try apply Forall_nil_2; intros v;
      try (intros [= <-]; constructor); try apply omit_empty_tidy;
      try by (apply fmap_tidy || apply (fmap_tidy (JsonCodec0 := time_codec))).
  - apply json_step_written.
Defined.

(** *** VolumeState and PipelineState *)
Definition volume_specs (v : VolumeState.t) : list (string * option json) :=
  [("name", Some (to_json (VolumeState.Name v))); ("path", Some (to_json (VolumeState.Path v)))].
Definition json_volume (v : json) : option VolumeState.t :=
  match v with
  | JObj fs => name ← read "name" "" fs; path ← read "path" "" fs; Some (VolumeState.mk name path)
  | _ => None
  end.

#[export] Instance volume_codec : JsonCodec VolumeState.t.
Proof.
  refine {| to_json := fun v => JObj (written (volume_specs v)); of_json := json_volume;
            storable := fun _ => True |}.
  - intros v _. apply tidy_written; [by apply (bool_decide_unpack _)|].
    repeat constructor; intros j [= <-]; constructor.
  - intros v j _ He. destruct (jequiv_not_object _ _ He) as [gs ->]. unfold json_volume.
    assert (Hnd : NoDup (volume_specs v).*1) by (by apply (bool_decide_unpack _)).
    rewrite (read_written _ _ Hnd He "name" "" (VolumeState.Name v)) by done.
    rewrite (read_written _ _ Hnd He "path" "" (VolumeState.Path v)) by done. by destruct v.
Defined.

Definition omit_volumes (m : gmap string VolumeState.t) : option json :=
  if decide (m = ∅) then None else Some (to_json m).
Definition state_specs (p : PipelineState.t) : list (string * option json) :=
  [("run_id", Some (to_json (PipelineState.RunID p)));
   ("steps", Some (to_json (PipelineState.Steps p)));
   ("step_order", Some (to_json (PipelineState.StepOrder p)));
   ("volumes", omit_volumes (PipelineState.Volumes p));
   ("started_at", @to_json _ time_codec <$> PipelineState.StartedAt p);
   ("completed_at", @to_json _ time_codec <$> PipelineState.CompletedAt p);
   ("resume_enabled", Some (to_json (PipelineState.ResumeEnabled p)))].

Definition json_state (v : json) : option PipelineState.t :=
  match v with
  | JObj fs =>
      id ← read "run_id" "" fs; steps ← read "steps" ∅ fs; order ← read "step_order" [] fs;
      volumes ← read "volumes" ∅ fs; started ← @read_ptr _ time_codec "started_at" fs;
      completed ← @read_ptr _ time_codec "completed_at" fs; resume ← read "resume_enabled" false fs;
      Some (PipelineState.mk id steps order volumes started completed resume)
  | _ => None
  end.

Definition storable_state (p : PipelineState.t) : Prop := storable (PipelineState.Steps p).

Lemma volumes_storable (m : gmap string VolumeState.t) : storable m.
Proof. by intros k v _. Qed.

Lemma json_state_written p v :
  storable_state p -> jequiv (JObj (written (state_specs p))) v -> json_state v = Some p.
Proof.
  intros Hp He. destruct (jequiv_not_object _ _ He) as [gs ->]. unfold json_state.
  assert (Hnd : NoDup (state_specs p).*1) by (by apply (bool_decide_unpack _)).
  rewrite (read_written _ _ Hnd He "run_id" "" (PipelineState.RunID p)) by done.
  rewrite (read_written _ _ Hnd He "steps" ∅ (PipelineState.Steps p)) by done.
  rewrite (read_written _ _ Hnd He "step_order" [] (PipelineState.StepOrder p)) by done.
  assert (Hvol : read "volumes" ∅ gs = Some (PipelineState.Volumes p)).
  { destruct (decide (PipelineState.Volumes p = ∅)) as [Hv|Hv].
    - rewrite Hv. apply (read_omitted _ _ Hnd He).
      change (omit_volumes (PipelineState.Volumes p) = None). unfold omit_volumes. by rewrite decide_True.
    - apply (read_written _ _ Hnd He); [apply volumes_storable|].
      change (omit_volumes (PipelineState.Volumes p) = Some (to_json (PipelineState.Volumes p))).
      unfold omit_volumes. by rewrite decide_False. }
  rewrite Hvol.
  rewrite (read_ptr_written (JsonCodec0 := time_codec) _ _ Hnd He "started_at"
             (PipelineState.StartedAt p)) by done.
  rewrite (read_ptr_written (JsonCodec0 := time_codec) _ _ Hnd He "completed_at"
             (PipelineState.CompletedAt p)) by done.
  rewrite (read_written _ _ Hnd He "resume_enabled" false (PipelineState.ResumeEnabled p)) by done.
  by destruct p.
Qed.

Definition state_json (p : PipelineState.t) : json := JObj (written (state_specs p)).

Lemma state_json_tidy p : storable_state p -> tidy (state_json p).
Proof.
  intros Hp. apply tidy_written; [by apply (bool_decide_unpack _)|]. unfold state_specs.
  repeat apply Forall_cons_2; try apply Forall_nil_2; intros v;
    try by apply (fmap_tidy (JsonCodec0 := time_codec)).
  - intros [= <-]. constructor.
  - intros [= <-]. by apply json_entries_tidy.
  - intros [= <-]. constructor.
  - unfold omit_volumes. case_decide; [done|]. intros [= <-].
    apply json_entries_tidy, volumes_storable.
  - intros [= <-]. constructor.
Qed.

(** ** Saving over an older state *)

(** No field of [old] that omitempty can drop is dropped from [new]. *)
Record keeps_fields (new old : StepState.t) : Prop := {
  kf_container : StepState.ContainerID new = "" -> StepState.ContainerID old = "";
  kf_task : StepState.TaskID new = "" -> StepState.TaskID old = "";
  kf_started : StepState.StartedAt new = None -> StepState.StartedAt old = None;
  kf_completed : StepState.CompletedAt new = None -> StepState.CompletedAt old = None;
  kf_code : StepState.ExitCode new = None -> StepState.ExitCode old = None;
  kf_result : StepState.Result new = None -> StepState.Result old = None;
  kf_error : StepState.Error new = "" -> StepState.Error old = "" }.

Record extends (new old : PipelineState.t) : Prop := {
  ex_steps : forall id s, PipelineState.Steps old !! id = Some s ->
    exists s', PipelineState.Steps new !! id = Some s' /\ keeps_fields s' s;
  ex_volumes : forall name, is_Some (PipelineState.Volumes old !! name) ->
    is_Some (PipelineState.Volumes new !! name);
  ex_started : PipelineState.StartedAt new = None -> PipelineState.StartedAt old = None;
  ex_completed : PipelineState.CompletedAt new = None -> PipelineState.CompletedAt old = None }.

Lemma covers_leaf_json v w : ~ is_object v -> spec_covers (Some v) w.
Proof. intros Hv. destruct w; [by apply covers_leaf|done]. Qed.
Lemma covers_string s w : spec_covers (Some (JStr s)) w.
Proof. apply covers_leaf_json. by intros []. Qed.

Lemma covers_omit_empty new old :
  (new = "" -> old = "") -> spec_covers (omit_empty new) (omit_empty old).
Proof.
  intros Hk. unfold omit_empty. destruct (decide (new = "")) as [Hn|Hn].
  - by rewrite decide_True by auto.
  - apply covers_string.
Qed.

Lemma covers_ptr {A} (f : A -> json) new old :
  (new = None -> old = None) -> (forall a, ~ is_object (f a)) -> spec_covers (f <$> new) (f <$> old).
Proof.
  intros Hk Hf. destruct new as [a|]; [by apply covers_leaf_json|]. by rewrite Hk.
Qed.

Lemma covers_results (r r' : RunResult.t) : covers (to_json r) (to_json r').
Proof.
  apply covers_written; [by apply (bool_decide_unpack _)..|]. intros k.
  cbn [spec_get result_specs]. repeat (case_decide; [apply covers_leaf_json; by intros []|]). done.
Qed.

Lemma covers_steps new old :
  storable_step new -> storable_step old -> keeps_fields new old ->
  covers (to_json (A := StepState.t) new) (to_json old).
Proof.
  intros Hn Ho [Hcon Htask Hst Hcomp Hcode Hres Herr].
  apply covers_written; [by apply (bool_decide_unpack _)..|]. intros k.
  unfold storable_step in *. cbn [spec_get step_specs]. rewrite Hn, Ho.
  repeat (case_decide; [first [apply covers_string | by apply covers_omit_empty
    | by apply covers_ptr; [|intros ? []] | idtac]|]); try done.
  destruct (StepState.Result new) as [r|]; [|by rewrite Hres].
  destruct (StepState.Result old) as [r'|]; [apply covers_results|done].
Qed.

Lemma covers_states new old :
  storable_state new -> storable_state old -> extends new old ->
  covers (state_json new) (state_json old).
Proof.
  intros Hn Ho [Hsteps Hvols Hst Hcomp].
  apply covers_written; [by apply (bool_decide_unpack _)..|]. intros k.
  cbn [spec_get state_specs].
  repeat (case_decide; [first [apply covers_leaf_json; by intros []
    | by apply covers_ptr; [|intros ? []] | idtac]|]); try done.
  - apply covers_entries. intros id s Hs. destruct (Hsteps id s Hs) as (s' & Hs' & Hk).
    exists s'. split; [done|]. apply covers_steps; [by apply (Hn id)|by apply (Ho id)|done].
  - unfold omit_volumes. destruct (decide (PipelineState.Volumes new = ∅)) as [He|He].
    + rewrite decide_True; [done|]. apply map_empty. intros name.
      apply eq_None_not_Some. intros Hv%Hvols. rewrite He, lookup_empty in Hv. by destruct Hv.
    + destruct (decide (PipelineState.Volumes old = ∅)); [done|]. apply covers_entries.
      intros name v Hv. destruct (Hvols name) as [v' Hv']; [by eexists|]. exists v'.
      split; [done|]. apply covers_written; [by apply (bool_decide_unpack _)..|]. intros k'.
      cbn [spec_get volume_specs]. repeat (case_decide; [apply covers_string|]). done.
Qed.

(** A state that drops no field of the one stored before, merged over it or
    written over nothing, is stored as it is. *)
Lemma merged_state_equiv (stored : option json) old new :
  storable_state new -> storable_state old -> extends new old ->
  (forall v, stored = Some v -> jequiv (state_json old) v) ->
  let after := match stored with
               | Some v => jsonb_patch v (state_json new) | None => state_json new end in
  jequiv (state_json new) after.
Proof.
  intros Hn Ho Hext Hst after. unfold after. destruct stored as [v|]; [|apply je_refl].
  apply jsonb_patch_covers; [by apply state_json_tidy|].
  apply (covers_jequiv _ (state_json old)); [by apply Hst|by apply covers_states].
Qed.
End codecs.
