(* ===== verification/Resume.v ===== *)
(** * The resumable runner (runtime/runner/resumable.go)

    Every step of a run is recorded in the run's state, saved after each
    change: a step that completed is answered from the state, one that was
    running is reattached to its container, one that failed is run again. Steps
    are matched by their position: the n-th call of [Run] is step n. *)
From S2P Require Import Prelude Storage Json JsonCodec Db GoStrings Sql Tasks Config Secrets Ids Paths.
From S2P Require Import Containers TaskRunner ResumeState.
From Stdlib Require Import Ascii.
Open Scope string_scope.

(** [sanitizeName]: at most 32 bytes. *)
Definition sanitizeName (name : string) : string :=
  let name := ReplaceByte (ReplaceByte (ToLower name) " "%char "-") "_"%char "-" in
  if (32 <? String.length name)%nat then take_string 32 name else name.

Record resumable {W : Type} : Type := mkResumable {
  rr_inner : runner_state W;
  rr_state : PipelineState.t;
  rr_index : Z }.
Arguments resumable : clear implicits.

Section resumable.
Context `{!Namespace, !OrderBy, !JsonText, !MapOrder, !Clockwork, !Sha256, !Stamp, !SentinelText,
          !UniqueIDs, !ResumeText}.
Context {W : Type} `{!ContainerDriver W, !EndingContainers W}.
Context (c : PipelineRunner.t).

Notation RR := (resumable W).
Definition set_inner i (s : RR) : RR := mkResumable W i (rr_state s) (rr_index s).
Definition set_state p (s : RR) : RR := mkResumable W (rr_inner s) p (rr_index s).

(** A call of the underlying runner. *)
Definition inner {A} (m : ST (runner_state W) A) : ST RR A := fun s =>
  let '(r, i) := m (rr_inner s) in (r, set_inner i s).
Definition clock : ST RR time := inner now.
Definition on_state (f : PipelineState.t -> PipelineState.t) : ST RR unit :=
  modify (fun s => set_state (f (rr_state s)) s).

(** ** The stored state *)
Definition stateStoragePrefix : string := "_resume/state".
Definition state_key (runID : string) : string := stateStoragePrefix ++ "/" ++ runID.

Definition loadState (runID : string) : ST (runner_state W) PipelineState.t :=
  let! payload := wrap "storage get" (on_db (Get (state_key runID))) in
  match json_state payload with
  | Some state => ret state
  | None => fail (EMsg "could not unmarshal state")
  end.

Definition saveState : ST RR unit :=
  let! state := gets rr_state in
  wrap "storage set"
    (inner (on_db (Set_ (state_key (PipelineState.RunID state)) (state_json state)))).

(** An error is only logged. *)
Definition save : ST RR unit := ignore saveState.

Definition NewResumableRunner (runID : string) (resume : bool) : ST (runner_state W) RR :=
  let! runID := if decide (runID = "") then on_db UniqueID else ret runID in
  let! loaded := if resume then attempt (loadState runID)
                 else ret (Err (ESentinel SNotFound)) in
  match loaded with
  | Ok state => fun i => (Ok (mkResumable W i state 0), i)
  | Err e =>
      if errors_Is e SNotFound then
        let! t := now in
        fun i => (Ok (mkResumable W i (NewPipelineState runID resume t) 0), i)
      else fail (EWrap "could not load pipeline state" e)
  end.

(** ** A step *)
Definition findOrGenerateStepID (name : string) : ST RR string := fun s =>
  (Ok (Itoa (rr_index s) ++ "-" ++ sanitizeName name),
   mkResumable W (rr_inner s) (rr_state s) (rr_index s + 1)).

(** Writes through the step's pointer. *)
Definition set_status (status : string) (s : StepState.t) : StepState.t :=
  StepState.mk (StepState.StepID s) (StepState.Name s) (StepState.Kind s) status
    (StepState.ContainerID s) (StepState.TaskID s) (StepState.StartedAt s)
    (StepState.CompletedAt s) (StepState.ExitCode s) (StepState.Result s)
    (StepState.AgentResultJSON s) (StepState.Error s).
Definition set_error (error : string) (s : StepState.t) : StepState.t :=
  StepState.mk (StepState.StepID s) (StepState.Name s) (StepState.Kind s) (StepState.Status s)
    (StepState.ContainerID s) (StepState.TaskID s) (StepState.StartedAt s)
    (StepState.CompletedAt s) (StepState.ExitCode s) (StepState.Result s)
    (StepState.AgentResultJSON s) error.
Definition set_container (id : string) (s : StepState.t) : StepState.t :=
  StepState.mk (StepState.StepID s) (StepState.Name s) (StepState.Kind s) (StepState.Status s)
    id (StepState.TaskID s) (StepState.StartedAt s) (StepState.CompletedAt s)
    (StepState.ExitCode s) (StepState.Result s) (StepState.AgentResultJSON s) (StepState.Error s).
Definition complete (at_ : time) (code : option Z) (result : option RunResult.t)
    (agent : option json) (s : StepState.t) : StepState.t :=
  StepState.mk (StepState.StepID s) (StepState.Name s) (StepState.Kind s) StepStatusCompleted
    (StepState.ContainerID s) (StepState.TaskID s) (StepState.StartedAt s) (Some at_)
    (match code with Some _ => code | None => StepState.ExitCode s end) result agent
    (StepState.Error s).

Definition on_step (id : string) (f : StepState.t -> StepState.t) : ST RR unit :=
  on_state (update_step id f).

(** The task: the environment, the working directory and the CPU kind differ
    from [container_task]. *)
Definition step_task (taskID : string) (input : RunInput.t) : ContainerTask.t :=
  ContainerTask.mk (RunInput.Path input :: RunInput.Args input)
    (ContainerLimits.mk (ContainerLimits.CPU (RunInput.Limits input)) ""
       (ContainerLimits.Memory (RunInput.Limits input)))
    (RunInput.Env input) (RunInput.Name input ++ "-" ++ taskID) (RunInput.Image input)
    ((fun '(path, volume) => ContainerMount.mk (Volume.Name volume) path 0)
       <$> map_range (RunInput.Mounts input))
    (RunInput.Privileged input)
    (if decide (RunInput.Stdin input = "") then None else Some (RunInput.Stdin input))
    (RunInput.User input) "".

(** The step ends without a result: aborted, answered as such, or failed. *)
Definition end_step (id msg : string) (cleanup : ST RR unit) (e : err) : ST RR RunResult.t :=
  if is_abort e then
    on_step id (set_status StepStatusAborted) ;;; save ;;; cleanup ;;; ret RunResult.aborted
  else
    on_step id (fun s => set_error (Error e) (set_status StepStatusFailed s)) ;;; save ;;;
    fail (EWrap msg e).

Definition cleanup_container (container : string) : ST RR unit :=
  ignore (inner (driver (cd_Cleanup container))).

Definition waitAndCollectStepResult (ctx : option Z) (container id : string)
    : ST RR RunResult.t :=
  let! answer := attempt (inner (driver (waitForContainer ctx container))) in
  match answer with
  | Err e => end_step id "could not get container status" (cleanup_container container)
               (EWrap "container status" e)
  | Ok code =>
      let! logs := attempt (inner (driver (read_Logs ctx container))) in
      match logs with
      | Err e => end_step id "could not get container logs" (cleanup_container container) e
      | Ok (stdout, stderr) =>
          let result := RunResult.mk code stderr stdout RunComplete in
          let! t := clock in
          on_step id (complete t (if (code =? 0)%Z then None else Some code) (Some result) None) ;;;
          save ;;;
          cleanup_container container ;;;
          ret result
      end
  end.

Definition new_step (id name kind taskID : string) (t : time) : StepState.t :=
  StepState.mk id name kind StepStatusRunning "" taskID (Some t) None None None None "".

(** [runStep] in three parts, so that a process can end between them: record
    the step as running, start its container and record that, wait for it. *)
Definition beginStep (stepID : string) (input : RunInput.t) : ST RR (option Z * string) :=
  let! t := clock in
  let! ctx := inner (lift (run_context (RunInput.Timeout input))) in
  let! state := gets rr_state in
  let taskID := DeterministicTaskID (PipelineRunner.namespace c) (PipelineState.RunID state) stepID
                  (RunInput.Name input) in
  on_state (fun p => SetStep p (new_step stepID (RunInput.Name input) StepKindRun taskID t)) ;;;
  save ;;;
  ret (ctx, taskID).

Definition startStep (stepID : string) (input : RunInput.t)
    : ST RR (RunResult.t + option Z * string) :=
  let! '(ctx, taskID) := beginStep stepID input in
  let! container := attempt (wrap "run container"
    (inner (driver (cd_RunContainer ctx (step_task taskID input))))) in
  match container with
  | Err e => let! r := end_step stepID "could not run container" (ret tt) e in ret (inl r)
  | Ok container => on_step stepID (set_container container) ;;; save ;;; ret (inr (ctx, container))
  end.

Definition runStep (stepID : string) (input : RunInput.t) : ST RR RunResult.t :=
  let! started := startStep stepID input in
  match started with
  | inl r => ret r
  | inr (ctx, container) => waitAndCollectStepResult ctx container stepID
  end.

(** [inl result]: reattached; [inr e]: the caller runs a new container. *)
Definition reattachToContainer (id : string) (step : StepState.t) : ST RR (RunResult.t + err) :=
  let! container := attempt (inner (driver (cd_GetContainer (StepState.ContainerID step)))) in
  match container with
  | Err e =>
      ret (inr (EWrap (if errors_Is e SContainerNotFound then "container no longer exists"
                       else "could not get container") e))
  | Ok container =>
      let! answer := attempt (inner (driver (waitForContainer None container))) in
      match answer with
      | Err e => if is_abort e then ret (inl RunResult.aborted)
                 else ret (inr (EWrap "could not get container status" e))
      | Ok code =>
          let! logs := attempt (inner (driver (read_Logs None container))) in
          match logs with
          | Err e => if is_abort e then ret (inl RunResult.aborted)
                     else ret (inr (EWrap "could not get container logs" e))
          | Ok (stdout, stderr) =>
              let result := RunResult.mk code stderr stdout RunComplete in
              let! t := clock in
              on_step id (complete t (Some code) (Some result)
                (StepState.AgentResultJSON step)) ;;;
              save ;;;
              cleanup_container container ;;;
              ret (inl result)
          end
      end
  end.

(** A nil result pointer is answered as such. *)
Definition RunResumable (input : RunInput.t) : ST RR (option RunResult.t) :=
  let! stepID := findOrGenerateStepID (RunInput.Name input) in
  let! state := gets rr_state in
  let fresh := let! r := runStep stepID input in ret (Some r) in
  match GetStep state stepID with
  | None => fresh
  | Some step =>
      if CanSkip step then ret (StepState.Result step)
      else
        (if ShouldRetry step then on_step stepID MarkForRetry ;;; save else ret tt) ;;;
        let step := if ShouldRetry step then MarkForRetry step else step in
        if IsResumable step then
          let! r := reattachToContainer stepID step in
          match r with inl result => ret (Some result) | inr _ => fresh end
        else fresh
  end.

(** ** Agents, volumes, cancellation *)

(** The name in an agent's configuration; absent and null are empty. *)
Definition agent_name (configJSON : json) : result string :=
  match configJSON with
  | JObj fs =>
      match get_field "name" fs with
      | None | Some JNull => Ok ""
      | Some (JStr name) => Ok name
      | Some _ => Err (EMsg "could not parse agent config name")
      end
  | JNull => Ok ""
  | _ => Err (EMsg "could not parse agent config name")
  end.

Definition RunAgentResumable (configJSON : json) : ST RR (option json) :=
  let! name := inner (lift (agent_name configJSON)) in
  let name := if decide (name = "") then "agent" else name in
  let! stepID := findOrGenerateStepID name in
  let! state := gets rr_state in
  let step := GetStep state stepID in
  match (step ≫= fun step => if CanSkip step then Some (StepState.AgentResultJSON step) else None) with
  | Some answer => ret answer
  | None =>
      (match step with
       | Some step =>
           if ShouldRetry step || bool_decide (StepState.Status step = StepStatusRunning)
           then on_step stepID MarkForRetry ;;; save else ret tt
       | None => ret tt
       end) ;;;
      let! t := clock in
      on_state (fun p => SetStep p (new_step stepID name StepKindAgent "" t)) ;;;
      save ;;;
      let! answer := attempt (inner (RunAgent c configJSON)) in
      match answer with
      | Err e =>
          on_step stepID (fun s => set_error (Error e) (set_status StepStatusFailed s)) ;;; save ;;;
          fail e
      | Ok answer =>
          let! t := clock in
          on_step stepID (complete t None None (Some answer)) ;;;
          save ;;;
          ret (Some answer)
      end
  end.

(** [nil]: the volume map of a loaded state may be nil, which is made first. *)
Definition CreateVolumeResumable (name : string) (size : Z) : ST RR Volume.t :=
  let! vol := inner (CreateVolume c name size) in
  on_state (fun p => PipelineState.mk (PipelineState.RunID p) (PipelineState.Steps p)
    (PipelineState.StepOrder p)
    (<[name := VolumeState.mk (Volume.Name vol) (Volume.Path vol)]> (PipelineState.Volumes p))
    (PipelineState.StartedAt p) (PipelineState.CompletedAt p) (PipelineState.ResumeEnabled p)) ;;;
  save ;;;
  ret vol.

Definition MarkInProgressAsAborted : ST RR unit :=
  let! state := gets rr_state in
  match InProgressSteps state with
  | None => fail (ESentinel SPanic)
  | Some steps =>
      for_each (fun step => on_step (StepState.StepID step)
        (fun s => set_error "context cancelled" (set_status StepStatusAborted s))) steps ;;;
      save
  end.
End resumable.

(** ** The state stays well formed *)
Record state_wf (p : PipelineState.t) : Prop := {
  wf_order : NoDup (PipelineState.StepOrder p);
  wf_dom : forall id, id ∈ PipelineState.StepOrder p <-> is_Some (PipelineState.Steps p !! id);
  wf_ids : forall id s, PipelineState.Steps p !! id = Some s -> StepState.StepID s = id }.

Lemma NewPipelineState_wf runID resume t : state_wf (NewPipelineState runID resume t).
Proof.
  split; simpl; [constructor| |done]. intros id. rewrite lookup_empty, elem_of_nil.
  split; [done|by intros []].
Qed.

Lemma SetStep_wf p step : state_wf p -> state_wf (SetStep p step).
Proof.
  intros [Hnd Hdom Hids]. unfold SetStep. set (id := StepState.StepID step). split; simpl.
  - destruct (PipelineState.Steps p !! id) as [s|] eqn:E; [done|].
    apply NoDup_app. split_and!; [done| |apply NoDup_singleton].
    intros x Hx%Hdom ->%list_elem_of_singleton. rewrite E in Hx. by destruct Hx.
  - intros x. rewrite lookup_insert_is_Some'. destruct (PipelineState.Steps p !! id) as [s|] eqn:E.
    + rewrite Hdom. split; [by right|]. intros [<-|?]; [by rewrite E|done].
    + rewrite elem_of_app, list_elem_of_singleton, Hdom. naive_solver.
  - intros x s [[<- <-]|[_ Hs]]%lookup_insert_Some; [done|by apply Hids].
Qed.

Lemma update_step_wf p id f :
  (forall s, StepState.StepID (f s) = StepState.StepID s) -> state_wf p ->
  state_wf (update_step id f p).
Proof.
  intros Hf [Hnd Hdom Hids]. split; simpl; [done| |].
  - intros x. rewrite Hdom. destruct (decide (id = x)) as [->|Hne];
      [rewrite lookup_alter_eq; by rewrite fmap_is_Some|by rewrite lookup_alter_ne].
  - intros x s. destruct (decide (id = x)) as [->|Hne].
    + rewrite lookup_alter_eq. destruct (PipelineState.Steps p !! x) as [s0|] eqn:E; [|done].
      intros [= <-]. rewrite Hf. by apply Hids.
    + rewrite lookup_alter_ne by done. apply Hids.
Qed.

(** A well-formed state never dereferences a missing step. *)
Lemma in_progress_ok steps order :
  (forall id, id ∈ order -> is_Some (steps !! id)) ->
  in_progress steps order =
  Some (List.filter (fun s => bool_decide (StepState.Status s = StepStatusRunning))
          (omap (fun id => steps !! id) order)).
Proof.
  induction order as [|id order IH]; intros Hdom; [done|]. simpl.
  destruct (Hdom id) as [s Hs]; [by left|]. rewrite Hs. simpl.
  rewrite IH by (intros id' Hid; apply Hdom; by right). simpl.
  by case_decide; [rewrite bool_decide_eq_true_2|rewrite bool_decide_eq_false_2].
Qed.

Section wf.
Context `{!Namespace, !OrderBy, !JsonText, !MapOrder, !Clockwork, !Sha256, !Stamp, !SentinelText,
          !UniqueIDs, !ResumeText}.
Context {W : Type} `{!ContainerDriver W, !EndingContainers W}.
Context (c : PipelineRunner.t).
Notation RR := (resumable W).

Definition keeps_wf (s s' : RR) : Prop := state_wf (rr_state s) -> state_wf (rr_state s').
#[export] Instance keeps_wf_preorder : PreOrder keeps_wf.
Proof. split; unfold keeps_wf, Reflexive, Transitive; eauto. Qed.

Lemma inner_wf {A} (m : ST (runner_state W) A) : preserves keeps_wf (inner m).
Proof. intros s Hs. unfold inner. by destruct (m _). Qed.
Lemma on_state_wf f : (forall p, state_wf p -> state_wf (f p)) -> preserves keeps_wf (on_state (W := W) f).
Proof. intros Hf s Hs. by apply Hf. Qed.
Lemma on_step_wf id f :
  (forall s, StepState.StepID (f s) = StepState.StepID s) -> preserves keeps_wf (on_step (W := W) id f).
Proof. intros Hf. apply on_state_wf. intros p. by apply update_step_wf. Qed.
Lemma save_wf : preserves keeps_wf (save (W := W)).
Proof.
  apply preserves_ignore, preserves_bind; [apply _|apply (preserves_gets rr_state)|intros p].
  apply preserves_wrap, inner_wf.
Qed.
Hint Resolve inner_wf on_step_wf save_wf : preserves.
Ltac wf :=
  repeat first
    [ apply preserves_ret | apply preserves_fail | apply preserves_gets | apply inner_wf
    | apply save_wf | apply on_step_wf; intros []; reflexivity
    | apply on_state_wf; intros ? ?; apply SetStep_wf; assumption
    | apply preserves_bind; [| |intros ?] | apply preserves_attempt | apply preserves_wrap
    | apply preserves_ignore | apply _ | case_match ].

Lemma findOrGenerateStepID_wf name : preserves keeps_wf (findOrGenerateStepID (W := W) name).
Proof. intros s Hs. exact Hs. Qed.

Lemma end_step_wf id msg cleanup e :
  preserves keeps_wf cleanup -> preserves keeps_wf (end_step (W := W) id msg cleanup e).
Proof. intros Hc. unfold end_step. wf; exact Hc. Qed.

Lemma waitAndCollect_wf ctx container id :
  preserves keeps_wf (waitAndCollectStepResult (W := W) ctx container id).
Proof.
  unfold waitAndCollectStepResult, cleanup_container, clock.
  wf; apply end_step_wf; unfold cleanup_container; wf.
Qed.

Lemma runStep_wf id input : preserves keeps_wf (runStep c id input).
Proof.
  unfold runStep, startStep, beginStep, clock.
  wf; first [apply waitAndCollect_wf | apply end_step_wf; wf].
Qed.

Lemma reattach_wf id step : preserves keeps_wf (reattachToContainer (W := W) id step).
Proof. unfold reattachToContainer, clock, cleanup_container. wf. Qed.

Lemma retry_wf id (b : bool) :
  preserves keeps_wf (if b then on_step (W := W) id MarkForRetry ;;; save else ret tt).
Proof. wf. Qed.

Lemma RunResumable_wf input : preserves keeps_wf (RunResumable c input).
Proof.
  unfold RunResumable. apply preserves_bind; [apply _|apply findOrGenerateStepID_wf|intros id].
  apply preserves_bind; [apply _|apply (preserves_gets rr_state)|intros state].
  assert (Hfresh : preserves keeps_wf (let! r := runStep c id input in ret (Some r)))
    by (apply preserves_bind; [apply _|apply runStep_wf|intros; apply preserves_ret; apply _]).
  case_match; [|exact Hfresh]. case_match; [wf|].
  apply preserves_bind; [apply _|apply retry_wf|intros _].
  case_match; [|exact Hfresh]. apply preserves_bind; [apply _|apply reattach_wf|intros r].
  destruct r; [wf|exact Hfresh].
Qed.

Lemma RunAgentResumable_wf config : preserves keeps_wf (RunAgentResumable c config).
Proof.
  unfold RunAgentResumable. apply preserves_bind; [apply _|apply inner_wf|intros name].
  apply preserves_bind; [apply _|apply findOrGenerateStepID_wf|intros id].
  apply preserves_bind; [apply _|apply (preserves_gets rr_state)|intros state].
  case_match; [wf|].
  apply preserves_bind; [apply _|case_match; [apply retry_wf|wf]|intros _].
  unfold clock. wf.
Qed.

Lemma CreateVolumeResumable_wf name size : preserves keeps_wf (CreateVolumeResumable c name size).
Proof.
  unfold CreateVolumeResumable. wf.
  apply on_state_wf. intros p [Hnd Hdom Hids]. by split.
Qed.

Lemma MarkInProgressAsAborted_wf : preserves keeps_wf (MarkInProgressAsAborted (W := W)).
Proof.
  unfold MarkInProgressAsAborted.
  apply preserves_bind; [apply _|apply (preserves_gets rr_state)|intros state].
  case_match; [|wf]. apply preserves_bind; [apply _| |intros _; wf].
  apply preserves_for_each; [apply _|]. intros step _. wf.
Qed.

(** C40: A run's state is well formed from its creation on, through steps,
    retries, reattachments, agents, volumes and cancellation, whatever fails:
    the step order lists every step once and nothing else, and each step sits
    under its own id. So the steps in progress can always be listed. *)
Theorem resumable_state_wf (s : RR) input config name size :
  state_wf (rr_state s) ->
  state_wf (rr_state (RunResumable c input s).2) /\
  state_wf (rr_state (RunAgentResumable c config s).2) /\
  state_wf (rr_state (CreateVolumeResumable c name size s).2) /\
  state_wf (rr_state (MarkInProgressAsAborted s).2) /\
  exists running, InProgressSteps (rr_state s) = Some running /\
    forall step, step ∈ running <->
      StepState.Status step = StepStatusRunning /\
      PipelineState.Steps (rr_state s) !! StepState.StepID step = Some step.
Proof.
  intros Hwf. split_and!; [by apply RunResumable_wf|by apply RunAgentResumable_wf
    |by apply CreateVolumeResumable_wf|by apply MarkInProgressAsAborted_wf|].
  destruct Hwf as [Hnd Hdom Hids]. unfold InProgressSteps.
  rewrite in_progress_ok by (intros id; apply Hdom). eexists. split; [reflexivity|].
  intros step. rewrite list_elem_of_In, filter_In, <- list_elem_of_In, bool_decide_eq_true, list_elem_of_omap.
  split; intros [Hl Hr].
  - destruct Hl as (id & Hid & Hl). split; [done|]. by rewrite (Hids id step Hl).
  - split; [|done]. exists (StepState.StepID step). split; [|done]. by apply Hdom.
Qed.
End wf.

(** ** Resuming *)
Definition step_id (i : nat) (name : string) : string :=
  Itoa (Z.of_nat i) ++ "-" ++ sanitizeName name.

Lemma step_id_index i j a b : step_id i a = step_id j b -> i = j.
Proof.
  unfold step_id. intros He. apply digits_prefix_inj in He; [|done|apply Itoa_digits; lia..].
  apply Itoa_inj in He; lia.
Qed.

Section replay.
Context `{!Namespace, !OrderBy, !JsonText, !MapOrder, !Clockwork, !Sha256, !Stamp, !SentinelText,
          !UniqueIDs, !ResumeText}.
Context {W : Type} `{!ContainerDriver W, !EndingContainers W}.
Context (c : PipelineRunner.t).
Notation RR := (resumable W).
Notation RS := (runner_state W).
Implicit Types (s : RR) (i : RS) (p : PipelineState.t).

Definition stored (runID : string) i : option json :=
  taskRow.payload <$> db_tasks (tr_db i) !! task_path (state_key runID).

(** The row holds exactly [p]; the row can take [p]. *)
Definition saved i p : Prop :=
  quiet i /\ storable_state p /\
  exists v, stored (PipelineState.RunID p) i = Some v /\ jequiv (state_json p) v.
Definition savable i p : Prop :=
  quiet i /\ storable_state p /\
  forall v, stored (PipelineState.RunID p) i = Some v ->
    exists old, jequiv (state_json old) v /\ storable_state old /\ extends p old.

Lemma saved_savable i p q :
  saved i p -> storable_state q -> extends q p -> PipelineState.RunID q = PipelineState.RunID p ->
  savable i q.
Proof.
  intros (Hq & Hp & v & Hv & He) Hsq Hext Hid. split_and!; [done..|]. rewrite Hid, Hv.
  intros v' [= <-]. by exists p.
Qed.

Lemma save_post s Q :
  savable (rr_inner s) (rr_state s) ->
  (forall i, saved i (rr_state s) -> Q (Ok tt) (set_inner i s)) -> post save s Q.
Proof.
  intros (Hq & Hst & Hold) HQ. set (p := rr_state s) in *.
  set (path := task_path (state_key (PipelineState.RunID p))).
  set (i := set_tr_db (upsert_task path (extractRunID path) (state_json p) (tr_db (rr_inner s)))
              (rr_inner s)).
  assert (Hrun : save s = (Ok tt, set_inner i s)).
  { unfold save, ignore, saveState, bind, wrap, gets, inner, on_db. cbn [get_db put_db runner_has_db].
    by rewrite Set_no_faults. }
  unfold post. rewrite Hrun. apply HQ. split_and!; [|done|].
  - unfold quiet, i. simpl. by rewrite upsert_task_faults.
  - destruct (lookup_upsert_task path (extractRunID path) (state_json p) (tr_db (rr_inner s)))
      as (t & Ht & Hpay).
    exists (taskRow.payload t). unfold stored, i. simpl. fold path. rewrite Ht. split; [done|].
    rewrite Hpay. unfold stored in Hold. fold path in Hold.
    destruct (db_tasks (tr_db (rr_inner s)) !! path) as [row|]; simpl in Hold; [|apply je_refl].
    destruct (Hold _ eq_refl) as (old & He & Ho & Hext).
    apply (merged_state_equiv (Some (taskRow.payload row)) old p Hst Ho Hext).
    by intros v [= <-].
Qed.

(** A new process finds the state again. *)
Lemma NewResumableRunner_saved i p :
  saved i p -> PipelineState.RunID p <> "" ->
  NewResumableRunner (PipelineState.RunID p) true i = (Ok (mkResumable W i p 0), i).
Proof.
  intros (Hq & Hst & v & Hv & He) Hid. unfold NewResumableRunner. rewrite decide_False by done.
  cbn [bind ret]. unfold attempt, loadState, bind, wrap, on_db. cbn [get_db put_db runner_has_db].
  unfold stored in Hv. rewrite Get_no_faults by done.
  destruct (db_tasks (tr_db i) !! _) as [row|]; [|done]. injection Hv as ->.
  rewrite (json_state_written p v Hst He). simpl. by destruct i.
Qed.

(** What a process saves, another one loads: when the state drops no field
    of the state stored before (or nothing was stored), saving it and resuming
    the run in a new process gives the same state, and reads only. *)
Theorem save_resume_roundtrip s :
  savable (rr_inner s) (rr_state s) -> PipelineState.RunID (rr_state s) <> "" ->
  exists i, save s = (Ok tt, set_inner i s) /\
    NewResumableRunner (PipelineState.RunID (rr_state s)) true i
    = (Ok (mkResumable W i (rr_state s) 0), i).
Proof.
  intros Hs Hid. assert (Hp : post save s (fun r s' => exists i, r = Ok tt /\ s' = set_inner i s /\
    saved i (rr_state s))) by (apply save_post; [done|]; intros i Hi; by exists i).
  destruct Hp as (i & Hr & Hs' & Hi). exists i. split; [|by apply NewResumableRunner_saved].
  destruct (save s) as [r s']. simpl in *. by subst.
Qed.

(** *** Changes that drop nothing *)
Lemma keeps_fields_refl st : keeps_fields st st.
Proof. by split. Qed.

Lemma extends_insert p q id st :
  PipelineState.Steps q = <[id := st]> (PipelineState.Steps p) ->
  PipelineState.Volumes q = PipelineState.Volumes p ->
  PipelineState.StartedAt q = PipelineState.StartedAt p ->
  PipelineState.CompletedAt q = PipelineState.CompletedAt p ->
  (forall old, PipelineState.Steps p !! id = Some old -> keeps_fields st old) -> extends q p.
Proof.
  intros Hs Hv Hst Hc Hk. split; rewrite ?Hv, ?Hst, ?Hc; try done.
  intros id' old Hold. rewrite Hs. destruct (decide (id = id')) as [->|Hne].
  - rewrite lookup_insert_eq. exists st. split; [done|by apply Hk].
  - rewrite lookup_insert_ne by done. exists old. split; [done|apply keeps_fields_refl].
Qed.

Lemma storable_insert p q id st :
  storable_state p -> storable_step st ->
  PipelineState.Steps q = <[id := st]> (PipelineState.Steps p) -> storable_state q.
Proof. intros Hp Hst Hs. unfold storable_state. rewrite Hs. by apply map_Forall_insert_2. Qed.

#[export] Instance keeps_fields_trans : Transitive keeps_fields.
Proof. intros a b d [] []. split; auto. Qed.
#[export] Instance extends_trans : Transitive extends.
Proof.
  intros p q r [Hs1 Hv1 Ha1 Hc1] [Hs2 Hv2 Ha2 Hc2]. split; auto.
  intros id st Hst. destruct (Hs2 id st Hst) as (st1 & H1' & Hk1).
  destruct (Hs1 id st1 H1') as (st2 & H2' & Hk2). exists st2. split; [done|by etrans].
Qed.

#[export] Instance extends_refl : Reflexive extends.
Proof. intros p. split; try done. intros id st Hst. exists st. split; [done|apply keeps_fields_refl]. Qed.

Lemma savable_extends i p q :
  savable i p -> storable_state q -> extends q p -> PipelineState.RunID q = PipelineState.RunID p ->
  savable i q.
Proof.
  intros (Hq & Hp & Hold) Hsq Hext Hid. split_and!; [done..|]. rewrite Hid. intros v Hv.
  destruct (Hold v Hv) as (old & He & Ho & Hext'). exists old. split_and!; [done..|by etrans].
Qed.

(** [s'] is [s] with the step [id] set to [st], and saved. *)
Record at_step s (id : string) (st : StepState.t) s' : Prop := {
  as_saved : saved (rr_inner s') (rr_state s');
  as_index : rr_index s' = rr_index s;
  as_run : PipelineState.RunID (rr_state s') = PipelineState.RunID (rr_state s);
  as_steps : PipelineState.Steps (rr_state s') = <[id := st]> (PipelineState.Steps (rr_state s)) }.

(** [s'] with other calls of the runner made. *)
Lemma at_step_inner s id st s' i :
  at_step s id st s' -> tr_db i = tr_db (rr_inner s') -> at_step s id st (set_inner i s').
Proof.
  intros [(Hq & Hst & v & Hv & He) Hi Hr Hs] Hdb. split; [|done..]. split_and!; [|done|].
  - unfold quiet in *. simpl. by rewrite Hdb.
  - exists v. unfold stored in *. simpl. by rewrite Hdb.
Qed.

Lemma step_save_post {B} s id st s' f (k : ST RR B) Q :
  at_step s id st s' -> keeps_fields (f st) st -> storable_step (f st) ->
  (forall s'', at_step s id (f st) s'' -> post k s'' Q) ->
  post (on_step id f ;;; save ;;; k) s' Q.
Proof.
  intros [Hsaved Hi Hr Hs] Hk Hf HQ. apply post_bind. unfold post at 1. cbn [on_step on_state modify fst snd].
  set (q := update_step id f (rr_state s')).
  assert (Hq : PipelineState.Steps q = <[id := f st]> (PipelineState.Steps (rr_state s'))).
  { unfold q. simpl. rewrite Hs. apply map_eq. intros x. destruct (decide (id = x)) as [->|Hne].
    - by rewrite lookup_alter_eq, !lookup_insert_eq.
    - by rewrite lookup_alter_ne, !lookup_insert_ne. }
  assert (Hst : storable_state (rr_state s')) by apply Hsaved.
  apply post_bind, save_post.
  - apply (saved_savable _ (rr_state s') q); [done|by eapply storable_insert| |done].
    apply (extends_insert _ _ id (f st)); [done..|]. intros old. rewrite Hs, lookup_insert_eq.
    by intros [= <-].
  - intros i Hi'. apply HQ. split; [done..|].
    change (PipelineState.Steps q = <[id := f st]> (PipelineState.Steps (rr_state s))).
    rewrite Hq, Hs. by rewrite insert_insert_eq.
Qed.

Lemma beginStep_post id input s Q :
  savable (rr_inner s) (rr_state s) -> GetStep (rr_state s) id = None ->
  (forall ctx taskID t s', at_step s id (new_step id (RunInput.Name input) StepKindRun taskID t) s' ->
     Q (Ok (ctx, taskID)) s') ->
  (forall e, Q (Err e) s) ->
  post (beginStep c id input) s Q.
Proof.
  intros Hs Hn HQ He. unfold beginStep, clock. apply post_bind. unfold post at 1. cbn [inner now gets fst snd].
  apply post_bind. unfold post at 1. unfold lift. cbn [inner fst snd].
  replace (set_inner (rr_inner (set_inner (rr_inner s) s)) (set_inner (rr_inner s) s)) with s
    by (by destruct s).
  destruct (run_context _) as [ctx|e]; [|apply He].
  replace (set_inner (rr_inner s) s) with s by (by destruct s).
  apply post_bind. unfold post at 1. cbn [gets fst snd].
  set (t := db_now _). set (taskID := DeterministicTaskID _ _ _ _).
  set (st := new_step id (RunInput.Name input) StepKindRun taskID t).
  apply post_bind. unfold post at 1. cbn [on_state modify fst snd]. set (q := SetStep (rr_state s) st).
  assert (Hst : storable_state q)
    by (apply (storable_insert (rr_state s) q id st); [apply Hs|done|done]).
  apply post_bind, save_post.
  - apply (savable_extends _ (rr_state s)); [done..| |done].
    apply (extends_insert _ _ id st); [done..|]. unfold GetStep in Hn. by rewrite Hn.
  - intros i Hi. apply (HQ ctx taskID t). by split.
Qed.

(** A step that ends early answers no complete result. *)
Lemma end_step_aborted id msg cleanup e s r s' :
  end_step id msg cleanup e s = (Ok r, s') -> r = RunResult.aborted.
Proof.
  unfold end_step. destruct (is_abort e); revert s r s'.
  - repeat (apply returns_bind; intros ?). by intros s r s' [= <- _].
  - repeat (apply returns_bind; intros ?). done.
Qed.

(** The outcome of a step: when it completed, its result is in the saved state. *)
Definition step_done s id (r : result RunResult.t) s' : Prop :=
  forall res, r = Ok res -> RunResult.Status res = RunComplete ->
    exists st, at_step s id st s' /\ CanSkip st = true /\ StepState.Result st = Some res.

Lemma end_step_post s0 id msg cleanup e s :
  post (end_step id msg cleanup e) s (step_done s0 id).
Proof.
  unfold post. intros res Hr Hdone. destruct (end_step id msg cleanup e s) as [r s'] eqn:E.
  simpl in Hr. subst r. apply end_step_aborted in E. by subst.
Qed.

Definition plain_step (id : string) (st : StepState.t) : Prop :=
  StepState.Kind st = StepKindRun /\ storable_step st /\ StepState.CompletedAt st = None /\
  StepState.ExitCode st = None /\ StepState.Result st = None /\ StepState.Error st = "".

Lemma inner_driver_post {A} (f : W -> W * result A) s (Q : result A -> RR -> Prop) :
  (forall r i, tr_db i = tr_db (rr_inner s) -> Q r (set_inner i s)) ->
  post (inner (driver f)) s Q.
Proof.
  intros HQ. unfold post, inner, driver. destruct (f _) as [w r]. simpl. by apply HQ.
Qed.

Lemma waitAndCollect_post s id st s' ctx container :
  at_step s id st s' -> plain_step id st ->
  post (waitAndCollectStepResult ctx container id) s' (step_done s id).
Proof.
  intros Has (Hkind & Hst & Hcomp & Hcode & Hres & Herr). unfold waitAndCollectStepResult.
  apply post_bind, post_attempt, inner_driver_post. intros [code|e] i1 Hi1; [|apply end_step_post].
  apply post_bind, post_attempt, inner_driver_post. intros [[stdout stderr]|e] i2 Hi2;
    [|apply end_step_post].
  assert (Has2 : at_step s id st (set_inner i2 (set_inner i1 s'))).
  { apply at_step_inner; [|done]. by apply at_step_inner. }
  set (s2 := set_inner i2 (set_inner i1 s')) in *. apply post_bind. unfold clock, post at 1.
  cbn [inner now gets fst snd]. replace (set_inner (rr_inner s2) s2) with s2 by done.
  set (t := db_now _). set (result := RunResult.mk code stderr stdout RunComplete).
  set (f := complete t (if (code =? 0)%Z then None else Some code) (Some result) None).
  eapply step_save_post; [exact Has2| |done|].
  - split; simpl; rewrite ?Hcomp, ?Hcode, ?Hres, ?Herr; done.
  - intros s3 Has3. unfold cleanup_container. apply post_bind, post_ignore, inner_driver_post.
    intros r i3 Hi3 res [= <-] _. exists (f st). split; [by apply at_step_inner|].
    unfold CanSkip. simpl. rewrite Hkind. done.
Qed.

Lemma new_step_plain id name taskID t : plain_step id (new_step id name StepKindRun taskID t).
Proof. by split_and!. Qed.

Lemma startStep_post s id input Q :
  savable (rr_inner s) (rr_state s) -> GetStep (rr_state s) id = None ->
  (forall ctx container st s', at_step s id st s' -> plain_step id st ->
     StepState.Status st = StepStatusRunning -> StepState.ContainerID st = container ->
     Q (Ok (inr (ctx, container))) s') ->
  (forall s', Q (Ok (inl RunResult.aborted)) s') -> (forall e s', Q (Err e) s') ->
  post (startStep c id input) s Q.
Proof.
  intros Hs Hn Hstart Habort Herr. unfold startStep. apply post_bind, beginStep_post; [done..| |done].
  intros ctx taskID t s1 Has. apply post_bind, post_attempt. unfold wrap, post at 1.
  set (m := inner _). assert (Hm : tr_db (rr_inner (m s1).2) = tr_db (rr_inner s1) /\
    (m s1).2 = set_inner (rr_inner (m s1).2) s1).
  { unfold m, inner, driver. by destruct (cd_RunContainer _ _ _). }
  destruct (m s1) as [[container|e] s2] eqn:E; simpl in Hm; destruct Hm as [Hdb Heq]; cbn [fst snd].
  - assert (Has2 : at_step s id (new_step id (RunInput.Name input) StepKindRun taskID t) s2)
      by (rewrite Heq; by apply at_step_inner).
    eapply step_save_post; [exact Has2|by split|done|]. intros s3 Has3.
    eapply Hstart; [exact Has3|by split_and!|done|done].
  - apply post_bind. unfold post at 1.
    destruct (end_step _ _ _ _ s2) as [[r|e'] s3] eqn:Eend; cbn [fst snd]; [|apply Herr].
    apply end_step_aborted in Eend. subst r. apply Habort.
Qed.

Lemma runStep_post s id input :
  savable (rr_inner s) (rr_state s) -> GetStep (rr_state s) id = None ->
  post (runStep c id input) s (step_done s id).
Proof.
  intros Hs Hn. unfold runStep. apply post_bind, startStep_post; [done..| | |].
  - intros ctx container st s1 Has Hplain _ _. by eapply waitAndCollect_post.
  - by intros s1 res [= <-].
  - done.
Qed.

(** *** Scripts *)

(** The calls of a pipeline, one after the other. *)
Fixpoint run_script (script : list RunInput.t) : ST RR (list (option RunResult.t)) :=
  match script with
  | [] => ret []
  | input :: script =>
      let! r := RunResumable c input in
      let! rs := run_script script in
      ret (r :: rs)
  end.

(** The steps run so far: completed, in order, and no others. *)
Record progress (done : list (string * RunResult.t)) s : Prop := {
  pg_savable : savable (rr_inner s) (rr_state s);
  pg_saved : done <> [] -> saved (rr_inner s) (rr_state s);
  pg_index : rr_index s = Z.of_nat (length done);
  pg_done : forall n name res, done !! n = Some (name, res) ->
    exists st, PipelineState.Steps (rr_state s) !! step_id n name = Some st /\
      CanSkip st = true /\ StepState.Result st = Some res;
  pg_only : forall id, is_Some (PipelineState.Steps (rr_state s) !! id) ->
    exists n name, n < length done /\ id = step_id n name }.

Definition at_index (n : nat) s : RR := mkResumable W (rr_inner s) (rr_state s) (Z.of_nat n).

Lemma progress_fresh done s name :
  progress done s -> GetStep (rr_state s) (step_id (length done) name) = None.
Proof.
  intros Hp. apply eq_None_not_Some. intros (n & name' & Hi & He)%(pg_only _ _ Hp).
  apply step_id_index in He. lia.
Qed.

Lemma RunResumable_fresh done s input :
  progress done s ->
  RunResumable c input s =
    (let! r := runStep c (step_id (length done) (RunInput.Name input)) input in ret (Some r))
      (at_index (S (length done)) s).
Proof.
  intros Hp. unfold RunResumable. unfold bind at 1. unfold findOrGenerateStepID.
  rewrite (pg_index _ _ Hp). fold (step_id (length done) (RunInput.Name input)).
  replace (Z.of_nat (length done) + 1)%Z with (Z.of_nat (S (length done))) by lia.
  fold (at_index (S (length done)) s). unfold bind at 1. cbn [gets rr_state at_index].
  by rewrite (progress_fresh done s _ Hp).
Qed.

Lemma progress_step done s input res s' :
  progress done s -> RunResumable c input s = (Ok (Some res), s') ->
  RunResult.Status res = RunComplete -> progress (done ++ [(RunInput.Name input, res)]) s' /\
    PipelineState.RunID (rr_state s') = PipelineState.RunID (rr_state s).
Proof.
  intros Hp Hrun Hres. rewrite (RunResumable_fresh done s input Hp) in Hrun.
  set (id := step_id (length done) (RunInput.Name input)) in *.
  set (s0 := at_index (S (length done)) s) in *.
  pose proof (runStep_post s0 id input (pg_savable _ _ Hp) (progress_fresh done s _ Hp)) as Hpost.
  unfold post, bind in *. destruct (runStep c id input s0) as [[r|e] s1]; [|done].
  cbn [ret] in Hrun. injection Hrun as -> <-. cbn [fst snd] in Hpost.
  destruct (Hpost res eq_refl Hres) as (st & Has & Hskip & Hr).
  destruct Has as [Hsaved Hidx Hid Hsteps]. split; [|done]. split.
  - apply (saved_savable _ (rr_state s1)); [done|apply Hsaved|reflexivity|done].
  - done.
  - rewrite Hidx, length_app. cbn. lia.
  - intros n name res' Hi. rewrite Hsteps. apply lookup_app_Some in Hi as [Hi|[Hge Hi]].
    + destruct (pg_done _ _ Hp n name res' Hi) as (st' & Hst' & ?). exists st'.
      rewrite lookup_insert_ne; [done|]. intros He%step_id_index.
      apply lookup_lt_Some in Hi. lia.
    + apply list_lookup_singleton_Some in Hi as [Hz [= <- <-]]. exists st.
      replace n with (length done) by lia. by rewrite lookup_insert_eq.
  - intros x. rewrite Hsteps, lookup_insert_is_Some', length_app. cbn. intros [<-|Hx].
    + exists (length done), (RunInput.Name input). split; [lia|done].
    + destruct (pg_only _ _ Hp x Hx) as (n & name & ? & ?). exists n, name. split; [lia|done].
Qed.

(** All results are complete. *)
Definition completed (results : list (option RunResult.t)) (rs : list RunResult.t) : Prop :=
  results = Some <$> rs /\ Forall (fun r => RunResult.Status r = RunComplete) rs.

Lemma progress_script script : forall done s results rs s',
  progress done s -> run_script script s = (Ok results, s') -> completed results rs ->
  progress (done ++ zip (RunInput.Name <$> script) rs) s' /\ length rs = length script /\
  PipelineState.RunID (rr_state s') = PipelineState.RunID (rr_state s).
Proof.
  induction script as [|input script IH]; intros done s results rs s' Hp Hrun [Hres Hall].
  - injection Hrun as <- <-. destruct rs; [|done]. simpl. by rewrite app_nil_r.
  - cbn [run_script] in Hrun. unfold bind at 1 in Hrun.
    destruct (RunResumable c input s) as [[r|e] s1] eqn:E1; [|done]. unfold bind in Hrun.
    destruct (run_script script s1) as [[rs1|e] s2] eqn:E2; [|done]. injection Hrun as <- <-.
    destruct rs as [|res rs]; [done|]. injection Hres as -> Hrs. apply Forall_cons in Hall as [Hc Hall].
    destruct (progress_step done s input res s1 Hp E1 Hc) as [Hp1 Hid1].
    destruct (IH _ s1 rs1 rs s2 Hp1 E2) as (Hp2 & Hlen & Hid2); [by split|].
    rewrite <- (assoc_L app) in Hp2. simpl. split_and!; [exact Hp2|by rewrite Hlen|congruence].
Qed.

(** A step that is done is answered from the state: no call, no write. *)
Lemma RunResumable_skip s k input st :
  rr_index s = Z.of_nat k ->
  PipelineState.Steps (rr_state s) !! step_id k (RunInput.Name input) = Some st ->
  CanSkip st = true ->
  RunResumable c input s = (Ok (StepState.Result st), at_index (S k) s).
Proof.
  intros Hk Hst Hskip. unfold RunResumable. unfold bind at 1. unfold findOrGenerateStepID.
  rewrite Hk. fold (step_id k (RunInput.Name input)). unfold bind at 1. cbn [gets rr_state].
  unfold GetStep. rewrite Hst, Hskip.
  replace (Z.of_nat k + 1)%Z with (Z.of_nat (S k)) by lia. done.
Qed.

Lemma replay script : forall k s rs,
  rr_index s = Z.of_nat k -> length rs = length script ->
  (forall j name res, zip (RunInput.Name <$> script) rs !! j = Some (name, res) ->
    exists st, PipelineState.Steps (rr_state s) !! step_id (k + j) name = Some st /\
      CanSkip st = true /\ StepState.Result st = Some res) ->
  run_script script s = (Ok (Some <$> rs), at_index (k + length script) s).
Proof.
  induction script as [|input script IH]; intros k s [|res rs] Hk Hlen Hst; try done.
  - cbn. rewrite Nat.add_0_r. unfold at_index. rewrite <- Hk. by destruct s.
  - destruct (Hst 0 (RunInput.Name input) res eq_refl) as (st & Hs & Hskip & Hr).
    rewrite Nat.add_0_r in Hs. cbn [run_script]. unfold bind at 1.
    rewrite (RunResumable_skip s k input st Hk Hs Hskip), Hr. unfold bind.
    rewrite (IH (S k) (at_index (S k) s) rs).
    + cbn. unfold at_index. simpl. do 3 f_equal. lia.
    + done.
    + by injection Hlen.
    + intros j name res' Hj. destruct (Hst (S j) name res' Hj) as (st' & ? & ?).
      exists st'. replace (S k + j) with (k + S j) by lia. done.
Qed.

Lemma NewResumableRunner_fresh i runID :
  quiet i -> stored runID i = None -> runID <> "" ->
  exists s, NewResumableRunner runID true i = (Ok s, i) /\ progress [] s /\
    PipelineState.RunID (rr_state s) = runID.
Proof.
  intros Hq Hn Hid. unfold NewResumableRunner. rewrite decide_False by done.
  cbn [bind ret]. unfold attempt, loadState, bind, wrap, on_db. cbn [get_db put_db runner_has_db].
  rewrite Get_no_faults by done. unfold stored in Hn.
  destruct (db_tasks (tr_db i) !! _) as [row|] eqn:E; [done|]. cbn [fail errors_Is].
  rewrite bool_decide_eq_true_2 by done. cbn [now gets].
  replace (set_tr_db (tr_db i) i) with i by (by destruct i). eexists. split; [reflexivity|].
  split; [|done]. split; cbn [rr_inner rr_state rr_index length]; try done.
  - split_and!; [done|intros k v Hk; cbn in Hk; by rewrite lookup_empty in Hk|]. cbn. unfold stored. by rewrite E.
  - intros x. cbn. rewrite lookup_empty. by intros [].
Qed.

(** The done steps as [replay] wants them. *)
Lemma progress_replay done s script rs k :
  progress (done ++ zip (RunInput.Name <$> script) rs) s -> k = length done ->
  forall j name res, zip (RunInput.Name <$> script) rs !! j = Some (name, res) ->
    exists st, PipelineState.Steps (rr_state s) !! step_id (k + j) name = Some st /\
      CanSkip st = true /\ StepState.Result st = Some res.
Proof.
  intros Hp -> j name res Hj. apply (pg_done _ _ Hp).
  rewrite lookup_app_r by lia. by replace (length done + j - length done) with j by lia.
Qed.

Lemma zip_not_nil (script : list RunInput.t) (rs : list RunResult.t) :
  script <> [] -> length rs = length script -> zip (RunInput.Name <$> script) rs <> [].
Proof. by destruct script, rs. Qed.

(** A step that was running with a container is reattached. *)
Lemma RunResumable_running s k input st :
  rr_index s = Z.of_nat k ->
  PipelineState.Steps (rr_state s) !! step_id k (RunInput.Name input) = Some st ->
  StepState.Status st = StepStatusRunning -> StepState.ContainerID st <> "" ->
  RunResumable c input s =
    (let! r := reattachToContainer (step_id k (RunInput.Name input)) st in
     match r with
     | inl result => ret (Some result)
     | inr _ => let! r := runStep c (step_id k (RunInput.Name input)) input in ret (Some r)
     end) (at_index (S k) s).
Proof.
  intros Hk Hst Hrunning Hcon. unfold RunResumable. unfold bind at 1. unfold findOrGenerateStepID.
  rewrite Hk. fold (step_id k (RunInput.Name input)).
  replace (Z.of_nat k + 1)%Z with (Z.of_nat (S k)) by lia.
  unfold bind at 1. cbn [gets rr_state]. unfold GetStep. rewrite Hst.
  assert (Hskip : CanSkip st = false) by (unfold CanSkip; rewrite Hrunning; done).
  assert (Hretry : ShouldRetry st = false) by (unfold ShouldRetry; rewrite Hrunning; done).
  assert (Hres : IsResumable st = true)
    by (unfold IsResumable; rewrite Hrunning, (bool_decide_eq_false_2 (_ = "")) by done; done).
  rewrite Hskip, Hretry. unfold bind at 1. cbn [ret]. by rewrite Hres.
Qed.

(** C24: Resuming a run in a new process repeats nothing: the calls that completed
    before are answered with the same results, in the same order, and neither
    the driver nor the store is touched; the state is the one that was saved. *)
Theorem resume_replays i0 runID script s0 results rs s1 :
  quiet i0 -> stored runID i0 = None -> runID <> "" -> script <> [] ->
  NewResumableRunner runID true i0 = (Ok s0, i0) ->
  run_script script s0 = (Ok results, s1) -> completed results rs ->
  exists s2, NewResumableRunner runID true (rr_inner s1) = (Ok s2, rr_inner s1) /\
    exists s3, run_script script s2 = (Ok results, s3) /\ rr_inner s3 = rr_inner s1 /\
      rr_state s3 = rr_state s1.
Proof.
  intros Hq Hn Hid Hne Hnew Hrun Hc.
  destruct (NewResumableRunner_fresh i0 runID Hq Hn Hid) as (s0' & Hnew' & Hp0 & Hid0).
  rewrite Hnew in Hnew'. injection Hnew' as <-.
  destruct (progress_script script [] s0 results rs s1 Hp0 Hrun Hc) as (Hp1 & Hlen & Hid1).
  assert (Hsaved : saved (rr_inner s1) (rr_state s1)) by (apply (pg_saved _ _ Hp1); by apply zip_not_nil).
  rewrite Hid0 in Hid1. exists (mkResumable W (rr_inner s1) (rr_state s1) 0). split.
  - rewrite <- Hid1. apply NewResumableRunner_saved; [done|by rewrite Hid1].
  - rewrite (replay script 0 _ rs); [|done..|].
    + destruct Hc as [-> _]. eexists. split; [reflexivity|]. done.
    + by apply (progress_replay [] s1 script rs 0 Hp1).
Qed.

(** When the process dies while it waits for the container of a further
    step, the resumed run first replays the completed calls and then reattaches
    to that container, by the id that was saved; it starts a new one only when
    reattaching fails. *)
Theorem resume_reattaches i0 runID script s0 results rs s1 input ctx container s1' :
  quiet i0 -> stored runID i0 = None -> runID <> "" ->
  NewResumableRunner runID true i0 = (Ok s0, i0) ->
  run_script script s0 = (Ok results, s1) -> completed results rs ->
  let id := step_id (length script) (RunInput.Name input) in
  startStep c id input (at_index (S (length script)) s1) = (Ok (inr (ctx, container)), s1') ->
  container <> "" ->
  exists s2 s3 step, NewResumableRunner runID true (rr_inner s1') = (Ok s2, rr_inner s1') /\
    run_script script s2 = (Ok results, s3) /\ rr_inner s3 = rr_inner s1' /\
    StepState.ContainerID step = container /\
    RunResumable c input s3 =
      (let! r := reattachToContainer id step in
       match r with
       | inl result => ret (Some result)
       | inr _ => let! r := runStep c id input in ret (Some r)
       end) (at_index (S (length script)) s3).
Proof.
  intros Hq Hn Hid Hnew Hrun Hc id Hstart Hcon.
  destruct (NewResumableRunner_fresh i0 runID Hq Hn Hid) as (s0' & Hnew' & Hp0 & Hid0).
  rewrite Hnew in Hnew'. injection Hnew' as <-.
  destruct (progress_script script [] s0 results rs s1 Hp0 Hrun Hc) as (Hp1 & Hlen & Hid1).
  set (s1a := at_index (S (length script)) s1) in *.
  assert (Hlz : length (zip (RunInput.Name <$> script) rs) = length script)
    by (rewrite length_zip, length_fmap; lia).
  assert (Hfresh : GetStep (rr_state s1a) id = None).
  { pose proof (progress_fresh _ s1 (RunInput.Name input) Hp1) as Hf. simpl in Hf. by rewrite Hlz in Hf. }
  assert (Hpost : post (startStep c id input) s1a (fun r s' => r = Ok (inr (ctx, container)) ->
    exists st, at_step s1a id st s' /\ StepState.Status st = StepStatusRunning /\
      StepState.ContainerID st = container)).
  { apply startStep_post; [apply Hp1|done| |done|done].
    intros ctx' container' st s' Has _ Hrunning Hcid [= <- <-]. by exists st. }
  unfold post in Hpost. rewrite Hstart in Hpost. cbn [fst snd] in Hpost.
  destruct (Hpost eq_refl) as (st & Has & Hrunning & Hcid). clear Hpost.
  assert (Hrid : PipelineState.RunID (rr_state s1') = runID)
    by (rewrite (as_run _ _ _ _ Has); simpl; congruence).
  set (s2 := mkResumable W (rr_inner s1') (rr_state s1') 0).
  set (s3 := at_index (length script) s2). exists s2, s3, st. split_and!; [| |done|done|].
  - rewrite <- Hrid. apply NewResumableRunner_saved; [by apply Has|by rewrite Hrid].
  - rewrite (replay script 0 s2 rs); [by destruct Hc as [-> _]|done..|].
    intros j name res Hj. destruct (progress_replay [] s1 script rs 0 Hp1 eq_refl j name res Hj)
      as (st' & Hst' & ?).
    exists st'. split; [|done]. simpl. rewrite (as_steps _ _ _ _ Has). rewrite lookup_insert_ne; [done|].
    intros He%step_id_index. apply lookup_lt_Some in Hj. rewrite Hlz in Hj. lia.
  - apply RunResumable_running; [done| |done|by rewrite Hcid].
    simpl. by rewrite (as_steps _ _ _ _ Has), lookup_insert_eq.
Qed.
End replay.

(** ** Witnesses *)
Definition ex_time_text (t : time) : string :=
  if (t <? 0)%Z then "-" ++ Itoa (- t) else Itoa t.
Definition ex_parse_time (s : string) : option time :=
  match s with
  | String "-" s => Some (- Z.of_N (read_digits s 0))%Z
  | s => Some (Z.of_N (read_digits s 0))
  end.
Lemma ex_parse_time_text t : ex_parse_time (ex_time_text t) = Some t.
Proof.
  unfold ex_time_text. destruct (Z.ltb_spec t 0).
  - change (Some (- Z.of_N (read_digits (Itoa (- t)) 0))%Z = Some t).
    rewrite read_Itoa by lia. f_equal. lia.
  - pose proof (Itoa_digits t ltac:(lia)) as Hd. pose proof (read_Itoa t ltac:(lia)) as Hr.
    destruct (Itoa t) as [|a s]; [simpl in *; f_equal; lia|].
    cbn [all_chars] in Hd. apply andb_true_iff in Hd as [Ha _].
    assert (Hp : ex_parse_time (String a s) = Some (Z.of_N (read_digits (String a s) 0)))
      by (by destruct a as [[] [] [] [] [] [] [] []]).
    rewrite Hp, Hr. f_equal. lia.
Qed.
Definition ex_resume_text : ResumeText :=
  {| time_text := ex_time_text; parse_time := ex_parse_time; parse_time_text := ex_parse_time_text |}.
#[local] Existing Instances ex_clock ex_sha ex_runner_ns ex_runner_text ex_stamp ex_sentinel
  ex_resume_text stable_order some_map_order counter_ids.

Definition ex_resume_driver : ContainerDriver nat := ex_driver ex_events [] ex_logs.
Definition ex_resume_ending : @EndingContainers nat ex_resume_driver := ex_ending ex_events [] ex_logs.
#[local] Existing Instances ex_resume_driver ex_resume_ending.

Definition ex_resumed : resumable nat :=
  match (NewResumableRunner "r1" true ex_runner).1 with
  | Ok s => s | Err _ => mkResumable nat ex_runner (NewPipelineState "" false 0) 0
  end.
Definition ex_script : list RunInput.t := [ex_input "build"; ex_input "Unit Tests"].

Lemma ex_runner_quiet : quiet ex_runner.
Proof. reflexivity. Qed.

Lemma save_resume_roundtrip_witness :
  exists i, save ex_resumed = (Ok tt, set_inner i ex_resumed) /\
    NewResumableRunner "r1" true i = (Ok (mkResumable nat i (rr_state ex_resumed) 0), i).
Proof.
  apply (save_resume_roundtrip ex_resumed); [|discriminate].
  split; [exact ex_runner_quiet|]. split; [|intros v Hv; discriminate].
  intros k st Hst. discriminate.
Defined.

Lemma resumable_state_wf_witness :
  state_wf (rr_state (RunResumable ex_config (ex_input "build") ex_resumed).2).
Proof.
  exact (proj1 (resumable_state_wf ex_config ex_resumed (ex_input "build") JNull "v" 0
    (NewPipelineState_wf "r1" true 0))).
Defined.

Definition ex_results : list (option RunResult.t) * resumable nat :=
  match run_script ex_config ex_script ex_resumed with
  | (Ok rs, s) => (rs, s) | (Err _, s) => ([], s)
  end.
Definition ex_result_list : list RunResult.t := omap id ex_results.1.

Lemma resume_replays_witness :
  exists s2, NewResumableRunner "r1" true (rr_inner ex_results.2) = (Ok s2, rr_inner ex_results.2) /\
    exists s3, run_script ex_config ex_script s2 = (Ok ex_results.1, s3) /\
      rr_inner s3 = rr_inner ex_results.2 /\ rr_state s3 = rr_state ex_results.2.
Proof.
  apply (resume_replays ex_config ex_runner "r1" ex_script ex_resumed ex_results.1 ex_result_list
    ex_results.2); [exact ex_runner_quiet|reflexivity|discriminate|discriminate|reflexivity| |].
  - vm_compute. reflexivity.
  - split; [vm_compute; reflexivity|]. vm_compute. repeat constructor.
Defined.

Definition ex_waiting : resumable nat :=
  (startStep ex_config (step_id 2 "deploy") (ex_input "deploy") (at_index 3 ex_results.2)).2.

Lemma resume_reattaches_witness :
  exists s2 s3 step, NewResumableRunner "r1" true (rr_inner ex_waiting) = (Ok s2, rr_inner ex_waiting) /\
    run_script ex_config ex_script s2 = (Ok ex_results.1, s3) /\ rr_inner s3 = rr_inner ex_waiting /\
    StepState.ContainerID step = "deploy-00000000" /\
    RunResumable ex_config (ex_input "deploy") s3 =
      (let! r := reattachToContainer (step_id 2 "deploy") step in
       match r with
       | inl result => ret (Some result)
       | inr _ => let! r := runStep ex_config (step_id 2 "deploy") (ex_input "deploy") in ret (Some r)
       end) (at_index 3 s3).
Proof.
  apply (resume_reattaches ex_config ex_runner "r1" ex_script ex_resumed ex_results.1 ex_result_list
    ex_results.2 (ex_input "deploy") None "deploy-00000000" ex_waiting);
    [exact ex_runner_quiet|reflexivity|discriminate|reflexivity| | | |discriminate].
  - vm_compute. reflexivity.
  - split; [vm_compute; reflexivity|]. vm_compute. repeat constructor.
  - vm_compute. reflexivity.
Defined.

(** ** Where a resumed run differs *)

(** The environment goes to the container as it is: "secret:KEY" is not
    resolved, and the working directory and the CPU kind are dropped. *)
Lemma step_task_drops `{!MapOrder} taskID input :
  ContainerTask.Env (step_task taskID input) = RunInput.Env input /\
  ContainerTask.WorkDir (step_task taskID input) = "" /\
  ContainerLimits.CPUKind (ContainerTask.Limits (step_task taskID input)) = "".
Proof. done. Qed.

(** A container that cannot be polled any more. *)
Definition ex_lost_driver : ContainerDriver nat := {|
  cd_RunContainer := fun _ t w => (w, Ok (ContainerTask.ID t));
  cd_GetContainer := fun id w => (w, Ok id);
  cd_Status := fun _ _ w => (w, Err (EMsg "connection lost"));
  cd_Stream := fun _ _ w => (w, ([], []));
  cd_Logs := fun _ _ w => (w, ("", "", Ok tt));
  cd_Cleanup := fun _ w => (w, Ok tt);
  cd_CreateVolume := fun name _ w => (w, Ok (Volume.mk name "/vol"));
  cd_CleanupVolume := fun _ w => (w, Ok tt);
  cd_Exec := fun _ _ _ _ _ _ w => (w, ("", "", Ok 0%Z)) |}.
Lemma ex_lost_ends ctx id w : is_Some (@poll_status nat ex_lost_driver 1 ctx id w).2.
Proof. by eexists. Qed.
Definition ex_lost_ending : @EndingContainers nat ex_lost_driver :=
  {| cd_polls := fun _ _ _ => 1; cd_ends := ex_lost_ends |}.

(** [MarkForRetry] clears the container and the error, but a cleared field is
    omitted from the JSON and the store merges: the row keeps both. A process
    that dies after it recorded the retried step as running, and before it
    started its container, makes the next one reattach to the container of the
    attempt that failed. *)
Lemma retry_reattaches_old_container :
  let run := RunResumable (ContainerDriver0 := ex_lost_driver) (EndingContainers0 := ex_lost_ending)
               ex_config (ex_input "build") in
  let failed := (run ex_resumed).2 in
  let retried := (let! _ := on_step "0-build" MarkForRetry in let! _ := save in
                  beginStep ex_config "0-build" (ex_input "build")) failed in
  match (NewResumableRunner (W := nat) "r1" true (rr_inner retried.2)).1 with
  | Ok s =>
      (StepState.ContainerID <$> GetStep (rr_state retried.2) "0-build") = Some "" /\
      (StepState.ContainerID <$> GetStep (rr_state s) "0-build") = Some "build-00000000" /\
      (IsResumable <$> GetStep (rr_state s) "0-build") = Some true /\
      (StepState.Error <$> GetStep (rr_state s) "0-build") = Some "container status: connection lost"
  | Err _ => False
  end.
Proof. vm_compute. split_and!; reflexivity. Qed.
